(* ===== verification/_CoqProject ===== *)
-Q . S2P
Prelude.v
GoStrings.v
Netip.v
NetText.v
AddrText.v
Acl.v
AclFilter.v
Stun.v
Bencode.v
Dht.v
Encoding.v
Crypto.v
Obfs.v
Identity.v
Disco.v
RelayProto.v
RelayServer.v
RelayClient.v
Vless.v
Tunwrap.v
Magicsock.v
GoText.v
AclText.v
Pki.v
Store.v
Schema.v
Controller.v
ControllerNet.v
ControllerInv.v
ControllerMap.v
ControllerOps.v
ControllerHub.v
ControllerExample.v
DiscoMgr.v
Config.v
Names.v
NodeState.v
Url.v
Links.v
LocalSync.v
Node.v
NodeInv.v
NodeExample.v
Cmd.v
CmdInv.v
CmdExample.v
Update.v
Login.v
LoginInv.v
Oidc.v
LoginExample.v
Server.v
Panel.v
ServerInv.v
ServerExample.v
Client.v
ClientExample.v
Admin.v
AdminInv.v
AdminExample.v
Dns.v
RoomPeers.v
Room.v
RoomInv.v
RoomLinux.v
Exitnat.v
RoomExample.v
Portmap.v
Netcheck.v
Gossip.v
GossipExample.v
NodeSync.v
NodeSyncInv.v
NodeSyncExample.v
NodeLoops.v
Status.v
Tray.v
