(* ===== verification/Prelude.v ===== *)
(** * zeropentime: a verification library

    zeropentime is a virtual private network of rooms. A controller keeps users,
    rooms, nodes and members in a database, shows a panel, and signs for every
    room a configuration; a node joins with an invitation, polls the controller
    for its network map, and runs each room as an AmneziaWG device. Nodes find
    paths to each other (STUN, pings, a DHT, port mappings), fall back to a relay
    over UDP or over a TCP stream, pass configurations on to each other, and can
    run rooms without any controller. This library models the Go code under src/
    that decides these things, as functions, and proves what it guarantees.

    ** How the code is modelled

    Every model is a shallow embedding. A Go string or byte slice is [bytes], a
    list of integers; an integer of a machine width is a [Z] with its wrap-around
    written out; a struct is a Record; a map is a [gmap] (with the iteration
    order as an argument where it is visible) and a shared pointer is an index
    into a heap. A function that can fail returns [res]: a value, an error of the
    component, or [Panic], a run-time panic. A handler is a function from the
    state, the time, the random bytes it draws and its input to its result, its
    effects (packets, calls of the operating system) and the new state; what runs
    under a lock is one step. Loops and goroutines are step relations or
    functions over the list of what arrives, and invariants are proved over all
    interleavings of steps.

    ** The parts and where they are

    Shared
    - Prelude: outcomes, machine integers, byte order, lists, options, tactics.
    - GoStrings, GoText: strings, strconv, unicode/utf8. Encoding: hex, base32,
      base64. Netip, NetText, AddrText: net/netip, host and port texts, and that
      printed addresses are read back. Url: net/url as invitations use it.
    - Crypto: the cryptographic primitives as a class, their laws, a toy instance.

    Cryptography and documents
    - Identity (internal/identity): node IDs and derived keys.
    - Obfs (internal/obfs): a room secret, its obfuscation profile and packet tag.
    - Pki (internal/pki): signed configurations and signed requests.
    - Acl, AclFilter, AclText (internal/acl): rules, policy, the stateful filter.

    Transport
    - Stun (internal/stun); Bencode, Dht (internal/dht): the DHT client.
    - Disco (internal/disco), DiscoMgr (internal/node/disco.go): path discovery.
    - RelayProto, RelayServer, RelayClient (internal/relay): the relay.
    - Vless (internal/vless, internal/vlesssrv): the relay over a stream.
    - Magicsock (internal/magicsock): the socket all of a node's rooms share.
    - Tunwrap (internal/tunwrap): broadcasts between the members of a room.
    - Portmap (internal/portmap), Netcheck (internal/netcheck).

    Controller
    - Schema, Store (internal/store): the schema and its migrations, every
      statement as a transaction on tables, sealed secrets.
    - Controller (internal/controller/service.go, hub.go): every operation of the
      service. ControllerNet: subnets and addresses. ControllerInv: the invariant.
      ControllerMap: the network map. ControllerOps: permissions and joining.
      ControllerHub: long polls. ControllerExample: a run.
    - Login, LoginInv, LoginExample (auth.go, totp.go), Oidc (oidc.go).
    - Server, Panel (server.go, nodeapi.go, panel.go, dashboard.go, oidc_panel.go):
      [panel.serve] is one HTTP request. ServerInv, ServerExample: its theorems.
    - Admin, AdminInv, AdminExample (cmd/zpt-controller): terminal commands.
    - Client, ClientExample (internal/client): the node's side of the HTTP API,
      put together with the server.

    Node
    - Config (internal/config): validation. Names: labels and interface names.
    - NodeState (internal/node/state.go, local.go): the state file and rooms
      without a controller. Links (internal/api, local.go): invitation links.
      Cmd, CmdInv, CmdExample (cmd/zpt): commands that change the state file.
    - LocalSync (localsync.go, cards.go, admins.go): joining without a controller.
    - Node (node.go): from network maps to running rooms. NodeInv, NodeExample.
    - NodeSync, NodeSyncInv, NodeSyncExample (node.go, localsync.go): the turns of
      the supervisor. NodeLoops (node.go, dht.go, relaytransport.go, updates.go,
      cards.go): the loops. Gossip, GossipExample (gossip.go, cards.go).
    - Status (status.go, internal/control), Tray (cmd/zpt-tray/model.go).
    - RoomPeers, Room, RoomInv, RoomExample (internal/room/room.go): a running
      room. RoomLinux (ifconfig_linux.go, routes_linux.go, killswitch_linux.go).
    - Dns (internal/dnsfwd), Exitnat (internal/exitnat), Update (internal/update).

    ** How they interact

    A request enters [panel.serve], which is a run of operations of [controller]
    on [store]'s tables; [controller.netMap] signs with [pki], and [client] opens
    what [server] sealed. [node.apply] verifies each configuration with [pki] and
    turns it into a [config.Room]; [room] changes the device and the machine.
    [nodesync] decides what is polled, [gossip] and [localsync] bring
    configurations from other members through the same [node.roomFromConfig].
    Datagrams enter [magicsock], which hands them to a room by its [obfs] tag, to
    [discomgr], to [relaycli] or to a STUN exchange; [discomgr] tells the device
    which address a peer has; [relaysrv] forwards between relay clients and asks
    the controller who may talk. The packets of a room pass [tunwrap] and the
    [filter] of the room's rules.

    ** What the theorems show

    - Invariants over every reachable state: the controller's database under all
      requests and commands (AdminInv, ControllerInv), the rooms of a node
      (NodeInv: signed, or waiting with the owner of the invite as only peer), a
      running room against its device, its routes, its resolver and its exit
      (RoomInv), the sessions of the relay (RelayServer).
    - Who may do what: joins, the panel, sign-in (ControllerOps, ServerInv,
      LoginInv, Oidc: who can open a session and until which second; how many
      wrong passwords a limiter lets through when sign-ins run at once), requests and configurations only with the right signature
      (Pki, NodeInv, ServerInv), updates only with the built-in key (Update), the
      relay and the filter only for whom they admit (RelayServer, AclFilter: with
      the packets the filter does not judge, named), what reaches the system from
      the device and the broadcasts (Tunwrap).
    - End to end: two nodes find a path (DiscoMgr), a payload passes the relay
      (RelayClient, Vless), a configuration spreads, announced, asked for, served
      and applied (Gossip), a join with and without a controller is completed
      (Client, LocalSync), an invitation is accepted (CmdInv), a change wakes the
      polls (ControllerHub), a database is completed after interrupted openings
      (Schema).
    - Refinement: the network map against the tables (ControllerMap), the device
      against the configured peers (RoomInv), broadcasts against a reference
      (Tunwrap), a lookup in the DHT against the answers it got (Dht), the client
      against the service (Client).
    - Failing calls: a download leaves no unverified file that can be removed
      (Update), the policy routing of an exit's client is one room's whatever a
      crashed node left and whichever commands fail (RoomLinux).
    - Runs where the code falls short of its comments, as theorems: a network given
      to two members and lost, a refused route that is never retried (RoomExample),
      sign-ins at once against the limiter (LoginExample), a local room without a
      configuration that is not stopped (NodeSyncExample), and others in Bencode,
      AdminExample, Tray and Client.
    - Round trips of rules, keys, links, addresses, frames and messages; no panic
      and bounded queues and tables in what reads the network.

    ** Bounds and fuel

    Recursion that is not structural has fuel that is enough for every input it is
    used on: the decoder of bencode takes more than twice the length of its input
    (Bencode), loops over text, datagrams and streams the length of theirs
    (GoText, Dht, Dns, Stun, Vless), searches for an address or a name one more
    than there can be taken (Controller, NodeState, Node), printing of numbers
    more than their digits (GoStrings), waiting of a limiter the number of bytes
    (Exitnat), migrations the versions that are left (Schema). [roomlinux] deletes
    rules until the kernel has none; its theorem assumes that the kernel holds no
    more of each kind than the fuel.

    ** Parameters

    Code that is not in the repository is a class or an argument, with what is
    relied on as a class of laws, and every main theorem that uses one has a
    witness with a concrete instance: cryptography ([Crypto], [CryptoLaws],
    [Aead], [AeadLaws], [Auth], [AuthLaws]), encodings of encoding/json ([Json],
    [GossipJson], [CardsJson], [UpdateJson], [ClientJson], [Web]), providers of
    OpenID Connect ([Provider]), the DNS codec and network ([Codec], [Net]), the
    AmneziaWG device ([Device], [DeviceLaws]), the kernel's routing commands
    ([ip_laws]), Unicode case folding, the parser of IPv6 literals of net/url,
    formatted values, and the orders of Go's maps.

    ** Not modelled

    Third-party code in the tree (internal/wgfirewall from wireguard-windows, the
    fork of wireguard-go's netstack in internal/netstack); the glue of Windows and
    macOS (internal/room); REALITY and TLS; gVisor; templates, QR codes and
    drawings of the panel; printing, flags and system services of the programs;
    the desktop side of the tray; sockets, pipes, files, locks and logs
    themselves; SQLite and backups; test helpers. They only move bytes to and from
    the modelled code or ask the operating system for something. *)
From stdpp Require Import base gmap list strings numbers tactics.
From Stdlib Require Import ZArith Lia.

Open Scope Z_scope.

(** ** Outcomes of Go code

    [Ok] is a normal return, [Err] a returned error, [Panic] a run-time panic
    (an index or slice expression out of range). *)
Inductive res (E A : Type) : Type :=
  | Ok (a : A)
  | Err (e : E)
  | Panic.
Arguments Ok {E A} a.
Arguments Err {E A} e.
Arguments Panic {E A}.

#[export] Instance res_ret {E} : MRet (res E) := fun A a => Ok a.
#[export] Instance res_bind {E} : MBind (res E) := fun A B f m =>
  match m with
  | Ok a => f a
  | Err e => Err e
  | Panic => Panic
  end.
#[export] Instance res_fmap {E} : FMap (res E) := fun A B f m =>
  match m with
  | Ok a => Ok (f a)
  | Err e => Err e
  | Panic => Panic
  end.

Definition is_ok {E A} (r : res E A) : bool :=
  match r with Ok _ => true | _ => false end.

(** Replace the error of a result, the way the code wraps an error. *)
Definition map_err {E F A} (f : E -> F) (r : res E A) : res F A :=
  match r with
  | Ok a => Ok a
  | Err e => Err (f e)
  | Panic => Panic
  end.

(** The error of a call is dropped and another one returned. *)
Definition or_err {E F A} (r : res E A) (e : F) : res F A := map_err (fun _ => e) r.

(** An [option] as the code's [(value, ok)] pair, with the error returned when
    [ok] is false. *)
Definition from_option {E A} (o : option A) (e : E) : res E A :=
  match o with Some a => Ok a | None => Err e end.

Definition guard_err {E} (b : bool) (e : E) : res E unit :=
  if b then Ok tt else Err e.

Lemma bind_ok {E A B} (m : res E A) (f : A -> res E B) b :
  m ≫= f = Ok b <-> exists a, m = Ok a /\ f a = Ok b.
Proof.
  split.
  - destruct m; simpl; intros H; try discriminate. eauto.
  - intros (a & -> & H). exact H.
Qed.

Lemma bind_panic {E A B} (m : res E A) (f : A -> res E B) :
  m ≫= f = Panic <-> m = Panic \/ exists a, m = Ok a /\ f a = Panic.
Proof.
  split.
  - destruct m; simpl; intros H; try discriminate; eauto.
  - intros [-> | (a & -> & H)]; [reflexivity | exact H].
Qed.

(** ** Machine integers *)

Definition u8 (z : Z) : Z := z mod 2 ^ 8.
Definition u16 (z : Z) : Z := z mod 2 ^ 16.
Definition u32 (z : Z) : Z := z mod 2 ^ 32.
Definition u64 (z : Z) : Z := z mod 2 ^ 64.
(** Two's complement wrap-around of a 64-bit [int]. *)
Definition int64 (z : Z) : Z := (z + 2 ^ 63) mod 2 ^ 64 - 2 ^ 63.

Lemma int64_small z : - 2 ^ 63 <= z < 2 ^ 63 -> int64 z = z.
Proof. intros H. unfold int64. rewrite Z.mod_small; lia. Qed.

(** ** Byte strings *)

Abbreviation bytes := (list Z).

Definition byte_ok (b : Z) : Prop := 0 <= b < 256.
Abbreviation bytes_ok := (Forall byte_ok).

Definition zlen {A} (l : list A) : Z := Z.of_nat (length l).

(** [sub l i j] is [l[i:j]] for indices in range. *)
Definition sub {A} (l : list A) (i j : Z) : list A :=
  take (Z.to_nat (j - i)) (drop (Z.to_nat i) l).

(** The slice expression [l[i:j]]; reading past the length is a panic. *)
Definition slice {E A} (l : list A) (i j : Z) : res E (list A) :=
  if (0 <=? i) && (i <=? j) && (j <=? zlen l) then Ok (sub l i j) else Panic.

(** The index expression [l[i]]. *)
Definition index {E A} (l : list A) (i : Z) : res E A :=
  if 0 <=? i then
    match l !! Z.to_nat i with Some a => Ok a | None => Panic end
  else Panic.

(** [binary.BigEndian.Uint16], [Uint32]: panic on a short slice. *)
Definition be (l : bytes) : Z := fold_left (fun acc b => acc * 256 + b) l 0.
Definition uint16_be {E} (l : bytes) : res E Z := be <$> slice l 0 2.
Definition uint32_be {E} (l : bytes) : res E Z := be <$> slice l 0 4.

(** [binary.BigEndian.PutUint16], [PutUint32]: the bytes written. *)
Fixpoint put_be (n : nat) (v : Z) : bytes :=
  match n with
  | O => []
  | S n => put_be n (v / 256) ++ [v mod 256]
  end.

(** [copy(dst, src)]: the new contents of [dst]. *)
Definition copy_into {A} (dst src : list A) : list A :=
  take (length dst) src ++ drop (length src) dst.

(** Writing [src] over [l] from offset [i] on ([copy(l[i:], src)]). *)
Definition put_at {A} (l : list A) (i : Z) (src : list A) : list A :=
  take (Z.to_nat i) l ++ copy_into (drop (Z.to_nat i) l) src.

Definition xor_bytes (a b : bytes) : bytes := zip_with Z.lxor a b.

Definition zeros (n : nat) : bytes := replicate n 0.

(** ** Lemmas on lists and slices *)

Lemma forallb_Forall {A} (f : A -> bool) l : forallb f l = true <-> Forall (fun a => f a = true) l.
Proof.
  induction l as [| a l IH]; simpl; [by split |]. rewrite andb_true_iff. split.
  - intros [H1 H2]. constructor; [exact H1 | by apply IH].
  - intros H. inversion H; subst. split; [done | by apply IH].
Qed.

Lemma existsb_Forall {A} (f : A -> bool) l : existsb f l = false <-> Forall (fun a => f a = false) l.
Proof.
  induction l as [| a l IH]; simpl; [by split |]. rewrite orb_false_iff. split.
  - intros [H1 H2]. constructor; [exact H1 | by apply IH].
  - intros H. inversion H; subst. split; [done | by apply IH].
Qed.

Lemma zlen_nonneg {A} (l : list A) : 0 <= zlen l.
Proof. unfold zlen. lia. Qed.

Lemma zlen_app {A} (a b : list A) : zlen (a ++ b) = zlen a + zlen b.
Proof. unfold zlen. rewrite length_app. lia. Qed.

Lemma zlen_cons {A} (a : A) l : zlen (a :: l) = 1 + zlen l.
Proof. unfold zlen. simpl. lia. Qed.

Lemma zlen_nil {A} : zlen (@nil A) = 0.
Proof. reflexivity. Qed.

Lemma zlen_sub {A} (l : list A) i j :
  0 <= i <= j -> j <= zlen l -> zlen (sub l i j) = j - i.
Proof.
  unfold zlen, sub. intros H1 H2. rewrite length_take, length_drop. lia.
Qed.

Lemma slice_ok {E A} (l : list A) i j :
  0 <= i <= j -> j <= zlen l -> slice (E := E) l i j = Ok (sub l i j).
Proof.
  intros H1 H2. unfold slice.
  by rewrite (proj2 (Z.leb_le 0 i)), (proj2 (Z.leb_le i j)), (proj2 (Z.leb_le j (zlen l))) by lia.
Qed.

Lemma slice_inv {E A} (l s : list A) i j :
  slice (E := E) l i j = Ok s -> 0 <= i <= j /\ j <= zlen l /\ s = sub l i j.
Proof.
  unfold slice. destruct (_ && _ && _) eqn:H; intros [=]; subst.
  apply andb_prop in H as [H ?]. apply andb_prop in H as [? ?].
  split; [lia | split; [lia | done]].
Qed.

(** A slice expression has a value or panics: it never returns an error. *)
Lemma slice_cases {E A} (l : list A) i j :
  slice (E := E) l i j = Ok (sub l i j) \/ slice (E := E) l i j = Panic.
Proof. unfold slice. case_match; auto. Qed.

Lemma slice_panic {E A} (l : list A) i j :
  i < 0 \/ j < i \/ zlen l < j -> slice (E := E) l i j = Panic.
Proof.
  intros H. unfold slice.
  destruct (Z.leb_spec 0 i), (Z.leb_spec i j), (Z.leb_spec j (zlen l)); simpl; try done; lia.
Qed.

Lemma index_ok {E A} (l : list A) i (d : A) :
  0 <= i < zlen l -> index (E := E) l i = Ok (nth (Z.to_nat i) l d).
Proof.
  unfold zlen, index. intros H. rewrite (proj2 (Z.leb_le 0 i)) by lia.
  destruct (lookup_lt_is_Some_2 l (Z.to_nat i)) as [a Ha]; [lia |].
  rewrite Ha. apply nth_lookup_Some with (d := d) in Ha. by rewrite Ha.
Qed.

Lemma sub_all {A} (l : list A) : sub l 0 (zlen l) = l.
Proof. unfold sub, zlen. rewrite drop_0. apply take_ge. lia. Qed.

Lemma sub_cut {A} (l : list A) a b c : 0 <= a <= b -> b <= c -> sub l a c = sub l a b ++ sub l b c.
Proof.
  intros H1 H2. unfold sub.
  replace (Z.to_nat (c - a)) with (Z.to_nat (b - a) + Z.to_nat (c - b))%nat by lia.
  rewrite <- take_take_drop, drop_drop. do 3 f_equal. lia.
Qed.

Lemma sub_sub {A} (l : list A) i j a b : 0 <= i -> 0 <= a <= b -> i + b <= j ->
  sub (sub l i j) a b = sub l (i + a) (i + b).
Proof.
  intros H1 H2 H3. unfold sub. rewrite skipn_firstn_comm, take_take, drop_drop. f_equal; [lia |].
  f_equal. lia.
Qed.

Lemma sub_app_l {A} (a b : list A) i j :
  0 <= i <= j -> j <= zlen a -> sub (a ++ b) i j = sub a i j.
Proof.
  unfold sub, zlen. intros H1 H2.
  rewrite drop_app_le by lia. rewrite take_app_le; [done |].
  rewrite length_drop. lia.
Qed.

Lemma sub_app_r {A} (a b : list A) i j :
  zlen a <= i -> sub (a ++ b) i j = sub b (i - zlen a) (j - zlen a).
Proof.
  unfold sub, zlen. intros H. rewrite drop_app_ge by lia.
  replace (Z.to_nat (j - i)) with (Z.to_nat (j - Z.of_nat (length a) - (i - Z.of_nat (length a)))) by lia.
  by replace (Z.to_nat i - length a)%nat with (Z.to_nat (i - Z.of_nat (length a))) by lia.
Qed.

Lemma sub_app_exact {A} (a b c : list A) i j :
  i = zlen a -> j = zlen a + zlen b -> sub (a ++ b ++ c) i j = b.
Proof.
  intros -> ->. rewrite sub_app_r by lia. rewrite Z.sub_diag.
  replace (zlen a + zlen b - zlen a) with (zlen b) by lia.
  rewrite sub_app_l by (pose proof (zlen_nonneg b); lia). apply sub_all.
Qed.

Lemma sub_app_tail {A} (a b : list A) i j :
  i = zlen a -> j = zlen a + zlen b -> sub (a ++ b) i j = b.
Proof. intros. rewrite <- (app_nil_r b) at 1. by apply sub_app_exact. Qed.

Lemma sub_app_head {A} (b c : list A) j : j = zlen b -> sub (b ++ c) 0 j = b.
Proof. intros ->. by apply (sub_app_exact [] b c). Qed.

Lemma sub_bytes_ok (l : bytes) i j : bytes_ok l -> bytes_ok (sub l i j).
Proof. intros H. apply Forall_take, Forall_drop, H. Qed.

(** ** Lemmas on big-endian encodings *)

Lemma be_snoc l b : be (l ++ [b]) = be l * 256 + b.
Proof. unfold be. by rewrite fold_left_app. Qed.

Lemma be_app a b : be (a ++ b) = be a * 256 ^ zlen b + be b.
Proof.
  induction b as [| x b IH] using rev_ind; [rewrite app_nil_r; unfold zlen; simpl; change (be []) with 0; lia |].
  rewrite app_assoc, !be_snoc, IH, zlen_app. change (zlen [x]) with 1.
  rewrite Z.pow_add_r by (unfold zlen; lia). lia.
Qed.

Lemma be_bound l : bytes_ok l -> 0 <= be l < 256 ^ zlen l.
Proof.
  induction l as [| b l IH] using rev_ind; intros H; [by cbv |].
  apply Forall_app in H as [H Hb]. apply Forall_inv in Hb. specialize (IH H).
  rewrite be_snoc, zlen_app. change (zlen [b]) with 1.
  pose proof (zlen_nonneg l). rewrite Z.pow_add_r by lia.
  unfold byte_ok in Hb. lia.
Qed.

Lemma length_put_be n v : length (put_be n v) = n.
Proof.
  revert v. induction n; intros v; [done |]. cbn [put_be].
  rewrite length_app, IHn. simpl. lia.
Qed.

Lemma zlen_put_be n v : zlen (put_be n v) = Z.of_nat n.
Proof. unfold zlen. by rewrite length_put_be. Qed.

Lemma put_be_ok n v : bytes_ok (put_be n v).
Proof.
  revert v. induction n; intros v; [constructor |]. cbn [put_be].
  apply Forall_app. split; [apply IHn |]. constructor; [| constructor].
  unfold byte_ok. apply Z.mod_pos_bound. lia.
Qed.

Lemma be_put_be n v : be (put_be n v) = v mod 256 ^ Z.of_nat n.
Proof.
  revert v. induction n; intros v.
  { simpl. by rewrite Z.mod_1_r. }
  cbn [put_be]. rewrite be_snoc, IHn, Nat2Z.inj_succ, Z.pow_succ_r by lia.
  rewrite Z.rem_mul_r by lia. lia.
Qed.

Lemma put_be_be l : bytes_ok l -> put_be (length l) (be l) = l.
Proof.
  induction l as [| b l IH] using rev_ind; intros H; [done |].
  apply Forall_app in H as [H Hb]. apply Forall_inv in Hb. unfold byte_ok in Hb.
  rewrite length_app, Nat.add_comm. cbn [length Nat.add put_be]. rewrite be_snoc.
  rewrite Z.div_add_l, (Z.div_small b), Z.add_0_r by lia.
  rewrite IH by done. f_equal. f_equal.
  rewrite Z.add_comm, Z.mod_add, Z.mod_small by lia. done.
Qed.

Lemma be_put_be_small n v : 0 <= v < 256 ^ Z.of_nat n -> be (put_be n v) = v.
Proof. intros H. rewrite be_put_be. by apply Z.mod_small. Qed.

(** Reading an integer out of a slice expression that is in range. *)
Lemma uint16_sub {E} b i : 0 <= i -> i + 2 <= zlen b ->
  slice (E := E) b i (i + 2) ≫= uint16_be = Ok (be (sub b i (i + 2))).
Proof.
  intros Hi Hb. rewrite slice_ok by lia. cbn [mbind res_bind]. unfold uint16_be.
  rewrite slice_ok by (rewrite ?zlen_sub; lia). cbn [fmap res_fmap]. f_equal. f_equal.
  replace 2 with (zlen (sub b i (i + 2))) at 2 by (rewrite zlen_sub; lia). apply sub_all.
Qed.

Lemma uint32_sub {E} b i : 0 <= i -> i + 4 <= zlen b ->
  slice (E := E) b i (i + 4) ≫= uint32_be = Ok (be (sub b i (i + 4))).
Proof.
  intros Hi Hb. rewrite slice_ok by lia. cbn [mbind res_bind]. unfold uint32_be.
  rewrite slice_ok by (rewrite ?zlen_sub; lia). cbn [fmap res_fmap]. f_equal. f_equal.
  replace 4 with (zlen (sub b i (i + 4))) at 2 by (rewrite zlen_sub; lia). apply sub_all.
Qed.

(** ** Lemmas on exclusive or *)

Lemma lxor_byte_ok a b : byte_ok a -> byte_ok b -> byte_ok (Z.lxor a b).
Proof.
  unfold byte_ok. intros Ha Hb.
  assert (0 <= Z.lxor a b) by (apply Z.lxor_nonneg; lia).
  split; [done |].
  destruct (decide (Z.lxor a b = 0)) as [-> | Hz]; [lia |].
  apply (Z.log2_lt_pow2 _ 8); [lia |].
  pose proof (Z.log2_lxor a b ltac:(lia) ltac:(lia)) as Hl.
  assert (forall x, 0 <= x < 256 -> Z.log2 x < 8) as Hlog.
  { intros x Hx. destruct (decide (x = 0)) as [-> | ]; [by cbv |].
    apply Z.log2_lt_pow2; lia. }
  pose proof (Hlog a Ha). pose proof (Hlog b Hb). lia.
Qed.

Lemma lxor_lxor a b : Z.lxor (Z.lxor a b) b = a.
Proof. by rewrite Z.lxor_assoc, Z.lxor_nilpotent, Z.lxor_0_r. Qed.

Lemma xor_bytes_involutive a b : (length a <= length b)%nat -> xor_bytes (xor_bytes a b) b = a.
Proof.
  revert b. induction a as [| x a IH]; intros [| y b] H; simpl in *; try done; [lia |].
  unfold xor_bytes in *. simpl. rewrite lxor_lxor, IH by lia. done.
Qed.

Lemma xor_bytes_ok a b : bytes_ok a -> bytes_ok b -> bytes_ok (xor_bytes a b).
Proof.
  intros Ha. revert b. induction Ha; intros b Hb; [constructor |].
  destruct Hb; [constructor |]. unfold xor_bytes. simpl.
  constructor; [by apply lxor_byte_ok | by apply IHHa].
Qed.

Lemma length_xor_bytes a b : length (xor_bytes a b) = (length a `min` length b)%nat.
Proof. unfold xor_bytes. by rewrite length_zip_with. Qed.

(** ** Time

    A [time.Time] is a number of nanoseconds; [time.Time{}] (year 1) is far in
    the past. [Time.Sub] saturates at the range of [time.Duration]. *)
Definition Second : Z := 1000000000.
Definition Minute : Z := 60 * Second.
Definition Hour : Z := 60 * Minute.
Definition time_zero : Z := -62135596800 * Second.
Definition time_sub (a b : Z) : Z := Z.max (- 2 ^ 63) (Z.min (2 ^ 63 - 1) (a - b)).

Lemma time_sub_lt a b d : - 2 ^ 63 < d < 2 ^ 63 -> (time_sub a b < d <-> a - b < d).
Proof. unfold time_sub. lia. Qed.

Lemma time_sub_gt a b d : - 2 ^ 63 <= d < 2 ^ 63 - 1 -> (d < time_sub a b <-> d < a - b).
Proof. unfold time_sub. lia. Qed.

(** ** Automation *)

Create HintDb go discriminated.
#[export] Hint Resolve put_be_ok sub_bytes_ok xor_bytes_ok lxor_byte_ok zlen_nonneg : go.

(** Split boolean hypotheses into facts [lia] understands. *)
Ltac bool_hyps :=
  repeat match goal with
  | H : _ && _ = true |- _ => apply andb_prop in H as [? ?]
  | H : _ || _ = false |- _ => apply orb_false_elim in H as [? ?]
  | H : negb _ = true |- _ => apply negb_true_iff in H
  | H : negb _ = false |- _ => apply negb_false_iff in H
  | H : (_ <=? _) = true |- _ => apply Z.leb_le in H
  | H : (_ <=? _) = false |- _ => apply Z.leb_gt in H
  | H : (_ <? _) = true |- _ => apply Z.ltb_lt in H
  | H : (_ <? _) = false |- _ => apply Z.ltb_ge in H
  | H : (_ =? _) = true |- _ => apply Z.eqb_eq in H
  | H : (_ =? _) = false |- _ => apply Z.eqb_neq in H
  | H : bool_decide _ = true |- _ => apply bool_decide_eq_true in H
  | H : bool_decide _ = false |- _ => apply bool_decide_eq_false in H
  end.

(** Split on the test a computation starts with. *)
Ltac head_if H :=
  match goal with
  | |- (if ?c then _ else _) = _ -> _ => destruct c eqn:H
  | |- (if ?c then _ else _) = _ => destruct c eqn:H
  end.

(** Invert a chain of binds that ended well. *)
Ltac invert_ok :=
  repeat match goal with
  | H : _ ≫= _ = Ok _ |- _ => apply bind_ok in H as (? & ? & ?)
  | H : Ok _ = Ok _ |- _ => injection H as H; subst
  | H : mret _ = Ok _ |- _ => injection H as H; subst
  | H : Err _ = Ok _ |- _ => discriminate H
  | H : Panic = Ok _ |- _ => discriminate H
  end.

Lemma be_sub_nonneg b i j : bytes_ok b -> 0 <= be (sub b i j).
Proof. intros H. apply be_bound. by apply sub_bytes_ok. Qed.

Lemma be_sub_uint16 b i : bytes_ok b -> 0 <= i -> i + 2 <= zlen b -> 0 <= be (sub b i (i + 2)) < 2 ^ 16.
Proof.
  intros H Hi Hb. pose proof (be_bound (sub b i (i + 2)) (sub_bytes_ok _ _ _ H)) as Hr.
  rewrite zlen_sub in Hr by lia. by replace (i + 2 - i) with 2 in Hr by lia.
Qed.

(** Lengths of concatenations of encoded fields. *)
Ltac zlens :=
  repeat first [rewrite zlen_app | rewrite zlen_put_be | rewrite zlen_cons];
  repeat match goal with |- context [zlen (@nil ?A)] => change (zlen (@nil A)) with 0 end;
  lia.

Lemma copy_into_full {A} (dst src : list A) : length dst = length src -> copy_into dst src = src.
Proof.
  intros H. unfold copy_into. rewrite H, take_ge by lia. rewrite <- H, drop_all. apply app_nil_r.
Qed.

Lemma length_copy_into {A} (dst src : list A) :
  (length src <= length dst)%nat -> length (copy_into dst src) = length dst.
Proof. intros H. unfold copy_into. rewrite length_app, length_take, length_drop. lia. Qed.

Lemma lxor_uint16 a b : 0 <= a < 2 ^ 16 -> 0 <= b < 2 ^ 16 -> 0 <= Z.lxor a b < 2 ^ 16.
Proof.
  intros Ha Hb. assert (0 <= Z.lxor a b) by (apply Z.lxor_nonneg; lia).
  split; [done |]. destruct (decide (Z.lxor a b = 0)) as [-> | Hz]; [lia |].
  apply Z.log2_lt_pow2; [lia |].
  pose proof (Z.log2_lxor a b ltac:(lia) ltac:(lia)).
  assert (forall x, 0 <= x < 2 ^ 16 -> Z.log2 x < 16) as Hlog.
  { intros x Hx. destruct (decide (x = 0)) as [-> |]; [by cbv |]. apply Z.log2_lt_pow2; lia. }
  pose proof (Hlog a Ha). pose proof (Hlog b Hb). lia.
Qed.
