(* ===== verification/GoStrings.v ===== *)
(** Go's text functions: a Go [string] is a byte string, so it is [bytes]
    here. These are the functions of packages [strings] and [strconv] that the
    modelled code calls, for the arguments it calls them with (one-byte
    separators, base 10). White space is Go's [unicode.IsSpace], recognised by
    its UTF-8 encodings: an encoding never starts inside another rune, so
    looking at bytes gives the same fields as decoding runes. *)
From stdpp Require Import base list strings sets.
From Stdlib Require Import ZArith Lia.
From S2P Require Import Prelude.

Open Scope Z_scope.

(** A string literal of the source. *)
Definition str (s : string) : bytes := Z.of_N ∘ Ascii.N_of_ascii <$> String.list_ascii_of_string s.

(** ** White space *)

Definition space1 (c : Z) : bool := ((9 <=? c) && (c <=? 13)) || (c =? 32).
Definition space2 (c d : Z) : bool := (c =? 194) && ((d =? 133) || (d =? 160)).
Definition space3 (c d e : Z) : bool :=
  ((c =? 225) && (d =? 154) && (e =? 128))
  || ((c =? 226) && (d =? 128) && (((128 <=? e) && (e <=? 138)) || (e =? 168) || (e =? 169) || (e =? 175)))
  || ((c =? 226) && (d =? 129) && (e =? 159))
  || ((c =? 227) && (d =? 128) && (e =? 128)).

(** Drop leading spaces; [s2] and [s3] recognise the two and three byte ones. *)
Fixpoint drop_spaces (s2 : Z -> Z -> bool) (s3 : Z -> Z -> Z -> bool) (s : bytes) : bytes :=
  match s with
  | [] => []
  | c :: r =>
    if space1 c then drop_spaces s2 s3 r
    else match r with
    | [] => s
    | d :: r =>
      if s2 c d then drop_spaces s2 s3 r
      else match r with
      | [] => s
      | e :: r => if s3 c d e then drop_spaces s2 s3 r else s
      end
    end
  end.

Definition TrimLeftSpace (s : bytes) : bytes := drop_spaces space2 space3 s.
Definition TrimRightSpace (s : bytes) : bytes :=
  rev (drop_spaces (fun d c => space2 c d) (fun e d c => space3 c d e) (rev s)).
Definition TrimSpace (s : bytes) : bytes := TrimRightSpace (TrimLeftSpace s).

(** End the current field, if there is one. *)
Definition end_field (cur : bytes) (fs : list bytes) : list bytes :=
  match cur with [] => fs | _ => cur :: fs end.

(** The fields of [s], when [cur] has been read of the current one. *)
Fixpoint fields_from (cur s : bytes) : list bytes :=
  match s with
  | [] => end_field cur []
  | c :: r =>
    if space1 c then end_field cur (fields_from [] r)
    else match r with
    | [] => end_field (cur ++ [c]) []
    | d :: r' =>
      if space2 c d then end_field cur (fields_from [] r')
      else match r' with
      | [] => fields_from (cur ++ [c]) r
      | e :: r'' =>
        if space3 c d e then end_field cur (fields_from [] r'')
        else fields_from (cur ++ [c]) r
      end
    end
  end.

Definition Fields (s : bytes) : list bytes := fields_from [] s.

(** ** Splitting, joining and searching *)

(** [strings.Split(s, sep)] for a one-byte separator. *)
Fixpoint Split (sep : Z) (s : bytes) : list bytes :=
  match s with
  | [] => [[]]
  | c :: r =>
    if c =? sep then [] :: Split sep r
    else match Split sep r with
         | [] => [[c]]
         | f :: fs => (c :: f) :: fs
         end
  end.

(** [strings.Join(l, sep)] for a one-byte separator. *)
Fixpoint Join (sep : Z) (l : list bytes) : bytes :=
  match l with
  | [] => []
  | [f] => f
  | f :: fs => f ++ sep :: Join sep fs
  end.

(** [strings.Cut(s, sep)]: before, after, found. *)
Fixpoint Cut (sep : Z) (s : bytes) : bytes * bytes * bool :=
  match s with
  | [] => ([], [], false)
  | c :: r =>
    if c =? sep then ([], r, true)
    else let '(a, b, ok) := Cut sep r in (c :: a, b, ok)
  end.

Fixpoint HasPrefix (s p : bytes) : bool :=
  match p, s with
  | [], _ => true
  | _ :: _, [] => false
  | a :: p, c :: s => (c =? a) && HasPrefix s p
  end.

Definition Contains1 (s : bytes) (c : Z) : bool := existsb (Z.eqb c) s.

(** [bytes.IndexByte]: -1 when absent. *)
Fixpoint IndexByte (s : bytes) (c : Z) : Z :=
  match s with
  | [] => -1
  | x :: r => if x =? c then 0 else let i := IndexByte r c in if i <? 0 then -1 else i + 1
  end.

(** [strings.LastIndexByte]: -1 when absent. *)
Fixpoint LastIndexByte (s : bytes) (c : Z) : Z :=
  match s with
  | [] => -1
  | x :: r => let i := LastIndexByte r c in
              if i <? 0 then (if x =? c then 0 else -1) else i + 1
  end.

(** ASCII lower case; the two other runes whose lower case is ASCII are
    U+0130 (to [i]) and U+212A (to [k]). Other runes stay as they are: no
    comparison of the modelled code with an ASCII literal depends on them. *)
Fixpoint ToLower (s : bytes) : bytes :=
  match s with
  | [] => []
  | c :: r =>
    if (65 <=? c) && (c <=? 90) then c + 32 :: ToLower r
    else match r with
    | d :: r' =>
      if (c =? 196) && (d =? 176) then 105 :: ToLower r'
      else match r' with
      | e :: r'' =>
        if (c =? 226) && (d =? 132) && (e =? 170) then 107 :: ToLower r''
        else c :: ToLower r
      | [] => c :: ToLower r
      end
    | [] => [c]
    end
  end.

(** ** Numbers *)

Definition is_digit (c : Z) : bool := (48 <=? c) && (c <=? 57).

Fixpoint digits_value (acc : Z) (s : bytes) : option Z :=
  match s with
  | [] => Some acc
  | c :: r => if is_digit c then digits_value (acc * 10 + (c - 48)) r else None
  end.

(** [strconv.ParseUint(s, 10, bits)]; both of its errors are [None]. *)
Definition ParseUint (bits : Z) (s : bytes) : option Z :=
  match s with
  | [] => None
  | _ => match digits_value 0 s with
         | Some v => if v <? 2 ^ bits then Some v else None
         | None => None
         end
  end.

(** [strconv.ParseInt(s, 10, 64)] and [strconv.Atoi]. *)
Definition ParseInt (s : bytes) : option Z :=
  let '(neg, d) := match s with
                   | 43 :: r => (false, r)
                   | 45 :: r => (true, r)
                   | _ => (false, s)
                   end in
  match ParseUint 64 d with
  | None => None
  | Some un =>
    if neg then (if un <=? 2 ^ 63 then Some (- un) else None)
    else (if un <? 2 ^ 63 then Some un else None)
  end.

Fixpoint dec_digits (fuel : nat) (n : Z) : bytes :=
  match fuel with
  | O => []
  | S fuel => if n <? 10 then [48 + n] else dec_digits fuel (n / 10) ++ [48 + n mod 10]
  end.

(** Decimal text of a non-negative number. A number has at most as many
    decimal digits as binary ones, which is the fuel. *)
Definition Utoa (n : Z) : bytes := dec_digits (S (Z.to_nat (Z.log2 n))) n.

(** [strconv.Itoa]. *)
Definition Itoa (n : Z) : bytes := if n <? 0 then 45 :: Utoa (- n) else Utoa n.

(** ** Lemmas: white space *)

(** The length of the space that [s] starts with, 0 when it starts with none. *)
Definition space_len (s : bytes) : nat :=
  match s with
  | c :: r =>
    if space1 c then 1
    else match r with
    | d :: r' =>
      if space2 c d then 2
      else match r' with
      | e :: _ => if space3 c d e then 3 else 0
      | [] => 0
      end
    | [] => 0
    end
  | [] => 0
  end%nat.

(** No space starts in the part [s] of [s ++ r]. *)
Definition no_space_before (s r : bytes) : Prop :=
  forall k, (k < length s)%nat -> space_len (drop k (s ++ r)) = 0%nat.

Definition no_space (s : bytes) : Prop := no_space_before s [].

Lemma IndexByte_app a c r : c ∉ a -> IndexByte (a ++ c :: r) c = zlen a.
Proof.
  induction a as [| x a IH]; intros H; simpl; [by rewrite Z.eqb_refl |].
  apply not_elem_of_cons in H as [Hx H]. rewrite (proj2 (Z.eqb_neq x c)) by congruence.
  rewrite IH by done. pose proof (zlen_nonneg a). rewrite (proj2 (Z.ltb_ge (zlen a) 0)) by lia.
  rewrite zlen_cons. lia.
Qed.

Lemma IndexByte_found s c : 0 <= IndexByte s c ->
  exists a r, s = a ++ c :: r /\ zlen a = IndexByte s c.
Proof.
  induction s as [| x s IH]; simpl; [lia |].
  destruct (Z.eqb_spec x c) as [-> | Hx]; [intros _; by exists [], s |].
  destruct (Z.ltb_spec (IndexByte s c) 0); [lia |]. intros _.
  destruct IH as (a & r & -> & Ha); [done |]. exists (x :: a), r. rewrite zlen_cons, Ha. split; [done | lia].
Qed.

Lemma fields_from_eq cur c r :
  fields_from cur (c :: r) =
    match space_len (c :: r) with
    | O => fields_from (cur ++ [c]) r
    | n => end_field cur (fields_from [] (drop n (c :: r)))
    end.
Proof.
  destruct r as [| d [| e r]]; cbn [fields_from space_len].
  - by destruct (space1 c).
  - destruct (space1 c); [done |]. by destruct (space2 c d).
  - destruct (space1 c); [done |]. destruct (space2 c d); [done |].
    by destruct (space3 c d e).
Qed.

Lemma space_len_le s : (space_len s <= length s)%nat.
Proof.
  destruct s as [| c [| d [| e r]]]; cbn; repeat case_match; simpl; lia.
Qed.

(** A space at the front stays one when bytes follow. *)
Lemma space_len_app s r : space_len (s ++ r) = 0%nat -> space_len s = 0%nat.
Proof.
  destruct s as [| c [| d [| e s]]]; cbn; repeat case_match; simplify_eq; done.
Qed.

Lemma no_space_before_weaken s r : no_space_before s r -> no_space s.
Proof.
  intros H k Hk. rewrite app_nil_r. specialize (H k Hk).
  rewrite drop_app_le in H by lia. by apply space_len_app in H.
Qed.

Lemma no_space_before_snoc s c r :
  no_space_before s (c :: r) -> space_len (c :: r) = 0%nat -> no_space_before (s ++ [c]) r.
Proof.
  intros H Hc k Hk. rewrite length_app in Hk. simpl in Hk.
  rewrite <- app_assoc. simpl.
  destruct (decide (k < length s)%nat) as [Hlt | Hge]; [by apply H |].
  assert (k = length s) as -> by lia. by rewrite drop_app_length.
Qed.

(** An ASCII byte never continues a space. *)
Lemma space_len_ascii s b r :
  0 <= b < 128 -> s <> [] -> space_len s = 0%nat -> space_len (s ++ b :: r) = 0%nat.
Proof.
  intros Hb Hs H.
  assert (forall c, space2 c b = false) as H2.
  { intros c. unfold space2. destruct (c =? 194); [| done]. simpl. lia. }
  assert (forall c d, space3 c d b = false) as H3 by (intros; unfold space3; lia).
  assert (forall c d, space3 c b d = false) as H3' by (intros; unfold space3; lia).
  destruct s as [| c [| d [| e s]]]; [done | | |]; cbn in *;
    repeat case_match; simplify_eq; try done; congruence.
Qed.

Lemma no_space_ascii s b r : 0 <= b < 128 -> no_space s -> no_space_before s (b :: r).
Proof.
  intros Hb H k Hk. specialize (H k Hk). rewrite app_nil_r in H.
  rewrite drop_app_le by lia. apply space_len_ascii; [done | | done].
  intros Hn. apply (f_equal length) in Hn. rewrite length_drop in Hn. simpl in Hn. lia.
Qed.

Lemma no_space_nil : no_space [].
Proof. intros k Hk. simpl in Hk. lia. Qed.

(** Strings without spaces can be joined with ASCII bytes that are no spaces. *)
Lemma no_space_app s r : no_space_before s r -> no_space r -> no_space (s ++ r).
Proof.
  intros Hs Hr k Hk. rewrite length_app in Hk. rewrite app_nil_r.
  destruct (decide (k < length s)%nat); [by apply Hs |].
  rewrite drop_app_ge by lia. specialize (Hr (k - length s)%nat ltac:(lia)).
  by rewrite app_nil_r in Hr.
Qed.

Lemma no_space_cons c s : space_len (c :: s) = 0%nat -> no_space s -> no_space (c :: s).
Proof.
  intros Hc Hs [| k] Hk; [by rewrite app_nil_r |]. simpl in *.
  apply (Hs k). lia.
Qed.

Lemma no_space_tail c s : no_space (c :: s) -> no_space s.
Proof. intros H k Hk. apply (H (S k)). simpl. lia. Qed.

(** ASCII text without a space character. *)
Definition graph (c : Z) : bool := (33 <=? c) && (c <=? 126).

Lemma graph_no_space s : forallb graph s = true -> no_space s.
Proof.
  induction s as [| c s IH]; intros H; [apply no_space_nil |].
  simpl in H. apply andb_prop in H as [Hc H].
  apply no_space_cons; [| by apply IH]. unfold graph in Hc. bool_hyps.
  cbn. unfold space1, space2, space3. repeat case_match; bool_hyps; try done; lia.
Qed.

(** ** Lemmas: [Fields] *)

(** Reading a field that is followed by a blank. *)
Lemma fields_from_word cur w r :
  no_space w -> fields_from cur (w ++ 32 :: r) = end_field (cur ++ w) (Fields r).
Proof.
  revert cur. induction w as [| c w IH]; intros cur Hw; simpl app.
  { rewrite app_nil_r. rewrite fields_from_eq. reflexivity. }
  rewrite fields_from_eq.
  assert (space_len (c :: w ++ 32 :: r) = 0%nat) as ->.
  { apply (space_len_ascii (c :: w)); [lia | done |].
    specialize (Hw 0%nat ltac:(simpl; lia)). by rewrite app_nil_r in Hw. }
  rewrite IH by (by eapply no_space_tail). by rewrite <- app_assoc.
Qed.

Lemma fields_from_last cur w : no_space w -> fields_from cur w = end_field (cur ++ w) [].
Proof.
  revert cur. induction w as [| c w IH]; intros cur Hw; [by rewrite app_nil_r |].
  rewrite fields_from_eq.
  specialize (Hw 0%nat ltac:(simpl; lia)) as H0. rewrite app_nil_r, drop_0 in H0. rewrite H0.
  rewrite IH by (by eapply no_space_tail). by rewrite <- app_assoc.
Qed.

(** Words joined with blanks are the fields of the line. *)
Lemma Fields_Join ws :
  Forall (fun w => no_space w /\ w <> []) ws -> Fields (Join 32 ws) = ws.
Proof.
  unfold Fields. induction 1 as [| w ws [Hw Hne] Hws IH]; [done |].
  assert (forall fs, end_field w fs = w :: fs) as He by (by destruct w).
  destruct ws as [| w' ws].
  - cbn [Join]. rewrite fields_from_last by done. apply He.
  - change (Join 32 (w :: w' :: ws)) with (w ++ 32 :: Join 32 (w' :: ws)).
    rewrite fields_from_word by done. simpl app. unfold Fields. rewrite IH. apply He.
Qed.

(** Every field is non-empty and has no space in it. *)
Lemma fields_from_no_space cur s :
  no_space_before cur s ->
  Forall (fun w => no_space w /\ w <> []) (fields_from cur s).
Proof.
  remember (length s) as n eqn:Hn. revert cur s Hn.
  induction n as [n IH] using lt_wf_ind. intros cur s -> Hcur.
  assert (forall fs, Forall (fun w => no_space w /\ w <> []) fs ->
    Forall (fun w => no_space w /\ w <> []) (end_field cur fs)) as He.
  { intros fs Hfs. destruct cur as [| c cur]; [done |]. constructor; [| done].
    split; [by eapply no_space_before_weaken | done]. }
  destruct s as [| c r]; [by apply He |].
  rewrite fields_from_eq. destruct (space_len (c :: r)) as [| m] eqn:Hm.
  - eapply IH; [| reflexivity |]; [simpl; lia |]. by apply no_space_before_snoc.
  - apply He. eapply IH; [| reflexivity |].
    + rewrite length_drop. simpl. lia.
    + intros k Hk. simpl in Hk. lia.
Qed.

Lemma Fields_no_space s : Forall (fun w => no_space w /\ w <> []) (Fields s).
Proof. apply fields_from_no_space. intros k Hk. simpl in Hk. lia. Qed.

(** ** Lemmas: [TrimSpace] *)

Lemma drop_spaces_eq s2 s3 c r :
  drop_spaces s2 s3 (c :: r) =
    if space1 c then drop_spaces s2 s3 r
    else match r with
    | [] => c :: r
    | d :: r' =>
      if s2 c d then drop_spaces s2 s3 r'
      else match r' with
      | [] => c :: r
      | e :: r'' => if s3 c d e then drop_spaces s2 s3 r'' else c :: r
      end
    end.
Proof. by destruct r as [| d [| e r]]. Qed.

Lemma TrimLeftSpace_id s : space_len s = 0%nat -> TrimLeftSpace s = s.
Proof.
  unfold TrimLeftSpace. destruct s as [| c r]; [done |].
  rewrite drop_spaces_eq. cbn. repeat case_match; done.
Qed.

(** Text that ends in a word keeps its end. *)
Lemma TrimRightSpace_word s w : no_space w -> w <> [] -> TrimRightSpace (s ++ 32 :: w) = s ++ 32 :: w.
Proof.
  intros Hw Hne. unfold TrimRightSpace.
  rewrite rev_app_distr. simpl rev at 2. rewrite <- app_assoc. simpl app at 2.
  destruct (rev w) as [| c r] eqn:Hrev.
  { apply (f_equal (@rev Z)) in Hrev. by rewrite rev_involutive in Hrev. }
  assert (w = rev r ++ [c]) as Hwr.
  { by rewrite <- (rev_involutive w), Hrev. }
  assert (forall p q, w = p ++ q -> q <> [] -> space_len q = 0%nat) as Hq.
  { intros p q -> Hq. specialize (Hw (length p)). rewrite app_nil_r, drop_app_length in Hw.
    apply Hw. rewrite length_app. destruct q; [done | simpl; lia]. }
  assert (space1 c = false) as Hc.
  { specialize (Hq _ _ Hwr ltac:(done)). cbn in Hq. by case_match. }
  assert (forall x, space2 32 x = false) as H2 by done.
  assert (forall x y, space3 32 x y = false) as H3 by done.
  assert (forall x, space3 x 32 c = false) as H3' by (intros; unfold space3; lia).
  assert (drop_spaces (fun d c => space2 c d) (fun e d c => space3 c d e)
    ((c :: r) ++ 32 :: rev s) = (c :: r) ++ 32 :: rev s) as Hd.
  { simpl app. rewrite drop_spaces_eq, Hc. cbv beta. destruct r as [| d r]; simpl app.
    - rewrite ?H2. destruct (rev s); [done |]. by rewrite ?H3'.
    - simpl rev in Hwr. rewrite <- app_assoc in Hwr. simpl in Hwr.
      pose proof (Hq _ _ Hwr ltac:(done)) as Hq2. cbn in Hq2.
      cbv iota.
      assert (space2 d c = false) as -> by (by repeat case_match).
      destruct r as [| e r]; simpl app; [by rewrite ?H3 |].
      simpl rev in Hwr. rewrite <- app_assoc in Hwr. simpl in Hwr.
      pose proof (Hq _ _ Hwr ltac:(done)) as Hq3. cbn in Hq3.
      cbv iota.
      assert (space3 e d c = false) as -> by (by repeat case_match). done. }
  rewrite Hd, rev_app_distr. simpl rev. rewrite rev_involutive, <- app_assoc.
  simpl app. by rewrite Hwr.
Qed.

Lemma TrimSpace_nil : TrimSpace [] = [].
Proof. reflexivity. Qed.

(** A word is its own trimming. *)
Lemma TrimSpace_word w : no_space w -> TrimSpace w = w.
Proof.
  intros Hw. destruct (decide (w = [])) as [-> | Hne]; [done |].
  unfold TrimSpace. rewrite TrimLeftSpace_id.
  - pose proof (TrimRightSpace_word [] w Hw Hne) as H.
    unfold TrimRightSpace in *. simpl app in *. simpl rev in *.
    destruct (rev w) as [| c r] eqn:Hr.
    + apply (f_equal (@rev Z)) in Hr. by rewrite rev_involutive in Hr.
    + assert (w = rev (c :: r)) as Hwr by (by rewrite <- Hr, rev_involutive).
      assert (forall p q, w = p ++ q -> q <> [] -> space_len q = 0%nat) as Hq.
      { intros p q -> Hq. specialize (Hw (length p)). rewrite app_nil_r, drop_app_length in Hw.
        apply Hw. rewrite length_app. destruct q; [done | simpl; lia]. }
      clear H Hr Hw. rewrite Hwr. f_equal. rewrite drop_spaces_eq. cbv beta.
      simpl rev in Hwr. pose proof (Hq _ _ Hwr ltac:(done)) as H1. cbn in H1.
      assert (space1 c = false) as -> by (by case_match).
      destruct r as [| d r]; [done |]. simpl rev in Hwr. rewrite <- app_assoc in Hwr.
      pose proof (Hq _ _ Hwr ltac:(done)) as H2. cbn in H2.
      cbv iota.
      assert (space2 d c = false) as -> by (by repeat case_match).
      destruct r as [| e r]; [done |]. simpl rev in Hwr. rewrite <- app_assoc in Hwr.
      pose proof (Hq _ _ Hwr ltac:(done)) as H3. cbn in H3.
      cbv iota.
      assert (space3 e d c = false) as -> by (by repeat case_match). done.
  - destruct w; [done |]. specialize (Hw 0%nat ltac:(simpl; lia)). by rewrite app_nil_r in Hw.
Qed.

(** ** Lemmas: [Split], [Join], [Cut] *)

Lemma Split_nil sep : Split sep [] = [[]].
Proof. reflexivity. Qed.

Lemma Split_not_nil sep s : Split sep s <> [].
Proof. destruct s; simpl; [done |]. repeat case_match; done. Qed.

Lemma Split_word sep w : sep ∉ w -> Split sep w = [w].
Proof.
  induction w as [| c w IH]; intros H; [done |]. simpl.
  destruct (Z.eqb_spec c sep) as [-> | Hc]; [set_solver |].
  rewrite IH by set_solver. done.
Qed.

Lemma Split_app sep w s : sep ∉ w -> Split sep (w ++ sep :: s) = w :: Split sep s.
Proof.
  induction w as [| c w IH]; intros H; simpl.
  - by rewrite Z.eqb_refl.
  - destruct (Z.eqb_spec c sep) as [-> | Hc]; [set_solver |].
    rewrite IH by set_solver. done.
Qed.

Lemma Split_Join sep l :
  l <> [] -> Forall (fun w => sep ∉ w) l -> Split sep (Join sep l) = l.
Proof.
  intros Hne H. induction H as [| w l Hw Hl IH]; [done |].
  destruct l as [| w' l]; [by apply Split_word |].
  change (Join sep (w :: w' :: l)) with (w ++ sep :: Join sep (w' :: l)).
  rewrite Split_app by done. by rewrite IH.
Qed.

Lemma Split_not_in sep s : Forall (fun w => sep ∉ w) (Split sep s).
Proof.
  induction s as [| c s IH]; simpl; [constructor; [set_solver | constructor] |].
  destruct (Z.eqb_spec c sep) as [-> | Hc]; [constructor; [set_solver | done] |].
  destruct (Split sep s) as [| f fs]; [constructor; [set_solver | constructor] |].
  inversion_clear IH. constructor; [set_solver | done].
Qed.

(** Lines, each ended by [sep], split into the lines and an empty rest. *)
Lemma Split_concat sep ls :
  Forall (fun w => sep ∉ w) ls ->
  Split sep (concat (map (fun w => w ++ [sep]) ls)) = ls ++ [[]].
Proof.
  induction 1 as [| w ls Hw Hls IH]; [done |]. simpl.
  rewrite <- app_assoc. simpl. rewrite Split_app by done. by rewrite IH.
Qed.

Lemma elem_of_Join x sep l : x ∈ Join sep l <-> (exists w, w ∈ l /\ x ∈ w) \/ (x = sep /\ (1 < length l)%nat).
Proof.
  induction l as [| w l IH]; [set_solver by lia |].
  destruct l as [| w' l].
  { simpl. split; [intros; left; exists w; set_solver |].
    intros [(v & Hv & Hx) | [_ H]]; [set_solver | lia]. }
  change (Join sep (w :: w' :: l)) with (w ++ sep :: Join sep (w' :: l)).
  rewrite elem_of_app, elem_of_cons, IH. split.
  - intros [H | [-> | [(v & Hv & Hx) | [-> H]]]].
    + left. exists w. set_solver.
    + right. simpl. split; [done | lia].
    + left. exists v. set_solver.
    + right. simpl in *. split; [done | lia].
  - intros [(v & Hv & Hx) | [-> H]]; [| tauto].
    apply elem_of_cons in Hv as [-> | Hv]; [tauto |]. right. right. left. exists v. tauto.
Qed.

Lemma Cut_app sep a b : sep ∉ a -> Cut sep (a ++ sep :: b) = (a, b, true).
Proof.
  induction a as [| c a IH]; intros H; simpl.
  - by rewrite Z.eqb_refl.
  - destruct (Z.eqb_spec c sep) as [-> | Hc]; [set_solver |]. rewrite IH by set_solver. done.
Qed.

Lemma Cut_none sep a : sep ∉ a -> Cut sep a = (a, [], false).
Proof.
  induction a as [| c a IH]; intros H; simpl; [done |].
  destruct (Z.eqb_spec c sep) as [-> | Hc]; [set_solver |]. rewrite IH by set_solver. done.
Qed.

(** ** Lemmas: numbers *)

Lemma digits_value_app acc s c :
  digits_value acc (s ++ [c]) =
    match digits_value acc s with
    | Some v => if is_digit c then Some (v * 10 + (c - 48)) else None
    | None => None
    end.
Proof.
  revert acc. induction s as [| d s IH]; intros acc; simpl; [done |].
  destruct (is_digit d); [apply IH | done].
Qed.

Lemma is_digit_digit n : 0 <= n < 10 -> is_digit (48 + n) = true.
Proof. intros H. unfold is_digit. lia. Qed.

Lemma dec_digits_value fuel n :
  0 <= n < 2 ^ Z.of_nat fuel -> digits_value 0 (dec_digits fuel n) = Some n.
Proof.
  revert n. induction fuel as [| fuel IH]; intros n H; [simpl in *; f_equal; lia |].
  cbn [dec_digits]. destruct (Z.ltb_spec n 10) as [Hlt | Hge].
  - simpl. rewrite is_digit_digit by lia. f_equal. lia.
  - rewrite digits_value_app, IH.
    + pose proof (Z.mod_pos_bound n 10 ltac:(lia)). rewrite is_digit_digit by lia.
      f_equal. pose proof (Z.div_mod n 10 ltac:(lia)). lia.
    + rewrite Nat2Z.inj_succ, Z.pow_succ_r in H by lia. split.
      * apply Z.div_pos; lia.
      * apply Z.div_lt_upper_bound; lia.
Qed.

Lemma dec_digits_graph fuel n : 0 <= n -> forallb is_digit (dec_digits fuel n) = true.
Proof.
  revert n. induction fuel as [| fuel IH]; intros n H; [done |]. cbn [dec_digits].
  destruct (Z.ltb_spec n 10); simpl.
  - by rewrite is_digit_digit by lia.
  - rewrite forallb_app, IH by (apply Z.div_pos; lia). simpl.
    by rewrite is_digit_digit by (apply Z.mod_pos_bound; lia).
Qed.

Lemma Utoa_digits n : 0 <= n -> forallb is_digit (Utoa n) = true.
Proof. apply dec_digits_graph. Qed.

Lemma Utoa_not_nil n : Utoa n <> [].
Proof. unfold Utoa. cbn [dec_digits]. case_match; [done |]. by intros [? ?]%app_nil. Qed.

Lemma log2_fuel n : 0 <= n -> n < 2 ^ Z.of_nat (S (Z.to_nat (Z.log2 n))).
Proof.
  intros H. rewrite Nat2Z.inj_succ, Z2Nat.id by apply Z.log2_nonneg.
  destruct (decide (n = 0)) as [-> | Hn]; [by cbv |].
  apply Z.log2_spec. lia.
Qed.

Lemma ParseUint_Utoa bits n : 0 <= n < 2 ^ bits -> ParseUint bits (Utoa n) = Some n.
Proof.
  intros H. unfold ParseUint. pose proof (Utoa_not_nil n) as Hne.
  destruct (Utoa n) as [| c r] eqn:E; [done |]. rewrite <- E. unfold Utoa.
  rewrite dec_digits_value by (split; [lia | apply log2_fuel; lia]).
  by rewrite (proj2 (Z.ltb_lt n (2 ^ bits))) by lia.
Qed.

Lemma is_digit_not c d : is_digit c = true -> is_digit d = false -> c <> d.
Proof. intros H1 H2 ->. congruence. Qed.

Lemma Utoa_not_in c n : 0 <= n -> is_digit c = false -> c ∉ Utoa n.
Proof.
  intros Hn Hc Hin. pose proof (Utoa_digits n Hn) as Hd.
  rewrite forallb_forall in Hd. apply list_elem_of_In in Hin. specialize (Hd _ Hin). congruence.
Qed.

Lemma ParseInt_Itoa n : - 2 ^ 63 <= n < 2 ^ 63 -> ParseInt (Itoa n) = Some n.
Proof.
  intros H. unfold Itoa. destruct (Z.ltb_spec n 0).
  - unfold ParseInt. rewrite ParseUint_Utoa by lia.
    rewrite (proj2 (Z.leb_le (- n) (2 ^ 63))) by lia. f_equal. lia.
  - unfold ParseInt. pose proof (Utoa_not_nil n) as Hne. pose proof (Utoa_digits n ltac:(lia)) as Hd.
    destruct (Utoa n) as [| c r] eqn:E; [done |].
    simpl in Hd. apply andb_prop in Hd as [Hc _].
    assert (c <> 43 /\ c <> 45) as [? ?] by (unfold is_digit in Hc; bool_hyps; lia).
    assert ((match c :: r with 43 :: r0 => (false, r0) | 45 :: r0 => (true, r0) | _ => (false, c :: r) end)
      = (false, c :: r)) as ->.
    { repeat case_match; simplify_eq; done. }
    rewrite <- E, ParseUint_Utoa by lia. by rewrite (proj2 (Z.ltb_lt n (2 ^ 63))) by lia.
Qed.

Lemma digits_value_nonneg acc s v : 0 <= acc -> digits_value acc s = Some v -> 0 <= v.
Proof.
  revert acc. induction s as [| c s IH]; intros acc Hacc; simpl; [congruence |].
  destruct (is_digit c) eqn:Hc; [| done]. unfold is_digit in Hc. bool_hyps.
  apply IH. lia.
Qed.

Lemma ParseUint_range bits s v : ParseUint bits s = Some v -> 0 <= v < 2 ^ bits.
Proof.
  unfold ParseUint. destruct s as [| c r]; [done |].
  destruct (digits_value 0 (c :: r)) as [w |] eqn:Hw; [| done].
  apply digits_value_nonneg in Hw; [| lia].
  destruct (Z.ltb_spec w (2 ^ bits)); intros [=]; subst; lia.
Qed.

(** A part of a string without spaces has none either. *)
Lemma no_space_prefix s t : no_space (s ++ t) -> no_space s.
Proof.
  intros H. apply (no_space_before_weaken s t). intros k Hk.
  specialize (H k). rewrite app_nil_r in H. apply H. rewrite length_app. lia.
Qed.

Lemma Split_prefix sep s f fs : Split sep s = f :: fs -> exists t, s = f ++ t.
Proof.
  revert f fs. induction s as [| c s IH]; intros f fs H; simpl in H.
  - injection H as <- <-. by exists [].
  - destruct (c =? sep); [injection H as <- <-; by exists (c :: s) |].
    destruct (Split sep s) as [| f' fs'] eqn:E; [by apply Split_not_nil in E |].
    injection H as <- <-. destruct (IH f' fs' eq_refl) as [t ->]. by exists t.
Qed.

Lemma Split_no_space sep s : no_space s -> Forall no_space (Split sep s).
Proof.
  induction s as [| c s IH]; intros H; simpl; [constructor; [done | constructor] |].
  pose proof (no_space_tail _ _ H) as Ht. specialize (IH Ht).
  destruct (c =? sep); [constructor; [apply no_space_nil | done] |].
  destruct (Split sep s) as [| f fs] eqn:E; [by apply Split_not_nil in E |].
  apply Split_prefix in E as [t ->]. inversion_clear IH. constructor; [| done].
  by apply (no_space_prefix (c :: f) t).
Qed.

(** A byte range check on text: used to see that ASCII text stays ASCII. *)
Lemma digits_graph s : forallb is_digit s = true -> forallb graph s = true.
Proof.
  induction s as [| c s IH]; [done |]. simpl. intros H. apply andb_prop in H as [Hc H].
  rewrite IH by done. unfold is_digit, graph in *. bool_hyps.
  by rewrite (proj2 (Z.leb_le 33 c)), (proj2 (Z.leb_le c 126)) by lia.
Qed.

#[export] Hint Resolve no_space_nil graph_no_space digits_graph Utoa_digits : go.

Lemma zlen_Utoa n : 0 <= n < 2 ^ 64 -> 1 <= zlen (Utoa n) <= 64.
Proof.
  intros H. split.
  - pose proof (Utoa_not_nil n). destruct (Utoa n); [done |]. rewrite zlen_cons.
    match goal with |- context [1 + zlen ?r] => pose proof (zlen_nonneg r) end. lia.
  - unfold Utoa. assert (forall fuel n, zlen (dec_digits fuel n) <= Z.of_nat fuel) as Hl.
    { clear. induction fuel as [| fuel IH]; intros n; cbn [dec_digits]; [by cbv |].
      destruct (n <? 10); [unfold zlen; simpl; lia |].
      rewrite zlen_app. specialize (IH (n / 10)). unfold zlen in *. simpl. lia. }
    etransitivity; [apply Hl |].
    destruct (decide (n = 0)) as [-> |]; [by cbv |].
    assert (Z.log2 n < 64) by (apply Z.log2_lt_pow2; lia). lia.
Qed.

Lemma space_len_graph c r : graph c = true -> space_len (c :: r) = 0%nat.
Proof.
  unfold graph. intros H. bool_hyps. cbn [space_len].
  assert (space1 c = false) as -> by (unfold space1; apply orb_false_iff; split;
    [apply andb_false_iff; right; apply Z.leb_gt | apply Z.eqb_neq]; lia).
  destruct r as [| d r]; [done |].
  assert (space2 c d = false) as -> by (unfold space2; rewrite (proj2 (Z.eqb_neq c 194)) by lia; done).
  destruct r as [| e r]; [done |].
  assert (space3 c d e = false) as ->; [| done].
  unfold space3. rewrite (proj2 (Z.eqb_neq c 225)), (proj2 (Z.eqb_neq c 226)), (proj2 (Z.eqb_neq c 227)) by lia. done.
Qed.

(** A line of text without spaces is trimmed to its word. *)
Lemma TrimSpace_line w : forallb graph w = true -> TrimSpace (w ++ [10]) = w.
Proof.
  intros Hw. destruct w as [| c r]; [done |].
  pose proof Hw as Hc. simpl in Hc. bool_hyps.
  unfold TrimSpace. rewrite TrimLeftSpace_id by (by apply space_len_graph).
  transitivity (TrimRightSpace (c :: r)).
  - unfold TrimRightSpace. rewrite rev_app_distr. cbn [rev app]. by rewrite drop_spaces_eq.
  - rewrite <- (TrimSpace_word (c :: r)) at 2 by (by apply graph_no_space).
    unfold TrimSpace. by rewrite TrimLeftSpace_id by (by apply space_len_graph).
Qed.

(** ** Upper case

    As in [ToLower], the two runes outside ASCII whose upper case is ASCII are
    U+0131 (to [I]) and U+017F (to [S]); other runes stay outside ASCII. *)
Fixpoint ToUpper (s : bytes) : bytes :=
  match s with
  | [] => []
  | c :: r =>
    if (97 <=? c) && (c <=? 122) then c - 32 :: ToUpper r
    else match r with
    | d :: r' =>
      if (c =? 196) && (d =? 177) then 73 :: ToUpper r'
      else if (c =? 197) && (d =? 191) then 83 :: ToUpper r'
      else c :: ToUpper r
    | [] => [c]
    end
  end.

Lemma ToUpper_cons c r : 0 <= c < 128 ->
  ToUpper (c :: r) = (if (97 <=? c) && (c <=? 122) then c - 32 else c) :: ToUpper r.
Proof.
  intros Hc. cbn [ToUpper]. case_match; [done |]. destruct r as [| d r]; [done |].
  rewrite (proj2 (Z.eqb_neq c 196)), (proj2 (Z.eqb_neq c 197)) by lia. done.
Qed.

Lemma ToLower_cons c r : 0 <= c < 128 ->
  ToLower (c :: r) = (if (65 <=? c) && (c <=? 90) then c + 32 else c) :: ToLower r.
Proof.
  intros Hc. cbn [ToLower]. case_match; [done |]. destruct r as [| d r]; [done |].
  rewrite (proj2 (Z.eqb_neq c 196)) by lia. cbn [andb].
  destruct r as [| e r]; [done |]. rewrite (proj2 (Z.eqb_neq c 226)) by lia. done.
Qed.

Lemma HasPrefix_app p r : HasPrefix (p ++ r) p = true.
Proof. induction p as [| c p IH]; simpl; [by destruct r |]. by rewrite Z.eqb_refl. Qed.
