(* ===== verification/Netip.v ===== *)
(** Go's package [net/netip]: IP addresses, prefixes and address-port pairs
    are values, so they are inductive types here and the methods the modelled
    code calls are functions. An IPv4 address is a 32-bit number, an IPv6
    address a 128-bit number with a zone; [AddrZero] is [netip.Addr{}]. *)
From stdpp Require Import base list strings sets countable.
From Stdlib Require Import ZArith Lia.
From S2P Require Import Prelude GoStrings.

Open Scope Z_scope.

Inductive Addr : Type :=
  | AddrZero
  | Addr4 (v : Z)
  | Addr6 (v : Z) (zone : bytes).

#[export] Instance Addr_eq_dec : EqDecision Addr.
Proof. solve_decision. Defined.

#[export] Instance Addr_countable : Countable Addr.
Proof.
  apply (inj_countable'
    (fun a => match a with
              | AddrZero => inl tt
              | Addr4 v => inr (inl v)
              | Addr6 v z => inr (inr (v, z))
              end)
    (fun x => match x with
              | inl _ => AddrZero
              | inr (inl v) => Addr4 v
              | inr (inr (v, z)) => Addr6 v z
              end)).
  by intros [].
Defined.

Record Prefix := MkPrefix { pfx_ip : Addr; pfx_bits : Z (* -1: not valid *) }.
Record AddrPort := MkAddrPort { ap_addr : Addr; ap_port : Z }.

#[export] Instance Prefix_eq_dec : EqDecision Prefix.
Proof. solve_decision. Defined.
#[export] Instance AddrPort_eq_dec : EqDecision AddrPort.
Proof. solve_decision. Defined.
#[export] Instance AddrPort_countable : Countable AddrPort.
Proof.
  by apply (inj_countable' (fun a => (ap_addr a, ap_port a)) (fun x => MkAddrPort x.1 x.2)); intros [].
Defined.

(** The numbers are in range. *)
Definition addr_ok (a : Addr) : Prop :=
  match a with
  | AddrZero => True
  | Addr4 v => 0 <= v < 2 ^ 32
  | Addr6 v _ => 0 <= v < 2 ^ 128
  end.

(** ** Addresses *)

Definition AddrFrom4 (b : bytes) : Addr := Addr4 (be b).
Definition AddrFrom16 (b : bytes) : Addr := Addr6 (be b) [].

(** [netip.AddrFromSlice]: false unless there are 4 or 16 bytes. *)
Definition AddrFromSlice (b : bytes) : Addr * bool :=
  if zlen b =? 4 then (AddrFrom4 b, true)
  else if zlen b =? 16 then (AddrFrom16 b, true)
  else (AddrZero, false).

Definition IsValid (a : Addr) : bool := match a with AddrZero => false | _ => true end.
Definition Is4 (a : Addr) : bool := match a with Addr4 _ => true | _ => false end.
Definition Is6 (a : Addr) : bool := match a with Addr6 _ _ => true | _ => false end.
Definition Is4In6 (a : Addr) : bool :=
  match a with Addr6 v _ => v / 2 ^ 32 =? 65535 | _ => false end.
Definition Zone (a : Addr) : bytes := match a with Addr6 _ z => z | _ => [] end.

Definition Unmap (a : Addr) : Addr :=
  match a with
  | Addr6 v _ => if v / 2 ^ 32 =? 65535 then Addr4 (v mod 2 ^ 32) else a
  | _ => a
  end.

Definition withoutZone (a : Addr) : Addr :=
  match a with Addr6 v _ => Addr6 v [] | _ => a end.

Definition BitLen (a : Addr) : Z :=
  match a with AddrZero => 0 | Addr4 _ => 32 | Addr6 _ _ => 128 end.

(** The 128-bit number of an address; IPv4 ones are mapped ([As16]). *)
Definition num16 (a : Addr) : Z :=
  match a with AddrZero => 0 | Addr4 v => 65535 * 2 ^ 32 + v | Addr6 v _ => v end.
Definition As16 (a : Addr) : bytes := put_be 16 (num16 a).
(** [As4] of an IPv4 (or mapped) address; it panics on the others. *)
Definition As4 {E} (a : Addr) : res E bytes :=
  match Unmap a with Addr4 v => Ok (put_be 4 v) | _ => Panic end.
Definition AsSlice (a : Addr) : bytes :=
  match a with AddrZero => [] | Addr4 v => put_be 4 v | Addr6 v _ => put_be 16 v end.

Definition IPv4Unspecified : Addr := Addr4 0.
Definition IPv6Unspecified : Addr := Addr6 0 [].
Definition IsUnspecified (a : Addr) : bool :=
  bool_decide (a = IPv4Unspecified) || bool_decide (a = IPv6Unspecified).

Definition IsMulticast (a : Addr) : bool :=
  match Unmap a with
  | Addr4 v => v / 2 ^ 28 =? 14
  | Addr6 v _ => v / 2 ^ 120 =? 255
  | AddrZero => false
  end.
Definition IsLoopback (a : Addr) : bool :=
  match Unmap a with
  | Addr4 v => v / 2 ^ 24 =? 127
  | Addr6 v _ => v =? 1
  | AddrZero => false
  end.
Definition IsPrivate (a : Addr) : bool :=
  match Unmap a with
  | Addr4 v => (v / 2 ^ 24 =? 10) || (v / 2 ^ 20 =? 172 * 16 + 1) || (v / 2 ^ 16 =? 192 * 256 + 168)
  | Addr6 v _ => v / 2 ^ 121 =? 126
  | AddrZero => false
  end.
Definition IsLinkLocalUnicast (a : Addr) : bool :=
  match Unmap a with
  | Addr4 v => v / 2 ^ 16 =? 169 * 256 + 254
  | Addr6 v _ => v / 2 ^ 118 =? 1018
  | AddrZero => false
  end.
Definition IsLinkLocalMulticast (a : Addr) : bool :=
  match Unmap a with
  | Addr4 v => v / 2 ^ 8 =? 224 * 65536
  | Addr6 v _ => Z.land (v / 2 ^ 112) 65295 =? 65282
  | AddrZero => false
  end.
Definition IsGlobalUnicast (a : Addr) : bool :=
  match Unmap a with
  | AddrZero => false
  | Addr4 v => negb ((v =? 0) || (v =? 2 ^ 32 - 1))
               && negb (IsLoopback a) && negb (IsMulticast a) && negb (IsLinkLocalUnicast a)
  | Addr6 v z => negb (bool_decide (Addr6 v z = IPv6Unspecified))
               && negb (IsLoopback a) && negb (IsMulticast a) && negb (IsLinkLocalUnicast a)
  end.

(** [Addr.Next]: the zero address after the last one. *)
Definition Next (a : Addr) : Addr :=
  match a with
  | AddrZero => AddrZero
  | Addr4 v => if v =? 2 ^ 32 - 1 then AddrZero else Addr4 (v + 1)
  | Addr6 v z => if v =? 2 ^ 128 - 1 then AddrZero else Addr6 (v + 1) z
  end.

(** ** Prefixes *)

Definition PrefixFrom (a : Addr) (bits : Z) : Prefix :=
  {| pfx_ip := withoutZone a;
     pfx_bits := if IsValid a && (0 <=? bits) && (bits <=? BitLen a) then bits else -1 |}.

Definition PrefixZero : Prefix := {| pfx_ip := AddrZero; pfx_bits := -1 |}.
Definition PrefixIsValid (p : Prefix) : bool := 0 <=? pfx_bits p.

(** Clear all but the top [bits] of a [w]-bit number. *)
Definition mask (w bits v : Z) : Z := v / 2 ^ (w - bits) * 2 ^ (w - bits).

Definition addr_mask (a : Addr) (bits : Z) : Addr :=
  match a with
  | AddrZero => AddrZero
  | Addr4 v => Addr4 (mask 32 bits v)
  | Addr6 v _ => Addr6 (mask 128 bits v) []
  end.

Definition Masked (p : Prefix) : Prefix :=
  if PrefixIsValid p then PrefixFrom (addr_mask (pfx_ip p) (pfx_bits p)) (pfx_bits p)
  else PrefixZero.

(** The top [bits] of two addresses of the same family agree. *)
Definition same_top (bits : Z) (a b : Addr) : bool :=
  match a, b with
  | Addr4 x, Addr4 y => x / 2 ^ (32 - bits) =? y / 2 ^ (32 - bits)
  | Addr6 x _, Addr6 y _ => x / 2 ^ (128 - bits) =? y / 2 ^ (128 - bits)
  | _, _ => false
  end.

Definition Contains (p : Prefix) (a : Addr) : bool :=
  PrefixIsValid p && bool_decide (Zone a = []) && same_top (pfx_bits p) (pfx_ip p) a.

Definition Overlaps (p o : Prefix) : bool :=
  PrefixIsValid p && PrefixIsValid o && same_top (Z.min (pfx_bits p) (pfx_bits o)) (pfx_ip p) (pfx_ip o).

Definition apIsValid (a : AddrPort) : bool := IsValid (ap_addr a).
Definition AddrPortZero : AddrPort := {| ap_addr := AddrZero; ap_port := 0 |}.

(** ** Parsing *)

Definition parse_octet (s : bytes) : option Z :=
  match s with
  | [] => None
  | c :: r =>
    if (c =? 48) && negb (bool_decide (r = [])) then None
    else match digits_value 0 s with
         | Some v => if v <=? 255 then Some v else None
         | None => None
         end
  end.

(** The four numbers of a dotted address, as one 32-bit number. *)
Definition parse_ipv4 (s : bytes) : option Z :=
  match Split 46 s with
  | [a; b; c; d] =>
    a ← parse_octet a; b ← parse_octet b; c ← parse_octet c; d ← parse_octet d;
    Some (((a * 256 + b) * 256 + c) * 256 + d)
  | _ => None
  end.

Definition hex_digit (c : Z) : option Z :=
  if is_digit c then Some (c - 48)
  else if (97 <=? c) && (c <=? 102) then Some (c - 97 + 10)
  else if (65 <=? c) && (c <=? 70) then Some (c - 65 + 10)
  else None.

(** Leading hexadecimal digits: their number, value and the rest. *)
Fixpoint span_hex (off acc : Z) (s : bytes) : Z * Z * bytes :=
  match s with
  | [] => (off, acc, [])
  | c :: r => match hex_digit c with
              | Some d => span_hex (off + 1) (acc * 16 + d) r
              | None => (off, acc, s)
              end
  end.

(** The groups of an IPv6 address from [s] on: at most [n] more; [gs] are the
    groups read and [ell] where [::] stood. *)
Fixpoint parse_groups (n : nat) (gs : list Z) (ell : option nat) (s : bytes)
    : option (list Z * option nat) :=
  match n with
  | O => match s with [] => Some (gs, ell) | _ => None end
  | S n =>
    let '(off, acc, rest) := span_hex 0 0 s in
    if (off =? 0) || (4 <? off) then None
    else match rest with
    | [] => Some (gs ++ [acc], ell)
    | 46 :: _ =>
      if (bool_decide (ell = None) && negb (zlen gs =? 6)) || (6 <? zlen gs) then None
      else match parse_ipv4 s with
           | Some v => Some (gs ++ [v / 65536; v mod 65536], ell)
           | None => None
           end
    | 58 :: [] => None
    | 58 :: 58 :: r =>
      match ell with
      | Some _ => None
      | None =>
        let gs := gs ++ [acc] in
        match r with
        | [] => Some (gs, Some (length gs))
        | _ => parse_groups n gs (Some (length gs)) r
        end
      end
    | 58 :: r => parse_groups n (gs ++ [acc]) ell r
    | _ => None
    end
  end.

Definition groups_value (gs : list Z) : Z := fold_left (fun acc g => acc * 65536 + g) gs 0.

Definition expand_groups (gs : list Z) (ell : option nat) : option Z :=
  match ell with
  | None => if zlen gs =? 8 then Some (groups_value gs) else None
  | Some k => if zlen gs <? 8
              then Some (groups_value (take k gs ++ replicate (8 - length gs) 0 ++ drop k gs))
              else None
  end.

Definition parse_ipv6 (s : bytes) : option Addr :=
  let '(s, zone, has) := Cut 37 s in
  if has && bool_decide (zone = []) then None
  else
    match s with
    | 58 :: 58 :: [] => Some (Addr6 0 zone)
    | 58 :: 58 :: r =>
      '(gs, ell) ← parse_groups 8 [] (Some 0%nat) r;
      v ← expand_groups gs ell; Some (Addr6 v zone)
    | _ =>
      '(gs, ell) ← parse_groups 8 [] None s;
      v ← expand_groups gs ell; Some (Addr6 v zone)
    end.

(** The first of [.], [:] and [%] decides how an address is read. *)
Fixpoint addr_kind (s : bytes) : Z :=
  match s with
  | [] => 0
  | c :: r => if (c =? 46) || (c =? 58) || (c =? 37) then c else addr_kind r
  end.

Definition ParseAddr (s : bytes) : option Addr :=
  match addr_kind s with
  | 46 => Addr4 <$> parse_ipv4 s
  | 58 => parse_ipv6 s
  | _ => None
  end.

Definition ParsePrefix (s : bytes) : option Prefix :=
  let i := LastIndexByte s 47 in
  if i <? 0 then None
  else
    a ← ParseAddr (sub s 0 i);
    if Is6 a && negb (bool_decide (Zone a = [])) then None
    else
      let b := sub s (i + 1) (zlen s) in
      if (1 <? zlen b) && negb (match b with c :: _ => (49 <=? c) && (c <=? 57) | [] => false end) then None
      else
        bits ← ParseInt b;
        if (bits <? 0) || (BitLen a <? bits) then None else Some (PrefixFrom a bits).

Example ParseAddr_v4 : ParseAddr (str "10.128.0.255") = Some (Addr4 (10 * 2 ^ 24 + 128 * 2 ^ 16 + 255)).
Proof. reflexivity. Qed.
Example ParseAddr_v6 : ParseAddr (str "fd7a::1:2") = Some (Addr6 (64890 * 2 ^ 112 + 65538) []).
Proof. vm_compute. reflexivity. Qed.
Example ParseAddr_mapped : Unmap <$> ParseAddr (str "::ffff:1.2.3.4") = Some (Addr4 16909060).
Proof. vm_compute. reflexivity. Qed.
Example ParseAddr_name : ParseAddr (str "laptop") = None.
Proof. vm_compute. reflexivity. Qed.
Example ParsePrefix_v4 : ParsePrefix (str "192.168.1.0/24") = Some (PrefixFrom (Addr4 3232235776) 24).
Proof. vm_compute. reflexivity. Qed.

(** ** Lemmas *)

(** What [PrefixFrom] builds: a zone-free address and a length that fits it. *)
Definition prefix_ok (p : Prefix) : Prop :=
  addr_ok (pfx_ip p) /\ Zone (pfx_ip p) = [] /\
  (pfx_bits p = -1 \/ (IsValid (pfx_ip p) = true /\ 0 <= pfx_bits p <= BitLen (pfx_ip p))).

Lemma PrefixFrom_ok a b : addr_ok a -> prefix_ok (PrefixFrom a b).
Proof.
  intros Ha. unfold PrefixFrom. split; [by destruct a | split; [by destruct a |]]. simpl.
  destruct (IsValid a && _ && _) eqn:H; [right | by left]. bool_hyps.
  split; [by destruct a |]. destruct a; simpl in *; lia.
Qed.

Lemma div_pow_split x a b : 0 <= a -> 0 <= b -> x / 2 ^ (a + b) = x / 2 ^ a / 2 ^ b.
Proof.
  intros Ha Hb. rewrite Z.pow_add_r by lia.
  pose proof (Z.pow_pos_nonneg 2 a ltac:(lia) Ha). pose proof (Z.pow_pos_nonneg 2 b ltac:(lia) Hb).
  by rewrite Z.div_div by lia.
Qed.

Lemma same_top_refl n a : IsValid a = true -> same_top n a a = true.
Proof. destruct a; simpl; intros; try done; apply Z.eqb_refl. Qed.

Lemma same_top_sym n a b : same_top n a b = same_top n b a.
Proof. destruct a, b; simpl; try done; apply Z.eqb_sym. Qed.

(** Agreement on more bits gives agreement on fewer. *)
Lemma same_top_le m n a b :
  0 <= m <= n -> n <= BitLen a -> same_top n a b = true -> same_top m a b = true.
Proof.
  intros Hm Hn. destruct a as [| x | x z], b as [| y | y z']; simpl in *; try done;
    rewrite !Z.eqb_eq; intros H.
  - replace (32 - m) with ((32 - n) + (n - m)) by lia.
    rewrite !div_pow_split by lia. by rewrite H.
  - replace (128 - m) with ((128 - n) + (n - m)) by lia.
    rewrite !div_pow_split by lia. by rewrite H.
Qed.

Lemma same_top_trans n a b c :
  same_top n a b = true -> same_top n b c = true -> same_top n a c = true.
Proof. destruct a, b, c; simpl; try done; rewrite !Z.eqb_eq; congruence. Qed.

Lemma same_top_BitLen n a b : same_top n a b = true -> BitLen a = BitLen b.
Proof. by destruct a, b. Qed.

Lemma Contains_self p : prefix_ok p -> PrefixIsValid p = true -> Contains p (pfx_ip p) = true.
Proof.
  intros (Ha & Hz & Hb) Hv. unfold Contains. rewrite Hv, Hz. simpl.
  unfold PrefixIsValid in Hv. bool_hyps.
  destruct Hb as [? | [Hv' _]]; [lia |]. by apply same_top_refl.
Qed.

(** [Overlaps] means what it says: the prefixes share an address. *)
Lemma Overlaps_spec p o :
  prefix_ok p -> prefix_ok o ->
  Overlaps p o = true <-> exists a, Contains p a = true /\ Contains o a = true.
Proof.
  intros Hp Ho. pose proof Hp as (Hpa & Hpz & Hpb). pose proof Ho as (Hoa & Hoz & Hob).
  unfold Overlaps. split.
  - intros H. bool_hyps. rename H0 into Ht.
    assert (0 <= pfx_bits p) by (unfold PrefixIsValid in *; bool_hyps; lia).
    assert (0 <= pfx_bits o) by (unfold PrefixIsValid in *; bool_hyps; lia).
    destruct (Z.le_ge_cases (pfx_bits p) (pfx_bits o)).
    + exists (pfx_ip o). split; [| by apply Contains_self].
      unfold Contains. rewrite H, Hoz. simpl. by rewrite Z.min_l in Ht by lia.
    + exists (pfx_ip p). split; [by apply Contains_self |].
      unfold Contains. rewrite H1, Hpz. simpl. rewrite Z.min_r in Ht by lia.
      by rewrite same_top_sym.
  - intros (a & Hpc & Hoc). unfold Contains in *. bool_hyps.
    repeat match goal with H : PrefixIsValid _ = true |- _ => rewrite H; pose proof H as ?Hv; unfold PrefixIsValid in H end.
    bool_hyps. simpl.
    destruct Hpb as [? | [_ ?]]; [lia |]. destruct Hob as [? | [_ ?]]; [lia |].
    match goal with Hp : same_top _ (pfx_ip p) a = true, Ho : same_top _ (pfx_ip o) a = true |- _ =>
      pose proof (same_top_BitLen _ _ _ Hp); pose proof (same_top_BitLen _ _ _ Ho);
      apply (same_top_trans _ _ a);
      [ apply (same_top_le _ (pfx_bits p)); [lia | lia | exact Hp]
      | rewrite same_top_sym; apply (same_top_le _ (pfx_bits o)); [lia | lia | exact Ho] ]
    end.
Qed.

Lemma Overlaps_sym p o : Overlaps p o = Overlaps o p.
Proof.
  unfold Overlaps. rewrite (andb_comm (PrefixIsValid p)), Z.min_comm. f_equal. apply same_top_sym.
Qed.

Lemma mask_range w b v : 0 <= b <= w -> mask w b v <= v < mask w b v + 2 ^ (w - b).
Proof.
  intros H. unfold mask. pose proof (Z.pow_pos_nonneg 2 (w - b) ltac:(lia) ltac:(lia)).
  pose proof (Z.div_mod v (2 ^ (w - b)) ltac:(lia)).
  pose proof (Z.mod_pos_bound v (2 ^ (w - b)) ltac:(lia)). lia.
Qed.

Lemma mask_div w b v : 0 <= b <= w -> mask w b v / 2 ^ (w - b) = v / 2 ^ (w - b).
Proof.
  intros H. unfold mask. pose proof (Z.pow_pos_nonneg 2 (w - b) ltac:(lia) ltac:(lia)).
  by rewrite Z.div_mul by lia.
Qed.

(** The addresses of an IPv4 prefix are an interval. *)
Lemma Contains_v4 x b y :
  0 <= b <= 32 ->
  Contains {| pfx_ip := Addr4 x; pfx_bits := b |} (Addr4 y) = true <->
  mask 32 b x <= y < mask 32 b x + 2 ^ (32 - b).
Proof.
  intros Hb. unfold Contains, PrefixIsValid. simpl.
  rewrite (proj2 (Z.leb_le 0 b)) by lia. simpl. rewrite Z.eqb_eq.
  pose proof (Z.pow_pos_nonneg 2 (32 - b) ltac:(lia) ltac:(lia)) as Hp.
  unfold mask. split.
  - intros ->. pose proof (Z.div_mod y (2 ^ (32 - b)) ltac:(lia)).
    pose proof (Z.mod_pos_bound y (2 ^ (32 - b)) ltac:(lia)). lia.
  - intros H. apply (Z.div_unique_pos _ _ _ (y - x / 2 ^ (32 - b) * 2 ^ (32 - b))); lia.
Qed.

Lemma Contains_Is4 p a : Contains p a = true -> Is4 (pfx_ip p) = Is4 a.
Proof. unfold Contains. intros H. bool_hyps. by destruct (pfx_ip p), a. Qed.

Lemma Unmap_ok a : addr_ok a -> addr_ok (Unmap a).
Proof.
  destruct a; simpl; try done. intros H. case_match; [| done]. simpl.
  apply Z.mod_pos_bound. lia.
Qed.

Lemma AddrFrom4_As4 v : 0 <= v < 2 ^ 32 -> AddrFrom4 (put_be 4 v) = Addr4 v.
Proof. intros H. unfold AddrFrom4. rewrite be_put_be_small; [done |]. simpl. lia. Qed.

Lemma Unmap_AddrFrom16_As16 a : addr_ok a -> Zone a = [] -> Unmap a = a -> a <> AddrZero ->
  Unmap (AddrFrom16 (As16 a)) = a.
Proof.
  intros Ha Hz Hu Hn. unfold AddrFrom16, As16.
  assert (0 <= num16 a < 2 ^ 128) as Hr by (destruct a; simpl in *; lia).
  rewrite be_put_be_small by (simpl; lia).
  destruct a as [| v | v z]; simpl in *; subst; [done | | done].
  replace ((65535 * 2 ^ 32 + v) / 2 ^ 32) with 65535
    by (rewrite Z.div_add_l by lia; rewrite (Z.div_small v) by lia; lia).
  simpl. f_equal. rewrite Z.add_comm, Z.mod_add, Z.mod_small by lia. done.
Qed.

Lemma addr_num_inj a b : As16 a = As16 b -> addr_ok a -> addr_ok b -> num16 a = num16 b.
Proof.
  intros H Ha Hb. unfold As16 in H. apply (f_equal be) in H.
  rewrite !be_put_be_small in H; [done | |]; destruct a, b; simpl in *; lia.
Qed.

(** ** Lemmas: parsing *)

Lemma parse_octet_range s v : parse_octet s = Some v -> 0 <= v <= 255.
Proof.
  unfold parse_octet. destruct s as [| c r]; [done |]. destruct (_ && _); [done |].
  destruct (digits_value 0 (c :: r)) as [w |] eqn:Hd; [| done]. apply digits_value_nonneg in Hd; [| lia].
  destruct (Z.leb_spec w 255); [| done]. intros [= <-]. lia.
Qed.

Lemma parse_ipv4_range s v : parse_ipv4 s = Some v -> 0 <= v < 2 ^ 32.
Proof.
  unfold parse_ipv4. destruct (Split _ _) as [| a [| b [| c [| d [| e l]]]]]; try done.
  intros (a' & Ha' & (b' & Hb' & (c' & Hc' & (d' & Hd' & [= <-])%bind_Some)%bind_Some)%bind_Some)%bind_Some.
  apply parse_octet_range in Ha', Hb', Hc', Hd'. lia.
Qed.

Lemma parse_ipv6_Is6 s a : parse_ipv6 s = Some a -> Is6 a = true.
Proof.
  unfold parse_ipv6. destruct (Cut 37 s) as [[t zone] has]. destruct (_ && _); [done |].
  intros H.
  assert (forall o : option (list Z * option nat), ('(gs, ell) ← o; v ← expand_groups gs ell; Some (Addr6 v zone)) = Some a -> Is6 a = true) as Ho.
  { intros o ([gs ell] & _ & (v & _ & [= <-])%bind_Some)%bind_Some. done. }
  destruct t as [| c t]; [by eapply Ho |]. destruct (Z.eq_dec c 58) as [-> | Hc].
  - destruct t as [| d t]; [by eapply Ho |]. destruct (Z.eq_dec d 58) as [-> | Hd].
    + destruct t as [| e t]; [by injection H as <- | by eapply Ho].
    + destruct d as [| q | q]; [by eapply Ho | | by eapply Ho].
      do 6 (destruct q as [q | q |]; try done; try (by eapply Ho)).
  - destruct c as [| q | q]; [by eapply Ho | | by eapply Ho].
    do 6 (destruct q as [q | q |]; try done; try (by eapply Ho)).
Qed.

Lemma ParseAddr_Addr4 s v : ParseAddr s = Some (Addr4 v) -> 0 <= v < 2 ^ 32.
Proof.
  unfold ParseAddr. intros H. assert (Addr4 <$> parse_ipv4 s = Some (Addr4 v) \/ parse_ipv6 s = Some (Addr4 v)) as [H' | H'].
  { destruct (addr_kind s) as [| q | q]; [done | | done].
    do 6 (destruct q as [q | q |]; try done); auto. }
  - apply fmap_Some in H' as (w & Hw & [= <-]). by apply parse_ipv4_range in Hw.
  - by apply parse_ipv6_Is6 in H'.
Qed.

(** ** Text of an address ([Addr.String]) *)

Definition String4 (v : Z) : bytes :=
  Utoa (v / 2 ^ 24) ++ 46 :: Utoa (v / 2 ^ 16 mod 256) ++ 46 :: Utoa (v / 2 ^ 8 mod 256) ++ 46 :: Utoa (v mod 256).

(** Lower-case hexadecimal without leading zeros. *)
Fixpoint hex_digits (fuel : nat) (n : Z) : bytes :=
  match fuel with
  | O => []
  | S fuel => let d := n mod 16 in
              (if n <? 16 then [] else hex_digits fuel (n / 16)) ++ [if d <? 10 then 48 + d else 87 + d]
  end.

Definition groups6 (v : Z) : list Z := map (fun i => v / 2 ^ (16 * (7 - Z.of_nat i)) mod 2 ^ 16) (List.seq 0 8).

(** The length of the run of zero groups that [gs] starts with. *)
Fixpoint zero_run (gs : list Z) : nat :=
  match gs with g :: gs => if g =? 0 then S (zero_run gs) else 0%nat | [] => 0%nat end.

(** The first longest run of at least two zero groups, as (start, length). *)
Fixpoint longest_run (i : nat) (gs : list Z) (best : nat * nat) : nat * nat :=
  match gs with
  | [] => best
  | _ :: r => let n := zero_run gs in
              longest_run (S i) r (if (1 <? n)%nat && (snd best <? n)%nat then (i, n) else best)
  end.

Definition join_groups (gs : list Z) : bytes := Join 58 (hex_digits 4 <$> gs).

Definition String6 (v : Z) : bytes :=
  let gs := groups6 v in
  let '(i, n) := longest_run 0 gs (0%nat, 0%nat) in
  if (n =? 0)%nat then join_groups gs
  else join_groups (take i gs) ++ [58; 58] ++ join_groups (drop (i + n) gs).

Definition Addr_String (a : Addr) : bytes :=
  match a with
  | AddrZero => str "invalid IP"
  | Addr4 v => String4 v
  | Addr6 v z =>
    (if v / 2 ^ 32 =? 65535 then str "::ffff:" ++ String4 (v mod 2 ^ 32) else String6 v)
    ++ (if bool_decide (z = []) then [] else 37 :: z)
  end.

Example Addr_String_examples :
  map Addr_String [Addr4 (10 * 2 ^ 24 + 255); Addr6 1 []; Addr6 0 []; Addr6 (2 ^ 112 * 64 + 5 * 2 ^ 32) (str "eth0")]
  = map str ["10.0.0.255"; "::1"; "::"; "40::5:0:0%eth0"]%string.
Proof. vm_compute. reflexivity. Qed.

Definition Prefix_String (p : Prefix) : bytes :=
  if PrefixIsValid p then Addr_String (pfx_ip p) ++ 47 :: Itoa (pfx_bits p) else str "invalid Prefix".
