(* ===== verification/NetText.v ===== *)
(** Texts of the standard library's network addresses: [netip.ParseAddrPort]
    and [AddrPort.String], [net.SplitHostPort] and [net.JoinHostPort],
    [strconv.Atoi] with the value it returns beside an error. *)
From stdpp Require Import base list strings.
From Stdlib Require Import ZArith Lia.
From S2P Require Import Prelude GoStrings Netip.

Open Scope Z_scope.

(** Whether [ParseUint] stops at a digit that takes the value past 64 bits. *)
Fixpoint overflows (acc : Z) (s : bytes) : bool :=
  match s with
  | [] => false
  | c :: r =>
    is_digit c && (let n := acc * 10 + (c - 48) in (2 ^ 64 <=? n) || overflows n r)
  end.

(** [strconv.Atoi]: the value, and whether there was no error. A number out of
    range comes back as the bound it exceeds, anything else as 0. *)
Definition Atoi (s : bytes) : Z * bool :=
  match ParseInt s with
  | Some n => (n, true)
  | None =>
    let '(neg, d) := match s with 43 :: r => (false, r) | 45 :: r => (true, r) | _ => (false, s) end in
    let out := overflows 0 d || (match ParseUint 64 d with Some _ => true | None => false end) in
    (if out then (if neg then - 2 ^ 63 else 2 ^ 63 - 1) else 0, false)
  end.

Example Atoi_examples :
  map (Atoi ∘ str) ["12"; "-3"; ""; "x1"; "9223372036854775808"; "-99999999999999999999x"; "9x"]%string
  = [(12, true); (-3, true); (0, false); (0, false); (2 ^ 63 - 1, false); (- 2 ^ 63, false); (0, false)].
Proof. vm_compute. reflexivity. Qed.

Definition ParseAddrPort (s : bytes) : option AddrPort :=
  let i := LastIndexByte s 58 in
  if i <? 0 then None
  else
    let ip := sub s 0 i in
    let port := sub s (i + 1) (zlen s) in
    if bool_decide (ip = []) || bool_decide (port = []) then None
    else
      let v6 := match ip with c :: _ => c =? 91 | [] => false end in
      if v6 && ((zlen ip <? 2) || negb (bool_decide (last ip = Some 93))) then None
      else
        let ip := if v6 then sub ip 1 (zlen ip - 1) else ip in
        p ← ParseUint 16 port;
        a ← ParseAddr ip;
        if (if v6 then Is4 a else Is6 a) then None else Some (MkAddrPort a p).

Definition AddrPort_String (a : AddrPort) : bytes :=
  match ap_addr a with
  | AddrZero => str "invalid AddrPort"
  | Addr4 v => String4 v ++ 58 :: Itoa (ap_port a)
  | a6 => 91 :: Addr_String a6 ++ 93 :: 58 :: Itoa (ap_port a)
  end.

Definition SplitHostPort (s : bytes) : option (bytes * bytes) :=
  let i := LastIndexByte s 58 in
  if i <? 0 then None
  else
    if HasPrefix s [91] then
      let e := IndexByte s 93 in
      if (e <? 0) || negb (e + 1 =? i) then None
      else if Contains1 (drop 1 s) 91 || Contains1 (drop (Z.to_nat (e + 1)) s) 93 then None
      else Some (sub s 1 e, sub s (i + 1) (zlen s))
    else if Contains1 (sub s 0 i) 58 || Contains1 s 91 || Contains1 s 93 then None
    else Some (sub s 0 i, sub s (i + 1) (zlen s)).

Definition JoinHostPort (host port : bytes) : bytes :=
  if Contains1 host 58 then 91 :: host ++ 93 :: 58 :: port else host ++ 58 :: port.

Example host_port_examples :
  map (SplitHostPort ∘ str) ["a.org:80"; ":443"; "[::1]:53"; "::1"; "a.org"; "[::1]"; "[a]b:1"]%string
  = [Some (str "a.org", str "80"); Some ([], str "443"); Some (str "::1", str "53"); None; None; None; None]
  /\ ParseAddrPort (str "[fd00::2]:53") = Some (MkAddrPort (Addr6 (64768 * 2 ^ 112 + 2) []) 53)
  /\ ParseAddrPort (str "10.0.0.1:4790") = Some (MkAddrPort (Addr4 (10 * 2 ^ 24 + 1)) 4790)
  /\ ParseAddrPort (str "[10.0.0.1]:1") = None /\ ParseAddrPort (str "::1:2") = None
  /\ AddrPort_String (MkAddrPort (Addr6 (64768 * 2 ^ 112 + 2) []) 53) = str "[fd00::2]:53".
Proof. vm_compute. repeat split. Qed.

(** ** Lemmas *)

Lemma zlen_not_neg {X} (l : list X) : (zlen l <? 0) = false.
Proof. unfold zlen. apply Z.ltb_ge. lia. Qed.

Lemma LastIndexByte_none s c : c ∉ s -> LastIndexByte s c = -1.
Proof.
  induction s as [| x s IH]; simpl; [done |]. rewrite not_elem_of_cons. intros [Hx Hs]. rewrite IH by done. simpl.
  by rewrite (proj2 (Z.eqb_neq x c)) by congruence.
Qed.

Lemma LastIndexByte_app a b c : c ∉ b -> LastIndexByte (a ++ c :: b) c = zlen a.
Proof.
  intros Hb. induction a as [| x a IH]; simpl.
  - by rewrite LastIndexByte_none, Z.eqb_refl by done.
  - rewrite IH, zlen_not_neg. unfold zlen. simpl. lia.
Qed.

Lemma Contains1_spec s c : Contains1 s c = true <-> c ∈ s.
Proof.
  unfold Contains1. rewrite existsb_exists. setoid_rewrite <- list_elem_of_In. split.
  - by intros (x & Hx & ->%Z.eqb_eq).
  - intros H. exists c. by rewrite Z.eqb_refl.
Qed.
Lemma Contains1_not s c : Contains1 s c = false <-> c ∉ s.
Proof. rewrite <- Contains1_spec. by destruct (Contains1 s c). Qed.

Lemma sub_front {X} (a b : list X) : sub (a ++ b) 0 (zlen a) = a.
Proof. unfold sub, zlen. rewrite Z.sub_0_r, Nat2Z.id. change (Z.to_nat 0) with 0%nat. by rewrite drop_0, take_app_length. Qed.

Lemma sub_back {X} (a b : list X) n : n = zlen a -> sub (a ++ b) n (zlen (a ++ b)) = b.
Proof.
  intros ->. unfold sub, zlen. rewrite Nat2Z.id, drop_app_length, length_app, take_ge; [done | lia].
Qed.

Lemma sub_rest {X} (a b : list X) c n : n = zlen a + 1 -> sub (a ++ c :: b) n (zlen (a ++ c :: b)) = b.
Proof.
  intros ->. replace (a ++ c :: b) with ((a ++ [c]) ++ b) by (by rewrite <- app_assoc).
  apply sub_back. unfold zlen. rewrite length_app. simpl. lia.
Qed.

Lemma SplitHostPort_JoinHostPort host port : 91 ∉ host -> 93 ∉ host -> 58 ∉ port -> 91 ∉ port -> 93 ∉ port ->
  SplitHostPort (JoinHostPort host port) = Some (host, port).
Proof.
  intros H1 H2 H3 H4 H5. unfold JoinHostPort. destruct (Contains1 host 58) eqn:Hc; unfold SplitHostPort.
  - set (s := 91 :: host ++ 93 :: 58 :: port).
    assert (s = (91 :: host ++ [93]) ++ 58 :: port) as Hs by (unfold s; simpl; by rewrite <- app_assoc).
    assert (LastIndexByte s 58 = zlen host + 2) as Hl.
    { rewrite Hs, LastIndexByte_app by done. unfold zlen. simpl. rewrite length_app. simpl. lia. }
    assert (IndexByte s 93 = zlen host + 1) as Hi.
    { unfold s. change (91 :: host ++ 93 :: 58 :: port) with ((91 :: host) ++ 93 :: 58 :: port).
      rewrite IndexByte_app by (by apply not_elem_of_cons). unfold zlen. simpl. lia. }
    assert (drop (Z.to_nat (zlen host + 1 + 1)) s = 58 :: port) as Hd.
    { rewrite Hs. replace (Z.to_nat _) with (length (91 :: host ++ [93])) by (unfold zlen; simpl; rewrite length_app; simpl; lia).
      by rewrite drop_app_length. }
    assert (HasPrefix s [91] = true) as Hp by (unfold s; simpl; by destruct (host ++ _)).
    assert (Contains1 (drop 1 s) 91 = false) as Hb.
    { apply Contains1_not. unfold s. simpl. rewrite drop_0, elem_of_app, !elem_of_cons. intros [? | [? | [? | ?]]]; done. }
    cbv zeta. rewrite Hl, Hp, Hi, Hd, Hb, (proj2 (Contains1_not (58 :: port) 93)) by (apply not_elem_of_cons; done).
    assert (0 <= zlen host) by (unfold zlen; lia).
    rewrite !(proj2 (Z.ltb_ge _ 0)), (proj2 (Z.eqb_eq _ _)) by lia. cbn [negb orb]. f_equal. f_equal.
    + unfold s, sub. replace (Z.to_nat _) with (length host) by (unfold zlen; lia). simpl. by rewrite drop_0, take_app_length.
    + rewrite Hs. apply sub_rest. unfold zlen. simpl. rewrite length_app. simpl. lia.
  - apply Contains1_not in Hc.
    assert (forall c, c ∉ host -> c ∉ port -> c <> 58 -> Contains1 (host ++ 58 :: port) c = false) as Hn.
    { intros c ? ? ?. apply Contains1_not. rewrite elem_of_app, elem_of_cons. intuition congruence. }
    assert (HasPrefix (host ++ 58 :: port) [91] = false) as Hp.
    { destruct host as [| c h]; [done |]. simpl. apply not_elem_of_cons in H1 as [? _]. by rewrite (proj2 (Z.eqb_neq _ _)). }
    cbv zeta. rewrite LastIndexByte_app, zlen_not_neg, Hp, sub_front, (Hn 91), (Hn 93), (proj2 (Contains1_not host 58)) by done.
    cbn [orb]. f_equal. f_equal. by apply sub_rest.
Qed.

(** Dotted addresses and ports read back. *)
Lemma parse_octet_Utoa n : 0 <= n <= 255 -> parse_octet (Utoa n) = Some n.
Proof.
  intros Hn. assert (forall k, (k <= 255)%nat -> parse_octet (Utoa (Z.of_nat k)) = Some (Z.of_nat k)) as H.
  { intros k Hk. do 256 (destruct k as [| k]; [reflexivity |]). lia. }
  rewrite <- (Z2Nat.id n) by lia. apply H. lia.
Qed.

Lemma String4_parts v : 0 <= v < 2 ^ 32 -> exists a b c d, 0 <= a <= 255 /\ 0 <= b <= 255 /\ 0 <= c <= 255 /\ 0 <= d <= 255
  /\ String4 v = Join 46 [Utoa a; Utoa b; Utoa c; Utoa d] /\ v = ((a * 256 + b) * 256 + c) * 256 + d.
Proof.
  intros Hv. exists (v / 2 ^ 24), (v / 2 ^ 16 mod 256), (v / 2 ^ 8 mod 256), (v mod 256).
  change (2 ^ 24) with 16777216. change (2 ^ 16) with 65536. change (2 ^ 8) with 256. change (2 ^ 32) with 4294967296 in Hv.
  do 4 (split; [Z.div_mod_to_equations; lia |]). split; [reflexivity | Z.div_mod_to_equations; lia].
Qed.

Lemma ParseAddr_String4 v : 0 <= v < 2 ^ 32 -> ParseAddr (String4 v) = Some (Addr4 v).
Proof.
  intros Hv. destruct (String4_parts v Hv) as (a & b & c & d & Ha & Hb & Hc & Hd & -> & Heq).
  assert (forall n, 0 <= n -> 46 ∉ Utoa n) as Hn by (intros; by apply Utoa_not_in).
  unfold ParseAddr. replace (addr_kind _) with 46; last first.
  { pose proof (Utoa_digits a ltac:(lia)) as H. cbn [Join]. generalize (Utoa b ++ 46 :: Utoa c ++ 46 :: Utoa d).
    intros r. revert H. generalize (Utoa a). clear. induction l as [| x l IH]; simpl; intros H; [done |].
    bool_hyps. unfold is_digit in H. bool_hyps. rewrite !(proj2 (Z.eqb_neq _ _)) by lia. simpl. by apply IH. }
  unfold parse_ipv4. rewrite Split_Join.
  - cbv beta iota. rewrite !parse_octet_Utoa by lia. cbn [mbind option_bind fmap option_fmap option_map]. by rewrite Heq.
  - done.
  - repeat (apply Forall_cons; split; [apply Hn; lia |]). done.
Qed.
