(* ===== verification/AddrText.v ===== *)
(** Reading back the printed form of [netip]'s addresses, prefixes and
    address-port pairs, IPv6 with its compressed run of zeros included. *)
From stdpp Require Import base list strings sets.
From Stdlib Require Import ZArith Lia.
From S2P Require Import Prelude GoStrings Netip NetText.

Open Scope Z_scope.

(** ** Hexadecimal groups *)

Definition hexc (d : Z) : Z := if d <? 10 then 48 + d else 87 + d.
Lemma hex_digit_hexc d : 0 <= d < 16 -> hex_digit (hexc d) = Some d.
Proof.
  intros Hd. unfold hexc, hex_digit, is_digit. destruct (Z.ltb_spec d 10);
    repeat match goal with |- context [?a <=? ?b] => destruct (Z.leb_spec a b) end; simpl; try lia; f_equal; lia.
Qed.

Definition no_hex (r : bytes) : Prop := match r with [] => True | c :: _ => hex_digit c = None end.

Lemma span_hex_digits ds : forall off acc r, Forall (fun d => 0 <= d < 16) ds -> no_hex r ->
  span_hex off acc (map hexc ds ++ r) = (off + zlen ds, fold_left (fun a d => a * 16 + d) ds acc, r).
Proof.
  induction ds as [| d ds IH]; intros off acc r Hd Hr.
  - simpl. rewrite Z.add_0_r. destruct r as [| c r]; [done |]. simpl in *. by rewrite Hr.
  - apply Forall_cons in Hd as [H0 Hd]. cbn [map app span_hex]. rewrite hex_digit_hexc by done. rewrite IH by done.
    cbn [fold_left]. rewrite zlen_cons. f_equal; [f_equal; lia].
Qed.

(** The digits of a group, most significant first. *)
Fixpoint nibbles (fuel : nat) (n : Z) : list Z :=
  match fuel with
  | O => []
  | S fuel => (if n <? 16 then [] else nibbles fuel (n / 16)) ++ [n mod 16]
  end.
Lemma hex_digits_nibbles f n : hex_digits f n = map hexc (nibbles f n).
Proof.
  revert n. induction f as [| f IH]; intros n; [done |]. cbn [hex_digits nibbles]. rewrite map_app, IH.
  f_equal. by destruct (n <? 16).
Qed.
Lemma nibbles_spec f n : 0 <= n < 16 ^ Z.of_nat f -> (0 < f)%nat -> 1 <= zlen (nibbles f n) <= Z.of_nat f
  /\ Forall (fun d => 0 <= d < 16) (nibbles f n) /\ fold_left (fun a d => a * 16 + d) (nibbles f n) 0 = n.
Proof.
  revert n. induction f as [| f IH]; intros n Hn Hf; [lia |]. cbn [nibbles].
  destruct (Z.ltb_spec n 16).
  - split; [change (zlen ([] ++ [n mod 16])) with 1; lia |]. split; [constructor; [Z.div_mod_to_equations; lia | done] |]. simpl. apply Z.mod_small. lia.
  - destruct f as [| f]; [simpl in Hn; lia |].
    assert (0 <= n / 16 < 16 ^ Z.of_nat (S f)) as Hd.
    { rewrite (Nat2Z.inj_succ (S f)), Z.pow_succ_r in Hn by lia. split; [Z.div_mod_to_equations; lia | apply Z.div_lt_upper_bound; lia]. }
    destruct (IH (n / 16) Hd ltac:(lia)) as (Hl & Hr & Hv). rewrite zlen_app. change (zlen [n mod 16]) with 1.
    split; [lia |]. split; [apply Forall_app; split; [done |]; constructor; [Z.div_mod_to_equations; lia | done] |].
    rewrite fold_left_app, Hv. simpl. Z.div_mod_to_equations. lia.
Qed.

Definition group (g : Z) : Prop := 0 <= g < 65536.

Lemma span_group g r : group g -> no_hex r -> exists k, 1 <= k <= 4 /\ span_hex 0 0 (hex_digits 4 g ++ r) = (k, g, r).
Proof.
  intros Hg Hr. rewrite hex_digits_nibbles. destruct (nibbles_spec 4 g) as (Hl & Hd & Hv); [exact Hg | lia |].
  exists (zlen (nibbles 4 g)). split; [done |]. by rewrite span_hex_digits, Hv.
Qed.

Lemma hex_digits_head g : group g -> exists c r, hex_digits 4 g = c :: r /\ hex_digit c <> None.
Proof.
  intros Hg. rewrite hex_digits_nibbles. destruct (nibbles_spec 4 g) as (Hl & Hd & _); [exact Hg | lia |].
  destruct (nibbles 4 g) as [| d ds]; [change (zlen (@nil Z)) with 0 in Hl; lia |]. apply Forall_cons in Hd as [Hd _].
  exists (hexc d), (map hexc ds). split; [done |]. by rewrite hex_digit_hexc.
Qed.

(** ** Groups *)

Lemma join_cons g l : l <> [] -> join_groups (g :: l) = hex_digits 4 g ++ 58 :: join_groups l.
Proof. by destruct l. Qed.

Lemma join_head l : l <> [] -> Forall group l -> exists c r, join_groups l = c :: r /\ hex_digit c <> None.
Proof.
  destruct l as [| g l]; [done |]. intros _ [Hg Hl]%Forall_cons. destruct (hex_digits_head g Hg) as (c & r & E & Hc).
  destruct l as [| g' l]; [exists c, r; by rewrite <- E |].
  rewrite join_cons, E by done. by eexists _, _.
Qed.

Lemma step_last n gs ell g : group g -> parse_groups (S n) gs ell (hex_digits 4 g) = Some (gs ++ [g], ell).
Proof.
  intros Hg. destruct (span_group g [] Hg I) as (k & Hk & E). rewrite app_nil_r in E. cbn [parse_groups]. rewrite E.
  rewrite (proj2 (Z.eqb_neq k 0)), (proj2 (Z.ltb_ge 4 k)) by lia. done.
Qed.

Lemma step_colon n gs ell g c r : group g -> c <> 58 ->
  parse_groups (S n) gs ell (hex_digits 4 g ++ 58 :: c :: r) = parse_groups n (gs ++ [g]) ell (c :: r).
Proof.
  intros Hg Hc. destruct (span_group g (58 :: c :: r) Hg eq_refl) as (k & Hk & E). cbn [parse_groups]. rewrite E.
  rewrite (proj2 (Z.eqb_neq k 0)), (proj2 (Z.ltb_ge 4 k)) by lia. cbn [orb].
  destruct c as [| p | p]; try done. repeat (destruct p as [p | p |]; try done).
Qed.

Lemma step_gap n gs g r : group g ->
  parse_groups (S n) gs None (hex_digits 4 g ++ 58 :: 58 :: r)
  = match r with [] => Some (gs ++ [g], Some (length (gs ++ [g]))) | _ => parse_groups n (gs ++ [g]) (Some (length (gs ++ [g]))) r end.
Proof.
  intros Hg. destruct (span_group g (58 :: 58 :: r) Hg eq_refl) as (k & Hk & E). cbn [parse_groups]. rewrite E.
  rewrite (proj2 (Z.eqb_neq k 0)), (proj2 (Z.ltb_ge 4 k)) by lia. done.
Qed.

Lemma hex_not_colon c : hex_digit c <> None -> c <> 58 /\ c <> 46 /\ c <> 37.
Proof. intros H. split_and!; intros ->; by apply H. Qed.

Lemma parse_join l : forall n gs ell, l <> [] -> Forall group l -> (length l <= n)%nat ->
  parse_groups n gs ell (join_groups l) = Some (gs ++ l, ell).
Proof.
  induction l as [| g l IH]; intros n gs ell Hne Hg Hn; [done |]. apply Forall_cons in Hg as [Hg Hl].
  destruct n as [| n]; [simpl in Hn; lia |]. destruct l as [| g' l].
  - by apply step_last.
  - destruct (join_head (g' :: l) ltac:(done) Hl) as (c & r & E & Hc). rewrite join_cons, E by done.
    rewrite step_colon by (done || by apply hex_not_colon). rewrite <- E, IH by (done || simpl in *; lia). by rewrite <- app_assoc.
Qed.

Lemma parse_join_gap l : forall n gs r, l <> [] -> Forall group l -> (length l <= n)%nat ->
  parse_groups n gs None (join_groups l ++ 58 :: 58 :: r)
  = match r with [] => Some (gs ++ l, Some (length (gs ++ l))) | _ => parse_groups (n - length l) (gs ++ l) (Some (length (gs ++ l))) r end.
Proof.
  induction l as [| g l IH]; intros n gs r Hne Hg Hn; [done |]. apply Forall_cons in Hg as [Hg Hl].
  destruct n as [| n]; [simpl in Hn; lia |]. destruct l as [| g' l].
  - change (join_groups [g]) with (hex_digits 4 g). rewrite step_gap by done. simpl. by rewrite Nat.sub_0_r.
  - destruct (join_head (g' :: l) ltac:(done) Hl) as (c & r' & E & Hc). rewrite join_cons, <- app_assoc by done. cbn [app].
    rewrite E. cbn [app]. rewrite step_colon by (done || by apply hex_not_colon).
    change (c :: r' ++ 58 :: 58 :: r) with ((c :: r') ++ 58 :: 58 :: r). rewrite <- E, IH by (done || simpl in *; lia).
    rewrite <- app_assoc. done.
Qed.

(** ** The run of zeros *)

Definition run_ok (gs : list Z) (b : nat * nat) : Prop :=
  b.2 = 0%nat \/ (1 < b.2)%nat /\ (b.1 + b.2 <= length gs)%nat /\ take b.2 (drop b.1 gs) = replicate b.2 0.

Lemma zero_run_spec gs : (zero_run gs <= length gs)%nat /\ take (zero_run gs) gs = replicate (zero_run gs) 0.
Proof.
  induction gs as [| g gs [IH1 IH2]]; [done |]. simpl. destruct (Z.eqb_spec g 0) as [-> |]; simpl; [| split; [lia | done]].
  split; [lia | by f_equal].
Qed.

Lemma longest_run_ok gs : forall pre b, run_ok (pre ++ gs) b -> run_ok (pre ++ gs) (longest_run (length pre) gs b).
Proof.
  induction gs as [| g gs IH]; intros pre b Hb; [done |]. cbn [longest_run].
  replace (pre ++ g :: gs) with ((pre ++ [g]) ++ gs) in * by (by rewrite <- app_assoc).
  replace (S (length pre)) with (length (pre ++ [g])) by (rewrite length_app; simpl; lia).
  apply IH. rewrite <- app_assoc in *. cbn [app] in *. destruct (zero_run_spec (g :: gs)) as [H1 H2].
  destruct (1 <? zero_run (g :: gs))%nat eqn:E; [| done]. apply Nat.ltb_lt in E. destruct (_ <? _)%nat; [| by destruct b]. right.
  cbn [andb fst snd]. rewrite length_app. split_and!; [done | lia |]. by rewrite drop_app_length.
Qed.

Lemma run_split gs i n : run_ok gs (i, n) -> n <> 0%nat ->
  (1 < n)%nat /\ gs = take i gs ++ replicate n 0 ++ drop (i + n) gs /\ (i + n <= length gs)%nat.
Proof.
  intros [H | (Hn & Hl & Ht)] H0; [done |]. simpl in *. split; [done |]. split; [| done].
  rewrite <- Ht, <- drop_drop. by rewrite (take_drop n), (take_drop i).
Qed.

(** ** IPv6 *)

Lemma groups6_ok v : Forall group (groups6 v) /\ length (groups6 v) = 8%nat.
Proof.
  unfold groups6. split; [| done]. apply Forall_map, Forall_forall. intros i _. unfold group.
  change 65536 with (2 ^ 16). by apply Z.mod_pos_bound.
Qed.

Lemma groups_value_snoc gs g : groups_value (gs ++ [g]) = groups_value gs * 65536 + g.
Proof. unfold groups_value. by rewrite fold_left_app. Qed.

Lemma groups6_value v : 0 <= v < 2 ^ 128 -> groups_value (groups6 v) = v.
Proof.
  intros Hv. unfold groups6, groups_value. cbn [List.seq map fold_left].
  change (2 ^ (16 * (7 - Z.of_nat 0))) with (2 ^ 112). change (2 ^ (16 * (7 - Z.of_nat 1))) with (2 ^ 96).
  change (2 ^ (16 * (7 - Z.of_nat 2))) with (2 ^ 80). change (2 ^ (16 * (7 - Z.of_nat 3))) with (2 ^ 64).
  change (2 ^ (16 * (7 - Z.of_nat 4))) with (2 ^ 48). change (2 ^ (16 * (7 - Z.of_nat 5))) with (2 ^ 32).
  change (2 ^ (16 * (7 - Z.of_nat 6))) with (2 ^ 16). change (2 ^ (16 * (7 - Z.of_nat 7))) with 1.
  change (2 ^ 16) with 65536.
  assert (forall k, 0 <= k -> v / 2 ^ (16 + k) = v / 2 ^ k / 65536) as Hd.
  { intros k Hk. rewrite Z.add_comm, Z.pow_add_r, Z.div_div by lia. done. }
  rewrite (Z.mod_small (v / 2 ^ 112)) by (split; [apply Z.div_pos; lia | apply Z.div_lt_upper_bound; [lia | exact (proj2 Hv)]]).
  assert (v / 2 ^ 112 = v / 2 ^ 96 / 65536) as -> by exact (Hd 96 ltac:(lia)).
  assert (v / 2 ^ 96 = v / 2 ^ 80 / 65536) as -> by exact (Hd 80 ltac:(lia)).
  assert (v / 2 ^ 80 = v / 2 ^ 64 / 65536) as -> by exact (Hd 64 ltac:(lia)).
  assert (v / 2 ^ 64 = v / 2 ^ 48 / 65536) as -> by exact (Hd 48 ltac:(lia)).
  assert (v / 2 ^ 48 = v / 2 ^ 32 / 65536) as -> by exact (Hd 32 ltac:(lia)).
  assert (v / 2 ^ 32 = v / 65536 / 65536) as -> by exact (Hd 16 ltac:(lia)).
  rewrite Z.div_1_r.
  assert (forall a, a / 65536 * 65536 + a mod 65536 = a) as He by (intros; Z.div_mod_to_equations; lia).
  rewrite Z.mul_0_l, Z.add_0_l. by rewrite !He.
Qed.

(** What [parse_ipv6] does with a text that has no zone. *)
Definition parse_plain6 (s : bytes) : option Z :=
  match s with
  | 58 :: 58 :: [] => Some 0
  | 58 :: 58 :: r => '(gs, ell) ← parse_groups 8 [] (Some 0%nat) r; expand_groups gs ell
  | _ => '(gs, ell) ← parse_groups 8 [] None s; expand_groups gs ell
  end.

Lemma plain6_head c r : c <> 58 -> parse_plain6 (c :: r) = '(gs, ell) ← parse_groups 8 [] None (c :: r); expand_groups gs ell.
Proof. intros Hc. destruct c as [| p | p]; try done. repeat (destruct p as [p | p |]; try done). Qed.

Lemma expand_gap a n b : (length a + n + length b = 8)%nat -> (0 < n)%nat ->
  expand_groups (a ++ b) (Some (length a)) = Some (groups_value (a ++ replicate n 0 ++ b)).
Proof.
  intros Hl Hn. unfold expand_groups. rewrite (proj2 (Z.ltb_lt _ _)) by (unfold zlen; rewrite length_app; lia).
  rewrite take_app_length, drop_app_length, length_app. by replace (8 - (length a + length b))%nat with n by lia.
Qed.

Lemma plain6_join a b n : Forall group a -> Forall group b -> (length a + n + length b = 8)%nat -> (1 < n)%nat ->
  parse_plain6 (join_groups a ++ [58; 58] ++ join_groups b) = Some (groups_value (a ++ replicate n 0 ++ b)).
Proof.
  intros Ha Hb Hl Hn.
  assert (forall gs, b <> [] -> parse_groups (8 - length a) gs (Some (length a)) (join_groups b) = Some (gs ++ b, Some (length a))) as Hpb.
  { intros gs Hne. apply parse_join; [done | done | lia]. }
  destruct a as [| g a].
  - destruct b as [| g b].
    + simpl in Hl. assert (n = 8%nat) as -> by lia. reflexivity.
    + destruct (join_head (g :: b) ltac:(done) Hb) as (c & r & E & Hc). change (join_groups []) with (@nil Z). cbn [app].
      rewrite E. change (parse_plain6 (58 :: 58 :: c :: r)) with ('(gs, ell) ← parse_groups 8 [] (Some 0%nat) (c :: r); expand_groups gs ell).
      rewrite <- E. pose proof (Hpb [] ltac:(done)) as H. cbn [length Nat.sub app] in H. rewrite H. cbn [mbind option_bind].
      exact (expand_gap [] n (g :: b) Hl ltac:(lia)).
  - destruct (join_head (g :: a) ltac:(done) Ha) as (c & r & E & Hc). pose proof (hex_not_colon c Hc) as (H58 & _).
    rewrite E. cbn [app]. rewrite plain6_head by done.
    change (c :: r ++ 58 :: 58 :: join_groups b) with ((c :: r) ++ 58 :: 58 :: join_groups b). rewrite <- E.
    rewrite parse_join_gap by (done || lia). cbn [app].
    destruct b as [| g' b].
    + change (join_groups []) with (@nil Z). cbv iota beta. cbn [mbind option_bind]. rewrite <- (app_nil_r (g :: a)) at 1. by apply (expand_gap (g :: a) n []); [| lia].
    + destruct (join_head (g' :: b) ltac:(done) Hb) as (c' & r' & E' & _). rewrite E', <- E'.
      rewrite Hpb by done. cbn [mbind option_bind]. exact (expand_gap (g :: a) n (g' :: b) Hl ltac:(lia)).
Qed.

Lemma parse_String6 v : 0 <= v < 2 ^ 128 -> parse_plain6 (String6 v) = Some v.
Proof.
  intros Hv. rewrite <- (groups6_value v Hv) at 2. destruct (groups6_ok v) as [Hg Hl].
  assert (groups6 v <> []) as Hne by (intros E; by rewrite E in Hl). unfold String6.
  assert (run_ok (groups6 v) (longest_run 0 (groups6 v) (0, 0)%nat)) as Hr by (apply (longest_run_ok (groups6 v) []); by left).
  destruct (longest_run 0 (groups6 v) (0, 0)%nat) as [i n]. destruct (Nat.eqb_spec n 0) as [-> | Hn].
  - destruct (join_head (groups6 v)) as (c & r & E & Hc); [done .. |]. rewrite E.
    rewrite plain6_head by (by apply hex_not_colon). rewrite <- E. rewrite parse_join by (done || lia).
    cbn [mbind option_bind app]. unfold expand_groups. by rewrite (proj2 (Z.eqb_eq _ _)) by (unfold zlen; lia).
  - destruct (run_split _ _ _ Hr Hn) as (H1 & E & H2). rewrite plain6_join with (n := n); [by rewrite <- E | by apply Forall_take | by apply Forall_drop | | done].
    rewrite length_take, length_drop. lia.
Qed.

Lemma parse_ipv6_zone s z : 37 ∉ s ->
  parse_ipv6 (s ++ (if bool_decide (z = []) then [] else 37 :: z)) = (fun v => Addr6 v z) <$> parse_plain6 s.
Proof.
  intros Hs. unfold parse_ipv6, parse_plain6.
  assert (exists has, Cut 37 (s ++ (if bool_decide (z = []) then [] else 37 :: z)) = (s, z, has) /\ has && bool_decide (z = []) = false) as (has & -> & Hz).
  { destruct (bool_decide_reflect (z = [])) as [-> | Hz]; [exists false; rewrite app_nil_r | exists true]; (split; [| done]); [by apply Cut_none | by apply Cut_app]. }
  rewrite Hz. assert (forall o, ('(gs, ell) ← o; v ← expand_groups gs ell; Some (Addr6 v z)) = (fun v => Addr6 v z) <$> ('(gs, ell) ← o; expand_groups gs ell)) as Hm.
  { intros [[gs ell] |]; simpl; [| done]. by destruct (expand_groups gs ell). }
  repeat (case_match; try apply Hm; try done).
Qed.

(** ** The characters of the texts *)

Definition addr_char (c : Z) : Prop := c = 58 \/ hex_digit c <> None.
Lemma join_chars l : Forall group l -> Forall addr_char (join_groups l).
Proof.
  intros Hl. apply Forall_forall. intros x [(w & Hw & Hx) | [-> _]]%elem_of_Join; [right | by left].
  apply list_elem_of_fmap in Hw as (g & -> & Hg). rewrite Forall_forall in Hl. specialize (Hl g Hg).
  rewrite hex_digits_nibbles in Hx. apply list_elem_of_fmap in Hx as (d & -> & Hd).
  destruct (nibbles_spec 4 g) as (_ & Hn & _); [exact Hl | lia |]. rewrite Forall_forall in Hn. by rewrite hex_digit_hexc by (by apply Hn).
Qed.

Lemma String6_chars v : Forall addr_char (String6 v) /\ 58 ∈ String6 v.
Proof.
  destruct (groups6_ok v) as [Hg Hl]. unfold String6. destruct (longest_run 0 (groups6 v) (0, 0)%nat) as [i n]. destruct (n =? 0)%nat.
  - split; [by apply join_chars |]. apply elem_of_Join. right. split; [done |]. rewrite length_fmap. lia.
  - split; [| set_solver]. rewrite !Forall_app. split_and!; [by apply join_chars, Forall_take | repeat constructor; by left | by apply join_chars, Forall_drop].
Qed.

Lemma addr_kind_6 s t : Forall addr_char s -> 58 ∈ s -> addr_kind (s ++ t) = 58.
Proof.
  induction 1 as [| c s Hc Hs IH]; intros Hin; [by apply elem_of_nil in Hin |]. simpl.
  destruct (Z.eqb_spec c 58) as [-> | H58]; [done |]. destruct Hc as [-> | Hc]; [done |]. apply hex_not_colon in Hc as (_ & H1 & H2).
  rewrite (proj2 (Z.eqb_neq _ _) H1), (proj2 (Z.eqb_neq _ _) H2). simpl. apply IH. set_solver.
Qed.

Lemma addr_char_not s c : Forall addr_char s -> c <> 58 -> hex_digit c = None -> c ∉ s.
Proof. rewrite Forall_forall. intros Hs Hc Hh Hin. by destruct (Hs c Hin). Qed.

Lemma String4_chars v c : 0 <= v < 2 ^ 32 -> c <> 46 -> is_digit c = false -> c ∉ String4 v.
Proof.
  intros Hv Hc Hd. unfold String4. rewrite !elem_of_app, !elem_of_cons, !elem_of_app, !elem_of_cons, !elem_of_app, !elem_of_cons.
  assert (forall n, 0 <= n -> c ∉ Utoa n) as Hu by (intros; by apply Utoa_not_in).
  intros H. decompose [or] H; try congruence; eapply Hu; try eassumption; Z.div_mod_to_equations; lia.
Qed.

(** ** IPv4 addresses inside IPv6 *)

Lemma parse_ipv4_String4 v : 0 <= v < 2 ^ 32 -> parse_ipv4 (String4 v) = Some v.
Proof.
  intros Hv. pose proof (ParseAddr_String4 v Hv) as H. unfold ParseAddr in H.
  destruct (addr_kind (String4 v)) as [| p | p]; try done. repeat (destruct p as [p | p |]; try done).
  - destruct (parse_ipv4 (String4 v)); [by injection H as -> | done].
  - by pose proof (parse_ipv6_Is6 _ _ H).
Qed.

Lemma String4_head v : 0 <= v < 2 ^ 32 -> exists ds r, String4 v = map hexc ds ++ 46 :: r /\ Forall (fun d => 0 <= d < 16) ds /\ 1 <= zlen ds <= 3.
Proof.
  intros Hv. exists (map (fun c => c - 48) (Utoa (v / 2 ^ 24))). eexists. split.
  - unfold String4. f_equal. rewrite map_map. rewrite <- (map_id (Utoa (v / 2 ^ 24))) at 1. apply map_ext_in. intros c Hc.
    pose proof (Utoa_digits (v / 2 ^ 24) ltac:(Z.div_mod_to_equations; lia)) as Hd. rewrite forallb_forall in Hd. specialize (Hd c Hc).
    unfold is_digit in Hd. bool_hyps. unfold hexc. rewrite (proj2 (Z.ltb_lt _ _)) by lia. lia.
  - assert (0 <= v / 2 ^ 24 <= 255) as Hr by (change (2 ^ 32) with 4294967296 in Hv; change (2 ^ 24) with 16777216; Z.div_mod_to_equations; lia).
    generalize dependent (v / 2 ^ 24). intros n Hn. split.
    + pose proof (Utoa_digits n ltac:(lia)) as Hd. rewrite forallb_forall in Hd. apply Forall_map, Forall_forall.
      intros c Hc%list_elem_of_In. specialize (Hd c Hc). unfold is_digit in Hd. bool_hyps. lia.
    + unfold zlen. rewrite length_map. revert Hn. intros Hn. assert (forall k, (k <= 255)%nat -> (1 <= length (Utoa (Z.of_nat k)) <= 3)%nat) as H.
      { intros k Hk. do 256 (destruct k as [| k]; [vm_compute; lia |]). lia. }
      specialize (H (Z.to_nat n) ltac:(lia)). rewrite Z2Nat.id in H by lia. lia.
Qed.

Lemma step_dot n gs k ds r w : Forall (fun d => 0 <= d < 16) ds -> 1 <= zlen ds <= 4 -> zlen gs <= 6 ->
  parse_ipv4 (map hexc ds ++ 46 :: r) = Some w ->
  parse_groups (S n) gs (Some k) (map hexc ds ++ 46 :: r) = Some (gs ++ [w / 65536; w mod 65536], Some k).
Proof.
  intros Hd Hl Hg Hw.
  assert (span_hex 0 0 (map hexc ds ++ 46 :: r) = (0 + zlen ds, fold_left (fun a d => a * 16 + d) ds 0, 46 :: r)) as Hs
    by (apply span_hex_digits; [done | reflexivity]).
  revert Hs. generalize (fold_left (fun a d => a * 16 + d) ds 0). revert Hw. generalize (map hexc ds ++ 46 :: r). intros s Hw acc. intros Hs.
  cbn [parse_groups]. rewrite Hs, (proj2 (Z.eqb_neq (0 + zlen ds) 0)), (proj2 (Z.ltb_ge 4 (0 + zlen ds))) by lia. cbn [orb].
  rewrite bool_decide_eq_false_2 by done. rewrite (proj2 (Z.ltb_ge 6 (zlen gs))) by lia. cbn [andb orb]. by rewrite Hw.
Qed.

Lemma parse_mapped w : 0 <= w < 2 ^ 32 -> parse_plain6 (str "::ffff:" ++ String4 w) = Some (65535 * 2 ^ 32 + w).
Proof.
  intros Hw. destruct (String4_head w Hw) as (ds & r & E & Hd & Hl).
  change (str "::ffff:" ++ String4 w) with (58 :: 58 :: 102 :: (str "fff:" ++ String4 w)).
  change (parse_plain6 (58 :: 58 :: 102 :: (str "fff:" ++ String4 w)))
    with ('(gs, ell) ← parse_groups 8 [] (Some 0%nat) (str "ffff:" ++ String4 w); expand_groups gs ell).
  assert (parse_groups 8 [] (Some 0%nat) (str "ffff:" ++ String4 w) = parse_groups 7 [65535] (Some 0%nat) (String4 w)) as ->.
  { destruct ds as [| d ds]; [change (zlen (@nil Z)) with 0 in Hl; lia |]. rewrite E. cbn [map app]. change (str "ffff:" ++ hexc d :: map hexc ds ++ 46 :: r)
      with (hex_digits 4 65535 ++ 58 :: hexc d :: map hexc ds ++ 46 :: r).
    apply (step_colon 7 [] (Some 0%nat) 65535); [unfold group; lia |]. apply Forall_cons in Hd as [Hd _].
    apply hex_not_colon. by rewrite hex_digit_hexc. }
  pose proof (parse_ipv4_String4 w Hw) as H4. rewrite E in H4 |- *.
  rewrite (step_dot 6 [65535] 0 ds r w) by (done || (change (zlen [65535]) with 1; lia)). cbn [mbind option_bind app].
  unfold expand_groups. cbn [length take drop replicate app]. change (zlen [65535; w / 65536; w mod 65536] <? 8) with true. cbn [Nat.sub replicate].
  unfold groups_value. cbn [app fold_left]. f_equal. change (2 ^ 32) with 4294967296. Z.div_mod_to_equations. lia.
Qed.

(** ** Reading back *)

Theorem ParseAddr_String a : addr_ok a -> IsValid a = true -> ParseAddr (Addr_String a) = Some a.
Proof.
  destruct a as [| v | v z]; intros Ha Hv; [done | by apply ParseAddr_String4 |].
  cbn [Addr_String]. simpl in Ha. destruct (Z.eqb_spec (v / 2 ^ 32) 65535) as [Hm | Hm].
  - assert (0 <= v mod 2 ^ 32 < 2 ^ 32) as Hw by (by apply Z.mod_pos_bound).
    change (ParseAddr ?t) with (parse_ipv6 t). rewrite parse_ipv6_zone; [rewrite parse_mapped by done |].
    + cbn [fmap option_fmap option_map]. do 2 f_equal. rewrite <- Hm. rewrite (Z.div_mod v (2 ^ 32)) at 3 by lia. lia.
    + rewrite elem_of_app. intros [H | H]; [| by apply String4_chars in H].
      revert H. apply (bool_decide_unpack (37 ∉ str "::ffff:")). vm_compute. exact I.
  - destruct (String6_chars v) as [Hc H58]. unfold ParseAddr. rewrite addr_kind_6 by done.
    rewrite parse_ipv6_zone by (by apply addr_char_not). by rewrite parse_String6.
Qed.

Lemma Addr_String_not a c : addr_ok a -> IsValid a = true -> Zone a = [] -> c <> 46 -> c <> 58 -> hex_digit c = None -> c ∉ Addr_String a.
Proof.
  intros Ha Hv Hz H46 H58 Hh. assert (is_digit c = false) as Hd by (unfold hex_digit in Hh; by destruct (is_digit c)).
  destruct a as [| v | v z]; [done | by apply String4_chars |]. cbn [Addr_String Zone addr_ok] in *. subst z. rewrite bool_decide_eq_true_2, app_nil_r by done.
  destruct (v / 2 ^ 32 =? 65535).
  - rewrite elem_of_app. intros [H | H]; [| by apply String4_chars in H; [| apply Z.mod_pos_bound | |]].
    assert (Forall addr_char (str "::ffff:")) as Hf by (repeat (apply Forall_cons; split; [first [by left | by right] |]); by apply Forall_nil).
    by apply (addr_char_not _ c Hf).
  - apply addr_char_not; [apply String6_chars | done | done].
Qed.

Theorem ParsePrefix_String p : prefix_ok p -> PrefixIsValid p = true -> ParsePrefix (Prefix_String p) = Some p.
Proof.
  destruct p as [a b]. intros (Ha & Hz & Hb) Hv. unfold Prefix_String. rewrite Hv. unfold PrefixIsValid in Hv. simpl in *.
  apply Z.leb_le in Hv. destruct Hb as [-> | [Hval Hb]]; [lia |].
  assert (0 <= b <= 128) as Hb' by (destruct a; simpl in Hb; lia).
  assert (47 ∉ Itoa b) as Hi by (unfold Itoa; rewrite (proj2 (Z.ltb_ge b 0)) by lia; by apply Utoa_not_in).
  unfold ParsePrefix. rewrite LastIndexByte_app by done. rewrite (proj2 (Z.ltb_ge _ 0)) by apply zlen_nonneg.
  rewrite sub_front, ParseAddr_String by done. cbn [mbind option_bind]. rewrite (bool_decide_eq_true_2 (Zone a = [])), andb_false_r by done.
  rewrite sub_rest by done.
  assert ((1 <? zlen (Itoa b)) && negb (match Itoa b with c :: _ => (49 <=? c) && (c <=? 57) | [] => false end) = false) as ->.
  { assert (forall k, (k <= 128)%nat -> (1 <? zlen (Itoa (Z.of_nat k))) && negb (match Itoa (Z.of_nat k) with c :: _ => (49 <=? c) && (c <=? 57) | [] => false end) = false) as H.
    { intros k Hk. do 129 (destruct k as [| k]; [reflexivity |]). lia. }
    rewrite <- (Z2Nat.id b) by lia. apply H. lia. }
  rewrite ParseInt_Itoa by lia. cbn [mbind option_bind]. rewrite (proj2 (Z.ltb_ge b 0)), (proj2 (Z.ltb_ge (BitLen a) b)) by lia. cbn [orb].
  unfold PrefixFrom. rewrite Hval, (proj2 (Z.leb_le 0 b)), (proj2 (Z.leb_le b (BitLen a))) by lia. simpl. f_equal. f_equal.
  destruct a; simpl in *; congruence.
Qed.

Theorem ParseAddrPort_String e : addr_ok (ap_addr e) -> apIsValid e = true -> 0 <= ap_port e < 65536 ->
  ParseAddrPort (AddrPort_String e) = Some e.
Proof.
  destruct e as [a p]. unfold apIsValid, ParseAddrPort. simpl. intros Ha Hv Hp.
  assert (Itoa p = Utoa p) as Ei by (unfold Itoa; by rewrite (proj2 (Z.ltb_ge p 0)) by lia).
  assert (58 ∉ Itoa p) as H58 by (rewrite Ei; apply Utoa_not_in; lia || done).
  assert (Itoa p <> []) as Hne by (rewrite Ei; apply Utoa_not_nil).
  assert (ParseUint 16 (Itoa p) = Some p) as Hpp by (rewrite Ei; apply ParseUint_Utoa; lia).
  destruct a as [| v | v z]; [done | |].
  - unfold AddrPort_String. cbn [ap_addr ap_port]. rewrite LastIndexByte_app by done. rewrite (proj2 (Z.ltb_ge _ 0)) by apply zlen_nonneg.
    rewrite sub_front, sub_rest by done. destruct (String4_head v Ha) as (ds & r & E & Hd & Hl).
    rewrite (bool_decide_eq_false_2 (String4 v = [])) by (rewrite E; by destruct ds). rewrite bool_decide_eq_false_2 by done. cbn [orb].
    assert (match String4 v with c :: _ => c =? 91 | [] => false end = false) as ->.
    { rewrite E. destruct ds as [| d ds]; [done |]. apply Forall_cons in Hd as [Hd _]. cbn [map app]. apply Z.eqb_neq. intros H91.
      pose proof (hex_digit_hexc d Hd) as H'. by rewrite H91 in H'. }
    cbn [andb]. rewrite Hpp. cbn [mbind option_bind]. by rewrite ParseAddr_String4.
  - unfold AddrPort_String. cbn [ap_addr ap_port].
    set (t := Addr_String (Addr6 v z)). change (91 :: t ++ 93 :: 58 :: Itoa p) with ((91 :: t) ++ [93] ++ 58 :: Itoa p). rewrite app_assoc.
    rewrite LastIndexByte_app by done. rewrite (proj2 (Z.ltb_ge _ 0)) by apply zlen_nonneg. rewrite sub_front, sub_rest by done.
    rewrite bool_decide_eq_false_2 by done. rewrite bool_decide_eq_false_2 by done. cbn [orb app]. change (91 =? 91) with true. cbn [andb].
    assert (zlen (91 :: t ++ [93]) = zlen t + 2) as Hl by (rewrite zlen_cons, zlen_app; change (zlen [93]) with 1; lia).
    rewrite (proj2 (Z.ltb_ge _ 2)) by (pose proof (zlen_nonneg t); lia).
    rewrite bool_decide_eq_true_2 by (change (91 :: t ++ [93]) with ((91 :: t) ++ [93]); apply last_snoc). cbn [negb orb].
    assert (sub (91 :: t ++ [93]) 1 (zlen (91 :: t ++ [93]) - 1) = t) as ->.
    { rewrite Hl. unfold sub. replace (Z.to_nat 1) with 1%nat by done. cbn [drop].
      replace (Z.to_nat (zlen t + 2 - 1 - 1)) with (length t) by (unfold zlen; lia). apply take_app_length. }
    rewrite Hpp. cbn [mbind option_bind]. unfold t. by rewrite ParseAddr_String.
Qed.

(** ** What is read is well formed *)

Lemma hex_digit_range c d : hex_digit c = Some d -> 0 <= d < 16.
Proof.
  unfold hex_digit, is_digit. intros H.
  repeat match goal with _ : context [?a <=? ?b] |- _ => destruct (Z.leb_spec a b) end; simpl in H; simplify_eq; lia.
Qed.

Lemma span_hex_range s : forall off acc off' acc' r, 0 <= acc -> span_hex off acc s = (off', acc', r) ->
  off <= off' /\ 0 <= acc' /\ acc' + 1 <= (acc + 1) * 16 ^ (off' - off).
Proof.
  induction s as [| c s IH]; intros off acc off' acc' r Ha H; simpl in H.
  - injection H as <- <- <-. rewrite Z.sub_diag. lia.
  - destruct (hex_digit c) as [d |] eqn:Hd; [| injection H as <- <- <-; rewrite Z.sub_diag; lia].
    apply hex_digit_range in Hd. apply IH in H as (H1 & H2 & H3); [| lia]. split_and!; [lia | done |].
    replace (off' - off) with (1 + (off' - (off + 1))) by lia. rewrite Z.pow_add_r by lia. nia.
Qed.

Lemma parse_groups_range n : forall gs ell s gs' ell', Forall group gs -> parse_groups n gs ell s = Some (gs', ell') -> Forall group gs'.
Proof.
  induction n as [| n IH]; intros gs ell s gs' ell' Hg H; [destruct s; [by injection H as <- <- | done] |].
  cbn [parse_groups] in H. destruct (span_hex 0 0 s) as [[off acc] rest] eqn:Es.
  apply span_hex_range in Es as (H1 & H2 & H3); [| done]. destruct ((off =? 0) || (4 <? off)) eqn:Eo; [done |].
  assert (group acc) as Hacc.
  { bool_hyps. split; [done |]. rewrite Z.sub_0_r in H3. assert (16 ^ off <= 16 ^ 4) by (apply Z.pow_le_mono_r; lia).
    change (16 ^ 4) with 65536 in *. lia. }
  assert (Forall group (gs ++ [acc])) as Hg' by (apply Forall_app; split; [done | by constructor]).
  assert (forall v, parse_ipv4 s = Some v -> Forall group (gs ++ [v / 65536; v mod 65536])) as H4.
  { intros v Hv%parse_ipv4_range. apply Forall_app. split; [done |]. change (2 ^ 32) with 4294967296 in Hv. unfold group.
    repeat constructor; Z.div_mod_to_equations; lia. }
  repeat (case_match; try done); simplify_eq; eauto.
Qed.

Lemma groups_value_range gs : Forall group gs -> 0 <= groups_value gs < 65536 ^ zlen gs.
Proof.
  induction gs as [| g gs IH] using rev_ind; intros Hg; [by cbv |]. apply Forall_app in Hg as [Hg Hx]. apply Forall_inv in Hx.
  specialize (IH Hg). rewrite groups_value_snoc, zlen_app. change (zlen [g]) with 1. rewrite Z.pow_add_r by (pose proof (zlen_nonneg gs); lia).
  unfold group in Hx. lia.
Qed.

Lemma expand_range gs ell v : Forall group gs -> expand_groups gs ell = Some v -> 0 <= v < 2 ^ 128.
Proof.
  intros Hg H. change (2 ^ 128) with (65536 ^ 8). unfold expand_groups in H. destruct ell as [k |].
  - destruct (Z.ltb_spec (zlen gs) 8) as [Hl |]; [| done]. injection H as <-.
    assert (zlen (take k gs ++ replicate (8 - length gs) 0 ++ drop k gs) = 8) as <-.
    { unfold zlen in *. rewrite !length_app, length_take, length_drop, length_replicate. lia. }
    apply groups_value_range. rewrite !Forall_app. split_and!; [by apply Forall_take | by apply Forall_replicate | by apply Forall_drop].
  - destruct (Z.eqb_spec (zlen gs) 8) as [<- |]; [| done]. injection H as <-. by apply groups_value_range.
Qed.

Lemma Cut_rest sep s a b ok x : Cut sep s = (a, b, ok) -> x ∈ b -> x ∈ s.
Proof.
  revert a b ok. induction s as [| c s IH]; intros a b ok H Hx; simpl in H; [by simplify_eq |].
  destruct (c =? sep); [simplify_eq; by right |]. destruct (Cut sep s) as [[a' b'] ok'] eqn:E. simplify_eq. right. by eapply IH.
Qed.

Lemma parse_ipv6_ok s a : parse_ipv6 s = Some a -> addr_ok a /\ IsValid a = true /\ forall x, x ∈ Zone a -> x ∈ s.
Proof.
  unfold parse_ipv6. destruct (Cut 37 s) as [[t z] has] eqn:Ec. destruct (has && bool_decide (z = [])); [done |].
  assert (forall v, 0 <= v < 2 ^ 128 -> addr_ok (Addr6 v z) /\ IsValid (Addr6 v z) = true /\ forall x, x ∈ Zone (Addr6 v z) -> x ∈ s) as Hz
    by (intros v Hv; split; [exact Hv | split; [done | intros x; by apply (Cut_rest 37 s t z has)]]).
  assert (forall n ell s', ('(gs, ell) ← parse_groups n [] ell s'; v ← expand_groups gs ell; Some (Addr6 v z)) = Some a ->
    addr_ok a /\ IsValid a = true /\ forall x, x ∈ Zone a -> x ∈ s) as Hg.
  { intros n ell s' H. destruct (parse_groups n [] ell s') as [[gs ell'] |] eqn:E; [| done]. simpl in H.
    apply parse_groups_range in E; [| done]. destruct (expand_groups gs ell') as [v |] eqn:Ev; [| done]. simpl in H. injection H as <-.
    apply Hz. by apply (expand_range gs ell'). }
  repeat (case_match; try (by apply Hg)). intros [= <-]. by apply Hz.
Qed.

Lemma ParseAddr_ok s a : ParseAddr s = Some a -> addr_ok a /\ IsValid a = true /\ forall x, x ∈ Zone a -> x ∈ s.
Proof.
  unfold ParseAddr. repeat (case_match; try done); [| by apply parse_ipv6_ok].
  intros (v & Hv%parse_ipv4_range & ->)%fmap_Some. split; [done |]. split; [done |]. intros x Hx. by apply elem_of_nil in Hx.
Qed.

Lemma sub_elem {A} (x : A) l i j : x ∈ sub l i j -> x ∈ l.
Proof. unfold sub. intros H. eapply elem_of_sublist; [exact H |]. etrans; [apply sublist_take | apply sublist_drop]. Qed.

Lemma ParsePrefix_ok s p : ParsePrefix s = Some p -> prefix_ok p /\ PrefixIsValid p = true.
Proof.
  unfold ParsePrefix. destruct (_ <? 0); [done |]. intros (a & Ha & H)%bind_Some. apply ParseAddr_ok in Ha as (Hok & Hv & _).
  destruct (_ && _); [done |]. destruct (_ && _); [done |]. apply bind_Some in H as (b & _ & H).
  destruct ((b <? 0) || (BitLen a <? b)) eqn:Eb; [done |]. bool_hyps. injection H as <-.
  split; [by apply PrefixFrom_ok |]. unfold PrefixIsValid, PrefixFrom. rewrite Hv.
  rewrite (proj2 (Z.leb_le 0 b)), (proj2 (Z.leb_le b (BitLen a))) by lia. simpl. by apply Z.leb_le.
Qed.

Lemma ParseAddrPort_ok s e : ParseAddrPort s = Some e ->
  addr_ok (ap_addr e) /\ apIsValid e = true /\ 0 <= ap_port e < 65536 /\ forall x, x ∈ Zone (ap_addr e) -> x ∈ s.
Proof.
  unfold ParseAddrPort. destruct (_ <? 0); [done |]. set (ip := sub s 0 _). destruct (bool_decide (ip = []) || _); [done |].
  set (v6 := match ip with c :: _ => c =? 91 | [] => false end). destruct (v6 && ((zlen ip <? 2) || _)); [done |].
  intros (p & Hp%ParseUint_range & H)%bind_Some. apply bind_Some in H as (a & Ha & H). apply ParseAddr_ok in Ha as (Hok & Hv & Hz).
  destruct (if v6 then Is4 a else Is6 a); [done |]. injection H as <-. cbn [ap_addr ap_port]. split_and!; try done; try lia.
  intros x Hx. apply Hz in Hx. destruct v6; [apply sub_elem in Hx |]; by apply sub_elem in Hx.
Qed.
