(* ===== verification/Acl.v ===== *)
(** Access rules of a room (internal/acl/acl.go): the text form, its parser
    and printer, and the policy that decides about one packet. *)
From stdpp Require Import base list strings sets.
From Stdlib Require Import ZArith Lia.
From S2P Require Import Prelude GoStrings Netip.

Open Scope Z_scope.

Module acl.

Definition ICMP : Z := 1.
Definition TCP : Z := 6.
Definition UDP : Z := 17.

Record PortRange := MkPortRange { Proto : Z; First : Z; Last : Z }.
Record Rule := MkRule { From : list bytes; To : list bytes; Ports : list PortRange }.
Record Member := MkMember { Name : bytes; IP : Addr; Tags : list bytes }.

#[export] Instance PortRange_eq_dec : EqDecision PortRange.
Proof. solve_decision. Defined.
#[export] Instance Rule_eq_dec : EqDecision Rule.
Proof. solve_decision. Defined.

(** The errors of [Parse], with what their texts quote. *)
Inductive error : Type :=
  | ESyntax (line : bytes)
  | EInternetFrom
  | EEmptyTag
  | EPrefix (s : bytes)
  | ELongName (s : bytes)
  | EIcmpPorts (s : bytes)
  | EProto (proto : bytes)
  | EPort (a : bytes)
  | EPortRange (rng : bytes)
  | ELine (n : Z) (e : error)
  | ETooMany (n : Z).

(** ** Parsing *)

Definition splitSel (s : bytes) : list bytes :=
  filter (fun x => x <> []) (TrimSpace <$> Split 44 s).

Definition checkSel (s : bytes) (to : bool) : res error unit :=
  if bool_decide (s = str "*") then Ok tt
  else if bool_decide (s = str "internet") then guard_err to EInternetFrom
  else if HasPrefix s (str "tag:") then guard_err (negb (zlen s =? 4)) EEmptyTag
  else if Contains1 s 47 then
    match ParsePrefix s with Some _ => Ok tt | None => Err (EPrefix s) end
  else
    match ParseAddr s with
    | Some _ => Ok tt
    | None => guard_err (negb (40 <? zlen s)) (ELongName s)
    end.

Fixpoint checkSels (l : list bytes) (to : bool) : res error unit :=
  match l with
  | [] => Ok tt
  | s :: l => _ ← checkSel s to; checkSels l to
  end.

(** The port part of [tcp:...] and [udp:...]. *)
Definition parseRange (p : Z) (rng : bytes) : res error PortRange :=
  if bool_decide (rng = []) || bool_decide (rng = str "*") then
    Ok {| Proto := p; First := 0; Last := 65535 |}
  else
    let '(a, b, isRange) := Cut 45 rng in
    match ParseUint 16 a with
    | None => Err (EPort a)
    | Some first =>
      if isRange : bool then
        match ParseUint 16 b with
        | Some last => if last <? first then Err (EPortRange rng)
                       else Ok {| Proto := p; First := first; Last := last |}
        | None => Err (EPortRange rng)
        end
      else Ok {| Proto := p; First := first; Last := first |}
    end.

Definition parsePorts (s : bytes) : res error PortRange :=
  let '(proto, rng, _) := Cut 58 (ToLower s) in
  if bool_decide (proto = str "tcp") then parseRange TCP rng
  else if bool_decide (proto = str "udp") then parseRange UDP rng
  else if bool_decide (proto = str "icmp") then
    if bool_decide (rng = []) then Ok {| Proto := ICMP; First := 0; Last := 0 |}
    else Err (EIcmpPorts s)
  else Err (EProto proto).

Fixpoint parsePortList (l : list bytes) : res error (list PortRange) :=
  match l with
  | [] => Ok []
  | s :: l => p ← parsePorts s; ps ← parsePortList l; Ok (p :: ps)
  end.

Definition parseRule (line : bytes) : res error Rule :=
  match Fields line with
  | f0 :: f1 :: f2 :: f3 :: f4 =>
    if bool_decide (f0 = str "allow") && bool_decide (f2 = str "->") then
      let from := splitSel f1 in
      let to := splitSel f3 in
      _ ← checkSels from false;
      _ ← checkSels to true;
      ports ← parsePortList (concat (Split 44 <$> f4));
      Ok {| From := from; To := to; Ports := ports |}
    else Err (ESyntax line)
  | _ => Err (ESyntax line)
  end.

(** The loop of [Parse] over the lines from line [i] (counted from 0) on. *)
Fixpoint parseLines (i : Z) (lines : list bytes) : res error (list Rule) :=
  match lines with
  | [] => Ok []
  | line :: lines =>
    let line := TrimSpace line in
    if bool_decide (line = []) || HasPrefix line (str "#") then parseLines (i + 1) lines
    else
      r ← map_err (ELine (i + 1)) (parseRule line);
      rs ← parseLines (i + 1) lines;
      Ok (r :: rs)
  end.

Definition Parse (text : bytes) : res error (list Rule) :=
  rules ← parseLines 0 (Split 10 text);
  if 500 <? zlen rules then Err (ETooMany (zlen rules)) else Ok rules.

(** ** Printing *)

Definition protoName (p : Z) : bytes :=
  if p =? TCP then str "tcp" else if p =? UDP then str "udp"
  else if p =? ICMP then str "icmp" else [].

Definition PortRange_String (p : PortRange) : bytes :=
  let name := protoName (Proto p) in
  if Proto p =? ICMP then name
  else if (First p =? 0) && (Last p =? 65535) then name ++ str ":*"
  else if First p =? Last p then name ++ str ":" ++ Itoa (First p)
  else name ++ str ":" ++ Itoa (First p) ++ str "-" ++ Itoa (Last p).

Definition Rule_line (r : Rule) : bytes :=
  str "allow " ++ Join 44 (From r) ++ str " -> " ++ Join 44 (To r)
  ++ concat ((fun p => str " " ++ PortRange_String p) <$> Ports r).

Definition String (rules : list Rule) : bytes :=
  concat ((fun r => Rule_line r ++ [10]) <$> rules).

(** ** The policy *)

Record Policy := MkPolicy { Rules : list Rule; Members : list Member; Subnet : Prefix }.

Section policy.
(** Unicode case folding, [strings.EqualFold]: a table of the Unicode
    standard. Nothing is assumed of it. *)
Variable EqualFold : bytes -> bytes -> bool.

Definition member (pol : Policy) (ip : Addr) : option Member :=
  list_find (fun m => IP m = ip) (Members pol) ≫= fun x => Some x.2.

Definition matches (pol : Policy) (sel : bytes) (addr : Addr) (to : bool) : bool :=
  let m := member pol addr in
  if bool_decide (sel = str "*") then true
  else if bool_decide (sel = str "internet") then to && negb (Contains (Subnet pol) addr)
  else if HasPrefix sel (str "tag:") then
    match m with Some m => bool_decide (drop 4 sel ∈ Tags m) | None => false end
  else if Contains1 sel 47 then
    match ParsePrefix sel with Some p => Contains p addr | None => false end
  else
    match ParseAddr sel with
    | Some a => bool_decide (a = addr)
    | None => match m with Some m => EqualFold (Name m) sel | None => false end
    end.

Definition any (pol : Policy) (sels : list bytes) (a : Addr) (to : bool) : bool :=
  existsb (fun s => matches pol s a to) sels.

Definition portMatches (proto port : Z) (p : PortRange) : bool :=
  (Proto p =? proto) && ((proto =? ICMP) || ((First p <=? port) && (port <=? Last p))).

(** The loop of [Allowed] over the rules from rule [i] on. *)
Fixpoint allowedFrom (pol : Policy) (i : Z) (rules : list Rule) (src dst : Addr) (proto port : Z)
    : bool * Z :=
  match rules with
  | [] => (false, -1)
  | r :: rules =>
    if negb (any pol (From r) src false) || negb (any pol (To r) dst true)
    then allowedFrom pol (i + 1) rules src dst proto port
    else match Ports r with
         | [] => (true, i)
         | _ => if existsb (portMatches proto port) (Ports r) then (true, i)
                else allowedFrom pol (i + 1) rules src dst proto port
         end
  end.

Definition Allowed (pol : Policy) (src dst : Addr) (proto port : Z) : bool * Z :=
  match Rules pol with
  | [] => (true, -1)
  | rules => allowedFrom pol 0 rules src dst proto port
  end.
End policy.

Example Parse_two :
  Parse (str "# lan
allow tag:admin,bob -> 10.0.0.0/8 tcp:22,udp:27015-27030
allow * -> internet") =
  Ok [ {| From := [str "tag:admin"; str "bob"]; To := [str "10.0.0.0/8"];
          Ports := [ {| Proto := TCP; First := 22; Last := 22 |};
                     {| Proto := UDP; First := 27015; Last := 27030 |} ] |};
       {| From := [str "*"]; To := [str "internet"]; Ports := [] |} ].
Proof. vm_compute. reflexivity. Qed.

Example Parse_error_line :
  Parse (str "allow a -> b

allow internet -> b") = Err (ELine 3 EInternetFrom).
Proof. vm_compute. reflexivity. Qed.

(** ** The text form: what the parser accepts and what the printer writes *)

(** A selector as the parser leaves it. *)
Definition sel_wf (to : bool) (s : bytes) : Prop :=
  s <> [] /\ no_space s /\ (44 ∉ s) /\ checkSel s to = Ok tt.

Definition port_wf (p : PortRange) : Prop :=
  (Proto p = ICMP /\ First p = 0 /\ Last p = 0) \/
  ((Proto p = TCP \/ Proto p = UDP) /\ 0 <= First p <= Last p /\ Last p <= 65535).

Definition rule_wf (r : Rule) : Prop :=
  Forall (sel_wf false) (From r) /\ Forall (sel_wf true) (To r) /\ Forall port_wf (Ports r).

(** The words of a rule's line. *)
Definition rule_words (r : Rule) : list bytes :=
  str "allow" :: Join 44 (From r) :: str "->" :: Join 44 (To r)
  :: (PortRange_String <$> Ports r).

Lemma Rule_line_words r : Rule_line r = Join 32 (rule_words r).
Proof.
  unfold Rule_line, rule_words. generalize (Ports r) as ps. intros ps.
  assert (forall w, Join 32 (w :: (PortRange_String <$> ps))
    = w ++ concat ((fun p => str " " ++ PortRange_String p) <$> ps)) as H.
  { induction ps as [| p ps IH]; intros w; [by rewrite app_nil_r |].
    change (Join 32 (w :: (PortRange_String <$> p :: ps)))
      with (w ++ (32 :: Join 32 (PortRange_String p :: (PortRange_String <$> ps)))).
    by rewrite IH. }
  change (Join 32 (?a :: ?b :: ?c :: ?d :: ?l)) with (a ++ (32 :: b ++ (32 :: c ++ (32 :: Join 32 (d :: l))))).
  rewrite H. done.
Qed.

(** ** Helper lemmas *)

Lemma no_space_join l : Forall no_space l -> no_space (Join 44 l).
Proof.
  induction 1 as [| w l Hw Hl IH]; [apply no_space_nil |].
  destruct l as [| w' l]; [done |].
  change (Join 44 (w :: w' :: l)) with (w ++ (44 :: Join 44 (w' :: l))).
  apply no_space_app; [apply no_space_ascii; [lia | done] |].
  apply no_space_cons; [| done]. unfold space_len, space1, space2, space3. simpl.
  repeat case_match; done.
Qed.

Lemma Join_not_nil c l : l <> [] -> Forall (fun w => w <> []) l -> Join c l <> [].
Proof. destruct 2 as [| w [| w' l] Hw]; [done | done |]. by destruct w. Qed.

Lemma space_not_in c s : space1 c = true -> no_space s -> c ∉ s.
Proof.
  intros Hc. induction s as [| d s IH]; intros Hs; [set_solver |].
  pose proof (Hs 0%nat ltac:(simpl; lia)) as Hd. rewrite app_nil_r in Hd. cbn in Hd.
  intros [-> | Hin]%elem_of_cons; [by rewrite Hc in Hd |].
  apply IH; [by eapply no_space_tail | done].
Qed.

Lemma TrimSpace_Join ws :
  Forall (fun w => no_space w /\ w <> []) ws -> TrimSpace (Join 32 ws) = Join 32 ws.
Proof.
  intros H. destruct ws as [| w ws]; [done |].
  assert (forall ws, Forall (fun w => no_space w /\ w <> []) ws -> ws <> [] ->
    forall v, exists s t, Join 32 (v :: ws) = s ++ 32 :: t /\ no_space t /\ t <> []) as Hend.
  { clear. induction 1 as [| w ws [Hw Hne] Hws IH]; [done |]. intros _ v.
    destruct ws as [| w' ws]; [by exists v, w |].
    destruct (IH ltac:(done) w) as (s & t & E & Ht & Hn).
    exists (v ++ 32 :: s), t. split; [| done].
    change (Join 32 (v :: w :: w' :: ws)) with (v ++ (32 :: Join 32 (w :: w' :: ws))).
    by rewrite E, <- app_assoc. }
  inversion_clear H as [| ? ? [Hw Hne] Hws].
  destruct (decide (ws = [])) as [-> | Hn]; [by apply TrimSpace_word |].
  unfold TrimSpace. rewrite TrimLeftSpace_id.
  - destruct (Hend ws Hws Hn w) as (s & t & -> & Ht & Htn). by apply TrimRightSpace_word.
  - destruct ws as [| w' ws]; [done |].
    change (Join 32 (w :: w' :: ws)) with (w ++ (32 :: Join 32 (w' :: ws))).
    apply space_len_ascii; [lia | done |].
    specialize (Hw 0%nat). rewrite app_nil_r in Hw. apply Hw. destruct w; [done | simpl; lia].
Qed.

Lemma filter_all {A} (P : A -> Prop) `{!forall x, Decision (P x)} l : Forall P l -> filter P l = l.
Proof.
  induction 1 as [| x l Hx Hl IH]; [done |]. rewrite filter_cons_True by done. by rewrite IH.
Qed.

Lemma splitSel_Join to l : l <> [] -> Forall (sel_wf to) l -> splitSel (Join 44 l) = l.
Proof.
  intros Hne H. unfold splitSel.
  rewrite Split_Join; [| done | by eapply Forall_impl; [exact H | intros s (_ & _ & ? & _)]].
  assert (TrimSpace <$> l = l) as ->.
  { clear Hne. induction H as [| s l (_ & Hs & _) Hl IH]; [done |].
    rewrite fmap_cons, IH, TrimSpace_word by done. done. }
  apply filter_all. eapply Forall_impl; [exact H |]. by intros s (? & _).
Qed.

Lemma checkSels_wf to l : Forall (sel_wf to) l -> checkSels l to = Ok tt.
Proof. induction 1 as [| s l (_ & _ & _ & Hs) Hl IH]; [done |]. cbn [checkSels]. by rewrite Hs. Qed.

Lemma ToLower_id s :
  forallb (fun c => graph c && negb ((65 <=? c) && (c <=? 90))) s = true -> ToLower s = s.
Proof.
  induction s as [| c s IH]; [done |]. intros H. cbn [forallb] in H.
  apply andb_prop in H as [Hc H]. unfold graph in Hc. bool_hyps.
  specialize (IH H). cbn [ToLower]. rewrite H1.
  assert ((c =? 196) = false) as E1 by lia. assert ((c =? 226) = false) as E2 by lia.
  destruct s as [| d [| e s]]; [done | |]; rewrite ?E1, ?E2; cbn [andb]; by rewrite IH.
Qed.

(** Decimal digits are lower case. *)
Lemma digits_lower s : forallb is_digit s = true ->
  forallb (fun c => graph c && negb ((65 <=? c) && (c <=? 90))) s = true.
Proof.
  induction s as [| c s IH]; [done |]. cbn [forallb]. intros H. apply andb_prop in H as [Hc H].
  rewrite IH by done. unfold is_digit, graph in *. bool_hyps. rewrite andb_true_r.
  apply andb_true_intro. split; [apply andb_true_intro; split; lia |]. lia.
Qed.

Lemma lower_graph s :
  forallb (fun c => graph c && negb ((65 <=? c) && (c <=? 90))) s = true -> forallb graph s = true.
Proof.
  induction s as [| c s IH]; [done |]. cbn [forallb]. intros H. apply andb_prop in H as [Hc H].
  apply andb_prop in Hc as [Hc _]. by rewrite Hc, IH.
Qed.

(** The four forms of a printed port range. *)
Lemma PortRange_String_cases p :
  port_wf p ->
  (p = {| Proto := ICMP; First := 0; Last := 0 |} /\ PortRange_String p = str "icmp") \/
  exists name rng, PortRange_String p = name ++ 58 :: rng
    /\ ((name = str "tcp" /\ Proto p = TCP) \/ (name = str "udp" /\ Proto p = UDP))
    /\ ((rng = str "*" /\ First p = 0 /\ Last p = 65535)
       \/ (rng = Utoa (First p) /\ Last p = First p)
       \/ rng = Utoa (First p) ++ 45 :: Utoa (Last p)).
Proof.
  destruct p as [proto first last]. unfold port_wf, PortRange_String. simpl.
  intros [(-> & -> & ->) | (Hp & Hf & Hl)]; [by left | right].
  assert (Itoa first = Utoa first) as Ef by (unfold Itoa; rewrite (proj2 (Z.ltb_ge first 0)) by lia; done).
  assert (Itoa last = Utoa last) as El by (unfold Itoa; rewrite (proj2 (Z.ltb_ge last 0)) by lia; done).
  rewrite Ef, El.
  assert (forall name, (if (first =? 0) && (last =? 65535) then name ++ str ":*"
      else if first =? last then name ++ str ":" ++ Utoa first
      else name ++ str ":" ++ Utoa first ++ str "-" ++ Utoa last) =
    name ++ 58 :: (if (first =? 0) && (last =? 65535) then str "*"
      else if first =? last then Utoa first else Utoa first ++ 45 :: Utoa last)) as E
    by (intros; by repeat case_match).
  rewrite !E.
  set (rng := if (first =? 0) && (last =? 65535) then _ else _).
  assert ((rng = str "*" /\ first = 0 /\ last = 65535) \/ (rng = Utoa first /\ last = first)
    \/ rng = Utoa first ++ 45 :: Utoa last) as Hr.
  { subst rng. destruct ((first =? 0) && (last =? 65535)) eqn:Ha; [left; bool_hyps; tauto |].
    destruct (Z.eqb_spec first last) as [-> | Hn]; tauto. }
  destruct Hp as [-> | ->]; [exists (str "tcp"), rng | exists (str "udp"), rng]; tauto.
Qed.

Lemma PortRange_String_lower p :
  port_wf p -> forallb (fun c => graph c && negb ((65 <=? c) && (c <=? 90))) (PortRange_String p) = true.
Proof.
  intros Hp. assert (forall n, 0 <= n -> forallb (fun c => graph c && negb ((65 <=? c) && (c <=? 90))) (Utoa n) = true) as HU
    by (intros n Hn; by apply digits_lower, Utoa_digits).
  assert (0 <= First p /\ 0 <= Last p) as [Hf Hl].
  { destruct Hp as [(_ & -> & ->) | (_ & ? & ?)]; lia. }
  destruct (PortRange_String_cases p Hp) as [[_ ->] | (name & rng & -> & Hn & Hr)]; [done |].
  rewrite forallb_app. cbn [forallb].
  assert (forallb (fun c => graph c && negb ((65 <=? c) && (c <=? 90))) name = true) as ->
    by (by destruct Hn as [[-> _] | [-> _]]).
  destruct Hr as [[-> _] | [[-> _] | ->]]; [done | by rewrite HU |].
  rewrite forallb_app. cbn [forallb]. by rewrite !HU.
Qed.

(** Reading back one printed port range. *)
Lemma parsePorts_String p : port_wf p -> parsePorts (PortRange_String p) = Ok p.
Proof.
  intros Hp. unfold parsePorts.
  rewrite ToLower_id by (by apply PortRange_String_lower).
  destruct (PortRange_String_cases p Hp) as [[-> ->] | (name & rng & -> & Hn & Hr)]; [done |].
  rewrite Cut_app by (destruct Hn as [[-> _] | [-> _]]; cbn; set_solver).
  destruct Hp as [(HP & _) | (_ & Hf & Hl)].
  { destruct Hn as [[_ E] | [_ E]]; rewrite HP in E; done. }
  assert (forall p0, p0 = Proto p -> parseRange p0 rng = Ok p) as Hrange.
  { intros p0 ->. unfold parseRange. destruct p as [proto first last]. simpl in *.
    destruct Hr as [(-> & -> & ->) | Hr]; [done |].
    assert (45 ∉ Utoa first) by (apply Utoa_not_in; [lia | done]).
    assert (rng <> [] /\ rng <> str "*") as [H1 H2].
    { pose proof (Utoa_not_nil first). pose proof (Utoa_digits first ltac:(lia)) as Hd.
      destruct (Utoa first) as [| c r]; [done |]. simpl in Hd. apply andb_prop in Hd as [Hd _].
      unfold is_digit in Hd. bool_hyps.
      destruct Hr as [[-> _] | ->]; (split; [done |]); cbn; intros [=]; lia. }
    rewrite !bool_decide_eq_false_2 by done. simpl.
    destruct Hr as [[-> ->] | ->].
    - rewrite Cut_none by done. by rewrite ParseUint_Utoa by lia.
    - rewrite Cut_app by done. rewrite !ParseUint_Utoa by lia.
      by rewrite (proj2 (Z.ltb_ge last first)) by lia. }
  destruct Hn as [[-> HP] | [-> HP]]; apply Hrange; done.
Qed.

Lemma parsePortList_String ps :
  Forall port_wf ps ->
  parsePortList (concat (Split 44 <$> (PortRange_String <$> ps))) = Ok ps.
Proof.
  induction 1 as [| p ps Hp Hps IH]; [done |].
  rewrite !fmap_cons. cbn [concat].
  rewrite Split_word.
  - cbn [app parsePortList]. rewrite parsePorts_String by done. simpl. by rewrite IH.
  - pose proof (PortRange_String_lower p Hp) as Hl. intros Hin.
    destruct (PortRange_String_cases p Hp) as [[_ E] | (name & rng & E & Hn & Hr)].
    + rewrite E in Hin. cbn in Hin. set_solver.
    + assert (0 <= First p /\ 0 <= Last p) as [Hf Hla].
      { destruct Hp as [(_ & -> & ->) | (_ & ? & ?)]; lia. }
      assert (44 ∉ Utoa (First p)) by (by apply Utoa_not_in).
      assert (44 ∉ Utoa (Last p)) by (by apply Utoa_not_in).
      rewrite E in Hin. apply elem_of_app in Hin as [Hin | Hin].
      * destruct Hn as [[-> _] | [-> _]]; cbn in Hin; set_solver.
      * destruct Hr as [[-> _] | [[-> _] | ->]]; [cbn in Hin; set_solver | set_solver |].
        rewrite elem_of_cons, elem_of_app, elem_of_cons in Hin. set_solver by lia.
Qed.

Lemma rule_words_wf r :
  rule_wf r -> From r <> [] -> To r <> [] ->
  Forall (fun w => no_space w /\ w <> []) (rule_words r).
Proof.
  intros (Hf & Ht & Hp) Hfn Htn. unfold rule_words.
  assert (forall to l, Forall (sel_wf to) l -> Forall no_space l /\ Forall (fun w => w <> []) l) as Hsel.
  { intros to l Hl. split; (eapply Forall_impl; [exact Hl |]); by intros s (? & ? & _). }
  destruct (Hsel _ _ Hf) as [Hf1 Hf2]. destruct (Hsel _ _ Ht) as [Ht1 Ht2].
  constructor; [by split; [apply graph_no_space |] |].
  constructor; [by split; [apply no_space_join | apply Join_not_nil] |].
  constructor; [by split; [apply graph_no_space |] |].
  constructor; [by split; [apply no_space_join | apply Join_not_nil] |].
  apply Forall_fmap. eapply Forall_impl; [exact Hp |]. intros p Hpw. simpl. split.
  - by apply graph_no_space, lower_graph, PortRange_String_lower.
  - destruct (PortRange_String_cases p Hpw) as [[_ ->] | (name & rng & -> & _)]; [done |].
    by intros [_ ?]%app_nil.
Qed.

(** A printed rule is read back as itself. *)
Lemma parseRule_line r :
  rule_wf r -> From r <> [] -> To r <> [] -> parseRule (Rule_line r) = Ok r.
Proof.
  intros Hr Hf Ht. pose proof (rule_words_wf r Hr Hf Ht) as Hw.
  destruct Hr as (Hfw & Htw & Hpw).
  unfold parseRule. rewrite Rule_line_words, Fields_Join by done.
  unfold rule_words. rewrite !bool_decide_eq_true_2 by done. simpl andb. cbv iota.
  rewrite (splitSel_Join false), (splitSel_Join true) by done.
  rewrite (checkSels_wf false), (checkSels_wf true) by done. simpl mbind.
  rewrite parsePortList_String by done. by destruct r.
Qed.

Lemma parseLines_lines i rs tail :
  Forall (fun r => rule_wf r /\ From r <> [] /\ To r <> []) rs ->
  parseLines i ((Rule_line <$> rs) ++ tail) =
    (fun t => rs ++ t) <$> parseLines (i + zlen rs) tail.
Proof.
  intros H. revert i. induction H as [| r rs (Hr & Hf & Ht) Hrs IH]; intros i.
  { simpl. rewrite Z.add_0_r. by destruct (parseLines i tail). }
  rewrite fmap_cons. cbn [app parseLines].
  pose proof (rule_words_wf r Hr Hf Ht) as Hw.
  rewrite Rule_line_words, TrimSpace_Join by done. rewrite <- Rule_line_words.
  assert (bool_decide (Rule_line r = []) = false) as -> by (by apply bool_decide_eq_false_2).
  assert (HasPrefix (Rule_line r) (str "#") = false) as -> by done. simpl orb. cbv iota.
  rewrite parseRule_line by done. simpl map_err. simpl mbind.
  rewrite IH, zlen_cons. replace (i + 1 + zlen rs) with (i + (1 + zlen rs)) by lia.
  by destruct (parseLines (i + (1 + zlen rs)) tail).
Qed.

(** C38: printing rules and reading the text back gives the same rules: for
    any rules the parser can produce, at most 500 of them and none with an
    empty side, [Parse (String rules)] returns them unchanged. *)
Theorem Parse_String rules :
  Forall (fun r => rule_wf r /\ From r <> [] /\ To r <> []) rules -> zlen rules <= 500 ->
  Parse (String rules) = Ok rules.
Proof.
  intros H Hn. unfold Parse, String.
  assert (concat ((fun r => Rule_line r ++ [10]) <$> rules)
    = concat (map (fun w => w ++ [10]) (Rule_line <$> rules))) as ->.
  { clear. induction rules as [| r rs IH]; [done |].
    rewrite !fmap_cons. cbn [concat map]. by rewrite IH. }
  rewrite Split_concat.
  - rewrite parseLines_lines by done. simpl. rewrite app_nil_r.
    by rewrite (proj2 (Z.ltb_ge 500 (zlen rules))) by lia.
  - apply Forall_fmap. eapply Forall_impl; [exact H |]. intros r (Hr & Hf & Ht). simpl.
    rewrite Rule_line_words. intros [(w & Hw & Hin) | [? _]]%elem_of_Join; [| lia].
    pose proof (rule_words_wf r Hr Hf Ht) as Hws. rewrite Forall_forall in Hws.
    destruct (Hws _ Hw) as [Hns _]. by apply (space_not_in 10 w).
Qed.

(** ** What [Parse] accepts *)

Lemma splitSel_wf to f :
  no_space f -> checkSels (splitSel f) to = Ok tt -> Forall (sel_wf to) (splitSel f).
Proof.
  intros Hf. unfold splitSel.
  assert (Forall (fun s => s <> [] /\ no_space s /\ (44 ∉ s))
    (filter (fun x => x <> []) (TrimSpace <$> Split 44 f))) as H.
  { pose proof (Split_no_space 44 f Hf) as H1. pose proof (Split_not_in 44 f) as H2.
    induction (Split 44 f) as [| s l IH]; [constructor |].
    inversion_clear H1 as [| ? ? Hs Hl]. inversion_clear H2 as [| ? ? Hs' Hl'].
    rewrite fmap_cons, TrimSpace_word by done.
    destruct (decide (s <> [])) as [Hd | Hd].
    - rewrite filter_cons_True by done. constructor; [done | by apply IH].
    - rewrite filter_cons_False by done. by apply IH. }
  induction H as [| s l (? & ? & ?) Hl IH]; intros Hc; [constructor |].
  cbn [checkSels] in Hc. apply bind_ok in Hc as ([] & Hs & Hc).
  constructor; [done | by apply IH].
Qed.

Lemma parseRange_wf q rng p : q = TCP \/ q = UDP -> parseRange q rng = Ok p -> port_wf p.
Proof.
  intros Hq. unfold parseRange.
  destruct (bool_decide (rng = []) || bool_decide (rng = str "*")).
  { intros [= <-]. right. simpl. split_and!; [tauto | lia | lia | lia]. }
  destruct (Cut 45 rng) as [[a b] isRange].
  destruct (ParseUint 16 a) as [first |] eqn:Ea; [| done]. apply ParseUint_range in Ea.
  destruct isRange.
  - destruct (ParseUint 16 b) as [last |] eqn:Eb; [| done]. apply ParseUint_range in Eb.
    destruct (Z.ltb_spec last first); [done |]. intros [= <-]. right. simpl.
    split_and!; [tauto | lia | lia | lia].
  - intros [= <-]. right. simpl. split_and!; [tauto | lia | lia | lia].
Qed.

Lemma parsePorts_wf s p : parsePorts s = Ok p -> port_wf p.
Proof.
  unfold parsePorts. destruct (Cut 58 (ToLower s)) as [[proto rng] found].
  repeat case_bool_decide; intros H'; try done.
  - by eapply parseRange_wf; [left |].
  - by eapply parseRange_wf; [right |].
  - injection H' as <-. by left.
Qed.

Lemma parsePortList_wf l ps : parsePortList l = Ok ps -> Forall port_wf ps.
Proof.
  revert ps. induction l as [| s l IH]; intros ps H; cbn [parsePortList] in H.
  - injection H as <-. constructor.
  - apply bind_ok in H as (p & Hp & H). apply bind_ok in H as (ps' & Hps & H).
    injection H as <-. constructor; [by eapply parsePorts_wf | by apply IH].
Qed.

Lemma parseRule_wf line r : parseRule line = Ok r -> rule_wf r.
Proof.
  unfold parseRule. pose proof (Fields_no_space line) as HF.
  destruct (Fields line) as [| f0 [| f1 [| f2 [| f3 f4]]]]; try done.
  destruct (_ && _); [| done]. intros H.
  apply bind_ok in H as ([] & Hf & H). apply bind_ok in H as ([] & Ht & H).
  apply bind_ok in H as (ps & Hp & [= <-]).
  inversion_clear HF as [| ? ? _ HF1]. inversion_clear HF1 as [| ? ? [H1 _] HF2].
  inversion_clear HF2 as [| ? ? _ HF3]. inversion_clear HF3 as [| ? ? [H3 _] _].
  split_and!; [by apply splitSel_wf | by apply splitSel_wf | by eapply parsePortList_wf].
Qed.

Lemma parseLines_wf i lines rs : parseLines i lines = Ok rs -> Forall rule_wf rs.
Proof.
  revert i rs. induction lines as [| line lines IH]; intros i rs H; cbn [parseLines] in H.
  - injection H as <-. constructor.
  - destruct (_ || _); [by eapply IH |].
    apply bind_ok in H as (r & Hr & H). apply bind_ok in H as (rs' & Hrs & H).
    injection H as <-. constructor; [| by eapply IH].
    destruct (parseRule (TrimSpace line)) as [r' | |] eqn:E; try done.
    injection Hr as <-. by eapply parseRule_wf.
Qed.

(** C39: every rule set the parser accepts is well formed: selectors are
    non-empty words without blanks or commas that [checkSel] admits (so only a
    destination may be [internet]), port ranges are ordered and within 16
    bits, and there are at most 500 rules. *)
Theorem Parse_wf text rules :
  Parse text = Ok rules -> Forall rule_wf rules /\ zlen rules <= 500.
Proof.
  unfold Parse. intros H. apply bind_ok in H as (rs & Hrs & H).
  destruct (Z.ltb_spec 500 (zlen rs)); [done |]. injection H as <-.
  split; [by eapply parseLines_wf | done].
Qed.

(** ** The policy against its specification *)

(** What a rule says of one packet. *)
Definition rule_permits (EqualFold : bytes -> bytes -> bool) (pol : Policy) (r : Rule)
    (src dst : Addr) (proto port : Z) : Prop :=
  (exists s, s ∈ From r /\ matches EqualFold pol s src false = true) /\
  (exists s, s ∈ To r /\ matches EqualFold pol s dst true = true) /\
  (Ports r = [] \/
   exists p, p ∈ Ports r /\ Proto p = proto /\ (proto = ICMP \/ First p <= port <= Last p)).

Lemma any_spec EqualFold pol sels a to :
  any EqualFold pol sels a to = true <-> exists s, s ∈ sels /\ matches EqualFold pol s a to = true.
Proof.
  unfold any. rewrite existsb_exists. setoid_rewrite <- list_elem_of_In. done.
Qed.

Lemma rule_step EqualFold pol i r rules src dst proto port :
  allowedFrom EqualFold pol i (r :: rules) src dst proto port = (true, i) /\
    rule_permits EqualFold pol r src dst proto port \/
  allowedFrom EqualFold pol i (r :: rules) src dst proto port =
    allowedFrom EqualFold pol (i + 1) rules src dst proto port /\
    ~ rule_permits EqualFold pol r src dst proto port.
Proof.
  cbn [allowedFrom]. unfold rule_permits. rewrite <- !any_spec.
  destruct (any EqualFold pol (From r) src false); [| right; split; [done | by intros [? _]]].
  destruct (any EqualFold pol (To r) dst true); [| right; split; [done | by intros (_ & ? & _)]].
  simpl. assert (existsb (portMatches proto port) (Ports r) = true <->
    exists p, p ∈ Ports r /\ Proto p = proto /\ (proto = ICMP \/ First p <= port <= Last p)) as HP.
  { rewrite existsb_exists. setoid_rewrite <- list_elem_of_In. unfold portMatches.
    setoid_rewrite andb_true_iff. setoid_rewrite orb_true_iff. setoid_rewrite andb_true_iff.
    setoid_rewrite Z.eqb_eq. setoid_rewrite Z.leb_le. done. }
  destruct (Ports r) as [| p ps]; [left; split; [done | by split_and!; [| | left]] |].
  destruct (existsb (portMatches proto port) (p :: ps)).
  - left. split; [done |]. split_and!; [done | done | right; by apply HP].
  - right. split; [done |]. intros (_ & _ & [? | Hp]); [done |]. by apply HP in Hp.
Qed.

Lemma allowedFrom_spec EqualFold pol rules src dst proto port i :
  (exists k r, allowedFrom EqualFold pol i rules src dst proto port = (true, i + Z.of_nat k)
     /\ rules !! k = Some r /\ rule_permits EqualFold pol r src dst proto port
     /\ forall j r', (j < k)%nat -> rules !! j = Some r' ->
          ~ rule_permits EqualFold pol r' src dst proto port)
  \/ (allowedFrom EqualFold pol i rules src dst proto port = (false, -1)
     /\ Forall (fun r => ~ rule_permits EqualFold pol r src dst proto port) rules).
Proof.
  revert i. induction rules as [| r rules IH]; intros i; [right; done |].
  destruct (rule_step EqualFold pol i r rules src dst proto port) as [[E Hr] | [E Hr]].
  - left. exists 0%nat, r. rewrite Z.add_0_r. split_and!; [done | done | done | lia].
  - destruct (IH (i + 1)) as [(k & r' & E' & Hk & Hp & Hj) | [E' Hall]].
    + left. exists (S k), r'. split_and!; [rewrite E, E'; f_equal; lia | done | done |].
      intros [| j] r'' Hlt Hlk; [by simplify_eq/= | eapply (Hj j); [lia | done]].
    + right. split; [congruence | by constructor].
Qed.

(** [Allowed] decides by the first permitting rule: without rules every
    packet passes; otherwise it answers [(true, i)] exactly when rule [i]
    permits the packet and no earlier one does, and [(false, -1)] exactly when
    no rule permits it. *)
Theorem Allowed_spec EqualFold pol src dst proto port :
  (Rules pol = [] /\ Allowed EqualFold pol src dst proto port = (true, -1)) \/
  (exists k r, Allowed EqualFold pol src dst proto port = (true, Z.of_nat k)
     /\ Rules pol !! k = Some r /\ rule_permits EqualFold pol r src dst proto port
     /\ forall j r', (j < k)%nat -> Rules pol !! j = Some r' ->
          ~ rule_permits EqualFold pol r' src dst proto port) \/
  (Rules pol <> [] /\ Allowed EqualFold pol src dst proto port = (false, -1)
     /\ Forall (fun r => ~ rule_permits EqualFold pol r src dst proto port) (Rules pol)).
Proof.
  unfold Allowed. destruct (Rules pol) as [| r rules] eqn:E; [by left | right].
  destruct (allowedFrom_spec EqualFold pol (r :: rules) src dst proto port 0)
    as [(k & r' & Ek & Hk) | [Ek Hall]]; [left | right].
  - exists k, r'. by rewrite Ek.
  - by split_and!.
Qed.

(** ** Witnesses *)

Definition exRules : list Rule :=
  [ {| From := [str "tag:admin"; str "bob"]; To := [str "10.0.0.0/8"];
       Ports := [ MkPortRange TCP 22 22; MkPortRange UDP 27015 27030; MkPortRange ICMP 0 0 ] |};
    {| From := [str "*"]; To := [str "internet"]; Ports := [] |} ].

Lemma sel_wf_graph to s :
  s <> [] -> forallb (fun c => graph c && negb (c =? 44)) s = true -> checkSel s to = Ok tt -> sel_wf to s.
Proof.
  intros Hne H Hc. split; [done |].
  assert (forallb graph s = true /\ (44 ∉ s)) as [Hg H44].
  { clear Hne Hc. induction s as [| c s IH]; [split; [done | set_solver] |].
    cbn [forallb] in H. apply andb_prop in H as [Hc H]. apply andb_prop in Hc as [Hc Hn].
    destruct (IH H) as [Hg Hin]. cbn [forallb]. rewrite Hc, Hg. bool_hyps. set_solver. }
  split_and!; [by apply graph_no_space | done | done].
Qed.

Lemma exRules_wf : Forall (fun r => rule_wf r /\ From r <> [] /\ To r <> []) exRules.
Proof.
  apply Forall_cons; split; [| apply Forall_cons; split; [| constructor]]; (split; [| done]).
  all: unfold rule_wf; simpl; split_and!.
  all: repeat first [ by constructor | apply Forall_cons; split | by apply sel_wf_graph
    | unfold port_wf, TCP, UDP, ICMP; simpl; lia ].
Qed.

Lemma Parse_String_witness : Parse (String exRules) = Ok exRules.
Proof. apply Parse_String; [exact exRules_wf | discriminate]. Defined.

Lemma Parse_wf_witness : Forall rule_wf exRules /\ zlen exRules <= 500.
Proof. apply (Parse_wf (String exRules)). vm_compute. reflexivity. Defined.

End acl.
