(* ===== verification/AclFilter.v ===== *)
(** The stateful packet filter of a room (internal/acl/filter.go): packets are
    parsed to a header, flows this node started are remembered for five
    minutes, and the room's policy decides about the rest. Locks serialise the
    operations, so each is one step; the clock is an argument. *)
From stdpp Require Import base gmap list strings sets countable.
From Stdlib Require Import ZArith Lia.
From S2P Require Import Prelude GoStrings Netip Acl.

Open Scope Z_scope.

Module filter.

Record flow := MkFlow {
  fl_proto : Z; fl_src : Addr; fl_dst : Addr; fl_sport : Z; fl_dport : Z
}.

#[export] Instance flow_eq_dec : EqDecision flow.
Proof. solve_decision. Defined.
#[export] Instance flow_countable : Countable flow.
Proof.
  by apply (inj_countable'
    (fun f => (fl_proto f, fl_src f, fl_dst f, fl_sport f, fl_dport f))
    (fun '(p, s, d, sp, dp) => MkFlow p s d sp dp)); intros [].
Defined.

Record Filter := MkFilter {
  pol : acl.Policy; self : Addr; flows : gmap flow Z; swept : Z
}.

Definition GossipPort : Z := 4798.
Definition flowTTL : Z := 5 * Minute.
Definition maxFlows : Z := 65536.

Definition NewFilter (p : acl.Policy) (s : Addr) : Filter :=
  {| pol := p; self := s; flows := ∅; swept := time_zero |}.

Record header := MkHeader {
  h_ok : bool; h_proto : Z; h_src : Addr; h_dst : Addr; h_sport : Z; h_dport : Z; h_first : bool
}.

Definition header0 : header := MkHeader false 0 AddrZero AddrZero 0 0 false.

Definition parse (pkt : bytes) : res unit header :=
  if zlen pkt <? 20 then Ok header0
  else
    b0 ← index pkt 0;
    if negb (Z.shiftr b0 4 =? 4) then Ok header0
    else
      let ihl := Z.land b0 15 * 4 in
      proto ← index pkt 9;
      src ← slice pkt 12 16;
      dst ← slice pkt 16 20;
      frag ← slice pkt 6 8 ≫= uint16_be;
      let first := Z.land frag 8191 =? 0 in
      if first && ((proto =? acl.TCP) || (proto =? acl.UDP)) && (ihl + 4 <=? zlen pkt) then
        sport ← slice pkt ihl (zlen pkt) ≫= uint16_be;
        dport ← slice pkt (ihl + 2) (zlen pkt) ≫= uint16_be;
        Ok (MkHeader true proto (AddrFrom4 src) (AddrFrom4 dst) sport dport first)
      else Ok (MkHeader true proto (AddrFrom4 src) (AddrFrom4 dst) 0 0 first).

Definition sweep (now : Z) (m : gmap flow Z) : gmap flow Z :=
  base.filter (fun kv : flow * Z => ~ (flowTTL < time_sub now kv.2)) m.

Definition rememberLocked (f : Filter) (k : flow) (now : Z) : Filter :=
  let f :=
    if (maxFlows <=? Z.of_nat (size (flows f))) && (Second <? time_sub now (swept f))
    then {| pol := pol f; self := self f; flows := sweep now (flows f); swept := now |}
    else f in
  if Z.of_nat (size (flows f)) <? maxFlows
  then {| pol := pol f; self := self f; flows := <[k := now]> (flows f); swept := swept f |}
  else f.

Definition flow_of (h : header) : flow :=
  MkFlow (h_proto h) (h_src h) (h_dst h) (h_sport h) (h_dport h).
Definition reply_of (h : header) : flow :=
  MkFlow (h_proto h) (h_dst h) (h_src h) (h_dport h) (h_sport h).

Definition Outbound (f : Filter) (now : Z) (pkt : bytes) : res unit Filter :=
  h ← parse pkt;
  Ok (if h_ok h then rememberLocked f (flow_of h) now else f).

(** The last address of an IPv4 prefix; [As4] panics on an IPv6 one. *)
Definition lastAddr (p : Prefix) : res unit Addr :=
  b ← As4 (pfx_ip (Masked p));
  let v := Z.lor (be b) (u32 (u32 (2 ^ (32 - pfx_bits p)) - 1)) in
  Ok (AddrFrom4 (put_be 4 v)).

(** Is there a live ICMP flow from [src] to [dst]? *)
Definition icmpKnown (f : Filter) (src dst : Addr) (now : Z) : bool :=
  existsb (fun kv : flow * Z =>
    (fl_proto kv.1 =? acl.ICMP) && bool_decide (fl_src kv.1 = src)
    && bool_decide (fl_dst kv.1 = dst) && (time_sub now kv.2 <? flowTTL))
    (map_to_list (flows f)).

Definition limitedBroadcast : Addr := Addr4 (2 ^ 32 - 1).

Section inbound.
Variable EqualFold : bytes -> bytes -> bool.

(** The destination the policy is asked about: a broadcast reaches this
    member. *)
Definition aclDst (f : Filter) (dst : Addr) : res unit Addr :=
  if IsMulticast dst || bool_decide (dst = limitedBroadcast) then Ok (self f)
  else if PrefixIsValid (acl.Subnet (pol f)) then
    last ← lastAddr (acl.Subnet (pol f));
    Ok (if bool_decide (dst = last) then self f else dst)
  else Ok dst.

(** The part of [Inbound] that asks the policy. *)
Definition askPolicy (f : Filter) (h : header) (now : Z) : res unit (bool * Filter) :=
  dst ← aclDst f (h_dst h);
  let '(ok, _) := acl.Allowed EqualFold (pol f) (h_src h) dst (h_proto h) (h_dport h) in
  Ok (ok, if ok : bool then rememberLocked f (flow_of h) now else f).

Definition isTransport (proto : Z) : bool := (proto =? acl.TCP) || (proto =? acl.UDP).

Definition Inbound (f : Filter) (now : Z) (pkt : bytes) : res unit (bool * Filter) :=
  h ← parse pkt;
  if negb (h_ok h) then Ok (true, f)
  else if negb (h_first h) then Ok (true, f)
  else
    let reply := reply_of h in
    let rest (_ : unit) :=
      if (h_proto h =? acl.ICMP) && icmpKnown f (h_dst h) (h_src h) now then Ok (true, f)
      else if isTransport (h_proto h) && bool_decide (h_dst h = self f) && (h_dport h =? GossipPort)
      then Ok (true, f)
      else askPolicy f h now in
    match flows f !! reply with
    | Some t =>
      if time_sub now t <? flowTTL then
        Ok (true, {| pol := pol f; self := self f; flows := <[reply := now]> (flows f); swept := swept f |})
      else rest tt
    | None => rest tt
    end.

(** ** Runs: the packets a node sends and receives, with their times *)

Inductive event : Type :=
  | Out (now : Z) (pkt : bytes)
  | In (now : Z) (pkt : bytes).

Definition step (f : Filter) (e : event) : res unit Filter :=
  match e with
  | Out now pkt => Outbound f now pkt
  | In now pkt => snd <$> Inbound f now pkt
  end.

Fixpoint run (f : Filter) (evs : list event) : res unit Filter :=
  match evs with
  | [] => Ok f
  | e :: evs => f ← step f e; run f evs
  end.
End inbound.

(** ** Parsing never panics *)

Lemma parse_ok pkt : exists h, parse pkt = Ok h.
Proof.
  unfold parse. destruct (Z.ltb_spec (zlen pkt) 20) as [| Hlen]; [by eexists |].
  rewrite (index_ok _ 0 0) by lia. cbn [mbind res_bind].
  destruct (negb _); [by eexists |].
  rewrite (index_ok _ 9 0) by lia. cbn [mbind res_bind].
  rewrite (slice_ok pkt 12 16), (slice_ok pkt 16 20), (slice_ok pkt 6 8) by lia.
  cbn [mbind res_bind]. unfold uint16_be.
  rewrite (slice_ok (sub pkt 6 8)) by (rewrite ?zlen_sub; lia). cbn [fmap res_fmap mbind res_bind].
  set (ihl := Z.land _ 15 * 4).
  assert (0 <= ihl) by (subst ihl; pose proof (proj2 (Z.land_nonneg (nth (Z.to_nat 0) pkt 0) 15)); lia).
  destruct (_ && _ && (ihl + 4 <=? zlen pkt)) eqn:Hc; [| by eexists]. bool_hyps.
  rewrite (slice_ok pkt ihl), (slice_ok pkt (ihl + 2)) by lia. cbn [fmap res_fmap mbind res_bind].
  rewrite !slice_ok by (rewrite ?zlen_sub; lia). cbn [fmap res_fmap mbind res_bind].
  by eexists.
Qed.

Lemma parse_src_dst pkt h : parse pkt = Ok h -> h_ok h = true -> Is4 (h_src h) = true /\ Is4 (h_dst h) = true.
Proof.
  unfold parse. destruct (_ <? _); [by intros [= <-] |].
  intros H Hok. apply bind_ok in H as (b0 & _ & H). destruct (negb _); [by injection H as <- |].
  apply bind_ok in H as (pr & _ & H). apply bind_ok in H as (s & _ & H).
  apply bind_ok in H as (d & _ & H). apply bind_ok in H as (fr & _ & H).
  destruct (_ && _); [| by injection H as <-].
  apply bind_ok in H as (sp & _ & H). apply bind_ok in H as (dp & _ & H). by injection H as <-.
Qed.

Definition subnet_v4 (p : acl.Policy) : Prop :=
  PrefixIsValid (acl.Subnet p) = true -> Is4 (pfx_ip (acl.Subnet p)) = true.

Lemma lastAddr_ok p : PrefixIsValid p = true -> Is4 (pfx_ip p) = true -> exists a, lastAddr p = Ok a.
Proof.
  intros Hv H4. unfold lastAddr, Masked. rewrite Hv. unfold PrefixFrom. simpl.
  destruct (pfx_ip p); try done. simpl. by eexists.
Qed.

Lemma aclDst_ok f dst : subnet_v4 (pol f) -> exists a, aclDst f dst = Ok a.
Proof.
  intros H. unfold aclDst. destruct (_ || _); [by eexists |].
  destruct (PrefixIsValid _) eqn:Hv; [| by eexists].
  destruct (lastAddr_ok _ Hv (H Hv)) as [a ->]. by eexists.
Qed.

Section proofs.
Context (EqualFold : bytes -> bytes -> bool).

Lemma askPolicy_ok f h now : subnet_v4 (pol f) -> exists r, askPolicy EqualFold f h now = Ok r.
Proof.
  intros H. unfold askPolicy. destruct (aclDst_ok f (h_dst h) H) as [a ->]. simpl.
  destruct (acl.Allowed _ _ _ _ _ _). by eexists.
Qed.

Lemma Inbound_ok f now pkt : subnet_v4 (pol f) -> exists r, Inbound EqualFold f now pkt = Ok r.
Proof.
  intros H. unfold Inbound. destruct (parse_ok pkt) as [h ->]. simpl.
  destruct (negb (h_ok h)); [by eexists |]. destruct (negb (h_first h)); [by eexists |].
  pose proof (askPolicy_ok f h now H) as [r Hr].
  destruct (flows f !! reply_of h); repeat case_match; eauto.
Qed.

(** ** The size of the table *)

Lemma sweep_size now m : (size (sweep now m) <= size m)%nat.
Proof. apply map_size_filter. Qed.

Lemma rememberLocked_size f k now :
  Z.of_nat (size (flows f)) <= maxFlows -> Z.of_nat (size (flows (rememberLocked f k now))) <= maxFlows.
Proof.
  intros H. unfold rememberLocked.
  set (g := if _ && _ then _ else f).
  assert (Z.of_nat (size (flows g)) <= maxFlows) as Hg.
  { subst g. destruct (_ && _); [| done]. simpl. pose proof (sweep_size now (flows f)). lia. }
  destruct (Z.ltb_spec (Z.of_nat (size (flows g))) maxFlows); [| done]. simpl.
  rewrite map_size_insert. destruct (flows g !! k); simpl; lia.
Qed.

Lemma rememberLocked_pol f k now : pol (rememberLocked f k now) = pol f /\ self (rememberLocked f k now) = self f.
Proof. unfold rememberLocked. by repeat case_match. Qed.

(** What is in the table afterwards was there before or is the new flow. *)
Lemma rememberLocked_lookup f k now k' t :
  flows (rememberLocked f k now) !! k' = Some t -> k' = k \/ flows f !! k' = Some t.
Proof.
  unfold rememberLocked. set (g := if _ && _ then _ else f).
  assert (flows g !! k' = Some t -> flows f !! k' = Some t) as Hg.
  { subst g. destruct (_ && _); [| done]. simpl. unfold sweep.
    by intros [? _]%map_lookup_filter_Some. }
  destruct (Z.of_nat (size (flows g)) <? maxFlows); [| auto]. simpl. rewrite lookup_insert.
  case_decide; [by left | auto].
Qed.

(** One step keeps the policy, the address and the bound on the table, and
    a flow in the table afterwards was there before, or is the flow of a
    packet sent, or of a packet the policy admitted. *)
Definition admitted (f : Filter) (h : header) : Prop :=
  exists dst, aclDst f (h_dst h) = Ok dst /\
    fst (acl.Allowed EqualFold (pol f) (h_src h) dst (h_proto h) (h_dport h)) = true.

Definition source (f : Filter) (e : event) (k : flow) : Prop :=
  exists h, h_ok h = true /\ flow_of h = k /\
    match e with
    | Out _ pkt => parse pkt = Ok h
    | In _ pkt => parse pkt = Ok h /\ admitted f h
    end.

Definition event_time (e : event) : Z := match e with Out t _ => t | In t _ => t end.

Record good_step (f : Filter) (e : event) (f' : Filter) : Prop := {
  gs_pol : pol f' = pol f;
  gs_self : self f' = self f;
  gs_size : Z.of_nat (size (flows f)) <= maxFlows -> Z.of_nat (size (flows f')) <= maxFlows;
  gs_flow : forall k t, flows f' !! k = Some t ->
    is_Some (flows f !! k) \/ source f e k;
  gs_keep : forall k t, flows f !! k = Some t -> event_time e - t <= flowTTL ->
    flows f' !! k = Some t \/ flows f' !! k = Some (event_time e);
}.

Lemma good_step_refl f e : good_step f e f.
Proof. split; eauto. Qed.

Lemma rememberLocked_keep f k now k' t :
  flows f !! k' = Some t -> now - t <= flowTTL ->
  flows (rememberLocked f k now) !! k' = Some t \/ flows (rememberLocked f k now) !! k' = Some now.
Proof.
  intros Hk Ht. unfold rememberLocked. set (g := if _ && _ then _ else f).
  assert (flows g !! k' = Some t) as Hg.
  { subst g. destruct (_ && _); [| done]. simpl. unfold sweep.
    apply map_lookup_filter_Some_2; [done |]. simpl.
    rewrite time_sub_gt by (unfold flowTTL, Minute, Second; lia). lia. }
  destruct (Z.of_nat (size (flows g)) <? maxFlows); [| auto]. simpl. rewrite lookup_insert.
  case_decide; [subst; by right | auto].
Qed.

Lemma good_step_remember f e h :
  h_ok h = true -> source f e (flow_of h) ->
  good_step f e (rememberLocked f (flow_of h) (event_time e)).
Proof.
  intros Hok Hs. destruct (rememberLocked_pol f (flow_of h) (event_time e)) as [Hp Hse].
  split; [done | done | by apply rememberLocked_size | | by apply rememberLocked_keep].
  intros k t [-> | Hk]%rememberLocked_lookup; [by right | by left].
Qed.

Lemma Inbound_good f now pkt b f' :
  Inbound EqualFold f now pkt = Ok (b, f') -> good_step f (In now pkt) f'.
Proof.
  unfold Inbound. intros H. apply bind_ok in H as (h & Hp & H).
  destruct (h_ok h) eqn:Hok; simpl in H; [| injection H as <- <-; apply good_step_refl].
  destruct (h_first h) eqn:Hfirst; simpl in H; [| injection H as <- <-; apply good_step_refl].
  set (rest := if (_ =? acl.ICMP) && _ then _ else _) in H.
  assert (rest = Ok (b, f') -> good_step f (In now pkt) f') as Hrest.
  { subst rest. destruct (_ && icmpKnown _ _ _ _); [intros [= <- <-]; apply good_step_refl |].
    destruct (_ && (h_dport h =? GossipPort)); [intros [= <- <-]; apply good_step_refl |].
    unfold askPolicy. intros Ha. apply bind_ok in Ha as (dst & Hd & Ha).
    destruct (acl.Allowed EqualFold (pol f) (h_src h) dst (h_proto h) (h_dport h)) as [ok i] eqn:Hal.
    injection Ha as <- <-. destruct ok; [| apply good_step_refl].
    apply (good_step_remember f (In now pkt)); [done |].
    exists h. split_and!; [done | done | done |]. exists dst. by rewrite Hal. }
  destruct (flows f !! reply_of h) as [t |] eqn:Hl; [| by apply Hrest].
  destruct (time_sub now t <? flowTTL) eqn:Ht; [| by apply Hrest].
  injection H as <- <-. split; simpl; [done | done | | |].
  - rewrite map_size_insert, Hl. done.
  - intros k t'. rewrite lookup_insert. case_decide; [subst; eauto | eauto].
  - intros k t'. rewrite lookup_insert. case_decide; [subst; eauto | eauto].
Qed.

Lemma step_good f e f' : step EqualFold f e = Ok f' -> good_step f e f'.
Proof.
  destruct e as [now pkt | now pkt]; simpl.
  - unfold Outbound. intros H. apply bind_ok in H as (h & Hp & [= <-]).
    destruct (h_ok h) eqn:Hok; [| apply good_step_refl].
    apply (good_step_remember f (Out now pkt)); [done |]. by exists h.
  - destruct (Inbound EqualFold f now pkt) as [[b g] | |] eqn:Hi; try done.
    intros [= <-]. by eapply Inbound_good.
Qed.

Lemma step_ok f e : subnet_v4 (pol f) -> exists f', step EqualFold f e = Ok f'.
Proof.
  intros H. destruct e as [now pkt | now pkt]; simpl.
  - unfold Outbound. destruct (parse_ok pkt) as [h ->]. simpl. eauto.
  - destruct (Inbound_ok f now pkt H) as [r ->]. simpl. eauto.
Qed.

Lemma run_good evs f f' :
  run EqualFold f evs = Ok f' ->
  pol f' = pol f /\ self f' = self f /\
  (Z.of_nat (size (flows f)) <= maxFlows -> Z.of_nat (size (flows f')) <= maxFlows) /\
  (forall k t, flows f' !! k = Some t ->
     is_Some (flows f !! k) \/ exists e, (e ∈ evs) /\ source f e k).
Proof.
  revert f. induction evs as [| e evs IH]; intros f H.
  { injection H as <-. split_and!; eauto. }
  simpl in H. apply bind_ok in H as (g & Hg & H). apply step_good in Hg as [Hp Hs Hsz Hfl _].
  destruct (IH g H) as (Hp' & Hs' & Hsz' & Hfl'). split_and!; [congruence | congruence | auto |].
  intros k t Hk. destruct (Hfl' k t Hk) as [[t' Ht'] | (e' & He' & h & Hok & Hf & Hsrc)].
  - destruct (Hfl k t' Ht') as [? | ?]; [by left | right]. exists e. split; [left | done].
  - right. exists e'. split; [by right |]. exists h. split_and!; [done | done |].
    destruct e'; [done |]. destruct Hsrc as (Hpk & dst & Hd & Ha). split; [done |].
    exists dst. unfold aclDst in *. by rewrite <- Hp, <- Hs.
Qed.

Lemma run_ok evs f : subnet_v4 (pol f) -> exists f', run EqualFold f evs = Ok f'.
Proof.
  revert f. induction evs as [| e evs IH]; intros f H; simpl; [eauto |].
  destruct (step_ok f e H) as [g Hg]. rewrite Hg. simpl.
  apply IH. apply step_good in Hg as [-> _]. done.
Qed.

(** A remembered flow stays while it is younger than its lifetime. *)
Lemma run_keep evs f f' k t now :
  run EqualFold f evs = Ok f' -> flows f !! k = Some t -> now < t + flowTTL ->
  Forall (fun e => t <= event_time e <= now) evs ->
  exists t', flows f' !! k = Some t' /\ t <= t' /\ (t' <= now \/ t' = t).
Proof.
  intros H Hk Hnow Hev.
  assert (exists t', flows f !! k = Some t' /\ t <= t' /\ (t' <= now \/ t' = t)) as H0 by eauto with lia.
  clear Hk. revert f H H0. induction Hev as [| e evs [He1 He2] Hev IH]; intros f H (t' & Hk & Ht & Hc).
  { injection H as <-. eauto. }
  simpl in H. apply bind_ok in H as (g & Hg & H). apply (IH g H).
  apply step_good in Hg as [_ _ _ _ Hkeep].
  destruct (Hkeep k t' Hk ltac:(lia)) as [Hk' | Hk']; eauto with lia.
Qed.
End proofs.

(** the filter never panics and its table stays bounded: for a policy
    whose subnet is IPv4 (or absent), every sequence of packets sent and
    received, of any bytes, is processed to the end, with at most [maxFlows]
    remembered flows and the policy and own address unchanged. *)
Theorem run_total EqualFold p s evs :
  subnet_v4 p ->
  exists f, run EqualFold (NewFilter p s) evs = Ok f
    /\ Z.of_nat (size (flows f)) <= maxFlows /\ pol f = p /\ self f = s.
Proof.
  intros H. destruct (run_ok EqualFold evs (NewFilter p s) H) as [f Hf].
  destruct (run_good EqualFold evs _ _ Hf) as (Hp & Hs & Hsz & _).
  exists f. split_and!; [done | | done | done]. apply Hsz. simpl. rewrite map_size_empty. done.
Qed.

(** replies pass whatever the rules say: after this node sent a packet
    (and the table had room for its flow), a first fragment with the
    addresses and ports swapped is let in at any moment within the flow's
    lifetime, whatever was sent or received in between. *)
Theorem Outbound_reply_passes EqualFold f f1 f2 now now' p q hp hq evs :
  parse p = Ok hp -> h_ok hp = true ->
  parse q = Ok hq -> h_ok hq = true -> h_first hq = true -> reply_of hq = flow_of hp ->
  Z.of_nat (size (flows f)) < maxFlows ->
  Outbound f now p = Ok f1 ->
  run EqualFold f1 evs = Ok f2 ->
  Forall (fun e => now <= event_time e <= now') evs ->
  now' < now + flowTTL ->
  exists f3, Inbound EqualFold f2 now' q = Ok (true, f3).
Proof.
  intros Hp Hok Hq Hokq Hfirst Hr Hroom Ho Hrun Hev Hnow.
  assert (flows f1 !! flow_of hp = Some now) as Hk.
  { unfold Outbound in Ho. rewrite Hp in Ho. simpl in Ho. rewrite Hok in Ho. injection Ho as <-.
    unfold rememberLocked. rewrite (proj2 (Z.leb_gt maxFlows _)) by lia. simpl.
    rewrite (proj2 (Z.ltb_lt _ maxFlows)) by lia. simpl. apply lookup_insert_eq. }
  destruct (run_keep EqualFold evs f1 f2 _ now now' Hrun Hk Hnow Hev) as (t' & Hk' & Ht & Hc).
  unfold Inbound. rewrite Hq. simpl. rewrite Hokq, Hfirst, Hr, Hk'. simpl.
  assert (time_sub now' t' <? flowTTL = true) as ->.
  { apply Z.ltb_lt. rewrite time_sub_lt by (unfold flowTTL, Minute, Second; lia). lia. }
  eauto.
Qed.

(** The flow a packet answers: the reverse one, or for ICMP any between the
    same two addresses. *)
Definition answers (h : header) (k : flow) : Prop :=
  k = reply_of h \/
  (h_proto h = acl.ICMP /\ fl_proto k = acl.ICMP /\ fl_src k = h_dst h /\ fl_dst k = h_src h).

Definition gossip_packet (f : Filter) (h : header) : Prop :=
  isTransport (h_proto h) = true /\ h_dst h = self f /\ h_dport h = GossipPort.

Lemma icmpKnown_spec f src dst now : icmpKnown f src dst now = true <->
  exists k t, flows f !! k = Some t /\ time_sub now t < flowTTL /\
    fl_proto k = acl.ICMP /\ fl_src k = src /\ fl_dst k = dst.
Proof.
  unfold icmpKnown. rewrite existsb_exists. split.
  - intros ([k t] & Hk%list_elem_of_In%elem_of_map_to_list & Hc). bool_hyps. simpl in *. exists k, t. split_and!; try done; lia.
  - intros (k & t & Hk & Ht & Hp & Hs & Hd). exists (k, t). split; [by apply list_elem_of_In, elem_of_map_to_list |].
    simpl. by rewrite Hp, Hs, Hd, !bool_decide_eq_true_2, (proj2 (Z.ltb_lt _ _)).
Qed.

Lemma askPolicy_spec EqualFold f h now b f' :
  askPolicy EqualFold f h now = Ok (b, f') -> b = true <-> admitted EqualFold f h.
Proof.
  unfold askPolicy, admitted. intros (dst & Hd & Ha)%bind_ok. rewrite Hd.
  destruct (acl.Allowed EqualFold (pol f) (h_src h) dst (h_proto h) (h_dport h)) as [ok i] eqn:E.
  injection Ha as <- _. split; [intros ->; exists dst; by rewrite E | intros (d & [= <-] & H); by rewrite E in H].
Qed.

Lemma Inbound_spec EqualFold f now pkt h b f' :
  parse pkt = Ok h -> Inbound EqualFold f now pkt = Ok (b, f') ->
  b = true <->
    h_ok h = false \/ h_first h = false \/ gossip_packet f h \/ admitted EqualFold f h \/
    exists k t, flows f !! k = Some t /\ time_sub now t < flowTTL /\ answers h k.
Proof.
  intros Hp. unfold Inbound. rewrite Hp. cbn [mbind res_bind].
  destruct (h_ok h); [| by intros [= <- _]; split; [left | done]]. cbn [negb].
  destruct (h_first h); [| by intros [= <- _]; split; [right; left | done]]. cbn [negb].
  set (live := exists k t, flows f !! k = Some t /\ time_sub now t < flowTTL /\ answers h k).
  set (rest := if (_ =? acl.ICMP) && _ then _ else _).
  assert (rest = Ok (b, f') -> (forall t, flows f !! reply_of h = Some t -> ~ time_sub now t < flowTTL) ->
    b = true <-> gossip_packet f h \/ admitted EqualFold f h \/ live) as Hrest.
  { subst rest live. intros H Hn. destruct (h_proto h =? acl.ICMP) eqn:Hi; cbn [andb] in H.
    - apply Z.eqb_eq in Hi. destruct (icmpKnown f (h_dst h) (h_src h) now) eqn:Hk.
      + injection H as <- _. split; [| done]. intros _. do 2 right.
        apply icmpKnown_spec in Hk as (k & t & ? & ? & ? & ? & ?). exists k, t. split_and!; [done | done | by right].
      + destruct (isTransport _ && _ && _) eqn:Hg; [exfalso; bool_hyps; unfold isTransport in *; by rewrite Hi in * |].
        rewrite (askPolicy_spec _ _ _ _ _ _ H). split; [tauto |]. intros [(Ht & _) | [? | (k & t & Hkt & Ht & [-> | (_ & ? & ? & ?)])]].
        * unfold isTransport in Ht. by rewrite Hi in Ht.
        * done.
        * by destruct (Hn t Hkt).
        * assert (icmpKnown f (h_dst h) (h_src h) now = true) as E by (apply icmpKnown_spec; eauto 8). congruence.
    - apply Z.eqb_neq in Hi.
      assert (~ exists k t, flows f !! k = Some t /\ time_sub now t < flowTTL /\ answers h k) as Hl.
      { intros (k & t & Hkt & Ht & [-> | (? & _)]); [by destruct (Hn t Hkt) | done]. }
      destruct (isTransport _ && _ && _) eqn:Hg.
      + injection H as <- _. split; [| done]. intros _. left. bool_hyps. by split_and!.
      + rewrite (askPolicy_spec _ _ _ _ _ _ H). split; [tauto |]. intros [(Ht & Hd & Hpo) | [? | ?]]; [| done | done].
        by rewrite Ht, Hd, Hpo, bool_decide_eq_true_2, Z.eqb_refl in Hg. }
  assert (forall P, (b = true <-> P) -> b = true <-> true = false \/ true = false \/ P) as Hpad by naive_solver.
  destruct (flows f !! reply_of h) as [t |] eqn:Hl.
  - destruct (Z.ltb_spec (time_sub now t) flowTTL) as [Ht | Ht].
    + intros [= <- _]. split; [| done]. intros _. do 4 right. exists (reply_of h), t. split_and!; [done | done | by left].
    + intros H. apply Hpad, Hrest; [done |]. intros t' [= <-]. lia.
  - intros H. apply Hpad, Hrest; [done |]. by intros t'.
Qed.

(** C2: which packets get in, exactly, after any run from an empty table: one
    that is not IPv4, a later fragment, a TCP or UDP packet to the gossip port
    of this node, a packet the policy admits, and an answer to a remembered
    flow younger than [flowTTL]; and a flow is remembered only when this node
    sent one of its packets, or the policy admitted one. *)
Theorem Inbound_sound EqualFold p s evs f f' now pkt h b :
  run EqualFold (NewFilter p s) evs = Ok f ->
  parse pkt = Ok h ->
  Inbound EqualFold f now pkt = Ok (b, f') ->
  (b = true <->
    h_ok h = false \/ h_first h = false \/ gossip_packet f h \/ admitted EqualFold f h \/
    exists k t, flows f !! k = Some t /\ time_sub now t < flowTTL /\ answers h k) /\
  self f = s /\ pol f = p /\
  (forall k t, flows f !! k = Some t -> exists e, (e ∈ evs) /\ source EqualFold f e k).
Proof.
  intros Hrun Hp Hin. destruct (run_good EqualFold evs _ _ Hrun) as (Hpol & Hself & _ & Hfl).
  split_and!; [by eapply Inbound_spec | done | done |].
  intros k t Hk. destruct (Hfl k t Hk) as [[? Hn] | (e & He & g & Hg & Hgk & Hs)].
  - simpl in Hn. by rewrite lookup_empty in Hn.
  - exists e. split; [done |]. exists g. split_and!; [done | done |].
    destruct e; [done |]. destruct Hs as (? & dst & Hd & Ha). split; [done |].
    exists dst. unfold aclDst in *. by rewrite Hpol, Hself.
Qed.

(** ** Witnesses *)

Definition exFold (a b : bytes) : bool := bool_decide (a = b).

(** UDP from 10.0.0.1:1000 to 10.0.0.2:53, and the answer. *)
Definition exQuery : bytes :=
  [69; 0; 0; 28; 0; 0; 0; 0; 64; 17; 0; 0; 10; 0; 0; 1; 10; 0; 0; 2; 3; 232; 0; 53; 0; 8; 0; 0].
Definition exAnswer : bytes :=
  [69; 0; 0; 28; 0; 0; 0; 0; 64; 17; 0; 0; 10; 0; 0; 2; 10; 0; 0; 1; 0; 53; 3; 232; 0; 8; 0; 0].

(** A policy that admits only TCP. *)
Definition exPolicy : acl.Policy :=
  {| acl.Rules := [ {| acl.From := [str "*"]; acl.To := [str "*"];
                       acl.Ports := [ acl.MkPortRange acl.TCP 0 65535 ] |} ];
     acl.Members := []; acl.Subnet := PrefixFrom (Addr4 167772160) 24 |}.

Definition exFilter : Filter := NewFilter exPolicy (Addr4 167772161).

Example exAnswer_unasked : fst <$> Inbound exFold exFilter 0 exAnswer = Ok false.
Proof. vm_compute. reflexivity. Qed.

Lemma run_total_witness :
  exists f, run exFold exFilter [Out 0 exQuery; In 5 exAnswer; In 6 [1; 2; 3]] = Ok f
    /\ Z.of_nat (size (flows f)) <= maxFlows /\ pol f = exPolicy /\ self f = Addr4 167772161.
Proof. apply run_total. intros _. reflexivity. Defined.

Lemma Outbound_reply_passes_witness :
  exists f1 f2 f3, Outbound exFilter 0 exQuery = Ok f1
    /\ run exFold f1 [In 5 exQuery] = Ok f2 /\ Inbound exFold f2 9 exAnswer = Ok (true, f3).
Proof.
  eexists _, _.
  assert (forall f1 f2, Outbound exFilter 0 exQuery = Ok f1 -> run exFold f1 [In 5 exQuery] = Ok f2 ->
    exists f3, Inbound exFold f2 9 exAnswer = Ok (true, f3)) as H.
  { intros f1 f2 H1 H2.
    refine (Outbound_reply_passes exFold exFilter f1 f2 0 9 exQuery exAnswer _ _ [In 5 exQuery]
      eq_refl eq_refl eq_refl eq_refl eq_refl eq_refl eq_refl H1 H2 _ eq_refl).
    constructor; [cbv; split; discriminate | constructor]. }
  edestruct H as [f3 H3]; [reflexivity | reflexivity |].
  exists f3. split; [reflexivity | split; [reflexivity | exact H3]].
Defined.

Lemma Inbound_sound_witness :
  exists f f' h, run exFold exFilter [Out 0 exQuery] = Ok f
    /\ Inbound exFold f 9 exAnswer = Ok (true, f')
    /\ ((true = true <->
          h_ok h = false \/ h_first h = false \/ gossip_packet f h \/ admitted exFold f h \/
          exists k t, flows f !! k = Some t /\ time_sub 9 t < flowTTL /\ answers h k) /\
        self f = Addr4 167772161 /\ pol f = exPolicy /\
        (forall k t, flows f !! k = Some t -> exists e, (e ∈ [Out 0 exQuery]) /\ source exFold f e k)).
Proof.
  eexists _, _, _. split; [reflexivity | split; [reflexivity |]].
  eapply (Inbound_sound exFold exPolicy (Addr4 167772161) [Out 0 exQuery] _ _ 9 exAnswer);
    reflexivity.
Defined.

End filter.
