(* ===== verification/Stun.v ===== *)
(** STUN Binding requests and responses (internal/stun/stun.go) and the
    responder that answers them (internal/stun/server.go). *)
From stdpp Require Import base list strings.
From Stdlib Require Import ZArith Lia.
From S2P Require Import Prelude GoStrings Netip.

Open Scope Z_scope.

Module stun.

Definition headerLen : Z := 20.
Definition magicCookie : Z := 554869826. (* 0x2112A442 *)
Definition typeBindingRequest : Z := 1.
Definition typeBindingResponse : Z := 257.
Definition attrMappedAddress : Z := 1.
Definition attrXORMappedAddress : Z := 32.
Definition familyIPv4 : Z := 1.
Definition familyIPv6 : Z := 2.
Definition MaxMessage : Z := 512.

Inductive error : Type := ENotRequest | ENotResponse | ENoAddress.

(** A transaction ID is 12 bytes. *)
Abbreviation TxID := bytes.

Definition Is {E} (b : bytes) : res E bool :=
  if zlen b <? headerLen then Ok false
  else
    b0 ← index b 0;
    if negb (Z.land b0 192 =? 0) then Ok false
    else
      cookie ← slice b 4 8 ≫= uint32_be;
      if negb (cookie =? magicCookie) then Ok false
      else
        n ← slice b 2 4 ≫= uint16_be;
        Ok (n + headerLen <=? zlen b).

Definition header (typ bodyLen : Z) (id : TxID) : bytes :=
  put_be 2 typ ++ put_be 2 (u16 bodyLen) ++ put_be 4 magicCookie ++ id.

Definition Request (id : TxID) : bytes := header typeBindingRequest 0 id.

Definition ParseRequest (b : bytes) : res error TxID :=
  ok ← Is b;
  if negb ok then Err ENotRequest
  else
    t ← slice b 0 2 ≫= uint16_be;
    if negb (t =? typeBindingRequest) then Err ENotRequest else slice b 8 20.

(** [xorIP(dst, ip, id)]: the new contents of [dst]. *)
Definition xorIP (dst ip : bytes) (id : TxID) : bytes :=
  copy_into dst (xor_bytes ip (put_be 4 magicCookie ++ id)).

Definition Response (id : TxID) (addr : AddrPort) : bytes :=
  let ip := Unmap (ap_addr addr) in
  let '(ipLen, family) := if Is6 ip then (16, familyIPv6) else (4, familyIPv4) in
  let attrLen := 4 + ipLen in
  header typeBindingResponse (4 + attrLen) id
    ++ put_be 2 attrXORMappedAddress ++ put_be 2 attrLen ++ [0; family]
    ++ put_be 2 (Z.lxor (ap_port addr) (magicCookie / 2 ^ 16))
    ++ xorIP (zeros (Z.to_nat ipLen)) (AsSlice ip) id.

Definition ipLenOf (family : Z) : Z :=
  if family =? familyIPv4 then 4 else if family =? familyIPv6 then 16 else 0.

Definition parseAddr {E} (v : bytes) (id : TxID) (xored : bool) : res E (AddrPort * bool) :=
  if zlen v <? 4 then Ok (AddrPortZero, false)
  else
    family ← index v 1;
    let ipLen := ipLenOf family in
    if (ipLen =? 0) || (zlen v <? 4 + ipLen) then Ok (AddrPortZero, false)
    else
      port ← slice v 2 4 ≫= uint16_be;
      ip ← slice v 4 (4 + ipLen);
      let '(port, ip) :=
        if xored then (Z.lxor port (magicCookie / 2 ^ 16), xorIP ip ip id) else (port, ip) in
      let '(a, ok) := AddrFromSlice ip in
      Ok (MkAddrPort (Unmap a) port, ok).

(** The loop over the attributes in [body]: the XOR-MAPPED-ADDRESS it
    returned early with, or [mapped] at the end. Every attribute takes four
    bytes or more, so as many rounds as there are bytes are enough; running
    out of them would be a [Panic]. *)
Fixpoint attrs (fuel : nat) (body : bytes) (id : TxID) (mapped : AddrPort)
    : res error (AddrPort + AddrPort) :=
  match fuel with
  | O => Panic
  | S fuel =>
    if zlen body <? 4 then Ok (inr mapped)
    else
      typ ← slice body 0 2 ≫= uint16_be;
      n ← slice body 2 4 ≫= uint16_be;
      if zlen body <? 4 + n then Ok (inr mapped)
      else
        v ← slice body 4 (4 + n);
        let next mapped :=
          let next := 4 + Z.ldiff (n + 3) 3 in
          if zlen body <? next then Ok (inr mapped)
          else body ← slice body next (zlen body); attrs fuel body id mapped in
        if typ =? attrXORMappedAddress then
          '(a, ok) ← parseAddr v id true;
          if ok : bool then Ok (inl a) else next mapped
        else if typ =? attrMappedAddress then
          '(a, ok) ← parseAddr v id false;
          next (if ok : bool then a else mapped)
        else next mapped
  end.

Definition ParseResponse (b : bytes) : res error (TxID * AddrPort) :=
  ok ← Is b;
  if negb ok then Err ENotResponse
  else
    t ← slice b 0 2 ≫= uint16_be;
    if negb (t =? typeBindingResponse) then Err ENotResponse
    else
      id ← slice b 8 20;
      n ← slice b 2 4 ≫= uint16_be;
      body ← slice b headerLen (headerLen + n);
      r ← attrs (S (length body)) body id AddrPortZero;
      match r with
      | inl a => Ok (id, a)
      | inr mapped => if apIsValid mapped then Ok (id, mapped) else Err ENoAddress
      end.

(** One datagram at the responder ([serveConn]): the answer, if any. *)
Definition serve (b : bytes) (from : AddrPort) : option bytes :=
  match ParseRequest b with
  | Ok id => Some (Response id from)
  | _ => None
  end.

Example serve_hello :
  serve (Request (zeros 12)) (MkAddrPort (Addr4 16909060) 40000)
  = Some (put_be 2 257 ++ put_be 2 12 ++ put_be 4 magicCookie ++ zeros 12
          ++ [0; 32; 0; 8; 0; 1] ++ put_be 2 (Z.lxor 40000 8466) ++ [32; 16; 167; 70]).
Proof. vm_compute. reflexivity. Qed.

(** ** Lemmas *)

Lemma Is_spec {E} b :
  Is (E := E) b = Ok ((headerLen <=? zlen b) && (Z.land (nth 0 b 0) 192 =? 0)
    && (be (sub b 4 8) =? magicCookie) && (be (sub b 2 4) + headerLen <=? zlen b)).
Proof.
  unfold Is. destruct (Z.ltb_spec (zlen b) headerLen) as [H | H].
  { by rewrite (proj2 (Z.leb_gt headerLen (zlen b))) by lia. }
  rewrite (proj2 (Z.leb_le headerLen (zlen b))) by lia. unfold headerLen in *.
  rewrite (index_ok _ 0 0) by lia. cbn [mbind res_bind].
  change (Z.to_nat 0) with 0%nat. destruct (Z.land (nth 0 b 0) 192 =? 0); [| done]. simpl negb. cbv iota.
  rewrite (uint32_sub b 4) by lia. cbn [mbind res_bind]. change (4 + 4) with 8.
  destruct (be (sub b 4 8) =? magicCookie); [| done]. simpl negb. cbv iota.
  by rewrite (uint16_sub b 2) by lia.
Qed.

Lemma parseAddr_ok {E} v id xored : exists r, parseAddr (E := E) v id xored = Ok r.
Proof.
  unfold parseAddr. destruct (Z.ltb_spec (zlen v) 4); [by eexists |].
  rewrite (index_ok _ 1 0) by lia. cbn [mbind res_bind].
  destruct ((ipLenOf _ =? 0) || _) eqn:Hl; [by eexists |]. bool_hyps.
  assert (0 <= ipLenOf (nth (Z.to_nat 1) v 0)) by (unfold ipLenOf; repeat case_match; lia).
  rewrite (uint16_sub v 2), slice_ok by lia. cbn [mbind res_bind].
  by repeat case_match; eexists.
Qed.

Lemma attrs_ok fuel body id mapped :
  bytes_ok body -> (length body < fuel)%nat -> exists r, attrs fuel body id mapped = Ok r.
Proof.
  revert body mapped. induction fuel as [| fuel IH]; intros body mapped Hb Hf; [lia |].
  cbn [attrs]. destruct (Z.ltb_spec (zlen body) 4) as [| Hlen]; [by eexists |].
  rewrite (uint16_sub body 0), (uint16_sub body 2) by lia. cbn [mbind res_bind].
  change (0 + 2) with 2. change (2 + 2) with 4.
  pose proof (be_sub_uint16 body 2 Hb ltac:(lia) ltac:(lia)) as Hn. change (2 + 2) with 4 in Hn.
  set (n := be (sub body 2 4)) in *. set (typ := be (sub body 0 2)).
  destruct (Z.ltb_spec (zlen body) (4 + n)); [by eexists |].
  rewrite (slice_ok body 4) by lia. cbn [mbind res_bind].
  assert (forall m, exists r, (if zlen body <? 4 + Z.ldiff (n + 3) 3 then Ok (inr m)
    else body ← slice body (4 + Z.ldiff (n + 3) 3) (zlen body); attrs fuel body id m) = Ok r) as Hnext.
  { intros m. destruct (Z.ltb_spec (zlen body) (4 + Z.ldiff (n + 3) 3)); [by eexists |].
    assert (0 <= Z.ldiff (n + 3) 3) by (apply Z.ldiff_nonneg; lia).
    rewrite slice_ok by lia. cbn [mbind res_bind]. apply IH; [by apply sub_bytes_ok |].
    unfold sub. rewrite length_take, length_drop. unfold zlen in *. lia. }
  destruct (parseAddr_ok (E := error) (sub body 4 (4 + n)) id true) as [[a ok] Ha].
  destruct (parseAddr_ok (E := error) (sub body 4 (4 + n)) id false) as [[a' ok'] Ha'].
  rewrite Ha, Ha'. cbn [mbind res_bind].
  destruct (typ =? attrXORMappedAddress); [destruct ok; [by eexists | apply Hnext] |].
  destruct (typ =? attrMappedAddress); apply Hnext.
Qed.

(** no datagram crashes the STUN code: for any bytes, parsing a request or
    a response ends without an index or slice out of range (and the attribute
    loop of a response ends). *)
Theorem Parse_no_panic b : bytes_ok b -> ParseRequest b <> Panic /\ ParseResponse b <> Panic.
Proof.
  intros Hb. unfold ParseRequest, ParseResponse. rewrite !Is_spec. cbn [mbind res_bind].
  destruct (_ && _) eqn:Hok; [| done]. simpl negb. cbv iota. bool_hyps. unfold headerLen in *.
  rewrite (uint16_sub b 0) by lia. change (0 + 2) with 2. cbn [mbind res_bind].
  rewrite (slice_ok b 8) by lia. split; [by destruct (negb _) |].
  destruct (negb _); [done |]. cbn [mbind res_bind].
  rewrite (uint16_sub b 2) by lia. change (2 + 2) with 4. cbn [mbind res_bind].
  pose proof (be_sub_uint16 b 2 Hb ltac:(lia) ltac:(lia)) as Hn. change (2 + 2) with 4 in Hn.
  rewrite slice_ok by lia. cbn [mbind res_bind].
  edestruct attrs_ok as [r Hr]; [by apply sub_bytes_ok | apply Nat.lt_succ_diag_r |].
  rewrite Hr. cbn [mbind res_bind]. repeat case_match; done.
Qed.

(** ** Round trips *)

Lemma Is_header {E} typ n id body :
  0 <= typ < 2 ^ 14 -> 0 <= n < 2 ^ 16 -> zlen id = 12 -> n <= zlen body ->
  Is (E := E) (header typ n id ++ body) = Ok true.
Proof.
  intros Ht Hn Hid Hb. rewrite Is_spec. f_equal. unfold header, headerLen.
  unfold u16. rewrite (Z.mod_small n) by lia. rewrite <- !app_assoc.
  assert (zlen (put_be 2 typ ++ put_be 2 n ++ put_be 4 magicCookie ++ id ++ body) = 20 + zlen body) as ->
    by (rewrite !zlen_app, !zlen_put_be; lia).
  assert (nth 0 (put_be 2 typ ++ put_be 2 n ++ put_be 4 magicCookie ++ id ++ body) 0 = typ / 256) as ->.
  { cbn [put_be app nth]. apply Z.mod_small. split; [apply Z.div_pos; lia |].
    apply Z.div_lt_upper_bound; lia. }
  rewrite (sub_app_exact (put_be 2 typ) (put_be 2 n) (put_be 4 magicCookie ++ id ++ body) 2 4) by zlens.
  rewrite (app_assoc (put_be 2 typ)), (sub_app_exact (put_be 2 typ ++ put_be 2 n) (put_be 4 magicCookie) (id ++ body) 4 8) by zlens.
  rewrite !be_put_be_small by (unfold magicCookie; simpl; lia).
  assert (Z.land (typ / 256) 192 = 0) as ->.
  { apply Z.bits_inj'. intros k Hk. rewrite Z.land_spec, Z.bits_0.
    destruct (decide (k < 6)) as [Hk6 | Hk6].
    - assert (Z.testbit 192 k = false) as ->; [| by rewrite andb_false_r].
      assert (k = 0 \/ k = 1 \/ k = 2 \/ k = 3 \/ k = 4 \/ k = 5) as Hc by lia.
      by repeat destruct Hc as [-> | Hc]; [.. | subst].
    - rewrite Z.bits_above_log2; [done | apply Z.div_pos; lia |].
      assert (typ / 256 < 64) by (apply Z.div_lt_upper_bound; lia).
      assert (0 <= typ / 256) by (apply Z.div_pos; lia).
      destruct (decide (typ / 256 = 0)) as [-> | ?]; [simpl; lia |].
      apply Z.lt_le_trans with 6; [apply Z.log2_lt_pow2; lia | lia]. }
  rewrite !(proj2 (Z.leb_le _ _)) by lia. done.
Qed.

Lemma header_fields typ n id body :
  0 <= typ < 2 ^ 14 -> 0 <= n < 2 ^ 16 -> zlen id = 12 ->
  let b := header typ n id ++ body in
  be (sub b 0 2) = typ /\ be (sub b 2 4) = n /\ sub b 8 20 = id /\ zlen b = 20 + zlen body
  /\ sub b 20 (20 + zlen body) = body.
Proof.
  intros Ht Hn Hid b. subst b. unfold header, u16. rewrite (Z.mod_small n) by lia.
  rewrite <- !app_assoc. split_and!.
  - rewrite sub_app_head; [| zlens]. rewrite be_put_be_small; simpl; lia.
  - rewrite (sub_app_exact (put_be 2 typ) (put_be 2 n) _ 2 4) by (rewrite ?zlen_put_be; lia).
    rewrite be_put_be_small; simpl; lia.
  - rewrite (app_assoc (put_be 2 typ)), (app_assoc (put_be 2 typ ++ _)).
    apply sub_app_exact; rewrite !zlen_app, !zlen_put_be; lia.
  - rewrite !zlen_app, !zlen_put_be. lia.
  - rewrite (app_assoc (put_be 2 typ)), (app_assoc (put_be 2 typ ++ _)), (app_assoc ((put_be 2 typ ++ _) ++ _)).
    apply sub_app_tail; rewrite !zlen_app, !zlen_put_be; lia.
Qed.

(** The bytes of the attribute that carries the address [ip]. *)
Definition attr_bytes (family : Z) (ip : bytes) (port : Z) (id : TxID) : bytes :=
  put_be 2 attrXORMappedAddress ++ put_be 2 (4 + zlen ip) ++ [0; family]
    ++ put_be 2 (Z.lxor port (magicCookie / 2 ^ 16)) ++ xor_bytes ip (put_be 4 magicCookie ++ id).

Lemma length_xor_key ip id :
  zlen ip <= 16 -> zlen id = 12 -> zlen (xor_bytes ip (put_be 4 magicCookie ++ id)) = zlen ip.
Proof.
  unfold zlen. intros H1 H2. rewrite length_xor_bytes, length_app, length_put_be. lia.
Qed.

Lemma parseAddr_attr {E} family ip port id :
  ipLenOf family = zlen ip -> 0 < zlen ip -> zlen ip <= 16 -> zlen id = 12 -> 0 <= port < 2 ^ 16 ->
  parseAddr (E := E) ([0; family] ++ put_be 2 (Z.lxor port (magicCookie / 2 ^ 16))
    ++ xor_bytes ip (put_be 4 magicCookie ++ id)) id true
  = Ok (let '(a, ok) := AddrFromSlice ip in (MkAddrPort (Unmap a) port, ok)).
Proof.
  intros Hf H0 H16 Hid Hp. set (x := xor_bytes ip _).
  assert (zlen x = zlen ip) as Hx by (by apply length_xor_key).
  set (p := Z.lxor port _).
  assert (0 <= p < 2 ^ 16) as Hpr by (apply lxor_uint16; [done | by cbv]).
  unfold parseAddr. rewrite (proj2 (Z.ltb_ge _ 4)) by zlens.
  rewrite (index_ok _ 1 0) by zlens. cbn [mbind res_bind app].
  change (nth (Z.to_nat 1) (0 :: family :: put_be 2 p ++ x) 0) with family. rewrite Hf.
  rewrite (proj2 (Z.eqb_neq (zlen ip) 0)) by lia.
  rewrite (proj2 (Z.ltb_ge _ (4 + zlen ip))) by zlens. simpl orb. cbv iota.
  rewrite (uint16_sub _ 2) by zlens. cbn [mbind res_bind].
  rewrite (slice_ok _ 4) by zlens. cbn [mbind res_bind].
  change (0 :: family :: put_be 2 p ++ x) with ([0; family] ++ put_be 2 p ++ x).
  rewrite (sub_app_exact [0; family] (put_be 2 p) x 2 (2 + 2)) by zlens.
  rewrite be_put_be_small by (simpl; lia). subst p. rewrite lxor_lxor.
  rewrite (app_assoc [0; family]), sub_app_tail by zlens.
  unfold xorIP. rewrite copy_into_full.
  - subst x. rewrite xor_bytes_involutive; [by destruct (AddrFromSlice ip) |].
    rewrite length_app, length_put_be. unfold zlen in *. lia.
  - rewrite length_xor_bytes, length_app, length_put_be. unfold zlen in *. lia.
Qed.

Lemma Response_bytes id a port :
  IsValid a = true -> addr_ok a -> zlen id = 12 ->
  exists family ip,
    Response id (MkAddrPort a port) = header typeBindingResponse (8 + zlen ip) id ++ attr_bytes family ip port id
    /\ ipLenOf family = zlen ip /\ 0 < zlen ip <= 16
    /\ AddrFromSlice ip = (withoutZone (Unmap a), true)
    /\ Unmap (withoutZone (Unmap a)) = withoutZone (Unmap a).
Proof.
  intros Hv Ha Hid. unfold Response. simpl ap_addr. simpl ap_port.
  pose proof (Unmap_ok a Ha) as Hu.
  assert (match Unmap a with Addr6 v _ => (v / 2 ^ 32 =? 65535) = false | _ => True end) as Hm.
  { destruct a as [| v | v z]; cbn [Unmap]; try done. destruct (v / 2 ^ 32 =? 65535) eqn:E; [done | exact E]. }
  assert (IsValid (Unmap a) = true) as Hv' 
    by (destruct a as [| v | v z]; cbn [Unmap]; [done | done | by destruct (v / 2 ^ 32 =? 65535)]).
  destruct (Unmap a) as [| v | v z] eqn:E; [done | |]; simpl Is6; cbv iota;
    [exists familyIPv4, (put_be 4 v) | exists familyIPv6, (put_be 16 v)];
    unfold attr_bytes, xorIP, AddrFromSlice; rewrite zlen_put_be; cbn [AsSlice].
  - split_and!; [| done | lia | lia | by rewrite AddrFrom4_As4 | done].
    rewrite copy_into_full by (rewrite length_xor_bytes, length_app, !length_put_be;
      unfold zlen in Hid; unfold zeros; rewrite length_replicate; lia). done.
  - split_and!; [| done | lia | lia | | by cbn [withoutZone Unmap]; rewrite Hm].
    + rewrite copy_into_full by (rewrite length_xor_bytes, length_app, !length_put_be;
        unfold zlen in Hid; unfold zeros; rewrite length_replicate; lia). done.
    + unfold AddrFrom16. rewrite be_put_be_small by (simpl in *; lia). done.
Qed.

(** a client learns exactly the address the server saw: parsing the
    response built for a transaction and a valid address, whatever follows it
    in the datagram, returns that transaction and that address (IPv4-mapped
    ones as IPv4, without zone) and port. *)
Theorem ParseResponse_Response id a port rest :
  zlen id = 12 -> IsValid a = true -> addr_ok a -> 0 <= port < 2 ^ 16 ->
  ParseResponse (Response id (MkAddrPort a port) ++ rest)
  = Ok (id, MkAddrPort (withoutZone (Unmap a)) port).
Proof.
  intros Hid Hv Ha Hp. destruct (Response_bytes id a port Hv Ha Hid) as (fam & ip & -> & Hf & Hl & Hs & Hu).
  set (body := attr_bytes fam ip port id).
  assert (zlen body = 8 + zlen ip) as Hb.
  { subst body. unfold attr_bytes. rewrite !zlen_app, !zlen_put_be, length_xor_key by lia.
    rewrite !zlen_cons, zlen_nil. lia. }
  unfold ParseResponse. rewrite <- app_assoc.
  rewrite Is_header by (rewrite ?zlen_app; unfold typeBindingResponse; pose proof (zlen_nonneg rest); lia).
  cbn [mbind res_bind negb].
  pose proof (header_fields typeBindingResponse (8 + zlen ip) id (body ++ rest)
    ltac:(unfold typeBindingResponse; lia) ltac:(lia) Hid) as (H1 & H2 & H3 & H4 & H5).
  pose proof (zlen_nonneg rest) as Hr. rewrite (zlen_app body), Hb in H4.
  rewrite (uint16_sub _ 0) by lia. change (0 + 2) with 2. cbn [mbind res_bind]. rewrite H1.
  simpl negb. cbv iota. rewrite (slice_ok _ 8) by lia. cbn [mbind res_bind]. rewrite H3.
  rewrite (uint16_sub _ 2) by lia. change (2 + 2) with 4. cbn [mbind res_bind]. rewrite H2.
  unfold headerLen. rewrite (slice_ok _ 20) by lia. cbn [mbind res_bind].
  assert (sub (header typeBindingResponse (8 + zlen ip) id ++ body ++ rest) 20 (20 + (8 + zlen ip)) = body) as ->.
  { rewrite <- Hb. apply sub_app_exact; unfold header; zlens. }
  cbn [attrs]. rewrite (proj2 (Z.ltb_ge _ 4)) by lia.
  set (x := [0; fam] ++ put_be 2 (Z.lxor port (magicCookie / 2 ^ 16)) ++ xor_bytes ip (put_be 4 magicCookie ++ id)).
  assert (body = put_be 2 attrXORMappedAddress ++ put_be 2 (4 + zlen ip) ++ x) as Hbody by done.
  assert (zlen x = 4 + zlen ip) as Hx by (rewrite Hbody, !zlen_app, !zlen_put_be in Hb; lia).
  rewrite (uint16_sub body 0), (uint16_sub body 2) by lia. cbn [mbind res_bind].
  rewrite Hbody. rewrite sub_app_head by zlens. change (2 + 2) with 4.
  rewrite (sub_app_exact (put_be 2 attrXORMappedAddress) (put_be 2 (4 + zlen ip)) x 2 4) by zlens.
  rewrite !be_put_be_small by (unfold attrXORMappedAddress; simpl; lia).
  rewrite (proj2 (Z.ltb_ge _ (4 + (4 + zlen ip)))) by zlens.
  rewrite (slice_ok _ 4) by zlens. cbn [mbind res_bind].
  rewrite (app_assoc (put_be 2 attrXORMappedAddress)), sub_app_tail by zlens.
  subst x. rewrite parseAddr_attr by lia. rewrite Hs. cbn [mbind res_bind]. by rewrite Hu.
Qed.

Lemma ParseRequest_Ok b id :
  ParseRequest b = Ok id -> 20 <= zlen b /\ be (sub b 0 2) = typeBindingRequest
    /\ be (sub b 4 8) = magicCookie /\ id = sub b 8 20.
Proof.
  unfold ParseRequest. rewrite Is_spec. cbn [mbind res_bind].
  destruct (_ && _) eqn:Hok; [| done]. simpl negb. cbv iota. bool_hyps. unfold headerLen in *.
  rewrite (uint16_sub b 0), (slice_ok b 8) by lia. change (0 + 2) with 2. cbn [mbind res_bind].
  destruct (Z.eqb_spec (be (sub b 0 2)) typeBindingRequest); [| done]. intros [= <-]. done.
Qed.

Lemma zlen_Response id from : zlen id = 12 -> zlen (Response id from) <= 44.
Proof.
  intros Hid. unfold Response, header, xorIP.
  assert (forall ip, (length ip <= 16)%nat -> length (xor_bytes ip (put_be 4 magicCookie ++ id)) = length ip) as Hx.
  { intros ip Hip. rewrite length_xor_bytes, length_app, length_put_be. unfold zlen in Hid. lia. }
  destruct (Unmap (ap_addr from)) as [| v | v z]; cbn [Is6 AsSlice];
    rewrite !zlen_app, !zlen_put_be, !zlen_cons, Hid; unfold zlen;
    rewrite length_copy_into, ?Hx; unfold zeros; rewrite ?length_replicate, ?Hx, ?length_put_be;
    simpl length; rewrite ?length_put_be; lia.
Qed.

(** the responder answers Binding requests and nothing else: a request,
    with anything after it, is answered with the response for its transaction
    and its sender; whatever is answered was a well formed request of at least
    20 bytes, and the answer has at most 44 bytes (no amplification beyond
    that). *)
Theorem serve_spec b from :
  (forall id rest, zlen id = 12 -> b = Request id ++ rest -> serve b from = Some (Response id from)) /\
  (forall out, serve b from = Some out ->
     20 <= zlen b /\ be (sub b 0 2) = typeBindingRequest /\ be (sub b 4 8) = magicCookie
     /\ out = Response (sub b 8 20) from /\ zlen out <= 44).
Proof.
  unfold serve. split.
  - intros id rest Hid ->. unfold ParseRequest, Request.
    rewrite Is_header by (unfold typeBindingRequest; pose proof (zlen_nonneg rest); lia).
    cbn [mbind res_bind negb].
    pose proof (header_fields typeBindingRequest 0 id rest ltac:(unfold typeBindingRequest; lia) ltac:(lia) Hid)
      as (H1 & _ & H3 & H4 & _). pose proof (zlen_nonneg rest).
    rewrite (uint16_sub _ 0), (slice_ok _ 8) by lia. change (0 + 2) with 2. cbn [mbind res_bind].
    by rewrite H1, H3.
  - intros out H. destruct (ParseRequest b) as [id | |] eqn:E; try done. injection H as <-.
    apply ParseRequest_Ok in E as (? & ? & ? & ->).
    split_and!; [done | done | done | done |]. apply zlen_Response. rewrite zlen_sub; lia.
Qed.

(** ** Witnesses *)

Lemma Parse_no_panic_witness :
  ParseRequest [0; 1; 0; 4; 33; 18] <> Panic /\ ParseResponse [0; 1; 0; 4; 33; 18] <> Panic.
Proof. apply Parse_no_panic. repeat constructor; discriminate. Defined.

Lemma ParseResponse_Response_witness :
  ParseResponse (Response (zeros 12) (MkAddrPort (Addr6 (65535 * 2 ^ 32 + 16909060) []) 40000) ++ [1; 2])
  = Ok (zeros 12, MkAddrPort (Addr4 16909060) 40000).
Proof. apply ParseResponse_Response; [reflexivity | reflexivity | cbv; split; [discriminate | reflexivity] | lia]. Defined.

End stun.
