(* ===== verification/Bencode.v ===== *)
(** The bencode encoder and decoder of KRPC messages (internal/dht/bencode.go).

    A Go [map[string]any] is an association list with distinct keys: its order
    stands for Go's unspecified iteration order, and [encode] sorts the keys as
    the code does. The recursion of [decode] takes fuel; [decode_fuel] below
    shows that what [Decode] gives it is enough for any input. *)
From stdpp Require Import base list strings sorting.
From Stdlib Require Import ZArith Lia.
From S2P Require Import Prelude GoStrings.

Open Scope Z_scope.

Module bencode.

(** The values the encoder's type switch tells apart; [VOther] is a value of
    any other type. *)
Inductive value : Type :=
  | VString (s : bytes)
  | VBytes (s : bytes)
  | VInt (n : Z)
  | VInt64 (n : Z)
  | VList (l : list value)
  | VDict (d : list (bytes * value))
  | VOther.

Inductive error : Type := EBencode | EType | EFuel.

(** Go's order on strings. *)
Fixpoint bytes_leb (a b : bytes) : bool :=
  match a, b with
  | [], _ => true
  | _ :: _, [] => false
  | x :: a, y :: b => (x <? y) || ((x =? y) && bytes_leb a b)
  end.

Definition bytes_le (a b : bytes) : Prop := bytes_leb a b = true.

#[export] Instance bytes_le_dec a b : Decision (bytes_le a b).
Proof. unfold bytes_le. apply _. Defined.

Definition sortKeys (l : list bytes) : list bytes := merge_sort bytes_le l.

Fixpoint assoc {A} (k : bytes) (d : list (bytes * A)) : option A :=
  match d with
  | [] => None
  | (k', v) :: d => if bool_decide (k' = k) then Some v else assoc k d
  end.

(** [m[k] = v] on a map kept as an association list. *)
Fixpoint set {A} (k : bytes) (v : A) (d : list (bytes * A)) : list (bytes * A) :=
  match d with
  | [] => [(k, v)]
  | (k', v') :: d => if bool_decide (k' = k) then (k', v) :: d else (k', v') :: set k v d
  end.

(** ** Encoding *)

Definition encString (s : bytes) : bytes := Itoa (zlen s) ++ 58 :: s.
Definition encInt (n : Z) : bytes := 105 :: Itoa n ++ [101].

Fixpoint encItems (l : list (res error bytes)) : res error bytes :=
  match l with
  | [] => Ok []
  | r :: l => e ← r; es ← encItems l; Ok (e ++ es)
  end.

Fixpoint encPairs (d : list (bytes * res error bytes)) (keys : list bytes) : res error bytes :=
  match keys with
  | [] => Ok []
  | k :: keys =>
    e ← match assoc k d with Some r => r | None => Err EType end;
    es ← encPairs d keys;
    Ok (encString k ++ e ++ es)
  end.

(** [encode], and so [Encode]: what is written to the buffer. *)
Fixpoint encode (v : value) : res error bytes :=
  match v with
  | VString s => Ok (encString s)
  | VBytes s => Ok (encString s)
  | VInt n => Ok (encInt n)
  | VInt64 n => Ok (encInt n)
  | VList l => es ← encItems (map encode l); Ok (108 :: es ++ [101])
  | VDict d =>
    let ed := map (fun kv => match kv with (k, x) => (k, encode x) end) d in
    es ← encPairs ed (sortKeys (map fst ed));
    Ok (100 :: es ++ [101])
  | VOther => Err EType
  end.

Definition Encode (v : value) : res error bytes := encode v.

(** ** Decoding *)

Definition decodeInt (b : bytes) : res error (value * bytes) :=
  let end_ := IndexByte b 101 in
  if end_ <? 2 then Err EBencode
  else
    s ← slice b 1 end_;
    match ParseInt s with
    | None => Err EBencode
    | Some n => rest ← slice b (end_ + 1) (zlen b); Ok (VInt64 n, rest)
    end.

(** [colon+1+n] is computed in 64 bits, as in the code. *)
Definition decodeString (b : bytes) : res error (value * bytes) :=
  let colon := IndexByte b 58 in
  if colon <? 1 then Err EBencode
  else
    s ← slice b 0 colon;
    match ParseInt s with
    | None => Err EBencode
    | Some n =>
      let stop := int64 (colon + 1 + n) in
      if (n <? 0) || (zlen b <? stop) then Err EBencode
      else
        v ← slice b (colon + 1) stop;
        rest ← slice b stop (zlen b);
        Ok (VString v, rest)
    end.

Fixpoint decode (fuel : nat) (b : bytes) (depth : Z) {struct fuel} : res error (value * bytes) :=
  match fuel with
  | O => Err EFuel
  | S fuel =>
    match b with
    | [] => Err EBencode
    | c :: r =>
      if 32 <? depth then Err EBencode
      else if c =? 105 then decodeInt b
      else if c =? 108 then decodeList fuel r depth []
      else if c =? 100 then decodeDict fuel r depth []
      else if is_digit c then decodeString b
      else Err EBencode
    end
  end
with decodeList (fuel : nat) (b : bytes) (depth : Z) (out : list value) {struct fuel}
    : res error (value * bytes) :=
  match fuel with
  | O => Err EFuel
  | S fuel =>
    match b with
    | [] => Err EBencode
    | c :: r =>
      if c =? 101 then Ok (VList out, r)
      else
        '(v, rest) ← decode fuel b (depth + 1);
        decodeList fuel rest depth (out ++ [v])
    end
  end
with decodeDict (fuel : nat) (b : bytes) (depth : Z) (out : list (bytes * value)) {struct fuel}
    : res error (value * bytes) :=
  match fuel with
  | O => Err EFuel
  | S fuel =>
    match b with
    | [] => Err EBencode
    | c :: r =>
      if c =? 101 then Ok (VDict out, r)
      else
        '(k, rest) ← decode fuel b (depth + 1);
        match k with
        | VString key =>
          '(v, rest) ← decode fuel rest (depth + 1);
          decodeDict fuel rest depth (set key v out)
        | _ => Err EBencode
        end
    end
  end.

Definition Decode (b : bytes) : res error value :=
  '(v, rest) ← decode (2 * length b + 2) b 0;
  if bool_decide (rest = []) then Ok v else Err EBencode.

Example Decode_dict : Decode (str "d1:ad2:id3:abce1:q4:ping1:t2:aa1:y1:qe") =
  Ok (VDict [(str "a", VDict [(str "id", VString (str "abc"))]); (str "q", VString (str "ping"));
             (str "t", VString (str "aa")); (str "y", VString (str "q"))]).
Proof. vm_compute. reflexivity. Qed.
Example Encode_dict : Encode (VDict [(str "y", VString (str "q")); (str "t", VBytes (str "aa")); (str "ro", VInt 1)]) =
  Ok (str "d2:roi1e1:t2:aa1:y1:qe").
Proof. vm_compute. reflexivity. Qed.
Example Decode_short : Decode (str "5:abc") = Err EBencode.
Proof. vm_compute. reflexivity. Qed.
Example Decode_crash : Decode (str "9223372036854775807:") = Panic.
Proof. vm_compute. reflexivity. Qed.

(** ** Values and their normal form *)

Section value_ind.
Variable P : value -> Prop.
Hypothesis HString : forall s, P (VString s).
Hypothesis HBytes : forall s, P (VBytes s).
Hypothesis HInt : forall n, P (VInt n).
Hypothesis HInt64 : forall n, P (VInt64 n).
Hypothesis HList : forall l, Forall P l -> P (VList l).
Hypothesis HDict : forall d, Forall (fun kv => P kv.2) d -> P (VDict d).
Hypothesis HOther : P VOther.

(** Induction that reaches the items of lists and dictionaries. *)
Fixpoint value_ind' (v : value) : P v :=
  match v with
  | VString s => HString s
  | VBytes s => HBytes s
  | VInt n => HInt n
  | VInt64 n => HInt64 n
  | VList l =>
    HList l ((fix go l := match l return Forall P l with
                          | [] => Forall_nil_2 P
                          | x :: l => Forall_cons_2 P x l (value_ind' x) (go l)
                          end) l)
  | VDict d =>
    HDict d ((fix go d := match d return Forall (fun kv => P kv.2) d with
                          | [] => Forall_nil_2 _
                          | kv :: d => Forall_cons_2 (fun kv => P kv.2) kv d (value_ind' kv.2) (go d)
                          end) d)
  | VOther => HOther
  end.
End value_ind.

(** Values the code can encode: lengths and integers fit their Go types and
    the keys of a map are distinct. *)
Fixpoint encodable (v : value) : Prop :=
  match v with
  | VString s => zlen s < 2 ^ 62
  | VBytes s => zlen s < 2 ^ 62
  | VInt n => - 2 ^ 63 <= n < 2 ^ 63
  | VInt64 n => - 2 ^ 63 <= n < 2 ^ 63
  | VList l => fold_right (fun x Q => encodable x /\ Q) True l
  | VDict d => NoDup (map fst d)
      /\ fold_right (fun kv Q => zlen kv.1 < 2 ^ 62 /\ encodable kv.2 /\ Q) True d
  | VOther => False
  end.

(** How deep lists and dictionaries are nested. *)
Fixpoint height (v : value) : Z :=
  match v with
  | VList l => fold_right (fun x h => Z.max (1 + height x) h) 0 l
  | VDict d => fold_right (fun kv h => Z.max (1 + height kv.2) h) 0 d
  | _ => 0
  end.

(** The pairs of [d] in the order of [keys]. *)
Definition reorder {A} (d : list (bytes * A)) (keys : list bytes) : list (bytes * A) :=
  omap (fun k => (fun v => (k, v)) <$> assoc k d) keys.

(** What a decoder makes of an encoded value: strings, 64-bit integers, and
    dictionaries in the order of their keys. *)
Fixpoint norm (v : value) : value :=
  match v with
  | VBytes s => VString s
  | VInt n => VInt64 n
  | VList l => VList (map norm l)
  | VDict d =>
    let nd := map (fun kv => match kv with (k, x) => (k, norm x) end) d in
    VDict (reorder nd (sortKeys (map fst nd)))
  | v => v
  end.

(** ** Lemmas: keys and order *)

Lemma bytes_leb_total a b : bytes_leb a b = true \/ bytes_leb b a = true.
Proof.
  revert b. induction a as [| x a IH]; intros [| y b]; simpl; [tauto .. |].
  destruct (Z.ltb_spec x y), (Z.ltb_spec y x), (Z.eqb_spec x y), (Z.eqb_spec y x); simpl; try tauto; try lia.
  apply IH.
Qed.

#[export] Instance bytes_le_total : Total bytes_le.
Proof. intros a b. apply bytes_leb_total. Qed.

Lemma bytes_leb_trans a b c : bytes_leb a b = true -> bytes_leb b c = true -> bytes_leb a c = true.
Proof.
  revert b c. induction a as [| x a IH]; intros [| y b] [| z c]; simpl; try done.
  destruct (Z.ltb_spec x y), (Z.ltb_spec y z), (Z.eqb_spec x y), (Z.eqb_spec y z),
    (Z.ltb_spec x z), (Z.eqb_spec x z); simpl; try done; try lia.
  apply IH.
Qed.

#[export] Instance bytes_le_trans : Transitive bytes_le.
Proof. intros a b c. apply bytes_leb_trans. Qed.

Lemma sortKeys_perm l : sortKeys l ≡ₚ l.
Proof. apply merge_sort_Permutation. Qed.

Lemma sortKeys_sorted l : StronglySorted bytes_le (sortKeys l).
Proof. apply StronglySorted_merge_sort; apply _. Qed.

Lemma assoc_map {A B} (f : A -> B) k d :
  assoc k (map (fun kv => match kv with (k, x) => (k, f x) end) d) = f <$> assoc k d.
Proof. induction d as [| [k' v] d IH]; simpl; [done |]. by case_bool_decide. Qed.

Lemma assoc_in {A} k (d : list (bytes * A)) : k ∈ map fst d -> is_Some (assoc k d).
Proof.
  induction d as [| [k' v] d IH]; simpl; [by intros H%elem_of_nil |].
  intros [-> | H]%elem_of_cons; case_bool_decide; eauto; done.
Qed.

Lemma assoc_elem {A} k v (d : list (bytes * A)) : assoc k d = Some v -> (k, v) ∈ d.
Proof.
  induction d as [| [k' v'] d IH]; simpl; [done |].
  case_bool_decide; intros; simplify_eq; apply elem_of_cons; [by left | right; eauto].
Qed.

Lemma set_fresh {A} k (v : A) d : k ∉ map fst d -> set k v d = d ++ [(k, v)].
Proof.
  induction d as [| [k' v'] d IH]; simpl; [done |]. intros H.
  apply not_elem_of_cons in H as [Hk H]. rewrite bool_decide_eq_false_2 by done. by rewrite IH.
Qed.

Lemma map_fst_map {A B} (f : A -> B) (d : list (bytes * A)) :
  map fst (map (fun kv => match kv with (k, x) => (k, f x) end) d) = map fst d.
Proof. rewrite map_map. apply map_ext. by intros [k x]. Qed.

Lemma reorder_keys {A} (d : list (bytes * A)) keys :
  Forall (fun k => k ∈ map fst d) keys -> map fst (reorder d keys) = keys.
Proof.
  induction 1 as [| k keys Hk _ IH]; [done |]. unfold reorder in *. simpl.
  destruct (assoc_in k d Hk) as [v ->]. simpl. f_equal. exact IH.
Qed.

(** The dictionary of [norm] is the same map: only its order is the sorted one. *)
Lemma assoc_reorder {A} (d : list (bytes * A)) keys k :
  Forall (fun k => k ∈ map fst d) keys -> k ∈ keys -> assoc k (reorder d keys) = assoc k d.
Proof.
  induction 1 as [| k' keys Hk _ IH]; [by intros ?%elem_of_nil |]. unfold reorder in *. simpl.
  destruct (assoc_in k' d Hk) as [v Hv]. rewrite Hv. simpl. intros Hin.
  case_bool_decide; [by subst |].
  apply elem_of_cons in Hin as [-> | ?]; [done |]. by apply IH.
Qed.

(** ** Lemmas: the pieces of an encoding *)

Lemma Utoa_head n : 0 <= n -> exists c r, Utoa n = c :: r /\ is_digit c = true.
Proof.
  intros H. pose proof (Utoa_digits n H) as Hd. pose proof (Utoa_not_nil n).
  destruct (Utoa n) as [| c r]; [done |]. simpl in Hd. bool_hyps. eauto.
Qed.

Lemma Itoa_pos n : 0 <= n -> Itoa n = Utoa n.
Proof. intros H. unfold Itoa. by rewrite (proj2 (Z.ltb_ge n 0)). Qed.

Lemma decodeString_digits n rest : 0 <= n < 2 ^ 63 ->
  decodeString (Utoa n ++ 58 :: rest) =
    if zlen rest + zlen (Utoa n) + 1 <? int64 (zlen (Utoa n) + 1 + n) then Err EBencode
    else
      v ← slice (Utoa n ++ 58 :: rest) (zlen (Utoa n) + 1) (int64 (zlen (Utoa n) + 1 + n));
      r ← slice (Utoa n ++ 58 :: rest) (int64 (zlen (Utoa n) + 1 + n)) (zlen (Utoa n ++ 58 :: rest));
      Ok (VString v, r).
Proof.
  intros H. unfold decodeString.
  rewrite IndexByte_app by (by apply Utoa_not_in; [lia |]).
  destruct (Utoa_head n ltac:(lia)) as (c & r & E & _).
  assert (1 <= zlen (Utoa n)) as Hl by (rewrite E, zlen_cons; pose proof (zlen_nonneg r); lia).
  rewrite (proj2 (Z.ltb_ge (zlen (Utoa n)) 1)) by done.
  rewrite (slice_ok (Utoa n ++ 58 :: rest) 0 (zlen (Utoa n)))
    by (rewrite ?zlen_app; pose proof (zlen_nonneg (58 :: rest)); lia).
  cbn [mbind res_bind]. rewrite sub_app_head by done.
  rewrite <- (Itoa_pos n) at 1 by lia. rewrite ParseInt_Itoa by lia.
  rewrite (proj2 (Z.ltb_ge n 0)) by lia. cbn [orb].
  replace (zlen (Utoa n ++ 58 :: rest)) with (zlen rest + zlen (Utoa n) + 1) at 1
    by (rewrite zlen_app, zlen_cons; lia).
  done.
Qed.

Lemma decodeString_encString s rest : zlen s < 2 ^ 62 -> zlen (Utoa (zlen s)) < 2 ^ 62 ->
  decodeString (encString s ++ rest) = Ok (VString s, rest).
Proof.
  intros Hs Hu. pose proof (zlen_nonneg s). pose proof (zlen_nonneg (Utoa (zlen s))). pose proof (zlen_nonneg rest).
  unfold encString. rewrite Itoa_pos, <- app_assoc by lia. simpl app.
  rewrite decodeString_digits by lia. rewrite int64_small by lia.
  rewrite (proj2 (Z.ltb_ge _ _)) by (rewrite zlen_app; lia).
  change (58 :: s ++ rest) with ([58] ++ s ++ rest). rewrite (app_assoc (Utoa (zlen s))).
  assert (zlen (Utoa (zlen s) ++ [58]) = zlen (Utoa (zlen s)) + 1) as Hl by (rewrite zlen_app; reflexivity).
  rewrite slice_ok by (rewrite ?zlen_app; change (zlen [58]) with 1; lia). cbn [mbind res_bind].
  rewrite slice_ok by (rewrite ?zlen_app; change (zlen [58]) with 1; lia). cbn [mbind res_bind].
  rewrite sub_app_exact by (rewrite ?Hl; lia). rewrite app_assoc.
  rewrite sub_app_tail by (rewrite ?zlen_app; change (zlen [58]) with 1; lia). done.
Qed.

(** ** Lemmas: what the decoder consumes *)

Lemma drop_suffix (b : bytes) n : exists p, b = p ++ drop n b.
Proof. exists (take n b). by rewrite take_drop. Qed.

Lemma sub_to_end {A} (l : list A) i : 0 <= i <= zlen l -> sub l i (zlen l) = drop (Z.to_nat i) l.
Proof. intros H. unfold sub, zlen. apply take_ge. rewrite length_drop. lia. Qed.

Lemma drop_proper (b : bytes) n : (0 < n <= length b)%nat -> exists p, b = p ++ drop n b /\ p <> [].
Proof.
  intros H. exists (take n b). rewrite take_drop. split; [done |].
  destruct b, n; simpl in *; try lia. done.
Qed.

(** The rest is a proper suffix of the input. *)
Definition eats (b : bytes) (r : res error (value * bytes)) : Prop :=
  match r with Ok (_, rest) => exists p, b = p ++ rest /\ p <> [] | _ => True end.

Lemma eats_app p b r : eats b r -> eats (p ++ b) r.
Proof.
  destruct r as [[v rest] | |]; simpl; [| done ..].
  intros (q & -> & H). exists (p ++ q). rewrite app_assoc. split; [done |]. by destruct p.
Qed.

Lemma decodeInt_eats b : eats b (decodeInt b).
Proof.
  unfold decodeInt. case_match eqn:He; [done |]. bool_hyps.
  destruct (slice b 1 _) as [s | |] eqn:Hs; [| done ..]. cbn [mbind res_bind].
  destruct (ParseInt s); [| done].
  destruct (IndexByte_found b 101) as (a & r & Hb & Ha); [lia |].
  assert (zlen b = IndexByte b 101 + 1 + zlen r) as Hl
    by (rewrite Hb at 1; rewrite zlen_app, zlen_cons; lia).
  pose proof (zlen_nonneg r).
  rewrite slice_ok by lia. cbn [mbind res_bind eats]. rewrite sub_to_end by lia.
  apply drop_proper. unfold zlen in *. lia.
Qed.

Lemma decodeString_eats b : eats b (decodeString b).
Proof.
  unfold decodeString. case_match eqn:He; [done |]. bool_hyps.
  destruct (slice b 0 _) as [s | |]; [| done ..]. cbn [mbind res_bind].
  destruct (ParseInt s) as [n |]; [| done]. case_match; [done |].
  destruct (slice b (_ + 1) _) as [w | |] eqn:Hw; [| done ..]. cbn [mbind res_bind].
  destruct (slice b _ (zlen b)) as [r | |] eqn:Hr; [| done ..]. cbn [mbind res_bind eats].
  apply slice_inv in Hw as (? & ? & ->). apply slice_inv in Hr as (? & ? & ->).
  rewrite sub_to_end by lia. apply drop_proper. unfold zlen in *. lia.
Qed.

Lemma decode_eats fuel : forall b d,
  eats b (decode fuel b d) /\ (forall out, eats b (decodeList fuel b d out))
  /\ (forall out, eats b (decodeDict fuel b d out)).
Proof.
  induction fuel as [| fuel IH]; intros b d; [done |].
  split; [| split; intros out]; cbn [decode decodeList decodeDict]; destruct b as [| c r]; try done.
  - repeat (case_match; [done || apply decodeInt_eats || apply decodeString_eats
      || (apply (eats_app [c] r); apply (IH r d)) |]). done.
  - case_match; [exists [c]; done |].
    destruct (decode fuel (c :: r) (d + 1)) as [[v rest] | |] eqn:Hv; [| done ..]. cbn [mbind res_bind].
    pose proof (proj1 (IH (c :: r) (d + 1))) as Hd. rewrite Hv in Hd. destruct Hd as (p & -> & _).
    apply eats_app, IH.
  - case_match; [exists [c]; done |].
    destruct (decode fuel (c :: r) (d + 1)) as [[k rest] | |] eqn:Hk; [| done ..]. cbn [mbind res_bind].
    pose proof (proj1 (IH (c :: r) (d + 1))) as Hd. rewrite Hk in Hd. destruct Hd as (p & -> & _).
    destruct k; try done.
    destruct (decode fuel rest (d + 1)) as [[v rest'] | |] eqn:Hv; [| done ..]. cbn [mbind res_bind].
    pose proof (proj1 (IH rest (d + 1))) as Hd. rewrite Hv in Hd. destruct Hd as (q & -> & _).
    apply eats_app, eats_app, IH.
Qed.

Lemma decode_shorter fuel b d v rest : decode fuel b d = Ok (v, rest) -> (length rest < length b)%nat.
Proof.
  intros H. pose proof (proj1 (decode_eats fuel b d)) as Hd. rewrite H in Hd.
  destruct Hd as (p & -> & Hp). rewrite length_app. destruct p; [done | simpl; lia].
Qed.

Lemma decodeInt_fuel b : decodeInt b <> Err EFuel.
Proof.
  unfold decodeInt. case_match; [done |].
  destruct (slice_cases (E := error) b 1 (IndexByte b 101)) as [-> | ->]; [| done]. cbn [mbind res_bind].
  case_match; [| done].
  destruct (slice_cases (E := error) b (IndexByte b 101 + 1) (zlen b)) as [-> | ->]; done.
Qed.

Lemma decodeString_fuel b : decodeString b <> Err EFuel.
Proof.
  unfold decodeString. case_match; [done |].
  destruct (slice_cases (E := error) b 0 (IndexByte b 58)) as [-> | ->]; [| done]. cbn [mbind res_bind].
  destruct (ParseInt _) as [n |]; [| done]. case_match; [done |].
  set (stop := int64 _). 
  destruct (slice_cases (E := error) b (IndexByte b 58 + 1) stop) as [-> | ->]; [| done]. cbn [mbind res_bind].
  destruct (slice_cases (E := error) b stop (zlen b)) as [-> | ->]; done.
Qed.

(** Enough fuel for an input of any length: the decoder never runs out. *)
Lemma decode_fuel fuel : forall b d,
  ((2 * length b + 1 <= fuel)%nat -> decode fuel b d <> Err EFuel)
  /\ ((2 * length b + 2 <= fuel)%nat ->
      forall out out', decodeList fuel b d out <> Err EFuel /\ decodeDict fuel b d out' <> Err EFuel).
Proof.
  induction fuel as [| fuel IH]; intros b d; [lia |].
  split; [intros Hf | intros Hf out out'; split]; cbn [decode decodeList decodeDict];
    destruct b as [| c r]; cbn [length] in Hf; try done.
  - case_match; [done |]. case_match.
    { apply decodeInt_fuel. }
    case_match; [apply (proj2 (IH r d) ltac:(lia) [] []) |]. case_match; [apply (proj2 (IH r d) ltac:(lia) [] []) |].
    case_match; [apply decodeString_fuel | done].
  - case_match; [done |].
    destruct (decode fuel (c :: r) (d + 1)) as [[v rest] | e |] eqn:Hv; cbn [mbind res_bind]; [| | done].
    + apply decode_shorter in Hv. cbn [length] in Hv. apply (proj2 (IH rest d) ltac:(lia) _ []).
    + intros [= ->]. apply (proj1 (IH (c :: r) (d + 1))) in Hv; [done | cbn [length]; lia].
  - case_match; [done |].
    destruct (decode fuel (c :: r) (d + 1)) as [[k rest] | e |] eqn:Hk; cbn [mbind res_bind]; [| | done].
    + apply decode_shorter in Hk. cbn [length] in Hk. destruct k; try done.
      destruct (decode fuel rest (d + 1)) as [[v rest'] | e |] eqn:Hv; cbn [mbind res_bind]; [| | done].
      * apply decode_shorter in Hv. apply (proj2 (IH rest' d) ltac:(lia) [] _).
      * intros [= ->]. apply (proj1 (IH rest (d + 1))) in Hv; [done | lia].
    + intros [= ->]. apply (proj1 (IH (c :: r) (d + 1))) in Hk; [done | cbn [length]; lia].
Qed.

(** ** Lemmas: where the decoder panics *)

Lemma decodeInt_no_panic b : decodeInt b <> Panic.
Proof.
  unfold decodeInt. case_match eqn:He; [done |]. bool_hyps.
  destruct (IndexByte_found b 101) as (a & r & Hb & Ha); [lia |].
  assert (zlen b = IndexByte b 101 + 1 + zlen r) as Hl
    by (rewrite Hb at 1; rewrite zlen_app, zlen_cons; lia).
  pose proof (zlen_nonneg r).
  rewrite (slice_ok b 1 (IndexByte b 101)) by lia. cbn [mbind res_bind]. case_match; [| done].
  by rewrite slice_ok by lia.
Qed.

(** [b] holds a length so large that [colon+1+n] leaves the 64-bit range. *)
Definition oversized (b : bytes) : Prop :=
  exists pre s n post, b = pre ++ s ++ 58 :: post /\ ParseInt s = Some n /\ 2 ^ 63 <= zlen s + 1 + n.

Lemma oversized_app p b : oversized b -> oversized (p ++ b).
Proof.
  intros (pre & s & n & post & -> & H1 & H2). exists (p ++ pre), s, n, post.
  by rewrite <- app_assoc.
Qed.

Lemma decodeString_panic b : decodeString b = Panic -> oversized b.
Proof.
  unfold decodeString. destruct (Z.ltb_spec (IndexByte b 58) 1); [done |].
  destruct (IndexByte_found b 58) as (s & post & Hb & Hs); [lia |].
  assert (zlen b = IndexByte b 58 + 1 + zlen post) as Hl
    by (rewrite Hb at 1; rewrite zlen_app, zlen_cons; lia).
  pose proof (zlen_nonneg post).
  rewrite (slice_ok b 0 (IndexByte b 58)) by lia. cbn [mbind res_bind].
  replace (sub b 0 (IndexByte b 58)) with s by (rewrite <- Hs, Hb; by rewrite sub_app_head).
  destruct (ParseInt s) as [n |] eqn:Hn; [| done].
  destruct (decide (2 ^ 63 <= zlen s + 1 + n)) as [Ho | Ho].
  { intros _. exists [], s, n, post. done. }
  case_match eqn:Hg; [done |]. bool_hyps. rewrite int64_small in * by lia.
  rewrite (slice_ok b (IndexByte b 58 + 1)) by lia. cbn [mbind res_bind]. by rewrite slice_ok by lia.
Qed.

Lemma decode_panic fuel : forall b d,
  (decode fuel b d = Panic -> oversized b)
  /\ (forall out, decodeList fuel b d out = Panic -> oversized b)
  /\ (forall out, decodeDict fuel b d out = Panic -> oversized b).
Proof.
  induction fuel as [| fuel IH]; intros b d; [done |].
  split; [| split; intros out]; cbn [decode decodeList decodeDict]; destruct b as [| c r]; try done.
  - case_match; [done |]. case_match; [by intros ?%decodeInt_no_panic |].
    case_match; [intros H'; apply (oversized_app [c]); exact (proj1 (proj2 (IH r d)) _ H') |].
    case_match; [intros H'; apply (oversized_app [c]); exact (proj2 (proj2 (IH r d)) _ H') |].
    case_match; [apply decodeString_panic | done].
  - case_match; [done |]. rewrite bind_panic. intros [Hp | ([v rest] & Hv & Hp)].
    + by apply (IH (c :: r) (d + 1)).
    + pose proof (proj1 (decode_eats fuel (c :: r) (d + 1))) as Hd. rewrite Hv in Hd.
      destruct Hd as (p & -> & _). apply oversized_app. exact (proj1 (proj2 (IH rest d)) _ Hp).
  - case_match; [done |]. rewrite bind_panic. intros [Hp | ([k rest] & Hk & Hp)].
    + by apply (IH (c :: r) (d + 1)).
    + pose proof (proj1 (decode_eats fuel (c :: r) (d + 1))) as Hd. rewrite Hk in Hd.
      destruct Hd as (p & -> & _). apply oversized_app. destruct k; try done.
      apply bind_panic in Hp as [Hp | ([v rest'] & Hv & Hp)]; [by apply (IH rest (d + 1)) |].
      pose proof (proj1 (decode_eats fuel rest (d + 1))) as Hd. rewrite Hv in Hd.
      destruct Hd as (q & -> & _). apply oversized_app. exact (proj2 (proj2 (IH rest' d)) _ Hp).
Qed.

(** ** Lemmas: decoding an encoding *)

Lemma encode_head v bs : encode v = Ok bs -> encodable v -> exists c r, bs = c :: r /\ c <> 101.
Proof.
  assert (forall s r, exists c r', encString s ++ r = c :: r' /\ c <> 101) as Hstr.
  { intros s r. unfold encString. rewrite Itoa_pos by apply zlen_nonneg.
    destruct (Utoa_head (zlen s) (zlen_nonneg s)) as (c & r' & -> & Hc). simpl.
    eexists _, _. split; [done |]. apply (is_digit_not c 101 Hc). done. }
  destruct v as [s | s | n | n | l | d |]; cbn [encode]; intros H Hv; invert_ok;
    try (by destruct Hv); try (destruct (Hstr s []) as (c & r' & H & ?); rewrite app_nil_r in H; eauto);
    eexists _, _; (split; [reflexivity | done]).
Qed.

Lemma decodeInt_encInt n rest : - 2 ^ 63 <= n < 2 ^ 63 ->
  decodeInt (encInt n ++ rest) = Ok (VInt64 n, rest).
Proof.
  intros H. unfold encInt, decodeInt.
  assert (101 ∉ Itoa n) as Hin.
  { unfold Itoa. destruct (Z.ltb_spec n 0); [apply not_elem_of_cons; split; [done |] |]; by apply Utoa_not_in; [lia |]. }
  assert (1 <= zlen (Itoa n)) as Hl.
  { unfold Itoa. destruct (Z.ltb_spec n 0); rewrite ?zlen_cons;
      [pose proof (zlen_nonneg (Utoa (- n))); lia | apply zlen_Utoa; lia]. }
  change ((105 :: Itoa n ++ [101]) ++ rest) with ((105 :: []) ++ (Itoa n ++ [101]) ++ rest).
  rewrite <- (app_assoc (Itoa n) [101] rest). cbn [app].
  change (105 :: Itoa n ++ 101 :: rest) with ((105 :: Itoa n) ++ 101 :: rest).
  rewrite IndexByte_app by (apply not_elem_of_cons; done). rewrite zlen_cons.
  rewrite (proj2 (Z.ltb_ge _ 2)) by lia.
  change ((105 :: Itoa n) ++ 101 :: rest) with ([105] ++ Itoa n ++ 101 :: rest).
  pose proof (zlen_nonneg rest).
  assert (zlen ([105] ++ Itoa n ++ 101 :: rest) = 2 + zlen (Itoa n) + zlen rest) as Ht
    by (unfold zlen; rewrite !length_app; cbn [length]; lia).
  rewrite (slice_ok _ 1 (1 + zlen (Itoa n))) by lia. cbn [mbind res_bind].
  rewrite sub_app_exact by (change (zlen [105]) with 1; lia).
  rewrite ParseInt_Itoa by done. rewrite slice_ok by lia. cbn [mbind res_bind].
  rewrite Ht. replace ([105] ++ Itoa n ++ 101 :: rest) with (([105] ++ Itoa n ++ [101]) ++ rest)
    by (simpl; by rewrite <- app_assoc).
  rewrite sub_app_tail; [done | |]; rewrite !zlen_app; change (zlen [105]) with 1; change (zlen [101]) with 1; lia.
Qed.

(** [decode] reads back a value that was encoded in front of anything. *)
Definition decodes (v : value) : Prop := forall bs fuel d rest,
  encode v = Ok bs -> encodable v -> 0 <= d -> d + height v <= 32 ->
  (2 * length (bs ++ rest) + 1 <= fuel)%nat -> decode fuel (bs ++ rest) d = Ok (norm v, rest).

Lemma decode_string v s : encode v = Ok (encString s) -> norm v = VString s -> zlen s < 2 ^ 62 ->
  height v = 0 -> decodes v.
Proof.
  intros He Hn Hs Hh bs fuel d rest Hb _ Hd1 Hd2 Hf. rewrite He in Hb. injection Hb as <-. rewrite Hn.
  pose proof (zlen_nonneg s). pose proof (zlen_Utoa (zlen s) ltac:(lia)).
  destruct fuel as [| fuel]; [lia |]. cbn [decode].
  assert (exists c r, encString s ++ rest = c :: r /\ is_digit c = true) as (c & r & Hc & Hdig).
  { unfold encString. rewrite Itoa_pos by lia.
    destruct (Utoa_head (zlen s)) as (c & r & -> & ?); [lia |]. simpl. eauto. }
  rewrite Hc, Hdig, <- Hc, decodeString_encString by lia.
  rewrite (proj2 (Z.ltb_ge 32 d)) by lia.
  rewrite (proj2 (Z.eqb_neq c 105)), (proj2 (Z.eqb_neq c 108)), (proj2 (Z.eqb_neq c 100))
    by (apply (is_digit_not c _ Hdig); done). done.
Qed.

Lemma decode_int v n : encode v = Ok (encInt n) -> norm v = VInt64 n -> - 2 ^ 63 <= n < 2 ^ 63 ->
  height v = 0 -> decodes v.
Proof.
  intros He Hn Hr Hh bs fuel d rest Hb _ Hd1 Hd2 Hf. rewrite He in Hb. injection Hb as <-. rewrite Hn.
  destruct fuel as [| fuel]; [lia |].
  change (decode (S fuel) (encInt n ++ rest) d) with
    (if 32 <? d then Err EBencode else decodeInt (encInt n ++ rest)).
  rewrite (proj2 (Z.ltb_ge 32 d)) by lia. by apply decodeInt_encInt.
Qed.

Lemma decode_items l : Forall decodes l -> forall es fuel d out rest,
  encItems (map encode l) = Ok es -> encodable (VList l) -> 0 <= d -> d + height (VList l) <= 32 ->
  (2 * length (es ++ 101%Z :: rest) + 2 <= fuel)%nat ->
  decodeList fuel (es ++ 101 :: rest) d out = Ok (VList (out ++ map norm l), rest).
Proof.
  induction 1 as [| v l Hv _ IH]; intros es fuel d out rest He Hen Hd1 Hd2 Hf;
    destruct fuel as [| fuel]; try lia; cbn [map encItems] in He.
  { injection He as <-. cbn. by rewrite app_nil_r. }
  invert_ok. destruct Hen as [Hev Hel]. cbn [height fold_right] in Hd2.
  match goal with H : encode v = Ok ?a, H' : encItems _ = Ok ?b |- _ => rename H into He1, H' into He2; rename a into e, b into es end.
  rewrite <- app_assoc in *.
  destruct (encode_head v e He1 Hev) as (c & r & -> & Hc). cbn [decodeList app].
  rewrite (proj2 (Z.eqb_neq c 101)) by done.
  change (c :: r ++ es ++ 101 :: rest) with ((c :: r) ++ es ++ 101 :: rest).
  rewrite (Hv _ fuel (d + 1) (es ++ 101 :: rest) He1) by (try done; lia). cbn [mbind res_bind].
  rewrite (IH es fuel d (out ++ [norm v]) rest He2); [| done | done | cbn [height]; lia |].
  - by rewrite <- app_assoc.
  - rewrite length_app in Hf. cbn [length] in Hf. lia.
Qed.

(** What [encodable] and [height] say of one entry of a dictionary. *)
Lemma dict_entry d k v : encodable (VDict d) -> assoc k d = Some v ->
  zlen k < 2 ^ 62 /\ encodable v /\ 1 + height v <= height (VDict d).
Proof.
  intros [_ H] Hk. cbn [height]. revert H Hk. induction d as [| [k' v'] d IH]; simpl; [done |].
  intros (H1 & H2 & H3). case_bool_decide as Hb; intros Hk.
  - injection Hk as ->. subst. repeat split; [done .. | lia].
  - destruct (IH H3 Hk) as (? & ? & ?). repeat split; [done .. | lia].
Qed.

Lemma assoc_Forall (P : value -> Prop) d k v :
  Forall (fun kv => P kv.2) d -> assoc k d = Some v -> P v.
Proof. intros H Hk%assoc_elem. rewrite Forall_forall in H. apply (H _ Hk). Qed.

Lemma decode_pairs d0 : Forall (fun kv => decodes kv.2) d0 -> encodable (VDict d0) ->
  forall keys es fuel d out rest,
  encPairs (map (fun kv => match kv with (k, x) => (k, encode x) end) d0) keys = Ok es ->
  NoDup keys -> Forall (fun k => k ∉ map fst out) keys ->
  0 <= d -> d + height (VDict d0) <= 32 ->
  (2 * length (es ++ 101%Z :: rest) + 2 <= fuel)%nat ->
  decodeDict fuel (es ++ 101 :: rest) d out =
    Ok (VDict (out ++ reorder (map (fun kv => match kv with (k, x) => (k, norm x) end) d0) keys), rest).
Proof.
  intros Hdec Hen. induction keys as [| k keys IH]; intros es fuel d out rest He Hnd Hout Hd1 Hd2 Hf;
    destruct fuel as [| fuel]; try lia; cbn [encPairs] in He.
  { injection He as <-. cbn. by rewrite app_nil_r. }
  rewrite assoc_map in He. unfold reorder. cbn [omap list_omap]. rewrite assoc_map.
  destruct (assoc k d0) as [v |] eqn:Hk; simpl in He; [| done].
  invert_ok. rename x into e, x0 into es, H into He1, H0 into He2.
  destruct (dict_entry d0 k v Hen Hk) as (Hkl & Hev & Hh).
  pose proof (assoc_Forall _ _ _ _ Hdec Hk) as Hv.
  apply NoDup_cons in Hnd as [Hk1 Hnd]. inversion_clear Hout as [| ? ? Hk2 Hout'].
  replace ((encString k ++ e ++ es) ++ 101 :: rest) with (encString k ++ e ++ es ++ 101 :: rest)
    in * by (by rewrite !app_assoc).
  assert (0 <= height v) as Hhv by (clear; destruct v; simpl; try lia; induction l || induction d; simpl; lia).
  destruct (encode_head (VString k) _ eq_refl Hkl) as (c & r & Hc & Hc').
  replace (decodeDict (S fuel) (encString k ++ e ++ es ++ 101 :: rest) d out) with
    ('(k, rest) ← decode fuel (encString k ++ e ++ es ++ 101 :: rest) (d + 1);
        match k with
        | VString key =>
          '(v, rest) ← decode fuel rest (d + 1);
          decodeDict fuel rest d (set key v out)
        | _ => Err EBencode
        end) by (rewrite Hc; cbn [decodeDict app]; by rewrite (proj2 (Z.eqb_neq c 101))).
  assert (1 <= length (encString k))%nat by (rewrite Hc; simpl; lia).
  rewrite (decode_string (VString k) k eq_refl eq_refl Hkl eq_refl _ fuel (d + 1) (e ++ es ++ 101 :: rest) eq_refl)
    by (cbn [height encodable]; try done; rewrite ?length_app in *; simpl in *; lia).
  cbn [mbind res_bind norm].
  rewrite (Hv e fuel (d + 1) (es ++ 101 :: rest) He1) by (try done; rewrite ?length_app in *; simpl in *; lia).
  cbn [mbind res_bind]. rewrite set_fresh by done.
  rewrite (IH es fuel d); [| done | done | | done | done | rewrite ?length_app in *; simpl in *; lia].
  - by rewrite <- app_assoc.
  - rewrite Forall_forall in *. intros k' Hk' Hin. rewrite map_app in Hin.
    apply elem_of_app in Hin as [Hin | Hin%list_elem_of_singleton]; [by apply (Hout' k') |].
    simpl in Hin. by subst.
Qed.

Lemma decode_encode v : decodes v.
Proof.
  induction v as [s | s | n | n | l Hl | d Hd |] using value_ind';
    intros bs fuel dep rest He Hen Hd1 Hd2 Hf.
  - by apply (decode_string (VString s) s).
  - by apply (decode_string (VBytes s) s).
  - by apply (decode_int (VInt n) n).
  - by apply (decode_int (VInt64 n) n).
  - cbn [encode] in He. invert_ok. destruct fuel as [| fuel]; [lia |].
    change (decode (S fuel) ((108 :: x ++ [101]) ++ rest) dep) with
      (if 32 <? dep then Err EBencode else decodeList fuel ((x ++ [101]) ++ rest) dep []).
    cbn [app] in *. rewrite <- app_assoc in *.
    assert (0 <= height (VList l)) by (clear; simpl; induction l; simpl; lia).
    rewrite (proj2 (Z.ltb_ge 32 dep)) by lia.
    apply (decode_items l Hl x fuel dep [] rest); try done. simpl in Hf. simpl. lia.
  - cbn [encode] in He. invert_ok. destruct fuel as [| fuel]; [lia |].
    change (decode (S fuel) ((100 :: x ++ [101]) ++ rest) dep) with
      (if 32 <? dep then Err EBencode else decodeDict fuel ((x ++ [101]) ++ rest) dep []).
    cbn [app] in *. rewrite <- app_assoc in *.
    assert (0 <= height (VDict d)) by (clear; simpl; induction d; simpl; lia).
    rewrite (proj2 (Z.ltb_ge 32 dep)) by lia.
    change ([101] ++ rest) with (101 :: rest).
    rewrite (decode_pairs d Hd Hen _ x fuel dep [] rest H); try done.
    + cbn [norm app]. by rewrite !map_fst_map.
    + rewrite sortKeys_perm, map_fst_map. apply Hen.
    + apply Forall_true. intros k. by intros ?%elem_of_nil.
    + simpl in Hf. simpl. lia.
  - by destruct Hen.
Qed.

Lemma encItems_total l : Forall (fun v => encodable v -> exists bs, encode v = Ok bs) l ->
  encodable (VList l) -> exists bs, encItems (map encode l) = Ok bs.
Proof.
  induction 1 as [| v l Hv _ IH]; [by exists [] |]. intros [H1 H2]. cbn.
  destruct (Hv H1) as [e ->]. destruct (IH H2) as [es ->]. eexists. done.
Qed.

Lemma encPairs_total (d : list (bytes * res error bytes)) keys :
  Forall (fun k => exists e, assoc k d = Some (Ok e)) keys -> exists bs, encPairs d keys = Ok bs.
Proof.
  induction 1 as [| k keys [e He] _ [es IH]]; [by exists [] |]. cbn. rewrite He. cbn.
  rewrite IH. eexists. done.
Qed.

Lemma encode_total v : encodable v -> exists bs, encode v = Ok bs.
Proof.
  induction v as [s | s | n | n | l Hl | d Hd |] using value_ind'; intros Hen; cbn [encode]; eauto; [| | done].
  - destruct (encItems_total l Hl Hen) as [es ->]. eexists. done.
  - match goal with |- context [encPairs ?ed ?ks] => destruct (encPairs_total ed ks) as [es ->] end;
      [| eexists; done].
    rewrite Forall_forall. intros k Hk. rewrite sortKeys_perm, map_fst_map in Hk.
    rewrite assoc_map. destruct (assoc_in k d Hk) as [v Hv].
    destruct (assoc_Forall (fun v => encodable v -> exists bs, encode v = Ok bs) _ _ _ Hd Hv) as [e He]; [by eapply dict_entry |].
    exists e. by rewrite Hv, <- He.
Qed.

(** ** Properties *)

(** Whatever value the encoder can represent (nested at most 32 deep), its
    encoding succeeds and decodes, with nothing left over, to the same value:
    strings as strings, integers as [int64], lists item by item, dictionaries
    as the same map (read in the order of the sorted keys). *)
Theorem Decode_Encode (v : value) (Hv : encodable v) (Hh : height v <= 32) :
  exists bs, Encode v = Ok bs /\ Decode bs = Ok (norm v).
Proof.
  destruct (encode_total v Hv) as [bs Hbs]. exists bs. split; [done |].
  unfold Decode. rewrite <- (app_nil_r bs) at 2.
  rewrite (decode_encode v bs _ 0 [] Hbs Hv) by (rewrite ?app_nil_r; lia).
  done.
Qed.

(** The decoder terminates on every input with a value or an error, and
    the only inputs on which it does anything else (an index out of range, a
    crash of the reading goroutine) hold a string length that makes
    [colon+1+n] exceed [2^63-1]. *)
Theorem Decode_total (b : bytes) :
  Decode b <> Err EFuel /\ (Decode b = Panic -> oversized b).
Proof.
  unfold Decode. split.
  - destruct (decode _ b 0) as [[v rest] | e |] eqn:Hd; simpl; [by case_match | | done].
    intros [= ->]. apply (proj1 (decode_fuel _ b 0)) in Hd; [done | lia].
  - rewrite bind_panic. intros [Hp | ([v rest] & _ & Hp)]; [| by case_match].
    exact (proj1 (decode_panic _ b 0) Hp).
Qed.

(** Such a length does crash the decoder: the test [colon+1+n > len(b)]
    wraps around to a negative number and passes, and the slice expression
    panics. *)
Theorem Decode_oversized (n : Z) (rest : bytes)
  (Hn : n < 2 ^ 63) (Hbig : 2 ^ 63 <= zlen (Utoa n) + 1 + n) (Hrest : zlen rest < 2 ^ 62) :
  Decode (Utoa n ++ 58 :: rest) = Panic.
Proof.
  assert (0 <= n) as H0.
  { destruct (Z.ltb_spec n 0); [| done]. exfalso. revert Hbig. unfold Utoa.
    assert (Z.log2 n = 0) as -> by (apply Z.log2_nonpos; lia).
    cbn [Z.to_nat dec_digits]. rewrite (proj2 (Z.ltb_lt n 10)) by lia. unfold zlen. simpl. lia. }
  pose proof (zlen_Utoa n ltac:(lia)). destruct (Utoa_head n H0) as (c & r & Hc & Hdig).
  unfold Decode. rewrite <- Nat.add_succ_comm, Nat.add_comm. cbn [Nat.add].
  assert (forall fuel, decode (S fuel) (Utoa n ++ 58 :: rest) 0 = decodeString (Utoa n ++ 58 :: rest)) as ->.
  { intros fuel. rewrite Hc. cbn [app decode]. rewrite Hdig.
    rewrite (proj2 (Z.eqb_neq c 105)), (proj2 (Z.eqb_neq c 108)), (proj2 (Z.eqb_neq c 100))
      by (apply (is_digit_not c _ Hdig); done). done. }
  rewrite decodeString_digits by lia.
  assert (int64 (zlen (Utoa n) + 1 + n) = zlen (Utoa n) + 1 + n - 2 ^ 64) as Hw.
  { unfold int64. replace (zlen (Utoa n) + 1 + n + 2 ^ 63) with ((zlen (Utoa n) + 1 + n - 2 ^ 63) + 1 * 2 ^ 64) by lia.
    rewrite Z.mod_add, Z.mod_small by lia. lia. }
  rewrite Hw. pose proof (zlen_nonneg rest). rewrite (proj2 (Z.ltb_ge _ _)) by lia.
  by rewrite (slice_panic _ (zlen (Utoa n) + 1)) by lia.
Qed.

(** ** Witnesses *)

Definition ping : value :=
  VDict [(str "t", VBytes (str "aa")); (str "y", VString (str "q")); (str "q", VString (str "ping"));
         (str "a", VDict [(str "id", VBytes (str "abcdefghij0123456789")); (str "l", VList [VInt (-3); VInt64 7])])].

Lemma Decode_Encode_witness : exists bs, Encode ping = Ok bs /\ Decode bs = Ok (norm ping).
Proof.
  apply Decode_Encode.
  - repeat split; try (apply (bool_decide_unpack (NoDup _)); vm_compute; exact I); vm_compute; done.
  - vm_compute. done.
Defined.

Lemma Decode_total_witness : oversized (str "l9223372036854775807:e").
Proof. apply Decode_total. vm_compute. reflexivity. Defined.

Lemma Decode_oversized_witness : Decode (Utoa 9223372036854775800 ++ 58 :: str "x") = Panic.
Proof. apply Decode_oversized; vm_compute; done. Defined.

End bencode.
