(* ===== verification/Dht.v ===== *)
(** The mainline DHT client (internal/dht/dht.go): the compact node list, the
    matching of answers to queries, and the iterative lookup [GetPeers] with
    [Announce].

    The contacts of a lookup are shared by pointer between the list [closer],
    the batch of a round and the goroutines that handle the answers, so they
    live in a heap and the lists hold their positions. The network is an
    argument: what each round's queries were answered, in the order in which
    the goroutines took the lock. Name resolution of the bootstrap list is not
    modelled: its result is the argument [bootstrap]. *)
From stdpp Require Import base list gmap sets strings sorting.
From Stdlib Require Import ZArith Lia.
From S2P Require Import Prelude GoStrings Netip Bencode.

Open Scope Z_scope.

Module dht.
Import bencode.

Definition alpha : Z := 3.
Definition k : Z := 8.
Definition maxRounds : nat := 12.

Abbreviation dict := (list (bytes * value)).

(** [v, ok := m[key].(string)] *)
Definition get_string (key : bytes) (m : dict) : option bytes :=
  match assoc key m with Some (VString s) => Some s | _ => None end.

(** [v, _ := m[key].(string)]: the zero value when it is not a string. *)
Definition string_or_empty (key : bytes) (m : dict) : bytes := default [] (get_string key m).

(** ** The client: queries and answers *)

(** A channel is the number of the query that waits on it. *)
Record Client := MkClient {
  self : bytes; seq : Z; pending : gmap bytes nat; closed : bool }.

Definition Close (c : Client) : Client := MkClient (self c) (seq c) (pending c) true.

(** What [read] does with one datagram: the channel that gets the message. *)
Definition read (c : Client) (buf : bytes) : res error (option (nat * dict) * Client) :=
  match Decode buf with
  | Panic => Panic
  | Ok (VDict m) =>
    let t := string_or_empty (str "t") m in
    let y := string_or_empty (str "y") m in
    if negb (bool_decide (y = str "r")) && negb (bool_decide (y = str "e")) then Ok (None, c)
    else Ok ((fun ch => (ch, m)) <$> pending c !! t,
             MkClient (self c) (seq c) (delete t (pending c)) (closed c))
  | _ => Ok (None, c)
  end.

(** The message of a query with transaction id [t]. *)
Definition message (c : Client) (t q : bytes) (args : dict) : value :=
  let m := [(str "t", VString t); (str "y", VString (str "q")); (str "q", VString q);
            (str "a", VDict (set (str "id") (VString (self c)) args))] in
  VDict (if bool_decide (q = str "announce_peer") then m else m ++ [(str "ro", VInt 1)]).

(** The first half of [query]: [None] when the client is closed. *)
Definition query_send (c : Client) (ch : nat) (q : bytes) (args : dict)
    : option (bytes * res error bytes * Client) :=
  if closed c then None
  else
    let seq' := u16 (seq c + 1) in
    let t := [u8 (Z.shiftr seq' 8); u8 seq'] in
    let c' := MkClient (self c) seq' (<[t := ch]> (pending c)) (closed c) in
    Some (t, Encode (message c' t q args), c').

(** The second half: the answer's "r" dictionary, [None] on an error answer. *)
Definition query_result (m : dict) : option dict :=
  match assoc (str "r") m with Some (VDict r) => Some r | _ => None end.

(** The deferred [delete]. *)
Definition query_done (c : Client) (t : bytes) : Client :=
  MkClient (self c) (seq c) (delete t (pending c)) (closed c).

(** ** The compact node list *)

Record contact := MkContact { id : bytes; addr : AddrPort; token : bytes; asked : bool }.

Definition distance (a b : bytes) : bytes := xor_bytes a b.

Definition compactAddr (s : bytes) : AddrPort := MkAddrPort (AddrFrom4 (sub s 0 4)) (be (sub s 4 6)).

Fixpoint nodes_from (fuel : nat) (s : bytes) : list contact :=
  match fuel with
  | O => []
  | S fuel =>
    if 26 <=? zlen s then
      let c := MkContact (sub s 0 20) (compactAddr (sub s 20 26)) [] false in
      let out := nodes_from fuel (sub s 26 (zlen s)) in
      if negb (ap_port (addr c) =? 0) && negb (IsUnspecified (ap_addr (addr c))) then c :: out else out
    else []
  end.

(** Each turn of the loop removes 26 bytes: the length is enough fuel. *)
Definition nodes (s : bytes) : list contact := nodes_from (length s) s.

(** ** The lookup *)

Record lookup := MkLookup {
  heap : list contact;
  closer : list nat;
  seen : gset AddrPort;
  peers : list AddrPort;
  sent : list (list AddrPort); (* the addresses queried, one list per round *)
  asks : list (list nat)       (* the contacts they are of *) }.

Definition lookup0 : lookup := MkLookup [] [] ∅ [] [] [].

Definition add (st : lookup) (ct : contact) : lookup :=
  if bool_decide (addr ct ∈ seen st) then st
  else MkLookup (heap st ++ [ct]) (closer st ++ [length (heap st)]) ({[addr ct]} ∪ seen st)
         (peers st) (sent st) (asks st).

Definition add_all (st : lookup) (l : list contact) : lookup := fold_left add l st.

Definition contains (l : list AddrPort) (a : AddrPort) : bool := existsb (fun x => bool_decide (x = a)) l.

Definition add_peer (ps : list AddrPort) (v : value) : list AddrPort :=
  match v with
  | VString s =>
    if zlen s =? 6 then
      let ap := compactAddr s in
      if contains ps ap then ps else ps ++ [ap]
    else ps
  | _ => ps
  end.

Definition set_contact (st : lookup) (p : nat) (f : contact -> contact) : lookup :=
  MkLookup (alter f p (heap st)) (closer st) (seen st) (peers st) (sent st) (asks st).

Definition set_peers (st : lookup) (ps : list AddrPort) : lookup :=
  MkLookup (heap st) (closer st) (seen st) ps (sent st) (asks st).

(** What the goroutine of contact [p] does with the result of its query. *)
Definition answer (st : lookup) (p : nat) (r : option dict) : lookup :=
  match r with
  | None => st
  | Some r =>
    let st := set_contact st p (fun ct =>
      MkContact (match get_string (str "id") r with
                 | Some i => if zlen i =? 20 then i else id ct
                 | None => id ct
                 end) (addr ct) (string_or_empty (str "token") r) (asked ct)) in
    let st := match assoc (str "values") r with
              | Some (VList vals) => set_peers st (fold_left add_peer vals (peers st))
              | _ => st
              end in
    match get_string (str "nodes") r with
    | Some ns => add_all st (nodes ns)
    | None => st
    end
  end.

(** [bytes.Compare(a, b) < 0] *)
Definition bytes_lt (a b : bytes) : bool := negb (bytes_leb b a).

Definition contact0 : contact := MkContact [] AddrPortZero [] false.
Definition at_ (h : list contact) (p : nat) : contact := nth p h contact0.

Definition nearer (ih : bytes) (h : list contact) (i j : nat) : bool :=
  bytes_lt (distance (id (at_ h i)) ih) (distance (id (at_ h j)) ih).

(** The batch of a round: the first [alpha] contacts not asked yet. *)
Fixpoint pick (h : list contact) (batch ps : list nat) : list contact * list nat :=
  match ps with
  | [] => (h, batch)
  | p :: ps =>
    if negb (asked (at_ h p)) && (zlen batch <? alpha) then
      pick (alter (fun ct => MkContact (id ct) (addr ct) (token ct) true) p h) (batch ++ [p]) ps
    else pick h batch ps
  end.

Section GetPeers.
(** [sort.Slice] is not stable: of its result only the documented facts are
    used, that it is a permutation in the order asked for. *)
Context (sortSlice : (nat -> nat -> bool) -> list nat -> list nat).
(** The results of a round's queries in the order they are handled, and
    whether the context is done when a round starts. *)
Context (net : nat -> list nat -> list (nat * option dict)).
Context (done : nat -> bool).

Definition sortCloser (ih : bytes) (st : lookup) : lookup :=
  MkLookup (heap st) (sortSlice (nearer ih (heap st)) (closer st)) (seen st) (peers st) (sent st) (asks st).

Definition choose (st : lookup) : lookup * list nat :=
  let '(h, batch) := pick (heap st) [] (take (Z.to_nat (Z.min (zlen (closer st)) k)) (closer st)) in
  (MkLookup h (closer st) (seen st) (peers st) (sent st) (asks st), batch).

Definition send (st : lookup) (batch : list nat) : lookup :=
  MkLookup (heap st) (closer st) (seen st) (peers st)
    (sent st ++ [map (fun p => addr (at_ (heap st) p)) batch]) (asks st ++ [batch]).

Fixpoint rounds (n round : nat) (ih : bytes) (st : lookup) : lookup :=
  match n with
  | O => st
  | S n =>
    if done round then st
    else
      let '(st, batch) := choose (sortCloser ih st) in
      match batch with
      | [] => st
      | _ =>
        let st := send st batch in
        rounds n (S round) ih (fold_left (fun st pr => answer st pr.1 pr.2) (net round batch) st)
      end
  end.

Fixpoint best_of (h : list contact) (best : list contact) (ps : list nat) : list contact :=
  match ps with
  | [] => best
  | p :: ps =>
    if negb (bool_decide (token (at_ h p) = [])) && (zlen best <? k)
    then best_of h (best ++ [at_ h p]) ps
    else best_of h best ps
  end.

(** The state at the end of the rounds, then the two results. *)
Definition run_rounds (bootstrap : list AddrPort) (ih : bytes) : lookup :=
  sortCloser ih (rounds maxRounds 0 ih
    (add_all lookup0 (map (fun a => MkContact ih a [] false) bootstrap))).

Definition GetPeers (bootstrap : list AddrPort) (ih : bytes) : list AddrPort * list contact :=
  let st := run_rounds bootstrap ih in
  (peers st, best_of (heap st) [] (closer st)).

(** The peers found and the announcements sent. *)
Definition Announce (bootstrap : list AddrPort) (ih : bytes) (port : Z)
    : list AddrPort * list (AddrPort * dict) :=
  let '(ps, closest) := GetPeers bootstrap ih in
  (ps, map (fun ct => (addr ct,
         [(str "info_hash", VString ih); (str "port", VInt port); (str "token", VString (token ct));
          (str "implied_port", VInt 0)])) closest).

End GetPeers.
(** ** Lemmas: the invariant of a lookup *)

Lemma contains_spec l a : contains l a = bool_decide (a ∈ l).
Proof.
  induction l as [| x l IH]; [done |]. simpl. rewrite IH.
  apply eq_true_iff_eq. rewrite orb_true_iff, !bool_decide_eq_true, elem_of_cons. naive_solver.
Qed.

Lemma add_peer_nodup ps v : NoDup ps -> NoDup (add_peer ps v).
Proof.
  intros H. destruct v; try done. cbn [add_peer]. case_match; [| done].
  rewrite contains_spec. case_bool_decide as Hc; [done |].
  apply NoDup_app. split; [done |]. split; [| apply NoDup_singleton].
  intros a Ha Ha'%list_elem_of_singleton. by subst.
Qed.

Lemma add_peers_nodup vs ps : NoDup ps -> NoDup (fold_left add_peer vs ps).
Proof. revert ps. induction vs; intros ps H; simpl; [done |]. by apply IHvs, add_peer_nodup. Qed.

Record inv (st : lookup) : Prop := {
  inv_closer : closer st ≡ₚ List.seq 0 (length (heap st));
  inv_addrs : NoDup (map addr (heap st));
  inv_seen : forall a, a ∈ seen st <-> a ∈ map addr (heap st);
  inv_sent : concat (sent st) ≡ₚ map addr (filter (fun ct => asked ct = true) (heap st));
  inv_alpha : Forall (fun b => zlen b <= alpha) (sent st);
  inv_peers : NoDup (peers st);
  inv_token : Forall (fun ct => token ct <> [] -> asked ct = true) (heap st) }.

Lemma inv0 : inv lookup0.
Proof.
  split; simpl; try constructor; try done; try set_solver.
Qed.

(** A contact that has no token yet and was not asked joins the list. *)
Definition fresh (ct : contact) : Prop := asked ct = false /\ token ct = [].

Lemma add_inv st ct : fresh ct -> inv st -> inv (add st ct).
Proof.
  intros [Ha Ht] [H1 H2 H3 H4 H5 H6 H7]. unfold add. case_bool_decide as Hs; [done |]. split; simpl; try done.
  - rewrite length_app, Nat.add_comm. simpl length. cbn [Nat.add]. rewrite seq_S, H1. done.
  - rewrite map_app. apply NoDup_app. split; [done |]. split; [| apply NoDup_singleton].
    intros a Hin. simpl. intros Ha'%list_elem_of_singleton. subst. by apply Hs, H3.
  - intros a. rewrite map_app, elem_of_app, elem_of_union, H3, elem_of_singleton. simpl.
    rewrite list_elem_of_singleton. tauto.
  - rewrite H4, filter_app, filter_cons_False by congruence. rewrite filter_nil, app_nil_r. done.
  - apply Forall_app. split; [done |]. constructor; [congruence | constructor].
Qed.

Lemma add_all_inv l : forall st, Forall fresh l -> inv st -> inv (add_all st l).
Proof.
  induction l as [| ct l IH]; intros st Hl Hst; simpl; [done |].
  inversion_clear Hl. apply IH; [done |]. by apply add_inv.
Qed.

Lemma nodes_fresh s : Forall fresh (nodes s).
Proof.
  unfold nodes. generalize (length s). intros n. revert s.
  induction n as [| n IH]; intros s; cbn [nodes_from]; [constructor |].
  case_match; [| constructor]. case_match; [constructor; [done |] |]; apply IH.
Qed.

Lemma alter_cons_S {A} (f : A -> A) p x l : alter f (S p) (x :: l) = x :: alter f p l.
Proof. reflexivity. Qed.

Lemma alter_cons_0 {A} (f : A -> A) x l : alter f 0%nat (x :: l) = f x :: l.
Proof. reflexivity. Qed.

Lemma map_alter_id {A B} (g : A -> B) f p l : (forall x, g (f x) = g x) -> map g (alter f p l) = map g l.
Proof.
  intros H. revert p. induction l as [| x l IH]; intros [| p]; try done.
  - rewrite alter_cons_0. simpl. by rewrite H.
  - rewrite alter_cons_S. simpl. by rewrite IH.
Qed.

Lemma set_contact_inv st p f :
  (forall ct, addr (f ct) = addr ct) -> (forall ct, asked (f ct) = asked ct) ->
  (asked (at_ (heap st) p) = true) -> inv st -> inv (set_contact st p f).
Proof.
  intros Hf1 Hf2 Hp [H1 H2 H3 H4 H5 H6 H7]. split; simpl; try done.
  - by rewrite length_alter.
  - by rewrite map_alter_id.
  - intros a. by rewrite map_alter_id.
  - rewrite H4. clear - Hf1 Hf2. revert p. induction (heap st) as [| x l IH]; intros [| p]; try done.
    + rewrite alter_cons_0, !filter_cons, Hf2. case_decide; simpl; by rewrite ?Hf1.
    + rewrite alter_cons_S, !filter_cons. case_decide; simpl; by rewrite IH.
  - revert H7 Hp. clear - Hf2. revert p. unfold at_. induction (heap st) as [| x l IH]; intros p H7 Hp; [done |].
    inversion_clear H7. destruct p; rewrite ?alter_cons_0, ?alter_cons_S; simpl in *; constructor; auto.
    intros _. by rewrite Hf2.
Qed.

(** The goroutine of an asked contact keeps the invariant, sends nothing and
    leaves every contact asked that was. *)
Lemma add_keep st ct p : (p < length (heap st))%nat -> at_ (heap (add st ct)) p = at_ (heap st) p.
Proof.
  intros H. unfold add. case_bool_decide; [done |]. simpl. unfold at_. by apply app_nth1.
Qed.

Lemma add_all_keep l : forall st p, (p < length (heap st))%nat ->
  at_ (heap (add_all st l)) p = at_ (heap st) p /\ (length (heap st) <= length (heap (add_all st l)))%nat.
Proof.
  induction l as [| ct l IH]; intros st p H; simpl; [done |].
  assert (length (heap st) <= length (heap (add st ct)))%nat as Hl.
  { unfold add. case_bool_decide; simpl; [done |]. rewrite length_app. lia. }
  destruct (IH (add st ct) p ltac:(lia)) as [-> ?]. split; [by apply add_keep | lia].
Qed.

Lemma at_alter {A} (g : contact -> A) f p q l : (forall ct, g (f ct) = g ct) ->
  g (at_ (alter f p l) q) = g (at_ l q).
Proof.
  intros Hf. unfold at_. revert p q. induction l as [| x l IH]; intros [| p] [| q];
    rewrite ?alter_cons_0, ?alter_cons_S; simpl; done.
Qed.

Definition asked_in (st : lookup) (p : nat) : Prop :=
  (p < length (heap st))%nat /\ asked (at_ (heap st) p) = true.

Lemma answer_inv st p r : asked_in st p -> inv st ->
  inv (answer st p r) /\ sent (answer st p r) = sent st
  /\ (forall q, asked_in st q -> asked_in (answer st p r) q).
Proof.
  intros [Hp1 Hp2] Hst. destruct r as [r |]; [| done]. cbn [answer].
  set (f := fun ct => MkContact _ _ _ _).
  assert (inv (set_contact st p f)) as H1 by (by apply set_contact_inv).
  assert (forall q, asked_in st q -> asked_in (set_contact st p f) q) as K1.
  { intros q [? ?]. split; simpl; [by rewrite length_alter | by rewrite (at_alter asked)]. }
  assert (sent (set_contact st p f) = sent st) as S1 by done.
  generalize dependent (set_contact st p f). clear f. intros st1 H1 K1 S1.
  set (st2 := match assoc (str "values") r with Some (VList vals) => _ | _ => _ end).
  assert (inv st2 /\ heap st2 = heap st1 /\ sent st2 = sent st1) as (H2 & Hh & Hs).
  { unfold st2. repeat (case_match; try done). split; [| done].
    destruct H1. split; simpl; try done. by apply add_peers_nodup. }
  assert (forall q, asked_in st q -> asked_in st2 q) as K2.
  { intros q Hq. unfold asked_in. rewrite Hh. by apply K1. }
  clearbody st2. destruct (get_string (str "nodes") r) as [ns |]; [| split; [done | split; [congruence | done]]].
  split; [apply add_all_inv; [apply nodes_fresh | done] |].
  split.
  - rewrite <- S1, <- Hs. generalize (nodes ns). clear. intros l. revert st2.
    induction l as [| c l IH]; intros st2; simpl; [done |]. rewrite IH. unfold add. by case_bool_decide.
  - intros q Hq. destruct (K2 q Hq) as [? ?].
    destruct (add_all_keep (nodes ns) st2 q ltac:(done)) as [Hk ?].
    split; [lia | by rewrite Hk].
Qed.

Lemma answers_inv l : forall st, Forall (fun pr => asked_in st pr.1) l -> inv st ->
  inv (fold_left (fun st pr => answer st pr.1 pr.2) l st)
  /\ sent (fold_left (fun st pr => answer st pr.1 pr.2) l st) = sent st.
Proof.
  induction l as [| [p r] l IH]; intros st Hl Hst; simpl; [done |].
  inversion_clear Hl as [| ? ? Hp Hl']. destruct (answer_inv st p r Hp Hst) as (H1 & H2 & H3).
  destruct (IH (answer st p r)) as [H4 H5]; [| done | split; [done | congruence]].
  eapply Forall_impl; [exact Hl' | auto].
Qed.

Definition mark (ct : contact) : contact := MkContact (id ct) (addr ct) (token ct) true.

Definition with_heap (st : lookup) (h : list contact) : lookup :=
  MkLookup h (closer st) (seen st) (peers st) (sent st) (asks st).

Lemma mark_asked p h : (p < length h)%nat -> asked (at_ h p) = false ->
  map addr (filter (fun ct => asked ct = true) (alter mark p h))
  ≡ₚ addr (at_ h p) :: map addr (filter (fun ct => asked ct = true) h).
Proof.
  unfold at_. revert p. induction h as [| x h IH]; intros [| p] Hp Ha; cbn [length nth] in *; try lia.
  - rewrite alter_cons_0, !filter_cons. simpl.
    rewrite decide_False by congruence. done.
  - rewrite alter_cons_S, !filter_cons. case_decide; simpl; rewrite IH by (done || lia); [| done].
    apply Permutation_swap.
Qed.

Lemma mark_keeps p q h : (q < length h)%nat -> asked (at_ h q) = true \/ q = p ->
  asked (at_ (alter mark p h) q) = true.
Proof.
  unfold at_. revert p q. induction h as [| x h IH]; intros p q Hq Ha; [simpl in Hq; lia |].
  destruct p as [| p], q as [| q]; rewrite ?alter_cons_0, ?alter_cons_S; cbn [nth length] in *; try done.
  - by destruct Ha.
  - by destruct Ha.
  - apply IH; [lia |]. destruct Ha as [| [= ->]]; auto.
Qed.

Lemma pick_step st h batch p : inv (send (with_heap st h) batch) ->
  (p < length h)%nat -> asked (at_ h p) = false -> zlen batch < alpha ->
  inv (send (with_heap st (alter mark p h)) (batch ++ [p])).
Proof.
  intros [H1 H2 H3 H4 H5 H6 H7] Hp Ha Hb. simpl in *. split; simpl; try done.
  - by rewrite length_alter.
  - by rewrite map_alter_id.
  - intros a. by rewrite map_alter_id.
  - rewrite mark_asked by done. rewrite <- H4, !concat_app, map_app. simpl.
    rewrite !app_nil_r. rewrite (map_ext (fun p0 => addr (at_ (alter mark p h) p0)) (fun p0 => addr (at_ h p0)))
      by (intros q; by apply (at_alter addr)).
    rewrite (at_alter addr) by done. rewrite app_assoc, <- Permutation_cons_append. done.
  - apply Forall_app in H5 as [H5 H5']. apply Forall_app. split; [done |].
    constructor; [| constructor]. revert Hb. unfold zlen. rewrite !length_map, length_app. simpl. lia.
  - revert H7. clear. revert p. induction h as [| x h IH]; intros p H7; [done |]. inversion_clear H7.
    destruct p; rewrite ?alter_cons_0, ?alter_cons_S; constructor; auto.
Qed.

Lemma pick_inv st ps : forall h batch h' batch',
  pick h batch ps = (h', batch') -> Forall (fun p => (p < length h)%nat) ps ->
  Forall (fun p => (p < length h)%nat /\ asked (at_ h p) = true) batch ->
  inv (send (with_heap st h) batch) ->
  inv (send (with_heap st h') batch')
  /\ Forall (fun p => (p < length h')%nat /\ asked (at_ h' p) = true) batch'.
Proof.
  induction ps as [| p ps IH]; intros h batch h' batch' Hpk Hps Hb Hi; simpl in Hpk.
  { injection Hpk as <- <-. done. }
  inversion_clear Hps as [| ? ? Hp Hps']. case_match eqn:Hc; [| by eapply IH]. bool_hyps.
  eapply IH; [exact Hpk | | | by apply pick_step].
  - eapply Forall_impl; [exact Hps' |]. intros q Hq. simpl. by rewrite length_alter.
  - apply Forall_app. rewrite length_alter. split.
    + eapply Forall_impl; [exact Hb |]. intros q [? Hq]. split; [done |]. apply mark_keeps; auto.
    + constructor; [split; [done |] | constructor]. apply mark_keeps; auto.
Qed.

Lemma inv_send_nil st : inv st -> inv (send (with_heap st (heap st)) []).
Proof.
  intros [H1 H2 H3 H4 H5 H6 H7]. split; simpl; try done.
  - rewrite concat_app. simpl. by rewrite app_nil_r.
  - apply Forall_app. split; [done |]. constructor; [by cbv | constructor].
Qed.

Lemma inv_unsend st h : inv (send (with_heap st h) []) -> inv (with_heap st h).
Proof.
  intros [H1 H2 H3 H4 H5 H6 H7]. split; simpl in *; try done.
  - rewrite concat_app in H4. simpl in H4. by rewrite app_nil_r in H4.
  - by apply Forall_app in H5 as [? _].
Qed.

Lemma choose_inv st st' batch : inv st -> choose st = (st', batch) ->
  inv (send st' batch) /\ sent st' = sent st /\ Forall (asked_in st') batch /\ (batch = [] -> inv st').
Proof.
  intros Hst Hc. unfold choose in Hc.
  destruct (pick _ _ _) as [h b] eqn:Hp. injection Hc as <- <-.
  apply (pick_inv st) in Hp; [| | constructor | by apply inv_send_nil].
  - destruct Hp as [Hi Hb]. split; [exact Hi |]. split; [done |]. split; [done |].
    intros ->. by apply (inv_unsend st h).
  - apply Forall_take. rewrite (inv_closer _ Hst). apply Forall_forall. intros p Hp'%elem_of_seq. lia.
Qed.

(** What [sort.Slice] documents, for a [less] that is a strict weak order. *)
Definition sort_law (sortSlice : (nat -> nat -> bool) -> list nat -> list nat) : Prop :=
  forall less l,
    (forall a b, less a b = true -> less b a = false) ->
    (forall a b c, less b a = false -> less c b = false -> less c a = false) ->
    sortSlice less l ≡ₚ l /\ StronglySorted (fun a b => less b a = false) (sortSlice less l).

(** Every query of a round ends: [wg.Wait()]. *)
Definition net_law (net : nat -> list nat -> list (nat * option dict)) : Prop :=
  forall round batch, map fst (net round batch) ≡ₚ batch.

Lemma bytes_lt_false a b : bytes_lt a b = false <-> bytes_leb b a = true.
Proof. unfold bytes_lt. apply negb_false_iff. Qed.

Lemma sortCloser_spec sortSlice ih st : sort_law sortSlice ->
  closer (sortCloser sortSlice ih st) ≡ₚ closer st
  /\ StronglySorted (fun a b => nearer ih (heap st) b a = false) (closer (sortCloser sortSlice ih st)).
Proof.
  intros H. apply H.
  - intros a b. unfold nearer. intros Hab. apply bytes_lt_false.
    unfold bytes_lt in Hab. apply negb_true_iff in Hab.
    destruct (bytes_leb_total (distance (id (at_ (heap st) a)) ih) (distance (id (at_ (heap st) b)) ih)); congruence.
  - intros a b c. unfold nearer. rewrite !bytes_lt_false. apply bytes_leb_trans.
Qed.

Lemma sortCloser_inv sortSlice ih st : sort_law sortSlice -> inv st -> inv (sortCloser sortSlice ih st).
Proof.
  intros H [H1 H2 H3 H4 H5 H6 H7]. split; try done. by rewrite (proj1 (sortCloser_spec _ ih st H)).
Qed.

Lemma rounds_inv sortSlice net done ih : sort_law sortSlice -> net_law net -> forall n round st,
  inv st -> inv (rounds sortSlice net done n round ih st)
  /\ (length (sent (rounds sortSlice net done n round ih st)) <= length (sent st) + n)%nat.
Proof.
  intros Hsort Hnet. induction n as [| n IH]; intros round st Hst; cbn [rounds]; [split; [exact Hst | lia] |].
  case_match; [split; [exact Hst | lia] |].
  destruct (choose _) as [st1 batch] eqn:Hc.
  apply choose_inv in Hc as (H1 & H2 & H3 & H4); [| by apply sortCloser_inv].
  simpl in H2. destruct batch as [| p ps]; [split; [by apply H4 | rewrite H2; lia] |].
  set (batch := p :: ps) in *.
  destruct (answers_inv (net round batch) (send st1 batch)) as [H5 H6]; [| done |].
  - apply Forall_map with (P := asked_in (send st1 batch)). rewrite (Hnet round batch). exact H3.
  - destruct (IH (S round) _ H5) as [H7 H8]. split; [exact H7 |].
    rewrite H6 in H8. simpl in H8. rewrite length_app in H8. simpl in H8. rewrite H2 in H8. lia.
Qed.

Lemma best_of_spec h ps : forall best, zlen best <= k ->
  best_of h best ps = best ++ take (Z.to_nat (k - zlen best)) (filter (fun ct => token ct <> []) (map (at_ h) ps)).
Proof.
  induction ps as [| p ps IH]; intros best Hb; cbn [best_of map].
  { by rewrite filter_nil, take_nil, app_nil_r. }
  rewrite filter_cons. case_bool_decide as Ht; simpl.
  - rewrite decide_False by auto. by apply IH.
  - rewrite decide_True by done. destruct (Z.ltb_spec (zlen best) k).
    + rewrite IH by (rewrite zlen_app; unfold zlen at 2; simpl; lia).
      rewrite zlen_app. change (zlen [at_ h p]) with 1. rewrite <- app_assoc.
      replace (Z.to_nat (k - zlen best)) with (S (Z.to_nat (k - (zlen best + 1)))) by lia. done.
    + rewrite IH by done. replace (k - zlen best) with 0 by lia. done.
Qed.

Lemma NoDup_map_filter {A B} (f : A -> B) (P : A -> Prop) `{!forall x, Decision (P x)} l :
  NoDup (map f l) -> NoDup (map f (filter P l)).
Proof.
  induction l as [| a l IH]; [done |]. simpl. intros [Ha Hl]%NoDup_cons. rewrite filter_cons.
  case_decide; [| by apply IH]. simpl. apply NoDup_cons. split; [| by apply IH].
  intros (b & Hb & [_ Hin]%list_elem_of_filter)%list_elem_of_fmap. apply Ha, list_elem_of_fmap. eauto.
Qed.

Lemma StronglySorted_map {A B} (R : B -> B -> Prop) (f : A -> B) l :
  StronglySorted (fun a b => R (f a) (f b)) l -> StronglySorted R (map f l).
Proof.
  induction 1 as [| a l _ IH Ha]; simpl; constructor; [done |]. by apply Forall_map.
Qed.

Lemma StronglySorted_filter {A} (R : A -> A -> Prop) (P : A -> Prop) `{!forall x, Decision (P x)} l :
  StronglySorted R l -> StronglySorted R (filter P l).
Proof.
  induction 1 as [| a l _ IH Ha]; [constructor |]. rewrite filter_cons. case_decide; [| done].
  constructor; [done |]. rewrite Forall_forall in *. intros x [_ Hx]%list_elem_of_filter. by apply Ha.
Qed.

Lemma StronglySorted_weaken {A} (R S : A -> A -> Prop) l :
  (forall a b, R a b -> S a b) -> StronglySorted R l -> StronglySorted S l.
Proof.
  intros HRS. induction 1 as [| a l _ IH Ha]; constructor; [done |]. eapply Forall_impl; eauto.
Qed.

Lemma StronglySorted_take {A} (R : A -> A -> Prop) n l : StronglySorted R l -> StronglySorted R (take n l).
Proof.
  intros H. revert n. induction H as [| a l _ IH Ha]; intros [| n]; simpl; constructor; [done |].
  by apply Forall_take.
Qed.

(** ** Properties of the lookup *)

(** *** What the answers said *)

(** The nodes and the peers of an answer. *)
Definition nodes_of (r : dict) : list AddrPort :=
  match get_string (str "nodes") r with Some ns => map addr (nodes ns) | None => [] end.
Definition peer_of (v : value) : option AddrPort :=
  match v with VString s => if zlen s =? 6 then Some (compactAddr s) else None | _ => None end.
Definition peers_of (r : dict) : list AddrPort :=
  match assoc (str "values") r with Some (VList vals) => omap peer_of vals | _ => [] end.

(** The contact has the token of the answer, and its id if that is one. *)
Definition taken (r : dict) (ct : contact) : Prop :=
  token ct = string_or_empty (str "token") r
  /\ forall i, get_string (str "id") r = Some i -> zlen i = 20 -> id ct = i.

(** The answers that came to the queries of a round, with who gave them; those of all rounds. *)
Definition results (h : list contact) (l : list (nat * option dict)) : list (AddrPort * dict) :=
  omap (fun pr => (addr (at_ h pr.1),.) <$> pr.2) l.
Definition answers (net : nat -> list nat -> list (nat * option dict)) (st : lookup) : list (AddrPort * dict) :=
  concat (imap (fun round batch => results (heap st) (net round batch)) (asks st)).

(** The state holds what the answers [L] said. *)
Record linv (L : list (AddrPort * dict)) (st : lookup) : Prop := {
  l_peers ap : ap ∈ peers st <-> exists b r, (b, r) ∈ L /\ ap ∈ peers_of r;
  l_from b r : (b, r) ∈ L -> b ∈ map addr (heap st);
  l_taken p r : (p < length (heap st))%nat -> (addr (at_ (heap st) p), r) ∈ L -> taken r (at_ (heap st) p);
  l_token p : (p < length (heap st))%nat -> token (at_ (heap st) p) <> [] -> exists r, (addr (at_ (heap st) p), r) ∈ L }.

(** The contacts are the bootstrap nodes and those the answers named. *)
Definition known (boot : list AddrPort) (L : list (AddrPort * dict)) (a : AddrPort) : Prop :=
  a ∈ boot \/ exists b r, (b, r) ∈ L /\ a ∈ nodes_of r.

(** Contacts keep their places and addresses. *)
Definition extends (h h' : list contact) : Prop :=
  forall p, (p < length h)%nat -> (p < length h')%nat /\ addr (at_ h' p) = addr (at_ h p).

Lemma extends_trans h1 h2 h3 : extends h1 h2 -> extends h2 h3 -> extends h1 h3.
Proof. intros H12 H23 p Hp. destruct (H12 p Hp) as [H2 E2]. destruct (H23 p H2) as [H3 E3]. split; [done | congruence]. Qed.

Lemma add_all_addrs l : forall st, inv st -> Forall fresh l -> forall a,
  a ∈ map addr (heap (add_all st l)) <-> a ∈ map addr (heap st) \/ a ∈ map addr l.
Proof.
  induction l as [| ct l IH]; intros st Hst Hl a; simpl; [set_solver |]. inversion_clear Hl as [| ? ? Hct Hl'].
  rewrite IH by (done || by apply add_inv). unfold add. case_bool_decide as Hs.
  - apply (inv_seen _ Hst) in Hs. set_solver.
  - simpl. rewrite map_app. simpl. set_solver.
Qed.

Lemma add_all_extends l : forall st, extends (heap st) (heap (add_all st l)).
Proof. intros st p Hp. destruct (add_all_keep l st p Hp) as [-> ?]. split; [lia | done]. Qed.

Lemma add_all_peers l : forall st, peers (add_all st l) = peers st.
Proof. induction l as [| ct l IH]; intros st; simpl; [done |]. rewrite IH. unfold add. by case_bool_decide. Qed.

Lemma add_linv L st ct : inv st -> fresh ct -> linv L st -> linv L (add st ct).
Proof.
  intros Hst [_ Ht] [H1 H2 H3 H4]. unfold add. case_bool_decide as Hs; [done |].
  assert (forall p, (p < length (heap st ++ [ct]))%nat ->
    (p < length (heap st))%nat /\ at_ (heap st ++ [ct]) p = at_ (heap st) p \/ at_ (heap st ++ [ct]) p = ct) as Hat.
  { intros p. rewrite length_app. simpl. intros Hp. unfold at_. destruct (decide (p < length (heap st))%nat).
    - left. by rewrite app_nth1.
    - right. rewrite app_nth2 by lia. by replace (p - length (heap st))%nat with 0%nat by lia. }
  split; simpl.
  - done.
  - intros b r Hb. rewrite map_app, elem_of_app. left. by eapply H2.
  - intros p r Hp. destruct (Hat p Hp) as [[Hp' ->] | ->]; [by apply H3 |]. intros Hin%H2. by destruct Hs; apply (inv_seen _ Hst).
  - intros p Hp. destruct (Hat p Hp) as [[Hp' ->] | ->]; [by apply H4 | by rewrite Ht].
Qed.

Lemma add_all_linv L l : forall st, inv st -> Forall fresh l -> linv L st -> linv L (add_all st l).
Proof.
  induction l as [| ct l IH]; intros st Hst Hl Hi; simpl; [done |]. inversion_clear Hl. apply IH; [by apply add_inv | done | by apply add_linv].
Qed.

Lemma add_peers_in vs : forall ps ap, ap ∈ fold_left add_peer vs ps <-> ap ∈ ps \/ ap ∈ omap peer_of vs.
Proof.
  induction vs as [| v vs IH]; intros ps ap; simpl; [set_solver |]. rewrite IH.
  assert (ap ∈ add_peer ps v <-> ap ∈ ps \/ peer_of v = Some ap) as ->.
  { unfold add_peer, peer_of. destruct v; try naive_solver. destruct (zlen _ =? 6); [| naive_solver].
    rewrite contains_spec. case_bool_decide as Hc; [naive_solver |]. rewrite elem_of_app, list_elem_of_singleton. naive_solver. }
  destruct (peer_of v); [rewrite elem_of_cons; naive_solver | naive_solver].
Qed.

Lemma at_alter_eq f p h : (p < length h)%nat -> at_ (alter f p h) p = f (at_ h p).
Proof. unfold at_. revert p. induction h as [| x h IH]; intros [| p] Hp; cbn [length] in *; try lia; [done |]. rewrite alter_cons_S. apply IH. lia. Qed.
Lemma at_alter_ne f p q h : p <> q -> at_ (alter f p h) q = at_ h q.
Proof.
  unfold at_. revert p q. induction h as [| x h IH]; intros [| p] [| q] Hp; try done. rewrite alter_cons_S. simpl. apply IH. congruence.
Qed.

Lemma addr_inj st p q : inv st -> (p < length (heap st))%nat -> (q < length (heap st))%nat ->
  addr (at_ (heap st) p) = addr (at_ (heap st) q) -> p = q.
Proof.
  intros Hst Hp Hq He. apply (NoDup_nth (map addr (heap st)) (addr contact0)); rewrite ?length_map; try done.
  - apply NoDup_ListNoDup, Hst.
  - unfold at_ in He. by rewrite !map_nth.
Qed.

(** One more answer. *)
Lemma answer_linv L st p r : inv st -> asked_in st p -> linv L st -> addr (at_ (heap st) p) ∉ map fst L ->
  linv (L ++ results (heap st) [(p, r)]) (answer st p r)
  /\ extends (heap st) (heap (answer st p r))
  /\ forall boot, (forall a, a ∈ map addr (heap st) <-> known boot L a) ->
       forall a, a ∈ map addr (heap (answer st p r)) <-> known boot (L ++ results (heap st) [(p, r)]) a.
Proof.
  intros Hst [Hp Ha] Hl Hnew. destruct r as [r |].
  2: { change (results (heap st) [(p, None)]) with (@nil (AddrPort * dict)). rewrite app_nil_r.
    split; [done |]. split; [by intros q Hq | done]. }
  change (results (heap st) [(p, Some r)]) with [(addr (at_ (heap st) p), r)]. set (ap := addr (at_ (heap st) p)) in *.
  cbn [answer]. set (f := fun ct => MkContact _ _ _ _).
  assert (inv (set_contact st p f)) as Hst1 by (by apply set_contact_inv).
  assert (map addr (alter f p (heap st)) = map addr (heap st)) as Hmap by by apply map_alter_id.
  assert (linv (L ++ [(ap, r)]) (set_contact (set_peers st (peers st ++ peers_of r)) p f)) as Hl1.
  { destruct Hl as [H1 H2 H3 H4]. split; simpl.
    - intros x. rewrite elem_of_app, H1. setoid_rewrite elem_of_app. setoid_rewrite list_elem_of_singleton. naive_solver.
    - intros b r'. rewrite Hmap, elem_of_app, list_elem_of_singleton. intros [Hb | [= -> ->]]; [by eapply H2 |].
      apply list_elem_of_In, in_map, nth_In. done.
    - intros q r' Hq. rewrite length_alter in Hq. destruct (decide (p = q)) as [<- | Hne].
      + rewrite at_alter_eq by done. simpl. fold ap. rewrite elem_of_app, list_elem_of_singleton. intros [Hin | [= ->]].
        { destruct Hnew. apply list_elem_of_In, in_map_iff. exists (ap, r'). by rewrite <- list_elem_of_In. }
        split; [done |]. simpl. intros i -> ->. done.
      + rewrite at_alter_ne by done. rewrite elem_of_app, list_elem_of_singleton. intros [Hin | [= Heq ->]]; [by apply H3 |].
        by destruct Hne; apply (addr_inj st).
    - intros q Hq. rewrite length_alter in Hq. destruct (decide (p = q)) as [<- | Hne].
      + rewrite at_alter_eq by done. simpl. fold ap. intros _. exists r. rewrite elem_of_app, list_elem_of_singleton. by right.
      + rewrite at_alter_ne by done. intros Ht. destruct (H4 q Hq Ht) as [r' ?]. exists r'. rewrite elem_of_app. by left. }
  set (st2 := match assoc (str "values") r with Some (VList vals) => _ | _ => _ end).
  assert (inv st2 /\ heap st2 = alter f p (heap st) /\ linv (L ++ [(ap, r)]) st2) as (Hst2 & Hh2 & Hl2).
  { assert (forall x, x ∈ peers st2 <-> x ∈ peers st ++ peers_of r) as Hps.
    { intros x. unfold st2, peers_of. rewrite elem_of_app. repeat (case_match; try (simpl; set_solver)). simpl. apply add_peers_in. }
    assert (heap st2 = alter f p (heap st)) as Hh by (unfold st2; by repeat case_match).
    split; [| split; [done |]].
    - unfold st2. repeat (case_match; try done). destruct Hst1. split; simpl; try done. by apply add_peers_nodup.
    - destruct Hl1 as [H1 H2 H3 H4]. simpl in *. split; rewrite ?Hh; [| done..]. intros x. by rewrite Hps. }
  clearbody st2. set (st3 := match get_string (str "nodes") r with Some ns => _ | None => _ end).
  assert (linv (L ++ [(ap, r)]) st3 /\ extends (heap st2) (heap st3)
    /\ forall a, a ∈ map addr (heap st3) <-> a ∈ map addr (heap st) \/ a ∈ nodes_of r) as (Hl3 & Hx3 & Ha3).
  { unfold st3, nodes_of. destruct (get_string (str "nodes") r) as [ns |].
    - split; [apply add_all_linv; [done | apply nodes_fresh | done] |]. split; [apply add_all_extends |].
      intros a. rewrite add_all_addrs by (done || apply nodes_fresh). by rewrite Hh2, Hmap.
    - split; [done |]. split; [by intros q Hq |]. intros a. rewrite Hh2, Hmap. set_solver. }
  split; [done |]. split.
  - eapply extends_trans; [| exact Hx3]. rewrite Hh2. intros q Hq. rewrite length_alter. split; [done |]. by apply (at_alter addr).
  - intros boot Hk a. rewrite Ha3, Hk. unfold known. setoid_rewrite elem_of_app. setoid_rewrite list_elem_of_singleton. naive_solver.
Qed.

Lemma results_cons h p r l : results h ((p, r) :: l) = match r with Some r => (addr (at_ h p), r) :: results h l | None => results h l end.
Proof. by destruct r. Qed.

Lemma results_extends h h' l : extends h h' -> Forall (fun pr => (pr.1 < length h)%nat) l -> results h' l = results h l.
Proof.
  intros Hx. induction 1 as [| [p r] l Hp _ IH]; [done |]. rewrite !results_cons. simpl in Hp. destruct (Hx p Hp) as [_ ->]. by rewrite IH.
Qed.

Lemma results_from h l a : a ∈ map fst (results h l) -> a ∈ map (fun pr => addr (at_ h pr.1)) l.
Proof.
  induction l as [| [p r] l IH]; [done |]. rewrite results_cons. destruct r; simpl; rewrite ?elem_of_cons; tauto.
Qed.

(** The answers of a round, one after another. *)
Lemma answers_linv l : forall L st, inv st -> linv L st -> Forall (fun pr => asked_in st pr.1) l ->
  NoDup (map (fun pr => addr (at_ (heap st) pr.1)) l) ->
  (forall pr, pr ∈ l -> addr (at_ (heap st) pr.1) ∉ map fst L) ->
  let st' := fold_left (fun st pr => answer st pr.1 pr.2) l st in
  linv (L ++ results (heap st) l) st' /\ extends (heap st) (heap st')
  /\ forall boot, (forall a, a ∈ map addr (heap st) <-> known boot L a) ->
       forall a, a ∈ map addr (heap st') <-> known boot (L ++ results (heap st) l) a.
Proof.
  induction l as [| [p r] l IH]; intros L st Hst Hl Hl1 Hnd Hnew; cbv zeta; cbn [fold_left fst snd].
  { change (results (heap st) []) with (@nil (AddrPort * dict)). rewrite app_nil_r. split; [done |]. split; [by intros q Hq | done]. }
  inversion_clear Hl1 as [| ? ? Hp Hl2]. simpl in Hp, Hnd. apply NoDup_cons in Hnd as [Hnot Hnd].
  destruct (answer_linv L st p r Hst Hp Hl (Hnew (p, r) ltac:(by left))) as (H1 & H2 & H3).
  destruct (answer_inv st p r Hp Hst) as (H4 & _ & H5).
  assert (Forall (fun pr => (pr.1 < length (heap st))%nat) l) as Hlt by (eapply Forall_impl; [exact Hl2 | by intros pr []]).
  assert (map (fun pr => addr (at_ (heap (answer st p r)) pr.1)) l = map (fun pr => addr (at_ (heap st) pr.1)) l) as Hm.
  { apply map_ext_in. intros pr Hin. rewrite Forall_forall in Hlt. apply H2, Hlt. by apply list_elem_of_In. }
  destruct (IH (L ++ results (heap st) [(p, r)]) (answer st p r) H4 H1) as (K1 & K2 & K3).
  - eapply Forall_impl; [exact Hl2 |]. intros pr. apply H5.
  - by rewrite Hm.
  - intros pr Hin. rewrite Forall_forall in Hlt. rewrite (proj2 (H2 pr.1 (Hlt pr Hin))). rewrite map_app, elem_of_app.
    intros [Hold | Heq%results_from].
    + by apply (Hnew pr); [right |].
    + apply list_elem_of_singleton in Heq. simpl in Heq. apply Hnot. rewrite <- Heq. apply list_elem_of_In. apply (in_map (fun pr => addr (at_ (heap st) pr.1))). by apply list_elem_of_In.
  - assert ((L ++ results (heap st) [(p, r)]) ++ results (heap (answer st p r)) l = L ++ results (heap st) ((p, r) :: l)) as Heq.
    { rewrite (results_extends _ _ l H2 Hlt), <- app_assoc. f_equal. rewrite !results_cons. by destruct r. }
    rewrite Heq in K1, K3. split; [done |]. split; [by eapply extends_trans |]. intros boot Hb. by apply K3, H3.
Qed.

(** *** The rounds *)

(** The contacts asked in the rounds, by place. *)
Record asks_ok (st : lookup) : Prop := {
  ao_sent : sent st = map (map (fun p => addr (at_ (heap st) p))) (asks st);
  ao_in : Forall (Forall (fun p => (p < length (heap st))%nat)) (asks st) }.

(** Of a contact that was not asked, [k] that were are as near. *)
Definition converged (ih : bytes) (st : lookup) : Prop :=
  forall p, (p < length (heap st))%nat -> asked (at_ (heap st) p) = false ->
  exists near, NoDup near /\ zlen near = k /\ Forall (fun q => asked_in st q
    /\ bytes_le (distance (id (at_ (heap st) q)) ih) (distance (id (at_ (heap st) p)) ih)) near.

Lemma asks_extends st st' : asks_ok st -> extends (heap st) (heap st') -> asks st' = asks st -> sent st' = sent st -> asks_ok st'.
Proof.
  intros [Hs Hin] Hx Ha Hse. rewrite Forall_forall in Hin. split.
  - rewrite Hse, Ha, Hs. apply map_ext_in. intros b Hb. apply map_ext_in. intros p Hp.
    apply list_elem_of_In in Hb, Hp. specialize (Hin b Hb). rewrite Forall_forall in Hin. symmetry. by apply Hx, Hin.
  - rewrite Ha. apply Forall_forall. intros b Hb. specialize (Hin b Hb). rewrite Forall_forall in *. intros p Hp. by apply Hx, Hin.
Qed.

Lemma pick_spec ps : forall h batch h' batch', pick h batch ps = (h', batch') ->
  length h' = length h /\ map addr h' = map addr h
  /\ (forall p, addr (at_ h' p) = addr (at_ h p) /\ token (at_ h' p) = token (at_ h p) /\ id (at_ h' p) = id (at_ h p))
  /\ (batch' = [] -> batch = [] /\ h' = h /\ Forall (fun p => asked (at_ h p) = true) ps).
Proof.
  induction ps as [| p ps IH]; intros h batch h' batch' Hp; cbn [pick] in Hp.
  { injection Hp as <- <-. by split_and!. }
  destruct (negb (asked (at_ h p)) && (zlen batch <? alpha)) eqn:Hc.
  - destruct (IH _ _ _ _ Hp) as (H1 & H2 & H3 & H4). rewrite length_alter in H1. rewrite map_alter_id in H2 by done. split_and!; [done | done | |].
    + intros q. destruct (H3 q) as (-> & -> & ->). split_and!; [by apply (at_alter addr) | by apply (at_alter token) | by apply (at_alter id)].
    + intros Hb. destruct (H4 Hb) as [Hx _]. by destruct batch.
  - destruct (IH _ _ _ _ Hp) as (H1 & H2 & H3 & H4). split_and!; [done.. |]. intros Hb. destruct (H4 Hb) as (-> & -> & Hps).
    split_and!; [done | done |]. constructor; [| done]. by destruct (asked (at_ h p)).
Qed.

(** A state with other [asked] flags holds the same. *)
Lemma linv_flags L st h : linv L st -> length h = length (heap st) -> map addr h = map addr (heap st) ->
  (forall p, addr (at_ h p) = addr (at_ (heap st) p) /\ token (at_ h p) = token (at_ (heap st) p) /\ id (at_ h p) = id (at_ (heap st) p)) ->
  linv L (with_heap st h).
Proof.
  intros [H1 H2 H3 H4] Hl Hm He. split; simpl; [done | by rewrite Hm | |].
  - intros p r. rewrite Hl. destruct (He p) as (-> & Ht & Hi). intros Hp Hr. destruct (H3 p r Hp Hr). unfold taken. by rewrite Ht, Hi.
  - intros p. rewrite Hl. destruct (He p) as (-> & -> & _). apply H4.
Qed.

(** No contact to ask: the [k] nearest were. *)
Lemma choose_converged sortSlice ih st st1 : sort_law sortSlice -> inv st -> choose (sortCloser sortSlice ih st) = (st1, []) ->
  heap st1 = heap st /\ converged ih st1.
Proof.
  intros Hsort Hst Hc. pose proof (sortCloser_spec sortSlice ih st Hsort) as [Hperm Hsorted].
  set (cl := closer (sortCloser sortSlice ih st)) in *. unfold choose in Hc. destruct (pick _ _ _) as [h b] eqn:Hp. injection Hc as <- ->.
  apply pick_spec in Hp as (_ & _ & _ & Hn). destruct (Hn eq_refl) as (_ & -> & Hall). split; [done |].
  intros p Hlt Hna. simpl in *. fold cl in Hall.
  assert (cl ≡ₚ List.seq 0 (length (heap st))) as Hcl by (etrans; [exact Hperm | apply Hst]).
  assert (p ∈ cl) as Hin by (rewrite Hcl; apply elem_of_seq; lia).
  rewrite <- (take_drop (Z.to_nat (Z.min (zlen cl) k)) cl) in Hin. apply elem_of_app in Hin as [Hin | Hin].
  { rewrite Forall_forall in Hall. apply Hall in Hin. simpl in Hin. congruence. }
  destruct (Z.le_gt_cases (zlen cl) k) as [Hk | Hk].
  { rewrite drop_ge in Hin by (unfold zlen in *; lia). by apply elem_of_nil in Hin. }
  replace (Z.min (zlen cl) k) with k in * by lia. exists (take (Z.to_nat k) cl). split; [| split].
  - apply (sublist_NoDup _ cl); [| apply sublist_take]. rewrite Hcl. apply NoDup_ListNoDup, seq_NoDup.
  - unfold zlen in *. rewrite length_take. unfold k in *. lia.
  - apply Forall_forall. intros q Hq. split.
    + split; [| rewrite Forall_forall in Hall; by apply Hall]. assert (q ∈ cl) as Hqc by (by eapply (subseteq_take _ _)).
      rewrite Hcl in Hqc. apply elem_of_seq in Hqc. simpl. lia.
    + apply bytes_lt_false. rewrite <- (take_drop (Z.to_nat k) cl) in Hsorted.
      by apply (StronglySorted_app_1_elem_of _ _ _ _ _ Hsorted).
Qed.

Lemma answers_in net st : net_law net -> asks_ok st -> forall i batch, asks st !! i = Some batch ->
  Forall (fun pr => (pr.1 < length (heap st))%nat) (net i batch).
Proof.
  intros Hnet [_ Hin] i batch Hi. apply (Forall_lookup_1 _ _ _ _ Hin) in Hi. apply Forall_map with (P := fun p => (p < length (heap st))%nat).
  by rewrite (Hnet i batch).
Qed.

Lemma answers_extends net st st' : net_law net -> asks_ok st -> extends (heap st) (heap st') -> asks st' = asks st -> answers net st' = answers net st.
Proof.
  intros Hnet Ha Hx Has. unfold answers. rewrite Has. f_equal. apply imap_ext. intros i batch Hi. apply results_extends; [done |]. by apply answers_in.
Qed.

(** Only who was asked answered. *)
Lemma answers_sent net st a : net_law net -> asks_ok st -> a ∈ map fst (answers net st) -> a ∈ concat (sent st).
Proof.
  intros Hnet [Hs _]. rewrite Hs. unfold answers. intros ([a' r] & <- & Hin)%list_elem_of_In%in_map_iff. simpl.
  apply in_concat in Hin as (l & Hl & Hin). apply list_elem_of_In, elem_of_lookup_imap in Hl as (i & batch & -> & Hi).
  assert (a' ∈ map fst (results (heap st) (net i batch))) as Ha'.
  { apply list_elem_of_In, in_map_iff. by exists (a', r). }
  apply results_from, list_elem_of_In, in_map_iff in Ha' as ([p o] & <- & Hp). simpl. apply list_elem_of_In, in_concat.
  exists (map (fun p => addr (at_ (heap st) p)) batch). split.
  - apply in_map, list_elem_of_In. by eapply list_elem_of_lookup_2.
  - apply (in_map (fun p => addr (at_ (heap st) p))), list_elem_of_In. rewrite <- (Hnet i batch). apply list_elem_of_In. apply (in_map fst) in Hp. exact Hp.
Qed.

Lemma asks_answer st p r : asks (answer st p r) = asks st.
Proof.
  destruct r as [r |]; [| done]. cbn [answer]. set (st1 := match assoc (str "values") r with Some (VList vals) => _ | _ => _ end).
  assert (asks st1 = asks st) as Hs by (unfold st1; by repeat case_match). destruct (get_string (str "nodes") r) as [ns |]; [| done].
  rewrite <- Hs. generalize (nodes ns) st1. intros l. induction l as [| c l IH]; intros s; simpl; [done |]. rewrite IH. unfold add. by case_bool_decide.
Qed.

Lemma asks_answers l : forall st, asks (fold_left (fun st pr => answer st pr.1 pr.2) l st) = asks st.
Proof. induction l as [| [p r] l IH]; intros st; simpl; [done |]. by rewrite IH, asks_answer. Qed.

(** What holds between the rounds. *)
Record between (net : nat -> list nat -> list (nat * option dict)) (boot : list AddrPort) (st : lookup) : Prop := {
  b_inv : inv st;
  b_linv : linv (answers net st) st;
  b_asks : asks_ok st;
  b_known a : a ∈ map addr (heap st) <-> known boot (answers net st) a }.

Lemma sent_NoDup st : inv st -> NoDup (concat (sent st)).
Proof. intros [H1 H2 H3 H4 H5 H6 H7]. rewrite H4. by apply NoDup_map_filter. Qed.

(** A round keeps it. *)
Lemma round_between net boot st st1 batch ih sortSlice : sort_law sortSlice -> net_law net -> between net boot st ->
  choose (sortCloser sortSlice ih st) = (st1, batch) -> batch <> [] ->
  let st2 := fold_left (fun st pr => answer st pr.1 pr.2) (net (length (asks st)) batch) (send st1 batch) in
  between net boot st2 /\ asks st2 = asks st ++ [batch].
Proof.
  intros Hsort Hnet [Hi Hl Ha Hk] Hc Hne. cbv zeta. assert (inv (sortCloser sortSlice ih st)) as His by by apply sortCloser_inv.
  destruct (choose_inv _ _ _ His Hc) as (H1 & H2 & H3 & _). simpl in H2.
  assert (asks st1 = asks st /\ peers st1 = peers st /\ exists h, st1 = with_heap (sortCloser sortSlice ih st) h
    /\ length h = length (heap st) /\ map addr h = map addr (heap st)
    /\ forall p, addr (at_ h p) = addr (at_ (heap st) p) /\ token (at_ h p) = token (at_ (heap st) p) /\ id (at_ h p) = id (at_ (heap st) p))
    as (Has & Hps & h & Hst1 & Hlen & Hmap & Hflags).
  { unfold choose in Hc. destruct (pick _ _ _) as [h b] eqn:Hp. injection Hc as <- <-. apply pick_spec in Hp as (P1 & P2 & P3 & _).
    split_and!; [done | done |]. by exists h. }
  set (st2 := send st1 batch) in *.
  assert (extends (heap st) (heap st2)) as Hx.
  { intros p Hp. unfold st2. simpl. rewrite Hst1. simpl. rewrite Hlen. split; [done | apply Hflags]. }
  assert (linv (answers net st) st2) as Hl2.
  { assert (linv (answers net st) (with_heap (sortCloser sortSlice ih st) h)) as Hw by (apply linv_flags; [by destruct Hl | done..]).
    unfold st2. rewrite Hst1. by destruct Hw. }
  assert (asks_ok st2) as Ha2.
  { destruct (asks_extends st (with_heap st h) Ha) as [Q1 Q2]; [| done | done |].
    { intros p Hp. simpl. rewrite Hlen. split; [done | apply Hflags]. }
    simpl in Q1, Q2. split; unfold st2; simpl; rewrite Has.
    - rewrite map_app, H2, Q1. rewrite Hst1. done.
    - apply Forall_app. rewrite Hst1 in *. split; [done |]. constructor; [| constructor]. eapply Forall_impl; [exact H3 | by intros p []]. }
  pose proof (sent_NoDup _ H1) as Hnd. unfold st2 in Hnd. simpl in Hnd. rewrite concat_app in Hnd. simpl in Hnd. rewrite app_nil_r in Hnd.
  apply NoDup_app in Hnd as (_ & Hdis & Hndb). rewrite H2 in Hdis.
  assert (map (fun pr => addr (at_ (heap st2) pr.1)) (net (length (asks st)) batch) ≡ₚ map (fun p => addr (at_ (heap st1) p)) batch) as Hpm.
  { rewrite <- (map_map fst (fun p => addr (at_ (heap st2) p))). by rewrite (Hnet (length (asks st)) batch). }
  destruct (answers_linv (net (length (asks st)) batch) (answers net st) st2 H1 Hl2) as (K1 & K2 & K3).
  - apply Forall_map with (P := asked_in st2). by rewrite (Hnet (length (asks st)) batch).
  - by rewrite Hpm.
  - intros pr Hin Hold%answers_sent; [| done..]. apply (Hdis _ Hold). rewrite <- Hpm. apply list_elem_of_In.
    apply (in_map (fun pr => addr (at_ (heap st2) pr.1))). by apply list_elem_of_In.
  - set (st3 := fold_left _ (net (length (asks st)) batch) st2) in *.
    assert (asks st3 = asks st ++ [batch]) as Has3 by (unfold st3; rewrite asks_answers; unfold st2; simpl; by rewrite Has).
    destruct (answers_inv (net (length (asks st)) batch) st2) as [Hi3 Hse3]; [| done |].
    { apply Forall_map with (P := asked_in st2). by rewrite (Hnet (length (asks st)) batch). }
    assert (asks_ok st3) as Ha3.
    { apply (asks_extends st2); [done | done | | done]. rewrite Has3. unfold st2. simpl. by rewrite Has. }
    assert (answers net st3 = answers net st ++ results (heap st2) (net (length (asks st)) batch)) as Hans.
    { unfold answers. rewrite Has3, imap_app, concat_app. simpl. rewrite app_nil_r, Nat.add_0_r. f_equal.
      - f_equal. apply imap_ext. intros i b Hb. apply results_extends; [by eapply extends_trans |]. by apply answers_in.
      - apply results_extends; [done |]. apply Forall_map with (P := fun p => (p < length (heap st2))%nat).
        rewrite (Hnet (length (asks st)) batch). eapply Forall_impl; [exact H3 |]. intros p []. done. }
    split; [| done]. split; [done | by rewrite Hans | done |]. rewrite Hans. apply K3.
    intros a. unfold st2. simpl. rewrite Hst1. simpl. by rewrite Hmap.
Qed.

Lemma rounds_between sortSlice net done ih boot : sort_law sortSlice -> net_law net -> forall n st, between net boot st ->
  let st' := rounds sortSlice net done n (length (asks st)) ih st in
  between net boot st' /\ (length (asks st') = length (asks st) + n)%nat \/ between net boot st' /\ (done (length (asks st')) = true \/ converged ih st').
Proof.
  intros Hsort Hnet. induction n as [| n IH]; intros st Hst; cbn [rounds]; cbv zeta; [left; split; [exact Hst | lia] |].
  destruct (done (length (asks st))) eqn:Hd; [right; split; [exact Hst | by left] |].
  destruct (choose _) as [st1 batch] eqn:Hc. destruct batch as [| p ps].
  - right. destruct (choose_converged sortSlice ih st st1 Hsort (b_inv _ _ _ Hst) Hc) as [Hh Hcv]. split; [| by right].
    assert (exists cl, st1 = MkLookup (heap st) cl (seen st) (peers st) (sent st) (asks st) /\ cl ≡ₚ closer st) as (cl & -> & Hcl).
    { unfold choose in Hc. destruct (pick _ _ _) as [h b]. injection Hc as <- ->. simpl in Hh. subst. eexists. split; [reflexivity |]. by apply sortCloser_spec. }
    destruct Hst as [[] [] [] Hk]. split; [split; simpl; try done; by rewrite Hcl | split; done | split; done | done].
  - destruct (round_between net boot st st1 (p :: ps) ih sortSlice Hsort Hnet Hst Hc ltac:(done)) as [Hb Has].
    cbv zeta in Hb, Has. specialize (IH _ Hb). cbv zeta in IH. rewrite Has, length_app in IH. simpl length in IH. rewrite Nat.add_1_r in IH.
    destruct IH as [[H1 H2] | [H1 H2]]; [left | right]; (split; [exact H1 |]); [rewrite H2; lia | exact H2].
Qed.

Lemma start_between net bootstrap ih : between net bootstrap (add_all lookup0 (map (fun a => MkContact ih a [] false) bootstrap))
  /\ asks (add_all lookup0 (map (fun a => MkContact ih a [] false) bootstrap)) = []
  /\ sent (add_all lookup0 (map (fun a => MkContact ih a [] false) bootstrap)) = [].
Proof.
  set (l := map _ bootstrap). assert (Forall fresh l) as Hf by (apply Forall_map, Forall_true; done).
  assert (asks (add_all lookup0 l) = [] /\ sent (add_all lookup0 l) = []) as [Ha Hs].
  { clear. assert (asks lookup0 = [] /\ sent lookup0 = []) as H0 by done. revert H0. generalize lookup0.
    induction l as [| c l IH]; intros s Hs; simpl; [done |]. apply IH. unfold add. by case_bool_decide. }
  split; [| done]. assert (answers net (add_all lookup0 l) = []) as Hans by (unfold answers; by rewrite Ha).
  assert (linv [] lookup0) as H0.
  { split; simpl; try lia; [| by intros b r ?%elem_of_nil]. intros ap. split; [by intros ?%elem_of_nil | by intros (? & ? & ?%elem_of_nil & _)]. }
  split; rewrite ?Hans.
  - apply add_all_inv; [done | apply inv0].
  - by apply add_all_linv; [apply inv0 | ..].
  - split; rewrite ?Ha, ?Hs; [done | constructor].
  - intros a. rewrite add_all_addrs by (done || apply inv0). unfold known, l. rewrite map_map. simpl. rewrite map_id.
    split; [intros [H%elem_of_nil | H]; [done | by left] | intros [H | (? & ? & H%elem_of_nil & _)]; [by right | done]].
Qed.

Lemma StronglySorted_split {A} (R : A -> A -> Prop) n l : StronglySorted R l ->
  forall x y, x ∈ take n l -> y ∈ drop n l -> R x y.
Proof. intros H x y. rewrite <- (take_drop n l) in H. by apply StronglySorted_app_1_elem_of. Qed.

(** C37: Whatever the other nodes answer, and in whatever order, a lookup ends
    after at most [maxRounds] rounds of at most [alpha] queries each and never
    queries an address twice; it stops early only when the context is done or
    when of every contact it knows of and did not ask, [k] it asked are as near,
    where it knows of the bootstrap nodes and of those the answers named. It
    returns every peer an answer named, once, and no other; and of the contacts
    whose answer had a token, with that token, the [k] nearest, nearest first. *)
Theorem GetPeers_spec sortSlice net done bootstrap ih
  (Hsort : sort_law sortSlice) (Hnet : net_law net) :
  let st := run_rounds sortSlice net done bootstrap ih in
  let L := answers net st in
  let dist ct := distance (id ct) ih in
  let '(ps, best) := GetPeers sortSlice net done bootstrap ih in
  (NoDup (concat (sent st)) /\ Forall (fun b => zlen b <= alpha) (sent st) /\ (length (sent st) <= maxRounds)%nat
   /\ sent st = map (map (fun p => addr (at_ (heap st) p))) (asks st)
   /\ (length (sent st) = maxRounds \/ done (length (sent st)) = true \/ converged ih st)
   /\ forall a, a ∈ map addr (heap st) <-> known bootstrap L a)
  /\ (NoDup ps /\ forall ap, ap ∈ ps <-> exists b r, (b, r) ∈ L /\ ap ∈ peers_of r)
  /\ zlen best <= k /\ NoDup (map addr best) /\ StronglySorted (fun a b => bytes_le (dist a) (dist b)) best
  /\ (forall ct, ct ∈ best -> token ct <> [] /\ exists r, (addr ct, r) ∈ L /\ taken r ct)
  /\ (forall a r, (a, r) ∈ L -> string_or_empty (str "token") r <> [] -> exists ct, ct ∈ heap st /\ addr ct = a /\ taken r ct
       /\ (ct ∈ best \/ zlen best = k /\ Forall (fun c => bytes_le (dist c) (dist ct)) best)).
Proof.
  cbv zeta. unfold GetPeers. destruct (start_between net bootstrap ih) as (Hb0 & Ha0 & Hs0). set (st0 := add_all lookup0 _) in *.
  pose proof (rounds_between sortSlice net done ih bootstrap Hsort Hnet maxRounds st0 Hb0) as Hr. cbv zeta in Hr. rewrite Ha0 in Hr. change (length (@nil (list nat))) with 0%nat in Hr.
  destruct (rounds_inv sortSlice net done ih Hsort Hnet maxRounds 0 st0 (b_inv _ _ _ Hb0)) as [_ Hmax]. rewrite Hs0 in Hmax.
  assert (run_rounds sortSlice net done bootstrap ih = sortCloser sortSlice ih (rounds sortSlice net done maxRounds 0 ih st0)) as -> by done.
  set (stn := rounds sortSlice net done maxRounds 0 ih st0) in *.
  assert (between net bootstrap stn /\ (length (asks stn) = maxRounds \/ done (length (asks stn)) = true \/ converged ih stn)) as [Hb Hstop]
    by (destruct Hr as [[? ?] | [? ?]]; auto).
  pose proof (sortCloser_spec sortSlice ih stn Hsort) as [_ Hsorted]. set (st := sortCloser sortSlice ih stn) in *.
  assert (inv st) as Hi by (apply sortCloser_inv; [done | apply Hb]). destruct Hb as [_ [L1 L2 L3 L4] [S1 S2] K]. change (answers net st) with (answers net stn).
  change (sent st) with (sent stn). change (heap st) with (heap stn) in *. change (peers st) with (peers stn). change (asks st) with (asks stn).
  rewrite best_of_spec by done. cbn [app]. set (cands := filter _ (map (at_ (heap stn)) (closer st))).
  assert (length (asks stn) = length (sent stn)) as Hlen by (rewrite S1; by rewrite length_map).
  assert (forall ct, ct ∈ cands <-> token ct <> [] /\ exists p, (p < length (heap stn))%nat /\ ct = at_ (heap stn) p) as Hc.
  { intros ct. unfold cands. rewrite list_elem_of_filter, list_elem_of_fmap. apply and_iff_compat_l.
    split; intros (p & H1 & H2); exists p; rewrite (inv_closer _ Hi), elem_of_seq in *; simpl in *; (split; [lia || done | lia || done]). }
  assert (StronglySorted (fun a b => bytes_le (distance (id a) ih) (distance (id b) ih)) cands) as Hsc.
  { apply StronglySorted_filter, StronglySorted_map. eapply StronglySorted_weaken; [| exact Hsorted]. simpl. intros a b Hab. by apply bytes_lt_false. }
  split_and!.
  - by apply (sent_NoDup st).
  - apply Hi.
  - exact Hmax.
  - exact S1.
  - rewrite <- Hlen. exact Hstop.
  - exact K.
  - apply Hi.
  - exact L1.
  - unfold zlen, k. rewrite length_take. cbn [length]. lia.
  - apply (sublist_NoDup _ (map addr cands)).
    + apply NoDup_map_filter. rewrite (inv_closer _ Hi). rewrite map_map. change (heap st) with (heap stn).
      apply NoDup_ListNoDup, NoDup_map_NoDup_ForallPairs; [| apply seq_NoDup].
      intros p q Hp%in_seq Hq%in_seq. apply (addr_inj st p q Hi); simpl; lia.
    + rewrite <- firstn_map. apply sublist_take.
  - by apply StronglySorted_take.
  - intros ct Hct. assert (ct ∈ cands) as [Ht (p & Hp & ->)]%Hc by (eapply subseteq_take; exact Hct).
    split; [done |]. destruct (L4 p Hp Ht) as [r Hr']. exists r. split; [done |]. by apply L3.
  - intros a r Hin Htok. pose proof (L2 a r Hin) as Ha. apply list_elem_of_In, in_map_iff in Ha as (ct & <- & Hct).
    apply list_elem_of_In in Hct. exists ct. split; [done |]. split; [done |].
    destruct (list_elem_of_lookup_1 _ _ Hct) as [p Hp]. assert (ct = at_ (heap stn) p) as Hat by (unfold at_; by rewrite (nth_lookup_Some _ _ contact0 _ Hp)).
    apply lookup_lt_Some in Hp. assert (taken r ct) as Htk by (rewrite Hat in *; by apply L3). split; [done |].
    assert (ct ∈ cands) as Hcc. { apply Hc. split; [destruct Htk as [-> _]; done | by exists p]. }
    rewrite <- (take_drop (Z.to_nat (k - zlen (@nil contact))) cands) in Hcc. apply elem_of_app in Hcc as [Hcc | Hcc]; [by left | right]. split.
    + destruct (decide (length cands <= Z.to_nat (k - zlen (@nil contact)))%nat) as [Hle | Hgt].
      { rewrite drop_ge in Hcc by done. by apply elem_of_nil in Hcc. }
      assert (Z.to_nat (k - zlen (@nil contact)) = 8%nat) as E by done. rewrite E in *. unfold zlen at 1. rewrite length_take. unfold k. lia.
    + apply Forall_forall. intros c Hcin. by apply (StronglySorted_split _ _ _ Hsc c ct Hcin).
Qed.

(** ** Properties of queries *)

Definition reply (t : bytes) (r : dict) : value :=
  VDict [(str "r", VDict r); (str "t", VString t); (str "y", VString (str "r"))].

Definition replyDecoded (t : bytes) (r : value) : dict :=
  [(str "r", r); (str "t", VString t); (str "y", VString (str "r"))].

Lemma norm_reply t r : norm (reply t r) = VDict (replyDecoded t (norm (VDict r))).
Proof. cbn [norm reply map]. f_equal. Qed.

(** An answer that carries a query's transaction id is handed to that
    query's channel with the "r" dictionary as it was sent, whatever else is
    pending; a second copy of it is dropped, and so is any datagram whose
    transaction id nobody waits for. *)
Theorem query_answered c ch q args t msg c' r
  (Hq : query_send c ch q args = Some (t, msg, c'))
  (Hr : encodable (VDict r)) (Hh : height (VDict r) <= 31) :
  exists bs m c'', Encode (reply t r) = Ok bs
    /\ read c' bs = Ok (Some (ch, m), c'') /\ read c'' bs = Ok (None, c'')
    /\ (exists r', norm (VDict r) = VDict r' /\ query_result m = Some r')
    /\ (forall t', t' <> t -> pending c'' !! t' = pending c !! t').
Proof.
  unfold query_send in Hq. destruct (closed c) eqn:Hc; [done |]. injection Hq as Ht Hm Hc'. subst msg c'.
  assert (encodable (reply t r)) as He.
  { split; [apply (bool_decide_unpack (NoDup _)); vm_compute; exact I |].
    split; [vm_compute; done |]. split; [exact Hr |]. split; [vm_compute; done |].
    split; [rewrite <- Ht; vm_compute; done |]. split; [vm_compute; done |].
    split; [vm_compute; done | exact I]. }
  assert (height (reply t r) <= 32) as Hh' by (change (height (reply t r)) with
    (Z.max (1 + height (VDict r)) (Z.max (1 + 0) (Z.max (1 + 0) 0))); lia).
  destruct (encode_total _ He) as [bs Hbs]. exists bs.
  assert (Decode bs = Ok (VDict (replyDecoded t (norm (VDict r))))) as Hd.
  { rewrite <- norm_reply. unfold Decode. rewrite <- (app_nil_r bs) at 2.
    rewrite (decode_encode _ bs _ 0 [] Hbs He) by (rewrite ?app_nil_r; lia). done. }
  exists (replyDecoded t (norm (VDict r))). unfold read. rewrite Hd.
  change (string_or_empty (str "t") (replyDecoded t (norm (VDict r)))) with t.
  change (string_or_empty (str "y") (replyDecoded t (norm (VDict r)))) with (str "r").
  rewrite (bool_decide_eq_true_2 (str "r" = str "r")) by done. cbn [negb andb pending closed self seq].
  rewrite Ht, lookup_insert_eq, delete_insert_eq. eexists. split; [done |]. split; [done |].
  cbn [pending closed self seq]. rewrite lookup_delete_eq, delete_delete_eq. split; [done |]. split.
  - eexists. split; [reflexivity |]. reflexivity.
  - intros t' Ht'. by rewrite lookup_delete_ne.
Qed.

(** ** Witnesses *)

Definition not_less (less : nat -> nat -> bool) (a b : nat) : Prop := less b a = false.

#[export] Instance not_less_dec less a b : Decision (not_less less a b).
Proof. unfold not_less. apply _. Defined.

Definition mergeSlice (less : nat -> nat -> bool) (l : list nat) : list nat :=
  merge_sort (not_less less) l.

Lemma mergeSlice_law : sort_law mergeSlice.
Proof.
  intros less l Hasym Htrans. split; [apply merge_sort_Permutation |].
  assert (Transitive (not_less less)) by exact Htrans.
  assert (Total (not_less less)).
  { intros a b. destruct (less b a) eqn:E; [right; by apply Hasym | by left]. }
  by apply (StronglySorted_merge_sort (not_less less)).
Qed.

(** Every node asked gives a token, itself as a peer, and node 7. *)
Definition exNode (n : Z) : bytes := zeros 19 ++ [n; 10; 0; 0; n; 26; 225].
Definition exNet (round : nat) (batch : list nat) : list (nat * option dict) :=
  map (fun p => (p, Some [(str "id", VString (zeros 19 ++ [Z.of_nat p])); (str "token", VString (str "tk"));
                          (str "values", VList [VString [192; 0; 2; Z.of_nat p; 26; 225]]);
                          (str "nodes", VString (exNode 7 ++ exNode (8 + Z.of_nat p)))])) (rev batch).

Lemma exNet_law : net_law exNet.
Proof.
  intros round batch. unfold exNet. rewrite map_map. simpl. rewrite map_id. symmetry. apply Permutation_rev.
Qed.

Definition exBoot : list AddrPort := [MkAddrPort (Addr4 167772161) 6881].

Example GetPeers_ex :
  let r := GetPeers mergeSlice exNet (fun _ => false) exBoot (zeros 20) in
  zlen r.1 = 8 /\ zlen r.2 = 8.
Proof. vm_compute. done. Qed.

Lemma GetPeers_spec_witness :
  let st := run_rounds mergeSlice exNet (fun _ => false) exBoot (zeros 20) in
  let '(ps, best) := GetPeers mergeSlice exNet (fun _ => false) exBoot (zeros 20) in
  NoDup (concat (sent st)) /\ zlen (answers exNet st) = 8
  /\ (forall ap, ap ∈ ps <-> exists b r, (b, r) ∈ answers exNet st /\ ap ∈ peers_of r)
  /\ (forall ct, ct ∈ best -> token ct <> []).
Proof.
  pose proof (GetPeers_spec mergeSlice exNet (fun _ => false) exBoot (zeros 20) mergeSlice_law exNet_law) as H.
  cbv zeta in *. assert (zlen (answers exNet (run_rounds mergeSlice exNet (fun _ => false) exBoot (zeros 20))) = 8) as Ha by (vm_compute; reflexivity).
  destruct (GetPeers _ _ _ _ _) as [ps best]. destruct H as ((H1 & _) & (_ & H2) & _ & _ & _ & H3 & _).
  split; [exact H1 |]. split; [exact Ha |]. split; [exact H2 |]. intros ct Hct. apply H3, Hct.
Defined.

Definition exClient : Client := MkClient (zeros 20) 65535 ∅ false.
Definition exArgs : dict := [(str "info_hash", VString (zeros 20))].

Definition exClient' : Client := MkClient (zeros 20) 0 (<[ [0; 0] := 5%nat ]> ∅) false.

Lemma query_answered_witness : exists bs m c'',
  Encode (reply [0; 0] [(str "token", VBytes (str "x"))]) = Ok bs
  /\ read exClient' bs = Ok (Some (5%nat, m), c'').
Proof.
  destruct (query_answered exClient 5 (str "get_peers") exArgs [0; 0]
    (Encode (message exClient' [0; 0] (str "get_peers") exArgs)) exClient' [(str "token", VBytes (str "x"))])
    as (bs & m & c'' & H1 & H2 & _).
  - vm_compute. reflexivity.
  - repeat split; try (apply (bool_decide_unpack (NoDup _)); vm_compute; exact I); vm_compute; done.
  - vm_compute. done.
  - exists bs, m, c''. split; [exact H1 | exact H2].
Defined.

End dht.
