(* ===== verification/Encoding.v ===== *)
(** Go's [encoding/hex], [encoding/base32] and [encoding/base64] as far as the
    modelled code uses them: hexadecimal printing, base32 without padding (node
    IDs) and padded base64 (keys and secrets). Decoders skip CR and LF and
    ignore left-over bits, as Go's do. *)
From stdpp Require Import base list strings.
From Stdlib Require Import ZArith Lia.
From S2P Require Import Prelude GoStrings.

Open Scope Z_scope.

(** The [n] digits of [v] in base [2^b], most significant first. *)
Fixpoint digits (b : Z) (n : nat) (v : Z) : list Z :=
  match n with
  | O => []
  | S n => digits b n (v / 2 ^ b) ++ [v mod 2 ^ b]
  end.

Definition undigits (b : Z) (l : list Z) : Z := fold_left (fun acc d => acc * 2 ^ b + d) l 0.

(** Every character through a table; [None] on a character not in it. *)
Fixpoint lookup_all (f : Z -> option Z) (s : bytes) : option (list Z) :=
  match s with
  | [] => Some []
  | c :: s => match f c, lookup_all f s with
              | Some v, Some vs => Some (v :: vs)
              | _, _ => None
              end
  end.

Definition is_newline (c : Z) : bool := (c =? 10) || (c =? 13).
Definition stripNewlines (s : bytes) : bytes := List.filter (fun c => negb (is_newline c)) s.

(** ** hex *)

Definition hex_char (v : Z) : Z := if v <? 10 then 48 + v else 87 + v.
Definition hex_encode (s : bytes) : bytes := flat_map (fun b => map hex_char (digits 4 2 b)) s.

(** ** base64.StdEncoding *)

Definition char64 (v : Z) : Z :=
  if v <? 26 then 65 + v else if v <? 52 then 71 + v else if v <? 62 then v - 4
  else if v =? 62 then 43 else 47.

Definition val64 (c : Z) : option Z :=
  if (65 <=? c) && (c <=? 90) then Some (c - 65)
  else if (97 <=? c) && (c <=? 122) then Some (c - 71)
  else if (48 <=? c) && (c <=? 57) then Some (c + 4)
  else if c =? 43 then Some 62 else if c =? 47 then Some 63 else None.

Fixpoint encode64 (s : bytes) : bytes :=
  match s with
  | [] => []
  | [a] => map char64 (digits 6 2 (a * 2 ^ 4)) ++ [61; 61]
  | [a; b] => map char64 (digits 6 3 (be [a; b] * 2 ^ 2)) ++ [61]
  | a :: b :: c :: r => map char64 (digits 6 4 (be [a; b; c])) ++ encode64 r
  end.

(** [n] bytes out of a group of digits with [drop] left-over bits. *)
Definition group64 (cs : bytes) (drop : Z) (n : nat) : option bytes :=
  (fun vs => put_be n (undigits 6 vs / 2 ^ drop)) <$> lookup_all val64 cs.

Fixpoint decode64 (s : bytes) : option bytes :=
  match s with
  | [] => Some []
  | a :: b :: c :: d :: r =>
    if (d =? 61) && bool_decide (r = []) then
      if c =? 61 then group64 [a; b] 4 1 else group64 [a; b; c] 2 2
    else
      match group64 [a; b; c; d] 0 3, decode64 r with
      | Some x, Some y => Some (x ++ y)
      | _, _ => None
      end
  | _ => None
  end.

Definition base64_decode (s : bytes) : option bytes := decode64 (stripNewlines s).

(** ** base32.StdEncoding.WithPadding(NoPadding) *)

Definition char32 (v : Z) : Z := if v <? 26 then 65 + v else 24 + v.
Definition val32 (c : Z) : option Z :=
  if (65 <=? c) && (c <=? 90) then Some (c - 65)
  else if (50 <=? c) && (c <=? 55) then Some (c - 24) else None.

(** A group of up to five bytes: its bits, filled up to a multiple of five. *)
Definition chars32 (g : bytes) : bytes :=
  let n := (8 * zlen g + 4) / 5 in
  map char32 (digits 5 (Z.to_nat n) (be g * 2 ^ (5 * n - 8 * zlen g))).

Fixpoint encode32 (s : bytes) : bytes :=
  match s with
  | a :: b :: c :: d :: e :: r => chars32 [a; b; c; d; e] ++ encode32 r
  | g => chars32 g
  end.

(** The last group may be short: Go writes nothing for 1, 3 or 6 characters. *)
Definition bytes32 (chars : Z) : Z :=
  if chars =? 8 then 5 else if chars =? 7 then 4 else if chars =? 5 then 3
  else if chars =? 4 then 2 else if chars =? 2 then 1 else 0.

Definition group32 (cs : bytes) : option bytes :=
  let n := bytes32 (zlen cs) in
  (fun vs => put_be (Z.to_nat n) (undigits 5 vs / 2 ^ (5 * zlen cs - 8 * n))) <$> lookup_all val32 cs.

Fixpoint decode32 (s : bytes) : option bytes :=
  match s with
  | a :: b :: c :: d :: e :: f :: g :: h :: r =>
    match group32 [a; b; c; d; e; f; g; h], decode32 r with
    | Some x, Some y => Some (x ++ y)
    | _, _ => None
    end
  | g => group32 g
  end.

Definition base32_decode (s : bytes) : option bytes := decode32 (stripNewlines s).

Example base64_ex : encode64 (str "ab") = str "YWI=" /\ base64_decode (str "YWI=") = Some (str "ab")
  /\ encode64 (str "Many hands") = str "TWFueSBoYW5kcw==" /\ base64_decode (str "TWFueSBo" ++ 10 :: str "YW5kcw==") = Some (str "Many hands")
  /\ base64_decode (str "YWI") = None /\ base64_decode (str "YW=I") = None.
Proof. vm_compute. done. Qed.
Example base32_ex : encode32 (str "foobar") = str "MZXW6YTBOI" /\ base32_decode (str "MZXW6YTBOI") = Some (str "foobar")
  /\ hex_encode [0; 171; 255] = str "00abff".
Proof. vm_compute. done. Qed.

(** ** Lemmas *)

Lemma length_digits b n v : length (digits b n v) = n.
Proof.
  revert v. induction n as [| n IH]; intros v; [done |]. cbn [digits].
  rewrite length_app, IH. simpl. lia.
Qed.

Lemma undigits_digits b n v : 0 <= b -> undigits b (digits b n v) = v mod (2 ^ b) ^ Z.of_nat n.
Proof.
  intros Hb. revert v. induction n as [| n IH]; intros v.
  { simpl. by rewrite Z.mod_1_r. }
  cbn [digits]. unfold undigits in *. rewrite fold_left_app, IH. cbn [fold_left].
  pose proof (Z.pow_pos_nonneg 2 b ltac:(lia) Hb).
  rewrite Nat2Z.inj_succ, Z.pow_succ_r, Z.rem_mul_r by (try apply Z.pow_pos_nonneg; lia). lia.
Qed.

Lemma digits_range b n v : 0 <= b -> Forall (fun d => 0 <= d < 2 ^ b) (digits b n v).
Proof.
  intros Hb. revert v. induction n as [| n IH]; intros v; [constructor |]. cbn [digits].
  apply Forall_app. split; [apply IH |]. constructor; [| constructor].
  apply Z.mod_pos_bound. by apply Z.pow_pos_nonneg; [lia |].
Qed.

Lemma lookup_all_map f (g : Z -> Z) l : Forall (fun v => f (g v) = Some v) l -> lookup_all f (map g l) = Some l.
Proof. induction 1 as [| v l Hv _ IH]; simpl; [done |]. by rewrite Hv, IH. Qed.

Lemma val64_char64 v : 0 <= v < 64 -> val64 (char64 v) = Some v.
Proof.
  intros H. unfold char64, val64.
  repeat (case_match; bool_hyps; try lia; try (f_equal; lia));
    repeat match goal with H : (_ && _) = false |- _ => apply andb_false_iff in H as [H | H]; bool_hyps end; lia.
Qed.

Lemma val32_char32 v : 0 <= v < 32 -> val32 (char32 v) = Some v.
Proof.
  intros H. unfold char32, val32.
  repeat (case_match; bool_hyps; try lia; try (f_equal; lia));
    repeat match goal with H : (_ && _) = false |- _ => apply andb_false_iff in H as [H | H]; bool_hyps end; lia.
Qed.

Lemma lookup_digits64 n v : lookup_all val64 (map char64 (digits 6 n v)) = Some (digits 6 n v).
Proof.
  apply lookup_all_map. eapply Forall_impl; [apply (digits_range 6); lia |].
  intros d Hd. by apply val64_char64.
Qed.

Lemma lookup_digits32 n v : lookup_all val32 (map char32 (digits 5 n v)) = Some (digits 5 n v).
Proof.
  apply lookup_all_map. eapply Forall_impl; [apply (digits_range 5); lia |].
  intros d Hd. by apply val32_char32.
Qed.

Lemma char64_range v : 0 <= v < 64 -> char64 v <> 61 /\ is_newline (char64 v) = false.
Proof.
  intros H. unfold is_newline, char64.
  repeat (case_match; bool_hyps); split; try apply orb_false_iff; try split; try apply Z.eqb_neq; lia.
Qed.

Lemma char32_range v : 0 <= v < 32 -> is_newline (char32 v) = false /\ 50 <= char32 v <= 90
  /\ (char32 v <= 55 \/ 65 <= char32 v).
Proof.
  intros H. unfold is_newline, char32.
  case_match; bool_hyps; split; try (apply orb_false_iff; split; apply Z.eqb_neq); lia.
Qed.

Lemma stripNewlines_id s : Forall (fun c => is_newline c = false) s -> stripNewlines s = s.
Proof. induction 1 as [| c s Hc _ IH]; simpl; [done |]. by rewrite Hc, IH. Qed.

Lemma group64_digits n v drop m : group64 (map char64 (digits 6 n v)) drop m =
  Some (put_be m (v mod 64 ^ Z.of_nat n / 2 ^ drop)).
Proof. unfold group64. rewrite lookup_digits64. cbn [fmap option_fmap option_map]. by rewrite undigits_digits. Qed.

Lemma put_be_group g v : bytes_ok g -> v = be g -> put_be (length g) v = g.
Proof. intros H ->. by apply put_be_be. Qed.

(** Three at a time. *)
Lemma list_ind3 {A} (P : list A -> Prop) : P [] -> (forall a, P [a]) -> (forall a b, P [a; b]) ->
  (forall a b c r, P r -> P (a :: b :: c :: r)) -> forall l, P l.
Proof.
  intros H0 H1 H2 H3. fix IH 1. intros [| a [| b [| c r]]]; [exact H0 | apply H1 | apply H2 |].
  apply H3, IH.
Qed.

Lemma decode64_encode64 s : bytes_ok s -> decode64 (encode64 s) = Some s.
Proof.
  induction s as [| a | a b | a b c r IH] using list_ind3; intros Hs; cbn [encode64]; [done | | |].
  - pose proof (be_bound [a] Hs) as Hb.
    change (map char64 (digits 6 2 (a * 2 ^ 4)) ++ [61; 61])
      with [char64 (a * 2 ^ 4 / 2 ^ 6 mod 2 ^ 6); char64 (a * 2 ^ 4 mod 2 ^ 6); 61; 61].
    cbn [decode64]. rewrite Z.eqb_refl. cbn [andb]. rewrite bool_decide_eq_true_2 by done.
    change [char64 (a * 2 ^ 4 / 2 ^ 6 mod 2 ^ 6); char64 (a * 2 ^ 4 mod 2 ^ 6)]
      with (map char64 (digits 6 2 (a * 2 ^ 4))).
    rewrite group64_digits. f_equal. apply (put_be_group [a]); [done |].
    change (be [a]) with a in *. change (256 ^ zlen [a]) with 256 in Hb.
    change (64 ^ Z.of_nat 2) with 4096. rewrite Z.mod_small by lia. apply Z.div_mul. lia.
  - pose proof (be_bound [a; b] Hs) as Hb. set (v := be [a; b] * 2 ^ 2).
    change (map char64 (digits 6 3 v) ++ [61])
      with [char64 (v / 2 ^ 6 / 2 ^ 6 mod 2 ^ 6); char64 (v / 2 ^ 6 mod 2 ^ 6); char64 (v mod 2 ^ 6); 61].
    cbn [decode64]. rewrite Z.eqb_refl. cbn [andb]. rewrite bool_decide_eq_true_2 by done.
    rewrite (proj2 (Z.eqb_neq (char64 (v mod 2 ^ 6)) 61)) by (apply char64_range, Z.mod_pos_bound; lia).
    change [char64 (v / 2 ^ 6 / 2 ^ 6 mod 2 ^ 6); char64 (v / 2 ^ 6 mod 2 ^ 6); char64 (v mod 2 ^ 6)]
      with (map char64 (digits 6 3 v)).
    rewrite group64_digits. f_equal. apply (put_be_group [a; b]); [done |]. unfold v.
    change (256 ^ zlen [a; b]) with 65536 in Hb. change (64 ^ Z.of_nat 3) with 262144.
    rewrite Z.mod_small by lia. apply Z.div_mul. lia.
  - assert (bytes_ok [a; b; c] /\ bytes_ok r) as [Hg Hr]
      by (rewrite !Forall_cons in *; naive_solver).
    pose proof (be_bound [a; b; c] Hg) as Hb. set (v := be [a; b; c]) in *.
    change (map char64 (digits 6 4 v) ++ encode64 r)
      with (char64 (v / 2 ^ 6 / 2 ^ 6 / 2 ^ 6 mod 2 ^ 6) :: char64 (v / 2 ^ 6 / 2 ^ 6 mod 2 ^ 6)
            :: char64 (v / 2 ^ 6 mod 2 ^ 6) :: char64 (v mod 2 ^ 6) :: encode64 r).
    cbn [decode64].
    rewrite (proj2 (Z.eqb_neq (char64 (v mod 2 ^ 6)) 61)) by (apply char64_range, Z.mod_pos_bound; lia).
    cbn [andb]. rewrite (IH Hr).
    change [char64 (v / 2 ^ 6 / 2 ^ 6 / 2 ^ 6 mod 2 ^ 6); char64 (v / 2 ^ 6 / 2 ^ 6 mod 2 ^ 6);
            char64 (v / 2 ^ 6 mod 2 ^ 6); char64 (v mod 2 ^ 6)] with (map char64 (digits 6 4 v)).
    rewrite group64_digits. f_equal.
    change (put_be 3 (v mod 64 ^ Z.of_nat 4 / 2 ^ 0) ++ r = [a; b; c] ++ r). f_equal.
    apply (put_be_group [a; b; c]); [done |].
    change (256 ^ zlen [a; b; c]) with 16777216 in Hb. change (64 ^ Z.of_nat 4) with 16777216.
    rewrite Z.mod_small, Z.div_1_r by lia. done.
Qed.

Lemma encode64_plain s : Forall (fun c => is_newline c = false) (encode64 s).
Proof.
  assert (forall n v, Forall (fun c => is_newline c = false) (map char64 (digits 6 n v))) as Hm.
  { intros n v. apply Forall_map. eapply Forall_impl; [apply (digits_range 6); lia |].
    intros d Hd. by apply char64_range. }
  induction s as [| a | a b | a b c r IH] using list_ind3; cbn [encode64]; [constructor | | |];
    (apply Forall_app; split; [apply Hm | by repeat constructor || exact IH]).
Qed.

Lemma graph_char64 v : 0 <= v < 64 -> graph (char64 v) = true.
Proof.
  intros H. unfold graph, char64.
  repeat (case_match; bool_hyps); apply andb_true_iff; split; apply Z.leb_le; lia.
Qed.

Lemma graph_encode64 s : forallb graph (encode64 s) = true.
Proof.
  assert (forall n v, forallb graph (map char64 (digits 6 n v)) = true) as Hm.
  { intros n v. apply forallb_forall. intros c (d & <- & Hd)%in_map_iff.
    apply list_elem_of_In in Hd. pose proof (digits_range 6 n v ltac:(lia)) as Hr.
    rewrite Forall_forall in Hr. by apply graph_char64, Hr. }
  induction s as [| a | a b | a b c r IH] using list_ind3; cbn [encode64]; [done | | |];
    rewrite forallb_app, Hm; [done .. | exact IH].
Qed.

Lemma base64_roundtrip s : bytes_ok s -> base64_decode (encode64 s) = Some s.
Proof.
  intros H. unfold base64_decode. rewrite stripNewlines_id by apply encode64_plain.
  by apply decode64_encode64.
Qed.

(** ** Lemmas: node IDs, two groups of five bytes *)

Lemma chars32_5 a b c d e : chars32 [a; b; c; d; e] = map char32 (digits 5 8 (be [a; b; c; d; e])).
Proof. unfold chars32. change (8 * zlen [a; b; c; d; e]) with 40. rewrite Z.mul_1_r. done. Qed.

Lemma group32_8 v : group32 (map char32 (digits 5 8 v)) = Some (put_be 5 (v mod 2 ^ 40)).
Proof.
  unfold group32. rewrite lookup_digits32. cbn [fmap option_fmap option_map].
  rewrite undigits_digits by lia. unfold zlen. rewrite length_map, length_digits.
  change (5 * Z.of_nat 8 - 8 * bytes32 (Z.of_nat 8)) with 0. rewrite Z.div_1_r. done.
Qed.

Lemma decode32_chars g v r : bytes_ok g -> length g = 5%nat -> v = be g ->
  decode32 (map char32 (digits 5 8 v) ++ r) = match decode32 r with Some y => Some (g ++ y) | None => None end.
Proof.
  intros Hg Hl ->. pose proof (be_bound g Hg) as Hb. unfold zlen in Hb. rewrite Hl in Hb.
  pose proof (group32_8 (be g)) as Hgr.
  destruct (map char32 (digits 5 8 (be g))) as [| c1 [| c2 [| c3 [| c4 [| c5 [| c6 [| c7 [| c8 [|]]]]]]]]] eqn:E;
    try (apply (f_equal length) in E; rewrite length_map, length_digits in E; discriminate).
  cbn [app decode32]. rewrite Hgr. rewrite Z.mod_small by exact Hb.
  rewrite <- Hl, put_be_be by done. done.
Qed.

Lemma base32_roundtrip10 s : bytes_ok s -> length s = 10%nat -> base32_decode (encode32 s) = Some s.
Proof.
  intros Hs Hl.
  do 10 (destruct s as [| ? s]; [discriminate |]). destruct s; [| discriminate].
  cbn [encode32]. rewrite !chars32_5. change (chars32 []) with (@nil Z). rewrite app_nil_r.
  unfold base32_decode. rewrite stripNewlines_id.
  - assert (bytes_ok [z; z0; z1; z2; z3] /\ bytes_ok [z4; z5; z6; z7; z8]) as [H1 H2]
      by (rewrite !Forall_cons in *; naive_solver).
    rewrite (decode32_chars [z; z0; z1; z2; z3]) by done.
    rewrite <- (app_nil_r (map char32 (digits 5 8 (be [z4; z5; z6; z7; z8])))).
    rewrite (decode32_chars [z4; z5; z6; z7; z8]) by done. done.
  - apply Forall_app; split; (apply Forall_map; eapply Forall_impl; [apply (digits_range 5); lia |]);
      intros d Hd; by apply char32_range.
Qed.

Lemma length_encode32_10 s : length s = 10%nat -> length (encode32 s) = 16%nat.
Proof.
  intros Hl. do 10 (destruct s as [| ? s]; [discriminate |]). destruct s; [| discriminate].
  cbn [encode32]. rewrite !chars32_5, !length_app, !length_map, !length_digits. done.
Qed.

Lemma encode32_chars s : Forall (fun c => 50 <= c <= 55 \/ 65 <= c <= 90) (encode32 s).
Proof.
  assert (forall g, Forall (fun c => 50 <= c <= 55 \/ 65 <= c <= 90) (chars32 g)) as Hc.
  { intros g. apply Forall_map. eapply Forall_impl; [apply (digits_range 5); lia |].
    intros d Hd. pose proof (char32_range d Hd). simpl. lia. }
  revert s. fix IH 1. intros [| a [| b [| c [| d [| e r]]]]]; try apply Hc.
  cbn [encode32]. apply Forall_app. split; [apply Hc | apply IH].
Qed.

Lemma ToUpper_ToLower s : Forall (fun c => 50 <= c <= 55 \/ 65 <= c <= 90) s -> ToUpper (ToLower s) = s.
Proof.
  induction 1 as [| c s Hc _ IH]; [done |]. rewrite ToLower_cons by lia.
  destruct ((65 <=? c) && (c <=? 90)) eqn:E; bool_hyps.
  - rewrite ToUpper_cons by lia. rewrite (proj2 (Z.leb_le 97 _)), (proj2 (Z.leb_le _ 122)) by lia.
    cbn [andb]. rewrite IH. f_equal. lia.
  - rewrite ToUpper_cons by lia. rewrite (proj2 (Z.leb_gt 97 c)) by lia. cbn [andb]. by rewrite IH.
Qed.
