(* ===== verification/Crypto.v ===== *)
(** The cryptographic primitives the program calls (crypto/sha256, crypto/hkdf,
    crypto/aes, crypto/ed25519, golang.org/x/crypto): a class of operations,
    which the modelled code takes as a parameter, and a class of the facts of
    them that the proofs use. Every fact holds of the real functions: the boxes
    are deterministic and an opened box is the sealed message, Diffie-Hellman
    is symmetric, digests have their length. Nothing is said about what an
    attacker cannot compute. [toy] satisfies the facts, so that theorems about
    any instance can be evaluated on one. *)
From stdpp Require Import base list strings.
From Stdlib Require Import ZArith Lia.
From S2P Require Import Prelude.

Open Scope Z_scope.

Class Crypto := {
  sha256 : bytes -> bytes;
  blake2s : bytes -> bytes;
  (** secret, salt, label, length *)
  hkdf : bytes -> bytes -> bytes -> nat -> bytes;
  (** key, block *)
  aes128 : bytes -> bytes -> bytes;
  (** message, nonce, key *)
  secretbox_seal : bytes -> bytes -> bytes -> bytes;
  secretbox_open : bytes -> bytes -> bytes -> option bytes;
  (** the public key of a private key *)
  x25519 : bytes -> bytes;
  (** message, nonce, the other's public key, our private key *)
  box_seal : bytes -> bytes -> bytes -> bytes -> bytes;
  box_open : bytes -> bytes -> bytes -> bytes -> option bytes;
  (** message, public key, randomness *)
  anon_seal : bytes -> bytes -> bytes -> bytes;
  (** ciphertext, public key, private key *)
  anon_open : bytes -> bytes -> bytes -> option bytes;
  ed_public : bytes -> bytes;
  ed_sign : bytes -> bytes -> bytes;
  ed_verify : bytes -> bytes -> bytes -> bool }.

Class CryptoLaws (C : Crypto) := {
  length_sha256 m : length (sha256 m) = 32%nat;
  sha256_ok m : bytes_ok (sha256 m);
  length_blake2s m : length (blake2s m) = 32%nat;
  blake2s_ok m : bytes_ok (blake2s m);
  length_hkdf s salt l n : length (hkdf s salt l n) = n;
  hkdf_ok s salt l n : bytes_ok (hkdf s salt l n);
  length_aes128 k b : length (aes128 k b) = 16%nat;
  aes128_ok k b : bytes_ok (aes128 k b);
  length_secretbox m n k : length (secretbox_seal m n k) = (16 + length m)%nat;
  secretbox_open_seal m n k : secretbox_open (secretbox_seal m n k) n k = Some m;
  secretbox_open_inv c n k m : secretbox_open c n k = Some m -> c = secretbox_seal m n k;
  length_x25519 s : length s = 32%nat -> length (x25519 s) = 32%nat;
  x25519_ok s : bytes_ok s -> bytes_ok (x25519 s);
  length_box m n p s : length (box_seal m n p s) = (16 + length m)%nat;
  box_sym m n a b : box_seal m n (x25519 b) a = box_seal m n (x25519 a) b;
  box_open_seal m n p s : box_open (box_seal m n p s) n p s = Some m;
  box_open_inv c n p s m : box_open c n p s = Some m -> c = box_seal m n p s;
  length_anon m p r : length (anon_seal m p r) = (48 + length m)%nat;
  anon_open_seal m r s : anon_open (anon_seal m (x25519 s) r) (x25519 s) s = Some m;
  length_ed_public s : length s = 32%nat -> length (ed_public s) = 32%nat;
  ed_public_ok s : bytes_ok s -> bytes_ok (ed_public s);
  ed_sign_ok s m : bytes_ok (ed_sign s m);
  ed_verify_sign s m : ed_verify (ed_public s) m (ed_sign s m) = true }.

(** Nonces and keys that reach a box are what the other side reads. *)
Lemma box_open_peer `{CryptoLaws} m n a b :
  box_open (box_seal m n (x25519 b) a) n (x25519 a) b = Some m.
Proof. rewrite box_sym. apply box_open_seal. Qed.

Lemma zlen_secretbox `{CryptoLaws} m n k : zlen (secretbox_seal m n k) = 16 + zlen m.
Proof. unfold zlen. rewrite length_secretbox. lia. Qed.

Lemma zlen_box `{CryptoLaws} m n p s : zlen (box_seal m n p s) = 16 + zlen m.
Proof. unfold zlen. rewrite length_box. lia. Qed.

Lemma zlen_anon `{CryptoLaws} m p r : zlen (anon_seal m p r) = 48 + zlen m.
Proof. unfold zlen. rewrite length_anon. lia. Qed.

(** ** A toy instance *)

Definition mix (l : bytes) : Z := fold_left (fun acc b => (acc * 31 + b + 7) mod 2 ^ 128) l 1.

Definition toy_seal (m n k : bytes) : bytes := put_be 16 (mix (k ++ n ++ m)) ++ m.
Definition toy_open (c n k : bytes) : option bytes :=
  if bool_decide (length c < 16)%nat then None
  else if bool_decide (take 16 c = put_be 16 (mix (k ++ n ++ drop 16 c))) then Some (drop 16 c) else None.
Definition toy_shared (p s : bytes) : bytes := xor_bytes p s.

#[export] Instance toy : Crypto := {
  sha256 m := put_be 32 (mix m * (2 ^ 128 + 1));
  blake2s m := put_be 32 (mix (1 :: m) * (2 ^ 128 + 1));
  hkdf s salt l n := put_be n (mix (s ++ salt ++ l) * mix (l ++ s));
  aes128 k b := put_be 16 (mix (k ++ b));
  secretbox_seal := toy_seal;
  secretbox_open := toy_open;
  x25519 s := s;
  box_seal m n p s := toy_seal m n (toy_shared p s);
  box_open c n p s := toy_open c n (toy_shared p s);
  anon_seal m p r := put_be 32 (mix r) ++ toy_seal m [] p;
  anon_open c p s := toy_open (drop 32 c) [] p;
  ed_public s := s;
  ed_sign s m := put_be 64 (mix (s ++ m));
  ed_verify p m sig := bool_decide (sig = put_be 64 (mix (p ++ m))) }.

Lemma length_toy_seal m n k : length (toy_seal m n k) = (16 + length m)%nat.
Proof. unfold toy_seal. by rewrite length_app, length_put_be. Qed.

Lemma toy_open_seal m n k : toy_open (toy_seal m n k) n k = Some m.
Proof.
  unfold toy_open. rewrite length_toy_seal, bool_decide_eq_false_2 by lia. unfold toy_seal.
  rewrite drop_app_length' by (by rewrite length_put_be).
  rewrite take_app_length' by (by rewrite length_put_be).
  by rewrite bool_decide_eq_true_2.
Qed.

Lemma toy_open_inv c n k m : toy_open c n k = Some m -> c = toy_seal m n k.
Proof.
  unfold toy_open. repeat case_bool_decide; intros [=]; subst.
  unfold toy_seal. rewrite <- (take_drop 16 c) at 1. congruence.
Qed.

#[export] Instance toy_laws : CryptoLaws toy.
Proof.
  split; intros; cbn -[put_be]; try apply length_put_be; try apply put_be_ok.
  - apply length_toy_seal.
  - apply toy_open_seal.
  - by apply toy_open_inv.
  - done.
  - done.
  - apply length_toy_seal.
  - f_equal. unfold toy_shared, xor_bytes.
    revert b. induction a as [| x a IH]; intros [| y b]; try done. simpl. by rewrite Z.lxor_comm, IH.
  - apply toy_open_seal.
  - by apply toy_open_inv.
  - rewrite length_app, length_put_be, length_toy_seal. done.
  - rewrite drop_app_length' by (by rewrite length_put_be). apply toy_open_seal.
  - done.
  - done.
  - by apply bool_decide_eq_true_2.
Qed.
