(* ===== verification/Obfs.v ===== *)
(** What a room secret determines (internal/obfs/obfs.go): the obfuscation
    profile of the room and the hidden tag in front of every datagram. *)
From stdpp Require Import base list strings.
From Stdlib Require Import ZArith Lia.
From S2P Require Import Prelude GoStrings Encoding Crypto.

Open Scope Z_scope.

Module obfs.

Definition SecretLen : Z := 32.
Definition TagLen : Z := 8.
Definition nonceLen : Z := 4.
Definition hkdfSalt : bytes := str "zeropentime/room/v1".
Definition MaxTransportPadding : Z := 32.
Definition MinPadding : Z := 12.

(** ** Room secrets *)

Definition ParseSecret (v : bytes) : option bytes :=
  match base64_decode (TrimSpace v) with
  | Some b => if zlen b =? SecretLen then Some b else None
  | None => None
  end.

Definition IsZero (s : bytes) : bool := bool_decide (s = zeros 32).
Definition Secret_String (s : bytes) : bytes := encode64 s.

(** ** The profile *)

Record Range := MkRange { Lo : Z; Hi : Z }.

Definition Range_String (r : Range) : bytes :=
  if Lo r =? Hi r then Utoa (Lo r) else Utoa (Lo r) ++ 45 :: Utoa (Hi r).

Record Profile := MkProfile {
  Headers : list Range;   (* H1-H4 *)
  Paddings : list Z;      (* S1-S4, uint16 *)
  HeaderProtectionKey : bytes;
  PresharedKey : bytes;
  TagKey : bytes }.

Definition swap (l : list Z) (i j : nat) : list Z :=
  <[i := nth j l 0]> (<[j := nth i l 0]> l).

(** [for i := 3; i > 0; i--] *)
Fixpoint shuffle (i : nat) (r : bytes) (order : list Z) : list Z :=
  match i with
  | O => order
  | S i' => shuffle i' r (swap order i (Z.to_nat (nth i r 0 mod (Z.of_nat i + 1))))
  end.

Definition quarter : Z := 2 ^ 30.

(** [binary.BigEndian.Uint32(r[i:])] *)
Definition word (r : bytes) (i : Z) : Z := be (sub r i (i + 4)).

(** One turn of the loop over the headers, in [uint64] arithmetic. *)
Definition headerRange (r : bytes) (order : list Z) (i : nat) : Range :=
  let base := u64 (nth i order 0 * quarter) in
  let base := if base =? 0 then 2 ^ 16 else base in
  let width := u64 (2 ^ 20 + word r (4 + 4 * Z.of_nat i) mod 2 ^ 24) in
  let span := u64 (quarter - base mod quarter - width - 1) in
  let lo := u64 (base + word r (20 + 4 * Z.of_nat i) mod span) in
  MkRange (u32 lo) (u32 (lo + width)).

Definition paddings (r : bytes) : list Z :=
  let s i := u16 (16 + nth i r 0 mod 128) in
  let s1 := s 36%nat in
  let s2 := s 37%nat in
  let s3 := s 38%nat in
  let s2 := if u16 (s1 + 148) =? u16 (s2 + 92) then u16 (s2 + 1) else s2 in
  [s1; s2; s3; u16 (MinPadding + nth 39%nat r 0 mod (MaxTransportPadding - MinPadding + 1))].

Section Crypto.
Context `{CR : Crypto}.

Definition derive (s : bytes) (label : string) (n : nat) : bytes := hkdf s hkdfSalt (str label) n.

Definition RoomID (s : bytes) : bytes := hex_encode (derive s "room-id" 16).

Definition Derive (s : bytes) : Profile :=
  let r := derive s "awg-params" 64 in
  let order := shuffle 3 r [0; 1; 2; 3] in
  MkProfile
    (map (headerRange r order) [0%nat; 1%nat; 2%nat; 3%nat])
    (paddings r)
    (derive s "awg-header-protection" 32)
    (derive s "wireguard-psk" 32)
    (derive s "room-tag" 16).

(** ** The room tag *)

Definition mac (key nonce : bytes) : bytes := aes128 key (copy_into (zeros 16) nonce).

(** [Put(dst)] with the random bytes [nonce]: the new contents of [dst], a
    slice whose capacity is its length; slicing beyond that panics. *)
Definition Put {E} (key nonce dst : bytes) : res E bytes :=
  if zlen dst <? TagLen then Panic
  else Ok (nonce ++ sub (mac key nonce) 0 (TagLen - nonceLen) ++ sub dst TagLen (zlen dst)).

Definition Match (key pkt : bytes) : bool :=
  if zlen pkt <? TagLen then false
  else bool_decide (sub (mac key (sub pkt 0 nonceLen)) 0 (TagLen - nonceLen) = sub pkt nonceLen TagLen).

(** A tag is what [Put] writes into eight bytes. *)
Definition tag (key nonce : bytes) : bytes := nonce ++ sub (mac key nonce) 0 4.

End Crypto.

(** ** Rendering the device configuration *)

Record ClientParams := MkClientParams {
  Jc : Z; Jmin : Z; Jmax : Z; I_ : list bytes; ContentPadding : bytes }.

Definition DefaultClientParams : ClientParams :=
  MkClientParams 4 40 120 (repeat [] 5) (str "0-32").

Definition line (key value : bytes) : bytes := key ++ 61 :: value ++ [10].

(** [c%d=%s] lines for a list, numbered from 1. *)
Fixpoint numbered (c : bytes) (i : Z) (l : list bytes) : bytes :=
  match l with
  | [] => []
  | v :: l => line (c ++ Utoa i) v ++ numbered c (i + 1) l
  end.

(** The loop over [c.I] skips the empty entries but counts them. *)
Fixpoint numberedI (i : Z) (l : list bytes) : bytes :=
  match l with
  | [] => []
  | v :: l => (if bool_decide (v = []) then [] else line (str "i" ++ Utoa i) v) ++ numberedI (i + 1) l
  end.

Definition DeviceUAPI (p : Profile) (c : ClientParams) : bytes :=
  line (str "jc") (Itoa (Jc c)) ++ line (str "jmin") (Itoa (Jmin c)) ++ line (str "jmax") (Itoa (Jmax c))
  ++ numbered (str "s") 1 (map Utoa (Paddings p))
  ++ numbered (str "h") 1 (map Range_String (Headers p))
  ++ numberedI 1 (I_ c)
  ++ line (str "header_protection_key") (hex_encode (HeaderProtectionKey p))
  ++ (if bool_decide (ContentPadding c = []) then []
      else line (str "content_padding_addition") (ContentPadding c)).

Example DeviceUAPI_ex : DeviceUAPI (MkProfile [MkRange 5 5; MkRange 7 9] [16; 17] [171] [] [])
    (MkClientParams 4 40 120 [[]; str "x"] (str "0-32")) =
  str "jc=4" ++ 10 :: str "jmin=40" ++ 10 :: str "jmax=120" ++ 10 :: str "s1=16" ++ 10 :: str "s2=17" ++ 10 ::
  str "h1=5" ++ 10 :: str "h2=7-9" ++ 10 :: str "i2=x" ++ 10 :: str "header_protection_key=ab" ++ 10 ::
  str "content_padding_addition=0-32" ++ [10].
Proof. vm_compute. reflexivity. Qed.

(** ** Lemmas: the profile *)

Lemma swap_perm l i j : (i < length l)%nat -> (j < length l)%nat -> swap l i j ≡ₚ l.
Proof.
  intros Hi Hj. unfold swap.
  destruct (lookup_lt_is_Some_2 l i Hi) as [a Ha]. destruct (lookup_lt_is_Some_2 l j Hj) as [b Hb].
  rewrite (nth_lookup_Some l j 0 b Hb), (nth_lookup_Some l i 0 a Ha).
  by apply Permutation_insert_swap.
Qed.

Lemma shuffle_perm i r l : (i < length l)%nat -> shuffle i r l ≡ₚ l.
Proof.
  revert l. induction i as [| i IH]; intros l Hl; [done |]. cbn [shuffle].
  pose proof (Z.mod_pos_bound (nth (S i) r 0) (Z.of_nat (S i) + 1) ltac:(lia)).
  assert (swap l (S i) (Z.to_nat (nth (S i) r 0 mod (Z.of_nat (S i) + 1))) ≡ₚ l) as Hs
    by (apply swap_perm; lia).
  rewrite IH; [exact Hs |]. rewrite Hs. lia.
Qed.

Lemma shuffle4 r i : (i < 4)%nat -> 0 <= nth i (shuffle 3 r [0; 1; 2; 3]) 0 <= 3.
Proof.
  intros Hi. pose proof (shuffle_perm 3 r [0; 1; 2; 3] ltac:(simpl; lia)) as Hp.
  assert (In (nth i (shuffle 3 r [0; 1; 2; 3]) 0) [0; 1; 2; 3]) as Hin.
  { eapply Permutation_in; [exact Hp |]. apply nth_In. by rewrite Hp. }
  destruct Hin as [H | [H | [H | [H | []]]]]; lia.
Qed.

Lemma shuffle4_distinct r i j : (i < 4)%nat -> (j < 4)%nat -> i <> j ->
  nth i (shuffle 3 r [0; 1; 2; 3]) 0 <> nth j (shuffle 3 r [0; 1; 2; 3]) 0.
Proof.
  intros Hi Hj Hn He. apply Hn. set (l := shuffle 3 r [0; 1; 2; 3]) in *.
  assert (l ≡ₚ [0; 1; 2; 3]) as Hp by (apply shuffle_perm; simpl; lia).
  assert (NoDup l) as Hd.
  { rewrite Hp. apply (bool_decide_unpack (NoDup _)). vm_compute. exact I. }
  assert (length l = 4%nat) as Hl by (by rewrite Hp).
  destruct (lookup_lt_is_Some_2 l i ltac:(lia)) as [x Hx]. destruct (lookup_lt_is_Some_2 l j ltac:(lia)) as [y Hy].
  rewrite (nth_lookup_Some l i 0 x Hx), (nth_lookup_Some l j 0 y Hy) in He. subst.
  by apply (NoDup_lookup l i j y).
Qed.

Lemma word_nonneg r i : bytes_ok r -> 0 <= word r i.
Proof. intros H. by apply be_sub_nonneg. Qed.

(** The range of header [i] lies in its quarter and no step wraps around. *)
Lemma headerRange_spec r order i q : bytes_ok r -> nth i order 0 = q -> 0 <= q <= 3 ->
  let h := headerRange r order i in
  q * quarter <= Lo h /\ 2 ^ 16 <= Lo h /\ Hi h < (q + 1) * quarter
  /\ 2 ^ 20 <= Hi h - Lo h < 2 ^ 20 + 2 ^ 24.
Proof.
  intros Hr Hq Hq' h.
  set (base := if q =? 0 then 2 ^ 16 else q * quarter).
  set (w := 2 ^ 20 + word r (4 + 4 * Z.of_nat i) mod 2 ^ 24).
  assert (2 ^ 20 <= w < 2 ^ 20 + 2 ^ 24) as Hw
    by (unfold w; pose proof (Z.mod_pos_bound (word r (4 + 4 * Z.of_nat i)) (2 ^ 24) ltac:(lia)); lia).
  assert (base mod quarter = base - q * quarter /\ q * quarter <= base <= q * quarter + 2 ^ 16 /\ 2 ^ 16 <= base)
    as (Hm & Hb & Hb').
  { unfold base, quarter. destruct (Z.eqb_spec q 0) as [-> |].
    - split; [reflexivity | lia].
    - rewrite Z.mod_mul by lia. lia. }
  set (span := quarter - (base - q * quarter) - w - 1).
  assert (0 < span < 2 ^ 30) as Hspan by (unfold span, quarter in *; lia).
  set (x := word r (20 + 4 * Z.of_nat i) mod span).
  assert (0 <= x < span) as Hx by (apply Z.mod_pos_bound; lia).
  assert (h = MkRange (base + x) (base + x + w)) as ->.
  { unfold h, headerRange. rewrite Hq. unfold u64, u32.
    rewrite (Z.mod_small (q * quarter)) by (unfold quarter; lia).
    replace (q * quarter =? 0) with (q =? 0)
      by (apply eq_true_iff_eq; rewrite !Z.eqb_eq; unfold quarter; lia).
    fold base. fold w. rewrite (Z.mod_small w) by lia. rewrite Hm. fold span.
    rewrite (Z.mod_small span) by lia. fold x.
    unfold span, quarter in *. rewrite !(Z.mod_small (base + x)) by lia.
    rewrite (Z.mod_small (base + x + w)) by lia. done. }
  cbn [Lo Hi]. unfold span, quarter in *. lia.
Qed.

Lemma paddings_spec r : bytes_ok r -> exists s1 s2 s3 s4, paddings r = [s1; s2; s3; s4]
  /\ 16 <= s1 <= 143 /\ 16 <= s2 <= 144 /\ 16 <= s3 <= 143
  /\ MinPadding <= s4 <= MaxTransportPadding /\ s1 + 148 <> s2 + 92.
Proof.
  intros Hr. unfold paddings, MinPadding, MaxTransportPadding.
  generalize (nth 36 r 0) (nth 37 r 0) (nth 38 r 0) (nth 39 r 0). intros a b c d.
  pose proof (Z.mod_pos_bound a 128 ltac:(lia)). pose proof (Z.mod_pos_bound b 128 ltac:(lia)).
  pose proof (Z.mod_pos_bound c 128 ltac:(lia)). pose proof (Z.mod_pos_bound d (32 - 12 + 1) ltac:(lia)).
  unfold u16. rewrite !(Z.mod_small (16 + _ mod 128)) by lia.
  rewrite (Z.mod_small (16 + a mod 128 + 148)), (Z.mod_small (16 + b mod 128 + 92)),
    (Z.mod_small (16 + b mod 128 + 1)), (Z.mod_small (12 + _)) by lia.
  destruct (Z.eqb_spec (16 + a mod 128 + 148) (16 + b mod 128 + 92));
    eexists _, _, _, _; (split; [reflexivity | lia]).
Qed.

(** ** Properties *)

(** The four header ranges of any room profile are well formed, pairwise
    disjoint, above 65535 (so never one of WireGuard's types 1-4) and between
    2^20 and 2^20+2^24 wide; every padding is large enough for header
    protection and the handshake messages have distinct sizes. *)
Theorem Derive_spec `{CL : CryptoLaws} (s : bytes) :
  let p := Derive s in
  (forall i j hi hj, i <> j -> Headers p !! i = Some hi -> Headers p !! j = Some hj ->
    Hi hi < Lo hj \/ Hi hj < Lo hi)
  /\ Forall (fun h => 2 ^ 16 <= Lo h /\ 2 ^ 20 <= Hi h - Lo h < 2 ^ 20 + 2 ^ 24 /\ Hi h < 2 ^ 32) (Headers p)
  /\ Forall (fun x => MinPadding <= x < 2 ^ 8) (Paddings p)
  /\ nth 3 (Paddings p) 0 <= MaxTransportPadding
  /\ nth 0 (Paddings p) 0 + 148 <> nth 1 (Paddings p) 0 + 92
  /\ length (HeaderProtectionKey p) = 32%nat /\ length (PresharedKey p) = 32%nat
  /\ length (TagKey p) = 16%nat.
Proof.
  set (r := derive s "awg-params" 64). set (order := shuffle 3 r [0; 1; 2; 3]).
  assert (bytes_ok r) as Hr by apply hkdf_ok.
  assert (forall i, (i < 4)%nat -> Headers (Derive s) !! i = Some (headerRange r order i)) as Hh.
  { intros i Hi. do 4 (destruct i as [| i]; [reflexivity |]). lia. }
  assert (forall i h, Headers (Derive s) !! i = Some h -> (i < 4)%nat /\ h = headerRange r order i) as Hinv.
  { intros i h Hi. assert (i < 4)%nat by (by apply lookup_lt_Some in Hi). rewrite Hh in Hi by done.
    by injection Hi as <-. }
  cbn zeta. split; [| split].
  - intros i j hi hj Hn Hi Hj. apply Hinv in Hi as [Hi ->]. apply Hinv in Hj as [Hj ->].
    pose proof (headerRange_spec r order i _ Hr eq_refl (shuffle4 r i Hi)) as H1.
    pose proof (headerRange_spec r order j _ Hr eq_refl (shuffle4 r j Hj)) as H2.
    pose proof (shuffle4_distinct r i j Hi Hj Hn) as Hd. fold order in Hd. cbn zeta in *.
    unfold quarter in *. lia.
  - apply Forall_lookup. intros i h Hi. apply Hinv in Hi as [Hi ->].
    pose proof (headerRange_spec r order i _ Hr eq_refl (shuffle4 r i Hi)) as H1.
    pose proof (shuffle4 r i Hi). fold order in H. cbn zeta in *. unfold quarter in *. lia.
  - destruct (paddings_spec r Hr) as (s1 & s2 & s3 & s4 & Hp & ? & ? & ? & ? & ?).
    change (Paddings (Derive s)) with (paddings r). rewrite Hp. cbn [nth].
    unfold MinPadding, MaxTransportPadding in *.
    split; [repeat constructor; lia |]. split; [lia |]. split; [lia |].
    split; [apply length_hkdf |]. split; apply length_hkdf.
Qed.

(** The comment on S1-S3 says 16-143: S2 can be 144. *)
Example paddings_144 : paddings (zeros 36 ++ [71; 127; 0; 0]) = [87; 144; 16; 12].
Proof. vm_compute. reflexivity. Qed.

(** ** The tag *)

Lemma length_mac `{CL : CryptoLaws} key nonce : length (mac key nonce) = 16%nat.
Proof. apply length_aes128. Qed.

Lemma zlen_tag `{CL : CryptoLaws} key nonce : zlen nonce = 4 -> zlen (tag key nonce) = 8.
Proof.
  intros H. unfold tag. rewrite zlen_app, zlen_sub by (unfold zlen; rewrite ?length_mac; lia). lia.
Qed.

Lemma Match_spec `{CL : CryptoLaws} key pkt :
  Match key pkt = true <-> exists nonce rest, zlen nonce = 4 /\ pkt = tag key nonce ++ rest.
Proof.
  unfold Match, TagLen, nonceLen. split.
  - destruct (Z.ltb_spec (zlen pkt) 8) as [| Hl]; [done |]. rewrite bool_decide_eq_true. intros Hm.
    exists (sub pkt 0 4), (drop 8 pkt). split; [rewrite zlen_sub; lia |].
    unfold tag. change (8 - 4) with 4 in Hm. rewrite Hm. unfold sub. change (Z.to_nat (4 - 0)) with 4%nat.
    change (Z.to_nat (8 - 4)) with 4%nat. change (Z.to_nat 0) with 0%nat. change (Z.to_nat 4) with 4%nat.
    rewrite drop_0, <- app_assoc. change 8%nat with (4 + 4)%nat. rewrite <- drop_drop.
    by rewrite !take_drop.
  - intros (nonce & rest & Hn & ->). pose proof (zlen_tag key nonce Hn) as Ht.
    pose proof (zlen_nonneg rest). rewrite zlen_app, Ht. rewrite (proj2 (Z.ltb_ge _ 8)) by lia.
    apply bool_decide_eq_true. rewrite (sub_app_l (tag key nonce) rest) by lia.
    rewrite (sub_app_l (tag key nonce) rest) by lia. unfold tag.
    rewrite (sub_app_head nonce _ 4) by lia. symmetry. apply sub_app_tail; [lia |].
    rewrite zlen_sub by (unfold zlen; rewrite ?length_mac; lia). lia.
Qed.

Lemma Put_tag `{CL : CryptoLaws} {E} key nonce n : zlen nonce = 4 ->
  Put (E := E) key nonce (zeros (8 + n)) = Ok (tag key nonce ++ zeros n).
Proof.
  intros Hn. unfold Put, TagLen, nonceLen.
  assert (zlen (zeros (8 + n)) = 8 + Z.of_nat n) as Hz by (unfold zlen, zeros; rewrite length_replicate; lia).
  rewrite Hz, (proj2 (Z.ltb_ge _ 8)) by lia. f_equal. unfold tag. rewrite <- app_assoc. f_equal. f_equal.
  unfold sub, zeros. change (Z.to_nat 8) with 8%nat. rewrite drop_replicate, take_replicate. f_equal. lia.
Qed.

(** A packet carries a room's tag exactly when it starts with what [Put]
    writes for some nonce: a packet tagged for the room always matches,
    whatever follows the tag, and a packet shorter than a tag never does. *)
Theorem Match_iff_Put `{CL : CryptoLaws} (key pkt : bytes) :
  Match key pkt = true <->
  exists nonce rest, zlen nonce = 4 /\
    Put (E := unit) key nonce (zeros 8 ++ rest) = Ok pkt.
Proof.
  rewrite Match_spec. split; intros (nonce & rest & Hn & H); exists nonce, rest; split; try exact Hn.
  - unfold Put, TagLen, nonceLen. pose proof (zlen_nonneg rest).
    assert (zlen (zeros 8 ++ rest) = 8 + zlen rest) as Hz by (by rewrite zlen_app).
    rewrite Hz, (proj2 (Z.ltb_ge _ 8)) by lia. f_equal. rewrite H. unfold tag. rewrite <- app_assoc.
    f_equal. f_equal. apply (sub_app_tail (zeros 8) rest); change (zlen (zeros 8)) with 8; lia.
  - unfold Put, TagLen, nonceLen in H. pose proof (zlen_nonneg rest).
    assert (zlen (zeros 8 ++ rest) = 8 + zlen rest) as Hz by (by rewrite zlen_app).
    rewrite Hz, (proj2 (Z.ltb_ge _ 8)) in H by lia. injection H as <-. unfold tag. rewrite <- app_assoc.
    f_equal. f_equal. apply (sub_app_tail (zeros 8) rest); change (zlen (zeros 8)) with 8; lia.
Qed.

(** ** Room secrets as text *)

(** The text form of a room secret parses back to the same secret. *)
Theorem ParseSecret_String (s : bytes) (Hs : bytes_ok s) (Hl : zlen s = SecretLen) :
  ParseSecret (Secret_String s) = Some s.
Proof.
  unfold ParseSecret, Secret_String. rewrite TrimSpace_word by apply graph_no_space, graph_encode64.
  rewrite base64_roundtrip by done. by rewrite Hl.
Qed.

(** ** Witnesses *)

Lemma Derive_spec_witness : Forall (fun x => MinPadding <= x < 2 ^ 8) (Paddings (Derive (zeros 32))).
Proof. apply (Derive_spec (C := toy) (zeros 32)). Defined.

Lemma Match_iff_Put_witness : Match (CR := toy) (zeros 16) (tag (CR := toy) (zeros 16) [1; 2; 3; 4] ++ [9]) = true.
Proof.
  apply (Match_iff_Put (C := toy)). exists [1; 2; 3; 4], [9]. split; vm_compute; reflexivity.
Defined.

Lemma ParseSecret_String_witness : ParseSecret (Secret_String (zeros 31 ++ [255])) = Some (zeros 31 ++ [255]).
Proof.
  apply ParseSecret_String; [| reflexivity].
  apply (bool_decide_unpack (Forall (fun b => 0 <= b < 256) _)). vm_compute. exact I.
Defined.

End obfs.
