(* ===== verification/Identity.v ===== *)
(** Node identities (internal/identity/identity.go): the key file, the keys a
    node derives from its seed, node IDs, and WireGuard keys as text. An
    Ed25519 private key is represented by its 32-byte seed. *)
From stdpp Require Import base list strings.
From Stdlib Require Import ZArith Lia.
From S2P Require Import Prelude GoStrings Encoding Crypto.

Open Scope Z_scope.

Module identity.

Definition keyFilePrefix : bytes := str "zpt-node-key-v1:".
Definition wgKeySalt : bytes := str "zeropentime/wireguard-room-key/v1".
Definition KeyLen : Z := 32.
Definition SeedSize : Z := 32.

(** ** The key file *)

Inductive error : Type := EFormat | ECorrupt.

(** [Load] on the contents of the file: the seed. *)
Definition Load (raw : bytes) : res error bytes :=
  let s := TrimSpace raw in
  if negb (HasPrefix s keyFilePrefix) then Err EFormat
  else match base64_decode (drop (length keyFilePrefix) s) with
       | Some seed => if zlen seed =? SeedSize then Ok seed else Err ECorrupt
       | None => Err ECorrupt
       end.

(** What [Save] writes. *)
Definition Save (seed : bytes) : bytes := keyFilePrefix ++ encode64 seed ++ [10].

(** ** Keys *)

Definition ParseKey (s : bytes) : option bytes :=
  match base64_decode (TrimSpace s) with
  | Some b => if zlen b =? KeyLen then Some b else None
  | None => None
  end.

Definition Key_String (k : bytes) : bytes := encode64 k.
Definition IsZero (k : bytes) : bool := bool_decide (k = zeros 32).

Definition clamp (k : bytes) : bytes :=
  let k := <[0%nat := Z.land (nth 0 k 0) 248]> k in
  <[31%nat := Z.lor (Z.land (nth 31 k 0) 127) 64]> k.

Section Crypto.
Context `{CR : Crypto}.

Definition Public (k : bytes) : bytes := x25519 k.

Definition PublicKey (seed : bytes) : bytes := ed_public seed.
Definition Sign (seed msg : bytes) : bytes := ed_sign seed msg.

Definition RoomKey (seed roomID : bytes) : bytes := clamp (hkdf seed wgKeySalt (str "room:" ++ roomID) 32).

Definition BoxKey (seed : bytes) : bytes * bytes :=
  let priv := clamp (hkdf seed wgKeySalt (str "controller-box") 32) in (priv, Public priv).

Definition DiscoKey (seed : bytes) : bytes * bytes :=
  let priv := clamp (hkdf seed wgKeySalt (str "disco") 32) in (priv, Public priv).

(** [strings.ToLower] of upper-case letters and digits. *)
Definition NodeIDFromPublic (pub : bytes) : bytes := ToLower (encode32 (sub (blake2s pub) 0 10)).

Definition NodeID (seed : bytes) : bytes := NodeIDFromPublic (PublicKey seed).

End Crypto.

(** ** Properties *)

(** A saved key file loads to the seed it was written from. *)
Theorem Load_Save (seed : bytes) (Hs : bytes_ok seed) (Hl : zlen seed = SeedSize) : Load (Save seed) = Ok seed.
Proof.
  unfold Load, Save. rewrite app_assoc, TrimSpace_line by (rewrite forallb_app, graph_encode64; done).
  rewrite HasPrefix_app. cbn [negb]. rewrite drop_app_length, base64_roundtrip by done. by rewrite Hl.
Qed.

(** The text form of a key parses back to the key. *)
Theorem ParseKey_String (k : bytes) (Hk : bytes_ok k) (Hl : zlen k = KeyLen) : ParseKey (Key_String k) = Some k.
Proof.
  unfold ParseKey, Key_String. rewrite TrimSpace_word by apply graph_no_space, graph_encode64.
  rewrite base64_roundtrip by done. by rewrite Hl.
Qed.

(** ** Witnesses *)

Definition exSeed : bytes := zeros 30 ++ [7; 255].

Lemma exSeed_ok : bytes_ok exSeed.
Proof. apply (bool_decide_unpack (Forall (fun b => 0 <= b < 256) _)). vm_compute. exact I. Qed.

Lemma Load_Save_witness : Load (Save exSeed) = Ok exSeed.
Proof. apply Load_Save; [apply exSeed_ok | reflexivity]. Defined.

Lemma ParseKey_String_witness : ParseKey (Key_String exSeed) = Some exSeed.
Proof. apply ParseKey_String; [apply exSeed_ok | reflexivity]. Defined.

End identity.
