(* ===== verification/Disco.v ===== *)
(** Path discovery messages between nodes (internal/disco/disco.go): the
    payload, the two boxes around it and the tag in front. Randomness is an
    argument: the nonce of the inner box, the randomness of the outer one, the
    nonce of the tag. *)
From stdpp Require Import base list strings.
From Stdlib Require Import ZArith Lia.
From S2P Require Import Prelude GoStrings Netip Crypto Obfs.

Open Scope Z_scope.

Module disco.

Definition TypePing : Z := 1.
Definition TypePong : Z := 2.
Definition TypeJoin : Z := 3.
Definition TypeJoinReply : Z := 4.

Definition version : Z := 1.
Definition txLen : Z := 12.
Definition payloadLen : Z := 1 + 1 + txLen + 18.
Definition MaxLen : Z := 1400.
Definition MaxData : Z := 1000.

Record Msg := MkMsg { Type_ : Z; Tx : bytes; Src : AddrPort; Data : bytes }.

Inductive error : Type := ETooLong | EPayload | ESize | EOpen | EAuth.

Definition is_join (t : Z) : bool := (t =? TypeJoin) || (t =? TypeJoinReply).

Definition encodePayload (m : Msg) : bytes :=
  if is_join (Type_ m) then [version; Type_ m] ++ Tx m ++ Data m
  else
    [version; Type_ m] ++ Tx m
    ++ (if apIsValid (Src m) then As16 (ap_addr (Src m)) ++ put_be 2 (ap_port (Src m)) else zeros 18).

Definition decodePayload (p : bytes) : res error Msg :=
  join ← (if 2 + txLen <=? zlen p then
            v ← index p 0;
            t ← index p 1;
            Ok ((v =? version) && is_join t)
          else Ok false);
  if join : bool then
    if 2 + txLen + MaxData <? zlen p then Err ETooLong
    else
      t ← index p 1;
      data ← slice p (2 + txLen) (zlen p);
      tx ← slice p 2 (2 + txLen);
      Ok (MkMsg t tx AddrPortZero data)
  else
    good ← (if zlen p =? payloadLen then
              v ← index p 0;
              t ← index p 1;
              Ok ((v =? version) && ((t =? TypePing) || (t =? TypePong)))
            else Ok false);
    if negb good then Err EPayload
    else
      t ← index p 1;
      tx ← slice p 2 (2 + txLen);
      ip ← slice p (2 + txLen) (2 + txLen + 16);
      let a := Unmap (AddrFrom16 ip) in
      if negb (IsUnspecified a) then
        port ← slice p (2 + txLen + 16) (zlen p) ≫= uint16_be;
        Ok (MkMsg t tx (MkAddrPort a port) [])
      else Ok (MkMsg t tx AddrPortZero []).

Section Crypto.
Context `{CR : Crypto}.

Definition TagKey (pub : bytes) : bytes := sub (sha256 (str "zeropentime/disco-tag/v1" ++ pub)) 0 16.

Definition Seal (m : Msg) (priv pub to nonce rnd tagNonce : bytes) : bytes :=
  let inner := box_seal (encodePayload m) nonce to priv in
  let outer := anon_seal (pub ++ nonce ++ inner) to rnd in
  obfs.tag (TagKey to) tagNonce ++ outer.

Definition Open (pkt priv pub : bytes) : res error (bytes * Msg) :=
  if (zlen pkt <? obfs.TagLen) || (MaxLen <? zlen pkt) then Err ESize
  else
    sealed ← slice pkt obfs.TagLen (zlen pkt);
    match anon_open sealed pub priv with
    | None => Err EOpen
    | Some plain =>
      if zlen plain <? 32 + 24 then Err EOpen
      else
        sender ← slice plain 0 32;
        nonce ← slice plain 32 56;
        body ← slice plain 56 (zlen plain);
        match box_open body nonce sender priv with
        | None => Err EAuth
        | Some payload => m ← decodePayload payload; Ok (sender, m)
        end
    end.

End Crypto.

(** ** Messages that survive the wire *)

(** A ping or pong carries no data, and its address, when it has one, is not
    unspecified and written without the IPv4-in-IPv6 prefix or a zone. *)
Record msg_ok (m : Msg) : Prop := {
  ok_tx : zlen (Tx m) = txLen;
  ok_kind :
    (is_join (Type_ m) = true /\ Src m = AddrPortZero /\ zlen (Data m) <= MaxData)
    \/ ((Type_ m = TypePing \/ Type_ m = TypePong) /\ Data m = []
        /\ (Src m = AddrPortZero
            \/ (addr_ok (ap_addr (Src m)) /\ Unmap (ap_addr (Src m)) = ap_addr (Src m)
                /\ Zone (ap_addr (Src m)) = [] /\ ap_addr (Src m) <> AddrZero
                /\ IsUnspecified (ap_addr (Src m)) = false /\ 0 <= ap_port (Src m) < 2 ^ 16))) }.

Lemma is_join_not_ping t : t = TypePing \/ t = TypePong -> is_join t = false.
Proof. intros [-> | ->]; reflexivity. Qed.

(** The fields of a payload. *)
Lemma payload_fields {E} t tx rest : zlen tx = txLen ->
  index (E := E) ([version; t] ++ tx ++ rest) 0 = Ok version
  /\ index (E := E) ([version; t] ++ tx ++ rest) 1 = Ok t
  /\ slice (E := E) ([version; t] ++ tx ++ rest) 2 (2 + txLen) = Ok tx
  /\ sub ([version; t] ++ tx ++ rest) (2 + txLen) (2 + txLen + zlen rest) = rest.
Proof.
  intros Htx. unfold txLen in *. pose proof (zlen_nonneg rest).
  split; [reflexivity |]. split; [reflexivity |]. split.
  - rewrite slice_ok by (rewrite ?zlen_app, ?Htx; change (zlen [version; t]) with 2; lia).
    f_equal. apply sub_app_exact; change (zlen [version; t]) with 2; lia.
  - rewrite (app_assoc [version; t]). apply sub_app_tail; rewrite zlen_app, Htx; change (zlen [version; t]) with 2; lia.
Qed.

Lemma zlen_As16 a : zlen (As16 a) = 16.
Proof. unfold As16. by rewrite zlen_put_be. Qed.

Lemma zlen_payload m : msg_ok m -> zlen (encodePayload m) = if is_join (Type_ m) then 14 + zlen (Data m) else payloadLen.
Proof.
  intros [Htx _]. unfold encodePayload, payloadLen, txLen in *.
  destruct (is_join _); rewrite !zlen_app, Htx; change (zlen [version; Type_ m]) with 2; [lia |].
  case_match; [rewrite zlen_app, zlen_As16, zlen_put_be; lia | reflexivity].
Qed.

Lemma decodePayload_join m : msg_ok m -> is_join (Type_ m) = true -> decodePayload (encodePayload m) = Ok m.
Proof.
  intros Hm Hj. pose proof (zlen_payload m Hm) as Hl. rewrite Hj in Hl.
  destruct Hm as [Htx [(_ & Hs & Hd) | (Hp & _)]]; [| rewrite is_join_not_ping in Hj by done; done].
  destruct m as [t tx src data]. cbn [Type_ Tx Src Data] in *. subst src.
  destruct (payload_fields (E := error) t tx data Htx) as (H0 & H1 & H2 & H3).
  unfold decodePayload. rewrite Hl. unfold encodePayload in *. cbn [Type_ Tx Data] in *. rewrite Hj in *.
  pose proof (zlen_nonneg data). unfold txLen, MaxData in *.
  rewrite (proj2 (Z.leb_le (2 + 12) _)) by lia. rewrite H0, H1. cbn [mbind res_bind].
  rewrite Hj, Z.eqb_refl. cbn [andb].
  rewrite (proj2 (Z.ltb_ge (2 + 12 + 1000) _)) by lia.
  rewrite (slice_ok _ (2 + 12) (14 + zlen data)) by lia. cbn [mbind res_bind].
  rewrite H2. cbn [mbind res_bind]. change (14 + zlen data) with (2 + 12 + zlen data). by rewrite H3.
Qed.

Lemma decodePayload_ping m : msg_ok m -> is_join (Type_ m) = false -> decodePayload (encodePayload m) = Ok m.
Proof.
  intros Hm Hj. pose proof (zlen_payload m Hm) as Hl. rewrite Hj in Hl.
  destruct Hm as [Htx [(Hj' & _) | (Hp & Hd & Hs)]]; [congruence |].
  destruct m as [t tx src data]. cbn [Type_ Tx Src Data] in *. subst data.
  unfold encodePayload in *. cbn [Type_ Tx Src Data] in *. rewrite Hj in *.
  set (rest := if apIsValid src then _ else _) in *.
  destruct (payload_fields (E := error) t tx rest Htx) as (H0 & H1 & H2 & H3).
  unfold decodePayload. rewrite Hl. unfold payloadLen, txLen in *.
  change (2 + 12 <=? 1 + 1 + 12 + 18) with true. cbv iota. rewrite H0, H1. cbn [mbind res_bind].
  rewrite Hj, andb_false_r. rewrite !Z.eqb_refl. cbn [mbind res_bind andb].
  assert ((t =? TypePing) || (t =? TypePong) = true) as -> by (destruct Hp as [-> | ->]; reflexivity).
  cbn [negb]. rewrite H2. cbn [mbind res_bind].
  assert (zlen rest = 18) as Hr.
  { unfold rest. case_match; [rewrite zlen_app, zlen_As16, zlen_put_be; lia | reflexivity]. }
  set (p := [version; t] ++ tx ++ rest) in *.
  assert (sub p 14 30 = sub rest 0 16 /\ sub p 30 32 = sub rest 16 18) as [E1 E2].
  { unfold p. rewrite (app_assoc [version; t]).
    assert (zlen ([version; t] ++ tx) = 14) as Hpre by (rewrite zlen_app, Htx; reflexivity).
    rewrite !sub_app_r by lia. rewrite Hpre. done. }
  rewrite (slice_ok p (2 + 12) (2 + 12 + 16)) by lia. cbn [mbind res_bind].
  change (2 + 12) with 14. change (14 + 16) with 30. rewrite E1.
  change (1 + 1 + 12 + 18) with 32. change (slice p 30 32) with (slice (E := error) p 30 (30 + 2)).
  rewrite (uint16_sub p 30) by lia. change (30 + 2) with 32. rewrite E2. clearbody p.
  destruct Hs as [-> | (Ha & Hu & Hz & Hne & Hun & Hport)].
  - unfold rest. reflexivity.
  - assert (apIsValid src = true) as Hv by (unfold apIsValid; by destruct (ap_addr src)).
    unfold rest in *. rewrite Hv in *.
    rewrite (sub_app_head (As16 (ap_addr src))) by (by rewrite zlen_As16).
    rewrite (sub_app_tail (As16 (ap_addr src))) by (rewrite zlen_As16, ?zlen_put_be; lia).
    rewrite Unmap_AddrFrom16_As16 by done. rewrite Hun. cbn [negb mbind res_bind].
    rewrite be_put_be_small by exact Hport. by destruct src.
Qed.

Lemma decodePayload_encode m : msg_ok m -> decodePayload (encodePayload m) = Ok m.
Proof.
  intros Hm. destruct (is_join (Type_ m)) eqn:Hj; [by apply decodePayload_join | by apply decodePayload_ping].
Qed.

Lemma decodePayload_no_panic p : decodePayload p <> Panic.
Proof.
  unfold decodePayload, payloadLen, txLen. pose proof (zlen_nonneg p).
  assert (forall i, 0 <= i < zlen p -> exists x, index (E := error) p i = Ok x) as Hi
    by (intros i Hi; rewrite (index_ok p i 0) by done; eauto).
  destruct (Z.leb_spec (2 + 12) (zlen p)).
  - destruct (Hi 0 ltac:(lia)) as [v ->]. destruct (Hi 1 ltac:(lia)) as [t ->]. cbn [mbind res_bind].
    destruct ((v =? version) && is_join t).
    { case_match; [done |]. rewrite (slice_ok p (2 + 12) (zlen p)) by lia. cbn [mbind res_bind].
      by rewrite slice_ok by lia. }
    destruct (Z.eqb_spec (zlen p) (1 + 1 + 12 + 18)) as [Hl |]; [| done]. cbn [mbind res_bind].
    destruct (negb _); [done |]. rewrite (slice_ok p 2) by lia. cbn [mbind res_bind].
    rewrite (slice_ok p (2 + 12)) by lia. cbn [mbind res_bind]. destruct (negb _); [| done].
    replace (zlen p) with (2 + 12 + 16 + 2) at 1 by lia. by rewrite uint16_sub by lia.
  - destruct (Z.eqb_spec (zlen p) (1 + 1 + 12 + 18)); [lia | done].
Qed.

(** ** Properties *)

Lemma Seal_Open `{CL : CryptoLaws} (m : Msg) (priv to_priv nonce rnd tagNonce : bytes)
  (Hm : msg_ok m) (Hp : zlen priv = 32) (Hn : zlen nonce = 24) (Ht : zlen tagNonce = 4) :
  Open (Seal m priv (x25519 priv) (x25519 to_priv) nonce rnd tagNonce) to_priv (x25519 to_priv)
    = Ok (x25519 priv, m).
Proof.
  assert (zlen (x25519 priv) = 32) as Hpub by (unfold zlen in *; rewrite length_x25519; lia).
  assert (zlen (encodePayload m) <= 14 + MaxData) as Hl.
  { pose proof (zlen_payload m Hm) as Hl. destruct Hm as [_ [(Hj & _ & Hd) | (Hj & _)]].
    - rewrite Hj in Hl. lia.
    - rewrite (is_join_not_ping _ Hj) in Hl. unfold MaxData, payloadLen, txLen in *. lia. }
  pose proof (zlen_nonneg (encodePayload m)).
  set (inner := box_seal (encodePayload m) nonce (x25519 to_priv) priv).
  assert (zlen inner = 16 + zlen (encodePayload m)) as Hi by apply zlen_box.
  set (plain := x25519 priv ++ nonce ++ inner).
  assert (zlen plain = 56 + zlen inner) as Hpl by (unfold plain; rewrite !zlen_app; lia).
  set (outer := anon_seal plain (x25519 to_priv) rnd).
  assert (zlen outer = 48 + zlen plain) as Ho by apply zlen_anon.
  unfold Open, Seal. fold inner. fold plain. fold outer.
  pose proof (obfs.zlen_tag (TagKey (x25519 to_priv)) tagNonce Ht) as Htag.
  rewrite zlen_app, Htag. unfold obfs.TagLen, MaxLen, MaxData in *.
  rewrite (proj2 (Z.ltb_ge (8 + zlen outer) 8)), (proj2 (Z.ltb_ge 1400 (8 + zlen outer))) by lia. cbn [orb].
  rewrite slice_ok by (rewrite ?zlen_app; lia). cbn [mbind res_bind].
  rewrite sub_app_tail by lia. unfold outer at 1. rewrite anon_open_seal.
  rewrite (proj2 (Z.ltb_ge (zlen plain) (32 + 24))) by lia.
  rewrite (slice_ok plain 0 32) by lia. cbn [mbind res_bind].
  rewrite (slice_ok plain 32 56) by lia. cbn [mbind res_bind].
  rewrite (slice_ok plain 56 (zlen plain)) by lia. cbn [mbind res_bind].
  rewrite Hpl. unfold plain.
  rewrite (sub_app_head (x25519 priv)) by lia. rewrite (sub_app_exact (x25519 priv) nonce inner 32 56) by lia.
  rewrite (app_assoc (x25519 priv)). rewrite (sub_app_tail (x25519 priv ++ nonce) inner) by (rewrite zlen_app; lia).
  unfold inner. rewrite box_open_peer, decodePayload_encode by done. done.
Qed.

(** A message sealed by one node opens at the node it was sealed for, with
    the sender's public key and the message unchanged. *)
Theorem Message_Open_Seal `{CL : CryptoLaws} (m : Msg) (priv to_priv nonce rnd tagNonce : bytes)
  (Hm : msg_ok m) (Hp : zlen priv = 32) (Hn : zlen nonce = 24) (Ht : zlen tagNonce = 4) :
  Open (Seal m priv (x25519 priv) (x25519 to_priv) nonce rnd tagNonce) to_priv (x25519 to_priv)
    = Ok (x25519 priv, m).
Proof. by apply Seal_Open. Qed.

(** Opening never panics, and a message is accepted only when it was
    sealed with the Diffie-Hellman key of the named sender and this node: the
    inner box is exactly what [box.Seal] makes of it under those two keys. *)
Theorem Open_authentic `{CL : CryptoLaws} (pkt priv pub : bytes) :
  Open pkt priv pub <> Panic
  /\ forall sender m, Open pkt priv pub = Ok (sender, m) ->
       exists plain nonce payload, anon_open (sub pkt 8 (zlen pkt)) pub priv = Some plain
         /\ plain = sender ++ nonce ++ box_seal payload nonce sender priv
         /\ zlen sender = 32 /\ zlen nonce = 24 /\ decodePayload payload = Ok m.
Proof.
  unfold Open, obfs.TagLen. destruct (_ || _) eqn:Hs; [done |]. bool_hyps.
  rewrite slice_ok by lia. cbn [mbind res_bind].
  destruct (anon_open _ pub priv) as [plain |]; [| done].
  destruct (Z.ltb_spec (zlen plain) (32 + 24)); [done |].
  rewrite (slice_ok plain 0 32) by lia. cbn [mbind res_bind].
  rewrite (slice_ok plain 32 56) by lia. cbn [mbind res_bind].
  rewrite (slice_ok plain 56 (zlen plain)) by lia. cbn [mbind res_bind].
  destruct (box_open _ _ _ _) as [payload |] eqn:Hb; [| done]. split.
  - intros [Hp | (m & _ & Hp)]%bind_panic; [by apply decodePayload_no_panic in Hp | done].
  - intros sender m Ho. apply bind_ok in Ho as (m' & Hm & [= <- <-]).
    exists plain, (sub plain 32 56), payload. apply box_open_inv in Hb. rewrite <- Hb.
    split; [done |]. split; [| rewrite !zlen_sub by lia; done].
    rewrite <- (sub_all plain) at 1. rewrite (sub_cut plain 0 32) by lia. f_equal. apply sub_cut; lia.
Qed.

(** ** Witnesses *)

Definition exPing : Msg := MkMsg TypePong (repeat 5 12) (MkAddrPort (Addr4 3232235777) 51820) [].

Lemma exPing_ok : msg_ok exPing.
Proof.
  split; [reflexivity |]. right. split; [by right |]. split; [reflexivity |]. right. cbn.
  repeat split; try lia; done.
Qed.

Lemma Message_Open_Seal_witness :
  Open (CR := toy) (Seal (CR := toy) exPing (zeros 32) (zeros 32) (repeat 9 32) (zeros 24) (zeros 32) (zeros 4))
    (repeat 9 32) (repeat 9 32) = Ok (zeros 32, exPing).
Proof. apply (Message_Open_Seal (C := toy)); [apply exPing_ok | reflexivity ..]. Defined.

Lemma Open_authentic_witness : Open (CR := toy) (zeros 100) (zeros 32) (zeros 32) <> Panic.
Proof. apply (Open_authentic (C := toy)). Defined.

End disco.
