(* ===== verification/RelayProto.v ===== *)
(** The frames between nodes and relays (internal/relay/proto.go, nodeid.go):
    session frames, the registration handshake, and node IDs on the wire.
    Randomness is an argument of the functions that draw it. *)
From stdpp Require Import base list strings.
From Stdlib Require Import ZArith Lia.
From S2P Require Import Prelude GoStrings Encoding Crypto Obfs Identity.

Open Scope Z_scope.

Module relay.

Definition TypeSend : Z := 1.
Definition TypeRecv : Z := 2.
Definition TypePing : Z := 3.
Definition hsHello : Z := 17.
Definition hsWelcome : Z := 18.

Definition NodeIDLen : Z := 10.
Definition sessLen : Z := 8.
Definition nonceLen : Z := 24.
Definition headerLen : Z := obfs.TagLen + sessLen + nonceLen.
Definition innerHdr : Z := 1 + NodeIDLen.
Definition boxOverhead : Z := 16.
Definition overhead : Z := headerLen + boxOverhead + innerHdr.
Definition maxFrame : Z := 65535.
Definition maxPayload : Z := maxFrame - overhead.

Record Session := MkSession { ID : bytes; Key : bytes }.

Definition session_ok (s : Session) : Prop := zlen (ID s) = sessLen.

Inductive error : Type := ETooLarge | ESize | EOpen | EHello | EWelcome | ENodeID.

Section Crypto.
Context `{CR : Crypto}.

Definition TagKey (relayPub : bytes) : bytes := sub (sha256 (str "zeropentime/relay-tag/v1" ++ relayPub)) 0 16.

Definition mask (tag relayPub : bytes) : bytes :=
  sub (sha256 ((str "zeropentime/relay-mask/v1" ++ relayPub) ++ tag)) 0 sessLen.

(** ** Session frames *)

(** [Seal] with the random bytes it draws: the tag's nonce and the box's. *)
Definition Seal (s : Session) (relayPub : bytes) (typ : Z) (node payload tagNonce nonce : bytes)
    : res error bytes :=
  if maxPayload <? zlen payload then Err ETooLarge
  else
    let tag := obfs.tag (TagKey relayPub) tagNonce in
    let m := mask tag relayPub in
    Ok (tag ++ xor_bytes (ID s) m ++ nonce
        ++ secretbox_seal ([typ] ++ node ++ payload) nonce (Key s)).

Definition SessionID (frame relayPub : bytes) : res error (option bytes) :=
  if zlen frame <? overhead then Ok None
  else
    tag ← slice frame 0 obfs.TagLen;
    masked ← slice frame obfs.TagLen (obfs.TagLen + sessLen);
    Ok (Some (xor_bytes masked (mask tag relayPub))).

Definition Open (s : Session) (frame : bytes) : res error (Z * bytes * bytes) :=
  if (zlen frame <? overhead) || (maxFrame <? zlen frame) then Err ESize
  else
    nonce ← slice frame (obfs.TagLen + sessLen) headerLen;
    body ← slice frame headerLen (zlen frame);
    match secretbox_open body nonce (Key s) with
    | None => Err EOpen
    | Some inner =>
      if zlen inner <? innerHdr then Err EOpen
      else
        node ← slice inner 1 innerHdr;
        typ ← index inner 0;
        payload ← slice inner innerHdr (zlen inner);
        Ok (typ, node, payload)
    end.

(** ** The handshake *)

Definition helloTagKey (relayPub : bytes) : bytes := sub (sha256 (str "zeropentime/relay-hello/v1" ++ relayPub)) 0 16.
Definition welcomeTagKey (nodePub : bytes) : bytes := sub (sha256 (str "zeropentime/relay-welcome/v1" ++ nodePub)) 0 16.

Definition Hello (nodePriv nodePub relayPub nonce stamp rnd tagNonce : bytes) : bytes :=
  let inner := box_seal (hsHello :: stamp) nonce relayPub nodePriv in
  obfs.tag (helloTagKey relayPub) tagNonce ++ anon_seal (nodePub ++ nonce ++ inner) relayPub rnd.

Definition IsHello (pkt relayPub : bytes) : bool := obfs.Match (helloTagKey relayPub) pkt.

Definition OpenHello (pkt relayPriv relayPub : bytes) : res error bytes :=
  if (zlen pkt <? obfs.TagLen) || (512 <? zlen pkt) then Err ESize
  else
    sealed ← slice pkt obfs.TagLen (zlen pkt);
    match anon_open sealed relayPub relayPriv with
    | None => Err EHello
    | Some plain =>
      if zlen plain <? 32 + 24 then Err EHello
      else
        node ← slice plain 0 32;
        nonce ← slice plain 32 56;
        body ← slice plain 56 (zlen plain);
        match box_open body nonce node relayPriv with
        | None => Err EHello
        | Some stamp =>
          good ← (if zlen stamp =? 9 then c ← index stamp 0; Ok (c =? hsHello) else Ok false);
          if good : bool then Ok node else Err EHello
        end
    end.

Definition Welcome (s : Session) (relayPriv nodePub nonce tagNonce : bytes) : bytes :=
  obfs.tag (welcomeTagKey nodePub) tagNonce
  ++ nonce ++ box_seal ([hsWelcome] ++ ID s ++ Key s) nonce nodePub relayPriv.

Definition IsWelcome (pkt nodePub : bytes) : bool := obfs.Match (welcomeTagKey nodePub) pkt.

Definition OpenWelcome (pkt nodePriv relayPub : bytes) : res error Session :=
  if zlen pkt <? obfs.TagLen + 24 then Err EWelcome
  else
    nonce ← slice pkt obfs.TagLen (obfs.TagLen + 24);
    body ← slice pkt (obfs.TagLen + 24) (zlen pkt);
    match box_open body nonce relayPub nodePriv with
    | None => Err EWelcome
    | Some msg =>
      good ← (if zlen msg =? 1 + sessLen + 32 then c ← index msg 0; Ok (c =? hsWelcome) else Ok false);
      if good : bool then
        id ← slice msg 1 (1 + sessLen);
        key ← slice msg (1 + sessLen) (zlen msg);
        Ok (MkSession id key)
      else Err EWelcome
    end.

End Crypto.

(** ** Node IDs *)

Definition NodeIDBytes (id : bytes) : res error bytes :=
  match base32_decode (ToUpper id) with
  | Some raw => if zlen raw =? NodeIDLen then Ok raw else Err ENodeID
  | None => Err ENodeID
  end.

Definition NodeIDString (b : bytes) : bytes := ToLower (encode32 b).

(** ** Lemmas *)

Lemma zlen_mask `{CL : CryptoLaws} tag pub : zlen (mask tag pub) = 8.
Proof. unfold mask. rewrite zlen_sub; unfold sessLen, zlen; rewrite ?length_sha256; lia. Qed.

Lemma zlen_xor_bytes a b : zlen a = zlen b -> zlen (xor_bytes a b) = zlen a.
Proof. unfold zlen. rewrite length_xor_bytes. lia. Qed.

(** The layout of a frame. *)
Lemma Seal_layout `{CL : CryptoLaws} s pub typ node payload tagNonce nonce frame :
  session_ok s -> zlen tagNonce = 4 -> zlen nonce = 24 -> zlen node = 10 ->
  Seal s pub typ node payload tagNonce nonce = Ok frame ->
  let tag := obfs.tag (TagKey pub) tagNonce in
  let masked := xor_bytes (ID s) (mask tag pub) in
  let body := secretbox_seal ([typ] ++ node ++ payload) nonce (Key s) in
  frame = tag ++ masked ++ nonce ++ body /\ zlen tag = 8 /\ zlen masked = 8
  /\ zlen body = 27 + zlen payload /\ zlen frame = overhead + zlen payload /\ zlen frame <= maxFrame.
Proof.
  intros Hs Ht Hn Hnode. unfold Seal, session_ok, sessLen in *.
  destruct (Z.ltb_spec maxPayload (zlen payload)) as [| Hp]; [done |]. intros [= <-]. cbv zeta.
  pose proof (obfs.zlen_tag (TagKey pub) tagNonce Ht) as Htag.
  assert (zlen (xor_bytes (ID s) (mask (obfs.tag (TagKey pub) tagNonce) pub)) = 8) as Hm
    by (rewrite zlen_xor_bytes; rewrite ?zlen_mask; lia).
  assert (zlen (secretbox_seal ([typ] ++ node ++ payload) nonce (Key s)) = 27 + zlen payload) as Hb
    by (rewrite zlen_secretbox, !zlen_app; change (zlen [typ]) with 1; lia).
  split; [done |]. split; [done |]. split; [done |]. split; [done |].
  rewrite !zlen_app, Htag, Hm, Hn. cbn [app] in *. rewrite Hb.
  unfold maxPayload, overhead, headerLen, innerHdr, NodeIDLen, boxOverhead, maxFrame, sessLen, nonceLen, obfs.TagLen in *. lia.
Qed.

Lemma zlen_tag_mask `{CL : CryptoLaws} key n : zlen n = 4 -> zlen (obfs.tag key n) = 8.
Proof. apply obfs.zlen_tag. Qed.

Lemma index_cons {E} (x : Z) l : index (E := E) (x :: l) 0 = Ok x.
Proof. reflexivity. Qed.

Lemma frame_opens `{CL : CryptoLaws} (s : Session) (pub : bytes) (typ : Z)
  (node payload tagNonce nonce frame : bytes)
  (Hs : session_ok s) (Hnode : zlen node = NodeIDLen) (Ht : zlen tagNonce = 4) (Hn : zlen nonce = 24)
  (Hf : Seal s pub typ node payload tagNonce nonce = Ok frame) :
  SessionID frame pub = Ok (Some (ID s)) /\ Open s frame = Ok (typ, node, payload).
Proof.
  destruct (Seal_layout s pub typ node payload tagNonce nonce frame Hs Ht Hn Hnode Hf)
    as (Hfr & Htag & Hm & Hb & Hl & Hmax). cbv zeta in *.
  set (tag := obfs.tag (TagKey pub) tagNonce) in *.
  set (masked := xor_bytes (ID s) (mask tag pub)) in *.
  set (body := secretbox_seal _ _ _) in *. pose proof (zlen_nonneg payload).
  unfold SessionID, Open. rewrite Hl.
  unfold overhead, headerLen, innerHdr, NodeIDLen, boxOverhead, maxFrame, sessLen, nonceLen, obfs.TagLen in *.
  rewrite (proj2 (Z.ltb_ge _ _)) by lia. rewrite (proj2 (Z.ltb_ge 65535 _)) by lia. cbn [orb].
  assert (sub frame 0 8 = tag /\ sub frame 8 (8 + 8) = masked /\ sub frame (8 + 8) (8 + 8 + 24) = nonce
    /\ sub frame (8 + 8 + 24) (zlen frame) = body) as (E1 & E2 & E3 & E4).
  { rewrite Hl, Hfr. split; [by apply sub_app_head |]. split; [apply sub_app_exact; lia |].
    rewrite (app_assoc tag). split; [apply sub_app_exact; rewrite zlen_app; lia |].
    rewrite (app_assoc (tag ++ masked)). apply sub_app_tail; rewrite !zlen_app; lia. }
  rewrite <- Hl. split.
  - rewrite (slice_ok frame 0 8) by lia. cbn [mbind res_bind].
    rewrite (slice_ok frame 8 (8 + 8)) by lia. cbn [mbind res_bind]. rewrite E1, E2. unfold masked.
    rewrite xor_bytes_involutive; [done |].
    pose proof (zlen_mask tag pub) as Hmk. unfold session_ok, sessLen, zlen in *. lia.
  - rewrite (slice_ok frame (8 + 8) (8 + 8 + 24)) by lia. cbn [mbind res_bind].
    rewrite (slice_ok frame (8 + 8 + 24) (zlen frame)) by lia. cbn [mbind res_bind].
    rewrite E3, E4. unfold body. rewrite secretbox_open_seal.
    set (inner := [typ] ++ node ++ payload).
    assert (zlen inner = 11 + zlen payload) as Hi by (unfold inner; rewrite !zlen_app; change (zlen [typ]) with 1; lia).
    rewrite Hi, (proj2 (Z.ltb_ge _ (1 + 10))) by lia.
    rewrite (slice_ok inner 1 (1 + 10)) by lia. cbn [mbind res_bind].
    change (index (E := error) inner 0) with (Ok (E := error) typ). cbn [mbind res_bind].
    rewrite (slice_ok inner (1 + 10)) by lia. cbn [mbind res_bind]. unfold inner.
    rewrite (sub_app_exact [typ] node payload 1) by (change (zlen [typ]) with 1; lia).
    rewrite (app_assoc [typ]), sub_app_tail by (rewrite zlen_app; change (zlen [typ]) with 1; lia). done.
Qed.

(** ** Properties *)

(** A frame sealed in a session is recognised as that session's and opens
    in it to the same type, node and payload, for every payload that is not
    too large; a larger one is refused. *)
Theorem Frame_Open_Seal `{CL : CryptoLaws} (s : Session) (pub : bytes) (typ : Z)
  (node payload tagNonce nonce : bytes)
  (Hs : session_ok s) (Hnode : zlen node = NodeIDLen) (Ht : zlen tagNonce = 4) (Hn : zlen nonce = 24) :
  (zlen payload <= maxPayload -> exists frame, Seal s pub typ node payload tagNonce nonce = Ok frame
    /\ SessionID frame pub = Ok (Some (ID s)) /\ Open s frame = Ok (typ, node, payload))
  /\ (maxPayload < zlen payload -> Seal s pub typ node payload tagNonce nonce = Err ETooLarge).
Proof.
  split; intros Hp.
  - destruct (Seal s pub typ node payload tagNonce nonce) as [frame | |] eqn:Hf;
      [| unfold Seal in Hf; rewrite (proj2 (Z.ltb_ge _ _)) in Hf by lia; done ..].
    exists frame. split; [done |]. by apply (frame_opens s pub typ node payload tagNonce nonce).
  - unfold Seal. by rewrite (proj2 (Z.ltb_lt _ _)) by lia.
Qed.

(** Opening a frame never panics, and what it yields was sealed with the
    session's key: the ciphertext is exactly the sealed type, node and payload. *)
Theorem Open_frame_authentic `{CL : CryptoLaws} (s : Session) (frame pub : bytes) :
  Open s frame <> Panic /\ SessionID frame pub <> Panic
  /\ forall typ node payload, Open s frame = Ok (typ, node, payload) ->
       zlen node = NodeIDLen
       /\ sub frame headerLen (zlen frame)
          = secretbox_seal ([typ] ++ node ++ payload) (sub frame 16 40) (Key s).
Proof.
  unfold Open, SessionID.
  unfold overhead, headerLen, innerHdr, NodeIDLen, boxOverhead, maxFrame, sessLen, nonceLen, obfs.TagLen in *.
  assert (zlen frame <? 8 + 8 + 24 + 16 + (1 + 10) = false -> 67 <= zlen frame) as Hlt by (intros Hf; bool_hyps; lia).
  destruct (zlen frame <? 8 + 8 + 24 + 16 + (1 + 10)); [done |]. specialize (Hlt eq_refl). cbn [orb].
  rewrite (slice_ok frame 0 8) by lia. cbn [mbind res_bind].
  rewrite (slice_ok frame 8 (8 + 8)) by lia. cbn [mbind res_bind].
  destruct (65535 <? zlen frame); [done |].
  rewrite (slice_ok frame (8 + 8) (8 + 8 + 24)) by lia. cbn [mbind res_bind].
  rewrite (slice_ok frame (8 + 8 + 24) (zlen frame)) by lia. cbn [mbind res_bind].
  destruct (secretbox_open _ _ _) as [inner |] eqn:Hb; [| done].
  destruct (Z.ltb_spec (zlen inner) (1 + 10)) as [| Hi]; [done |].
  rewrite (slice_ok inner 1 (1 + 10)) by lia. cbn [mbind res_bind].
  rewrite (index_ok inner 0 0) by lia. cbn [mbind res_bind].
  rewrite (slice_ok inner (1 + 10)) by lia. cbn [mbind res_bind].
  split; [done |]. split; [done |]. intros typ node payload [= <- <- <-].
  split; [rewrite zlen_sub; lia |]. apply secretbox_open_inv in Hb. rewrite Hb.
  change (8 + 8) with 16. change (16 + 24) with 40. f_equal.
  transitivity (sub inner 0 1 ++ sub inner 1 (1 + 10) ++ sub inner (1 + 10) (zlen inner)).
  - rewrite <- (sub_cut inner 1), <- (sub_cut inner 0 1) by lia. by rewrite sub_all.
  - f_equal. destruct inner as [| c inner]; [by cbv in Hi |]. reflexivity.
Qed.

(** A node's registration opens at the relay as that node's key, and the
    relay's answer opens at the node as the session the relay made. *)
Theorem handshake_roundtrip `{CL : CryptoLaws} (nodePriv relayPriv nonce stamp rnd tagNonce : bytes)
  (s : Session) (nonce' tagNonce' : bytes)
  (Hp : zlen nodePriv = 32) (Hn : zlen nonce = 24) (Hst : zlen stamp = 8) (Ht : zlen tagNonce = 4)
  (Hs : session_ok s) (Hk : zlen (Key s) = 32) (Hn' : zlen nonce' = 24) (Ht' : zlen tagNonce' = 4) :
  let hello := Hello nodePriv (x25519 nodePriv) (x25519 relayPriv) nonce stamp rnd tagNonce in
  let welcome := Welcome s relayPriv (x25519 nodePriv) nonce' tagNonce' in
  IsHello hello (x25519 relayPriv) = true
  /\ OpenHello hello relayPriv (x25519 relayPriv) = Ok (x25519 nodePriv)
  /\ IsWelcome welcome (x25519 nodePriv) = true
  /\ OpenWelcome welcome nodePriv (x25519 relayPriv) = Ok s.
Proof.
  cbv zeta. unfold IsHello, IsWelcome, Hello, Welcome.
  assert (zlen (x25519 nodePriv) = 32) as Hpub by (unfold zlen in *; rewrite length_x25519; lia).
  split; [apply obfs.Match_spec; eauto |]. split; [| split; [apply obfs.Match_spec; eauto |]].
  - unfold OpenHello. set (inner := box_seal (hsHello :: stamp) nonce (x25519 relayPriv) nodePriv).
    assert (zlen inner = 25) as Hi by (unfold inner; rewrite zlen_box, zlen_cons; lia).
    set (plain := x25519 nodePriv ++ nonce ++ inner).
    assert (zlen plain = 81) as Hpl by (unfold plain; rewrite !zlen_app; lia).
    set (outer := anon_seal plain (x25519 relayPriv) rnd).
    assert (zlen outer = 129) as Ho by (unfold outer; rewrite zlen_anon; lia).
    pose proof (obfs.zlen_tag (helloTagKey (x25519 relayPriv)) tagNonce Ht) as Htag.
    rewrite zlen_app, Htag, Ho. unfold obfs.TagLen. cbn [Z.ltb Z.compare orb].
    change (8 + 129 <? 8) with false. change (512 <? 8 + 129) with false. cbn [orb].
    rewrite slice_ok by (rewrite ?zlen_app; lia). cbn [mbind res_bind].
    rewrite sub_app_tail by lia. unfold outer. rewrite anon_open_seal, Hpl.
    change (81 <? 32 + 24) with false. cbv iota.
    rewrite (slice_ok plain 0 32), (slice_ok plain 32 56), (slice_ok plain 56 81) by lia. cbn [mbind res_bind].
    unfold plain. rewrite (sub_app_head (x25519 nodePriv)) by lia.
    rewrite (sub_app_exact (x25519 nodePriv) nonce inner 32 56) by lia.
    rewrite (app_assoc (x25519 nodePriv)), (sub_app_tail (x25519 nodePriv ++ nonce) inner) by (rewrite zlen_app; lia).
    unfold inner. rewrite box_open_peer, zlen_cons, Hst. reflexivity.
  - unfold OpenWelcome. set (msg := [hsWelcome] ++ ID s ++ Key s).
    set (body := box_seal msg nonce' (x25519 nodePriv) relayPriv).
    unfold session_ok, sessLen in *.
    assert (zlen msg = 41) as Hm by (unfold msg; rewrite !zlen_app; change (zlen [hsWelcome]) with 1; lia).
    assert (zlen body = 57) as Hb by (unfold body; rewrite zlen_box; lia).
    pose proof (obfs.zlen_tag (welcomeTagKey (x25519 nodePriv)) tagNonce' Ht') as Htag.
    set (tag := obfs.tag _ tagNonce') in *. unfold obfs.TagLen.
    assert (zlen (tag ++ nonce' ++ body) = 89) as Hl by (rewrite !zlen_app; lia).
    rewrite Hl. change (89 <? 8 + 24) with false. cbv iota.
    rewrite (slice_ok (tag ++ nonce' ++ body) 8), (slice_ok (tag ++ nonce' ++ body) (8 + 24)) by lia.
    cbn [mbind res_bind]. rewrite (sub_app_exact tag nonce' body 8) by lia.
    rewrite (app_assoc tag), (sub_app_tail (tag ++ nonce') body) by (rewrite zlen_app; lia).
    unfold body. rewrite box_open_peer, Hm. change (41 =? 1 + 8 + 32) with true. cbv iota.
    change (index (E := error) msg 0) with (Ok (E := error) hsWelcome). cbn [mbind res_bind].
    rewrite Z.eqb_refl. rewrite (slice_ok msg 1), (slice_ok msg (1 + 8)) by lia. cbn [mbind res_bind].
    unfold msg. rewrite (sub_app_exact [hsWelcome] (ID s) (Key s) 1) by (change (zlen [hsWelcome]) with 1; lia).
    rewrite (app_assoc [hsWelcome]), sub_app_tail by (rewrite zlen_app; change (zlen [hsWelcome]) with 1; lia).
    by destruct s.
Qed.

Lemma NodeIDBytes_wire b : bytes_ok b -> zlen b = NodeIDLen -> NodeIDBytes (NodeIDString b) = Ok b.
Proof.
  intros Hb Hl. unfold NodeIDBytes, NodeIDString. rewrite ToUpper_ToLower by apply encode32_chars.
  rewrite base32_roundtrip10 by (try done; unfold zlen, NodeIDLen in Hl; lia). by rewrite Hl.
Qed.

(** The wire form of a node ID reads back to the ID, and the ID a node
    computes from its public key has the first ten bytes of the key's digest
    as its wire form. *)
Theorem NodeIDBytes_String `{CL : CryptoLaws} :
  (forall b, bytes_ok b -> zlen b = NodeIDLen -> NodeIDBytes (NodeIDString b) = Ok b)
  /\ forall pub, NodeIDBytes (identity.NodeIDFromPublic pub) = Ok (sub (blake2s pub) 0 10).
Proof.
  split; [apply NodeIDBytes_wire |]. intros pub. apply NodeIDBytes_wire; [apply sub_bytes_ok, blake2s_ok |].
  rewrite zlen_sub; [reflexivity | lia | unfold zlen; rewrite length_blake2s; lia].
Qed.

Lemma NodeIDString_inj a b : bytes_ok a -> zlen a = NodeIDLen -> bytes_ok b -> zlen b = NodeIDLen ->
  NodeIDString a = NodeIDString b -> a = b.
Proof.
  intros Ha Hla Hb Hlb He. pose proof (NodeIDBytes_wire a Ha Hla) as H1.
  pose proof (NodeIDBytes_wire b Hb Hlb) as H2. rewrite He in H1. congruence.
Qed.

(** Opening a hello never panics; the key it yields is the one whose
    Diffie-Hellman key with the relay sealed the stamp. *)
Lemma OpenHello_authentic `{CL : CryptoLaws} pkt relayPriv relayPub :
  OpenHello pkt relayPriv relayPub <> Panic
  /\ forall node, OpenHello pkt relayPriv relayPub = Ok node ->
       exists nonce stamp, zlen node = 32 /\
         anon_open (sub pkt 8 (zlen pkt)) relayPub relayPriv
           = Some (node ++ nonce ++ box_seal (hsHello :: stamp) nonce node relayPriv).
Proof.
  unfold OpenHello, obfs.TagLen. destruct (_ || _) eqn:Hs; [done |]. bool_hyps.
  rewrite slice_ok by lia. cbn [mbind res_bind].
  destruct (anon_open _ _ _) as [plain |]; [| done].
  destruct (Z.ltb_spec (zlen plain) (32 + 24)); [done |].
  rewrite (slice_ok plain 0 32), (slice_ok plain 32 56), (slice_ok plain 56) by lia. cbn [mbind res_bind].
  destruct (box_open _ _ _ _) as [stamp |] eqn:Hb; [| done].
  destruct (Z.eqb_spec (zlen stamp) 9) as [Hst |]; [| done].
  destruct stamp as [| c stamp]; [by cbv in Hst |].
  change (index (E := error) (c :: stamp) 0) with (Ok (E := error) c). cbn [mbind res_bind].
  destruct (Z.eqb_spec c hsHello) as [-> |]; [| done]. split; [done |]. intros node [= <-].
  exists (sub plain 32 56), stamp. split; [rewrite zlen_sub; lia |].
  apply box_open_inv in Hb. rewrite <- Hb. f_equal.
  rewrite <- (sub_cut plain 32), <- (sub_cut plain 0 32) by lia. by rewrite sub_all.
Qed.

(** ** Witnesses *)

Definition exSession : Session := MkSession (repeat 1 8) (repeat 2 32).
Definition exFrame : bytes :=
  match Seal (CR := toy) exSession (zeros 32) TypeSend (repeat 3 10) [4; 5] (zeros 4) (zeros 24) with
  | Ok f => f | _ => [] end.

Lemma Frame_Open_Seal_witness : exists frame,
  Seal (CR := toy) exSession (zeros 32) TypeSend (repeat 3 10) [4; 5] (zeros 4) (zeros 24) = Ok frame
  /\ SessionID (CR := toy) frame (zeros 32) = Ok (Some (ID exSession))
  /\ Open (CR := toy) exSession frame = Ok (TypeSend, repeat 3 10, [4; 5]).
Proof.
  apply (Frame_Open_Seal (C := toy) exSession (zeros 32) TypeSend (repeat 3 10) [4; 5] (zeros 4) (zeros 24));
    vm_compute; done.
Defined.

Lemma Open_frame_authentic_witness :
  sub exFrame headerLen (zlen exFrame)
  = secretbox_seal (Crypto := toy) ([TypeSend] ++ repeat 3 10 ++ [4; 5]) (sub exFrame 16 40) (Key exSession).
Proof. apply (Open_frame_authentic (C := toy) exSession exFrame []). vm_compute. reflexivity. Defined.

Lemma handshake_roundtrip_witness :
  OpenWelcome (CR := toy) (Welcome (CR := toy) exSession (repeat 9 32) (zeros 32) (zeros 24) (zeros 4))
    (zeros 32) (repeat 9 32) = Ok exSession.
Proof.
  apply (handshake_roundtrip (C := toy) (zeros 32) (repeat 9 32) (zeros 24) (zeros 8) (zeros 32) (zeros 4)
    exSession (zeros 24) (zeros 4)); reflexivity.
Defined.

Lemma NodeIDBytes_String_witness : NodeIDBytes (NodeIDString (repeat 200 10)) = Ok (repeat 200 10).
Proof.
  apply (proj1 (NodeIDBytes_String (C := toy))); [| reflexivity].
  apply (bool_decide_unpack (Forall (fun b => 0 <= b < 256) _)). vm_compute. exact I.
Defined.

End relay.
