(* ===== verification/RelayServer.v ===== *)
(** The relay server (internal/relay/server.go): sessions, the permission
    cache, the packet handler and the expiry loop.

    A [*serverSession] is shared between the maps [byID] and [byNode], so
    sessions live in a heap and the maps hold pointers into it. [Handle] takes
    the server's lock three times; each critical section is a definition of its
    own ([lookupSession], [touch], [destination]) and the theorems about the
    invariant are proved for each of them, so they hold for every interleaving
    of handlers. Time, randomness and the authorizer's answers are arguments. *)
From stdpp Require Import base list gmap strings.
From Stdlib Require Import ZArith Lia.
From S2P Require Import Prelude GoStrings Netip Encoding Crypto Obfs Identity RelayProto.

Open Scope Z_scope.

Module relaysrv.
Import relay.

Definition sessionIdle : Z := 2 * Minute.
Definition maxPPS : Z := 20000.

Record serverSession := MkServerSession {
  session : Session; nodeID : bytes; raw : bytes;
  addr : AddrPort; last : Z; window : Z; packets : Z }.

Record Server := MkServer {
  heap : gmap nat serverSession;
  byID : gmap bytes nat;
  byNode : gmap bytes nat;
  perm : gmap (bytes * bytes) (bool * Z) }.

Definition NewServer : Server := MkServer ∅ ∅ ∅ ∅.

Record Out := MkOut { Data : bytes; To : AddrPort }.

(** The random bytes of one call. *)
Record randoms := MkRandoms { rTag : bytes; rNonce : bytes; rID : bytes; rKey : bytes }.

Definition randoms_ok (r : randoms) : Prop :=
  zlen (rTag r) = 4 /\ zlen (rNonce r) = 24 /\ zlen (rID r) = sessLen /\ zlen (rKey r) = 32.

Section Server.
Context `{CR : Crypto}.
Context (priv pub : bytes).
(** The [Authorizer]: its answers may change with time. *)
Context (authNode : Z -> bytes -> option bytes) (authCanSend : Z -> bytes -> bytes -> bool).

Definition set_session (s : Server) (p : nat) (ss : serverSession) : Server :=
  MkServer (<[p := ss]> (heap s)) (byID s) (byNode s) (perm s).

(** First critical section of [Handle]: the session of the packet, unless its
    node sent too many packets within the current second. *)
Definition lookupSession (s : Server) (now : Z) (pkt : bytes) : option (nat * Session) * Server :=
  match SessionID pkt pub with
  | Ok (Some id) =>
    match byID s !! id with
    | Some p =>
      match heap s !! p with
      | Some src =>
        let '(w, n) := if Second <=? time_sub now (window src) then (now, 0) else (window src, packets src) in
        let n := n + 1 in
        let s := set_session s p
          (MkServerSession (session src) (nodeID src) (raw src) (addr src) (last src) w n) in
        if maxPPS <? n then (None, s) else (Some (p, session src), s)
      | None => (None, s)
      end
    | None => (None, s)
    end
  | _ => (None, s)
  end.

(** Second critical section: the node is now at [from]. *)
Definition touch (s : Server) (p : nat) (now : Z) (from : AddrPort) : Server :=
  match heap s !! p with
  | Some src => set_session s p
      (MkServerSession (session src) (nodeID src) (raw src) from now (window src) (packets src))
  | None => s
  end.

(** Third critical section: the session of the destination, copied. *)
Definition destination (s : Server) (dstID : bytes) : option (Session * AddrPort) :=
  p ← byNode s !! dstID;
  dst ← heap s !! p;
  Some (session dst, addr dst).

(** [allowed]: the authorizer's answer, cached for a minute. *)
Definition allowed (s : Server) (now : Z) (src dst : bytes) : bool * Server :=
  match perm s !! (src, dst) with
  | Some (ok, at_) =>
    if time_sub now at_ <? Minute then (ok, s)
    else let allow := authCanSend now src dst in
         (allow, MkServer (heap s) (byID s) (byNode s) (<[(src, dst) := (allow, now)]> (perm s)))
  | None =>
    let allow := authCanSend now src dst in
    (allow, MkServer (heap s) (byID s) (byNode s) (<[(src, dst) := (allow, now)]> (perm s)))
  end.

(** The critical section of [hello]: the node's old session is dropped. *)
Definition register (s : Server) (now : Z) (sess : Session) (nid rawID : bytes) (from : AddrPort) : Server :=
  let ids := match byNode s !! nid with
             | Some old => match heap s !! old with
                           | Some o => delete (ID (session o)) (byID s)
                           | None => byID s
                           end
             | None => byID s
             end in
  let p := fresh (dom (heap s)) in
  MkServer (<[p := MkServerSession sess nid rawID from now time_zero 0]> (heap s))
    (<[ID sess := p]> ids) (<[nid := p]> (byNode s)) (perm s).

Definition hello (s : Server) (now : Z) (r : randoms) (pkt : bytes) (from : AddrPort) : list Out * Server :=
  match OpenHello pkt priv pub with
  | Ok key =>
    match authNode now key with
    | Some nid =>
      match NodeIDBytes nid with
      | Ok rawID =>
        let sess := MkSession (rID r) (rKey r) in
        let w := Welcome sess priv key (rNonce r) (rTag r) in
        ([MkOut w from], register s now sess nid rawID from)
      | _ => ([], s)
      end
    | None => ([], s)
    end
  | _ => ([], s)
  end.

(** [Handle] when no other handler runs in between. *)
Definition Handle (s : Server) (now : Z) (r : randoms) (pkt : bytes) (from : AddrPort) : list Out * Server :=
  if IsHello pkt pub then hello s now r pkt from
  else
    let '(found, s) := lookupSession s now pkt in
    match found with
    | None => ([], s)
    | Some (p, sess) =>
      match Open sess pkt with
      | Ok (typ, node, payload) =>
        let s := touch s p now from in
        match heap s !! p with
        | None => ([], s)
        | Some src =>
          if typ =? TypePing then
            match Seal sess pub TypePing (zeros 10) [] (rTag r) (rNonce r) with
            | Ok f => ([MkOut f from], s)
            | _ => ([], s)
            end
          else if typ =? TypeSend then
            let dstID := NodeIDString node in
            let '(ok, s) := allowed s now (nodeID src) dstID in
            if negb ok then ([], s)
            else match destination s dstID with
                 | None => ([], s)
                 | Some (dstSess, dstAddr) =>
                   match Seal dstSess pub TypeRecv (raw src) payload (rTag r) (rNonce r) with
                   | Ok f => ([MkOut f dstAddr], s)
                   | _ => ([], s)
                   end
                 end
          else ([], s)
        end
      | _ => ([], s)
      end
    end.

(** One entry of the expiry loop over [byID]. *)
Definition expireOne (now : Z) (s : Server) (e : bytes * nat) : Server :=
  match heap s !! e.2 with
  | Some ss =>
    if sessionIdle <? time_sub now (last ss) then
      MkServer (heap s) (delete e.1 (byID s))
        (if bool_decide (byNode s !! nodeID ss = Some e.2) then delete (nodeID ss) (byNode s) else byNode s)
        (perm s)
    else s
  | None => s
  end.

(** A tick of the expiry loop; [order] is the order of the range statement. *)
Definition expire (s : Server) (now : Z) (order : list (bytes * nat)) : Server :=
  let s := fold_left (expireOne now) order s in
  MkServer (heap s) (byID s) (byNode s)
    (filter (fun e => ~ (Minute < time_sub now e.2.2)) (perm s)).

Definition Sessions (s : Server) : nat := size (byNode s).

(** ** Reachable states

    Any sequence of critical sections, at times that do not go back: this
    includes every interleaving of concurrent handlers and the expiry loop. *)
Inductive reach : Z -> Server -> Prop :=
  | reach_new t : reach t NewServer
  | reach_lookup t s now pkt : reach t s -> t <= now -> reach now (lookupSession s now pkt).2
  | reach_touch t s now p from : reach t s -> t <= now -> reach now (touch s p now from)
  | reach_allowed t s now src dst : reach t s -> t <= now -> reach now (allowed s now src dst).2
  | reach_hello t s now r pkt from : reach t s -> t <= now -> randoms_ok r ->
      reach now (hello s now r pkt from).2
  | reach_expire t s now order : reach t s -> t <= now -> order ≡ₚ map_to_list (byID s) ->
      reach now (expire s now order).

Record session_inv (ss : serverSession) : Prop := {
  si_raw : NodeIDBytes (nodeID ss) = Ok (raw ss);
  si_ok : session_ok (session ss);
  si_packets : 0 <= packets ss }.

Record inv (t : Z) (s : Server) : Prop := {
  i_id : forall id p, byID s !! id = Some p ->
    exists ss, heap s !! p = Some ss /\ ID (session ss) = id /\ byNode s !! nodeID ss = Some p;
  i_node : forall n p, byNode s !! n = Some p -> exists ss, heap s !! p = Some ss /\ nodeID ss = n;
  i_heap : forall p ss, heap s !! p = Some ss -> session_inv ss;
  i_perm : forall src dst ok at_, perm s !! (src, dst) = Some (ok, at_) ->
    ok = authCanSend at_ src dst /\ at_ <= t }.

Lemma inv_new t : inv t NewServer.
Proof. split; simpl; intros *; rewrite lookup_empty; done. Qed.

Lemma inv_later t now s : inv t s -> t <= now -> inv now s.
Proof.
  intros [H1 H2 H3 H4] Ht. split; try done.
  intros src dst ok at_ H. destruct (H4 _ _ _ _ H). split; [done | lia].
Qed.

(** Replacing a session by one with the same identity keeps the invariant. *)
Lemma set_session_inv t s p old ss : heap s !! p = Some old ->
  session ss = session old -> nodeID ss = nodeID old -> raw ss = raw old -> 0 <= packets ss ->
  inv t s -> inv t (set_session s p ss).
Proof.
  intros Hp He Hn Hr Hpk [H1 H2 H3 H4]. split; simpl; [| | | done].
  - intros id q Hq. destruct (H1 id q Hq) as (x & Hx & Hid & Hb).
    destruct (decide (p = q)) as [<- | Hne].
    + rewrite lookup_insert_eq. exists ss. split; [done |]. split; congruence.
    + rewrite lookup_insert_ne by done. eauto.
  - intros n q Hq. destruct (H2 n q Hq) as (x & Hx & Hb).
    destruct (decide (p = q)) as [<- | Hne].
    + rewrite lookup_insert_eq. exists ss. split; [done |]. congruence.
    + rewrite lookup_insert_ne by done. eauto.
  - intros q x. destruct (decide (p = q)) as [<- | Hne].
    + rewrite lookup_insert_eq. intros [= <-]. destruct (H3 p old Hp). split; [congruence .. | done].
    + rewrite lookup_insert_ne by done. apply H3.
Qed.

Lemma lookupSession_inv t s now pkt : inv t s -> inv t (lookupSession s now pkt).2.
Proof.
  intros H. unfold lookupSession. destruct (SessionID pkt pub) as [[id |] | |]; try done.
  destruct (byID s !! id) as [p |]; [| done]. destruct (heap s !! p) as [src |] eqn:Hp; [| done].
  pose proof (si_packets _ (i_heap _ _ H _ _ Hp)) as Hpk.
  assert (0 <= (if Second <=? time_sub now (window src) then (now, 0) else (window src, packets src)).2) as Hn
    by (case_match; simpl; lia).
  destruct (if Second <=? _ then _ else _) as [w n]. simpl in Hn. destruct (maxPPS <? n + 1); simpl;
    apply (set_session_inv t s p src); simpl; try done; lia.
Qed.

Lemma touch_inv t s p now from : inv t s -> inv t (touch s p now from).
Proof.
  intros H. unfold touch. destruct (heap s !! p) as [src |] eqn:Hp; [| done].
  apply (set_session_inv t s p src); try done. apply (i_heap _ _ H _ _ Hp).
Qed.

Lemma set_perm_inv t now s k : inv t s -> t <= now ->
  inv now (MkServer (heap s) (byID s) (byNode s) (<[k := (authCanSend now k.1 k.2, now)]> (perm s))).
Proof.
  intros H Ht. destruct (inv_later t now s H Ht) as [H1 H2 H3 H4]. split; simpl; try done.
  intros src dst ok at_. destruct (decide (k = (src, dst))) as [-> | Hne].
  - rewrite lookup_insert_eq. intros [= <- <-]. split; [done | lia].
  - rewrite lookup_insert_ne by done. apply H4.
Qed.

Lemma allowed_inv t s now src dst : inv t s -> t <= now -> inv now (allowed s now src dst).2.
Proof.
  intros H Ht. unfold allowed. destruct (perm s !! _) as [[ok at_] |] eqn:Hp; [case_match |]; simpl;
    [by apply (inv_later t) | by apply (set_perm_inv t now s (src, dst)) ..].
Qed.

Lemma register_inv t s now sess nid rawID from : session_ok sess -> NodeIDBytes nid = Ok rawID ->
  inv t s -> inv t (register s now sess nid rawID from).
Proof.
  intros Hs Hraw [H1 H2 H3 H4]. unfold register. set (p := fresh (dom (heap s))).
  assert (heap s !! p = None) as Hp by (apply not_elem_of_dom, is_fresh).
  set (ids := match byNode s !! nid with Some _ => _ | None => _ end).
  assert (forall id q, ids !! id = Some q -> byID s !! id = Some q /\
    forall ss, heap s !! q = Some ss -> nodeID ss <> nid) as Hids.
  { intros id q Hq. unfold ids in Hq. destruct (byNode s !! nid) as [old |] eqn:Hold.
    - destruct (H2 _ _ Hold) as (o & Ho & Hn). rewrite Ho in Hq.
      apply lookup_delete_Some in Hq as [Hne Hq]. split; [done |]. intros ss Hss Hn'.
      destruct (H1 _ _ Hq) as (x & Hx & Hid & Hb). simplify_eq. rewrite Hn' in Hb. simplify_eq.
    - split; [done |]. intros ss Hss Hn'. destruct (H1 _ _ Hq) as (x & Hx & Hid & Hb). simplify_eq. }
  clearbody ids. split; simpl; [| | | done].
  - intros id q. destruct (decide (ID sess = id)) as [<- | Hne].
    + rewrite lookup_insert_eq. intros [= <-]. rewrite lookup_insert_eq. eexists. split; [done |].
      split; [done |]. by rewrite lookup_insert_eq.
    + rewrite lookup_insert_ne by done. intros Hq. destruct (Hids _ _ Hq) as [Hq' Hnn].
      destruct (H1 _ _ Hq') as (x & Hx & Hid & Hb). exists x. split.
      * rewrite lookup_insert_ne; [done |]. congruence.
      * split; [done |]. rewrite lookup_insert_ne; [done |]. intros He. by apply (Hnn x Hx).
  - intros n q. destruct (decide (nid = n)) as [<- | Hne].
    + rewrite lookup_insert_eq. intros [= <-]. rewrite lookup_insert_eq. eauto.
    + rewrite lookup_insert_ne by done. intros Hq. destruct (H2 _ _ Hq) as (x & Hx & Hn).
      exists x. rewrite lookup_insert_ne; [done |]. congruence.
  - intros q x. destruct (decide (p = q)) as [<- | Hne].
    + rewrite lookup_insert_eq. intros [= <-]. done.
    + rewrite lookup_insert_ne by done. apply H3.
Qed.

Lemma hello_inv t s now r pkt from : randoms_ok r -> inv t s -> inv t (hello s now r pkt from).2.
Proof.
  intros Hr H. unfold hello. destruct (OpenHello _ _ _); try done.
  destruct (authNode _ _); [| done]. destruct (NodeIDBytes _) eqn:Hn; try done.
  simpl. apply register_inv; [apply Hr | done | done].
Qed.

(** The loop over [byID] meets every entry once, in some order. *)
Lemma expireOne_inv t now s id p : byID s !! id = Some p -> inv t s -> inv t (expireOne now s (id, p)).
Proof.
  intros Hid [H1 H2 H3 H4]. unfold expireOne. simpl.
  destruct (heap s !! p) as [ss |] eqn:Hp; [| done]. case_match; [| done].
  destruct (H1 _ _ Hid) as (x & Hx & Hxid & Hxn). simplify_eq.
  rewrite bool_decide_eq_true_2 by done. split; simpl; [| | done | done].
  - intros id' q [Hne Hq]%lookup_delete_Some. destruct (H1 _ _ Hq) as (y & Hy & Hyid & Hyn).
    exists y. split; [done |]. split; [done |]. apply lookup_delete_Some. split; [| done].
    intros He. rewrite He in Hxn. simplify_eq.
  - intros n q [Hne Hq]%lookup_delete_Some. by apply H2.
Qed.

Lemma expire_loop_inv t now order : forall s, NoDup order ->
  (forall id p, (id, p) ∈ order -> byID s !! id = Some p) -> inv t s ->
  inv t (fold_left (expireOne now) order s).
Proof.
  induction order as [| [id p] order IH]; intros s Hnd Hin H; simpl; [done |].
  apply NoDup_cons in Hnd as [Hnot Hnd]. apply IH; [done | | apply expireOne_inv; [apply Hin; left | done]].
  intros id' q Hq. assert (byID s !! id' = Some q) as Hs by (apply Hin; by right).
  unfold expireOne. simpl. destruct (heap s !! p); [| done]. case_match; [| done]. simpl.
  apply lookup_delete_Some. split; [| done]. intros <-.
  assert (byID s !! id = Some p) by (apply Hin; left). by simplify_eq.
Qed.

Lemma expire_inv t s now order : order ≡ₚ map_to_list (byID s) -> inv t s -> inv t (expire s now order).
Proof.
  intros Ho H. assert (inv t (fold_left (expireOne now) order s)) as [H1 H2 H3 H4].
  { apply expire_loop_inv; [rewrite Ho; apply NoDup_map_to_list | | done].
    intros id p Hin. rewrite Ho in Hin. by apply elem_of_map_to_list in Hin. }
  split; try done. simpl. intros src dst ok at_ Hp. apply map_lookup_filter_Some in Hp as [Hp _].
  by apply H4.
Qed.

Lemma reach_inv t s : reach t s -> inv t s.
Proof.
  induction 1 as [t | t s now pkt _ IH Ht | t s now p from _ IH Ht | t s now src dst _ IH Ht
    | t s now r pkt from _ IH Ht Hr | t s now order _ IH Ht Ho].
  - apply inv_new.
  - apply lookupSession_inv. by apply (inv_later t).
  - apply touch_inv. by apply (inv_later t).
  - by apply (allowed_inv t).
  - apply hello_inv; [done |]. by apply (inv_later t).
  - apply expire_inv; [done |]. by apply (inv_later t).
Qed.

(** ** What a handler does *)

Lemma lookupSession_found s now pkt p sess s' : lookupSession s now pkt = (Some (p, sess), s') ->
  exists id src src', SessionID pkt pub = Ok (Some id) /\ byID s !! id = Some p /\ heap s !! p = Some src
    /\ sess = session src /\ s' = set_session s p src'
    /\ session src' = session src /\ nodeID src' = nodeID src /\ raw src' = raw src
    /\ packets src' <= maxPPS
    /\ ((window src' = window src /\ packets src' = packets src + 1)
        \/ (window src' = now /\ packets src' = 1 /\ window src + Second <= now)).
Proof.
  unfold lookupSession. destruct (SessionID pkt pub) as [[id |] | |] eqn:Hid; try done.
  destruct (byID s !! id) as [p' |] eqn:Hb; [| done]. destruct (heap s !! p') as [src |] eqn:Hp; [| done].
  assert (exists w n, (if Second <=? time_sub now (window src) then (now, 0) else (window src, packets src)) = (w, n)
    /\ ((w = window src /\ n = packets src) \/ (w = now /\ n = 0 /\ window src + Second <= now)))
    as (w & n & -> & Hwn).
  { destruct (Z.leb_spec Second (time_sub now (window src))) as [Hw | Hw]; eexists _, _; (split; [done |]).
    - right. split; [done |]. split; [done |]. unfold time_sub, Second in *. lia.
    - by left. }
  destruct (Z.ltb_spec maxPPS (n + 1)) as [Hc | Hc]; [done |]. intros [= <- <- <-].
  exists id, src. eexists. split; [done |]. split; [done |]. split; [exact Hp |]. split; [done |].
  split; [reflexivity |]. simpl. repeat (split; [done |]).
  destruct Hwn as [[-> ->] | (-> & -> & ?)]; [by left | by right].
Qed.

Lemma touch_heap s p now from src : heap s !! p = Some src ->
  exists src', heap (touch s p now from) !! p = Some src' /\ session src' = session src
    /\ nodeID src' = nodeID src /\ raw src' = raw src /\ addr src' = from.
Proof.
  intros Hp. unfold touch. rewrite Hp. simpl. eexists. split; [apply lookup_insert_eq |]. done.
Qed.

Lemma allowed_spec t s now src dst s' : inv t s -> t <= now -> allowed s now src dst = (true, s') ->
  heap s' = heap s /\ byID s' = byID s /\ byNode s' = byNode s
  /\ exists at_, at_ <= now < at_ + Minute /\ authCanSend at_ src dst = true.
Proof.
  intros Hi Ht. unfold allowed. destruct (perm s !! (src, dst)) as [[ok at_] |] eqn:Hp.
  - destruct (Z.ltb_spec (time_sub now at_) Minute) as [Hm | Hm].
    + intros [= -> <-]. repeat (split; [done |]). destruct (i_perm _ _ Hi _ _ _ _ Hp) as [Hok Hle].
      exists at_. split; [| done]. unfold time_sub, Minute, Second in *. lia.
    + intros [= Ha <-]. repeat (split; [done |]). exists now. split; [unfold Minute, Second; lia | done].
  - intros [= Ha <-]. repeat (split; [done |]). exists now. split; [unfold Minute, Second; lia | done].
Qed.

(** The packet belongs to a live session, and [src] is its record. *)
Definition from_session (s : Server) (pkt : bytes) (p : nat) (src : serverSession) : Prop :=
  exists id, SessionID pkt pub = Ok (Some id) /\ byID s !! id = Some p /\ heap s !! p = Some src.

(** C1: In any reachable state of the relay a datagram produces at most one
    other. It is a welcome to an authenticated hello of a node the authorizer
    knows, sent back where the hello came from; or the answer to a ping of a
    live session, sent back likewise; or a forwarded payload. A payload is only
    forwarded from a packet sealed with a live session's key, to the session of
    the node it names, when the authorizer allowed that pair within the last
    minute, and it carries the sender's registered ID, whatever the packet says. *)
Theorem Handle_sound t s now r pkt from outs s'
  (Hs : reach t s) (Ht : t <= now) (Hh : Handle s now r pkt from = (outs, s')) :
  (length outs <= 1)%nat
  /\ forall o, o ∈ outs ->
    (exists key nid, OpenHello pkt priv pub = Ok key /\ authNode now key = Some nid /\ To o = from
      /\ Data o = Welcome (MkSession (rID r) (rKey r)) priv key (rNonce r) (rTag r))
    \/ (exists p src node payload, from_session s pkt p src
          /\ Open (session src) pkt = Ok (TypePing, node, payload) /\ To o = from
          /\ Seal (session src) pub TypePing (zeros 10) [] (rTag r) (rNonce r) = Ok (Data o))
    \/ (exists p src node payload dst at_, from_session s pkt p src
          /\ Open (session src) pkt = Ok (TypeSend, node, payload)
          /\ destination s' (NodeIDString node) = Some (dst, To o)
          /\ NodeIDBytes (nodeID src) = Ok (raw src)
          /\ at_ <= now < at_ + Minute
          /\ authCanSend at_ (nodeID src) (NodeIDString node) = true
          /\ Seal dst pub TypeRecv (raw src) payload (rTag r) (rNonce r) = Ok (Data o)).
Proof.
  apply reach_inv in Hs. revert Hh. unfold Handle. destruct (IsHello pkt pub).
  - unfold hello. destruct (OpenHello pkt priv pub) as [key | |] eqn:Hk;
      [destruct (authNode now key) as [nid |] eqn:Ha; [destruct (NodeIDBytes nid) eqn:Hn |] | |];
      intros [= <- <-]; (split; [simpl; lia |]); try (by intros o ?%elem_of_nil).
    intros o ->%list_elem_of_singleton. left. exists key, nid. done.
  - destruct (lookupSession s now pkt) as [[[p sess] |] s1] eqn:Hl;
      [| intros [= <- <-]; split; [simpl; lia | by intros o ?%elem_of_nil]].
    apply lookupSession_found in Hl as (id & src & src' & Hid & Hp & Hsrc & -> & -> & E1 & E2 & E3 & _ & E4).
    pose proof (si_packets _ (i_heap _ _ Hs _ _ Hsrc)) as Hpk.
    destruct (Open (session src) pkt) as [[[typ node] payload] | |] eqn:Hopen;
      [| intros [= <- <-]; split; [simpl; lia | by intros o ?%elem_of_nil] ..].
    destruct (touch_heap (set_session s p src') p now from src') as (src2 & H2 & F1 & F2 & F3 & F4);
      [apply lookup_insert_eq |].
    rewrite H2. rewrite F2, F3, E2, E3.
    assert (inv now (touch (set_session s p src') p now from)) as Hi2.
    { apply touch_inv. eapply set_session_inv; eauto; [lia | by apply (inv_later t)]. }
    destruct (i_heap _ _ Hs _ _ Hsrc) as [Hraw _].
    assert (from_session s pkt p src) as Hfs by (exists id; done).
    destruct (Z.eqb_spec typ TypePing) as [-> |].
    { destruct (Seal _ pub TypePing _ _ _ _) as [f | |] eqn:Hf; intros [= <- <-]; (split; [simpl; lia |]);
        try (by intros o ?%elem_of_nil).
      intros o ->%list_elem_of_singleton. right. left. exists p, src, node, payload. done. }
    destruct (Z.eqb_spec typ TypeSend) as [-> |];
      [| intros [= <- <-]; split; [simpl; lia | by intros o ?%elem_of_nil]].
    destruct (allowed _ now (nodeID src) (NodeIDString node)) as [[] s3] eqn:Ha; cbn [negb];
      [| intros [= <- <-]; split; [simpl; lia | by intros o ?%elem_of_nil]].
    apply (allowed_spec now) in Ha as (_ & _ & _ & at_ & Hat & Hcan); [| done | lia].
    destruct (destination s3 (NodeIDString node)) as [[dst daddr] |] eqn:Hd;
      [| intros [= <- <-]; split; [simpl; lia | by intros o ?%elem_of_nil]].
    destruct (Seal dst _ _ _ _ _ _) as [f | |] eqn:Hf; intros [= <- <-]; (split; [simpl; lia |]);
      try (by intros o ?%elem_of_nil).
    intros o ->%list_elem_of_singleton. right. right. exists p, src, node, payload, dst, at_. done.
Qed.

Lemma Handle_reach t s now r pkt from : reach t s -> t <= now -> randoms_ok r ->
  reach now (Handle s now r pkt from).2.
Proof.
  intros Hs Ht Hr. unfold Handle. destruct (IsHello pkt pub); [by apply (reach_hello t) |].
  pose proof (reach_lookup t s now pkt Hs Ht) as H1.
  destruct (lookupSession s now pkt) as [[[p sess] |] s1]; [| done].
  simpl in H1. destruct (Open sess pkt) as [[[typ node] payload] | |]; try done.
  pose proof (reach_touch now s1 now p from H1 ltac:(lia)) as H2.
  destruct (heap (touch s1 p now from) !! p) as [src |]; [| done].
  destruct (typ =? TypePing); [by case_match |]. destruct (typ =? TypeSend); [| done].
  pose proof (reach_allowed now _ now (nodeID src) (NodeIDString node) H2 ltac:(lia)) as H3.
  destruct (allowed _ _ _ _) as [[] s3]; [| done]. simpl in H3. cbn [negb].
  destruct (destination s3 _) as [[dst daddr] |]; [| done]. by case_match.
Qed.

(** C33: In any state the relay reaches, whatever handlers and expiry ticks are
    interleaved, no node has two live sessions: the registration of a node ends
    the one before. Every live session is the current one of its node, under
    the ID it is stored under. *)
Theorem one_session_per_node t s (Hs : reach t s) id1 id2 p1 p2 ss1 ss2
  (H1 : byID s !! id1 = Some p1) (H2 : byID s !! id2 = Some p2)
  (Hp1 : heap s !! p1 = Some ss1) (Hp2 : heap s !! p2 = Some ss2) :
  ID (session ss1) = id1 /\ byNode s !! nodeID ss1 = Some p1
  /\ (nodeID ss1 = nodeID ss2 -> id1 = id2).
Proof.
  apply reach_inv in Hs.
  destruct (i_id _ _ Hs _ _ H1) as (x & Hx & Hid1 & Hb1).
  destruct (i_id _ _ Hs _ _ H2) as (y & Hy & Hid2 & Hb2). simplify_eq.
  split; [done |]. split; [done |]. intros Hn. rewrite Hn in Hb1. by simplify_eq.
Qed.

(** Whoever sends a node's valid hello, from wherever, becomes the node's
    address at the relay and ends the node's session, since nothing in a hello
    is fresh to the relay: the old session's frames are dropped from then on. *)
Theorem hello_replaces t s now r pkt from key nid old o
  (Hs : reach t s) (Ht : t <= now) (Hh : IsHello pkt pub = true)
  (Hk : OpenHello pkt priv pub = Ok key) (Ha : authNode now key = Some nid)
  (Hold : byNode s !! nid = Some old) (Ho : heap s !! old = Some o) (Hnew : ID (session o) <> rID r) :
  let s' := (Handle s now r pkt from).2 in
  byID s' !! ID (session o) = None
  /\ destination s' nid = Some (MkSession (rID r) (rKey r), from)
  /\ (Handle s now r pkt from).1 = [MkOut (Welcome (MkSession (rID r) (rKey r)) priv key (rNonce r) (rTag r)) from].
Proof.
  apply reach_inv in Hs. unfold Handle. rewrite Hh. unfold hello. rewrite Hk, Ha.
  destruct (i_node _ _ Hs _ _ Hold) as (x & Hx & Hn). assert (x = o) as -> by congruence.
  destruct (i_heap _ _ Hs _ _ Ho) as [Hraw _]. rewrite Hn in Hraw. rewrite Hraw. simpl.
  unfold register, destination. rewrite Hold, Ho. cbn [byID byNode heap]. split; [| split; [| done]].
  - rewrite lookup_insert_ne by (intros He; by apply Hnew). by rewrite lookup_delete_eq.
  - rewrite lookup_insert_eq. cbn [mbind option_bind]. by rewrite lookup_insert_eq.
Qed.

(** ** The packet limit *)

(** The sessions whose packets pass [lookupSession], for a sequence of
    packets with their times. *)
Fixpoint accepted (s : Server) (l : list (Z * bytes)) : list nat :=
  match l with
  | [] => []
  | (now, pkt) :: l =>
    let '(found, s) := lookupSession s now pkt in
    match found with
    | Some (p, _) => p :: accepted s l
    | None => accepted s l
    end
  end.

Definition count (p : nat) (l : list nat) : Z := zlen (filter (fun q => q = p) l).

(** How many more packets of a session can pass before [T + Second]. *)
Definition allowance (T : Z) (ss : serverSession) : Z :=
  Z.max 0 (maxPPS - packets ss) + (if T <=? window ss then 0 else maxPPS).

Definition passes (p : nat) (found : option (nat * Session)) : Z :=
  match found with Some (q, _) => if decide (q = p) then 1 else 0 | None => 0 end.

Lemma lookupSession_allowance T s now pkt p ss : T <= now < T + Second ->
  heap s !! p = Some ss ->
  exists ss', heap (lookupSession s now pkt).2 !! p = Some ss'
    /\ allowance T ss' + passes p (lookupSession s now pkt).1
       <= allowance T ss.
Proof.
  intros Hnow Hp. unfold lookupSession.
  destruct (SessionID pkt pub) as [[id |] | |]; try (exists ss; split; [exact Hp | simpl; lia]).
  destruct (byID s !! id) as [q |]; [| exists ss; split; [exact Hp | simpl; lia]].
  destruct (heap s !! q) as [src |] eqn:Hq; [| exists ss; split; [exact Hp | simpl; lia]].
  destruct (if Second <=? time_sub now (window src) then (now, 0) else (window src, packets src)) as [w n] eqn:Hwn.
  destruct (decide (q = p)) as [-> | Hne].
  - simplify_eq.
    eexists. split; [destruct (maxPPS <? n + 1); simpl; apply lookup_insert_eq |].
    unfold allowance. cbn [packets window].
    assert (T <= window ss -> w = window ss /\ n = packets ss) as Hin.
    { intros HT. rewrite (proj2 (Z.leb_gt Second _)) in Hwn by (unfold time_sub, Second in *; lia). by simplify_eq. }
    assert ((w = window ss /\ n = packets ss) \/ (w = now /\ n = 0)) as Hor by (case_match; simplify_eq; auto).
    destruct (Z.ltb_spec maxPPS (n + 1)); cbn [fst passes].
    + destruct (Z.leb_spec T (window ss)), (Z.leb_spec T w); unfold maxPPS in *; lia.
    + rewrite decide_True by done.
      destruct (Z.leb_spec T (window ss)), (Z.leb_spec T w); unfold maxPPS in *; lia.
  - exists ss. split; [destruct (maxPPS <? n + 1); simpl; by rewrite lookup_insert_ne |].
    destruct (maxPPS <? n + 1); simpl; [lia |]. rewrite decide_False by done. lia.
Qed.

(** However its packets arrive and whatever else arrives, a session gets at
    most twice [maxPPS] packets past the limit within any second. *)
Theorem flood_bound t s T l p ss
  (Hs : reach t s) (Hp : heap s !! p = Some ss) (Hl : Forall (fun e => T <= e.1 < T + Second) l) :
  count p (accepted s l) <= 2 * maxPPS.
Proof.
  pose proof (si_packets _ (i_heap _ _ (reach_inv _ _ Hs) _ _ Hp)) as Hpk.
  assert (forall l s ss, Forall (fun e => T <= e.1 < T + Second) l -> heap s !! p = Some ss ->
    count p (accepted s l) <= allowance T ss) as H.
  { clear. induction l as [| [now pkt] l IH]; intros s ss Hl Hp; cbn [accepted].
    - unfold count, allowance, maxPPS. rewrite filter_nil. change (zlen (@nil nat)) with 0. case_match; lia.
    - inversion_clear Hl as [| ? ? Hnow Hl'].
      destruct (lookupSession_allowance T s now pkt p ss Hnow Hp) as (ss' & Hp' & Ha).
      destruct (lookupSession s now pkt) as [[[q sess] |] s'] eqn:E; cbn [fst snd passes] in *.
      + specialize (IH s' ss' Hl' Hp'). unfold count in *. rewrite filter_cons.
        destruct (decide (q = p)) as [-> | Hne]; [rewrite zlen_cons |]; lia.
      + specialize (IH s' ss' Hl' Hp'). lia. }
  etransitivity; [by apply (H l s ss) |]. unfold allowance, maxPPS. case_match; lia.
Qed.

End Server.

(** ** Witnesses *)

(** Two nodes with the keys 1 and 2 repeated; anyone may send to anyone for
    the first hour. *)
Definition exPriv : bytes := repeat 9 32.
Definition exNode (t : Z) (key : bytes) : option bytes := Some (NodeIDString (sub key 0 10)).
Definition exCanSend (t : Z) (a b : bytes) : bool := t <? Hour.
Definition exRandoms (i : Z) : randoms := MkRandoms (repeat i 4) (repeat i 24) (repeat i 8) (repeat (i + 100) 32).
Definition exAddr (i : Z) : AddrPort := MkAddrPort (Addr4 i) 4500.
Definition exHello (i : Z) : bytes :=
  Hello (CR := toy) (repeat i 32) (repeat i 32) exPriv (zeros 24) (zeros 8) (zeros 32) (repeat i 4).

Notation exHandle := (Handle (CR := toy) exPriv exPriv exNode exCanSend).
Notation exReach := (reach (CR := toy) exPriv exPriv exNode exCanSend).

Definition ex1 : Server := (exHandle NewServer 0 (exRandoms 1) (exHello 1) (exAddr 1)).2.
Definition ex2 : Server := (exHandle ex1 0 (exRandoms 2) (exHello 2) (exAddr 2)).2.

Lemma exRandoms_ok i : randoms_ok (exRandoms i).
Proof. repeat split. Qed.

Lemma ex1_reach : exReach 0 ex1.
Proof. apply (Handle_reach exPriv exPriv exNode exCanSend 0); [constructor | lia | apply exRandoms_ok]. Qed.

Lemma ex2_reach : exReach 0 ex2.
Proof. apply (Handle_reach exPriv exPriv exNode exCanSend 0); [apply ex1_reach | lia | apply exRandoms_ok]. Qed.

(** Node 1 sends two bytes to node 2. *)
Definition exFrame : bytes :=
  match Seal (CR := toy) (MkSession (repeat 1 8) (repeat 101 32)) exPriv TypeSend (repeat 2 10) [4; 5]
    (zeros 4) (zeros 24) with
  | Ok f => f | _ => [] end.

Example exForwarded :
  map To (exHandle ex2 Second (exRandoms 3) exFrame (exAddr 5)).1 = [exAddr 2].
Proof. vm_compute. reflexivity. Qed.

Lemma Handle_sound_witness : (length (exHandle ex2 Second (exRandoms 3) exFrame (exAddr 5)).1 <= 1)%nat.
Proof.
  destruct (exHandle ex2 Second (exRandoms 3) exFrame (exAddr 5)) as [outs s'] eqn:E.
  exact (proj1 (Handle_sound (CR := toy) exPriv exPriv exNode exCanSend 0 ex2 Second (exRandoms 3) exFrame (exAddr 5) outs s'
    ex2_reach ltac:(by cbv) E)).
Defined.

Lemma one_session_per_node_witness :
  byID ex2 !! repeat 1 8 = Some 0%nat /\ byNode ex2 !! NodeIDString (repeat 1 10) = Some 0%nat.
Proof.
  assert (byID ex2 !! repeat 1 8 = Some 0%nat) as H1 by (vm_compute; reflexivity).
  assert (exists ss, heap ex2 !! 0%nat = Some ss /\ nodeID ss = NodeIDString (repeat 1 10)) as (ss & E & Hn)
    by (eexists; vm_compute; split; reflexivity).
  pose proof (one_session_per_node (CR := toy) exPriv exPriv exNode exCanSend 0 ex2 ex2_reach (repeat 1 8) (repeat 1 8) 0%nat 0%nat ss ss
    H1 H1 E E) as (_ & H & _).
  rewrite Hn in H. split; [exact H1 | exact H].
Defined.

Lemma hello_replaces_witness :
  destination (exHandle ex2 Minute (exRandoms 3) (exHello 1) (exAddr 7)).2 (NodeIDString (repeat 1 10))
  = Some (MkSession (repeat 3 8) (repeat 103 32), exAddr 7).
Proof.
  assert (exists o, heap ex2 !! 0%nat = Some o /\ ID (session o) = repeat 1 8) as (o & E & Ho)
    by (eexists; vm_compute; split; reflexivity).
  assert (ID (session o) <> rID (exRandoms 3)) as Hne by (rewrite Ho; discriminate).
  assert (IsHello (CR := toy) (exHello 1) exPriv = true) as H1 by (vm_compute; reflexivity).
  assert (OpenHello (CR := toy) (exHello 1) exPriv exPriv = Ok (repeat 1 32)) as H2 by (vm_compute; reflexivity).
  assert (exNode Minute (repeat 1 32) = Some (NodeIDString (repeat 1 10))) as H3 by reflexivity.
  assert (byNode ex2 !! NodeIDString (repeat 1 10) = Some 0%nat) as H4 by (vm_compute; reflexivity).
  pose proof (hello_replaces (CR := toy) exPriv exPriv exNode exCanSend 0 ex2 Minute (exRandoms 3) (exHello 1) (exAddr 7)
    (repeat 1 32) (NodeIDString (repeat 1 10)) 0%nat o ex2_reach ltac:(by cbv) H1 H2 H3 H4 E Hne) as (_ & H & _).
  exact H.
Defined.

Lemma flood_bound_witness :
  count 0%nat (accepted (CR := toy) exPriv ex2 (repeat (Second, exFrame) 3)) <= 2 * maxPPS.
Proof.
  assert (exists ss, heap ex2 !! 0%nat = Some ss) as (ss & E) by (eexists; vm_compute; reflexivity).
  assert (Forall (fun e : Z * bytes => Second <= e.1 < Second + Second) (repeat (Second, exFrame) 3)) as Hl
    by (repeat constructor; by cbv).
  exact (flood_bound (CR := toy) exPriv exPriv exNode exCanSend 0 ex2 Second _ 0%nat ss ex2_reach E Hl).
Defined.

End relaysrv.
