(* ===== verification/RelayClient.v ===== *)
(** A node's side of a relay session (internal/relay/client.go), and what the
    client, the frames and the server give together: payloads reach the node
    they are for, under the sender's ID. Each callback's effect is in the
    result: what is written to the relay's address and what is delivered. *)
From stdpp Require Import base list gmap strings.
From Stdlib Require Import ZArith Lia.
From S2P Require Import Prelude GoStrings Netip Encoding Crypto Obfs Identity RelayProto RelayServer.

Open Scope Z_scope.

Module relaycli.
Import relay.

Definition helloEvery : Z := 2 * Second.
Definition keepaliveEvery : Z := 20 * Second.
Definition silenceLimit : Z := 60 * Second.

Record Client := MkClient { sess : option Session; heard : Z }.

Definition NewClient : Client := MkClient None time_zero.

Section Client.
Context `{CR : Crypto}.
Context (priv pub relayPub : bytes).

Definition Ready (c : Client) (now : Z) : bool :=
  match sess c with Some _ => time_sub now (heard c) <? silenceLimit | None => false end.

(** The random bytes of one call: tag nonce, box nonce, stamp, sealing. *)
Record randoms := MkRandoms { rTag : bytes; rNonce : bytes; rStamp : bytes; rSeal : bytes }.

Definition hello (r : randoms) : bytes := Hello priv pub relayPub (rNonce r) (rStamp r) (rSeal r) (rTag r).

(** One turn of [Run]'s loop: what is written, and the new [lastPing]. *)
Definition tick (c : Client) (now lastPing : Z) (r : randoms) : option bytes * Z :=
  match sess c with
  | None => (Some (hello r), lastPing)
  | Some s =>
    if silenceLimit <? time_sub now (heard c) then (Some (hello r), lastPing)
    else if keepaliveEvery <? time_sub now lastPing then
      match Seal s relayPub TypePing (zeros 10) [] (rTag r) (rNonce r) with
      | Ok f => (Some f, now)
      | _ => (None, lastPing)
      end
    else (None, lastPing)
  end.

(** A datagram from the relay's address: the payload delivered, if any. *)
Definition Handle (c : Client) (now : Z) (pkt : bytes) : option (bytes * bytes) * Client :=
  if IsWelcome pkt pub then
    match OpenWelcome pkt priv relayPub with
    | Ok s => (None, MkClient (Some s) now)
    | _ => (None, c)
    end
  else
    match sess c with
    | None => (None, c)
    | Some s =>
      match Open s pkt with
      | Ok (typ, node, payload) =>
        (if typ =? TypeRecv then Some (node, payload) else None, MkClient (Some s) now)
      | _ => (None, c)
      end
    end.

Inductive error : Type := ENoSession | ESeal.

Definition Send (c : Client) (dst payload : bytes) (r : randoms) : res error bytes :=
  match sess c with
  | None => Err ENoSession
  | Some s => or_err (Seal s relayPub TypeSend dst payload (rTag r) (rNonce r)) ESeal
  end.

(** ** Properties *)

(** A client that hears nothing from its relay for [silenceLimit] registers
    again at its next tick, whatever it thought of its session; a client with a
    fresh session sends a keepalive at least every [keepaliveEvery] and a tick,
    and otherwise stays quiet. *)
Theorem tick_spec (c : Client) (now lastPing : Z) (r : randoms)
  (Hnow : 0 <= now < 2 ^ 62) (Hh : time_zero <= heard c <= now) (Hp : time_zero <= lastPing <= now) :
  (sess c = None \/ silenceLimit < now - heard c -> tick c now lastPing r = (Some (hello r), lastPing))
  /\ (forall s, sess c = Some s -> now - heard c <= silenceLimit ->
        (keepaliveEvery < now - lastPing -> exists f,
           Seal s relayPub TypePing (zeros 10) [] (rTag r) (rNonce r) = Ok f
           /\ tick c now lastPing r = (Some f, now))
        /\ (now - lastPing <= keepaliveEvery -> tick c now lastPing r = (None, lastPing))).
Proof.
  unfold tick. split.
  - intros [-> | Hs]; [done |]. destruct (sess c); [| done].
    rewrite (proj2 (Z.ltb_lt _ _)); [done |].
    unfold time_sub, silenceLimit, Second, time_zero in *. lia.
  - intros s -> Hs. rewrite (proj2 (Z.ltb_ge silenceLimit _))
      by (unfold time_sub, silenceLimit, Second, time_zero in *; lia). split; intros Hk.
    + rewrite (proj2 (Z.ltb_lt keepaliveEvery _))
        by (unfold time_sub, keepaliveEvery, Second, time_zero in *; lia).
      unfold Seal. change (maxPayload <? zlen (@nil Z)) with false. cbv iota.
      eexists. split; reflexivity.
    + rewrite (proj2 (Z.ltb_ge keepaliveEvery _))
        by (unfold time_sub, keepaliveEvery, Second, time_zero in *; lia). done.
Qed.

End Client.

(** ** Through the relay *)

Section Delivery.
Context `{CL : CryptoLaws}.
Context (relayPriv relayPub : bytes).
Context (authNode : Z -> bytes -> option bytes) (authCanSend : Z -> bytes -> bytes -> bool).

Lemma allowed_true s now src dst : 
  (forall a b ok at_, relaysrv.perm s !! (a, b) = Some (ok, at_) -> ok = authCanSend at_ a b) ->
  (forall t', authCanSend t' src dst = true) ->
  exists s', relaysrv.allowed authCanSend s now src dst = (true, s')
    /\ relaysrv.heap s' = relaysrv.heap s /\ relaysrv.byNode s' = relaysrv.byNode s.
Proof.
  intros Hi Hc. unfold relaysrv.allowed. destruct (relaysrv.perm s !! (src, dst)) as [[ok at_] |] eqn:Hp.
  - rewrite (Hi _ _ _ _ Hp), !Hc.
    destruct (time_sub now at_ <? Minute); eexists; done.
  - rewrite Hc. eexists. done.
Qed.

(** The first two critical sections on a packet of session [pa]. *)
Lemma lookup_touch s now pkt pa xa : SessionID pkt relayPub = Ok (Some (ID (relaysrv.session xa))) ->
  relaysrv.byID s !! ID (relaysrv.session xa) = Some pa -> relaysrv.heap s !! pa = Some xa ->
  relaysrv.packets xa < relaysrv.maxPPS ->
  exists s', relaysrv.lookupSession relayPub s now pkt = (Some (pa, relaysrv.session xa), s')
    /\ relaysrv.byNode s' = relaysrv.byNode s /\ relaysrv.perm s' = relaysrv.perm s
    /\ (exists xa', relaysrv.heap s' = <[pa := xa']> (relaysrv.heap s)
        /\ relaysrv.session xa' = relaysrv.session xa /\ relaysrv.nodeID xa' = relaysrv.nodeID xa
        /\ relaysrv.raw xa' = relaysrv.raw xa).
Proof.
  intros Hid Hb Hh Hp. unfold relaysrv.lookupSession. rewrite Hid, Hb, Hh.
  destruct (Second <=? _).
  - change (relaysrv.maxPPS <? 0 + 1) with false. cbv iota. eexists. split; [reflexivity |].
    split; [done |]. split; [done |]. eexists. split; [reflexivity |]. done.
  - rewrite (proj2 (Z.ltb_ge relaysrv.maxPPS _)) by lia. eexists. split; [reflexivity |].
    split; [done |]. split; [done |]. eexists. split; [reflexivity |]. done.
Qed.

(** C28: A payload sent by a node with a live session to another registered
    node it may talk to comes out of the relay as one datagram to that node's
    address, and that node's client delivers the same payload under the
    sender's registered ID. *)
Theorem relay_delivers t s now r r' from ca cb pubB privB pa pb xa xb nb payload f
  (Hs : relaysrv.reach relayPriv relayPub authNode authCanSend t s) (Ht : t <= now)
  (Hca : sess ca = Some (relaysrv.session xa)) (Hcb : sess cb = Some (relaysrv.session xb))
  (Hia : relaysrv.byID s !! ID (relaysrv.session xa) = Some pa) (Hxa : relaysrv.heap s !! pa = Some xa)
  (Hib : relaysrv.byNode s !! NodeIDString nb = Some pb) (Hxb : relaysrv.heap s !! pb = Some xb)
  (Hne : pa <> pb) (Hlim : relaysrv.packets xa < relaysrv.maxPPS) (Hnb : zlen nb = NodeIDLen)
  (Hcan : forall t', authCanSend t' (relaysrv.nodeID xa) (NodeIDString nb) = true)
  (Hr : zlen (rTag r) = 4 /\ zlen (rNonce r) = 24) (Hr' : relaysrv.randoms_ok r')
  (Hsend : Send relayPub ca nb payload r = Ok f) (Hnh : IsHello f relayPub = false) :
  exists d, (relaysrv.Handle relayPriv relayPub authNode authCanSend s now r' f from).1
      = [relaysrv.MkOut d (relaysrv.addr xb)]
    /\ NodeIDBytes (relaysrv.nodeID xa) = Ok (relaysrv.raw xa)
    /\ (IsWelcome d pubB = false ->
        (Handle privB pubB relayPub cb now d).1 = Some (relaysrv.raw xa, payload)).
Proof.
  apply relaysrv.reach_inv in Hs. destruct Hr as [Hr1 Hr2]. destruct Hr' as (Hr1' & Hr2' & _).
  destruct (relaysrv.i_heap _ _ _ Hs _ _ Hxa) as [Hraw Hsa _].
  destruct (relaysrv.i_heap _ _ _ Hs _ _ Hxb) as [_ Hsb _].
  assert (zlen (relaysrv.raw xa) = NodeIDLen) as Hrl.
  { unfold NodeIDBytes in Hraw. repeat (case_match; try done). bool_hyps. by injection Hraw as <-. }
  unfold Send in Hsend. rewrite Hca in Hsend. unfold or_err, map_err in Hsend.
  destruct (Seal _ relayPub TypeSend _ _ _ _) as [f' | |] eqn:Hf; try done. injection Hsend as ->.
  destruct (frame_opens _ _ _ _ _ _ _ _ Hsa Hnb Hr1 Hr2 Hf) as [Hid Hopen].
  assert (zlen payload <= maxPayload) as Hpl.
  { unfold Seal in Hf. destruct (Z.ltb_spec maxPayload (zlen payload)); [done | lia]. }
  unfold relaysrv.Handle. rewrite Hnh.
  destruct (lookup_touch s now f pa xa Hid Hia Hxa Hlim)
    as (s1 & -> & Hn1 & Hp1 & xa' & Hh1 & E1 & E2 & E3).
  rewrite Hopen. unfold relaysrv.touch. rewrite Hh1, lookup_insert_eq.
  cbn [relaysrv.heap relaysrv.set_session]. rewrite lookup_insert_eq. cbn [relaysrv.nodeID relaysrv.raw].
  change (TypeSend =? TypePing) with false. change (TypeSend =? TypeSend) with true. cbv iota.
  rewrite E2, E3.
  match goal with |- context [relaysrv.allowed _ ?st _ _ _] => set (s2 := st) end.
  destruct (allowed_true s2 now (relaysrv.nodeID xa) (NodeIDString nb)) as (s3 & -> & H3h & H3n); [| done |].
  { intros a b ok at_ Hp. unfold s2 in Hp. cbn [relaysrv.perm relaysrv.set_session] in Hp. rewrite Hp1 in Hp.
    by destruct (relaysrv.i_perm _ _ _ Hs _ _ _ _ Hp). }
  cbn [negb]. unfold relaysrv.destination. rewrite H3n, H3h. unfold s2.
  cbn [relaysrv.byNode relaysrv.set_session relaysrv.heap]. rewrite Hn1, Hib. cbn [mbind option_bind].
  rewrite Hh1, !lookup_insert_ne, Hxb by done. cbn [mbind option_bind].
  destruct (Seal (relaysrv.session xb) relayPub TypeRecv (relaysrv.raw xa) payload _ _) as [d | |] eqn:Hd;
    [| unfold Seal in Hd; rewrite (proj2 (Z.ltb_ge _ _)) in Hd by lia; done ..].
  exists d. split; [done |]. split; [done |]. intros Hnw. unfold Handle. rewrite Hnw, Hcb.
  destruct (frame_opens _ _ _ _ _ _ _ _ Hsb Hrl Hr1' Hr2' Hd) as [_ ->]. done.
Qed.

End Delivery.

(** ** Witnesses *)

Lemma tick_spec_witness :
  tick (CR := toy) (zeros 32) (zeros 32) (zeros 32) NewClient Hour time_zero (MkRandoms [] [] [] [])
  = (Some (hello (CR := toy) (zeros 32) (zeros 32) (zeros 32) (MkRandoms [] [] [] [])), time_zero).
Proof. apply tick_spec; [by cbv .. | by left]. Defined.

Definition exAlways (t : Z) (a b : bytes) : bool := true.
Notation exH := (relaysrv.Handle (CR := toy) relaysrv.exPriv relaysrv.exPriv relaysrv.exNode exAlways).
Definition exS1 := (exH relaysrv.NewServer 0 (relaysrv.exRandoms 1) (relaysrv.exHello 1) (relaysrv.exAddr 1)).2.
Definition exS2 := (exH exS1 0 (relaysrv.exRandoms 2) (relaysrv.exHello 2) (relaysrv.exAddr 2)).2.
Definition exClient (i : Z) : Client := MkClient (Some (MkSession (repeat i 8) (repeat (i + 100) 32))) 0.
Definition exR : randoms := MkRandoms (zeros 4) (zeros 24) [] [].
Definition exF : bytes :=
  match Send (CR := toy) relaysrv.exPriv (exClient 1) (repeat 2 10) [4; 5] exR with Ok f => f | _ => [] end.

Lemma exS2_reach : relaysrv.reach (CR := toy) relaysrv.exPriv relaysrv.exPriv relaysrv.exNode exAlways 0 exS2.
Proof.
  apply (relaysrv.Handle_reach _ _ _ _ 0); [| lia | apply relaysrv.exRandoms_ok].
  apply (relaysrv.Handle_reach _ _ _ _ 0); [constructor | lia | apply relaysrv.exRandoms_ok].
Qed.

Lemma relay_delivers_witness : exists d,
  (exH exS2 Second (relaysrv.exRandoms 3) exF (relaysrv.exAddr 5)).1 = [relaysrv.MkOut d (relaysrv.exAddr 2)].
Proof.
  assert (exists x, relaysrv.heap exS2 !! 0%nat = Some x /\ relaysrv.session x = MkSession (repeat 1 8) (repeat 101 32)
    /\ relaysrv.packets x = 0) as (xa & Ea & Ha & Hpk) by (eexists; vm_compute; repeat split).
  assert (exists x, relaysrv.heap exS2 !! 1%nat = Some x /\ relaysrv.session x = MkSession (repeat 2 8) (repeat 102 32)
    /\ relaysrv.addr x = relaysrv.exAddr 2) as (xb & Eb & Hb & Haddr) by (eexists; vm_compute; repeat split).
  assert (sess (exClient 1) = Some (relaysrv.session xa)) as H1 by (by rewrite Ha).
  assert (sess (exClient 2) = Some (relaysrv.session xb)) as H2 by (by rewrite Hb).
  assert (relaysrv.byID exS2 !! ID (relaysrv.session xa) = Some 0%nat) as H3 by (rewrite Ha; vm_compute; reflexivity).
  assert (relaysrv.byNode exS2 !! NodeIDString (repeat 2 10) = Some 1%nat) as H4 by (vm_compute; reflexivity).
  assert (relaysrv.packets xa < relaysrv.maxPPS) as H5 by (rewrite Hpk; by cbv).
  assert (Send (CR := toy) relaysrv.exPriv (exClient 1) (repeat 2 10) [4; 5] exR = Ok exF) as H6 by (vm_compute; reflexivity).
  assert (IsHello (CR := toy) exF relaysrv.exPriv = false) as H7 by (vm_compute; reflexivity).
  destruct (relay_delivers (C := toy) relaysrv.exPriv relaysrv.exPriv relaysrv.exNode exAlways 0 exS2 Second
    exR (relaysrv.exRandoms 3) (relaysrv.exAddr 5) (exClient 1) (exClient 2) [] [] 0%nat 1%nat xa xb
    (repeat 2 10) [4; 5] exF exS2_reach ltac:(by cbv) H1 H2 H3 Ea H4 Eb ltac:(done) H5 eq_refl
    (fun _ => eq_refl) (conj eq_refl eq_refl) (relaysrv.exRandoms_ok 3) H6 H7) as (d & Hd & _).
  exists d. rewrite Haddr in Hd. exact Hd.
Defined.

End relaycli.
