(* ===== verification/Vless.v ===== *)
(** Relay frames over a TCP stream: the VLESS headers and packet framing
    (internal/vless/vless.go), the server's admission of a stream
    (internal/vlesssrv/server.go), the settings a node derives
    (internal/node/relaytransport.go) and the relay's side of a stream
    (ServeStream and send of internal/relay/server.go).

    A stream is the list of bytes that arrive on it before it ends or breaks,
    so what is proved holds for every way the bytes are cut into reads. The
    REALITY TLS session under it is third-party code and is not modelled. *)
From stdpp Require Import base list gmap strings.
From Stdlib Require Import ZArith Lia.
From S2P Require Import Prelude GoStrings Netip Encoding Crypto Identity RelayProto RelayServer.

Open Scope Z_scope.

Module vless.

Definition version : Z := 0.
Definition CmdTCP : Z := 1.
Definition CmdUDP : Z := 2.
Definition addrIPv4 : Z := 1.
Definition addrDomain : Z := 2.
Definition addrIPv6 : Z := 3.
Definition MaxPacket : Z := 65535.

Inductive error : Type :=
  | EEOF | EUUID | EVersion | EAddrType | EResponseVersion | ETooLarge | EBuffer | EHex.

(** ** Reading a stream *)

(** [io.ReadFull] of [n] bytes and [bufio.Reader.Discard]. *)
Definition ReadFull (n : Z) (s : bytes) : res error (bytes * bytes) :=
  if zlen s <? n then Err EEOF else Ok (take (Z.to_nat n) s, drop (Z.to_nat n) s).
Definition Discard (n : Z) (s : bytes) : res error bytes := snd <$> ReadFull n s.

(** ** User IDs *)

(** The separators [fmt] skips before a number. *)
Definition scan_space (c : Z) : bool := (c =? 32) || (c =? 9) || (c =? 11) || (c =? 12) || (c =? 13).

(** [fmt.Sscanf] of two bytes with "%02x": a leading space is skipped, and what
    follows the first digits is not looked at. *)
Definition scan02x (a b : Z) : option Z :=
  match hex_digit a with
  | Some x => match hex_digit b with Some y => Some (16 * x + y) | None => Some x end
  | None => if scan_space a then hex_digit b else None
  end.

Fixpoint scan_pairs (s : bytes) : option bytes :=
  match s with
  | [] => Some []
  | a :: b :: r => x ← scan02x a b; l ← scan_pairs r; Some (x :: l)
  | [_] => None
  end.

Definition ParseUUID (s : bytes) : res error bytes :=
  let hex := List.filter (fun c => negb (c =? 45)) s in
  if negb (zlen hex =? 32) then Err EUUID else Prelude.from_option (scan_pairs hex) EUUID.

Definition UUID_String (u : bytes) : bytes :=
  hex_encode (sub u 0 4) ++ 45 :: hex_encode (sub u 4 6) ++ 45 :: hex_encode (sub u 6 8)
  ++ 45 :: hex_encode (sub u 8 10) ++ 45 :: hex_encode (sub u 10 16).

(** ** Headers *)

Record Request := MkRequest { User : bytes; Command : Z; Dest : AddrPort }.

Definition WriteRequest (r : Request) : bytes :=
  let ip := Unmap (ap_addr (Dest r)) in
  version :: User r ++ 0 :: Command r :: put_be 2 (ap_port (Dest r))
  ++ (if Is4 ip then addrIPv4 else addrIPv6) :: AsSlice ip.

(** The destination after command and port. A domain leaves it empty. *)
Definition read_dest (user : bytes) (cmd port typ : Z) (s : bytes) : res error (Request * bytes) :=
  if (typ =? addrIPv4) || (typ =? addrIPv6) then
    '(ip, s) ← ReadFull (if typ =? addrIPv6 then 16 else 4) s;
    Ok (MkRequest user cmd (MkAddrPort (Unmap (AddrFromSlice ip).1) port), s)
  else if typ =? addrDomain then
    '(l, s) ← ReadFull 1 s;
    l ← index l 0;
    s ← Discard l s;
    Ok (MkRequest user cmd AddrPortZero, s)
  else Err EAddrType.

Definition ReadRequest (s : bytes) : res error (Request * bytes) :=
  '(hdr, s) ← ReadFull 18 s;
  v ← index hdr 0;
  if negb (v =? version) then Err EVersion
  else
    n ← index hdr 17;
    s ← (if 0 <? n then Discard n s else Ok s);
    '(cmd, s) ← ReadFull 4 s;
    c ← index cmd 0;
    typ ← index cmd 3;
    port ← uint16_be (sub cmd 1 3);
    read_dest (sub hdr 1 17) c port typ s.

Definition WriteResponse : bytes := [version; 0].

Definition ReadResponse (s : bytes) : res error bytes :=
  '(h, s) ← ReadFull 2 s;
  v ← index h 0;
  if negb (v =? version) then Err EResponseVersion else n ← index h 1; Discard n s.

(** ** Packets on the stream *)

Definition WritePacket (b : bytes) : res error bytes :=
  if MaxPacket <? zlen b then Err ETooLarge else Ok (put_be 2 (zlen b) ++ b).

(** [ReadPacket] into a buffer of [size] bytes. *)
Definition ReadPacket (size : Z) (s : bytes) : res error (bytes * bytes) :=
  '(l, s) ← ReadFull 2 s;
  n ← uint16_be l;
  if size <? n then Err EBuffer else ReadFull n s.

(** The packets read until one fails; every packet takes bytes of the stream. *)
Fixpoint read_loop (fuel : nat) (size : Z) (s : bytes) : list bytes :=
  match fuel with
  | O => []
  | S fuel => match ReadPacket size s with Ok (p, s) => p :: read_loop fuel size s | _ => [] end
  end.
Definition read_all (size : Z) (s : bytes) : list bytes := read_loop (length s) size s.

(** [handle] of the server: the stream after the headers, when the session is
    accepted. The answer it writes is [WriteResponse]. *)
Definition handle (allowed : bytes -> bool) (s : bytes) : option (bytes * AddrPort) :=
  match ReadRequest s with
  | Ok (req, s) => if allowed (User req) && (Command req =? CmdUDP) then Some (s, Dest req) else None
  | _ => None
  end.

(** ** A node's settings for a relay's entrance *)

(** [hex.DecodeString]. *)
Fixpoint hex_decode (s : bytes) : option bytes :=
  match s with
  | [] => Some []
  | a :: b :: r => x ← hex_digit a; y ← hex_digit b; l ← hex_decode r; Some (16 * x + y :: l)
  | [_] => None
  end.

Record Entrance := MkEntrance { v_Addr : bytes; v_ServerName : bytes; v_PublicKey : bytes; v_ShortID : bytes; v_User : bytes }.
Record ClientConfig := MkClientConfig {
  Addr_ : bytes; ServerName : bytes; PublicKey : bytes; ShortID : bytes; c_User : bytes }.

Definition vlessConfig (v : Entrance) : res error ClientConfig :=
  let c := MkClientConfig (v_Addr v) (v_ServerName v) (v_PublicKey v) (zeros 8) (zeros 16) in
  match hex_decode (v_ShortID v) with
  | None => Err EHex
  | Some sid =>
    if 8 <? zlen sid then Ok c
    else
      u ← ParseUUID (v_User v);
      Ok (MkClientConfig (v_Addr v) (v_ServerName v) (v_PublicKey v) (copy_into (zeros 8) sid) u)
  end.

(** ** Round trips *)

Lemma ReadFull_app a b : ReadFull (zlen a) (a ++ b) = Ok (a, b).
Proof.
  unfold ReadFull. rewrite zlen_app, (proj2 (Z.ltb_ge _ _)) by (pose proof (zlen_nonneg b); lia).
  unfold zlen. by rewrite Nat2Z.id, take_app_length, drop_app_length.
Qed.
Lemma ReadFull_exact n a b : n = zlen a -> ReadFull n (a ++ b) = Ok (a, b).
Proof. intros ->. apply ReadFull_app. Qed.

Lemma ReadFull_short n s : zlen s < n -> ReadFull n s = Err EEOF.
Proof. intros H. unfold ReadFull. by rewrite (proj2 (Z.ltb_lt _ _)). Qed.

(** What the reader takes a destination for: IPv4-mapped addresses become IPv4,
    zones are lost. *)
Definition dest_view (a : AddrPort) : AddrPort := MkAddrPort (withoutZone (Unmap (ap_addr a))) (ap_port a).

Lemma read_dest_slice u c p a r : addr_ok a -> IsValid a = true -> Unmap a = a ->
  read_dest u c p (if Is4 a then addrIPv4 else addrIPv6) (AsSlice a ++ r)
  = Ok (MkRequest u c (MkAddrPort (withoutZone a) p), r).
Proof.
  intros Ha Hv Hu. destruct a as [| v | v z]; [done | |]; unfold read_dest; cbn [Is4 AsSlice].
  - change (addrIPv4 =? addrIPv4) with true. cbn [orb]. change (addrIPv4 =? addrIPv6) with false. cbv iota.
    rewrite ReadFull_exact by (by rewrite zlen_put_be). cbn [mbind res_bind].
    unfold AddrFromSlice. rewrite zlen_put_be. change (Z.of_nat 4 =? 4) with true. cbn [fst].
    by rewrite AddrFrom4_As4.
  - change (addrIPv6 =? addrIPv4) with false. change (addrIPv6 =? addrIPv6) with true. cbn [orb].
    rewrite ReadFull_exact by (by rewrite zlen_put_be). cbn [mbind res_bind].
    unfold AddrFromSlice. rewrite zlen_put_be. change (Z.of_nat 16 =? 4) with false. change (Z.of_nat 16 =? 16) with true.
    cbn [fst]. unfold AddrFrom16. rewrite be_put_be_small by (apply Ha). unfold Unmap in Hu |- *. cbn [withoutZone].
    by destruct (_ =? _).
Qed.

(** The server reads back the request a node writes, and leaves the rest of the
    stream for the packets. *)
Lemma read_request r rest : length (User r) = 16%nat -> 0 <= ap_port (Dest r) < 2 ^ 16 ->
  addr_ok (ap_addr (Dest r)) -> IsValid (ap_addr (Dest r)) = true ->
  ReadRequest (WriteRequest r ++ rest) = Ok (MkRequest (User r) (Command r) (dest_view (Dest r)), rest).
Proof.
  intros Hu Hp Ha Hv. unfold ReadRequest, WriteRequest. set (ip := Unmap (ap_addr (Dest r))).
  set (typ := if Is4 ip then addrIPv4 else addrIPv6).
  assert (addr_ok ip) as Hi by (by apply Unmap_ok).
  assert (IsValid ip = true) as Hiv by (unfold ip, Unmap; destruct (ap_addr (Dest r)); try done; by destruct (_ =? _)).
  assert (Unmap ip = ip) as Huu.
  { unfold ip. destruct (ap_addr (Dest r)) as [| v | v z]; [done | done |]. simpl.
    destruct (v / 2 ^ 32 =? 65535) eqn:E; [done |]. simpl. by rewrite E. }
  replace ((version :: User r ++ 0 :: Command r :: put_be 2 (ap_port (Dest r)) ++ typ :: AsSlice ip) ++ rest)
    with ((version :: User r ++ [0]) ++ (Command r :: put_be 2 (ap_port (Dest r)) ++ [typ]) ++ AsSlice ip ++ rest)
    by (by list_simplifier).
  rewrite (ReadFull_exact 18) by (unfold zlen; simpl; rewrite length_app, Hu; reflexivity). cbn [mbind res_bind].
  replace (index (version :: User r ++ [0]) 0) with (Ok (E := error) version) by reflexivity. cbn [mbind res_bind].
  change (version =? version) with true. cbn [negb].
  assert (index (E := error) (version :: User r ++ [0]) 17 = Ok 0) as ->.
  { unfold index. change (Z.to_nat 17) with (S 16). cbn [Z.leb]. change (0 <=? 17) with true. cbv iota.
    change ((version :: User r ++ [0]) !! S 16) with ((User r ++ [0]) !! 16%nat). by rewrite lookup_app_r, Hu by lia. }
  cbn [mbind res_bind]. change (0 <? 0) with false. cbv iota. cbn [mbind res_bind].
  rewrite (ReadFull_exact 4) by reflexivity.
  cbn [mbind res_bind].
  assert (sub (version :: User r ++ [0]) 1 17 = User r) as ->.
  { unfold sub. change (Z.to_nat (17 - 1)) with 16%nat. change (Z.to_nat 1) with 1%nat. simpl. rewrite drop_0, take_app_le, take_ge by lia. done. }
  assert (index (E := error) (Command r :: put_be 2 (ap_port (Dest r)) ++ [typ]) 0 = Ok (Command r)) as -> by reflexivity.
  assert (index (E := error) (Command r :: put_be 2 (ap_port (Dest r)) ++ [typ]) 3 = Ok typ) as -> by reflexivity.
  assert (uint16_be (E := error) (sub (Command r :: put_be 2 (ap_port (Dest r)) ++ [typ]) 1 3) = Ok (ap_port (Dest r))) as ->.
  { replace (sub _ 1 3) with (put_be 2 (ap_port (Dest r))) by reflexivity.
    change (uint16_be (E := error) (put_be 2 (ap_port (Dest r)))) with (Ok (E := error) (be (put_be 2 (ap_port (Dest r))))).
    by rewrite be_put_be_small by lia. }
  cbn [mbind res_bind]. by apply read_dest_slice.
Qed.

Lemma hex_digit_char v : 0 <= v < 16 -> hex_digit (hex_char v) = Some v /\ hex_char v <> 45.
Proof.
  intros Hv. unfold hex_char, hex_digit, is_digit. destruct (v <? 10) eqn:E; bool_hyps.
  - rewrite (proj2 (Z.leb_le 48 _)), (proj2 (Z.leb_le _ 57)) by lia. split; [simpl; f_equal; lia | lia].
  - rewrite (proj2 (Z.leb_gt _ 57)), Bool.andb_false_r, (proj2 (Z.leb_le 97 _)), (proj2 (Z.leb_le _ 102)) by lia.
    split; [simpl; f_equal; lia | lia].
Qed.

Lemma hex_byte b : byte_ok b -> exists x y, hex_encode [b] = [hex_char x; hex_char y]
  /\ 0 <= x < 16 /\ 0 <= y < 16 /\ 16 * x + y = b.
Proof.
  intros Hb. unfold byte_ok in Hb. exists (b / 2 ^ 4 mod 2 ^ 4), (b mod 2 ^ 4). split; [reflexivity |].
  change (2 ^ 4) with 16. Z.div_mod_to_equations. lia.
Qed.

Lemma hex_encode_app a b : hex_encode (a ++ b) = hex_encode a ++ hex_encode b.
Proof. unfold hex_encode. by rewrite flat_map_app. Qed.
Lemma hex_encode_cons b l : hex_encode (b :: l) = hex_encode [b] ++ hex_encode l.
Proof. apply (hex_encode_app [b]). Qed.

Lemma scan_pairs_hex u : bytes_ok u -> scan_pairs (hex_encode u) = Some u /\ hex_decode (hex_encode u) = Some u
  /\ 45 ∉ hex_encode u /\ zlen (hex_encode u) = 2 * zlen u.
Proof.
  induction 1 as [| b u Hb Hu IH]; [split; [done | split; [done | split; [apply not_elem_of_nil | done]]] |].
  destruct (hex_byte b Hb) as (x & y & Hxy & Hx & Hy & Hsum). rewrite hex_encode_cons, Hxy.
  destruct IH as (IH1 & IH2 & IH3 & IH4). destruct (hex_digit_char x Hx), (hex_digit_char y Hy). simpl.
  unfold scan02x. rewrite H, H1. simpl. rewrite IH1, IH2. simpl. rewrite Hsum. split; [done | split; [done |]]. split.
  - rewrite !not_elem_of_cons. split; [congruence | split; [congruence | done]].
  - rewrite !zlen_cons, IH4. lia.
Qed.
Lemma filter_id {X} (f : X -> bool) l : Forall (fun x => f x = true) l -> List.filter f l = l.
Proof. induction 1 as [| x l Hx _ IH]; simpl; [done |]. by rewrite Hx, IH. Qed.

Lemma no_dash s : 45 ∉ s -> List.filter (fun c => negb (c =? 45)) s = s.
Proof.
  intros H. apply filter_id, Forall_forall. intros x Hx. rewrite (proj2 (Z.eqb_neq x 45)); [done |]. by intros ->.
Qed.

(** the text of a user ID reads back as the ID. *)
Theorem ParseUUID_String u : bytes_ok u -> length u = 16%nat -> ParseUUID (UUID_String u) = Ok u.
Proof.
  intros Hb Hl. unfold ParseUUID, UUID_String.
  assert (forall i j, 45 ∉ hex_encode (sub u i j)) as Hd by (intros; by apply scan_pairs_hex, sub_bytes_ok).
  rewrite !List.filter_app. cbn [List.filter Z.eqb Pos.eqb negb]. rewrite !List.filter_app. cbn [List.filter Z.eqb Pos.eqb negb].
  rewrite !List.filter_app. cbn [List.filter Z.eqb Pos.eqb negb]. rewrite !List.filter_app. cbn [List.filter Z.eqb Pos.eqb negb].
  rewrite !no_dash by done. rewrite <- !hex_encode_app, <- !sub_cut by lia.
  replace 16 with (zlen u) by (unfold zlen; lia). rewrite sub_all. destruct (scan_pairs_hex u Hb) as (-> & _ & _ & ->).
  replace (zlen u) with 16 by (unfold zlen; lia). done.
Qed.

(** ** Packets *)

Definition packet_ok (size : Z) (b : bytes) : Prop := bytes_ok b /\ zlen b <= MaxPacket /\ zlen b <= size.

Lemma ReadPacket_WritePacket size b s rest : packet_ok size b -> WritePacket b = Ok s ->
  ReadPacket size (s ++ rest) = Ok (b, rest).
Proof.
  intros (_ & Hm & Hs). unfold WritePacket. destruct (_ <? _); [done |]. intros Heq.
  assert (s = put_be 2 (zlen b) ++ b) as -> by congruence. unfold ReadPacket. rewrite <- app_assoc, (ReadFull_exact 2) by done. cbn [mbind res_bind].
  change (uint16_be (put_be 2 (zlen b))) with (Ok (E := error) (be (put_be 2 (zlen b)))). cbn [mbind res_bind].
  unfold MaxPacket in Hm. rewrite be_put_be_small by (pose proof (zlen_nonneg b); lia).
  rewrite (proj2 (Z.ltb_ge _ _)) by lia. apply ReadFull_app.
Qed.

Lemma ReadPacket_shorter size s p s' : ReadPacket size s = Ok (p, s') -> (length s' < length s)%nat.
Proof.
  unfold ReadPacket, ReadFull. destruct (zlen s <? 2) eqn:H; [done |]. bool_hyps. cbn [mbind res_bind].
  destruct (uint16_be _) as [n | |]; [| done | done]. cbn [mbind res_bind]. destruct (_ <? _); [done |].
  destruct (_ <? _); [done |]. intros [= _ <-]. rewrite !length_drop. unfold zlen in H. lia.
Qed.

(** More fuel than bytes changes nothing. *)
Lemma read_loop_fuel size : forall n s, (length s <= n)%nat -> read_loop n size s = read_all size s.
Proof.
  unfold read_all. assert (forall n m s, (length s <= n)%nat -> (length s <= m)%nat -> read_loop n size s = read_loop m size s) as H.
  { induction n as [| n IH]; intros [| m] s Hn Hm; try done.
    - destruct s; [done | simpl in Hn; lia].
    - destruct s; [done | simpl in Hm; lia].
    - simpl. destruct (ReadPacket size s) as [[p s'] | |] eqn:Hr; [| done | done]. apply ReadPacket_shorter in Hr.
      f_equal. apply IH; lia. }
  intros n s Hn. by apply H.
Qed.

Lemma read_all_cons size b s rest : packet_ok size b -> WritePacket b = Ok s -> read_all size (s ++ rest) = b :: read_all size rest.
Proof.
  intros Hb Hs. pose proof (ReadPacket_WritePacket size b s rest Hb Hs) as Hr. pose proof (ReadPacket_shorter _ _ _ _ Hr) as Hl.
  unfold read_all at 1. destruct (length (s ++ rest)) as [| n] eqn:Hn; [lia |]. cbn [read_loop]. rewrite Hr. f_equal.
  apply read_loop_fuel. lia.
Qed.

(** The bytes of packets written one after the other. *)
Definition written (ps : list bytes) : bytes := concat (map (fun b => put_be 2 (zlen b) ++ b) ps).

Lemma read_all_written size ps rest : Forall (packet_ok size) ps -> (zlen rest < 2) ->
  read_all size (written ps ++ rest) = ps.
Proof.
  intros H Hr. induction H as [| b ps Hb _ IH].
  - unfold written. simpl. unfold read_all. destruct (length rest); simpl; [done |]. unfold ReadPacket. by rewrite ReadFull_short.
  - unfold written in *. cbn [map concat]. rewrite <- app_assoc. rewrite (read_all_cons size b); [by rewrite IH | done |].
    unfold WritePacket. by rewrite (proj2 (Z.ltb_ge _ _)) by apply Hb.
Qed.

End vless.

(** ** The relay's side of streams (internal/relay/server.go) *)

Module relaystream.
Import vless.

(** Streams get pseudo addresses from this range. *)
Definition streamPrefix : Prefix := MkPrefix (Addr6 (64890 * 2 ^ 112 + 31344 * 2 ^ 96 + 29299 * 2 ^ 80) []) 48.
Example streamPrefix_text : ParsePrefix (str "fd7a:7a70:7273::/48") = Some streamPrefix.
Proof. vm_compute. reflexivity. Qed.

Definition stream_addr (id : Z) : AddrPort :=
  MkAddrPort (AddrFrom16 (take 8 (As16 (pfx_ip streamPrefix)) ++ put_be 8 id)) 1.

Record Relay := MkRelay { core : relaysrv.Server; pc : bool; streams : gset AddrPort; nextID : Z }.

Definition openStream (r : Relay) : AddrPort * Relay :=
  let id := u64 (nextID r + 1) in
  let a := stream_addr id in
  (a, MkRelay (core r) (pc r) ({[a]} ∪ streams r) id).
Definition closeStream (r : Relay) (a : AddrPort) : Relay := MkRelay (core r) (pc r) (streams r ∖ {[a]}) (nextID r).

(** Where a frame of the relay goes. *)
Inductive sent : Type := ToStream (a : AddrPort) (d : bytes) | ToUDP (a : AddrPort) (d : bytes).

Definition send1 (r : Relay) (o : relaysrv.Out) : option sent :=
  if bool_decide (relaysrv.To o ∈ streams r) then Some (ToStream (relaysrv.To o) (relaysrv.Data o))
  else if pc r && negb (Contains streamPrefix (ap_addr (relaysrv.To o))) then Some (ToUDP (relaysrv.To o) (relaysrv.Data o))
  else None.
Definition send (r : Relay) (outs : list relaysrv.Out) : list sent := omap (send1 r) outs.

Section Relay.
Context `{CR : Crypto} (priv pub : bytes).
Context (authNode : Z -> bytes -> option bytes) (authCanSend : Z -> bytes -> bytes -> bool).

(** A frame that reached the relay: [s.send(s.Handle(pkt, from))]. *)
Definition packet (r : Relay) (now : Z) (rnd : relaysrv.randoms) (pkt : bytes) (from : AddrPort) : list sent * Relay :=
  let '(outs, c) := relaysrv.Handle priv pub authNode authCanSend (core r) now rnd pkt from in
  let r := MkRelay c (pc r) (streams r) (nextID r) in
  (send r outs, r).

(** A turn of [ServeUDP]. *)
Definition datagram (r : Relay) (now : Z) (rnd : relaysrv.randoms) (pkt : bytes) (from : AddrPort) : list sent * Relay :=
  packet r now rnd pkt (MkAddrPort (Unmap (ap_addr from)) (ap_port from)).

(** The frames of a stream, one after the other, each with its time and randomness. *)
Fixpoint feed (r : Relay) (a : AddrPort) (ps : list bytes) (env : list (Z * relaysrv.randoms)) : list sent * Relay :=
  match ps, env with
  | p :: ps, (now, rnd) :: env =>
    let '(o, r) := packet r now rnd p a in
    let '(os, r) := feed r a ps env in (o ++ os, r)
  | _, _ => ([], r)
  end.

Definition ServeStream (r : Relay) (s : bytes) (env : list (Z * relaysrv.randoms)) : list sent * Relay :=
  let '(a, r) := openStream r in
  let '(os, r) := feed r a (read_all relay.maxFrame s) env in
  (os, closeStream r a).

(** ** What is sent where *)

(** Every open stream has the address of an ID given before. *)
Definition streams_ok (r : Relay) : Prop :=
  0 <= nextID r < 2 ^ 64 /\ forall a, a ∈ streams r -> exists i, 1 <= i <= nextID r /\ a = stream_addr i.

Lemma be_tail8 pre k : 0 <= k < 2 ^ 64 -> be (pre ++ put_be 8 k) = be pre * 256 ^ 8 + k.
Proof. intros Hk. by rewrite be_app, zlen_put_be, be_put_be_small by lia. Qed.

Lemma stream_addr_inj i j : 0 <= i < 2 ^ 64 -> 0 <= j < 2 ^ 64 -> stream_addr i = stream_addr j -> i = j.
Proof.
  intros Hi Hj H. apply (f_equal ap_addr) in H. unfold stream_addr in H. cbn [ap_addr] in H. revert H.
  generalize (take 8 (As16 (pfx_ip streamPrefix))). intros pre H. unfold AddrFrom16 in H.
  assert (be (pre ++ put_be 8 i) = be (pre ++ put_be 8 j)) as Hb by congruence. rewrite !be_tail8 in Hb by done. lia.
Qed.

Lemma streamPrefix_be : be (take 8 (As16 (pfx_ip streamPrefix))) = 64890 * 2 ^ 48 + 31344 * 2 ^ 32 + 29299 * 2 ^ 16.
Proof. vm_compute. reflexivity. Qed.

Lemma stream_addr_in i : 0 <= i < 2 ^ 64 -> Contains streamPrefix (ap_addr (stream_addr i)) = true.
Proof.
  intros Hi. unfold stream_addr, AddrFrom16. cbn [ap_addr]. rewrite be_tail8, streamPrefix_be by done.
  unfold Contains, same_top, streamPrefix. cbn [pfx_ip pfx_bits Zone]. rewrite bool_decide_eq_true_2 by done.
  cbn [andb PrefixIsValid pfx_bits Z.leb]. apply Z.eqb_eq.
  change (256 ^ 8) with 18446744073709551616. change (2 ^ 64) with 18446744073709551616 in Hi.
  change (2 ^ (128 - 48)) with 1208925819614629174706176. change (2 ^ 112) with 5192296858534827628530496329220096.
  change (2 ^ 96) with 79228162514264337593543950336. change (2 ^ 80) with 1208925819614629174706176.
  change (2 ^ 48) with 281474976710656. change (2 ^ 32) with 4294967296. change (2 ^ 16) with 65536.
  transitivity 278702482027123; [reflexivity | apply Z.div_unique with i; lia].
Qed.

#[local] Opaque stream_addr.

Lemma put_and_drop (a : AddrPort) (S : gset AddrPort) : a ∉ S -> a ∈ {[a]} ∪ S /\ ({[a]} ∪ S) ∖ {[a]} = S.
Proof. set_solver. Qed.

Lemma openStream_addr r : (openStream r).1 = stream_addr (u64 (nextID r + 1)).
Proof. unfold openStream. cbv zeta. cbn [fst]. reflexivity. Qed.

Lemma openStream_ok r : streams_ok r -> nextID r + 1 < 2 ^ 64 ->
  (openStream r).1 ∉ streams r /\ streams_ok (openStream r).2.
Proof.
  intros [Hn Hs] Hlt. unfold openStream, u64. rewrite Z.mod_small by lia. split; simpl.
  - intros (i & Hi & He)%Hs. apply stream_addr_inj in He; lia.
  - split; simpl; [lia |]. intros a [->%elem_of_singleton | Ha]%elem_of_union; [exists (nextID r + 1); split; [lia | done] |].
    apply Hs in Ha as (i & Hi & ->). exists i. split; [lia | done].
Qed.

Lemma packet_streams r now rnd p a : streams (packet r now rnd p a).2 = streams r /\ nextID (packet r now rnd p a).2 = nextID r.
Proof. unfold packet. by destruct (relaysrv.Handle _ _ _ _ _ _ _ _ _). Qed.

Lemma feed_streams a ps : forall r env, streams (feed r a ps env).2 = streams r /\ nextID (feed r a ps env).2 = nextID r.
Proof.
  induction ps as [| p ps IH]; intros r env; [done |]. destruct env as [| [now rnd] env]; [done |]. cbn [feed].
  destruct (packet_streams r now rnd p a) as [H1 H2]. destruct (packet r now rnd p a) as [o r1]. simpl in *.
  specialize (IH r1 env). destruct (feed r1 a ps env) as [os r2]. simpl in *. destruct IH. by split; congruence.
Qed.

Lemma closeStream_ok r a : streams_ok r -> streams_ok (closeStream r a).
Proof. intros [Hn Hs]. split; [done |]. intros b [Hb _]%elem_of_difference. by apply Hs. Qed.

Lemma streams_ok_same r r' : streams r' = streams r -> nextID r' = nextID r -> streams_ok r -> streams_ok r'.
Proof. intros H1 H2 [Hn Hs]. unfold streams_ok. by rewrite H1, H2. Qed.

(** while a stream is served its address is its own: it is taken by no
    other open stream, a frame for it goes to the stream and never into a UDP
    datagram, and after the stream has ended a frame for its address is dropped. *)
Theorem stream_isolation r s env : streams_ok r -> nextID r + 1 < 2 ^ 64 ->
  let '(a, r1) := openStream r in
  a ∉ streams r
  /\ (forall o, relaysrv.To o = a -> send1 r1 o = Some (ToStream a (relaysrv.Data o)))
  /\ (forall o, relaysrv.To o = a -> send1 (ServeStream r s env).2 o = None)
  /\ streams (ServeStream r s env).2 = streams r
  /\ streams_ok (ServeStream r s env).2.
Proof.
  intros Hok Hlt. pose proof (openStream_ok r Hok Hlt) as [Hf Ho].
  assert (exists i, 0 <= i < 2 ^ 64 /\ (openStream r).1 = stream_addr i) as (i & Hi & Ha).
  { exists (u64 (nextID r + 1)). split; [unfold u64; apply Z.mod_pos_bound; lia | apply openStream_addr]. }
  assert ((openStream r).1 ∈ streams (openStream r).2 /\ streams (openStream r).2 ∖ {[(openStream r).1]} = streams r) as [Hin Hrm].
  { by apply put_and_drop. }
  unfold ServeStream. destruct (openStream r) as [a r1]. cbn [fst snd] in *.
  destruct (feed_streams a (read_all relay.maxFrame s) r1 env) as [H1 H2].
  destruct (feed r1 a (read_all relay.maxFrame s) env) as [os r2]. simpl in *.
  split; [done |]. split; [| split; [| split]].
  - intros o Hto. unfold send1. by rewrite Hto, bool_decide_eq_true_2.
  - intros o Hto. unfold send1. rewrite Hto. cbn [closeStream streams pc]. rewrite H1, Hrm, bool_decide_eq_false_2 by done.
    rewrite Ha, stream_addr_in by done. by rewrite Bool.andb_false_r.
  - by rewrite H1.
  - by apply closeStream_ok, (streams_ok_same r1).
Qed.

(** C30: a node that opens a stream with an allowed user ID and writes frames on
    it gets exactly those frames handled by the relay, in order, as if each had
    come in a datagram of its own from the stream's address; with another user
    or command the stream is closed. *)
Theorem vless_session allowed req ps rest : length (User req) = 16%nat -> 0 <= ap_port (Dest req) < 2 ^ 16 ->
  addr_ok (ap_addr (Dest req)) -> IsValid (ap_addr (Dest req)) = true ->
  Forall (packet_ok relay.maxFrame) ps -> zlen rest < 2 ->
  if allowed (User req) && (Command req =? CmdUDP) then
    exists s, handle allowed (WriteRequest req ++ written ps ++ rest) = Some (s, dest_view (Dest req))
    /\ forall r env, ServeStream r s env =
         let '(a, r1) := openStream r in let '(os, r2) := feed r1 a ps env in (os, closeStream r2 a)
  else handle allowed (WriteRequest req ++ written ps ++ rest) = None.
Proof.
  intros H1 H2 H3 H4 Hps Hr. destruct (allowed (User req) && _) eqn:Ha.
  - exists (written ps ++ rest). split.
    + unfold handle. rewrite read_request by done. cbn [User Command]. by rewrite Ha.
    + intros r env. unfold ServeStream. by rewrite read_all_written.
  - unfold handle. rewrite read_request by done. cbn [User Command]. by rewrite Ha.
Qed.

End Relay.

Definition exReq : Request := MkRequest (zeros 16) CmdUDP (MkAddrPort (Addr4 167772161) 4791).
Definition exRelay : Relay := MkRelay relaysrv.NewServer true ∅ 6.

Lemma vless_session_witness : exists s,
  handle (fun u => bool_decide (u = zeros 16)) (WriteRequest exReq ++ written [[1; 2; 3]; []; [9]] ++ [0])
  = Some (s, MkAddrPort (Addr4 167772161) 4791) /\ read_all relay.maxFrame s = [[1; 2; 3]; []; [9]].
Proof.
  destruct (vless_session (CR := toy) [] [] (fun _ _ => None) (fun _ _ _ => false) (fun u => bool_decide (u = zeros 16))
    exReq [[1; 2; 3]; []; [9]] [0]) as (s & Hs & _).
  - reflexivity.
  - vm_compute. split; [discriminate | reflexivity].
  - vm_compute. split; [discriminate | reflexivity].
  - reflexivity.
  - repeat (constructor; [split; [repeat constructor; vm_compute; (discriminate || reflexivity) | split; vm_compute; discriminate] |]). constructor.
  - reflexivity.
  - exists s. split; [exact Hs |]. vm_compute in Hs. injection Hs as <-. reflexivity.
Defined.

Lemma stream_isolation_witness : (openStream exRelay).1 ∉ streams exRelay
  /\ streams (ServeStream (CR := toy) [] [] (fun _ _ => None) (fun _ _ _ => false) exRelay [0; 1; 7] []).2 = ∅.
Proof.
  destruct (stream_isolation (CR := toy) [] [] (fun _ _ => None) (fun _ _ _ => false) exRelay [0; 1; 7] []) as (Ha & _ & _ & Hs & _).
  - split; [vm_compute; split; [discriminate | reflexivity] |]. intros a Ha. by apply elem_of_empty in Ha.
  - reflexivity.
  - split; [exact Ha | exact Hs].
Defined.

Lemma ParseUUID_String_witness : ParseUUID (UUID_String (put_be 16 123456789)) = Ok (put_be 16 123456789).
Proof. apply ParseUUID_String; [apply put_be_ok | reflexivity]. Defined.

(** two slips in reading settings: a user ID with stray characters is taken
    for another ID, and a short ID of more than 8 bytes is not refused: the node
    goes on with an empty short ID and the zero user. *)
Theorem vless_settings_lenient :
  ParseUUID (str "0g-" ++ str "2h3i4j5k6l7m8n9o0p1q2r3s4t5u6v") = Ok (map (fun n => n) [0; 2; 3; 4; 5; 6; 7; 8; 9; 0; 1; 2; 3; 4; 5; 6])
  /\ vlessConfig (MkEntrance (str "h:443") (str "a.org") (zeros 32) (str "001122334455667788") (str "not a user ID"))
     = Ok (MkClientConfig (str "h:443") (str "a.org") (zeros 32) (zeros 8) (zeros 16)).
Proof. vm_compute. split; reflexivity. Qed.

End relaystream.
