(* ===== verification/Tunwrap.v ===== *)
(** The TUN wrapper that shares broadcasts with the room (internal/tunwrap):
    broadcast.go, and the pump and divert hooks of divert.go.

    Packets live in the caller's buffers, which [Read] rewrites in place and
    [Write] truncates, so buffers are explicit lists of bytes. The inner TUN
    device is an argument: what its [Read] put into the buffers. The atomics of
    [Device] are plain fields: every operation below reads each once, where the
    code does. *)
From stdpp Require Import base list gmap strings.
From Stdlib Require Import ZArith Lia.
From S2P Require Import Prelude GoStrings Netip Acl AclFilter.

Open Scope Z_scope.

Module tunwrap.

Definition Port : Z := 4797.
Definition ModeOn : bytes := str "on".
Definition ModeOff : bytes := str "off".
Definition ModeMDNS : bytes := str "mdns".
Definition MaxPPS : Z := 200.
Definition magic : bytes := str "zptb".
Definition ipHdr : Z := 20.
Definition udpHdr : Z := 8.
Definition wrapHdr : Z := ipHdr + udpHdr + zlen magic.
Definition protoUDP : Z := 17.
Definition protoIGMP : Z := 2.

Definition limited : Addr := Addr4 (2 ^ 32 - 1).
Definition multicast : Prefix := MkPrefix (Addr4 (224 * 2 ^ 24)) 4.
Definition mdnsAddr : Addr := Addr4 (224 * 2 ^ 24 + 251).

Record Device := MkDevice {
  self : Addr; subnet : Prefix; bcast : Addr;
  mode : bytes; peers : list Addr; pending : list bytes;
  window : Z; counter : Z;
  filter_ : option filter.Filter;
  pumping : bool; injectClosed : bool }.

Definition set_pending (d : Device) (p : list bytes) : Device :=
  MkDevice (self d) (subnet d) (bcast d) (mode d) (peers d) p (window d) (counter d) (filter_ d)
    (pumping d) (injectClosed d).
Definition set_filter (d : Device) (f : option filter.Filter) : Device :=
  MkDevice (self d) (subnet d) (bcast d) (mode d) (peers d) (pending d) (window d) (counter d) f
    (pumping d) (injectClosed d).
Definition set_limit (d : Device) (w c : Z) : Device :=
  MkDevice (self d) (subnet d) (bcast d) (mode d) (peers d) (pending d) w c (filter_ d)
    (pumping d) (injectClosed d).
Definition set_closed (d : Device) : Device :=
  MkDevice (self d) (subnet d) (bcast d) (mode d) (peers d) (pending d) (window d) (counter d) (filter_ d)
    (pumping d) true.

Definition lastAddr {E} (p : Prefix) : res E Addr :=
  if negb (Is4 (pfx_ip p)) then Ok AddrZero
  else
    b ← As4 (pfx_ip (Masked p));
    Ok (AddrFrom4 (put_be 4 (Z.lor (be b) (u32 (u32 (2 ^ (32 - pfx_bits p)) - 1))))).

Definition norm_mode (m : bytes) : bytes := if bool_decide (m = []) then ModeOn else m.

Definition New {E} (p : Prefix) (m : bytes) : res E Device :=
  last ← lastAddr p;
  Ok (MkDevice (pfx_ip p) (Masked p) last (norm_mode m) [] [] time_zero 0 None false false).

Definition SetFilter (d : Device) (f : option filter.Filter) : Device := set_filter d f.

Definition SetMode (d : Device) (m : bytes) : Device :=
  MkDevice (self d) (subnet d) (bcast d) (norm_mode m) (peers d) (pending d) (window d) (counter d) (filter_ d)
    (pumping d) (injectClosed d).

Definition SetPeers (d : Device) (ips : list Addr) : Device :=
  MkDevice (self d) (subnet d) (bcast d) (mode d) ips (pending d) (window d) (counter d) (filter_ d)
    (pumping d) (injectClosed d).

Definition EnablePump (d : Device) : Device :=
  MkDevice (self d) (subnet d) (bcast d) (mode d) (peers d) (pending d) (window d) (counter d) (filter_ d)
    true (injectClosed d).

Definition isGroupDst (d : Device) (dst : Addr) : bool :=
  bool_decide (dst = limited) || bool_decide (dst = bcast d) || Contains multicast dst.

Definition shouldForward {E} (d : Device) (pkt : bytes) : res E bool :=
  if zlen pkt <? ipHdr then Ok false
  else
    b0 ← index pkt 0;
    if negb (Z.shiftr b0 4 =? 4) then Ok false
    else
      s ← slice pkt 12 16;
      t ← slice pkt 16 20;
      proto ← index pkt 9;
      let src := AddrFrom4 s in
      let dst := AddrFrom4 t in
      if negb (bool_decide (src = self d)) || negb (isGroupDst d dst) || (proto =? protoIGMP) then Ok false
      else if bool_decide (mode d = ModeOff) then Ok false
      else if bool_decide (mode d = ModeMDNS) then
        let ihl := Z.land b0 15 * 4 in
        if bool_decide (dst = mdnsAddr) && (proto =? protoUDP) && (ihl + udpHdr <=? zlen pkt) then
          port ← slice pkt (ihl + 2) (ihl + 4) ≫= uint16_be;
          Ok (port =? 5353)
        else Ok false
      else Ok true.

Definition allow (d : Device) (now : Z) : bool * Device :=
  let '(w, c) := if Second <=? time_sub now (window d) then (now, 0) else (window d, counter d) in
  (c + 1 <=? MaxPPS, set_limit d w (c + 1)).

(** ** The wrapped packet *)

(** The sum of the 16-bit words, in [uint32]; an odd last byte is a high one. *)
Fixpoint words_sum (b : bytes) : Z :=
  match b with
  | x :: y :: r => be [x; y] + words_sum r
  | [x] => Z.shiftl x 8
  | [] => 0
  end.

(** [for s>>16 != 0]: a 32-bit sum is folded at most three times. *)
Fixpoint fold16 (fuel : nat) (s : Z) : Z :=
  match fuel with
  | O => s
  | S fuel => if Z.shiftr s 16 =? 0 then s else fold16 fuel (u32 (Z.land s 65535 + Z.shiftr s 16))
  end.

Definition checksum (b : bytes) : Z := Z.lxor (u16 (fold16 3 (u32 (words_sum b)))) 65535.

(** The IPv4 header with checksum [c]. *)
Definition ipHeader (total c : Z) (s t : bytes) : bytes :=
  [69; 0] ++ put_be 2 (u16 total) ++ [0; 0] ++ put_be 2 16384 ++ [64; protoUDP] ++ put_be 2 c ++ s ++ t.

Definition wrap {E} (d : Device) (orig : bytes) (peer : Addr) : res E bytes :=
  let total := wrapHdr + zlen orig in
  s ← As4 (self d);
  t ← As4 peer;
  Ok (ipHeader total (checksum (ipHeader total 0 s t)) s t
      ++ put_be 2 Port ++ put_be 2 Port ++ put_be 2 (u16 (udpHdr + zlen magic + zlen orig)) ++ [0; 0]
      ++ magic ++ orig).

(** [None]: not a wrapped packet; [Some None]: a bad one, dropped. *)
Definition unwrap {E} (d : Device) (pkt : bytes) : res E (option (option bytes)) :=
  if zlen pkt <? wrapHdr then Ok None
  else
    b0 ← index pkt 0;
    proto ← index pkt 9;
    if negb (b0 =? 69) || negb (proto =? protoUDP) then Ok None
    else
      t ← slice pkt 16 20;
      port ← slice pkt 22 24 ≫= uint16_be;
      m ← slice pkt 28 32;
      if negb (bool_decide (AddrFrom4 t = self d)) || negb (port =? Port) || negb (bool_decide (m = magic))
      then Ok None
      else
        s ← slice pkt 12 16;
        inner ← slice pkt wrapHdr (zlen pkt);
        let outerSrc := AddrFrom4 s in
        if zlen inner <? ipHdr then Ok (Some None)
        else
          i0 ← index inner 0;
          if negb (Z.shiftr i0 4 =? 4) || bool_decide (mode d = ModeOff) then Ok (Some None)
          else
            is_ ← slice inner 12 16;
            if negb (bool_decide (AddrFrom4 is_ = outerSrc)) || negb (Contains (subnet d) outerSrc) then Ok (Some None)
            else
              id ← slice inner 16 20;
              if negb (isGroupDst d (AddrFrom4 id)) then Ok (Some None)
              else
                len ← slice inner 2 4 ≫= uint16_be;
                if negb (len =? zlen inner) then Ok (Some None) else Ok (Some (Some inner)).

(** ** Reading: broadcasts become unicasts *)

Fixpoint wrap_all {E} (d : Device) (orig : bytes) (ps : list Addr) : res E (list bytes) :=
  match ps with
  | [] => Ok []
  | p :: ps => w ← wrap d orig p; ws ← wrap_all d orig ps; Ok (w :: ws)
  end.

(** A broadcast to share: wrapped for every peer, within the limit. *)
Definition share {E} (d : Device) (now : Z) (pkt : bytes) : res E Device :=
  let '(ok, d) := allow d now in
  if ok : bool then ws ← wrap_all d pkt (peers d); Ok (set_pending d (pending d ++ ws)) else Ok d.

Definition noteOutbound (d : Device) (now : Z) (pkt : bytes) : res unit Device :=
  match filter_ d with
  | Some f => f ← filter.Outbound f now pkt; Ok (set_filter d (Some f))
  | None => Ok d
  end.

(** The buffers and sizes of one call. *)
Record buffers := MkBuffers { bufs : list bytes; sizes : list Z }.

(** [sizes[i] = copy(bufs[i][offset:], p)] and [copy] alone. *)
Definition put_buf (b : buffers) (i : nat) (offset : Z) (p : bytes) : buffers :=
  MkBuffers (alter (fun x => put_at x offset p) i (bufs b)) (sizes b).
Definition put_size (b : buffers) (i : nat) (n : Z) : buffers :=
  MkBuffers (bufs b) (<[i := n]> (sizes b)).

(** The loop over the [n] packets the device gave, from the [i]-th on. *)
Fixpoint read_loop (now offset : Z) (n i out : nat) (d : Device) (b : buffers) : res unit (Device * buffers * nat) :=
  match n with
  | O => Ok (d, b, out)
  | S n =>
    buf ← index (bufs b) (Z.of_nat i);
    size ← index (sizes b) (Z.of_nat i);
    pkt ← slice buf offset (offset + size);
    fwd ← shouldForward d pkt;
    if fwd : bool then
      d ← share d now pkt;
      read_loop now offset n (S i) out d b
    else
      d ← noteOutbound d now pkt;
      let b := if decide (out <> i) then put_buf b out offset pkt else b in
      read_loop now offset n (S i) (S out) d (put_size b out (zlen pkt))
  end.

(** [drainLocked]: pending packets into the buffers from [n] on. *)
Fixpoint drain (offset : Z) (b : buffers) (n : nat) (ps : list bytes) : buffers * nat * list bytes :=
  match ps with
  | [] => (b, n, [])
  | p :: ps' =>
    match bufs b !! n with
    | None => (b, n, ps)
    | Some buf =>
      if zlen buf <? offset + zlen p then drain offset b n ps'
      else drain offset (put_size (put_buf b n offset p) n (zlen p)) (S n) ps'
    end
  end.

Definition drainLocked (d : Device) (offset : Z) (b : buffers) (n : nat) : Device * buffers * nat :=
  let '(b, n, ps) := drain offset b n (pending d) in (set_pending d ps, b, n).

(** [Read] without the pump; [dev] is what the inner device's [Read] does to
    the buffers: their new contents, the number of packets, its error. *)
Definition Read (d : Device) (now : Z) (b : buffers) (offset : Z) (dev : buffers -> buffers * nat * option unit)
    : res unit (Device * buffers * nat * option unit) :=
  match pending d with
  | _ :: _ => Ok (drainLocked d offset b 0, None)
  | [] =>
    let '(b, n, err) := dev b in
    '(d, b, out) ← read_loop now offset n 0 0 d b;
    Ok (drainLocked d offset b out, err)
  end.

(** ** Writing: wrapped broadcasts are unwrapped *)

Section Write.
Variable EqualFold : bytes -> bytes -> bool.

(** Does the filter let the packet through? A bad wrapped one is not asked. *)
Definition admitPacket (d : Device) (now : Z) (view : bytes) : res unit (bool * Device) :=
  match filter_ d with
  | None => Ok (true, d)
  | Some f =>
    w ← unwrap d view;
    let ask v := '(ok, f) ← filter.Inbound EqualFold f now v; Ok (ok, set_filter d (Some f)) in
    match w with
    | None => ask view
    | Some (Some inner) => ask inner
    | Some None => Ok (true, d)
    end
  end.

(** One buffer of [Write]: the buffer handed to the OS, if any. *)
Definition write_one (d : Device) (now offset : Z) (divert : option (bytes -> bool)) (b : bytes)
    : res unit (option bytes * Device) :=
  view ← slice b offset (zlen b);
  '(ok, d) ← admitPacket d now view;
  if negb ok then Ok (None, d)
  else if (match divert with Some f => f view | None => false end) then Ok (None, d)
  else
    w ← unwrap d view;
    match w with
    | None => Ok (Some b, d)
    | Some (Some inner) => Ok (Some (take (Z.to_nat (offset + zlen inner)) (put_at b offset inner)), d)
    | Some None => Ok (None, d)
    end.

(** [Write]: the buffers given to the inner device. *)
Fixpoint Write (d : Device) (now offset : Z) (divert : option (bytes -> bool)) (bs : list bytes)
    : res unit (list bytes * Device) :=
  match bs with
  | [] => Ok ([], d)
  | b :: bs =>
    '(o, d) ← write_one d now offset divert b;
    '(keep, d) ← Write d now offset divert bs;
    Ok (match o with Some b => b :: keep | None => keep end, d)
  end.
End Write.

(** ** The pump *)

(** What the pump channel holds: packets, then possibly an error. *)
Inductive pumped : Type := PPkt (pkt : bytes) | PErr.

Definition queueLen : nat := 1024.

(** [Inject]: the channel afterwards. *)
Definition Inject (d : Device) (q : list pumped) (closed : bool) (pkt : bytes) : list pumped :=
  if negb (pumping d) || injectClosed d || closed then q
  else if decide (length q < queueLen)%nat then q ++ [PPkt pkt] else q.

(** [add] of [readPumped]: [inr] the error. *)
Definition add (d : Device) (now offset : Z) (b : buffers) (n : nat) (p : pumped)
    : res unit ((Device * buffers * nat) + Device) :=
  match p with
  | PErr => Ok (inr (set_closed d))
  | PPkt pkt =>
    fwd ← shouldForward d pkt;
    if fwd : bool then d ← share d now pkt; Ok (inl (d, b, n))
    else
      d ← noteOutbound d now pkt;
      match bufs b !! n with
      | Some buf =>
        if offset + zlen pkt <=? zlen buf
        then Ok (inl (d, put_size (put_buf b n offset pkt) n (zlen pkt), S n))
        else Ok (inl (d, b, n))
      | None => Ok (inl (d, b, n))
      end
  end.

(** The loop that takes what is in the channel without waiting. *)
Fixpoint take_queue (now offset : Z) (d : Device) (b : buffers) (n : nat) (q : list pumped)
    : res unit (Device * buffers * nat * option unit * list pumped) :=
  if (Z.of_nat n + zlen (pending d) <? zlen (bufs b)) then
    match q with
    | [] => Ok (drainLocked d offset b n, None, [])
    | p :: q =>
      r ← add d now offset b n p;
      match r with
      | inl (d, b, n) => take_queue now offset d b n q
      | inr d => Ok (drainLocked d offset b n, Some tt, q)
      end
    end
  else Ok (drainLocked d offset b n, None, q).

(** [readPumped] with the channel holding [q]; [None]: it waits for a packet. *)
Definition readPumped (d : Device) (now : Z) (b : buffers) (offset : Z) (q : list pumped) (closed : bool)
    : option (res unit (Device * buffers * nat * option unit * list pumped)) :=
  match pending d, q with
  | [], [] => if closed then Some (Ok (d, b, 0%nat, Some tt, [])) else None
  | [], p :: q =>
    Some (r ← add d now offset b 0 p;
          match r with
          | inl (d, b, n) => take_queue now offset d b n q
          | inr d => Ok (d, b, 0%nat, Some tt, q)
          end)
  | _ :: _, _ => Some (take_queue now offset d b 0 q)
  end.

(** ** Lemmas: parsing never reads out of range *)

Lemma shouldForward_ok {E} d pkt : exists b, shouldForward (E := E) d pkt = Ok b.
Proof.
  unfold shouldForward, ipHdr, udpHdr. destruct (Z.ltb_spec (zlen pkt) 20); [eauto |].
  rewrite (index_ok pkt 0 0) by lia. cbn [mbind res_bind]. destruct (negb _); [eauto |].
  rewrite (slice_ok pkt 12 16), (slice_ok pkt 16 20) by lia. cbn [mbind res_bind].
  rewrite (index_ok pkt 9 0) by lia. cbn [mbind res_bind].
  destruct (_ || _); [eauto |]. case_bool_decide; [eauto |]. case_bool_decide; [| eauto].
  set (ihl := Z.land _ 15 * 4). destruct (_ && _) eqn:Hc; [| eauto]. bool_hyps.
  assert (0 <= ihl) by (unfold ihl; pose proof (Z.land_nonneg (nth (Z.to_nat 0) pkt 0) 15); lia).
  replace (ihl + 4) with (ihl + 2 + 2) by lia. rewrite uint16_sub by lia. cbn [mbind res_bind]. eauto.
Qed.

Lemma unwrap_ok {E} d pkt : exists r, unwrap (E := E) d pkt = Ok r.
Proof.
  unfold unwrap, wrapHdr, ipHdr, udpHdr. change (zlen magic) with 4.
  destruct (Z.ltb_spec (zlen pkt) (20 + 8 + 4)); [eauto |].
  rewrite (index_ok pkt 0 0), (index_ok pkt 9 0) by lia. cbn [mbind res_bind].
  destruct (_ || _); [eauto |].
  rewrite (slice_ok pkt 16 20) by lia. cbn [mbind res_bind]. change 24 with (22 + 2).
  rewrite (uint16_sub pkt 22) by lia. cbn [mbind res_bind].
  rewrite (slice_ok pkt 28 32) by lia. cbn [mbind res_bind]. destruct (_ || _); [eauto |].
  rewrite (slice_ok pkt 12 16), (slice_ok pkt (20 + 8 + 4) (zlen pkt)) by lia. cbn [mbind res_bind].
  set (inner := sub pkt _ _). destruct (Z.ltb_spec (zlen inner) 20); [eauto |].
  rewrite (index_ok inner 0 0) by lia. cbn [mbind res_bind]. destruct (_ || _); [eauto |].
  rewrite (slice_ok inner 12 16) by lia. cbn [mbind res_bind]. destruct (_ || _); [eauto |].
  rewrite (slice_ok inner 16 20) by lia. cbn [mbind res_bind]. destruct (negb _); [eauto |].
  change (slice inner 2 4) with (slice (E := E) inner 2 (2 + 2)).
  rewrite (uint16_sub inner 2) by lia. cbn [mbind res_bind]. destruct (negb _); eauto.
Qed.

(** What a wrapped packet that is accepted looks like. *)
Lemma unwrap_inv {E} d pkt inner : unwrap (E := E) d pkt = Ok (Some (Some inner)) ->
  32 <= zlen pkt /\ inner = sub pkt 32 (zlen pkt) /\ 20 <= zlen inner
  /\ AddrFrom4 (sub pkt 16 20) = self d /\ mode d <> ModeOff
  /\ AddrFrom4 (sub inner 12 16) = AddrFrom4 (sub pkt 12 16)
  /\ Contains (subnet d) (AddrFrom4 (sub pkt 12 16)) = true
  /\ isGroupDst d (AddrFrom4 (sub inner 16 20)) = true
  /\ be (sub inner 2 4) = zlen inner.
Proof.
  unfold unwrap, wrapHdr, ipHdr, udpHdr. change (zlen magic) with 4.
  destruct (Z.ltb_spec (zlen pkt) (20 + 8 + 4)); [done |].
  rewrite (index_ok pkt 0 0), (index_ok pkt 9 0) by lia. cbn [mbind res_bind].
  head_if Hx; [done |].
  rewrite (slice_ok pkt 16 20) by lia. cbn [mbind res_bind]. change 24 with (22 + 2).
  rewrite (uint16_sub pkt 22) by lia. cbn [mbind res_bind].
  rewrite (slice_ok pkt 28 32) by lia. cbn [mbind res_bind]. head_if Hd; [done |].
  rewrite (slice_ok pkt 12 16), (slice_ok pkt (20 + 8 + 4) (zlen pkt)) by lia. cbn [mbind res_bind].
  change (20 + 8 + 4) with 32 in *. set (i := sub pkt 32 (zlen pkt)).
  destruct (Z.ltb_spec (zlen i) 20); [done |].
  rewrite (index_ok i 0 0) by lia. cbn [mbind res_bind]. head_if Hm; [done |].
  rewrite (slice_ok i 12 16) by lia. cbn [mbind res_bind]. head_if Hs; [done |].
  rewrite (slice_ok i 16 20) by lia. cbn [mbind res_bind]. head_if Hg; [done |].
  change (slice i 2 4) with (slice (E := E) i 2 (2 + 2)).
  rewrite (uint16_sub i 2) by lia. cbn [mbind res_bind]. change (2 + 2) with 4.
  head_if Hl; [done |]. intros Hi. injection Hi as Hi. rewrite <- Hi. bool_hyps. done.
Qed.

(** ** Lemmas: the Internet checksum *)

Lemma words_sum_bound b : bytes_ok b -> 0 <= words_sum b <= 65535 * zlen b.
Proof.
  revert b. fix IH 1. intros [| x [| y r]] Hb; [by cbv | |].
  - apply Forall_inv in Hb. unfold byte_ok in Hb. cbn [words_sum]. rewrite Z.shiftl_mul_pow2 by lia.
    unfold zlen. simpl. lia.
  - apply Forall_cons in Hb as [Hx Hb]. apply Forall_cons in Hb as [Hy Hb].
    specialize (IH r Hb). cbn [words_sum]. rewrite !zlen_cons. unfold byte_ok in *.
    change (be [x; y]) with (x * 256 + y). lia.
Qed.

Lemma words_sum_app a b : (exists n, length a = 2 * n)%nat -> words_sum (a ++ b) = words_sum a + words_sum b.
Proof.
  intros [n Hn]. revert a Hn. induction n as [| n IH]; intros a Hn; [by destruct a |].
  destruct a as [| x [| y a]]; simpl in Hn; try lia. cbn [app words_sum]. rewrite IH by lia. lia.
Qed.

(** Folding keeps the sum modulo 65535 and ends within 16 bits. *)
Lemma fold16_spec s : 0 <= s < 2 ^ 32 ->
  0 <= fold16 3 s < 2 ^ 16 /\ fold16 3 s mod 65535 = s mod 65535 /\ (fold16 3 s = 0 <-> s = 0).
Proof.
  intros Hs.
  assert (forall x, 0 <= x < 2 ^ 32 -> u32 (Z.land x 65535 + Z.shiftr x 16) = x mod 2 ^ 16 + x / 2 ^ 16) as Hstep.
  { intros x Hx. rewrite Z.shiftr_div_pow2 by lia. change 65535 with (Z.ones 16). rewrite Z.land_ones by lia.
    unfold u32. apply Z.mod_small. pose proof (Z.mod_pos_bound x (2 ^ 16)).
    pose proof (Z.div_pos x (2 ^ 16)). pose proof (Z.div_lt_upper_bound x (2 ^ 16) (2 ^ 16)). lia. }
  assert (forall x, 0 <= x -> exists q r, x = q * 2 ^ 16 + r /\ 0 <= r < 2 ^ 16 /\ 0 <= q
    /\ x mod 2 ^ 16 = r /\ x / 2 ^ 16 = q /\ Z.shiftr x 16 = q) as Hdiv.
  { intros x Hx. exists (x / 2 ^ 16), (x mod 2 ^ 16). rewrite Z.shiftr_div_pow2 by lia.
    pose proof (Z.div_mod x (2 ^ 16)). pose proof (Z.mod_pos_bound x (2 ^ 16)). pose proof (Z.div_pos x (2 ^ 16)). lia. }
  assert (forall q r, (q * 2 ^ 16 + r) mod 65535 = (r + q) mod 65535) as Hmod.
  { intros q r. replace (q * 2 ^ 16 + r) with ((r + q) + q * 65535) by lia. apply Z.mod_add. lia. }
  cbn [fold16].
  destruct (Hdiv s ltac:(lia)) as (q & r & Hsq & Hr & Hq & E1 & E2 & E3).
  rewrite Hstep, E1, E2, E3 by lia. destruct (Z.eqb_spec q 0); [subst; repeat split; lia |].
  destruct (Hdiv (r + q) ltac:(lia)) as (q2 & r2 & Hs2 & Hr2 & Hq2 & F1 & F2 & F3).
  rewrite Hstep, F1, F2, F3 by lia.
  assert (s mod 65535 = (r + q) mod 65535) as -> by (rewrite Hsq; apply Hmod).
  destruct (Z.eqb_spec q2 0); [repeat split; lia |].
  destruct (Hdiv (r2 + q2) ltac:(lia)) as (q3 & r3 & Hs3 & Hr3 & Hq3 & G1 & G2 & G3).
  assert (q3 = 0) by lia. rewrite G3, H. cbn [Z.eqb].
  assert ((r2 + q2) mod 65535 = (r + q) mod 65535) as Hc by (rewrite <- Hmod; f_equal; lia).
  rewrite Hc. repeat split; lia.
Qed.

Lemma testbit_high16 f k : 0 <= f < 2 ^ 16 -> 16 <= k -> Z.testbit f k = false.
Proof.
  intros Hf Hk. destruct (decide (f = 0)) as [-> |]; [apply Z.bits_0 |].
  apply Z.bits_above_log2; [lia |]. assert (Z.log2 f < 16) by (apply Z.log2_lt_pow2; lia). lia.
Qed.

Lemma lxor_ones16 f : 0 <= f < 2 ^ 16 -> Z.lxor f 65535 = 65535 - f.
Proof.
  intros Hf. change 65535 with (Z.ones 16). rewrite Z.sub_nocarry_ldiff.
  - apply Z.bits_inj'. intros k Hk. rewrite Z.lxor_spec, Z.ldiff_spec.
    destruct (Z.ltb_spec k 16).
    + rewrite Z.ones_spec_low by lia. by destruct (Z.testbit f k).
    + rewrite Z.ones_spec_high, testbit_high16 by lia. done.
  - apply Z.bits_inj'. intros k Hk. rewrite Z.ldiff_spec, Z.bits_0.
    destruct (Z.ltb_spec k 16).
    + rewrite Z.ones_spec_low by lia. by destruct (Z.testbit f k).
    + rewrite testbit_high16 by lia. done.
Qed.

(** The classical property: with the checksum in place, the sum verifies. *)
Lemma checksum_verifies a b c : (exists n, length a = 2 * n)%nat -> bytes_ok a -> bytes_ok b ->
  zlen a + zlen b < 2 ^ 15 -> c = checksum (a ++ [0; 0] ++ b) -> checksum (a ++ put_be 2 c ++ b) = 0.
Proof.
  intros Ha Hoa Hob Hl ->.
  pose proof (words_sum_bound a Hoa). pose proof (words_sum_bound b Hob).
  assert (forall v, 0 <= v < 2 ^ 16 -> words_sum (a ++ put_be 2 v ++ b) = words_sum a + v + words_sum b) as Hsum.
  { intros v Hv. rewrite words_sum_app by done.
    assert (length (put_be 2 v) = (2 * 1)%nat) as Hlen by apply length_put_be.
    rewrite words_sum_app by eauto.
    destruct (put_be 2 v) as [| x [| y [|]]] eqn:Hp; simpl in Hlen; try lia.
    cbn [words_sum]. rewrite <- Hp, be_put_be_small by (simpl; lia). lia. }
  set (S0 := words_sum a + words_sum b).
  assert (words_sum (a ++ [0; 0] ++ b) = S0) as Hz0 by (change [0; 0] with (put_be 2 0); rewrite Hsum; lia).
  assert (0 <= S0 < 2 ^ 31) as Hs0.
  { unfold S0. pose proof (zlen_nonneg a). pose proof (zlen_nonneg b). lia. }
  unfold checksum at 2. rewrite Hz0. unfold u32 at 1. rewrite (Z.mod_small S0) by lia.
  destruct (fold16_spec S0 ltac:(lia)) as (Hf1 & Hf2 & Hf3). set (f := fold16 3 S0) in *.
  unfold u16 at 1. rewrite (Z.mod_small f) by lia.
  rewrite (lxor_ones16 f) by lia.
  unfold checksum. rewrite Hsum by lia. unfold u32.
  rewrite (Z.mod_small (words_sum a + _ + words_sum b)) by lia.
  destruct (fold16_spec (words_sum a + (65535 - f) + words_sum b) ltac:(lia)) as (Hg1 & Hg2 & Hg3).
  set (g := fold16 3 (words_sum a + (65535 - f) + words_sum b)) in *. unfold u16. rewrite (Z.mod_small g) by lia.
  rewrite (lxor_ones16 g) by lia.
  assert (g mod 65535 = 0) as Hg0.
  { rewrite Hg2. replace (words_sum a + (65535 - f) + words_sum b) with (S0 - f + 1 * 65535) by (unfold S0; lia).
    rewrite Z.mod_add by lia. rewrite Zminus_mod, <- Hf2, Z.sub_diag. done. }
  assert (g <> 0) as Hgz by (intros Hz; apply Hg3 in Hz; unfold S0 in *; lia).
  clearbody g. apply Z.mod_divide in Hg0 as [q Hq]; lia.
Qed.

(** ** Lemmas: the wrapped packet *)

Lemma ipHeader_fields total c s t rest : zlen s = 4 -> zlen t = 4 ->
  let p := ipHeader total c s t ++ rest in
  zlen (ipHeader total c s t) = 20 /\ nth 0 p 0 = 69 /\ nth 9 p 0 = 17
  /\ sub p 12 16 = s /\ sub p 16 20 = t.
Proof.
  intros Hs Ht p. pose proof (zlen_put_be 2 (u16 total)). pose proof (zlen_put_be 2 c).
  pose proof (zlen_put_be 2 16384).
  assert (zlen (ipHeader total c s t) = 20) as Hl.
  { unfold ipHeader. rewrite !zlen_app. change (zlen [69; 0]) with 2. change (zlen [0; 0]) with 2.
    change (zlen [64; protoUDP]) with 2. lia. }
  split; [done |]. split; [done |]. split; [done |].
  set (pre := [69; 0] ++ put_be 2 (u16 total) ++ [0; 0] ++ put_be 2 16384 ++ [64; protoUDP] ++ put_be 2 c).
  assert (zlen pre = 12) as Hp.
  { unfold pre. rewrite !zlen_app. change (zlen [69; 0]) with 2. change (zlen [0; 0]) with 2.
    change (zlen [64; protoUDP]) with 2. lia. }
  assert (p = pre ++ s ++ t ++ rest) as -> by (unfold p, ipHeader, pre; by rewrite <- !app_assoc).
  split; [apply sub_app_exact; lia |]. rewrite (app_assoc pre). apply sub_app_exact; rewrite zlen_app; lia.
Qed.

Lemma wrap_layout {E} d orig s t sb tb : self d = Addr4 s -> Unmap t = Addr4 tb -> sb = put_be 4 s ->
  exists hdr rest, wrap (E := E) d orig t = Ok (hdr ++ rest ++ magic ++ orig)
    /\ hdr = ipHeader (32 + zlen orig) (checksum (ipHeader (32 + zlen orig) 0 sb (put_be 4 tb))) sb (put_be 4 tb)
    /\ rest = put_be 2 Port ++ put_be 2 Port ++ put_be 2 (u16 (12 + zlen orig)) ++ [0; 0].
Proof.
  intros Hs Ht ->. unfold wrap, As4. rewrite Hs, Ht. cbn [Unmap mbind res_bind].
  eexists _, _. split; [| split; reflexivity]. unfold wrapHdr, ipHdr, udpHdr. change (zlen magic) with 4.
  by rewrite <- !app_assoc.
Qed.

Lemma header_checksum total s t : bytes_ok s -> bytes_ok t -> zlen s = 4 -> zlen t = 4 ->
  checksum (ipHeader total (checksum (ipHeader total 0 s t)) s t) = 0.
Proof.
  intros Hs Ht Hls Hlt.
  set (a := [69; 0] ++ put_be 2 (u16 total) ++ [0; 0] ++ put_be 2 16384 ++ [64; protoUDP]).
  assert (forall c, ipHeader total c s t = a ++ put_be 2 c ++ s ++ t) as Hh
    by (intros c; unfold ipHeader, a; by rewrite <- !app_assoc).
  assert (zlen a = 10) as Hla.
  { unfold a. rewrite !zlen_app, !zlen_put_be. reflexivity. }
  rewrite !Hh. apply checksum_verifies.
  - exists 5%nat. unfold zlen in Hla. lia.
  - unfold a. rewrite !Forall_app. repeat split; try apply put_be_ok; repeat constructor; unfold byte_ok, protoUDP; lia.
  - by apply Forall_app.
  - rewrite zlen_app. lia.
  - done.
Qed.

(** ** Properties *)

(** What the sender and the receiver of a broadcast have in common: the room's
    subnet and its broadcast address, and IPv4 addresses in the subnet. *)
Record same_room (d d' : Device) (src dst : Z) : Prop := {
  sr_self : self d = Addr4 src;
  sr_peer : self d' = Addr4 dst;
  sr_src : 0 <= src < 2 ^ 32;
  sr_dst : 0 <= dst < 2 ^ 32;
  sr_bcast : bcast d' = bcast d;
  sr_in : Contains (subnet d') (Addr4 src) = true }.

(** A broadcast the sender shares reaches every member unchanged: wrapped
    for the member's address it is an IPv4 packet with a valid header checksum
    that the member unwraps to the original, unless the member switched
    forwarding off. *)
Theorem unwrap_wrap {E} (d d' : Device) (src dst : Z) (orig : bytes)
  (Hroom : same_room d d' src dst) (Hmode : mode d' <> ModeOff) (Horig : bytes_ok orig)
  (Hfwd : shouldForward (E := E) d orig = Ok true) (Hlen : be (sub orig 2 4) = zlen orig) :
  exists w, wrap (E := E) d orig (self d') = Ok w /\ unwrap (E := E) d' w = Ok (Some (Some orig))
    /\ checksum (sub w 0 20) = 0 /\ sub w 12 16 = put_be 4 src /\ sub w 16 20 = put_be 4 dst.
Proof.
  destruct Hroom as [Hs Ht Hsr Hdr Hb Hin].
  destruct (wrap_layout (E := E) d orig src (self d') (put_be 4 src) dst Hs ltac:(by rewrite Ht) eq_refl)
    as (hdr & rest & Hw & Hhdr & Hrest).
  eexists. split; [exact Hw |].
  assert (zlen rest = 8) as Hr by (rewrite Hrest, !zlen_app, !zlen_put_be; reflexivity).
  destruct (ipHeader_fields (32 + zlen orig)
    (checksum (ipHeader (32 + zlen orig) 0 (put_be 4 src) (put_be 4 dst)))
    (put_be 4 src) (put_be 4 dst) (rest ++ magic ++ orig) eq_refl eq_refl) as (Hhl & H0 & H9 & Hsrc & Hdst).
  rewrite <- Hhdr in *. set (w := hdr ++ rest ++ magic ++ orig) in *.
  assert (zlen w = 32 + zlen orig) as Hwl by (unfold w; rewrite !zlen_app; change (zlen magic) with 4; lia).
  assert (20 <= zlen orig /\ Z.shiftr (nth 0 orig 0) 4 = 4
    /\ AddrFrom4 (sub orig 12 16) = self d /\ isGroupDst d (AddrFrom4 (sub orig 16 20)) = true) as (Hol & Hv & Hos & Hod).
  { revert Hfwd. unfold shouldForward, ipHdr. head_if Hlt; [done |]. bool_hyps.
    rewrite (index_ok orig 0 0) by lia. cbn [mbind res_bind]. head_if Hver; [done |].
    rewrite (slice_ok orig 12 16), (slice_ok orig 16 20) by lia. cbn [mbind res_bind].
    rewrite (index_ok orig 9 0) by lia. cbn [mbind res_bind]. head_if Hc; [done |]. intros _. bool_hyps.
    done. }
  split; [| split; [| done]].
  - unfold unwrap, wrapHdr, ipHdr, udpHdr. change (zlen magic) with 4. change (20 + 8 + 4) with 32.
    rewrite (proj2 (Z.ltb_ge (zlen w) 32)) by lia.
    rewrite (index_ok w 0 0), (index_ok w 9 0) by lia. cbn [mbind res_bind].
    change (Z.to_nat 0) with 0%nat. change (Z.to_nat 9) with 9%nat. rewrite H0, H9. cbn [Z.eqb negb orb].
    change (69 =? 69) with true. change (17 =? protoUDP) with true. cbn [negb orb].
    rewrite (slice_ok w 16 20) by lia. cbn [mbind res_bind]. change 24 with (22 + 2).
    rewrite (uint16_sub w 22) by lia. cbn [mbind res_bind]. rewrite (slice_ok w 28 32) by lia. cbn [mbind res_bind].
    assert (sub w 22 (22 + 2) = put_be 2 Port) as Hport.
    { unfold w. rewrite Hrest, <- !app_assoc. rewrite (app_assoc hdr).
      apply sub_app_exact; rewrite zlen_app, zlen_put_be; lia. }
    assert (sub w 28 32 = magic) as Hmg.
    { unfold w. rewrite (app_assoc hdr). apply sub_app_exact; rewrite zlen_app; change (zlen magic) with 4; lia. }
    rewrite Hdst, AddrFrom4_As4, Ht, bool_decide_eq_true_2 by done.
    rewrite Hport, be_put_be_small by (unfold Port; simpl; lia). rewrite Z.eqb_refl.
    rewrite Hmg, bool_decide_eq_true_2 by done. cbn [negb orb].
    rewrite (slice_ok w 12 16), (slice_ok w 32 (zlen w)) by lia. cbn [mbind res_bind].
    assert (sub w 32 (zlen w) = orig) as ->.
    { rewrite Hwl. unfold w. rewrite !app_assoc. apply sub_app_tail; rewrite !zlen_app; change (zlen magic) with 4; lia. }
    rewrite (proj2 (Z.ltb_ge (zlen orig) 20)) by lia. rewrite (index_ok orig 0 0) by lia. cbn [mbind res_bind].
    change (Z.to_nat 0) with 0%nat. rewrite Hv, bool_decide_eq_false_2 by done. cbn [Z.eqb negb orb].
    change (4 =? 4) with true. cbn [negb orb].
    rewrite (slice_ok orig 12 16) by lia. cbn [mbind res_bind].
    rewrite Hos, Hsrc, AddrFrom4_As4, Hs by done. rewrite bool_decide_eq_true_2, Hin by done. cbn [negb orb].
    rewrite (slice_ok orig 16 20) by lia. cbn [mbind res_bind].
    assert (isGroupDst d' (AddrFrom4 (sub orig 16 20)) = true) as -> by (unfold isGroupDst in *; by rewrite Hb).
    cbn [negb]. change (slice orig 2 4) with (slice (E := E) orig 2 (2 + 2)).
    rewrite (uint16_sub orig 2) by lia. cbn [mbind res_bind]. change (2 + 2) with 4. rewrite Hlen, Z.eqb_refl. done.
  - unfold w. rewrite (sub_app_head hdr) by lia. rewrite Hhdr. apply header_checksum; apply put_be_ok || apply zlen_put_be.
Qed.

(** ** What reaches the OS *)

(** The settings of a device: all but its access filter's flows and its
    broadcast counters and queue. *)
Definition settings (d : Device) := (self d, subnet d, bcast d, mode d).

Section Sound.
Variable EqualFold : bytes -> bytes -> bool.

(** The packet of a buffer, and what the access rules are asked about: the
    packet, the broadcast inside a wrapped one, nothing for a bad wrapped one. *)
Definition packet (offset : Z) (b : bytes) : bytes := sub b offset (zlen b).
Definition judged (d : Device) (offset : Z) (b : bytes) : option bytes :=
  match unwrap (E := unit) d (packet offset b) with
  | Ok None => Some (packet offset b)
  | Ok (Some (Some inner)) => Some inner
  | _ => None
  end.

(** The rules after they were asked about the buffers, one after another. *)
Definition ask1 (d : Device) (now offset : Z) (f : option filter.Filter) (b : bytes) : option filter.Filter :=
  match f, judged d offset b with
  | Some g, Some v => match filter.Inbound EqualFold g now v with Ok (_, g') => Some g' | _ => f end
  | _, _ => f
  end.
Definition rules_after (d : Device) (now offset : Z) (bs : list bytes) : option filter.Filter :=
  fold_left (ask1 d now offset) bs (filter_ d).

(** The rules, if any, let [v] in. *)
Definition lets_in (f : option filter.Filter) (now : Z) (v : bytes) : Prop :=
  match f with Some g => exists g', filter.Inbound EqualFold g now v = Ok (true, g') | None => True end.

(** A buffer that is handed to the OS as [b'], the rules being [f]: its packet is
    let in and not taken by the divert hook, and is no wrapped one; or it is a
    good wrapped one, whose broadcast is let in and put in its place. *)
Definition handed (d : Device) (f : option filter.Filter) (now offset : Z) (divert : option (bytes -> bool)) (b b' : bytes) : Prop :=
  (match divert with Some g => g (packet offset b) = false | None => True end)
  /\ (unwrap (E := unit) d (packet offset b) = Ok None /\ lets_in f now (packet offset b) /\ b' = b
      \/ exists inner, unwrap (E := unit) d (packet offset b) = Ok (Some (Some inner)) /\ lets_in f now inner
           /\ b' = take (Z.to_nat offset) b ++ inner).

Lemma put_at_inner (b inner : bytes) offset : 0 <= offset -> offset + zlen inner <= zlen b ->
  take (Z.to_nat (offset + zlen inner)) (put_at b offset inner) = take (Z.to_nat offset) b ++ inner.
Proof.
  intros Ho Hl. pose proof (zlen_nonneg inner). unfold put_at, copy_into. unfold zlen in *.
  rewrite (take_ge inner) by (rewrite length_drop; lia). rewrite app_assoc.
  rewrite take_app_le by (rewrite length_app, length_take; lia).
  apply take_ge. rewrite length_app, length_take. lia.
Qed.

Lemma unwrap_settings {E} d d' pkt : settings d = settings d' -> unwrap (E := E) d pkt = unwrap d' pkt.
Proof.
  intros H. unfold settings in H. injection H as Hself Hsub Hbc Hm.
  unfold unwrap, isGroupDst. by rewrite Hself, Hsub, Hbc, Hm.
Qed.

Definition rules_ok (f : option filter.Filter) : Prop :=
  match f with Some g => filter.subnet_v4 (filter.pol g) | None => True end.

(** What is asked about a buffer, and the answer. *)
Lemma admit_spec d now offset b : rules_ok (filter_ d) ->
  exists ok, admitPacket EqualFold d now (packet offset b) = Ok (ok, set_filter d (ask1 d now offset (filter_ d) b))
    /\ rules_ok (ask1 d now offset (filter_ d) b)
    /\ forall v, judged d offset b = Some v -> ok = true <-> lets_in (filter_ d) now v.
Proof.
  intros Hf. unfold admitPacket, ask1, judged. destruct (filter_ d) as [g |] eqn:Hg.
  2: { exists true. split; [| by split]. f_equal. f_equal. destruct d. simpl in *. by subst. }
  destruct (unwrap_ok (E := unit) d (packet offset b)) as [w ->]. cbn [mbind res_bind].
  assert (forall v, exists ok, ('(ok, f) ← filter.Inbound EqualFold g now v; Ok (ok, set_filter d (Some f)))
      = Ok (ok, set_filter d (match filter.Inbound EqualFold g now v with Ok (_, g') => Some g' | _ => Some g end))
    /\ rules_ok (match filter.Inbound EqualFold g now v with Ok (_, g') => Some g' | _ => Some g end)
    /\ (ok = true <-> lets_in (Some g) now v)) as Hask.
  { intros v. destruct (filter.Inbound_ok EqualFold g now v Hf) as [[ok g'] Hi]. exists ok. rewrite Hi. cbn [mbind res_bind].
    split; [done |]. split.
    - simpl. apply filter.Inbound_good in Hi. by rewrite (filter.gs_pol _ _ _ _ Hi).
    - unfold lets_in. rewrite Hi. split; [intros ->; by exists g' | by intros [g2 [= ->]]]. }
  destruct w as [[inner |] |].
  - destruct (Hask inner) as (ok & H1 & H2 & H3). exists ok. split; [done |]. split; [done |]. by intros v [= <-].
  - exists true. split; [| by split]. f_equal. f_equal. destruct d. simpl in *. by subst.
  - destruct (Hask (packet offset b)) as (ok & H1 & H2 & H3). exists ok. split; [done |]. split; [done |]. by intros v [= <-].
Qed.

Lemma write_one_spec d now offset divert b : 0 <= offset <= zlen b -> rules_ok (filter_ d) ->
  exists o, write_one EqualFold d now offset divert b = Ok (o, set_filter d (ask1 d now offset (filter_ d) b))
    /\ rules_ok (ask1 d now offset (filter_ d) b)
    /\ forall b', o = Some b' <-> handed d (filter_ d) now offset divert b b'.
Proof.
  intros Ho Hf. unfold write_one. rewrite slice_ok by lia. cbn [mbind res_bind]. fold (packet offset b).
  destruct (admit_spec d now offset b Hf) as (ok & -> & Hf1 & Hok). cbn [mbind res_bind].
  set (d1 := set_filter d _). rewrite (unwrap_settings d1 d) by done. unfold handed. unfold judged in Hok.
  destruct (unwrap_ok (E := unit) d (packet offset b)) as [w Hw]. rewrite Hw in *.
  assert (forall o : option bytes, (forall b', o = Some b' <-> ok = true /\ (match divert with Some g => g (packet offset b) = false | None => True end)
      /\ (w = None /\ b' = b \/ exists inner, w = Some (Some inner) /\ b' = take (Z.to_nat offset) b ++ inner)) ->
    forall b', o = Some b' <-> (match divert with Some g => g (packet offset b) = false | None => True end)
      /\ (Ok (E := unit) w = Ok None /\ lets_in (filter_ d) now (packet offset b) /\ b' = b
         \/ exists inner, Ok (E := unit) w = Ok (Some (Some inner)) /\ lets_in (filter_ d) now inner /\ b' = take (Z.to_nat offset) b ++ inner)) as Hend.
  { intros o H b'. rewrite H. destruct w as [[inner |] |].
    - specialize (Hok inner eq_refl). split.
      + intros (Hk & Hd & [[? _] | (i & [= ->] & Hb)]); [done |]. split; [done |]. right. exists i. tauto.
      + intros (Hd & [[? _] | (i & [= ->] & Hl & Hb)]); [done |]. split; [tauto |]. split; [done |]. right. by exists i.
    - split; [intros (_ & _ & [[? _] | (i & ? & _)]); done | intros (_ & [[? _] | (i & ? & _)]); done].
    - specialize (Hok _ eq_refl). split.
      + intros (Hk & Hd & [[_ Hb] | (i & ? & _)]); [| done]. split; [done |]. left. tauto.
      + intros (Hd & [(_ & Hl & Hb) | (i & ? & _)]); [| done]. split; [tauto |]. split; [done |]. by left. }
  destruct ok; cbn [negb].
  2: { exists None. split; [done |]. split; [done |]. apply Hend. intros b'. split; [done | by intros (? & _)]. }
  destruct (match divert with Some f => f (packet offset b) | None => false end) eqn:Hd.
  { exists None. split; [done |]. split; [done |]. apply Hend. intros b'. split; [done |]. intros (_ & Hd' & _). destruct divert; congruence. }
  assert (match divert with Some g => g (packet offset b) = false | None => True end) as Hd' by by destruct divert.
  cbn [mbind res_bind].
  destruct w as [[inner |] |]; eexists; (split; [reflexivity |]); (split; [done |]); apply Hend; intros b'; clear Hend Hok.
  - apply unwrap_inv in Hw as (H32 & -> & _). assert (zlen (packet offset b) = zlen b - offset) as Hz by (unfold packet; rewrite zlen_sub; lia).
    rewrite put_at_inner by (rewrite ?zlen_sub; lia). split.
    + intros [= <-]. split; [done |]. split; [done |]. right. eexists. split; [reflexivity | done].
    + intros (_ & _ & [[? _] | (i & [= <-] & ->)]); done.
  - split; [done |]. intros (_ & _ & [[? _] | (i & ? & _)]); done.
  - split; [intros [= <-]; split; [done |]; split; [done |]; by left |]. intros (_ & _ & [[_ ->] | (i & ? & _)]); done.
Qed.

Lemma handed_filter d f g now offset divert b b' : handed (set_filter d f) g now offset divert b b' <-> handed d g now offset divert b b'.
Proof. unfold handed. by setoid_rewrite (unwrap_settings (set_filter d f) d). Qed.

(** A broadcast handed to the OS comes from the member the wrapper came from,
    which is of the room, and goes to a group address. *)
Lemma handed_broadcast d f now offset divert b b' inner : 0 <= offset <= zlen b -> handed d f now offset divert b b' ->
  unwrap (E := unit) d (packet offset b) = Ok (Some (Some inner)) ->
  packet offset b' = inner /\ AddrFrom4 (sub inner 12 16) = AddrFrom4 (sub b (offset + 12) (offset + 16))
  /\ Contains (subnet d) (AddrFrom4 (sub inner 12 16)) = true /\ isGroupDst d (AddrFrom4 (sub inner 16 20)) = true.
Proof.
  intros Ho [_ [(Hn & _) | (inner' & Hu' & _ & ->)]] Hu; [congruence |]. rewrite Hu' in Hu. injection Hu as ->. split.
  - assert (zlen (take (Z.to_nat offset) b) = offset) as Ht by (unfold zlen in *; rewrite length_take; lia).
    unfold packet. rewrite zlen_app, Ht. apply sub_app_tail; [done | lia].
  - apply unwrap_inv in Hu' as (H32 & _ & _ & _ & _ & Hs & Hc & Hgd & _). unfold packet in *.
    assert (sub (sub b offset (zlen b)) 12 16 = sub b (offset + 12) (offset + 16)) as <- by (apply sub_sub; rewrite zlen_sub in H32; lia).
    by rewrite Hs.
Qed.

(** C31: [Write] never panics and asks the access rules about every buffer in
    turn. A buffer is handed to the OS exactly when the rules, as they are after
    the buffers before it, let its packet in and it is not diverted: unchanged,
    or, for a wrapped packet, as the broadcast inside, whose source is the
    member the wrapped packet came from and whose destination is a group
    address. The order is kept. *)
Theorem Write_sound (now offset : Z) (divert : option (bytes -> bool)) (bs : list bytes) (d : Device)
  (Hbs : Forall (fun b => 0 <= offset <= zlen b) bs) (Hf : rules_ok (filter_ d)) :
  exists out,
    Write EqualFold d now offset divert bs = Ok (omap id out, set_filter d (rules_after d now offset bs))
    /\ length out = length bs
    /\ forall pre b post, bs = pre ++ b :: post -> exists o, out !! length pre = Some o
      /\ (forall b', o = Some b' <-> handed d (rules_after d now offset pre) now offset divert b b')
      /\ (forall b' inner, o = Some b' -> unwrap (E := unit) d (packet offset b) = Ok (Some (Some inner)) ->
            packet offset b' = inner /\ AddrFrom4 (sub inner 12 16) = AddrFrom4 (sub b (offset + 12) (offset + 16))
            /\ Contains (subnet d) (AddrFrom4 (sub inner 12 16)) = true /\ isGroupDst d (AddrFrom4 (sub inner 16 20)) = true).
Proof.
  revert d Hf. induction Hbs as [| b bs Hb _ IH]; intros d Hf; cbn [Write].
  { exists []. split; [by destruct d |]. split; [done |]. by intros [| ? ?]. }
  destruct (write_one_spec d now offset divert b Hb Hf) as (o & Hw & Hf1 & Ho). rewrite Hw. cbn [mbind res_bind].
  destruct (IH (set_filter d (ask1 d now offset (filter_ d) b)) Hf1) as (out & HW & Hlen & Hout). rewrite HW. cbn [mbind res_bind].
  assert (forall l f, fold_left (ask1 (set_filter d (ask1 d now offset (filter_ d) b)) now offset) l f = fold_left (ask1 d now offset) l f) as Hfold.
  { induction l as [| x l IHl]; intros f; [done |]. simpl. rewrite IHl. f_equal. }
  exists (o :: out). split; [| split; [simpl; by rewrite Hlen |]].
  - unfold rules_after. cbn [filter_ set_filter fold_left]. rewrite Hfold. by destruct o.
  - intros [| b1 pre] b0 post; cbn [app].
    + intros [= <- <-]. exists o. split; [done |]. split; [done |]. intros b' inner Hb' Hu. apply Ho in Hb'. by eapply handed_broadcast.
    + intros [= <- ->]. destruct (Hout pre b0 post eq_refl) as (o' & H1 & H2 & H3). exists o'. split; [done |]. split.
      * intros b'. rewrite H2, handed_filter. unfold rules_after. cbn [filter_ set_filter fold_left]. by rewrite Hfold.
      * intros b' inner Hb'. by apply H3.
Qed.

End Sound.

(** ** What AmneziaWG gets to read *)

Section Reading.
Context (L offset : Z) (Hoff : 0 <= offset).


(** The packet in slot [j]. *)
Definition slot (b : buffers) (j : nat) : bytes :=
  sub (nth j (bufs b) []) offset (offset + nth j (sizes b) 0).

Definition slots (b : buffers) (i n : nat) : list bytes := map (slot b) (List.seq i n).






(** The loop of [Read], on lists of packets. *)
Fixpoint ref_read (now : Z) (d : Device) (pkts : list bytes) : res unit (list bytes * Device) :=
  match pkts with
  | [] => Ok ([], d)
  | p :: pkts =>
    fwd ← shouldForward d p;
    if fwd : bool then d ← share d now p; ref_read now d pkts
    else
      d ← noteOutbound d now p;
      '(out, d) ← ref_read now d pkts;
      Ok (p :: out, d)
  end.


Definition fits (p : bytes) : Prop := offset + zlen p <= L.
#[local] Instance fits_dec p : Decision (fits p).
Proof. unfold fits. apply _. Defined.


(** The device's address and its peers are IPv4, so that [wrap] is total. *)
Definition peers_v4 (d : Device) : Prop :=
  (exists v, self d = Addr4 v) /\ Forall (fun p => exists v, Unmap p = Addr4 v) (peers d).

Lemma wrap_all_ok {E} d orig ps : (exists v, self d = Addr4 v) -> Forall (fun p => exists v, Unmap p = Addr4 v) ps ->
  exists ws, wrap_all (E := E) d orig ps = Ok ws.
Proof.
  intros [v Hv]. induction 1 as [| p ps [t Ht] _ [ws IH]]; [by eexists |]. cbn [wrap_all].
  destruct (wrap_layout (E := E) d orig v p (put_be 4 v) t Hv Ht eq_refl) as (hdr & rest & -> & _).
  cbn [mbind res_bind]. rewrite IH. by eexists.
Qed.

Lemma share_ok {E} d now p : peers_v4 d -> exists d', share (E := E) d now p = Ok d' /\ peers_v4 d'.
Proof.
  intros [Hs Hp]. unfold share, allow.
  destruct (if Second <=? _ then _ else _) as [w c]. destruct (c + 1 <=? MaxPPS).
  - destruct (wrap_all_ok (E := E) (set_limit d w (c + 1)) p (peers d) Hs Hp) as [ws Hw].
    cbn [peers set_limit] in *. rewrite Hw. by eexists.
  - by eexists.
Qed.

Lemma noteOutbound_ok d now p : peers_v4 d -> exists d', noteOutbound d now p = Ok d' /\ peers_v4 d'.
Proof.
  intros H. unfold noteOutbound. destruct (filter_ d) as [f |]; [| eauto].
  unfold filter.Outbound. destruct (filter.parse_ok p) as [h ->]. cbn [mbind res_bind]. by eexists.
Qed.

Lemma ref_read_ok now pkts : forall d, peers_v4 d -> exists outs d', ref_read now d pkts = Ok (outs, d').
Proof.
  induction pkts as [| p pkts IH]; intros d Hd; cbn [ref_read]; [eauto |].
  destruct (shouldForward_ok (E := unit) d p) as [fwd ->]. cbn [mbind res_bind]. destruct fwd.
  - destruct (share_ok (E := unit) d now p Hd) as (d1 & -> & H1). cbn [mbind res_bind]. eauto.
  - destruct (noteOutbound_ok d now p Hd) as (d1 & -> & H1). cbn [mbind res_bind].
    destruct (IH d1 H1) as (outs & d2 & ->). cbn [mbind res_bind]. eauto.
Qed.

(** ** The reference *)











End Reading.

(** ** Witnesses *)

Definition exSubnet : Prefix := MkPrefix (Addr4 (10 * 2 ^ 24)) 24.
Definition exDev (i : Z) : Device :=
  MkDevice (Addr4 (10 * 2 ^ 24 + i)) exSubnet (Addr4 (10 * 2 ^ 24 + 255)) ModeOn
    [Addr4 (10 * 2 ^ 24 + 2); Addr4 (10 * 2 ^ 24 + 3)] [] time_zero 0 None false false.

Example New_ex : New (E := unit) (MkPrefix (Addr4 (10 * 2 ^ 24 + 5)) 24) [] =
  Ok (MkDevice (Addr4 (10 * 2 ^ 24 + 5)) exSubnet (Addr4 (10 * 2 ^ 24 + 255)) ModeOn [] [] time_zero 0 None false false).
Proof. vm_compute. reflexivity. Qed.

(** A 24-byte UDP broadcast from 10.0.0.1, and a packet to 10.0.0.2. *)
Definition exHead : bytes := [69; 0; 0; 24; 0; 0; 0; 0; 64; 17; 0; 0; 10; 0; 0; 1].
Definition exCast : bytes := exHead ++ [255; 255; 255; 255; 1; 2; 3; 4].
Definition exDirect : bytes := exHead ++ [10; 0; 0; 2; 1; 2; 3; 4].

Lemma unwrap_wrap_witness : exists w, wrap (E := unit) (exDev 1) exCast (self (exDev 2)) = Ok w
  /\ unwrap (E := unit) (exDev 2) w = Ok (Some (Some exCast)).
Proof.
  destruct (unwrap_wrap (E := unit) (exDev 1) (exDev 2) (10 * 2 ^ 24 + 1) (10 * 2 ^ 24 + 2) exCast) as (w & H1 & H2 & _).
  - split; (reflexivity || lia).
  - vm_compute. discriminate.
  - apply (bool_decide_unpack (Forall (fun b => 0 <= b < 256) _)). vm_compute. exact I.
  - vm_compute. reflexivity.
  - vm_compute. reflexivity.
  - exists w. split; [exact H1 | exact H2].
Defined.

Definition exWrapped : bytes :=
  match wrap (E := unit) (exDev 1) exCast (Addr4 (10 * 2 ^ 24 + 2)) with Ok w => w | _ => [] end.

(** 10.0.0.2 lets in TCP only: of a TCP packet and a UDP broadcast, the first. *)
Definition exGuard : Device := set_filter (exDev 2) (Some (filter.NewFilter filter.exPolicy (Addr4 (10 * 2 ^ 24 + 2)))).
Definition exTCP : bytes := [69; 0; 0; 24; 0; 0; 0; 0; 64; 6; 0; 0; 10; 0; 0; 1; 10; 0; 0; 2; 1; 2; 0; 80].

Lemma Write_sound_witness :
  (fst <$> Write (fun _ _ => false) exGuard 0 4 None [zeros 4 ++ exTCP; zeros 4 ++ exWrapped]) = Ok [zeros 4 ++ exTCP]
  /\ exists out d', Write (fun _ _ => false) exGuard 0 4 None [zeros 4 ++ exTCP; zeros 4 ++ exWrapped] = Ok (omap id out, d')
     /\ length out = 2%nat.
Proof.
  split; [vm_compute; reflexivity |].
  destruct (Write_sound (fun _ _ => false) 0 4 None [zeros 4 ++ exTCP; zeros 4 ++ exWrapped] exGuard) as (out & H & Hl & _).
  - apply (bool_decide_unpack (Forall (fun b => 0 <= 4 <= zlen b) _)). vm_compute. exact I.
  - vm_compute. eexists.
  - eexists out, _. split; [exact H | exact Hl].
Defined.

Example Write_ex : (fst <$> Write (fun _ _ => false) (exDev 2) 0 4 None [zeros 4 ++ exWrapped; zeros 4 ++ exDirect])
  = Ok [zeros 4 ++ exCast; zeros 4 ++ exDirect].
Proof. vm_compute. reflexivity. Qed.

Definition exBufs : buffers := MkBuffers (repeat (zeros 100) 3) [0; 0; 0].
Definition exRead (b : buffers) : buffers * nat * option unit :=
  (MkBuffers [zeros 4 ++ exCast ++ zeros 72; zeros 4 ++ exDirect ++ zeros 72; zeros 100] [24; 24; 0], 2%nat, None).


Example Read_ex : (fun x => match x with (d, b, m, _) => (slots 4 b 0 m, zlen (pending d)) end)
    <$> Read (exDev 1) Hour exBufs 4 exRead =
  Ok ([exDirect; exWrapped; match wrap (E := unit) (exDev 1) exCast (Addr4 (10 * 2 ^ 24 + 3)) with Ok w => w | _ => [] end], 0).
Proof. vm_compute. reflexivity. Qed.

End tunwrap.
