(* ===== verification/Magicsock.v ===== *)
(** The shared UDP socket of a node (internal/magicsock/magicsock.go): the
    rooms bound to it, what the read loop does with a datagram, the queues of
    the rooms, sending, relay endpoints and STUN over the same socket.

    A [*roomBind] is in the list of rooms and in AmneziaWG's hands, and a
    [*bindState] outlives its bind in the receive function, so both live in
    heaps. The callbacks of the relay and of disco are actions in the result.
    Binding, opening and reading are atomic here; the code swaps one pointer in
    each of them. *)
From stdpp Require Import base list gmap strings.
From Stdlib Require Import ZArith Lia.
From S2P Require Import Prelude GoStrings Netip Crypto Stun Obfs.

Open Scope Z_scope.

Module magicsock.

Definition maxPacket : Z := 65535.
Definition queueLen : nat := 1024.

Record packet := MkPacket { payload : bytes; ep : AddrPort }.
Record bindState := MkBindState { queue : list packet; sdone : bool }.
Record roomBind := MkRoomBind { key : bytes; state : option nat }.
Record stunWait := MkStunWait { server : AddrPort; reply : option AddrPort }.

Record Conn := MkConn {
  binds : gmap nat roomBind;
  states : gmap nat bindState;
  rooms : list nat;
  stunPending : gmap bytes stunWait;
  disco : option bytes;          (* the tag key *)
  relay : option AddrPort;
  dropDirect : bool; dropRelayUDP : bool;
  done_ : bool }.

Definition Listen : Conn := MkConn ∅ ∅ [] ∅ None None false false false.

Definition set_rooms (c : Conn) (bs : gmap nat roomBind) (rs : list nat) : Conn :=
  MkConn bs (states c) rs (stunPending c) (disco c) (relay c) (dropDirect c) (dropRelayUDP c) (done_ c).
Definition set_states (c : Conn) (bs : gmap nat roomBind) (ss : gmap nat bindState) : Conn :=
  MkConn bs ss (rooms c) (stunPending c) (disco c) (relay c) (dropDirect c) (dropRelayUDP c) (done_ c).
Definition set_stun (c : Conn) (m : gmap bytes stunWait) : Conn :=
  MkConn (binds c) (states c) (rooms c) m (disco c) (relay c) (dropDirect c) (dropRelayUDP c) (done_ c).

Inductive error : Type := EBound | EOpen | EClosed | ETooLarge | ENoRelay | EWrite.

Definition bind_of (c : Conn) (b : nat) : roomBind := default (MkRoomBind [] None) (binds c !! b).

(** [Bind]: a second room with the same tag key is refused. *)
Definition Bind (c : Conn) (tagKey : bytes) : res error (nat * Conn) :=
  if existsb (fun b => bool_decide (key (bind_of c b) = tagKey)) (rooms c) then Err EBound
  else
    let b := fresh (dom (binds c)) in
    Ok (b, set_rooms c (<[b := MkRoomBind tagKey None]> (binds c)) (rooms c ++ [b])).

(** [roomBind.Close]: the state's [done] channel is closed. *)
Definition Close_bind (c : Conn) (b : nat) : Conn :=
  match binds c !! b with
  | Some rb =>
    match state rb with
    | Some st =>
      set_states c (<[b := MkRoomBind (key rb) None]> (binds c))
        (alter (fun s => MkBindState (queue s) true) st (states c))
    | None => c
    end
  | None => c
  end.

Definition Unbind (c : Conn) (tagKey : bytes) : Conn :=
  let gone := base.filter (fun b => key (bind_of c b) = tagKey) (rooms c) in
  let c' := fold_left Close_bind gone c in
  set_rooms c' (binds c') (base.filter (fun b => key (bind_of c b) <> tagKey) (rooms c)).

Definition Open (c : Conn) (b : nat) : res error (nat * Conn) :=
  let rb := bind_of c b in
  match state rb with
  | Some _ => Err EOpen
  | None =>
    if done_ c then Err EClosed
    else
      let st := fresh (dom (states c)) in
      Ok (st, set_states c (<[b := MkRoomBind (key rb) (Some st)]> (binds c))
                (<[st := MkBindState [] false]> (states c)))
  end.

(** [Close] of the socket: every room is closed. *)
Definition Close (c : Conn) : Conn :=
  let c := fold_left Close_bind (rooms c) c in
  MkConn (binds c) (states c) (rooms c) (stunPending c) (disco c) (relay c) (dropDirect c) (dropRelayUDP c) true.

Definition SetRelay (c : Conn) (addr : option AddrPort) : Conn :=
  MkConn (binds c) (states c) (rooms c) (stunPending c) (disco c) addr (dropDirect c) (dropRelayUDP c) (done_ c).
Definition SetDisco (c : Conn) (tagKey : bytes) : Conn :=
  MkConn (binds c) (states c) (rooms c) (stunPending c) (Some tagKey) (relay c) (dropDirect c) (dropRelayUDP c) (done_ c).

(** [deliver]: into the room's queue, dropped when the room is closed or the
    queue is full; a pooled buffer holds [maxPacket] bytes. *)
Definition deliver (c : Conn) (b : nat) (data : bytes) (from : AddrPort) : Conn :=
  match state (bind_of c b) with
  | None => c
  | Some st =>
    match states c !! st with
    | Some s =>
      if (decide (length (queue s) < queueLen)%nat)
      then set_states c (binds c)
             (<[st := MkBindState (queue s ++ [MkPacket (take (Z.to_nat maxPacket) data) from]) (sdone s)]> (states c))
      else c
    | None => c
    end
  end.

(** The calls a datagram leads to, outside the rooms' queues. *)
Inductive action : Type :=
  | ARelay (pkt : bytes)
  | ADisco (pkt : bytes) (from : AddrPort).

Section Crypto.
Context `{CR : Crypto}.

(** The first room whose tag the packet carries. *)
Fixpoint find_room (c : Conn) (rs : list nat) (pkt : bytes) : option nat :=
  match rs with
  | [] => None
  | b :: rs => if obfs.Match (key (bind_of c b)) pkt then Some b else find_room c rs pkt
  end.

Definition dispatch (c : Conn) (pkt : bytes) (from : AddrPort) : res error (list action * Conn) :=
  match find_room c (rooms c) pkt with
  | Some b =>
    data ← slice pkt obfs.TagLen (zlen pkt);
    Ok ([], deliver c b data from)
  | None =>
    match disco c with
    | Some k => if obfs.Match k pkt then Ok ([ADisco pkt from], c) else Ok ([], c)
    | None => Ok ([], c)
    end
  end.

(** [handleSTUN]: the reply channel holds one address. *)
Definition handleSTUN (c : Conn) (pkt : bytes) (from : AddrPort) : Conn :=
  match stun.ParseResponse pkt with
  | Ok (id, mapped) =>
    match stunPending c !! id with
    | Some w =>
      if negb (bool_decide (server w = from)) then c
      else match reply w with
           | None => set_stun c (<[id := MkStunWait (server w) (Some mapped)]> (stunPending c))
           | Some _ => c
           end
    | None => c
    end
  | _ => c
  end.

Definition unmapAP (a : AddrPort) : AddrPort := MkAddrPort (Unmap (ap_addr a)) (ap_port a).

(** One datagram in the read loop. *)
Definition receive (c : Conn) (pkt : bytes) (addr : AddrPort) : res error (list action * Conn) :=
  let from := unmapAP addr in
  is_stun ← stun.Is pkt;
  if is_stun : bool then Ok ([], handleSTUN c pkt from)
  else if bool_decide (relay c = Some from) then
    if negb (dropRelayUDP c) then Ok ([ARelay pkt], c) else Ok ([], c)
  else if dropDirect c then Ok ([], c)
  else dispatch c pkt from.

(** ** Relay endpoints *)

Definition relayPrefix : Prefix := MkPrefix (Addr6 (be [253; 122; 122; 112; 114; 255] * 2 ^ 80) []) 48.

Definition RelayEndpoint (node : bytes) : AddrPort :=
  MkAddrPort (AddrFrom16 (sub (As16 (pfx_ip relayPrefix)) 0 6 ++ node)) 1.

Definition IsRelay (ap : AddrPort) : bool := Contains relayPrefix (ap_addr ap).

Definition RelayNode (ap : AddrPort) : option bytes :=
  if Contains relayPrefix (ap_addr ap) then Some (sub (As16 (ap_addr ap)) 6 16) else None.

(** [Receive]: a packet that came through the relay. *)
Definition Receive (c : Conn) (pkt node : bytes) : res error (list action * Conn) :=
  dispatch c pkt (RelayEndpoint node).

(** ** Sending *)

Inductive write_op : Type :=
  | WUDP (b : bytes) (to : AddrPort)
  | WRelay (node b : bytes).

(** Does the operating system, or the relay client, take the datagram? *)
Context (accepts : write_op -> bool).

Definition write (c : Conn) (b : bytes) (to : AddrPort) : list write_op * res error unit :=
  match RelayNode to with
  | Some node =>
    match relay c with
    | None => ([], Err ENoRelay)
    | Some _ => ([WRelay node b], guard_err (accepts (WRelay node b)) EWrite)
    end
  | None => ([WUDP b to], guard_err (accepts (WUDP b to)) EWrite)
  end.

(** [Send]: the datagrams written; [nonces] are the tags' random bytes. *)
Fixpoint send_all (c : Conn) (k : bytes) (bufs : list bytes) (nonces : list bytes) (to : AddrPort)
    : list write_op * res error unit :=
  match bufs, nonces with
  | pkt :: bufs, nonce :: nonces =>
    if maxPacket <? zlen pkt + obfs.TagLen then ([], Err ETooLarge)
    else
      let '(w, r) := write c (obfs.tag k nonce ++ pkt) to in
      match r with
      | Ok _ => let '(ws, r) := send_all c k bufs nonces to in (w ++ ws, r)
      | e => (w, e)
      end
  | _, _ => ([], Ok tt)
  end.

Definition Send (c : Conn) (b : nat) (bufs : list bytes) (nonces : list bytes) (to : AddrPort)
    : list write_op * res error unit :=
  match state (bind_of c b) with
  | None => ([], Err EClosed)
  | Some _ => send_all c (key (bind_of c b)) bufs nonces to
  end.

End Crypto.

(** The receive function of state [st] with room for [n] packets: [None] when
    it waits. When there are packets and the state is closed, [select] takes
    either case: [prefer_done] says which. *)
Definition recv (c : Conn) (st : nat) (n : nat) (prefer_done : bool) : option (res error (list packet * Conn)) :=
  match states c !! st with
  | None => None
  | Some s =>
    match queue s with
    | [] => if sdone s then Some (Err EClosed) else None
    | q =>
      if (n =? 0)%nat then Some Panic
      else if sdone s && prefer_done then Some (Err EClosed)
      else Some (Ok (take n q,
             set_states c (binds c) (<[st := MkBindState (drop n q) (sdone s)]> (states c))))
    end
  end.

(** ** STUN requests *)

Definition stun_start (c : Conn) (id : bytes) (srv : AddrPort) : Conn :=
  set_stun c (<[id := MkStunWait (unmapAP srv) None]> (stunPending c)).
Definition stun_result (c : Conn) (id : bytes) : option AddrPort := w ← stunPending c !! id; reply w.
Definition stun_done (c : Conn) (id : bytes) : Conn := set_stun c (delete id (stunPending c)).

(** [ParseEndpoint] once the text is an address. *)
Definition ParseEndpoint (ap : AddrPort) : AddrPort := unmapAP ap.

(** ** The invariant of the rooms *)

Record inv (c : Conn) : Prop := {
  m_keys : NoDup (map (fun b => key (bind_of c b)) (rooms c));
  m_rooms : forall b, b ∈ rooms c -> is_Some (binds c !! b);
  m_open : forall b rb st, binds c !! b = Some rb -> state rb = Some st ->
    exists s, states c !! st = Some s /\ sdone s = false;
  m_own : forall b b' rb rb' st, binds c !! b = Some rb -> binds c !! b' = Some rb' ->
    state rb = Some st -> state rb' = Some st -> b = b';
  m_queue : forall st s, states c !! st = Some s -> (length (queue s) <= queueLen)%nat }.

Lemma bind_of_some c b rb : binds c !! b = Some rb -> bind_of c b = rb.
Proof. unfold bind_of. by intros ->. Qed.

Lemma inv_listen : inv Listen.
Proof. split; simpl; try (intros *; rewrite lookup_empty; done); [constructor | by intros b ?%elem_of_nil]. Qed.

(** Only the five fields of the invariant matter. *)
Lemma inv_same c c' : binds c' = binds c -> states c' = states c -> rooms c' = rooms c -> inv c -> inv c'.
Proof.
  intros Hb Hs Hr [H1 H2 H3 H4 H5].
  assert (forall b, bind_of c' b = bind_of c b) as Hbo by (intros b; unfold bind_of; by rewrite Hb).
  split; rewrite ?Hb, ?Hs, ?Hr; try done. rewrite (map_ext _ (fun b => key (bind_of c b))); [done |].
  intros b. by rewrite Hbo.
Qed.

(** Changing the state of a bind, but not its key, keeps the keys. *)
Lemma bind_of_keys c bs b rb0 rb : binds c !! b = Some rb0 -> key rb = key rb0 -> bs = <[b := rb]> (binds c) ->
  forall x, key (default (MkRoomBind [] None) (bs !! x)) = key (bind_of c x).
Proof.
  intros Hb Hk -> x. destruct (decide (b = x)) as [<- |].
  - rewrite lookup_insert_eq. simpl. unfold bind_of. by rewrite Hb.
  - by rewrite lookup_insert_ne.
Qed.

Lemma Bind_inv c tagKey b c' : Bind c tagKey = Ok (b, c') -> inv c -> inv c'.
Proof.
  unfold Bind. destruct (existsb _ _) eqn:He; [done |]. intros [= <- <-] [H1 H2 H3 H4 H5].
  set (b := fresh (dom (binds c))).
  assert (binds c !! b = None) as Hb by (apply not_elem_of_dom, is_fresh).
  assert (forall x, x ∈ rooms c -> bind_of (set_rooms c (<[b:=MkRoomBind tagKey None]> (binds c)) (rooms c ++ [b])) x = bind_of c x) as Hof.
  { intros x Hx. unfold bind_of. simpl. rewrite lookup_insert_ne; [done |].
    intros <-. destruct (H2 b Hx) as [? ?]. congruence. }
  split; simpl.
  - rewrite map_app. apply NoDup_app. split; [| split; [| apply NoDup_singleton]].
    + erewrite map_ext_in; [exact H1 |]. intros x Hx%list_elem_of_In. by rewrite Hof.
    + intros k Hk Hk'%list_elem_of_singleton. apply list_elem_of_fmap in Hk as (x & -> & Hx).
      rewrite Hof in Hk' by done.
      assert (existsb (fun b => bool_decide (key (bind_of c b) = tagKey)) (rooms c) = true); [| congruence].
      apply existsb_exists. exists x. split; [by apply list_elem_of_In |]. apply bool_decide_eq_true.
      rewrite Hk'. unfold bind_of. simpl. by rewrite lookup_insert_eq.
  - intros x [Hx | ->%list_elem_of_singleton]%elem_of_app.
    + rewrite lookup_insert_ne; [by apply H2 |]. intros <-. destruct (H2 b Hx) as [? ?]. congruence.
    + rewrite lookup_insert_eq. eauto.
  - intros x rb st. destruct (decide (b = x)) as [<- |].
    + rewrite lookup_insert_eq. by intros [= <-].
    + rewrite lookup_insert_ne by done. apply H3.
  - intros x y rb rb' st. destruct (decide (b = x)) as [<- |]; [rewrite lookup_insert_eq; by intros [= <-] |].
    rewrite lookup_insert_ne by done. intros Hx.
    destruct (decide (b = y)) as [<- |]; [rewrite lookup_insert_eq; by intros [= <-] |].
    rewrite lookup_insert_ne by done. by apply H4.
  - exact H5.
Qed.

Lemma Close_bind_inv c b : inv c -> inv (Close_bind c b).
Proof.
  intros H. unfold Close_bind. destruct (binds c !! b) as [rb |] eqn:Hb; [| done].
  destruct (state rb) as [st |] eqn:Hst; [| done]. destruct H as [H1 H2 H3 H4 H5].
  split; simpl.
  - erewrite map_ext; [exact H1 |]. intros x. unfold bind_of at 1. simpl.
    by apply (bind_of_keys c _ b rb (MkRoomBind (key rb) None)).
  - intros x Hx. destruct (decide (b = x)) as [<- |]; [rewrite lookup_insert_eq; eauto |].
    rewrite lookup_insert_ne by done. by apply H2.
  - intros x rb' st' Hx Hs. destruct (decide (b = x)) as [<- |].
    { rewrite lookup_insert_eq in Hx. by injection Hx as <-. }
    rewrite lookup_insert_ne in Hx by done. destruct (H3 x rb' st' Hx Hs) as (s & Hs1 & Hs2).
    exists s. rewrite lookup_alter_ne; [done |]. intros ->. by destruct (H4 b x rb rb' st' Hb Hx Hst Hs).
  - intros x y rx ry st'. destruct (decide (b = x)) as [<- |]; [rewrite lookup_insert_eq; by intros [= <-] |].
    rewrite lookup_insert_ne by done. intros Hx.
    destruct (decide (b = y)) as [<- |]; [rewrite lookup_insert_eq; by intros [= <-] |].
    rewrite lookup_insert_ne by done. by apply H4.
  - intros st' s. destruct (decide (st = st')) as [<- |].
    + rewrite lookup_alter_eq. intros (s0 & Hs0 & ->)%fmap_Some. simpl. by apply (H5 st).
    + rewrite lookup_alter_ne by done. apply H5.
Qed.

Lemma Close_binds_inv bs : forall c, inv c -> inv (fold_left Close_bind bs c).
Proof. induction bs as [| b bs IH]; intros c H; simpl; [done |]. by apply IH, Close_bind_inv. Qed.

Lemma Close_bind_key c b x : key (bind_of (Close_bind c b) x) = key (bind_of c x)
  /\ rooms (Close_bind c b) = rooms c.
Proof.
  unfold Close_bind. destruct (binds c !! b) as [rb |] eqn:Hb; [| done].
  destruct (state rb) as [st |]; [| done]. split; [| done]. unfold bind_of at 1. simpl.
  by apply (bind_of_keys c _ b rb (MkRoomBind (key rb) None)).
Qed.

Lemma Close_binds_key bs : forall c x, key (bind_of (fold_left Close_bind bs c) x) = key (bind_of c x)
  /\ rooms (fold_left Close_bind bs c) = rooms c.
Proof.
  induction bs as [| b bs IH]; intros c x; simpl; [done |].
  destruct (IH (Close_bind c b) x) as [H1 H2]. destruct (Close_bind_key c b x) as [H3 H4].
  split; congruence.
Qed.

Lemma Unbind_inv c tagKey : inv c -> inv (Unbind c tagKey).
Proof.
  intros H. unfold Unbind. set (gone := base.filter _ (rooms c)).
  pose proof (Close_binds_inv gone c H) as [H1 H2 H3 H4 H5].
  pose proof (fun x => proj1 (Close_binds_key gone c x)) as Hk.
  assert (rooms (fold_left Close_bind gone c) = rooms c) as Hr by apply (Close_binds_key gone c 0%nat).
  split; simpl; try done.
  - rewrite Hr in H1. revert H1. generalize (rooms c). intros l.
    set (f := fun b => key (bind_of (fold_left Close_bind gone c) b)).
    change (NoDup (map f l) -> NoDup (map f (base.filter (fun b => key (bind_of c b) <> tagKey) l))).
    clear. induction l as [| x l IH]; [done |]. simpl. intros [Hx Hl]%NoDup_cons. rewrite filter_cons.
    case_decide; [| by apply IH]. simpl. apply NoDup_cons. split; [| by apply IH].
    intros (y & Hy & [_ Hin]%list_elem_of_filter)%list_elem_of_fmap. apply Hx, list_elem_of_fmap. eauto.
  - intros b [_ Hb]%list_elem_of_filter. apply H2. by rewrite Hr.
Qed.

Lemma Open_inv c b st c' : is_Some (binds c !! b) -> Open c b = Ok (st, c') -> inv c -> inv c'.
Proof.
  intros [rb Hb] Ho [H1 H2 H3 H4 H5]. unfold Open in Ho. rewrite (bind_of_some c b rb Hb) in Ho.
  destruct (state rb) as [|] eqn:Hs; [done |]. destruct (done_ c); [done |]. injection Ho as <- <-.
  set (st := fresh (dom (states c))).
  assert (states c !! st = None) as Hst by (apply not_elem_of_dom, is_fresh).
  split; simpl.
  - erewrite map_ext; [exact H1 |]. intros x. unfold bind_of at 1. simpl.
    by apply (bind_of_keys c _ b rb (MkRoomBind (key rb) (Some st))).
  - intros x Hx. destruct (decide (b = x)) as [<- |]; [rewrite lookup_insert_eq; eauto |].
    rewrite lookup_insert_ne by done. by apply H2.
  - intros x rb' st' Hx Hs'. destruct (decide (b = x)) as [<- |].
    + rewrite lookup_insert_eq in Hx. injection Hx as <-. injection Hs' as <-.
      rewrite lookup_insert_eq. by eexists.
    + rewrite lookup_insert_ne in Hx by done. destruct (H3 x rb' st' Hx Hs') as (s & Hs1 & Hs2).
      exists s. rewrite lookup_insert_ne; [done |]. congruence.
  - assert (forall x rx, binds c !! x = Some rx -> state rx <> Some st) as Hfresh.
    { intros x rx Hx Hsx. destruct (H3 x rx st Hx Hsx) as (s & Hs1 & _). congruence. }
    intros x y rx ry st' Hx Hy Hsx Hsy.
    destruct (decide (b = x)) as [<- |], (decide (b = y)) as [<- |]; try done;
      rewrite ?lookup_insert_eq in *; rewrite ?lookup_insert_ne in * by done.
    + injection Hx as <-. injection Hsx as <-. by destruct (Hfresh y ry Hy).
    + injection Hy as <-. injection Hsy as <-. by destruct (Hfresh x rx Hx).
    + by apply (H4 x y rx ry st').
  - intros st' s. destruct (decide (st = st')) as [<- |].
    + rewrite lookup_insert_eq. intros [= <-]. simpl. lia.
    + rewrite lookup_insert_ne by done. apply H5.
Qed.

(** Changing the queue of a state. *)
Lemma set_queue_inv c st s q : states c !! st = Some s -> (length q <= queueLen)%nat ->
  inv c -> inv (set_states c (binds c) (<[st := MkBindState q (sdone s)]> (states c))).
Proof.
  intros Hs Hq [H1 H2 H3 H4 H5]. split; simpl; try done.
  - intros b rb st' Hb Hst. destruct (H3 b rb st' Hb Hst) as (s' & Hs1 & Hs2).
    destruct (decide (st = st')) as [<- |].
    + rewrite lookup_insert_eq. eexists. split; [done |]. simpl. congruence.
    + rewrite lookup_insert_ne by done. eauto.
  - intros st' s'. destruct (decide (st = st')) as [<- |].
    + rewrite lookup_insert_eq. by intros [= <-].
    + rewrite lookup_insert_ne by done. apply H5.
Qed.

Lemma deliver_inv c b data from : inv c -> inv (deliver c b data from).
Proof.
  intros H. unfold deliver. destruct (state (bind_of c b)) as [st |]; [| done].
  destruct (states c !! st) as [s |] eqn:Hs; [| done]. destruct (decide _); [| done].
  apply set_queue_inv; [done | | done]. rewrite length_app. simpl. lia.
Qed.

Lemma recv_inv c st n pd ps c' : recv c st n pd = Some (Ok (ps, c')) -> inv c -> inv c'.
Proof.
  unfold recv. destruct (states c !! st) as [s |] eqn:Hs; [| done].
  destruct (queue s) as [| p q] eqn:Hq; [by destruct (sdone s) |].
  destruct (n =? 0)%nat; [done |]. destruct (sdone s && pd); [done |]. intros [= _ <-] H. rewrite <- Hq.
  apply set_queue_inv; [done | | done]. pose proof (m_queue _ H _ _ Hs). rewrite length_drop. lia.
Qed.

Section CryptoInv.
Context `{CR : Crypto}.

Lemma dispatch_inv c pkt from acts c' : dispatch c pkt from = Ok (acts, c') -> inv c -> inv c'.
Proof.
  unfold dispatch. destruct (find_room c (rooms c) pkt) as [b |].
  - intros H Hi. apply bind_ok in H as (data & _ & [= _ <-]). by apply deliver_inv.
  - destruct (disco c) as [k |]; [destruct (obfs.Match k pkt) |]; by intros [= _ <-].
Qed.

Lemma handleSTUN_same c pkt from : binds (handleSTUN c pkt from) = binds c
  /\ states (handleSTUN c pkt from) = states c /\ rooms (handleSTUN c pkt from) = rooms c.
Proof. unfold handleSTUN. repeat (case_match; try done). Qed.

Lemma receive_inv c pkt addr acts c' : receive c pkt addr = Ok (acts, c') -> inv c -> inv c'.
Proof.
  unfold receive. intros H Hi. apply bind_ok in H as (is_stun & _ & H). destruct is_stun.
  - injection H as _ <-. destruct (handleSTUN_same c pkt (unmapAP addr)) as (? & ? & ?). by apply (inv_same c).
  - case_bool_decide; [destruct (dropRelayUDP c); by injection H as _ <- |].
    destruct (dropDirect c); [by injection H as _ <- |]. by eapply dispatch_inv.
Qed.

(** Any sequence of the socket's operations. *)
Inductive reach : Conn -> Prop :=
  | reach_listen : reach Listen
  | reach_bind c k b c' : reach c -> Bind c k = Ok (b, c') -> reach c'
  | reach_unbind c k : reach c -> reach (Unbind c k)
  | reach_open c b st c' : reach c -> is_Some (binds c !! b) -> Open c b = Ok (st, c') -> reach c'
  | reach_close_bind c b : reach c -> reach (Close_bind c b)
  | reach_close c : reach c -> reach (Close c)
  | reach_receive c pkt addr acts c' : reach c -> receive c pkt addr = Ok (acts, c') -> reach c'
  | reach_relayed c pkt node acts c' : reach c -> Receive c pkt node = Ok (acts, c') -> reach c'
  | reach_recv c st n pd ps c' : reach c -> recv c st n pd = Some (Ok (ps, c')) -> reach c'
  | reach_relay c a : reach c -> reach (SetRelay c a)
  | reach_disco c k : reach c -> reach (SetDisco c k)
  | reach_stun c id srv : reach c -> reach (stun_start c id srv)
  | reach_stun_done c id : reach c -> reach (stun_done c id).

Lemma socket_inv c : reach c -> inv c.
Proof.
  induction 1; try (by apply (inv_same c)).
  - apply inv_listen.
  - by eapply Bind_inv.
  - by apply Unbind_inv.
  - by eapply Open_inv.
  - by apply Close_bind_inv.
  - unfold Close. eapply inv_same; [.. | by apply Close_binds_inv]; done.
  - by eapply receive_inv.
  - by eapply dispatch_inv.
  - by eapply recv_inv.
Qed.

End CryptoInv.

(** ** Theorems *)

Ltac no_elem := match goal with H : _ ∈ [] |- _ => by apply elem_of_nil in H end.

Section Theorems.
Context `{CL : CryptoLaws}.

Lemma find_room_some c rs pkt b : find_room c rs pkt = Some b ->
  b ∈ rs /\ obfs.Match (key (bind_of c b)) pkt = true.
Proof.
  induction rs as [| x rs IH]; [done |]. simpl. head_if Hm.
  - intros [= ->]. split; [constructor | done].
  - intros H. destruct (IH H). split; [by constructor | done].
Qed.

Lemma find_room_none c rs pkt : find_room c rs pkt = None ->
  forall b, b ∈ rs -> obfs.Match (key (bind_of c b)) pkt = false.
Proof.
  induction rs as [| x rs IH]; simpl; [by intros _ b ?%elem_of_nil |].
  destruct (obfs.Match _ pkt) eqn:Hm; [done |].
  intros H b [-> | Hb]%elem_of_cons; [done | by apply IH].
Qed.

Lemma find_room_at c pre b post pkt :
  (forall x, x ∈ pre -> obfs.Match (key (bind_of c x)) pkt = false) ->
  obfs.Match (key (bind_of c b)) pkt = true -> find_room c (pre ++ b :: post) pkt = Some b.
Proof.
  intros Hp Hb. induction pre as [| x pre IH]; simpl; [by rewrite Hb |].
  rewrite Hp by constructor. apply IH. intros y Hy. apply Hp. by constructor.
Qed.

Lemma Match_long k pkt : obfs.Match k pkt = true -> 8 <= zlen pkt.
Proof. unfold obfs.Match, obfs.TagLen. by destruct (Z.ltb_spec (zlen pkt) 8). Qed.

Lemma Is_ok (pkt : bytes) : exists v, stun.Is (E := error) pkt = Ok v.
Proof. rewrite stun.Is_spec. eauto. Qed.

(** What a delivery may change. *)
Lemma deliver_frame c b data from :
  binds (deliver c b data from) = binds c /\ rooms (deliver c b data from) = rooms c
  /\ stunPending (deliver c b data from) = stunPending c
  /\ forall st, states (deliver c b data from) !! st <> states c !! st ->
     exists s, state (bind_of c b) = Some st /\ states c !! st = Some s /\ (length (queue s) < queueLen)%nat
       /\ states (deliver c b data from) !! st
          = Some (MkBindState (queue s ++ [MkPacket (take (Z.to_nat maxPacket) data) from]) (sdone s)).
Proof.
  unfold deliver. destruct (state (bind_of c b)) as [st0 |]; [| done].
  destruct (states c !! st0) as [s |] eqn:Hs; [| done]. destruct (decide _) as [Hl |]; [| done].
  repeat split; try done. intros st. simpl. destruct (decide (st0 = st)) as [<- |].
  - rewrite lookup_insert_eq. intros _. by exists s.
  - by rewrite lookup_insert_ne.
Qed.

Lemma dispatch_ok c pkt from : exists acts c', dispatch c pkt from = Ok (acts, c').
Proof.
  unfold dispatch. destruct (find_room c (rooms c) pkt) as [b |] eqn:Hf.
  - apply find_room_some in Hf as [_ Hm%Match_long]. unfold obfs.TagLen. rewrite slice_ok by lia.
    cbn [mbind res_bind]. eauto.
  - destruct (disco c) as [k |]; [destruct (obfs.Match k pkt) |]; eauto.
Qed.

(** The effects of a datagram: into the queue of a room whose tag it carries,
    to disco when it carries the node's tag and no room's, to the relay client
    when it comes from the relay, to a STUN request. *)
Definition effects (c : Conn) (pkt : bytes) (from : AddrPort) (acts : list action) (c' : Conn) : Prop :=
  binds c' = binds c /\ rooms c' = rooms c
  /\ (forall st, states c' !! st <> states c !! st ->
      exists b s, b ∈ rooms c /\ state (bind_of c b) = Some st
        /\ obfs.Match (key (bind_of c b)) pkt = true /\ stun.Is (E := error) pkt = Ok false
        /\ states c !! st = Some s /\ (length (queue s) < queueLen)%nat
        /\ states c' !! st = Some (MkBindState (queue s ++
             [MkPacket (take (Z.to_nat maxPacket) (sub pkt 8 (zlen pkt))) from]) (sdone s)))
  /\ (forall a, a ∈ acts -> stun.Is (E := error) pkt = Ok false /\
      ((a = ARelay pkt /\ relay c = Some from) \/
       exists k, a = ADisco pkt from /\ relay c <> Some from /\ disco c = Some k /\ obfs.Match k pkt = true
         /\ forall b, b ∈ rooms c -> obfs.Match (key (bind_of c b)) pkt = false))
  /\ (stunPending c' <> stunPending c -> stun.Is (E := error) pkt = Ok true /\ acts = [] /\ states c' = states c).

Lemma dispatch_effects c pkt from acts c' :
  stun.Is (E := error) pkt = Ok false -> relay c <> Some from -> dispatch c pkt from = Ok (acts, c') ->
  effects c pkt from acts c'.
Proof.
  intros Hs Hr. unfold dispatch, effects. destruct (find_room c (rooms c) pkt) as [b |] eqn:Hf.
  - apply find_room_some in Hf as [Hb Hm]. pose proof (Match_long _ _ Hm). unfold obfs.TagLen.
    rewrite slice_ok by lia. cbn [mbind res_bind]. intros [= <- <-].
    destruct (deliver_frame c b (sub pkt 8 (zlen pkt)) from) as (-> & -> & -> & Hst).
    repeat split; try done; try no_elem. intros st Hne. destruct (Hst st Hne) as (s & ? & ? & ? & ?).
    by exists b, s.
  - pose proof (find_room_none _ _ _ Hf) as Hno.
    destruct (disco c) as [k |] eqn:Hd; [destruct (obfs.Match k pkt) eqn:Hm |]; intros [= <- <-];
      (repeat split; try done); try no_elem.
    apply list_elem_of_singleton in H as ->. right. by exists k.
Qed.

(** C29: the read loop never panics, and a datagram reaches a room's queue only
    with that room's tag, disco only with the node's tag and no room's, the
    relay client only from the relay's address, and a STUN request only as a
    STUN message; queues grow by that one packet, at most up to their bound. *)
Theorem receive_sound c pkt addr : exists acts c',
  receive c pkt addr = Ok (acts, c') /\ effects c pkt (unmapAP addr) acts c'.
Proof.
  unfold receive. destruct (Is_ok pkt) as [v Hv]. rewrite Hv. cbn [mbind res_bind]. destruct v.
  - do 2 eexists. split; [reflexivity |]. unfold effects.
    destruct (handleSTUN_same c pkt (unmapAP addr)) as (-> & -> & ->). repeat split; try done; no_elem.
  - case_bool_decide as Hr; [| destruct (dropDirect c)].
    + destruct (negb (dropRelayUDP c)); do 2 eexists; (split; [reflexivity |]); (repeat split; try done);
        try no_elem. apply list_elem_of_singleton in H as ->; by left.
    + do 2 eexists. split; [reflexivity |]. (repeat split; try done); no_elem.
    + destruct (dispatch_ok c pkt (unmapAP addr)) as (acts & c' & Hd). do 2 eexists.
      split; [exact Hd |]. by apply dispatch_effects.
Qed.

(** in every reachable socket the rooms have distinct tag keys, an open room
    has a state that is not closed and that no other room uses, and no queue
    exceeds its bound; [Bind] refuses exactly the tag keys that are bound, and
    after [Unbind] the tag key is free and the other rooms are kept. *)
Theorem rooms_spec c : reach c ->
  NoDup (map (fun b => key (bind_of c b)) (rooms c))
  /\ (forall b st, state (bind_of c b) = Some st -> exists s, states c !! st = Some s /\ sdone s = false
      /\ forall b', state (bind_of c b') = Some st -> b = b')
  /\ (forall st s, states c !! st = Some s -> (length (queue s) <= queueLen)%nat)
  /\ (forall k, Bind c k = Err EBound <-> exists b, b ∈ rooms c /\ key (bind_of c b) = k)
  /\ (forall k b, b ∈ rooms (Unbind c k) <-> b ∈ rooms c /\ key (bind_of c b) <> k)
  /\ (forall k, is_ok (Bind (Unbind c k) k) = true).
Proof.
  intros Hr. pose proof (socket_inv c Hr) as [H1 H2 H3 H4 H5].
  assert (forall b st, state (bind_of c b) = Some st -> exists rb, binds c !! b = Some rb /\ state rb = Some st) as Hb.
  { intros b st. unfold bind_of. destruct (binds c !! b) as [rb |]; [by exists rb | done]. }
  assert (forall c k, Bind c k = Err EBound <-> exists b, b ∈ rooms c /\ key (bind_of c b) = k) as HB.
  { clear. intros c k. unfold Bind. destruct (existsb _ _) eqn:He.
    - split; [intros _ | done]. apply existsb_exists in He as (b & Hb & Hk%bool_decide_eq_true).
      exists b. split; [by apply list_elem_of_In | done].
    - split; [done |]. intros (b & Hb & Hk).
      assert (existsb (fun b => bool_decide (key (bind_of c b) = k)) (rooms c) = true); [| congruence].
      apply existsb_exists. exists b. split; [by apply list_elem_of_In | by apply bool_decide_eq_true]. }
  assert (forall k b, b ∈ rooms (Unbind c k) <-> b ∈ rooms c /\ key (bind_of c b) <> k) as HU.
  { intros k b. unfold Unbind. simpl. rewrite list_elem_of_filter. tauto. }
  split; [done |]. split; [| split; [done |]]; [| split; [apply HB |]; split; [done |]].
  - intros b st Hst. destruct (Hb b st Hst) as (rb & Hrb & Hs). destruct (H3 b rb st Hrb Hs) as (s & Hs1 & Hs2).
    exists s. split; [done |]. split; [done |]. intros b' Hst'. destruct (Hb b' st Hst') as (rb' & Hrb' & Hs').
    by apply (H4 b b' rb rb' st).
  - intros k. destruct (Bind (Unbind c k) k) as [| e |] eqn:He; [done | |].
    + assert (e = EBound) as -> by (revert He; unfold Bind; destruct (existsb _ _); by intros [= <-]).
      apply HB in He as (b & Hin & Hk). apply HU in Hin as [_ Hn]. destruct Hn.
      rewrite <- Hk. unfold Unbind, bind_of at 1. simpl. symmetry. apply Close_binds_key.
    + revert He. unfold Bind. by destruct (existsb _ _).
Qed.

Lemma send_all_ok accepts c k bufs nonces to ws : RelayNode to = None ->
  send_all accepts c k bufs nonces to = (ws, Ok tt) -> length nonces = length bufs ->
  ws = zip_with (fun pkt nonce => WUDP (obfs.tag k nonce ++ pkt) to) bufs nonces
  /\ Forall (fun pkt => zlen pkt + 8 <= maxPacket) bufs.
Proof.
  intros Hto. revert nonces ws. induction bufs as [| pkt bufs IH]; intros [| nonce nonces] ws; try done.
  { by intros [= <-]. }
  cbn [send_all]. unfold obfs.TagLen. destruct (Z.ltb_spec maxPacket (zlen pkt + 8)) as [|Hl]; [done |].
  unfold write. rewrite Hto. unfold guard_err. destruct (accepts _); [| done].
  destruct (send_all _ _ _ _ _ _) as [ws' r] eqn:Hs. intros [= <- ->] [= Hlen].
  destruct (IH nonces ws' Hs Hlen) as [-> ?]. split; [done |]. by constructor.
Qed.

(** what [Send] wrote without an error is one tagged datagram for each
    packet, and a socket that has the same room open, with room in its queue,
    puts exactly that packet into the queue, unless the datagram reads as a
    STUN message, carries the tag of an earlier room, or comes from the relay's
    address. *)
Theorem Send_receive accepts cs bs bufs nonces to ws :
  RelayNode to = None -> length nonces = length bufs -> Forall (fun n => zlen n = 4) nonces ->
  Send accepts cs bs bufs nonces to = (ws, Ok tt) ->
  length ws = length bufs /\
  forall i pkt, bufs !! i = Some pkt -> exists d, ws !! i = Some (WUDP d to) /\
    forall c pre b post st s addr,
      rooms c = pre ++ b :: post -> key (bind_of c b) = key (bind_of cs bs) ->
      state (bind_of c b) = Some st -> states c !! st = Some s -> (length (queue s) < queueLen)%nat ->
      (forall x, x ∈ pre -> obfs.Match (key (bind_of c x)) d = false) ->
      stun.Is (E := error) d = Ok false -> relay c <> Some (unmapAP addr) -> dropDirect c = false ->
      receive c d addr = Ok ([], set_states c (binds c)
        (<[st := MkBindState (queue s ++ [MkPacket pkt (unmapAP addr)]) (sdone s)]> (states c))).
Proof.
  intros Hto Hlen Hn. unfold Send. destruct (state (bind_of cs bs)); [| done]. intros Hs.
  destruct (send_all_ok _ _ _ _ _ _ _ Hto Hs Hlen) as [-> Hsz].
  split; [rewrite length_zip_with; lia |]. intros i pkt Hi.
  destruct (lookup_lt_is_Some_2 nonces i) as [nonce Hno].
  { rewrite Hlen. by eapply lookup_lt_Some. }
  exists (obfs.tag (key (bind_of cs bs)) nonce ++ pkt). rewrite lookup_zip_with, Hi, Hno. split; [done |].
  intros c pre b post st s addr Hr Hk Hst Hss Hq Hpre Hstun Hrel Hdrop.
  assert (zlen nonce = 4) as H4 by (by eapply (Forall_lookup_1 _ _ _ _ Hn)).
  pose proof (Forall_lookup_1 _ _ _ _ Hsz Hi) as Hp. cbv beta in Hp.
  unfold receive. rewrite Hstun. cbn [mbind res_bind]. rewrite bool_decide_eq_false_2 by done.
  rewrite Hdrop. unfold dispatch. rewrite Hr, find_room_at; [| done |].
  - pose proof (obfs.zlen_tag (key (bind_of cs bs)) nonce H4) as Ht. pose proof (zlen_nonneg pkt).
    unfold obfs.TagLen. rewrite slice_ok by (rewrite zlen_app; lia). cbn [mbind res_bind].
    rewrite sub_app_tail by (by rewrite ?zlen_app; lia). unfold deliver. rewrite Hst, Hss, decide_True by done.
    rewrite take_ge; [done |]. unfold zlen in *. lia.
  - rewrite Hk. apply obfs.Match_spec. by exists nonce, pkt.
Qed.

(** the pseudo-address of a node carries its ID back, survives the
    unmapping of addresses, and sending to it goes to that node through the
    relay, or fails without one; real IPv4 addresses never go to the relay. *)
Theorem RelayEndpoint_spec accepts c node b : zlen node = 10 -> bytes_ok node ->
  RelayNode (RelayEndpoint node) = Some node /\ IsRelay (RelayEndpoint node) = true
  /\ unmapAP (RelayEndpoint node) = RelayEndpoint node
  /\ fst (write accepts c b (RelayEndpoint node)) = (if relay c then [WRelay node b] else [])
  /\ (relay c = None -> snd (write accepts c b (RelayEndpoint node)) = Err ENoRelay)
  /\ forall v port, fst (write accepts c b (MkAddrPort (Addr4 v) port)) = [WUDP b (MkAddrPort (Addr4 v) port)].
Proof.
  intros Hl Hb.
  set (p6 := sub (As16 (pfx_ip relayPrefix)) 0 6).
  assert (p6 = [253; 122; 122; 112; 114; 255]) as Hp by (vm_compute; reflexivity).
  assert (bytes_ok (p6 ++ node)) as Hok.
  { rewrite Hp. apply Forall_app. split; [| done]. repeat constructor; discriminate. }
  assert (length (p6 ++ node) = 16%nat) as H16 by (rewrite length_app, Hp; unfold zlen in Hl; simpl; lia).
  assert (be (p6 ++ node) / 2 ^ 80 = be [253; 122; 122; 112; 114; 255]) as Hdiv.
  { rewrite be_app, Hp, Hl. pose proof (be_bound node Hb) as Hbd. rewrite Hl in Hbd.
    change (256 ^ 10) with (2 ^ 80) in *. rewrite Z.div_add_l, Z.div_small by lia. lia. }
  assert (RelayNode (RelayEndpoint node) = Some node) as Hrn.
  { unfold RelayNode, RelayEndpoint, Contains. cbn [ap_addr]. fold p6. unfold AddrFrom16.
    change (PrefixIsValid relayPrefix) with true. simpl Zone. rewrite bool_decide_eq_true_2 by done.
    unfold relayPrefix at 1 2. cbn [pfx_bits pfx_ip same_top andb]. change (128 - 48) with 80.
    rewrite Hdiv, Z.div_mul by done. rewrite Z.eqb_refl. f_equal.
    unfold As16. cbn [num16]. rewrite <- H16, put_be_be by done. by rewrite sub_app_tail by (rewrite ?zlen_app, Hp, ?Hl; done). }
  split; [done |]. split; [by revert Hrn; unfold RelayNode, IsRelay; destruct (Contains _ _) |].
  split.
  { unfold unmapAP, RelayEndpoint, AddrFrom16. cbn [ap_addr ap_port Unmap]. fold p6.
    destruct (Z.eqb_spec (be (p6 ++ node) / 2 ^ 32) 65535) as [He |]; [| done]. exfalso.
    replace (2 ^ 80) with (2 ^ 32 * 2 ^ 48) in Hdiv by done. rewrite <- Z.div_div, He in Hdiv by lia. by vm_compute in Hdiv. }
  split; [unfold write; rewrite Hrn; by destruct (relay c) |].
  split; [unfold write; rewrite Hrn; by intros -> | done].
Qed.

Lemma receive_stun c pkt addr acts c' : receive c pkt addr = Ok (acts, c') ->
  stunPending c' = stunPending (handleSTUN c pkt (unmapAP addr)).
Proof.
  unfold receive. destruct (Is_ok pkt) as [v Hv]. rewrite Hv. cbn [mbind res_bind].
  destruct v; [by intros [= _ <-] |]. intros H.
  assert (handleSTUN c pkt (unmapAP addr) = c) as ->.
  { unfold handleSTUN, stun.ParseResponse. rewrite stun.Is_spec in Hv. rewrite stun.Is_spec. injection Hv as ->. done. }
  revert H. case_bool_decide; [by destruct (dropRelayUDP c); intros [= _ <-] |].
  destruct (dropDirect c); [by intros [= _ <-] |]. unfold dispatch.
  destruct (find_room _ _ _) as [b |].
  - intros (d & _ & [= _ <-])%bind_ok. apply deliver_frame.
  - destruct (disco c) as [k |]; [destruct (obfs.Match k pkt) |]; by intros [= _ <-].
Qed.

(** the answer to a STUN request is set by a STUN response with the
    request's ID from the server that was asked, and then never changes. *)
Theorem stun_answer c pkt addr acts c' id : receive c pkt addr = Ok (acts, c') ->
  (forall a, stun_result c id = Some a -> stun_result c' id = Some a)
  /\ (stun_result c id = None -> forall a, stun_result c' id = Some a <->
      stun.ParseResponse pkt = Ok (id, a) /\ stunPending c !! id = Some (MkStunWait (unmapAP addr) None)).
Proof.
  intros Hr. pose proof (receive_stun _ _ _ _ _ Hr) as Hrs. unfold stun_result. rewrite Hrs.
  unfold handleSTUN. destruct (stun.ParseResponse pkt) as [[id' m] | e |] eqn:Hp.
  2,3: split; [done |]; intros -> a; split; [done | by intros [? _]].
  destruct (stunPending c !! id') as [[srv r] |] eqn:Hw.
  2: { split; [done |]. intros -> a. split; [done |]. intros [[= -> ->] Hx]. by rewrite Hw in Hx. }
  cbn [server reply]. destruct (bool_decide_reflect (srv = unmapAP addr)) as [-> | Hn]; cbn [negb].
  2: { split; [done |]. intros -> a. split; [done |]. intros [[= -> ->] Hx]. rewrite Hw in Hx. by injection Hx. }
  destruct r as [r |].
  { split; [done |]. intros H a. rewrite H. split; [done |]. intros [[= -> ->] Hx]. by rewrite Hw in Hx. }
  simpl. destruct (decide (id' = id)) as [-> |].
  - rewrite Hw, lookup_insert_eq. simpl. split; [done |]. intros _ a. split; [by intros [= ->] | by intros [[= ->] _]].
  - rewrite lookup_insert_ne by done. split; [done |]. intros -> a. split; [done |]. by intros [[= -> ->] _].
Qed.

End Theorems.

(** ** Witnesses *)

(** One room, bound and open, and a STUN request under way. *)
Definition one_room : Conn :=
  stun_start (set_states (set_rooms Listen {[0%nat := MkRoomBind (zeros 16) None]} [0%nat])
    {[0%nat := MkRoomBind (zeros 16) (Some 0%nat)]} {[0%nat := MkBindState [] false]})
    (zeros 12) (MkAddrPort (Addr4 7) 3478).

Lemma one_room_reach : reach (CR := toy) one_room.
Proof.
  unfold one_room. apply reach_stun.
  apply (reach_open (CR := toy) (set_rooms Listen {[0%nat := MkRoomBind (zeros 16) None]} [0%nat]) 0 0).
  - apply (reach_bind (CR := toy) Listen (zeros 16) 0); [constructor |]. vm_compute. reflexivity.
  - simpl. rewrite lookup_singleton_eq. eauto.
  - vm_compute. reflexivity.
Qed.

Lemma rooms_spec_witness : Bind one_room (zeros 16) = Err EBound.
Proof.
  apply (rooms_spec (C := toy) one_room one_room_reach). exists 0%nat. split; [constructor | reflexivity].
Defined.

Lemma receive_sound_witness : exists acts c',
  receive (CR := toy) one_room [1; 2; 3] (MkAddrPort (Addr4 9) 9) = Ok (acts, c')
  /\ effects (C := toy) one_room [1; 2; 3] (unmapAP (MkAddrPort (Addr4 9) 9)) acts c'.
Proof. apply (receive_sound (C := toy) one_room [1; 2; 3] (MkAddrPort (Addr4 9) 9)). Defined.

Lemma Send_receive_witness : length (A := write_op) (fst (Send (CR := toy) (fun _ => true) one_room 0
    [[7; 7]] [[1; 2; 3; 4]] (MkAddrPort (Addr4 9) 9))) = 1%nat.
Proof.
  apply (Send_receive (C := toy) (fun _ => true) one_room 0 [[7; 7]] [[1; 2; 3; 4]] (MkAddrPort (Addr4 9) 9));
    [reflexivity | reflexivity | by repeat constructor | vm_compute; reflexivity].
Defined.

Lemma RelayEndpoint_spec_witness : RelayNode (RelayEndpoint (zeros 10)) = Some (zeros 10).
Proof.
  apply (RelayEndpoint_spec (fun _ => true) one_room (zeros 10) []); [reflexivity |].
  apply (bool_decide_unpack (Forall (fun b => 0 <= b < 256) _)). vm_compute. exact I.
Defined.

Lemma stun_answer_witness : exists acts c',
  receive (CR := toy) one_room [1; 2; 3] (MkAddrPort (Addr4 9) 9) = Ok (acts, c')
  /\ forall a, stun_result one_room (zeros 12) = Some a -> stun_result c' (zeros 12) = Some a.
Proof.
  exists [], one_room.
  assert (receive (CR := toy) one_room [1; 2; 3] (MkAddrPort (Addr4 9) 9) = Ok ([], one_room)) as H by (vm_compute; reflexivity).
  split; [exact H | apply (stun_answer (C := toy) _ _ _ _ _ (zeros 12) H)].
Defined.

End magicsock.
