(* ===== verification/GoText.v ===== *)
(** More of Go's text functions: UTF-8 ([unicode/utf8] and conversions between
    [string] and [[]rune]), [strings.FieldsFunc], [TrimRight] and the line
    endings of [strings.ReplaceAll], and [base64.RawURLEncoding]. *)
From stdpp Require Import base list strings.
From Stdlib Require Import ZArith Lia.
From S2P Require Import Prelude GoStrings Encoding.

Open Scope Z_scope.

(** ** UTF-8 *)

Definition RuneError : Z := 65533.
Definition is_cont (c : Z) : bool := (128 <=? c) && (c <=? 191).

(** [utf8.DecodeRuneInString]: the rune and its width; an invalid sequence is
    one byte wide. Overlong forms, surrogates and numbers above U+10FFFF are
    invalid. *)
Definition DecodeRune (s : bytes) : Z * nat :=
  let bad := (RuneError, 1%nat) in
  match s with
  | [] => (RuneError, 0%nat)
  | a :: r =>
    if a <? 128 then (a, 1%nat)
    else match r with
    | [] => bad
    | b :: r =>
      if (194 <=? a) && (a <=? 223) && is_cont b then (Z.land a 31 * 64 + Z.land b 63, 2%nat)
      else match r with
      | [] => bad
      | c :: r =>
        if ((a =? 224) && (160 <=? b) && (b <=? 191)
            || (225 <=? a) && (a <=? 239) && negb (a =? 237) && is_cont b
            || (a =? 237) && (128 <=? b) && (b <=? 159)) && is_cont c
        then ((Z.land a 15 * 64 + Z.land b 63) * 64 + Z.land c 63, 3%nat)
        else match r with
        | [] => bad
        | d :: _ =>
          if ((a =? 240) && (144 <=? b) && (b <=? 191)
              || (241 <=? a) && (a <=? 243) && is_cont b
              || (a =? 244) && (128 <=? b) && (b <=? 143)) && is_cont c && is_cont d
          then (((Z.land a 7 * 64 + Z.land b 63) * 64 + Z.land c 63) * 64 + Z.land d 63, 4%nat)
          else bad
        end
      end
    end
  end.

(** The runes of a string; it has at most as many as bytes. *)
Fixpoint runes_of (fuel : nat) (s : bytes) : list Z :=
  match fuel, s with
  | S fuel, _ :: _ => let '(r, n) := DecodeRune s in r :: runes_of fuel (drop n s)
  | _, _ => []
  end.
Definition runes (s : bytes) : list Z := runes_of (length s) s.

(** [utf8.RuneCountInString]. *)
Definition RuneCount (s : bytes) : Z := zlen (runes s).

(** [utf8.AppendRune] of a rune that [DecodeRune] returns. *)
Definition EncodeRune (r : Z) : bytes :=
  if r <? 128 then [r]
  else if r <? 2048 then [192 + r / 64; 128 + r mod 64]
  else if r <? 65536 then [224 + r / 4096; 128 + r / 64 mod 64; 128 + r mod 64]
  else [240 + r / 262144; 128 + r / 4096 mod 64; 128 + r / 64 mod 64; 128 + r mod 64].

(** [string(rs)] of a slice of runes. *)
Definition string_of_runes (rs : list Z) : bytes := flat_map EncodeRune rs.

(** ** Fields and trimming *)

(** [strings.FieldsFunc] for separators that are ASCII characters. *)
Fixpoint fields_func (sep : Z -> bool) (cur s : bytes) : list bytes :=
  match s with
  | [] => end_field cur []
  | c :: r => if sep c then end_field cur (fields_func sep [] r) else fields_func sep (cur ++ [c]) r
  end.
Definition FieldsFunc (sep : Z -> bool) (s : bytes) : list bytes := fields_func sep [] s.

(** [strings.TrimRight(s, c)] for one character. *)
Fixpoint drop_byte (c : Z) (s : bytes) : bytes :=
  match s with
  | x :: r => if x =? c then drop_byte c r else s
  | [] => []
  end.
Definition TrimRight (s : bytes) (c : Z) : bytes := rev (drop_byte c (rev s)).

(** [strings.ReplaceAll(s, "\r\n", "\n")]. *)
Fixpoint unix_lines (s : bytes) : bytes :=
  match s with
  | [] => []
  | c :: r =>
    if c =? 13 then
      match r with
      | d :: r' => if d =? 10 then 10 :: unix_lines r' else c :: unix_lines r
      | [] => [c]
      end
    else c :: unix_lines r
  end.

(** ** base64.RawURLEncoding *)

Definition char64url (v : Z) : Z := if v =? 62 then 45 else if v =? 63 then 95 else char64 v.
Definition val64url (c : Z) : option Z :=
  if c =? 45 then Some 62 else if c =? 95 then Some 63
  else if (c =? 43) || (c =? 47) then None else val64 c.

Fixpoint encode64url (s : bytes) : bytes :=
  match s with
  | [] => []
  | [a] => map char64url (digits 6 2 (a * 2 ^ 4))
  | [a; b] => map char64url (digits 6 3 (be [a; b] * 2 ^ 2))
  | a :: b :: c :: r => map char64url (digits 6 4 (be [a; b; c])) ++ encode64url r
  end.

Definition group64url (cs : bytes) (drop : Z) (n : nat) : option bytes :=
  (fun vs => put_be n (undigits 6 vs / 2 ^ drop)) <$> lookup_all val64url cs.

Fixpoint decode64url (s : bytes) : option bytes :=
  match s with
  | [] => Some []
  | [a; b] => group64url [a; b] 4 1
  | [a; b; c] => group64url [a; b; c] 2 2
  | a :: b :: c :: d :: r =>
    match group64url [a; b; c; d] 0 3, decode64url r with
    | Some x, Some y => Some (x ++ y)
    | _, _ => None
    end
  | [_] => None
  end.

Definition rawurl_decode (s : bytes) : option bytes := decode64url (stripNewlines s).

(** ** Lemmas *)

Lemma val64url_char64url v : 0 <= v < 64 -> val64url (char64url v) = Some v /\ is_newline (char64url v) = false.
Proof.
  intros H. unfold char64url. destruct (Z.eqb_spec v 62) as [-> | H1]; [done |].
  destruct (Z.eqb_spec v 63) as [-> | H2]; [done |]. split; [| by apply char64_range].
  pose proof (val64_char64 v H) as Hv. unfold val64url.
  assert (char64 v <> 45 /\ char64 v <> 95 /\ char64 v <> 43 /\ char64 v <> 47) as (H3 & H4 & H5 & H6).
  { unfold char64. repeat (case_match; bool_hyps); lia. }
  rewrite !(proj2 (Z.eqb_neq _ _)) by done. done.
Qed.

Lemma lookup_digits64url n v : lookup_all val64url (map char64url (digits 6 n v)) = Some (digits 6 n v).
Proof.
  apply lookup_all_map. eapply Forall_impl; [apply (digits_range 6); lia |].
  intros d Hd. by apply val64url_char64url.
Qed.

Lemma group64url_digits n v drop m : group64url (map char64url (digits 6 n v)) drop m =
  Some (put_be m (v mod 64 ^ Z.of_nat n / 2 ^ drop)).
Proof. unfold group64url. rewrite lookup_digits64url. cbn [fmap option_fmap option_map]. by rewrite undigits_digits. Qed.

Lemma decode64url_encode64url s : bytes_ok s -> decode64url (encode64url s) = Some s.
Proof.
  induction s as [| a | a b | a b c r IH] using list_ind3; intros Hs; cbn [encode64url]; [done | | |].
  - pose proof (be_bound [a] Hs) as Hb. transitivity (group64url (map char64url (digits 6 2 (a * 2 ^ 4))) 4 1); [done |].
    rewrite group64url_digits. f_equal. apply (put_be_group [a]); [done |].
    change (be [a]) with a in *. change (256 ^ zlen [a]) with 256 in Hb.
    change (64 ^ Z.of_nat 2) with 4096. rewrite Z.mod_small by lia. apply Z.div_mul. lia.
  - pose proof (be_bound [a; b] Hs) as Hb. set (v := be [a; b] * 2 ^ 2).
    transitivity (group64url (map char64url (digits 6 3 v)) 2 2); [done |].
    rewrite group64url_digits. f_equal. apply (put_be_group [a; b]); [done |]. unfold v.
    change (256 ^ zlen [a; b]) with 65536 in Hb. change (64 ^ Z.of_nat 3) with 262144.
    rewrite Z.mod_small by lia. apply Z.div_mul. lia.
  - assert (bytes_ok [a; b; c] /\ bytes_ok r) as [Hg Hr]
      by (rewrite !Forall_cons in *; naive_solver).
    pose proof (be_bound [a; b; c] Hg) as Hb. set (v := be [a; b; c]) in *.
    transitivity (match group64url (map char64url (digits 6 4 v)) 0 3, decode64url (encode64url r) with
      | Some x, Some y => Some (x ++ y) | _, _ => None end); [done |].
    rewrite (IH Hr), group64url_digits. f_equal.
    change (put_be 3 (v mod 64 ^ Z.of_nat 4 / 2 ^ 0) ++ r = [a; b; c] ++ r). f_equal.
    apply (put_be_group [a; b; c]); [done |].
    change (256 ^ zlen [a; b; c]) with 16777216 in Hb. change (64 ^ Z.of_nat 4) with 16777216.
    rewrite Z.mod_small, Z.div_1_r by lia. done.
Qed.

Lemma rawurl_roundtrip s : bytes_ok s -> rawurl_decode (encode64url s) = Some s.
Proof.
  intros H. unfold rawurl_decode. rewrite stripNewlines_id; [by apply decode64url_encode64url |].
  assert (forall n v, Forall (fun c => is_newline c = false) (map char64url (digits 6 n v))) as Hm.
  { intros n v. apply Forall_map. eapply Forall_impl; [apply (digits_range 6); lia |].
    intros d Hd. by apply val64url_char64url. }
  clear H. induction s as [| a | a b | a b c r IH] using list_ind3; cbn [encode64url]; [constructor | apply Hm ..|].
  apply Forall_app. split; [apply Hm | exact IH].
Qed.

Lemma fields_func_sep sep s : forall cur, Forall (fun c => sep c = false) cur ->
  Forall (fun w => w <> [] /\ Forall (fun c => sep c = false) w) (fields_func sep cur s).
Proof.
  assert (forall cur fs, Forall (fun c => sep c = false) cur ->
    Forall (fun w => w <> [] /\ Forall (fun c => sep c = false) w) fs ->
    Forall (fun w => w <> [] /\ Forall (fun c => sep c = false) w) (end_field cur fs)) as He.
  { intros [| c cur] fs Hc Hf; [done |]. by constructor. }
  induction s as [| c r IH]; intros cur Hc; simpl; [by apply He |].
  destruct (sep c) eqn:Hs; [by apply He, IH |]. apply IH, Forall_app. split; [done | by constructor].
Qed.

(** Running out of fuel is impossible: every rune takes at least a byte. *)
Lemma DecodeRune_width s : s <> [] -> (1 <= snd (DecodeRune s) <= length s)%nat.
Proof. destruct s as [| a [| b [| c [| d r]]]]; intros H; [done |..]; simpl; repeat case_match; simpl; lia. Qed.

Lemma runes_of_fuel s : forall n, (length s <= n)%nat -> runes_of n s = runes s.
Proof.
  unfold runes. remember (length s) as m eqn:Hm. revert s Hm.
  induction m as [m IH] using lt_wf_ind. intros [| c r] Hm n Hn; [by destruct n, m |].
  subst m. destruct n as [| n]; [simpl in Hn; lia |]. simpl length. cbn [runes_of].
  destruct (DecodeRune (c :: r)) as [x w] eqn:Hd. f_equal.
  pose proof (DecodeRune_width (c :: r) ltac:(done)) as Hw. rewrite Hd in Hw. simpl in Hw, Hn.
  assert (length (drop w (c :: r)) < S (length r))%nat as Hl by (rewrite length_drop; simpl; lia).
  rewrite (IH _ ltac:(simpl; exact Hl) _ eq_refl n) by lia. symmetry.
  apply (IH _ ltac:(simpl; exact Hl) _ eq_refl). lia.
Qed.

Lemma runes_cons s : s <> [] -> runes s = fst (DecodeRune s) :: runes (drop (snd (DecodeRune s)) s).
Proof.
  destruct s as [| c r]; [done |]. intros _. unfold runes at 1. simpl length. cbn [runes_of].
  destruct (DecodeRune (c :: r)) as [x w] eqn:Hd. simpl fst. simpl snd. f_equal. apply runes_of_fuel.
  pose proof (DecodeRune_width (c :: r) ltac:(done)) as Hw. rewrite Hd in Hw. simpl in Hw.
  rewrite length_drop. simpl. lia.
Qed.
