(* ===== verification/AclText.v ===== *)
(** The text of a room's rules survives being kept: cutting the white space
    around it and giving it Unix line ends changes none of the rules. *)
From stdpp Require Import base list strings sets.
From Stdlib Require Import ZArith Lia.
From S2P Require Import Prelude GoStrings GoText Netip Acl.

Open Scope Z_scope.

(** ** Trimming and concatenation *)

(** No space character begins in front of [y] and ends in it. *)
Definition no_straddle (s2 : Z -> Z -> bool) (s3 : Z -> Z -> Z -> bool) (y : bytes) : Prop :=
  match y with
  | [] => True
  | c :: r => (forall a, s2 a c = false) /\ (forall a b, s3 a b c = false)
              /\ match r with [] => True | d :: _ => forall a, s3 a c d = false end
  end.

Lemma drop_spaces_app s2 s3 y : no_straddle s2 s3 y -> forall x,
  drop_spaces s2 s3 (x ++ y) = match drop_spaces s2 s3 x with [] => drop_spaces s2 s3 y | x' => x' ++ y end.
Proof.
  intros Hy x. remember (length x) as n eqn:Hn. revert x Hn.
  induction n as [n IH] using lt_wf_ind. intros [| a x] Hn; [done |]. simpl app.
  rewrite (drop_spaces_eq s2 s3 a x), (drop_spaces_eq s2 s3 a (x ++ y)).
  destruct (space1 a); [exact (IH (length x) ltac:(subst; simpl; lia) x eq_refl) |].
  destruct x as [| b x].
  - simpl. destruct y as [| c r]; [done |]. destruct Hy as (H2 & H3 & H4). rewrite H2.
    destruct r as [| d r]; [done |]. by rewrite H4.
  - simpl app. cbv iota. destruct (s2 a b); [exact (IH (length x) ltac:(subst; simpl; lia) x eq_refl) |].
    destruct x as [| c x].
    + simpl. destruct y as [| c r]; [done |]. destruct Hy as (H2 & H3 & H4). by rewrite H3.
    + simpl app. cbv iota. destruct (s3 a b c); [exact (IH (length x) ltac:(subst; simpl; lia) x eq_refl) | done].
Qed.

Notation r2 := (fun d c => space2 c d).
Notation r3 := (fun e d c => space3 c d e).

Lemma TrimLeft_nl l r : TrimLeftSpace (l ++ 10 :: r) =
  match TrimLeftSpace l with [] => TrimLeftSpace r | l' => l' ++ 10 :: r end.
Proof.
  unfold TrimLeftSpace. rewrite drop_spaces_app.
  - destruct (drop_spaces _ _ l); [| done]. cbv iota. by rewrite drop_spaces_eq.
  - split; [intros a | split; [intros a b |]].
    + unfold space2. lia.
    + unfold space3. lia.
    + destruct r as [| d r]; [done |]. intros a. unfold space3. lia.
Qed.

Lemma TrimRight_sp c l r : space1 c = true -> TrimRightSpace (l ++ c :: r) =
  match TrimRightSpace r with [] => TrimRightSpace l | r' => l ++ c :: r' end.
Proof.
  intros Hc. unfold TrimRightSpace. rewrite rev_app_distr. simpl rev. rewrite <- app_assoc. simpl app.
  rewrite drop_spaces_app.
  - destruct (drop_spaces r2 r3 (rev r)) as [| x y] eqn:Hd.
    + cbn [rev]. cbv iota. by rewrite drop_spaces_eq, Hc.
    + rewrite rev_app_distr. simpl rev. rewrite rev_involutive, <- app_assoc. simpl app.
      by destruct (rev y).
  - assert (c <> 194 /\ c <> 225 /\ c <> 226 /\ c <> 227 /\ c < 128) as Hr by (unfold space1 in Hc; lia).
    split; [intros a | split; [intros a b |]].
    + unfold space2. lia.
    + unfold space3. lia.
    + destruct (rev l) as [| d t]; [done |]. intros a. unfold space3. lia.
Qed.

Lemma TrimLeft_idem s : TrimLeftSpace (TrimLeftSpace s) = TrimLeftSpace s.
Proof.
  unfold TrimLeftSpace. remember (length s) as n eqn:Hn. revert s Hn.
  induction n as [n IH] using lt_wf_ind. intros [| a s] Hn; [done |]. rewrite (drop_spaces_eq _ _ a s).
  destruct (space1 a) eqn:Ha; [exact (IH (length s) ltac:(subst; simpl; lia) s eq_refl) |].
  destruct s as [| b s]; [by rewrite drop_spaces_eq, Ha |].
  destruct (space2 a b) eqn:Hb; [exact (IH (length s) ltac:(subst; simpl; lia) s eq_refl) |].
  destruct s as [| c s]; [by rewrite drop_spaces_eq, Ha, Hb |].
  destruct (space3 a b c) eqn:Hc; [exact (IH (length s) ltac:(subst; simpl; lia) s eq_refl) |].
  by rewrite drop_spaces_eq, Ha, Hb, Hc.
Qed.

(** A space character in front. *)
Lemma TrimRight_unit u r : (exists c, u = [c] /\ space1 c = true) \/ (exists c d, u = [c; d] /\ space2 c d = true)
    \/ (exists c d e, u = [c; d; e] /\ space3 c d e = true) ->
  TrimRightSpace (u ++ r) = match TrimRightSpace r with [] => [] | r' => u ++ r' end.
Proof.
  intros Hu. unfold TrimRightSpace. rewrite rev_app_distr, drop_spaces_app.
  - assert (drop_spaces r2 r3 (rev u) = []) as H0.
    { destruct Hu as [(c & -> & H) | [(c & d & -> & H) | (c & d & e & -> & H)]]; simpl; rewrite ?H; try done.
      - assert (space1 d = false) as ->; [| done]. unfold space2, space1 in *. lia.
      - assert (space1 e = false) as -> by (unfold space3, space1 in *; lia).
        by assert (space2 d e = false) as -> by (unfold space3, space2 in *; lia). }
    destruct (drop_spaces r2 r3 (rev r)) as [| x y] eqn:Hd; [by rewrite H0 |].
    rewrite rev_app_distr, rev_involutive. destruct (rev (x :: y)) as [| z t] eqn:He; [| done].
    apply (f_equal (@length Z)) in He. rewrite length_rev in He. done.
  - destruct Hu as [(c & -> & H) | [(c & d & -> & H) | (c & d & e & -> & H)]]; simpl;
      (split; [intros a | split; [intros a b | try intros a]]); unfold space1, space2, space3 in *; try done; lia.
Qed.

(** A prefix of what starts with no space starts with none. *)
Lemma TrimLeft_prefix w q : TrimLeftSpace (w ++ q) = w ++ q -> TrimLeftSpace w = w.
Proof.
  unfold TrimLeftSpace. destruct w as [| a w]; [done |]. simpl app. rewrite !drop_spaces_eq.
  assert (forall s, (length (drop_spaces space2 space3 s) <= length s)%nat) as Hlen.
  { clear. intros s. remember (length s) as n eqn:Hn. revert s Hn.
    induction n as [n IH] using lt_wf_ind. intros [| a s] ->; [done |]. rewrite drop_spaces_eq.
    destruct (space1 a); [pose proof (IH (length s) ltac:(simpl; lia) s eq_refl); simpl; lia |].
    destruct s as [| b s]; [done |].
    destruct (space2 a b); [pose proof (IH (length s) ltac:(simpl; lia) s eq_refl); simpl; lia |].
    destruct s as [| c s]; [done |].
    destruct (space3 a b c); [pose proof (IH (length s) ltac:(simpl; lia) s eq_refl); simpl; lia | done]. }
  assert (forall x (y : bytes), (length y < length x)%nat -> drop_spaces space2 space3 y <> x) as Hno.
  { intros x y Hl <-. pose proof (Hlen y). lia. }
  destruct (space1 a); [intros H; by apply Hno in H; simpl; [| lia] |].
  destruct w as [| b w]; [done |]. simpl app. cbv iota.
  destruct (space2 a b); [intros H; by apply Hno in H; simpl; [| lia] |].
  destruct w as [| c w]; [done |]. simpl app. cbv iota.
  destruct (space3 a b c); [intros H; by apply Hno in H; simpl; [| lia] | done].
Qed.

Lemma TrimRight_prefix s : exists q, s = TrimRightSpace s ++ q.
Proof.
  unfold TrimRightSpace. assert (forall s, exists p, s = p ++ drop_spaces r2 r3 s) as H.
  { clear. intros s. remember (length s) as n eqn:Hn. revert s Hn.
    induction n as [n IH] using lt_wf_ind. intros [| a s] ->; [by exists [] |]. rewrite drop_spaces_eq.
    destruct (space1 a).
    { destruct (IH (length s) ltac:(simpl; lia) s eq_refl) as [p Hp]. exists (a :: p). simpl. by rewrite <- Hp. }
    destruct s as [| b s]; [by exists [] |]. destruct (space2 b a).
    { destruct (IH (length s) ltac:(simpl; lia) s eq_refl) as [p Hp]. exists (a :: b :: p). simpl. by rewrite <- Hp. }
    destruct s as [| c s]; [by exists [] |]. destruct (space3 c b a); [| by exists []].
    destruct (IH (length s) ltac:(simpl; lia) s eq_refl) as [p Hp]. exists (a :: b :: c :: p). simpl. by rewrite <- Hp. }
  destruct (H (rev s)) as [p Hp]. exists (rev p). rewrite <- rev_app_distr, <- Hp. by rewrite rev_involutive.
Qed.

(** Trimming on both sides, in either order. *)
Lemma Trim_comm s : TrimLeftSpace (TrimRightSpace s) = TrimRightSpace (TrimLeftSpace s).
Proof.
  remember (length s) as n eqn:Hn. revert s Hn. induction n as [n IH] using lt_wf_ind. intros [| a s] ->; [done |].
  assert (forall u r, a :: s = u ++ r -> (1 <= length u)%nat ->
    (exists c, u = [c] /\ space1 c = true) \/ (exists c d, u = [c; d] /\ space2 c d = true)
    \/ (exists c d e, u = [c; d; e] /\ space3 c d e = true) ->
    (forall t, TrimLeftSpace (u ++ t) = TrimLeftSpace t) ->
    TrimLeftSpace (TrimRightSpace (a :: s)) = TrimRightSpace (TrimLeftSpace (a :: s))) as Hstep.
  { intros u r Hs Hl Hu Ht. rewrite Hs, TrimRight_unit, Ht by done.
    rewrite <- (IH (length r)); [| rewrite Hs, length_app; lia | done].
    destruct (TrimRightSpace r); [done | by rewrite Ht]. }
  destruct (space1 a) eqn:Ha.
  { apply (Hstep [a] s); [done | simpl; lia | left; eauto |]. intros t. unfold TrimLeftSpace. simpl app. by rewrite drop_spaces_eq, Ha. }
  assert (TrimLeftSpace (a :: s) = a :: s -> TrimLeftSpace (TrimRightSpace (a :: s)) = TrimRightSpace (TrimLeftSpace (a :: s))) as Hid.
  { intros Hl. rewrite Hl. destruct (TrimRight_prefix (a :: s)) as [q Hq]. apply (TrimLeft_prefix _ q). by rewrite <- Hq. }
  destruct s as [| b s]; [apply Hid; unfold TrimLeftSpace; by rewrite drop_spaces_eq, Ha |].
  destruct (space2 a b) eqn:Hb.
  { apply (Hstep [a; b] s); [done | simpl; lia | right; left; eauto |]. intros t. unfold TrimLeftSpace. simpl app. by rewrite drop_spaces_eq, Ha, Hb. }
  destruct s as [| c s]; [apply Hid; unfold TrimLeftSpace; by rewrite drop_spaces_eq, Ha, Hb |].
  destruct (space3 a b c) eqn:Hc; [| apply Hid; unfold TrimLeftSpace; by rewrite drop_spaces_eq, Ha, Hb, Hc].
  apply (Hstep [a; b; c] s); [done | simpl; lia | right; right; eauto 6 |]. intros t. unfold TrimLeftSpace. simpl app.
  by rewrite drop_spaces_eq, Ha, Hb, Hc.
Qed.

(** ** Lines *)

Definition rule_line (l : bytes) : bool := negb (bool_decide (l = []) || HasPrefix l (str "#")).

(** The lines with rules, trimmed. *)
Definition useful (ls : list bytes) : list bytes := List.filter rule_line (map TrimSpace ls).

Fixpoint parse_all (ls : list bytes) : option (list acl.Rule) :=
  match ls with
  | [] => Some []
  | l :: ls => match acl.parseRule l with
               | Ok r => rs ← parse_all ls; Some (r :: rs)
               | _ => None
               end
  end.

Lemma parseLines_useful ls : forall i rs, acl.parseLines i ls = Ok rs <-> parse_all (useful ls) = Some rs.
Proof.
  unfold useful. induction ls as [| l ls IH]; intros i rs; simpl; [naive_solver |].
  unfold rule_line at 1. destruct (bool_decide (TrimSpace l = []) || HasPrefix (TrimSpace l) (str "#")); [apply IH |].
  simpl. destruct (acl.parseRule (TrimSpace l)) as [r | e |]; simpl; [| done | done].
  specialize (IH (i + 1)). destruct (acl.parseLines (i + 1) ls) as [rs' | |] eqn:Hp.
  - rewrite (proj1 (IH rs') eq_refl). simpl. naive_solver.
  - simpl. split; [done |]. destruct (parse_all _) as [rs'' |]; [| done]. by pose proof (proj2 (IH rs'') eq_refl).
  - simpl. split; [done |]. destruct (parse_all _) as [rs'' |]; [| done]. by pose proof (proj2 (IH rs'') eq_refl).
Qed.

Lemma useful_app a b : useful (a ++ b) = useful a ++ useful b.
Proof. unfold useful. rewrite map_app. apply List.filter_app. Qed.

Lemma useful_blank : useful [[]] = [].
Proof. reflexivity. Qed.

Lemma Split_app_line s l : 10 ∉ l -> Split 10 (s ++ 10 :: l) = Split 10 s ++ [l].
Proof.
  intros Hl. induction s as [| c s IH]; simpl; [by rewrite Split_word |].
  destruct (c =? 10); [by rewrite IH |]. rewrite IH. destruct (Split 10 s) as [| f fs] eqn:He; [| done].
  by apply Split_not_nil in He.
Qed.

(** A text has a first line, and a last one. *)
Lemma first_line s : 10 ∉ s \/ exists l r, s = l ++ 10 :: r /\ 10 ∉ l.
Proof.
  induction s as [| c s [IH | (l & r & -> & Hl)]]; [left; apply not_elem_of_nil | |].
  - destruct (decide (c = 10)) as [-> | Hc]; [right; exists [], s; split; [done | apply not_elem_of_nil] |].
    left. by apply not_elem_of_cons.
  - destruct (decide (c = 10)) as [-> | Hc].
    + right. exists [], (l ++ 10 :: r). split; [done | apply not_elem_of_nil].
    + right. exists (c :: l), r. split; [done | by apply not_elem_of_cons].
Qed.

Lemma last_line s : 10 ∉ s \/ exists r l, s = r ++ 10 :: l /\ 10 ∉ l.
Proof.
  destruct (first_line (rev s)) as [H | (l & r & H & Hl)].
  - left. intros Hin. apply H. apply list_elem_of_In. rewrite <- in_rev. by apply list_elem_of_In.
  - right. exists (rev r), (rev l). split.
    + rewrite <- (rev_involutive s), H, rev_app_distr. simpl. by rewrite <- app_assoc.
    + intros Hin. apply Hl. apply list_elem_of_In. rewrite in_rev. by apply list_elem_of_In.
Qed.

Lemma useful_TrimLeft s : useful (Split 10 (TrimLeftSpace s)) = useful (Split 10 s).
Proof.
  assert (forall l, TrimSpace (TrimLeftSpace l) = TrimSpace l) as Ht.
  { intros l. unfold TrimSpace. by rewrite TrimLeft_idem. }
  assert (forall l, 10 ∉ l -> 10 ∉ TrimLeftSpace l) as Hin.
  { intros l Hl. destruct (TrimRight_prefix (rev l)) as [q Hq]. clear Hq.
    assert (exists p, l = p ++ TrimLeftSpace l) as [p Hp]; [| rewrite Hp in Hl; set_solver].
    clear. unfold TrimLeftSpace. remember (length l) as n eqn:Hn. revert l Hn.
    induction n as [n IH] using lt_wf_ind. intros [| a s] ->; [by exists [] |]. rewrite drop_spaces_eq.
    destruct (space1 a).
    { destruct (IH (length s) ltac:(simpl; lia) s eq_refl) as [p Hp]. exists (a :: p). simpl. by rewrite <- Hp. }
    destruct s as [| b s]; [by exists [] |]. destruct (space2 a b).
    { destruct (IH (length s) ltac:(simpl; lia) s eq_refl) as [p Hp]. exists (a :: b :: p). simpl. by rewrite <- Hp. }
    destruct s as [| c s]; [by exists [] |]. destruct (space3 a b c); [| by exists []].
    destruct (IH (length s) ltac:(simpl; lia) s eq_refl) as [p Hp]. exists (a :: b :: c :: p). simpl. by rewrite <- Hp. }
  remember (length s) as n eqn:Hn. revert s Hn. induction n as [n IH] using lt_wf_ind. intros s ->.
  destruct (first_line s) as [H | (l & r & -> & Hl)].
  - rewrite !Split_word by auto. unfold useful. simpl. by rewrite Ht.
  - rewrite TrimLeft_nl. destruct (TrimLeftSpace l) as [| x t] eqn:Hd.
    + rewrite (IH (length r)), Split_app; [| done | rewrite length_app; simpl; lia | done].
      unfold useful at 2. simpl. unfold TrimSpace at 1. rewrite Hd. done.
    + rewrite !Split_app; [| done | by rewrite <- Hd; apply Hin]. unfold useful. simpl. rewrite <- Hd. by rewrite Ht.
Qed.

Lemma TrimRight_idem k : TrimRightSpace (TrimRightSpace k) = TrimRightSpace k.
Proof.
  unfold TrimRightSpace. rewrite rev_involutive. f_equal.
  remember (rev k) as x eqn:Hx. clear. remember (length x) as n eqn:Hn. revert x Hn.
  induction n as [n IH] using lt_wf_ind. intros [| a s] Hn; [done |]. rewrite (drop_spaces_eq _ _ a s).
  destruct (space1 a) eqn:Ha; [exact (IH (length s) ltac:(subst; simpl; lia) s eq_refl) |].
  destruct s as [| b s]; [by rewrite drop_spaces_eq, Ha |].
  destruct (space2 b a) eqn:Hb; [exact (IH (length s) ltac:(subst; simpl; lia) s eq_refl) |].
  destruct s as [| c s]; [by rewrite drop_spaces_eq, Ha, Hb |].
  destruct (space3 c b a) eqn:Hc; [exact (IH (length s) ltac:(subst; simpl; lia) s eq_refl) |].
  by rewrite drop_spaces_eq, Ha, Hb, Hc.
Qed.

Lemma useful_TrimRight s : useful (Split 10 (TrimRightSpace s)) = useful (Split 10 s).
Proof.
  assert (forall l, TrimSpace (TrimRightSpace l) = TrimSpace l) as Ht.
  { intros l. unfold TrimSpace. rewrite <- !Trim_comm. by rewrite TrimRight_idem. }
  remember (length s) as n eqn:Hn. revert s Hn. induction n as [n IH] using lt_wf_ind. intros s ->.
  assert (forall l, 10 ∉ l -> 10 ∉ TrimRightSpace l) as Hin.
  { intros l Hl. destruct (TrimRight_prefix l) as [q Hq]. rewrite Hq in Hl. set_solver. }
  destruct (last_line s) as [H | (r & l & -> & Hl)].
  - rewrite !Split_word by auto. unfold useful. simpl. by rewrite Ht.
  - rewrite TrimRight_sp by done. destruct (TrimRightSpace l) as [| x t] eqn:Hd.
    + rewrite (IH (length r)), Split_app_line, useful_app; [| done | rewrite length_app; simpl; lia | done].
      replace (useful [l]) with (@nil bytes); [by rewrite app_nil_r |].
      unfold useful. simpl. rewrite <- Ht, Hd. done.
    + rewrite !Split_app_line, !useful_app; [| done | by rewrite <- Hd; apply Hin]. f_equal.
      unfold useful. simpl. rewrite <- Hd. by rewrite Ht.
Qed.

(** A line and the same line with a CR at its end. *)
Definition cr_of (a b : bytes) : Prop := a = b \/ a = b ++ [13].

Lemma unix_lines_Split s : Forall2 cr_of (Split 10 s) (Split 10 (unix_lines s)).
Proof.
  assert (forall c r, Forall2 cr_of (Split 10 r) (Split 10 (unix_lines r)) ->
    Forall2 cr_of (Split 10 (c :: r)) (Split 10 (c :: unix_lines r))) as Hc.
  { intros c r H. simpl. destruct (c =? 10); [constructor; [by left | done] |].
    destruct H as [| a b fs gs Hab Hf]; [by repeat constructor |].
    constructor; [| done]. destruct Hab as [-> | ->]; [by left | by right]. }
  remember (length s) as n eqn:Hn. revert s Hn. induction n as [n IH] using lt_wf_ind. intros [| c s] ->; [by repeat constructor |].
  cbn [unix_lines]. destruct (Z.eqb_spec c 13) as [-> | _]; [| apply Hc, (IH (length s)); simpl; [lia | done]].
  destruct s as [| d s]; [by repeat constructor |]. destruct (Z.eqb_spec d 10) as [-> | _].
  - change (Split 10 (13 :: 10 :: s)) with ([13] :: Split 10 s). change (Split 10 (10 :: unix_lines s)) with ([] :: Split 10 (unix_lines s)).
    constructor; [by right | apply (IH (length s)); simpl; [lia | done]].
  - apply Hc, (IH (length (d :: s))); simpl; [lia | done].
Qed.

Lemma TrimSpace_cr l : TrimSpace (l ++ [13]) = TrimSpace l.
Proof. unfold TrimSpace. rewrite <- !Trim_comm. by rewrite TrimRight_sp. Qed.

Lemma useful_unix s : useful (Split 10 (unix_lines s)) = useful (Split 10 s).
Proof.
  unfold useful. f_equal. induction (unix_lines_Split s) as [| a b fs gs Hab _ IH]; simpl; [done |].
  f_equal; [| exact IH]. destruct Hab as [-> | ->]; [done | by rewrite TrimSpace_cr].
Qed.

Lemma parse_all_length ls rs : parse_all ls = Some rs -> length rs = length ls.
Proof.
  revert rs. induction ls as [| l ls IH]; intros rs; simpl; [by intros [= <-] |].
  destruct (acl.parseRule l) as [r | |]; [| done | done]. intros (rs' & Hrs & [= <-])%bind_Some. simpl. f_equal. by apply IH.
Qed.

Lemma Parse_useful s rs : acl.Parse s = Ok rs <-> parse_all (useful (Split 10 s)) = Some rs /\ zlen rs <= 500.
Proof.
  unfold acl.Parse. rewrite bind_ok. setoid_rewrite parseLines_useful. split.
  - intros (rs' & H & Hl). destruct (Z.ltb_spec 500 (zlen rs')); [done |]. injection Hl as <-. split; [done | lia].
  - intros [H Hl]. exists rs. split; [done |]. destruct (Z.ltb_spec 500 (zlen rs)); [lia | done].
Qed.

(** The rules of a text are those of the text as it is kept. *)
Lemma Parse_kept text rules : acl.Parse text = Ok rules ->
  acl.Parse (TrimSpace (unix_lines text) ++ [10]) = Ok rules.
Proof.
  rewrite !Parse_useful. intros [H Hl]. split; [| done].
  rewrite (Split_app_line (TrimSpace (unix_lines text)) []) by apply not_elem_of_nil.
  rewrite useful_app, useful_blank, app_nil_r. unfold TrimSpace.
  by rewrite useful_TrimRight, useful_TrimLeft, useful_unix.
Qed.

Lemma Parse_empty : acl.Parse [] = Ok [].
Proof. reflexivity. Qed.

(** ** The parser never panics *)

Lemma map_err_panic {E F A} (f : E -> F) (m : res E A) : map_err f m = Panic -> m = Panic.
Proof. by destruct m. Qed.

Lemma checkSels_no_panic l to : acl.checkSels l to <> Panic.
Proof.
  induction l as [| s l IH]; cbn [acl.checkSels]; [done |]. intros [H | (? & _ & H)]%bind_panic; [| done].
  unfold acl.checkSel, guard_err in H. by repeat case_match.
Qed.

Lemma parsePortList_no_panic l : acl.parsePortList l <> Panic.
Proof.
  induction l as [| s l IH]; cbn [acl.parsePortList]; [done |].
  intros [H | (? & _ & [H | (? & _ & H)]%bind_panic)]%bind_panic; [| done | done].
  unfold acl.parsePorts, acl.parseRange in H. by repeat case_match.
Qed.

Lemma rules_no_panic text : acl.Parse text <> Panic.
Proof.
  assert (forall ls i, acl.parseLines i ls <> Panic) as Hl.
  { induction ls as [| l ls IH]; intros i; cbn [acl.parseLines]; [done |]. destruct (_ || _); [done |].
    intros [H%map_err_panic | (? & _ & [H | (? & _ & H)]%bind_panic)]%bind_panic; [| by apply IH in H | done].
    unfold acl.parseRule in H. destruct (Fields _) as [| f0 [| f1 [| f2 [| f3 f4]]]]; try done. destruct (_ && _); [| done].
    apply bind_panic in H as [H | (? & _ & [H | (? & _ & [H | (? & _ & H)]%bind_panic)]%bind_panic)];
      [by apply checkSels_no_panic in H | by apply checkSels_no_panic in H | by apply parsePortList_no_panic in H | done]. }
  intros [H | (? & _ & H)]%bind_panic; [by apply Hl in H | by destruct (500 <? _)].
Qed.
