(* ===== verification/Pki.v ===== *)
(** Signed room configurations and signed node requests (internal/pki/pki.go).

    The JSON form of a configuration ([encoding/json], driven by the struct
    tags) is a parameter: [Json] is the pair of [Marshal] and [Unmarshal] at
    type [RoomConfig]; a theorem that needs a document to come back says so. *)
From stdpp Require Import base list gmap strings.
From Stdlib Require Import ZArith Lia.
From S2P Require Import Prelude GoStrings GoText Netip Acl Encoding Crypto Obfs Identity.

Open Scope Z_scope.

Module pki.

Definition roomConfigDomain : bytes := str "zeropentime/room-config/v1" ++ [10].
Definition requestDomain : bytes := str "zeropentime/node-request/v1" ++ [10].
Definition RequestSkew : Z := 5 * Minute.
Definition HeaderNode : bytes := str "X-Zpt-Node".
Definition HeaderTime : bytes := str "X-Zpt-Time".
Definition HeaderSig : bytes := str "X-Zpt-Sig".

Record Member := MkMember {
  NodeID : bytes; Name : bytes; WGKey : bytes; IP : Addr; Tags : list bytes;
  Routes : list Prefix; Exit : bool; ExitDNS : bool; Admin : bool }.

Record RoomConfig := MkRoomConfig {
  RoomID : bytes; RoomName : bytes; Subnet : Prefix; Secret : bytes; Version : Z; IssuedAt : Z;
  Members : list Member; Broadcast : bytes; DNS : list Addr; ACL : list acl.Rule; DHT : bool }.

Record Signed := MkSigned { Payload : bytes; Sig : bytes }.

Class Json := { Marshal : RoomConfig -> option bytes; Unmarshal : bytes -> option RoomConfig }.

Inductive error : Type :=
  | EBadKey | EBadSignature | EJson | ESecret | ENoSubnet
  | EMemberIP (node : bytes) (ip : Addr) | EMemberRoute (node : bytes) (p : Prefix)
  | ETooManyDNS | EInvalidDNS (a : Addr)
  | ENodeKey | ETimestamp | ESkew | ERequestSignature | ESealed.

(** ** ed25519.PrivateKey: the seed and the public key *)

Definition PrivateKeySize : Z := 64.
Definition PublicKeySize : Z := 32.

(** ** Validity of a configuration *)

Definition MaxDNS : Z := 3.

Definition ValidDNS (a : Addr) : bool :=
  IsValid a && bool_decide (Zone a = []) && negb (IsUnspecified a) && negb (IsMulticast a)
  && negb (IsLinkLocalMulticast a).

Definition ValidRoute (p : Prefix) : bool :=
  let a := pfx_ip p in
  PrefixIsValid p && Is4 a && bool_decide (p = Masked p) && (8 <=? pfx_bits p)
  && negb (IsLoopback a) && negb (IsLinkLocalUnicast a) && negb (IsMulticast a) && negb (IsUnspecified a).

Fixpoint check_routes (node : bytes) (subnet : Prefix) (rs : list Prefix) : res error unit :=
  match rs with
  | [] => Ok tt
  | r :: rs =>
    if negb (ValidRoute r) || Overlaps r subnet then Err (EMemberRoute node r)
    else check_routes node subnet rs
  end.

(** The loop over the members; [seen] holds the addresses so far. *)
Fixpoint check_members (subnet : Prefix) (seen : list Addr) (ms : list Member) : res error unit :=
  match ms with
  | [] => Ok tt
  | m :: ms =>
    if negb (Contains subnet (IP m)) || bool_decide (IP m ∈ seen) then Err (EMemberIP (NodeID m) (IP m))
    else
      _ ← check_routes (NodeID m) subnet (Routes m);
      check_members subnet (IP m :: seen) ms
  end.

Fixpoint check_dns (l : list Addr) : res error unit :=
  match l with
  | [] => Ok tt
  | a :: l => if ValidDNS a then check_dns l else Err (EInvalidDNS a)
  end.

Section Crypto.
Context `{CR : Crypto} `{J : Json}.

(** [ed25519.NewKeyFromSeed]. *)
Definition NewKeyFromSeed (seed : bytes) : bytes := seed ++ ed_public seed.

(** [priv.Public()]: slicing a shorter key panics. *)
Definition PrivateKey_Public {E} (priv : bytes) : res E bytes :=
  if zlen priv <? 32 then Panic else Ok (copy_into (zeros 32) (take 32 (drop 32 priv))).

(** [ed25519.Sign] panics on a key of another length. *)
Definition ed25519_Sign {E} (priv msg : bytes) : res E bytes :=
  if zlen priv =? PrivateKeySize then Ok (ed_sign (take 32 priv) msg) else Panic.

Definition SignRoomConfig (priv : bytes) (c : RoomConfig) : res error Signed :=
  match Marshal c with
  | None => Err EJson
  | Some payload => sig ← ed25519_Sign priv (roomConfigDomain ++ payload); Ok (MkSigned payload sig)
  end.

(** The checks after the signature. *)
Definition check_config (c : RoomConfig) : res error unit :=
  if negb (bool_decide (obfs.RoomID (Secret c) = RoomID c)) then Err ESecret
  else if negb (PrefixIsValid (Subnet c)) then Err ENoSubnet
  else
    _ ← check_members (Subnet c) [] (Members c);
    if MaxDNS <? zlen (DNS c) then Err ETooManyDNS
    else check_dns (DNS c).

Definition VerifyRoomConfig (pub : bytes) (s : Signed) : res error RoomConfig :=
  if negb (zlen pub =? PublicKeySize) then Err EBadKey
  else if negb (ed_verify pub (roomConfigDomain ++ Payload s) (Sig s)) then Err EBadSignature
  else match Unmarshal (Payload s) with
       | None => Err EJson
       | Some c => _ ← check_config c; Ok c
       end.

(** ** Room keys in invite links *)

Definition RoomKeyString (pub : bytes) : bytes := encode64url pub.

Definition ParseRoomKey (s : bytes) : res error bytes :=
  match rawurl_decode s with
  | Some b => if zlen b =? PublicKeySize then Ok b else Err EBadKey
  | None => Err EBadKey
  end.

(** ** Signed requests *)

Definition requestMessage (method path : bytes) (ts : Z) (body : bytes) : bytes :=
  requestDomain ++ method ++ [10] ++ path ++ [10] ++ Itoa ts ++ [10] ++ sha256 body.

(** [time.Unix] of a time in nanoseconds. *)
Definition Unix (t : Z) : Z := t / Second.

(** The node's seed signs; the headers in the order of the literal. *)
Definition RequestHeaders (seed method path body : bytes) (now : Z) : list (bytes * bytes) :=
  let ts := Unix now in
  [(HeaderNode, encode64 (identity.PublicKey seed));
   (HeaderTime, Itoa ts);
   (HeaderSig, encode64 (identity.Sign seed (requestMessage method path ts body)))].

Definition VerifyRequest (get : bytes -> bytes) (method path body : bytes) (now : Z) : res error bytes :=
  match base64_decode (get HeaderNode) with
  | None => Err ENodeKey
  | Some pub =>
    if negb (zlen pub =? PublicKeySize) then Err ENodeKey
    else match ParseInt (get HeaderTime) with
    | None => Err ETimestamp
    | Some ts =>
      let d := time_sub now (ts * Second) in
      if (RequestSkew <? d) || (d <? - RequestSkew) then Err ESkew
      else match base64_decode (get HeaderSig) with
      | None => Err ERequestSignature
      | Some sig =>
        if negb (ed_verify pub (requestMessage method path ts body) sig) then Err ERequestSignature
        else Ok pub
      end
    end
  end.

(** ** Sealed responses *)

Definition Seal (msg to rnd : bytes) : bytes := anon_seal msg to rnd.

Definition Open (sealed priv pub : bytes) : res error bytes :=
  match anon_open sealed pub priv with Some m => Ok m | None => Err ESealed end.

End Crypto.

(** The value of a header; empty when it is missing. *)
Definition header_get (hs : list (bytes * bytes)) (k : bytes) : bytes :=
  match list_find (fun h => fst h = k) hs with Some (_, h) => snd h | None => [] end.

(** ** Lemmas *)

(** A configuration that is consistent. *)
Record config_ok `{CR : Crypto} (c : RoomConfig) : Prop := {
  k_secret : obfs.RoomID (Secret c) = RoomID c;
  k_subnet : PrefixIsValid (Subnet c) = true;
  k_ips : NoDup (map IP (Members c));
  k_inside : Forall (fun m => Contains (Subnet c) (IP m) = true) (Members c);
  k_routes : Forall (fun m => Forall (fun r => ValidRoute r = true /\ Overlaps r (Subnet c) = false) (Routes m)) (Members c);
  k_dns_len : zlen (DNS c) <= MaxDNS;
  k_dns : Forall (fun a => ValidDNS a = true) (DNS c) }.

Lemma check_routes_spec node subnet rs : check_routes node subnet rs = Ok tt <->
  Forall (fun r => ValidRoute r = true /\ Overlaps r subnet = false) rs.
Proof.
  induction rs as [| r rs IH]; simpl; [by split |]. rewrite Forall_cons, <- IH.
  destruct (ValidRoute r), (Overlaps r subnet); simpl; naive_solver.
Qed.

Lemma check_members_spec subnet ms : forall seen, check_members subnet seen ms = Ok tt <->
  Forall (fun m => Contains subnet (IP m) = true /\ IP m ∉ seen) ms /\ NoDup (map IP ms)
  /\ Forall (fun m => Forall (fun r => ValidRoute r = true /\ Overlaps r subnet = false) (Routes m)) ms.
Proof.
  induction ms as [| m ms IH]; intros seen; simpl.
  { split; [intros _; repeat split; constructor | done]. }
  rewrite !Forall_cons, NoDup_cons.
  destruct (Contains subnet (IP m)) eqn:Hc; simpl; [| naive_solver].
  case_bool_decide as Hs; [naive_solver |].
  destruct (check_routes _ _ (Routes m)) as [[] | e |] eqn:Hr; cbn [mbind res_bind].
  - apply check_routes_spec in Hr. rewrite IH.
    assert (Forall (fun m0 => Contains subnet (IP m0) = true /\ IP m0 ∉ IP m :: seen) ms <->
      Forall (fun m0 => Contains subnet (IP m0) = true /\ IP m0 ∉ seen) ms /\ IP m ∉ map IP ms) as ->; [| naive_solver].
    rewrite list_elem_of_fmap, !Forall_forall. setoid_rewrite not_elem_of_cons. naive_solver.
  - split; [done |]. intros (_ & _ & Hf & _). apply (check_routes_spec (NodeID m)) in Hf. congruence.
  - split; [done |]. intros (_ & _ & Hf & _). apply (check_routes_spec (NodeID m)) in Hf. congruence.
Qed.

Lemma check_dns_spec l : check_dns l = Ok tt <-> Forall (fun a => ValidDNS a = true) l.
Proof.
  induction l as [| a l IH]; simpl; [by split |]. rewrite Forall_cons, <- IH.
  destruct (ValidDNS a); naive_solver.
Qed.

Lemma check_config_spec `{CR : Crypto} c : check_config c = Ok tt <-> config_ok c.
Proof.
  unfold check_config. split.
  - intros H. case_bool_decide as Hs; [| done]. cbn [negb] in H.
    destruct (PrefixIsValid (Subnet c)) eqn:Hv; [| done]. cbn [negb] in H.
    apply bind_ok in H as ([] & Hm & H). apply check_members_spec in Hm as (Hin & Hnd & Hr).
    destruct (Z.ltb_spec MaxDNS (zlen (DNS c))) as [| Hl]; [done |]. apply check_dns_spec in H.
    split; try done. eapply Forall_impl; [exact Hin |]. by intros m [? _].
  - intros [H1 H2 H3 H4 H5 H6 H7]. rewrite bool_decide_eq_true_2, H2 by done. cbn [negb].
    rewrite (proj2 (check_members_spec (Subnet c) (Members c) [])).
    2: { split; [| done]. eapply Forall_impl; [exact H4 |]. intros m Hm. split; [done | apply not_elem_of_nil]. }
    cbn [mbind res_bind]. destruct (Z.ltb_spec MaxDNS (zlen (DNS c))); [lia |]. by apply check_dns_spec.
Qed.

Lemma check_no_panic `{CR : Crypto} c : check_config c <> Panic.
Proof.
  unfold check_config. case_bool_decide; [| done]. destruct (PrefixIsValid _); [| done]. cbn [negb].
  assert (forall n s rs, check_routes n s rs <> Panic) as Hr.
  { intros n s rs. induction rs as [| r rs IH]; simpl; [done |]. by destruct (_ || _). }
  assert (forall ms seen, check_members (Subnet c) seen ms <> Panic) as Hm.
  { induction ms as [| m ms IH]; intros seen; simpl; [done |]. destruct (_ || _); [done |].
    intros [He | (? & _ & He)]%bind_panic; [by apply Hr in He | by apply IH in He]. }
  assert (forall l, check_dns l <> Panic) as Hd.
  { induction l as [| a l IH]; simpl; [done |]. by destruct (ValidDNS a). }
  intros [He | (? & _ & He)]%bind_panic; [by apply Hm in He |].
  destruct (MaxDNS <? _); [done | by apply Hd in He].
Qed.

Lemma NewKeyFromSeed_spec `{CL : CryptoLaws} {E} seed : length seed = 32%nat ->
  PrivateKey_Public (E := E) (NewKeyFromSeed seed) = Ok (ed_public seed)
  /\ forall msg, ed25519_Sign (E := E) (NewKeyFromSeed seed) msg = Ok (ed_sign seed msg).
Proof.
  intros Hl. unfold PrivateKey_Public, ed25519_Sign, NewKeyFromSeed, PrivateKeySize.
  pose proof (length_ed_public seed Hl) as Hp.
  assert (zlen (seed ++ ed_public seed) = 64) as -> by (unfold zlen; rewrite length_app; lia).
  cbn [Z.ltb Z.eqb Z.compare Pos.compare Pos.compare_cont Pos.eqb]. split.
  - rewrite drop_app_length', take_ge by lia. f_equal.
    apply copy_into_full. by rewrite Hp.
  - intros msg. by rewrite take_app_length'.
Qed.

(** A signed configuration carries the document, and is accepted when it is
    consistent. *)
Lemma SignRoomConfig_spec `{CL : CryptoLaws} `{J : Json} (seed payload : bytes) (c : RoomConfig) :
  length seed = 32%nat -> Marshal c = Some payload ->
  exists s, SignRoomConfig (NewKeyFromSeed seed) c = Ok s /\ Payload s = payload /\
    (Unmarshal payload = Some c -> VerifyRoomConfig (ed_public seed) s = Ok c <-> config_ok c).
Proof.
  intros Hl Hm. destruct (NewKeyFromSeed_spec (E := error) seed Hl) as [_ Hs].
  unfold SignRoomConfig. rewrite Hm, Hs. eexists. split; [reflexivity |]. split; [reflexivity |]. intros Hu.
  unfold VerifyRoomConfig. cbn [Payload Sig]. unfold zlen, PublicKeySize. rewrite length_ed_public by done.
  rewrite ed_verify_sign, Hu, <- check_config_spec. cbn [negb Z.of_nat Z.eqb Pos.of_succ_nat].
  change (32 =? 32) with true. cbn [negb].
  destruct (check_config c) as [[] | |]; cbn [mbind res_bind]; naive_solver.
Qed.

(** What is accepted. *)
Lemma VerifyRoomConfig_iff `{CR : Crypto} `{J : Json} (pub : bytes) (s : Signed) c : VerifyRoomConfig pub s = Ok c <->
    zlen pub = PublicKeySize /\ ed_verify pub (roomConfigDomain ++ Payload s) (Sig s) = true
    /\ Unmarshal (Payload s) = Some c /\ config_ok c.
Proof.
  unfold VerifyRoomConfig. destruct (Z.eqb_spec (zlen pub) PublicKeySize) as [Hl |]; [| naive_solver]. cbn [negb].
  destruct (ed_verify _ _ _); [| naive_solver]. cbn [negb].
  destruct (Unmarshal _) as [c' |]; [| naive_solver]. rewrite bind_ok. setoid_rewrite <- check_config_spec. split.
  - by intros ([] & ? & [= ->]).
  - intros (_ & _ & [= ->] & ?). by exists tt.
Qed.

Lemma Verify_no_panic `{CR : Crypto} `{J : Json} (pub : bytes) (s : Signed) : VerifyRoomConfig pub s <> Panic.
Proof.
  unfold VerifyRoomConfig. destruct (_ =? _); [| done]. destruct (ed_verify _ _ _); [| done]. cbn [negb].
  destruct (Unmarshal _) as [c |]; [| done]. intros [H | (? & _ & H)]%bind_panic; [by apply check_no_panic in H | done].
Qed.

(** ** Properties *)

(** C25: a node accepts exactly the documents whose signature verifies under the
    pinned room key and whose configuration is consistent: the secret is the
    room's, members have distinct addresses inside the subnet, their routes are
    valid and outside it, at most three valid DNS servers. *)
Theorem VerifyRoomConfig_spec `{CR : Crypto} `{J : Json} (pub : bytes) (s : Signed) :
  VerifyRoomConfig pub s <> Panic /\
  forall c, VerifyRoomConfig pub s = Ok c <->
    zlen pub = PublicKeySize /\ ed_verify pub (roomConfigDomain ++ Payload s) (Sig s) = true
    /\ Unmarshal (Payload s) = Some c /\ config_ok c.
Proof.
  split.
  - apply Verify_no_panic.
  - apply VerifyRoomConfig_iff.
Qed.

(** a configuration signed with a room's key verifies under the room's
    public key, and comes back the same, exactly when it is consistent. *)
Theorem Verify_Sign `{CL : CryptoLaws} `{J : Json} (seed payload : bytes) (c : RoomConfig) :
  length seed = 32%nat -> Marshal c = Some payload -> Unmarshal payload = Some c ->
  exists s, SignRoomConfig (NewKeyFromSeed seed) c = Ok s /\
    (VerifyRoomConfig (ed_public seed) s = Ok c <-> config_ok c).
Proof.
  intros Hl Hm Hu. destruct (SignRoomConfig_spec seed payload c Hl Hm) as (s & Hs & _ & Hv). exists s. auto.
Qed.

(** the message a request signature covers determines the method, the path,
    the time and the digest of the body. *)
Theorem requestMessage_inj `{CL : CryptoLaws} m m' p p' ts ts' body body' :
  10 ∉ m -> 10 ∉ m' -> - 2 ^ 63 <= ts < 2 ^ 63 -> - 2 ^ 63 <= ts' < 2 ^ 63 ->
  requestMessage m p ts body = requestMessage m' p' ts' body' ->
  m = m' /\ p = p' /\ ts = ts' /\ sha256 body = sha256 body'.
Proof.
  intros Hm Hm' Ht Ht'. unfold requestMessage. intros H%app_inv_head.
  assert (forall n, 10 ∉ Itoa n) as Hi.
  { intros n. unfold Itoa. destruct (Z.ltb_spec n 0).
    - rewrite not_elem_of_cons. split; [done |]. apply Utoa_not_in; [lia | done].
    - apply Utoa_not_in; [lia | done]. }
  assert (forall a b x y : bytes, 10 ∉ a -> 10 ∉ b -> a ++ 10 :: x = b ++ 10 :: y -> a = b /\ x = y) as Hcut.
  { clear. intros a b x y Ha Hb. revert b Hb. induction a as [| c a IH]; intros [| d b] Hb; simpl.
    - by intros [= ->].
    - intros [= <- _]. by destruct Hb; constructor.
    - intros [= -> _]. by destruct Ha; constructor.
    - intros [= -> Heq]. apply not_elem_of_cons in Ha as [_ Ha], Hb as [_ Hb].
      destruct (IH Ha b Hb Heq) as [-> ->]. done. }
  simpl app in H. destruct (Hcut _ _ _ _ Hm Hm' H) as [-> Hp]. clear H. split; [done |].
  assert (p ++ 10 :: Itoa ts ++ [10] = p' ++ 10 :: Itoa ts' ++ [10] /\ sha256 body = sha256 body') as [Hq ->].
  { apply app_inj_2; [by rewrite !length_sha256 |]. rewrite <- !app_assoc. simpl. rewrite <- !app_assoc. exact Hp. }
  assert (rev (Itoa ts) ++ 10 :: rev p = rev (Itoa ts') ++ 10 :: rev p') as Hr.
  { apply (f_equal (@rev Z)) in Hq. rewrite !rev_app_distr in Hq. simpl in Hq. rewrite !rev_app_distr in Hq.
    simpl in Hq. injection Hq as Hq. rewrite <- !app_assoc in Hq. exact Hq. }
  assert (forall n, 10 ∉ rev (Itoa n)) as Hir.
  { intros n Hin. apply (Hi n). apply list_elem_of_In. apply in_rev. by apply list_elem_of_In. }
  destruct (Hcut _ _ _ _ (Hir ts) (Hir ts') Hr) as [Hts Hrp].
  split; [by rewrite <- (rev_involutive p), Hrp, rev_involutive |]. split; [| done].
  assert (Itoa ts = Itoa ts') as He by (by rewrite <- (rev_involutive (Itoa ts)), Hts, rev_involutive).
  pose proof (ParseInt_Itoa ts Ht) as Hpi. rewrite He, ParseInt_Itoa in Hpi by done. congruence.
Qed.

Lemma skew_test now ts : (RequestSkew <? time_sub now (ts * Second)) || (time_sub now (ts * Second) <? - RequestSkew) = false
  <-> Z.abs (now - ts * Second) <= RequestSkew.
Proof.
  assert (RequestSkew = 300000000000) as Hs by reflexivity.
  rewrite orb_false_iff, !Z.ltb_ge. rewrite Hs. unfold time_sub. lia.
Qed.

(** a request is accepted exactly when its headers carry a 32-byte key, a
    time within five minutes of the server's, and a signature of that key over
    this method, path, time and body. *)
Theorem VerifyRequest_spec `{CR : Crypto} get method path body now pub :
  VerifyRequest get method path body now = Ok pub <->
  exists ts sig, base64_decode (get HeaderNode) = Some pub /\ zlen pub = PublicKeySize
    /\ ParseInt (get HeaderTime) = Some ts /\ Z.abs (now - ts * Second) <= RequestSkew
    /\ base64_decode (get HeaderSig) = Some sig /\ ed_verify pub (requestMessage method path ts body) sig = true.
Proof.
  unfold VerifyRequest. destruct (base64_decode (get HeaderNode)) as [k |]; [| naive_solver].
  destruct (Z.eqb_spec (zlen k) PublicKeySize) as [Hl |]; cbn [negb]; [| naive_solver].
  destruct (ParseInt _) as [ts |]; [| naive_solver].
  pose proof (skew_test now ts) as Hs. destruct (_ || _).
  { split; [done |]. intros (ts' & sig & _ & _ & [= <-] & Ha & _). by apply Hs in Ha. }
  destruct (base64_decode (get HeaderSig)) as [sig |]; [| naive_solver].
  destruct (ed_verify _ _ _) eqn:Hv; cbn [negb].
  - split.
    + intros [= <-]. exists ts, sig. repeat split; try done. by apply Hs.
    + by intros (ts' & sig' & [= <-] & _).
  - split; [done |]. intros (ts' & sig' & [= <-] & _ & [= <-] & _ & [= <-] & Hx). congruence.
Qed.

(** the server accepts what a node signs for the same method, path and
    body, as the node's key, while the clocks are at most five minutes apart,
    and refuses it as skewed otherwise. *)
Theorem VerifyRequest_RequestHeaders `{CL : CryptoLaws} seed method path body t now :
  length seed = 32%nat -> bytes_ok seed -> - 2 ^ 63 <= Unix t < 2 ^ 63 ->
  VerifyRequest (header_get (RequestHeaders seed method path body t)) method path body now
  = if decide (Z.abs (now - Unix t * Second) <= RequestSkew) then Ok (identity.PublicKey seed) else Err ESkew.
Proof.
  intros Hl Hb Ht. set (hs := RequestHeaders seed method path body t).
  assert (header_get hs HeaderNode = encode64 (identity.PublicKey seed)) as Hn by reflexivity.
  assert (header_get hs HeaderTime = Itoa (Unix t)) as Htm by reflexivity.
  assert (header_get hs HeaderSig = encode64 (identity.Sign seed (requestMessage method path (Unix t) body))) as Hsg by reflexivity.
  unfold VerifyRequest. rewrite Hn, Htm, Hsg. unfold identity.PublicKey, identity.Sign.
  rewrite !base64_roundtrip by eauto using ed_public_ok, ed_sign_ok.
  unfold zlen, PublicKeySize. rewrite length_ed_public by done. change (Z.of_nat 32 =? 32) with true. cbn [negb].
  rewrite ParseInt_Itoa by done. pose proof (skew_test now (Unix t)) as Hs.
  case_decide as Hd; [apply Hs in Hd; by rewrite Hd, ed_verify_sign |].
  destruct (_ || _); [done |]. by destruct Hd; apply Hs.
Qed.

(** a room key in an invite link parses back to the key. *)
Theorem ParseRoomKey_RoomKeyString pub : bytes_ok pub -> zlen pub = PublicKeySize ->
  ParseRoomKey (RoomKeyString pub) = Ok pub.
Proof. intros Hb Hl. unfold ParseRoomKey, RoomKeyString. rewrite rawurl_roundtrip by done. by rewrite Hl. Qed.

(** ** Witnesses *)

Definition exSecret : bytes := zeros 32.
Definition exConfig : RoomConfig :=
  MkRoomConfig (obfs.RoomID (CR := toy) exSecret) [] (MkPrefix (Addr4 (10 * 2 ^ 24)) 24) exSecret 1 0
    [MkMember [1] [2] (zeros 32) (Addr4 (10 * 2 ^ 24 + 1)) [] [MkPrefix (Addr4 (192 * 2 ^ 24 + 168 * 2 ^ 16)) 24] false false false;
     MkMember [3] [4] (zeros 32) (Addr4 (10 * 2 ^ 24 + 2)) [] [] true false false]
    [] [Addr4 (8 * 2 ^ 24)] [] false.

(** A JSON that carries this one document. *)
#[local] Instance exJson : Json :=
  {| Marshal := fun _ => Some []; Unmarshal := fun _ => Some exConfig |}.

Lemma Verify_Sign_witness : exists s, SignRoomConfig (CR := toy) (NewKeyFromSeed (zeros 32)) exConfig = Ok s /\
  (VerifyRoomConfig (ed_public (zeros 32)) s = Ok exConfig <-> config_ok exConfig).
Proof. apply (Verify_Sign (C := toy) (zeros 32) [] exConfig); reflexivity. Defined.

Lemma requestMessage_inj_witness : exists ts', 5 = ts'.
Proof.
  exists 5. destruct (requestMessage_inj (C := toy) [1] [1] [2] [2] 5 5 [] []) as (_ & _ & H & _);
    [by rewrite list_elem_of_singleton | by rewrite list_elem_of_singleton | lia | lia | reflexivity | exact H].
Defined.

Lemma VerifyRequest_RequestHeaders_witness :
  VerifyRequest (CR := toy) (header_get (RequestHeaders (CR := toy) (zeros 32) [1] [2] [3] (7 * Second))) [1] [2] [3] (9 * Second)
  = Ok (identity.PublicKey (CR := toy) (zeros 32)).
Proof.
  transitivity (if decide (Z.abs (9 * Second - Unix (7 * Second) * Second) <= RequestSkew)
    then Ok (E := error) (identity.PublicKey (CR := toy) (zeros 32)) else Err ESkew); [| reflexivity].
  apply (VerifyRequest_RequestHeaders (C := toy)); [reflexivity | | vm_compute; split; [discriminate | reflexivity]].
  apply (bool_decide_unpack (Forall (fun b => 0 <= b < 256) _)). vm_compute. exact I.
Defined.

Lemma ParseRoomKey_RoomKeyString_witness : ParseRoomKey (RoomKeyString (zeros 31 ++ [251])) = Ok (zeros 31 ++ [251]).
Proof.
  apply ParseRoomKey_RoomKeyString; [| reflexivity].
  apply (bool_decide_unpack (Forall (fun b => 0 <= b < 256) _)). vm_compute. exact I.
Defined.

End pki.
