(* ===== verification/Store.v ===== *)
(** The controller's database (internal/store/store.go, kek.go, schema.sql).

    A table is the list of its rows in rowid order; the declarations of the
    schema (keys, UNIQUE, foreign keys with their actions) are the checks and
    deletions of the operations that could violate them. A transaction is a
    function of the database that returns its result and the new database; an
    error drops the changes, which is [Rollback]. Columns hold the values the
    code reads back from them: it writes addresses, prefixes and lists as the
    text that [netip] and [encoding/json] parse back to the same value.
    [now] is [time.Now().Unix()]; the nonces of sealed values are arguments. *)
From stdpp Require Import base list gmap strings.
From Stdlib Require Import ZArith Lia.
From S2P Require Import Prelude GoStrings Netip.

Open Scope Z_scope.

(** The AEAD of the key encryption key (golang.org/x/crypto/chacha20poly1305):
    key, nonce, text. *)
Class Aead := {
  aead_seal : bytes -> bytes -> bytes -> bytes;
  aead_open : bytes -> bytes -> bytes -> option bytes }.

Class AeadLaws (A : Aead) := {
  aead_open_seal k n m : aead_open k n (aead_seal k n m) = Some m }.

Module store.

Inductive error : Type := ErrNotFound | ErrNeedKEK | EDamaged | EWrongKEK | EConstraint.

(** ** Rows *)

Record User := MkUser {
  u_ID : Z; Login : bytes; PassHash : bytes; IsAdmin : bool; u_Created : Z; u_TOTP : bool }.
Record user_row := MkUserRow {
  u_user : User; totp_secret : option bytes; totp_step : Z; oidc_email : bytes }.

Record Session := MkSession { s_token : bytes; s_UserID : Z; CSRF : bytes; s_Expires : Z }.

Record Node := MkNode {
  n_ID : bytes; EdKey : bytes; BoxKey : bytes; n_Name : bytes; PublicIP : Addr; UDPPort : Z;
  Locals : list AddrPort; n_Version : bytes; LastSeen : Z; n_CreatedAt : Z;
  NAT : bytes; Reflexive : list AddrPort; PortMap : AddrPort; n_DiscoKey : bytes; Relay : bytes;
  n_Routes : list Prefix; n_Exit : bool; n_ExitDNS : bool }.

Record Reach := MkReach {
  h_PublicIP : Addr; h_UDPPort : Z; h_Locals : list AddrPort; h_Reflexive : list AddrPort;
  h_NAT : bytes; h_PortMap : AddrPort; h_DiscoKey : bytes; h_Relay : bytes;
  h_Routes : list Prefix; h_Exit : bool; h_ExitDNS : bool; h_Version : bytes }.

Record Room := MkRoom {
  r_ID : bytes; r_Name : bytes; Subnet : Prefix; Secret : bytes; SignKey : bytes;
  OwnerID : Z; JoinPolicy : bytes; Broadcast : bytes; DNS : list Addr; ACL : bytes; DHT : bool;
  r_Version : Z; r_CreatedAt : Z }.

Definition StatusPending : bytes := str "pending".
Definition StatusActive : bytes := str "active".
Definition StatusBanned : bytes := str "banned".

(** The columns of table members. *)
Record member_row := MkMemberRow {
  m_RoomID : bytes; m_NodeID : bytes; m_Name : bytes; WGKey : bytes; IP : Addr;
  Tags : list bytes; Status : bytes; m_CreatedAt : Z;
  Routes : list Prefix; Exit : bool; UseExit : bytes }.

(** A member as the code reads it: with columns of its node. *)
Record Member := MkMember {
  m_row : member_row; m_LastSeen : Z; m_PublicIP : Addr; m_Version : bytes; m_NAT : bytes;
  m_Reflexive : list AddrPort; m_PortMap : AddrPort; Offered : list Prefix;
  ExitOffered : bool; m_ExitDNS : bool }.

Record Invite := MkInvite {
  i_ID : Z; i_RoomID : bytes; TokenHash : bytes; UsesLeft : Z; i_Expires : Z;
  AutoApprove : bool; Note : bytes; CreatedBy : Z; i_CreatedAt : Z }.

Record AuditEntry := MkAudit { a_Time : Z; Actor : bytes; Action : bytes; Target : bytes; Details : list bytes }.

Record db := MkDb {
  version : Z; users : list user_row; sessions : list Session; nodes : list Node;
  rooms : list Room; members : list member_row; invites : list Invite;
  settings : list (bytes * bytes); audit : list AuditEntry }.

Definition set_version (v : Z) (d : db) : db :=
  MkDb v (users d) (sessions d) (nodes d) (rooms d) (members d) (invites d) (settings d) (audit d).
Definition set_users (t : list user_row) (d : db) : db :=
  MkDb (version d) t (sessions d) (nodes d) (rooms d) (members d) (invites d) (settings d) (audit d).
Definition set_sessions (t : list Session) (d : db) : db :=
  MkDb (version d) (users d) t (nodes d) (rooms d) (members d) (invites d) (settings d) (audit d).
Definition set_nodes (t : list Node) (d : db) : db :=
  MkDb (version d) (users d) (sessions d) t (rooms d) (members d) (invites d) (settings d) (audit d).
Definition set_rooms (t : list Room) (d : db) : db :=
  MkDb (version d) (users d) (sessions d) (nodes d) t (members d) (invites d) (settings d) (audit d).
Definition set_members (t : list member_row) (d : db) : db :=
  MkDb (version d) (users d) (sessions d) (nodes d) (rooms d) t (invites d) (settings d) (audit d).
Definition set_invites (t : list Invite) (d : db) : db :=
  MkDb (version d) (users d) (sessions d) (nodes d) (rooms d) (members d) t (settings d) (audit d).
Definition set_settings (t : list (bytes * bytes)) (d : db) : db :=
  MkDb (version d) (users d) (sessions d) (nodes d) (rooms d) (members d) (invites d) t (audit d).
Definition set_audit (t : list AuditEntry) (d : db) : db :=
  MkDb (version d) (users d) (sessions d) (nodes d) (rooms d) (members d) (invites d) (settings d) t.

(** A new database: schema.sql inserts the global version 1. *)
Definition empty_db : db := MkDb 1 [] [] [] [] [] [] [] [].

(** ** Transactions *)

Definition Tx (E A : Type) : Type := db -> res E (A * db).

#[global] Instance tx_ret {E} : MRet (Tx E) := fun A a d => Ok (a, d).
#[global] Instance tx_bind {E} : MBind (Tx E) := fun A B f m d =>
  match m d with
  | Ok (a, d) => f a d
  | Err e => Err e
  | Panic => Panic
  end.

Definition fail {E A} (e : E) : Tx E A := fun _ => Err e.
Definition lift {E A} (r : res E A) : Tx E A := fun d =>
  match r with Ok a => Ok (a, d) | Err e => Err e | Panic => Panic end.
Definition query {E A} (f : db -> A) : Tx E A := fun d => Ok (f d, d).
Definition exec {E} (f : db -> db) : Tx E unit := fun d => Ok (tt, f d).
(** A statement that fails when a constraint would not hold. *)
Definition exec_if (c : db -> bool) (f : db -> db) : Tx error unit := fun d =>
  if c d then Ok (tt, f d) else Err EConstraint.
Definition one {A} (p : A -> bool) (t : db -> list A) : Tx error A := fun d =>
  match List.find p (t d) with Some a => Ok (a, d) | None => Err ErrNotFound end.
(** Errors of the database as errors of the caller. *)
Definition map_tx {E F A} (f : E -> F) (m : Tx E A) : Tx F A := fun d => map_err f (m d).
(** A call whose error the code looks at; its changes are kept only on success. *)
Definition attempt {E F A} (m : Tx E A) : Tx F (res E A) := fun d =>
  match m d with
  | Ok (a, d) => Ok (Ok a, d)
  | Err e => Ok (Err e, d)
  | Panic => Panic
  end.

(** [UPDATE ... WHERE]. *)
Definition upd {A} (p : A -> bool) (f : A -> A) (l : list A) : list A := map (fun x => if p x then f x else x) l.

(** The id of a new row of an INTEGER PRIMARY KEY. *)
Definition next_id (ids : list Z) : Z := fold_right Z.max 0 ids + 1.

(** [ORDER BY]: a stable sort by a text. *)
Fixpoint text_le (a b : bytes) : bool :=
  match a, b with
  | [], _ => true
  | _ :: _, [] => false
  | x :: a, y :: b => if x =? y then text_le a b else x <? y
  end.
Fixpoint insert_by {A} (le : A -> A -> bool) (x : A) (l : list A) : list A :=
  match l with
  | [] => [x]
  | y :: l => if le x y then x :: y :: l else y :: insert_by le x l
  end.
Definition order_by {A} (le : A -> A -> bool) (l : list A) : list A := fold_right (insert_by le) [] l.

(** The text of an address column. *)
Definition addrString (a : Addr) : bytes := if IsValid a then Addr_String a else [].

(** ** Sealed secrets (kek.go) *)

Definition sealedPrefix : bytes := str "zptkek1:".
Definition KEKSize : Z := 32.
Definition NonceSize : Z := 24.

Definition LoadKEK (file : bytes) : option bytes := if zlen file =? KEKSize then Some file else None.

Definition isSealed (v : bytes) : bool := HasPrefix v sealedPrefix.

Section Kek.
Context `{A : Aead} (kek : option bytes).

(** [seal]; [None] is the nil slice, [nonce] what the random source gives. *)
Definition seal_opt (v : option bytes) (nonce : bytes) : option bytes :=
  match kek, v with
  | Some k, Some v => Some (sealedPrefix ++ nonce ++ aead_seal k nonce v)
  | _, _ => v
  end.
Definition seal (v nonce : bytes) : bytes :=
  match kek with Some k => sealedPrefix ++ nonce ++ aead_seal k nonce v | None => v end.

Definition open_ (v : bytes) : res error bytes :=
  if negb (isSealed v) then Ok v
  else match kek with
  | None => Err ErrNeedKEK
  | Some k =>
    let v := drop (length sealedPrefix) v in
    if zlen v <? NonceSize then Err EDamaged
    else match aead_open k (take (Z.to_nat NonceSize) v) (drop (Z.to_nat NonceSize) v) with
         | Some m => Ok m
         | None => Err EWrongKEK
         end
  end.

(** ** Version counter *)

Definition BumpVersion : Tx error Z := fun d => Ok (version d + 1, set_version (version d + 1) d).
Definition Version : Tx error Z := query version.

(** ** Users *)

Definition scanUser (r : user_row) : User :=
  let u := u_user r in
  MkUser (u_ID u) (Login u) (PassHash u) (IsAdmin u) (u_Created u)
    (match totp_secret r with Some s => negb (bool_decide (s = [])) | None => false end).

Definition uid (r : user_row) : Z := u_ID (u_user r).

Definition CreateUser (now : Z) (login passHash : bytes) (admin : bool) : Tx error Z :=
  _ ← exec_if (fun d => negb (existsb (fun r => bool_decide (Login (u_user r) = login)) (users d))) (fun d => d);
  id ← query (fun d => next_id (map uid (users d)));
  _ ← exec (fun d => set_users (users d ++ [MkUserRow (MkUser id login passHash admin now false) None 0 []]) d);
  mret id.

Definition UserByLogin (login : bytes) : Tx error User :=
  r ← one (fun r => bool_decide (Login (u_user r) = login)) users; mret (scanUser r).
Definition UserByOIDCEmail (email : bytes) : Tx error User :=
  if bool_decide (email = []) then fail ErrNotFound
  else r ← one (fun r => bool_decide (oidc_email r = email)) users; mret (scanUser r).
Definition UserByID (id : Z) : Tx error User :=
  r ← one (fun r => uid r =? id) users; mret (scanUser r).

(** The partial unique index on [oidc_email] leaves empty addresses out. *)
Definition SetOIDCEmail (id : Z) (email : bytes) : Tx error unit :=
  exec_if (fun d => bool_decide (email = []) || negb (existsb (fun r => uid r =? id) (users d))
      || negb (existsb (fun r => bool_decide (oidc_email r = email) && negb (uid r =? id)) (users d)))
    (fun d => set_users (upd (fun r => uid r =? id)
      (fun r => MkUserRow (u_user r) (totp_secret r) (totp_step r) email) (users d)) d).

Definition ListUsers : Tx error (list User) :=
  query (fun d => scanUser <$> order_by (fun a b => text_le (Login (u_user a)) (Login (u_user b))) (users d)).
Definition CountUsers : Tx error Z := query (fun d => zlen (users d)).

Definition SetPassword (id : Z) (passHash : bytes) : Tx error unit :=
  exec (fun d => set_users (upd (fun r => uid r =? id)
    (fun r => let u := u_user r in
       MkUserRow (MkUser (u_ID u) (Login u) passHash (IsAdmin u) (u_Created u) (u_TOTP u))
         (totp_secret r) (totp_step r) (oidc_email r)) (users d)) d).

Definition TOTP (id : Z) : Tx error (option bytes * Z) :=
  r ← one (fun r => uid r =? id) users;
  match totp_secret r with
  | None | Some [] => mret (None, 0)
  | Some raw => s ← lift (open_ raw); mret (Some s, totp_step r)
  end.

Definition SetTOTP (id : Z) (secret : option bytes) (nonce : bytes) : Tx error unit :=
  let v := seal_opt secret nonce in
  exec (fun d => set_users (upd (fun r => uid r =? id)
    (fun r => MkUserRow (u_user r) v 0 (oidc_email r)) (users d)) d).

(** [RowsAffected() == 1]. *)
Definition UseTOTPStep (id step : Z) : Tx error bool := fun d =>
  let p r := (uid r =? id) && (totp_step r <? step) in
  Ok (zlen (List.filter p (users d)) =? 1,
      set_users (upd p (fun r => MkUserRow (u_user r) (totp_secret r) step (oidc_email r)) (users d)) d).

(** Rooms refer to their owner without an action: such a user stays. *)
Definition DeleteUser (id : Z) : Tx error unit :=
  exec_if (fun d => negb (existsb (fun r => uid r =? id) (users d))
      || negb (existsb (fun r => OwnerID r =? id) (rooms d)))
    (fun d => set_sessions (List.filter (fun s => negb (s_UserID s =? id)) (sessions d))
      (set_users (List.filter (fun r => negb (uid r =? id)) (users d)) d)).

(** ** Sessions *)

(** [expires] is a time in nanoseconds; the column holds [expires.Unix()]. *)
Definition CreateSession (tokenHash : bytes) (userID : Z) (csrf : bytes) (expires : Z) : Tx error unit :=
  exec_if (fun d => existsb (fun r => uid r =? userID) (users d)
      && negb (existsb (fun s => bool_decide (s_token s = tokenHash)) (sessions d)))
    (fun d => set_sessions (sessions d ++ [MkSession tokenHash userID csrf (expires / Second)]) d).

Definition SessionByToken (tokenHash : bytes) : Tx error Session :=
  one (fun s => bool_decide (s_token s = tokenHash)) sessions.

Definition DeleteSession (now : Z) (tokenHash : bytes) : Tx error unit :=
  exec (fun d => set_sessions
    (List.filter (fun s => negb (bool_decide (s_token s = tokenHash) || (s_Expires s <? now))) (sessions d)) d).

(** ** Nodes *)

Definition UpsertNode (now : Z) (n : Node) : Tx error unit := fun d =>
  if existsb (fun x => bool_decide (n_ID x = n_ID n)) (nodes d) then
    Ok (tt, set_nodes (upd (fun x => bool_decide (n_ID x = n_ID n))
      (fun x => MkNode (n_ID x) (EdKey x) (BoxKey n) (n_Name n) (PublicIP x) (UDPPort x) (Locals x) (n_Version x)
        now (n_CreatedAt x) (NAT x) (Reflexive x) (PortMap x) (n_DiscoKey x) (Relay x) (n_Routes x) (n_Exit x)
        (n_ExitDNS x)) (nodes d)) d)
  else if existsb (fun x => bool_decide (EdKey x = EdKey n)) (nodes d) then Err EConstraint
  else Ok (tt, set_nodes (nodes d ++ [MkNode (n_ID n) (EdKey n) (BoxKey n) (n_Name n) (PublicIP n) (UDPPort n)
      (Locals n) (n_Version n) now now [] [] AddrPortZero [] [] [] false false]) d).

Definition NodeByID (id : bytes) : Tx error Node := one (fun n => bool_decide (n_ID n = id)) nodes.

(** What a report changes in a node's row. *)
Definition apply_reach (now : Z) (r : Reach) (n : Node) : Node :=
  MkNode (n_ID n) (EdKey n) (BoxKey n) (n_Name n) (h_PublicIP r) (h_UDPPort r) (h_Locals r) (h_Version r)
    now (n_CreatedAt n) (h_NAT r) (h_Reflexive r) (h_PortMap r) (h_DiscoKey r) (h_Relay r) (h_Routes r)
    (h_Exit r) (h_ExitDNS r).

Definition reach_changed (n : Node) (r : Reach) : bool :=
  negb (bool_decide (PublicIP n = h_PublicIP r) && (UDPPort n =? h_UDPPort r) && bool_decide (Locals n = h_Locals r)
    && bool_decide (Reflexive n = h_Reflexive r) && bool_decide (NAT n = h_NAT r) && bool_decide (PortMap n = h_PortMap r)
    && bool_decide (n_DiscoKey n = h_DiscoKey r) && bool_decide (Relay n = h_Relay r)
    && bool_decide (n_Routes n = h_Routes r) && Bool.eqb (n_Exit n) (h_Exit r) && Bool.eqb (n_ExitDNS n) (h_ExitDNS r)).

Definition UpdateNodeEndpoints (now : Z) (id : bytes) (r : Reach) : Tx error bool :=
  n ← NodeByID id;
  _ ← exec (fun d => set_nodes (upd (fun n => bool_decide (n_ID n = id)) (apply_reach now r) (nodes d)) d);
  mret (reach_changed n r).

Definition is_active (m : member_row) : bool := bool_decide (Status m = StatusActive).

(** The index of [disco_key] gives rows of one key in rowid order. *)
Definition NodeByDiscoKey (key : bytes) : Tx error bytes := fun d =>
  match List.find (fun n => bool_decide (n_DiscoKey n = key)
      && existsb (fun m => bool_decide (m_NodeID m = n_ID n) && is_active m) (members d)) (nodes d) with
  | Some n => Ok (n_ID n, d)
  | None => Err ErrNotFound
  end.

Definition ShareActiveRoom (a b : bytes) : Tx error bool := query (fun d =>
  existsb (fun x => bool_decide (m_NodeID x = a) && is_active x &&
    existsb (fun y => bool_decide (m_NodeID y = b) && is_active y && bool_decide (m_RoomID x = m_RoomID y)) (members d))
    (members d)).

(** ** Settings *)

Definition Setting (key : bytes) : Tx error bytes :=
  kv ← one (fun kv : bytes * bytes => bool_decide (fst kv = key)) settings; lift (open_ (snd kv)).

Definition put_setting (key v : bytes) (l : list (bytes * bytes)) : list (bytes * bytes) :=
  if existsb (fun kv => bool_decide (fst kv = key)) l
  then upd (fun kv => bool_decide (fst kv = key)) (fun kv => (fst kv, v)) l
  else l ++ [(key, v)].
Definition SetSetting (key value nonce : bytes) : Tx error unit :=
  exec (fun d => set_settings (put_setting key (seal value nonce) (settings d)) d).

(** ** Rooms *)

Definition room_is (id : bytes) (r : Room) : bool := bool_decide (r_ID r = id).

Definition CreateRoom (now : Z) (r : Room) (nonce nonce' : bytes) : Tx error unit :=
  let secret := seal (Secret r) nonce in
  let sign := seal (SignKey r) nonce' in
  exec_if (fun d => negb (existsb (room_is (r_ID r)) (rooms d)) && existsb (fun u => uid u =? OwnerID r) (users d))
    (fun d => set_rooms (rooms d ++ [MkRoom (r_ID r) (r_Name r) (Subnet r) secret sign (OwnerID r) (JoinPolicy r)
       (str "on") [] [] false 1 now]) d).

Definition openRoom (r : Room) : res error Room :=
  secret ← open_ (Secret r);
  sign ← open_ (SignKey r);
  Ok (MkRoom (r_ID r) (r_Name r) (Subnet r) secret sign (OwnerID r) (JoinPolicy r) (Broadcast r) (DNS r) (ACL r)
    (DHT r) (r_Version r) (r_CreatedAt r)).

Definition RoomByID (id : bytes) : Tx error Room := r ← one (room_is id) rooms; lift (openRoom r).

Fixpoint open_rooms (l : list Room) : res error (list Room) :=
  match l with
  | [] => Ok []
  | r :: l => r ← openRoom r; rs ← open_rooms l; Ok (r :: rs)
  end.

Definition ListRooms (ownerID : Z) : Tx error (list Room) := fun d =>
  rs ← open_rooms (order_by (fun a b => text_le (r_Name a) (r_Name b))
         (List.filter (fun r => (ownerID =? 0) || (OwnerID r =? ownerID)) (rooms d)));
  Ok (rs, d).

Definition AllSubnets : Tx error (list Prefix) :=
  query (fun d => List.filter PrefixIsValid (Subnet <$> rooms d)).

Definition upd_room (id : bytes) (f : Room -> Room) : Tx error unit :=
  exec (fun d => set_rooms (upd (room_is id) f (rooms d)) d).

Definition UpdateRoom (id name joinPolicy broadcast : bytes) : Tx error unit :=
  upd_room id (fun r => MkRoom (r_ID r) name (Subnet r) (Secret r) (SignKey r) (OwnerID r) joinPolicy broadcast
    (DNS r) (ACL r) (DHT r) (r_Version r) (r_CreatedAt r)).
Definition SetRoomDHT (id : bytes) (on : bool) : Tx error unit :=
  upd_room id (fun r => MkRoom (r_ID r) (r_Name r) (Subnet r) (Secret r) (SignKey r) (OwnerID r) (JoinPolicy r)
    (Broadcast r) (DNS r) (ACL r) on (r_Version r) (r_CreatedAt r)).
Definition SetRoomACL (id rules : bytes) : Tx error unit :=
  upd_room id (fun r => MkRoom (r_ID r) (r_Name r) (Subnet r) (Secret r) (SignKey r) (OwnerID r) (JoinPolicy r)
    (Broadcast r) (DNS r) rules (DHT r) (r_Version r) (r_CreatedAt r)).
Definition SetRoomDNS (id : bytes) (dns : list Addr) : Tx error unit :=
  upd_room id (fun r => MkRoom (r_ID r) (r_Name r) (Subnet r) (Secret r) (SignKey r) (OwnerID r) (JoinPolicy r)
    (Broadcast r) dns (ACL r) (DHT r) (r_Version r) (r_CreatedAt r)).
Definition BumpRoom (id : bytes) : Tx error unit :=
  upd_room id (fun r => MkRoom (r_ID r) (r_Name r) (Subnet r) (Secret r) (SignKey r) (OwnerID r) (JoinPolicy r)
    (Broadcast r) (DNS r) (ACL r) (DHT r) (r_Version r + 1) (r_CreatedAt r)).

(** Members and invites go with their room. *)
Definition DeleteRoom (id : bytes) : Tx error unit :=
  exec (fun d => set_rooms (List.filter (fun r => negb (room_is id r)) (rooms d))
    (set_members (List.filter (fun m => negb (bool_decide (m_RoomID m = id))) (members d))
      (set_invites (List.filter (fun i => negb (bool_decide (i_RoomID i = id))) (invites d)) d))).

(** ** Members *)

Definition member_is (roomID nodeID : bytes) (m : member_row) : bool :=
  bool_decide (m_RoomID m = roomID) && bool_decide (m_NodeID m = nodeID).
Definition ip_taken (roomID : bytes) (ip : Addr) (m : member_row) : bool :=
  bool_decide (m_RoomID m = roomID) && bool_decide (addrString (IP m) = addrString ip).

Definition AddMember (now : Z) (m : member_row) : Tx error unit :=
  exec_if (fun d => existsb (room_is (m_RoomID m)) (rooms d)
      && existsb (fun n => bool_decide (n_ID n = m_NodeID m)) (nodes d)
      && negb (existsb (member_is (m_RoomID m) (m_NodeID m)) (members d))
      && negb (existsb (ip_taken (m_RoomID m) (IP m)) (members d)))
    (fun d => set_members (members d ++ [MkMemberRow (m_RoomID m) (m_NodeID m) (m_Name m) (WGKey m) (IP m) (Tags m)
       (Status m) now [] false []]) d).

(** The join with the nodes. *)
Definition scanMember (d : db) (m : member_row) : option Member :=
  n ← List.find (fun n => bool_decide (n_ID n = m_NodeID m)) (nodes d);
  Some (MkMember m (LastSeen n) (PublicIP n) (n_Version n) (NAT n) (Reflexive n) (PortMap n) (n_Routes n)
    (n_Exit n) (n_ExitDNS n)).

Definition queryMembers (p : member_row -> bool) : Tx error (list Member) := query (fun d =>
  order_by (fun a b => text_le (addrString (IP (m_row a))) (addrString (IP (m_row b))))
    (omap (scanMember d) (List.filter p (members d)))).

Definition Member_ (roomID nodeID : bytes) : Tx error Member := fun d =>
  match omap (scanMember d) (List.filter (member_is roomID nodeID) (members d)) with
  | m :: _ => Ok (m, d)
  | [] => Err ErrNotFound
  end.
Definition ListMembers (roomID : bytes) : Tx error (list Member) :=
  queryMembers (fun m => bool_decide (m_RoomID m = roomID)).
Definition Memberships (nodeID : bytes) : Tx error (list Member) :=
  queryMembers (fun m => bool_decide (m_NodeID m = nodeID)).

Definition UpdateMember (m : member_row) : Tx error unit :=
  exec_if (fun d => negb (existsb (member_is (m_RoomID m) (m_NodeID m)) (members d))
      || negb (existsb (fun o => ip_taken (m_RoomID m) (IP m) o && negb (bool_decide (m_NodeID o = m_NodeID m))) (members d)))
    (fun d => set_members (upd (member_is (m_RoomID m) (m_NodeID m))
       (fun o => MkMemberRow (m_RoomID o) (m_NodeID o) (m_Name m) (WGKey o) (IP m) (Tags m) (Status m) (m_CreatedAt o)
          (Routes m) (Exit m) (UseExit m)) (members d)) d).

Definition DeleteMember (roomID nodeID : bytes) : Tx error unit :=
  exec (fun d => set_members (List.filter (fun m => negb (member_is roomID nodeID m)) (members d)) d).

(** ** Invites *)

Definition CreateInvite (now : Z) (i : Invite) : Tx error Z :=
  _ ← exec_if (fun d => existsb (room_is (i_RoomID i)) (rooms d)
      && negb (existsb (fun x => bool_decide (TokenHash x = TokenHash i)) (invites d))) (fun d => d);
  id ← query (fun d => next_id (map i_ID (invites d)));
  _ ← exec (fun d => set_invites (invites d ++ [MkInvite id (i_RoomID i) (TokenHash i) (UsesLeft i) (i_Expires i)
      (AutoApprove i) (Note i) (CreatedBy i) now]) d);
  mret id.

Definition usable (now : Z) (i : Invite) : bool := (now <? i_Expires i) && negb (UsesLeft i =? 0).
Definition set_uses (n : Z) (i : Invite) : Invite :=
  MkInvite (i_ID i) (i_RoomID i) (TokenHash i) n (i_Expires i) (AutoApprove i) (Note i) (CreatedBy i) (i_CreatedAt i).

Definition UseInvite (now : Z) (roomID tokenHash : bytes) : Tx error Invite :=
  inv ← one (fun i => bool_decide (i_RoomID i = roomID) && bool_decide (TokenHash i = tokenHash) && usable now i) invites;
  _ ← (if 0 <? UsesLeft inv
       then exec (fun d => set_invites (upd (fun i => i_ID i =? i_ID inv) (fun i => set_uses (UsesLeft i - 1) i) (invites d)) d)
       else mret tt);
  mret inv.

Definition ListInvites (now : Z) (roomID : bytes) : Tx error (list Invite) := query (fun d =>
  order_by (fun a b => i_CreatedAt b <=? i_CreatedAt a)
    (List.filter (fun i => bool_decide (i_RoomID i = roomID) && usable now i) (invites d))).

Definition RevokeInvite (roomID : bytes) (id : Z) : Tx error unit :=
  exec (fun d => set_invites (upd (fun i => bool_decide (i_RoomID i = roomID) && (i_ID i =? id)) (set_uses 0) (invites d)) d).

(** ** Audit *)

Definition Audit (now : Z) (actor action target : bytes) (details : list bytes) : Tx error unit :=
  exec (fun d => set_audit (audit d ++ [MkAudit now actor action target details]) d).

Definition ListAudit (limit : nat) : Tx error (list AuditEntry) := query (fun d => take limit (rev (audit d))).

(** ** Opening a database *)

(** [sealAll] on one value: a sealed one must open, a plain one is sealed. *)
Definition seal_value (v nonce : bytes) : res error bytes :=
  if isSealed v then (_ ← open_ v; Ok v) else Ok (seal v nonce).

Fixpoint seal_rooms (l : list Room) (nonces : nat -> bytes) (i : nat) : res error (list Room) :=
  match l with
  | [] => Ok []
  | r :: l =>
    secret ← seal_value (Secret r) (nonces i);
    sign ← seal_value (SignKey r) (nonces (S i));
    rs ← seal_rooms l nonces (S (S i));
    Ok (MkRoom (r_ID r) (r_Name r) (Subnet r) secret sign (OwnerID r) (JoinPolicy r) (Broadcast r) (DNS r) (ACL r)
      (DHT r) (r_Version r) (r_CreatedAt r) :: rs)
  end.

Fixpoint seal_settings (l : list (bytes * bytes)) (nonces : nat -> bytes) (i : nat) : res error (list (bytes * bytes)) :=
  match l with
  | [] => Ok []
  | (k, v) :: l => v ← seal_value v (nonces i); kvs ← seal_settings l nonces (S i); Ok ((k, v) :: kvs)
  end.

Definition sealAll (nonces : nat -> bytes) : Tx error unit := fun d =>
  rs ← seal_rooms (rooms d) nonces 0;
  kvs ← seal_settings (settings d) nonces (2 * length (rooms d));
  Ok (tt, set_settings kvs (set_rooms rs d)).

Definition Sealed : Tx error bool := query (fun d => existsb (fun r => isSealed (SignKey r)) (rooms d)).

(** The transaction of [OpenOptions]. *)
Definition OpenOptions (nonces : nat -> bytes) : Tx error unit :=
  match kek with
  | Some _ => sealAll nonces
  | None => sealed ← Sealed; if sealed : bool then fail ErrNeedKEK else mret tt
  end.

End Kek.

(** ** Lemmas on tables *)

Lemma upd_id {A} p (f : A -> A) l : (forall x, x ∈ l -> p x = false) -> upd p f l = l.
Proof.
  unfold upd. induction l as [| x l IH]; simpl; intros H; [done |]. rewrite (H x) by constructor. f_equal.
  apply IH. intros y Hy. apply H. by constructor.
Qed.

Lemma map_upd {A K} (k : A -> K) p f l : (forall x, x ∈ l -> p x = true -> k (f x) = k x) -> map k (upd p f l) = map k l.
Proof.
  unfold upd. induction l as [| x l IH]; simpl; intros H; [done |]. f_equal.
  - destruct (p x) eqn:Hp; [| done]. apply H; [constructor | done].
  - apply IH. intros y Hy. apply H. by constructor.
Qed.

Lemma elem_of_upd {A} p (f : A -> A) l y : y ∈ upd p f l <->
  exists x, x ∈ l /\ y = if p x then f x else x.
Proof. unfold upd. rewrite list_elem_of_fmap. naive_solver. Qed.

Lemma Forall_upd {A} (P : A -> Prop) p (f : A -> A) l :
  Forall P l -> (forall x, x ∈ l -> p x = true -> P x -> P (f x)) -> Forall P (upd p f l).
Proof.
  rewrite !Forall_forall. intros Hl Hf y (x & Hx & ->)%elem_of_upd. destruct (p x) eqn:Hp; auto.
Qed.

Lemma elem_of_Filter {A} (p : A -> bool) l x : x ∈ List.filter p l <-> x ∈ l /\ p x = true.
Proof. rewrite !list_elem_of_In. apply filter_In. Qed.

Lemma Forall_Filter {A} (P : A -> Prop) p (l : list A) : Forall P l -> Forall P (List.filter p l).
Proof. rewrite !Forall_forall. intros H x [Hx _]%elem_of_Filter. by apply H. Qed.

Lemma NoDup_map_Filter {A K} (k : A -> K) p l : NoDup (map k l) -> NoDup (map k (List.filter p l)).
Proof.
  induction l as [| x l IH]; simpl; [done |]. intros [Hx Hl]%NoDup_cons. destruct (p x); [| by apply IH].
  simpl. apply NoDup_cons. split; [| by apply IH].
  intros (y & Hy & [Hin _]%elem_of_Filter)%list_elem_of_fmap. apply Hx, list_elem_of_fmap. eauto.
Qed.

Lemma NoDup_map_snoc {A K} (k : A -> K) l x : NoDup (map k l) -> k x ∉ map k l -> NoDup (map k (l ++ [x])).
Proof.
  intros Hl Hx. rewrite map_app. apply NoDup_app. split; [done |]. split; [| apply NoDup_singleton].
  intros y Hy Hin%list_elem_of_singleton. subst y. done.
Qed.

Lemma key_inj {A K} (k : A -> K) l x y : NoDup (map k l) -> x ∈ l -> y ∈ l -> k x = k y -> x = y.
Proof.
  induction l as [| z l IH]; [by intros _ ?%elem_of_nil |]. simpl. intros [Hz Hl]%NoDup_cons Hx Hy Hk.
  apply elem_of_cons in Hx as [-> | Hx]; apply elem_of_cons in Hy as [-> | Hy]; [done | | | by apply IH].
  - destruct Hz. apply list_elem_of_fmap. eauto.
  - destruct Hz. apply list_elem_of_fmap. eauto.
Qed.

(** Changing the key of one row keeps keys unique when the new key is free. *)
Lemma NoDup_map_upd {A K K'} (id : A -> K') (k : A -> K) p f l :
  NoDup (map id l) -> (forall x y, p x = true -> p y = true -> id x = id y) -> NoDup (map k l) ->
  (forall x y, x ∈ l -> y ∈ l -> p x = true -> p y = false -> k (f x) <> k y) -> NoDup (map k (upd p f l)).
Proof.
  intros Hid Hp. induction l as [| x l IH]; simpl; [done |].
  apply NoDup_cons in Hid as [Hx Hid]. intros [Hkx Hk]%NoDup_cons Hf.
  destruct (p x) eqn:Hpx.
  - assert (forall y, y ∈ l -> p y = false) as Hno.
    { intros y Hy. destruct (p y) eqn:Hpy; [| done]. destruct Hx. rewrite (Hp x y Hpx Hpy).
      apply list_elem_of_fmap. eauto. }
    rewrite upd_id by done. apply NoDup_cons. split; [| done].
    intros (y & Hy & Hin)%list_elem_of_fmap. apply (Hf x y); [constructor | by constructor | done | by apply Hno | done].
  - apply NoDup_cons. split; [| apply IH; try done; intros y z Hy Hz; apply Hf; by constructor].
    intros (y & Hy & (z & Hz & ->)%elem_of_upd)%list_elem_of_fmap. destruct (p z) eqn:Hpz.
    + apply (Hf z x); [by constructor | constructor | done | done | done].
    + apply Hkx, list_elem_of_fmap. eauto.
Qed.

Lemma next_id_fresh ids : next_id ids ∉ ids.
Proof.
  unfold next_id. assert (forall i, i ∈ ids -> i <= fold_right Z.max 0 ids) as H.
  { induction ids as [| j ids IH]; [by intros i ?%elem_of_nil |]. simpl.
    intros i [-> | Hi]%elem_of_cons; [lia |]. specialize (IH i Hi). lia. }
  intros Hin%H. lia.
Qed.

(** No row has the key: the key is not in the column. *)
Lemma existsb_key {A} {K} `{EqDecision K} (k : A -> K) l v :
  existsb (fun x => bool_decide (k x = v)) l = false -> v ∉ map k l.
Proof.
  intros H (x & -> & Hx)%list_elem_of_fmap.
  assert (existsb (fun y => bool_decide (k y = k x)) l = true); [| congruence].
  apply existsb_exists. exists x. split; [by apply list_elem_of_In | by apply bool_decide_eq_true].
Qed.

Lemma existsb_in {A} {K} `{EqDecision K} (k : A -> K) l v :
  existsb (fun x => bool_decide (k x = v)) l = true <-> v ∈ map k l.
Proof.
  rewrite existsb_exists, list_elem_of_fmap. setoid_rewrite bool_decide_eq_true.
  setoid_rewrite list_elem_of_In. naive_solver.
Qed.

Lemma existsb_Z {A} (k : A -> Z) l v : existsb (fun x => k x =? v) l = true <-> v ∈ map k l.
Proof.
  rewrite existsb_exists, list_elem_of_fmap. setoid_rewrite Z.eqb_eq.
  setoid_rewrite list_elem_of_In. naive_solver.
Qed.

Lemma existsb_none {A} (p : A -> bool) l x : existsb p l = false -> x ∈ l -> p x = false.
Proof.
  intros H Hx. destruct (p x) eqn:Hp; [| done].
  assert (existsb p l = true); [| congruence]. apply existsb_exists. exists x. split; [by apply list_elem_of_In | done].
Qed.

Lemma find_spec {A} (p : A -> bool) l x : List.find p l = Some x -> x ∈ l /\ p x = true.
Proof. intros H%find_some. by rewrite list_elem_of_In. Qed.

Lemma order_by_perm {A} (le : A -> A -> bool) l : order_by le l ≡ₚ l.
Proof.
  induction l as [| x l IH]; simpl; [done |]. rewrite <- IH at 2. generalize (order_by le l). clear.
  intros l. induction l as [| y l IH]; simpl; [done |]. destruct (le x y); [done |].
  rewrite IH. apply perm_swap.
Qed.

(** ** The invariant of the schema *)

Record wf (d : db) : Prop := {
  w_users : NoDup (map uid (users d));
  w_logins : NoDup (map (fun r => Login (u_user r)) (users d));
  w_sessions : NoDup (map s_token (sessions d));
  w_session_user : Forall (fun s => s_UserID s ∈ map uid (users d)) (sessions d);
  w_nodes : NoDup (map n_ID (nodes d));
  w_keys : NoDup (map EdKey (nodes d));
  w_rooms : NoDup (map r_ID (rooms d));
  w_owners : Forall (fun r => OwnerID r ∈ map uid (users d)) (rooms d);
  w_members : NoDup (map (fun m => (m_RoomID m, m_NodeID m)) (members d));
  w_ips : NoDup (map (fun m => (m_RoomID m, addrString (IP m))) (members d));
  w_member_of : Forall (fun m => m_RoomID m ∈ map r_ID (rooms d) /\ m_NodeID m ∈ map n_ID (nodes d)) (members d);
  w_invites : NoDup (map i_ID (invites d));
  w_tokens : NoDup (map TokenHash (invites d));
  w_invite_of : Forall (fun i => i_RoomID i ∈ map r_ID (rooms d)) (invites d);
  w_settings : NoDup (map fst (settings d)) }.

Lemma wf_empty : wf empty_db.
Proof. split; simpl; constructor. Qed.

(** Only the tables matter. *)
Lemma wf_same d d' : users d' = users d -> sessions d' = sessions d -> nodes d' = nodes d -> rooms d' = rooms d ->
  members d' = members d -> invites d' = invites d -> settings d' = settings d -> wf d -> wf d'.
Proof.
  intros Hu Hs Hn Hr Hm Hi Hk []. split; rewrite ?Hu, ?Hs, ?Hn, ?Hr, ?Hm, ?Hi, ?Hk; done.
Qed.

(** ** Transactions that keep an invariant *)

Lemma tx_bind_ok {E A B} (m : Tx E A) (f : A -> Tx E B) d b d'' :
  (m ≫= f) d = Ok (b, d'') <-> exists a d', m d = Ok (a, d') /\ f a d' = Ok (b, d'').
Proof.
  unfold mbind, tx_bind. destruct (m d) as [[a d'] | |]; [| naive_solver | naive_solver].
  split; [by exists a, d' | naive_solver].
Qed.

Definition keeps (P : db -> Prop) {E A} (m : Tx E A) : Prop := forall d a d', P d -> m d = Ok (a, d') -> P d'.

Section Keeps.
Context (P : db -> Prop).

Lemma keeps_bind {E A B} (m : Tx E A) (f : A -> Tx E B) : keeps P m -> (forall a, keeps P (f a)) -> keeps P (m ≫= f).
Proof. intros Hm Hf d b d'' Hd (a & d' & H1 & H2)%tx_bind_ok. eapply Hf, H2. by eapply Hm, H1. Qed.

Lemma keeps_ret {E A} (a : A) : keeps P (mret a : Tx E A).
Proof. by intros d b d' Hd [= _ <-]. Qed.

Lemma keeps_query {E A} (f : db -> A) : keeps P (query f : Tx E A).
Proof. by intros d b d' Hd [= _ <-]. Qed.

Lemma keeps_one {A} (p : A -> bool) t : keeps P (one p t).
Proof. intros d b d' Hd. unfold one. destruct (List.find _ _); by intros [= _ <-]. Qed.

Lemma keeps_fail {E A} (e : E) : keeps P (fail e : Tx E A).
Proof. by intros d b d' Hd [=]. Qed.

Lemma keeps_lift {E A} (r : res E A) : keeps P (lift r).
Proof. intros d b d' Hd. unfold lift. destruct r; by intros [= _ <-]. Qed.

Lemma keeps_map_tx {E F A} (f : E -> F) (m : Tx E A) : keeps P m -> keeps P (map_tx f m).
Proof. intros Hm d a d' Hd. unfold map_tx. destruct (m d) as [[b e] | |] eqn:He; intros [= <- <-]. by eapply Hm. Qed.

Lemma keeps_attempt {E F A} (m : Tx E A) : keeps P m -> keeps P (attempt m : Tx F _).
Proof.
  intros Hm d a d' Hd. unfold attempt. destruct (m d) as [[b e] | |] eqn:He; intros [= <- <-]; [by eapply Hm | done].
Qed.

Lemma keeps_exec {E} f : (forall d, P d -> P (f d)) -> keeps P (exec f : Tx E unit).
Proof. intros Hf d a d' Hd [= _ <-]. by apply Hf. Qed.

Lemma keeps_exec_if c f : (forall d, P d -> c d = true -> P (f d)) -> keeps P (exec_if c f).
Proof. intros Hf d a d' Hd. unfold exec_if. destruct (c d) eqn:Hc; intros [= _ <-]. by apply Hf. Qed.

End Keeps.

(** A read changes nothing. *)
Definition reads {E A} (m : Tx E A) : Prop := forall d a d', m d = Ok (a, d') -> d' = d.

Lemma reads_keeps P {E A} (m : Tx E A) : reads m -> keeps P m.
Proof. intros Hm d a d' Hd H. by rewrite (Hm _ _ _ H). Qed.

Lemma reads_bind {E A B} (m : Tx E A) (f : A -> Tx E B) : reads m -> (forall a, reads (f a)) -> reads (m ≫= f).
Proof. intros Hm Hf d b d'' (a & d' & H1 & H2)%tx_bind_ok. rewrite (Hf _ _ _ _ H2). by eapply Hm. Qed.

Lemma reads_one {A} (p : A -> bool) t : reads (one p t).
Proof. intros d b d'. unfold one. destruct (List.find _ _); by intros [= _ <-]. Qed.

Lemma reads_lift {E A} (r : res E A) : reads (lift r).
Proof. intros d b d'. unfold lift. destruct r; by intros [= _ <-]. Qed.

Create HintDb tx discriminated.
#[export] Hint Resolve keeps_bind keeps_ret keeps_query keeps_one keeps_fail keeps_lift keeps_map_tx keeps_attempt : tx.
#[export] Hint Resolve reads_bind reads_one reads_lift : tx.

(** ** The statements keep the schema's invariant *)

Section Wf.
Context `{A : Aead} (kek : option bytes).

Lemma upd_users_wf id f d : (forall r, uid (f r) = uid r /\ Login (u_user (f r)) = Login (u_user r)) ->
  wf d -> wf (set_users (upd id f (users d)) d).
Proof.
  intros Hf []. assert (map uid (upd id f (users d)) = map uid (users d)) as Hu by (apply map_upd; intros; apply Hf).
  split; simpl; rewrite ?Hu; try done. rewrite map_upd; [done |]. intros; apply Hf.
Qed.

Lemma CreateUser_wf now login pw adm : keeps wf (CreateUser now login pw adm).
Proof.
  intros d id d' [] (? & d1 & H1 & (i & d2 & H2 & (? & d3 & H3 & H4)%tx_bind_ok)%tx_bind_ok)%tx_bind_ok.
  unfold exec_if in H1. destruct (negb _) eqn:Hn; [| done]. injection H1 as _ <-. injection H2 as <- <-.
  injection H3 as _ <-. injection H4 as _ <-. bool_hyps. apply existsb_key in Hn.
  split; simpl; try done.
  - apply NoDup_map_snoc; [done | apply next_id_fresh].
  - by apply NoDup_map_snoc.
  - eapply Forall_impl; [done |]. intros s Hs. rewrite map_app, elem_of_app. by left.
  - eapply Forall_impl; [done |]. intros s Hs. rewrite map_app, elem_of_app. by left.
Qed.

Lemma DeleteUser_wf id : keeps wf (DeleteUser id).
Proof.
  apply keeps_exec_if. intros d [] Hc. split; simpl; try done.
  - by apply NoDup_map_Filter.
  - by apply NoDup_map_Filter.
  - by apply NoDup_map_Filter.
  - apply Forall_forall. intros s [Hs Hn]%elem_of_Filter. rewrite Forall_forall in w_session_user0.
    destruct (proj1 (list_elem_of_fmap _ _ _) (w_session_user0 s Hs)) as (u & Hu & Hin). apply list_elem_of_fmap.
    exists u. split; [done |]. apply elem_of_Filter. split; [done |]. by rewrite <- Hu.
  - apply Forall_forall. intros r Hr. rewrite Forall_forall in w_owners0.
    destruct (proj1 (list_elem_of_fmap _ _ _) (w_owners0 r Hr)) as (u & Hu & Hin). apply list_elem_of_fmap.
    exists u. split; [done |]. apply elem_of_Filter. split; [done |]. apply negb_true_iff. rewrite <- Hu.
    apply orb_true_iff in Hc as [Hc | Hc]; apply negb_true_iff in Hc.
    + pose proof (existsb_none _ _ u Hc Hin) as Hx. by rewrite Hu.
    + exact (existsb_none _ _ r Hc Hr).
Qed.

Lemma CreateSession_wf tok u csrf e : keeps wf (CreateSession tok u csrf e).
Proof.
  apply keeps_exec_if. intros d [] Hc. bool_hyps. apply existsb_Z in H. apply existsb_key in H0.
  split; simpl; try done; [by apply NoDup_map_snoc |]. apply Forall_app. split; [done | by constructor].
Qed.

Lemma DeleteSession_wf now tok : keeps wf (DeleteSession now tok).
Proof.
  apply keeps_exec. intros d []. split; simpl; try done; [by apply NoDup_map_Filter | by apply Forall_Filter].
Qed.

Lemma upd_nodes_wf p f d : (forall n, n_ID (f n) = n_ID n /\ EdKey (f n) = EdKey n) ->
  wf d -> wf (set_nodes (upd p f (nodes d)) d).
Proof.
  intros Hf []. assert (map n_ID (upd p f (nodes d)) = map n_ID (nodes d)) as Hu by (apply map_upd; intros; apply Hf).
  split; simpl; rewrite ?Hu; try done. rewrite map_upd; [done |]. intros; apply Hf.
Qed.

Lemma UpsertNode_wf now n : keeps wf (UpsertNode now n).
Proof.
  intros d a d' Hd. unfold UpsertNode. destruct (existsb _ _) eqn:He.
  { intros [= _ <-]. by apply upd_nodes_wf. }
  destruct (existsb (fun x => bool_decide (EdKey x = EdKey n)) (nodes d)) eqn:Hk; [done |]. intros [= _ <-].
  apply existsb_key in He, Hk. destruct Hd. split; simpl; try done; try by apply NoDup_map_snoc.
  eapply Forall_impl; [done |]. simpl. intros m [? ?]. rewrite map_app, elem_of_app. auto.
Qed.

Lemma UpdateNodeEndpoints_wf now id r : keeps wf (UpdateNodeEndpoints now id r).
Proof.
  apply keeps_bind; [apply keeps_one |]. intros n. apply keeps_bind; [| intros; apply keeps_ret].
  apply keeps_exec. intros d. by apply upd_nodes_wf.
Qed.

Lemma SetSetting_wf k v nonce : keeps wf (SetSetting kek k v nonce).
Proof.
  apply keeps_exec. intros d []. split; simpl; try done. unfold put_setting.
  destruct (existsb _ _) eqn:He; [by rewrite map_upd |]. apply existsb_key in He. by apply NoDup_map_snoc.
Qed.

Lemma CreateRoom_wf now r n1 n2 : keeps wf (CreateRoom kek now r n1 n2).
Proof.
  apply keeps_exec_if. intros d [] Hc. bool_hyps. apply existsb_Z in H0. apply existsb_key in H.
  split; simpl; try done.
  - by apply NoDup_map_snoc.
  - apply Forall_app. split; [done | by constructor].
  - eapply Forall_impl; [done |]. simpl. intros m [? ?]. rewrite map_app, elem_of_app. auto.
  - eapply Forall_impl; [done |]. simpl. intros m ?. rewrite map_app, elem_of_app. auto.
Qed.

Lemma upd_room_wf id f : (forall r, r_ID (f r) = r_ID r /\ OwnerID (f r) = OwnerID r) -> keeps wf (upd_room id f).
Proof.
  intros Hf. apply keeps_exec. intros d [].
  assert (map r_ID (upd (room_is id) f (rooms d)) = map r_ID (rooms d)) as Hu by (apply map_upd; intros; apply Hf).
  split; simpl; rewrite ?Hu; try done. apply Forall_upd; [done |]. intros x _ _. by rewrite (proj2 (Hf x)).
Qed.

Lemma DeleteRoom_wf id : keeps wf (DeleteRoom id).
Proof.
  apply keeps_exec. intros d []. 
  assert (forall x, x ∈ map r_ID (rooms d) -> x <> id -> x ∈ map r_ID (List.filter (fun r => negb (room_is id r)) (rooms d))) as Hk.
  { intros x (r & -> & Hr)%list_elem_of_fmap Hx. apply list_elem_of_fmap. exists r. split; [done |].
    apply elem_of_Filter. split; [done |]. unfold room_is. by rewrite bool_decide_eq_false_2. }
  split; simpl; try done; try by apply NoDup_map_Filter.
  - by apply Forall_Filter.
  - rewrite Forall_forall in *. intros m [Hm Hn]%elem_of_Filter. bool_hyps. destruct (w_member_of0 m Hm). auto.
  - rewrite Forall_forall in *. intros m [Hm Hn]%elem_of_Filter. bool_hyps. auto.
Qed.

Lemma member_key_free rid nid l : existsb (member_is rid nid) l = false -> (rid, nid) ∉ map (fun m => (m_RoomID m, m_NodeID m)) l.
Proof.
  intros H (m & Hm & Hin)%list_elem_of_fmap. pose proof (existsb_none _ _ m H Hin) as Hx. unfold member_is in Hx.
  injection Hm as -> ->. by rewrite !bool_decide_eq_true_2 in Hx.
Qed.

Lemma member_ip_free rid ip l : existsb (ip_taken rid ip) l = false ->
  (rid, addrString ip) ∉ map (fun m => (m_RoomID m, addrString (IP m))) l.
Proof.
  intros H (m & Hm & Hin)%list_elem_of_fmap. pose proof (existsb_none _ _ m H Hin) as Hx. unfold ip_taken in Hx.
  injection Hm as -> Hi. by rewrite !bool_decide_eq_true_2 in Hx.
Qed.

Lemma AddMember_wf now m : keeps wf (AddMember now m).
Proof.
  apply keeps_exec_if. intros d [] Hc. bool_hyps. apply existsb_in in H, H2.
  apply member_key_free in H1. apply member_ip_free in H0.
  split; simpl; try done; try by apply NoDup_map_snoc.
  apply Forall_app. split; [done | by constructor].
Qed.

Lemma member_is_key rid nid x : member_is rid nid x = true <-> (m_RoomID x, m_NodeID x) = (rid, nid).
Proof. unfold member_is. rewrite andb_true_iff, !bool_decide_eq_true. naive_solver. Qed.

Lemma UpdateMember_wf m : keeps wf (UpdateMember m).
Proof.
  apply keeps_exec_if. intros d [] Hc. split; simpl; try done.
  - by rewrite map_upd.
  - eapply (NoDup_map_upd (fun m => (m_RoomID m, m_NodeID m))); [done | | done |].
    + intros x y Hx%member_is_key Hy%member_is_key. congruence.
    + intros x y Hx Hy Hpx Hpy He. injection He as Hr Hip. apply member_is_key in Hpx as [= Hr' Hn'].
      apply orb_true_iff in Hc as [Hc | Hc]; apply negb_true_iff in Hc.
      * pose proof (existsb_none _ _ x Hc Hx) as Hf. assert (member_is (m_RoomID m) (m_NodeID m) x = true) as Ht; [| congruence].
        apply member_is_key. congruence.
      * pose proof (existsb_none _ _ y Hc Hy) as Hf. cbv beta in Hf. unfold ip_taken, member_is in *.
        rewrite <- Hr, Hr', Hip, !bool_decide_eq_true_2 in Hf by done. rewrite <- Hr, Hr', bool_decide_eq_true_2 in Hpy by done.
        simpl in Hf, Hpy. by rewrite Hpy in Hf.
  - by apply Forall_upd.
Qed.

Lemma DeleteMember_wf rid nid : keeps wf (DeleteMember rid nid).
Proof.
  apply keeps_exec. intros d []. split; simpl; try done; try by apply NoDup_map_Filter. by apply Forall_Filter.
Qed.

Lemma CreateInvite_wf now i : keeps wf (CreateInvite now i).
Proof.
  intros d id d' [] (? & d1 & H1 & (j & d2 & H2 & (? & d3 & H3 & H4)%tx_bind_ok)%tx_bind_ok)%tx_bind_ok.
  unfold exec_if in H1. destruct (_ && _) eqn:Hn; [| done]. injection H1 as _ <-. injection H2 as <- <-.
  injection H3 as _ <-. injection H4 as _ <-. bool_hyps. apply existsb_key in H0. apply existsb_in in H.
  split; simpl; try done.
  - apply NoDup_map_snoc; [done | apply next_id_fresh].
  - by apply NoDup_map_snoc.
  - apply Forall_app. split; [done | by constructor].
Qed.

Lemma upd_invites_wf p f d : (forall i, i_ID (f i) = i_ID i /\ TokenHash (f i) = TokenHash i /\ i_RoomID (f i) = i_RoomID i) ->
  wf d -> wf (set_invites (upd p f (invites d)) d).
Proof.
  intros Hf []. split; simpl; try done.
  - rewrite map_upd; [done |]. intros; apply Hf.
  - rewrite map_upd; [done |]. intros; apply Hf.
  - apply Forall_upd; [done |]. intros x _ _. by rewrite (proj2 (proj2 (Hf x))).
Qed.

Lemma UseInvite_wf now rid tok : keeps wf (UseInvite now rid tok).
Proof.
  apply keeps_bind; [apply keeps_one |]. intros i. apply keeps_bind; [| intros; apply keeps_ret].
  destruct (0 <? UsesLeft i); [| apply keeps_ret]. apply keeps_exec. intros d. by apply upd_invites_wf.
Qed.

Lemma RevokeInvite_wf rid id : keeps wf (RevokeInvite rid id).
Proof. apply keeps_exec. intros d. by apply upd_invites_wf. Qed.

Lemma Audit_wf now a b c e : keeps wf (Audit now a b c e).
Proof. apply keeps_exec. intros d. by apply wf_same. Qed.

Lemma BumpVersion_wf : keeps wf BumpVersion.
Proof. intros d a d' Hd [= _ <-]. by apply (wf_same d). Qed.

(** What [sealAll] keeps of a room. *)
Lemma seal_rooms_spec nonces l : forall i rs, seal_rooms kek l nonces i = Ok rs ->
  Forall2 (fun r r' => r' = MkRoom (r_ID r) (r_Name r) (Subnet r) (Secret r') (SignKey r') (OwnerID r) (JoinPolicy r)
      (Broadcast r) (DNS r) (ACL r) (DHT r) (r_Version r) (r_CreatedAt r)
    /\ (exists n, seal_value kek (Secret r) n = Ok (Secret r')) /\ exists n, seal_value kek (SignKey r) n = Ok (SignKey r')) l rs.
Proof.
  induction l as [| r l IH]; intros i rs; simpl; [by intros [= <-] |].
  intros (s & Hs & (k & Hk & (l' & Hl & [= <-])%bind_ok)%bind_ok)%bind_ok. constructor; [| by eapply IH].
  simpl. eauto.
Qed.

Lemma seal_settings_spec nonces l : forall i kvs, seal_settings kek l nonces i = Ok kvs ->
  Forall2 (fun kv kv' => fst kv' = fst kv /\ exists n, seal_value kek (snd kv) n = Ok (snd kv')) l kvs.
Proof.
  induction l as [| [k v] l IH]; intros i kvs; simpl; [by intros [= <-] |].
  intros (s & Hs & (l' & Hl & [= <-])%bind_ok)%bind_ok. constructor; [simpl; eauto | by eapply IH].
Qed.

Lemma Forall2_map_eq {X Y K} (f : X -> K) (g : Y -> K) (R : X -> Y -> Prop) l k :
  (forall x y, R x y -> g y = f x) -> Forall2 R l k -> map g k = map f l.
Proof. intros H. induction 1; simpl; [done |]. f_equal; auto. Qed.

Lemma sealAll_wf nonces : keeps wf (sealAll kek nonces).
Proof.
  intros d a d' Hd (rs & Hr & (kvs & Hk & [= _ <-])%bind_ok)%bind_ok.
  apply seal_rooms_spec in Hr. apply seal_settings_spec in Hk. destruct Hd.
  assert (map r_ID rs = map r_ID (rooms d)) as Hid by (eapply Forall2_map_eq; [| exact Hr]; by intros x y [-> _]).
  assert (map OwnerID rs = map OwnerID (rooms d)) as Ho by (eapply Forall2_map_eq; [| exact Hr]; by intros x y [-> _]).
  split; simpl; rewrite ?Hid; try done.
  - rewrite <- (Forall_map OwnerID (fun o => o ∈ map uid (users d))), Ho. by apply Forall_map.
  - replace (map fst kvs) with (map fst (settings d)); [done |]. symmetry.
    eapply Forall2_map_eq; [| exact Hk]. by intros x y [-> _].
Qed.

End Wf.

(** ** The statements as one step relation *)

Section Steps.
Context `{A : Aead}.

(** A statement of the store that changes the database. *)
Inductive step (kek : option bytes) (d d' : db) : Prop :=
  | step_bump v : BumpVersion d = Ok (v, d') -> step kek d d'
  | step_create_user now l p a id : CreateUser now l p a d = Ok (id, d') -> step kek d d'
  | step_email id e : SetOIDCEmail id e d = Ok (tt, d') -> step kek d d'
  | step_password id p : SetPassword id p d = Ok (tt, d') -> step kek d d'
  | step_totp id s n : SetTOTP kek id s n d = Ok (tt, d') -> step kek d d'
  | step_totp_step id s b : UseTOTPStep id s d = Ok (b, d') -> step kek d d'
  | step_delete_user id : DeleteUser id d = Ok (tt, d') -> step kek d d'
  | step_session t u c e : CreateSession t u c e d = Ok (tt, d') -> step kek d d'
  | step_delete_session now t : DeleteSession now t d = Ok (tt, d') -> step kek d d'
  | step_node now n : UpsertNode now n d = Ok (tt, d') -> step kek d d'
  | step_endpoints now id r b : UpdateNodeEndpoints now id r d = Ok (b, d') -> step kek d d'
  | step_setting k v n : SetSetting kek k v n d = Ok (tt, d') -> step kek d d'
  | step_create_room now r n n' : CreateRoom kek now r n n' d = Ok (tt, d') -> step kek d d'
  | step_update_room id n p b : UpdateRoom id n p b d = Ok (tt, d') -> step kek d d'
  | step_dht id b : SetRoomDHT id b d = Ok (tt, d') -> step kek d d'
  | step_acl id t : SetRoomACL id t d = Ok (tt, d') -> step kek d d'
  | step_dns id l : SetRoomDNS id l d = Ok (tt, d') -> step kek d d'
  | step_bump_room id : BumpRoom id d = Ok (tt, d') -> step kek d d'
  | step_delete_room id : DeleteRoom id d = Ok (tt, d') -> step kek d d'
  | step_add_member now m : AddMember now m d = Ok (tt, d') -> step kek d d'
  | step_update_member m : UpdateMember m d = Ok (tt, d') -> step kek d d'
  | step_delete_member r n : DeleteMember r n d = Ok (tt, d') -> step kek d d'
  | step_create_invite now i id : CreateInvite now i d = Ok (id, d') -> step kek d d'
  | step_use_invite now r t i : UseInvite now r t d = Ok (i, d') -> step kek d d'
  | step_revoke r id : RevokeInvite r id d = Ok (tt, d') -> step kek d d'
  | step_audit now a b c e : Audit now a b c e d = Ok (tt, d') -> step kek d d'
  | step_open nonces : OpenOptions kek nonces d = Ok (tt, d') -> step kek d d'.

Lemma step_wf kek d d' : step kek d d' -> wf d -> wf d'.
Proof.
  intros Hs Hd. destruct Hs as [v H | now l p a id H | id e H | id p H | id s n H | id s b H | id H | t u c e H
    | now t H | now n H | now id r b H | k v n H | now r n n' H | id n p b H | id b H | id t H | id l H | id H | id H
    | now m H | m H | r n H | now i id H | now r t i H | r id H | now a b c e H | nonces H].
  - by eapply BumpVersion_wf.
  - by eapply CreateUser_wf.
  - revert H. apply (keeps_exec_if wf); [| done]. intros d0 Hd0 _. by apply upd_users_wf.
  - revert H. apply (keeps_exec wf); [| done]. intros d0 Hd0. by apply upd_users_wf.
  - revert H. apply (keeps_exec wf); [| done]. intros d0 Hd0. by apply upd_users_wf.
  - injection H as _ <-. by apply upd_users_wf.
  - by eapply DeleteUser_wf.
  - by eapply CreateSession_wf.
  - by eapply DeleteSession_wf.
  - by eapply UpsertNode_wf.
  - by eapply UpdateNodeEndpoints_wf.
  - by eapply SetSetting_wf.
  - by eapply CreateRoom_wf.
  - by eapply upd_room_wf; [| exact Hd | exact H].
  - by eapply upd_room_wf; [| exact Hd | exact H].
  - by eapply upd_room_wf; [| exact Hd | exact H].
  - by eapply upd_room_wf; [| exact Hd | exact H].
  - by eapply upd_room_wf; [| exact Hd | exact H].
  - by eapply DeleteRoom_wf.
  - by eapply AddMember_wf.
  - by eapply UpdateMember_wf.
  - by eapply DeleteMember_wf.
  - by eapply CreateInvite_wf.
  - by eapply UseInvite_wf.
  - by eapply RevokeInvite_wf.
  - by eapply Audit_wf.
  - unfold OpenOptions in H. destruct kek; [by eapply sealAll_wf |].
    revert H. unfold Sealed. intros (b & d1 & [= <- <-] & H)%tx_bind_ok. destruct (existsb _ _); [done |]. by injection H as <-.
Qed.

(** after any statements on a new database the schema's invariant holds:
    ids, logins, session tokens, node keys, invite tokens and the addresses of a
    room are unique, every room has its owner, every member its room and node,
    every invite its room, every session its user. *)
Theorem schema_invariant d : rtc (fun d d' => exists kek, step kek d d') empty_db d -> wf d.
Proof.
  intros H. generalize wf_empty. induction H as [| x y z [kek Hs] _ IH]; [done |].
  intros Hx. by apply IH, (step_wf kek x y).
Qed.

End Steps.

(** ** Sealed secrets *)

Section Sealing.
Context `{AL : AeadLaws}.

Lemma open_seal k v n : length n = 24%nat -> open_ (Some k) (sealedPrefix ++ n ++ aead_seal k n v) = Ok v.
Proof.
  intros Hn. unfold open_, isSealed. rewrite HasPrefix_app. cbn [negb].
  rewrite drop_app_length. unfold NonceSize, zlen. rewrite length_app, Hn.
  destruct (Z.ltb_spec (Z.of_nat (24 + length (aead_seal k n v))) 24); [lia |].
  change (Z.to_nat 24) with 24%nat. rewrite take_app_length', drop_app_length' by done. by rewrite aead_open_seal.
Qed.

(** what is sealed opens to the same value with the same key, needs the key,
    and is marked; without a key, values that do not look sealed are kept as
    they are. *)
Theorem open_seal_spec kek v n : length n = 24%nat -> (kek = None -> isSealed v = false) ->
  open_ kek (seal kek v n) = Ok v
  /\ (is_Some kek -> isSealed (seal kek v n) = true /\ open_ None (seal kek v n) = Err ErrNeedKEK).
Proof.
  intros Hn Hv. destruct kek as [k |]; cbn [seal].
  - split; [by apply open_seal |]. intros _. unfold open_, isSealed. rewrite HasPrefix_app. done.
  - split; [| by intros [? ?]]. unfold open_. by rewrite Hv.
Qed.

Lemma seal_value_spec k v n v' : length n = 24%nat -> seal_value (Some k) v n = Ok v' ->
  isSealed v' = true /\ open_ (Some k) v' = open_ (Some k) v /\ is_ok (open_ (Some k) v') = true
  /\ forall n', seal_value (Some k) v' n' = Ok v'.
Proof.
  intros Hn. unfold seal_value. destruct (isSealed v) eqn:Hs.
  - intros (m & Hm & [= <-])%bind_ok. rewrite Hm, Hs. repeat split; try done.
  - intros H. assert (v' = sealedPrefix ++ n ++ aead_seal k n v) as -> by (unfold seal in H; congruence). clear H.
    assert (isSealed (sealedPrefix ++ n ++ aead_seal k n v) = true) as Hs' by apply HasPrefix_app.
    rewrite open_seal, Hs' by done. unfold open_ at 1. rewrite Hs. repeat split; try done.
Qed.

(** The secrets of a database after [OpenOptions] with a key. *)
Definition opened (k : bytes) (v v' : bytes) : Prop :=
  isSealed v' = true /\ open_ (Some k) v' = open_ (Some k) v /\ is_ok (open_ (Some k) v') = true.

Lemma seal_rooms_opened k nonces l : (forall i, length (nonces i) = 24%nat) -> forall i rs,
  seal_rooms (Some k) l nonces i = Ok rs ->
  Forall2 (fun r r' => opened k (Secret r) (Secret r') /\ opened k (SignKey r) (SignKey r')) l rs
  /\ forall j, seal_rooms (Some k) rs nonces j = Ok rs.
Proof.
  intros Hn. induction l as [| r l IH]; intros i rs; simpl; [by intros [= <-] |].
  intros (s & Hs & (g & Hg & (l' & Hl & [= <-])%bind_ok)%bind_ok)%bind_ok.
  apply seal_value_spec in Hs as (? & ? & ? & Hs); [| apply Hn]. apply seal_value_spec in Hg as (? & ? & ? & Hg); [| apply Hn].
  destruct (IH _ _ Hl) as [Hf Hj]. split; [by constructor |]. intros j. simpl. by rewrite Hs, Hg, Hj.
Qed.

Lemma seal_settings_opened k nonces l : (forall i, length (nonces i) = 24%nat) -> forall i kvs,
  seal_settings (Some k) l nonces i = Ok kvs ->
  Forall2 (fun kv kv' => fst kv' = fst kv /\ opened k (snd kv) (snd kv')) l kvs
  /\ forall j, seal_settings (Some k) kvs nonces j = Ok kvs.
Proof.
  intros Hn. induction l as [| [key v] l IH]; intros i kvs; simpl; [by intros [= <-] |].
  intros (s & Hs & (l' & Hl & [= <-])%bind_ok)%bind_ok.
  apply seal_value_spec in Hs as (? & ? & ? & Hs); [| apply Hn].
  destruct (IH _ _ Hl) as [Hf Hj]. split; [by constructor |]. intros j. simpl. by rewrite Hs, Hj.
Qed.

(** opening the database with a key seals every room secret, signing key and
    setting; they open to what they held, a second opening changes nothing, and
    opening without the key is refused once there is a room. The users, and so
    their one-time-code secrets, are not touched. *)
Theorem OpenOptions_seals k nonces d d' : (forall i, length (nonces i) = 24%nat) ->
  OpenOptions (Some k) nonces d = Ok (tt, d') ->
  Forall2 (fun r r' => opened k (Secret r) (Secret r') /\ opened k (SignKey r) (SignKey r')) (rooms d) (rooms d')
  /\ Forall2 (fun kv kv' => fst kv' = fst kv /\ opened k (snd kv) (snd kv')) (settings d) (settings d')
  /\ OpenOptions (Some k) nonces d' = Ok (tt, d')
  /\ (rooms d' <> [] -> OpenOptions None nonces d' = Err ErrNeedKEK)
  /\ users d' = users d.
Proof.
  intros Hn. simpl. intros (rs & Hr & (kvs & Hk & [= <-])%bind_ok)%bind_ok.
  destruct (seal_rooms_opened _ _ _ Hn _ _ Hr) as [Hf Hr2]. destruct (seal_settings_opened _ _ _ Hn _ _ Hk) as [Hg Hk2].
  simpl. split; [done |]. split; [done |]. split; [unfold sealAll; simpl; by rewrite Hr2; cbn [mbind res_bind]; rewrite Hk2 |].
  split; [| done]. destruct rs as [| r rs]; [done |]. intros _. inversion Hf as [| ? ? ? ? [_ (Hs & _)]]; subst.
  unfold mbind, tx_bind, Sealed, query. simpl. by rewrite Hs.
Qed.

End Sealing.

(** ** One-time codes *)

(** a time step of a one-time code is accepted once: after it was, neither it
    nor an earlier one is accepted again until the secret is changed, and an
    accepted step is later than the last one. *)
Theorem UseTOTPStep_once id s d b d1 : wf d -> UseTOTPStep id s d = Ok (b, d1) ->
  (b = true <-> exists r, r ∈ users d /\ uid r = id /\ totp_step r < s)
  /\ (b = true -> forall s', s' <= s -> exists d2, UseTOTPStep id s' d1 = Ok (false, d2))
  /\ (b = false -> d1 = d).
Proof.
  intros Hd. unfold UseTOTPStep. set (p := fun s r => (uid r =? id) && (totp_step r <? s)).
  change (fun r => (uid r =? id) && (totp_step r <? s)) with (p s). intros [= <- <-].
  assert (forall s, (zlen (List.filter (p s) (users d)) =? 1) = true <-> exists r, r ∈ users d /\ uid r = id /\ totp_step r < s) as Hone.
  { intros s0. assert (NoDup (map uid (List.filter (p s0) (users d)))) as Hn by (apply NoDup_map_Filter, Hd).
    assert (forall r, r ∈ List.filter (p s0) (users d) <-> r ∈ users d /\ uid r = id /\ totp_step r < s0) as Hin.
    { intros r. rewrite elem_of_Filter. unfold p. rewrite andb_true_iff, Z.eqb_eq, Z.ltb_lt. done. }
    destruct (List.filter (p s0) (users d)) as [| r [| r' l]].
    - split; [done |]. intros (r & Hr). by apply Hin, elem_of_nil in Hr.
    - split; [intros _; exists r; apply Hin; constructor | done].
    - exfalso. simpl in Hn. apply NoDup_cons in Hn as [Hx _]. destruct Hx.
      destruct (proj1 (Hin r) ltac:(constructor)) as (_ & -> & _).
      destruct (proj1 (Hin r') ltac:(constructor; constructor)) as (_ & <- & _). constructor. }
  split; [apply Hone |]. split.
  - intros Hb s' Hs'.
    assert (List.filter (fun r => (uid r =? id) && (totp_step r <? s')) (upd (p s)
      (fun r => MkUserRow (u_user r) (totp_secret r) s (oidc_email r)) (users d)) = []) as Hz.
    2: { eexists. cbv zeta. simpl users. rewrite Hz. reflexivity. }
    destruct (List.filter _ (upd _ _ _)) as [| r l] eqn:Hf; [done |]. exfalso.
    assert (r ∈ r :: l) as Hr by constructor. rewrite <- Hf in Hr. apply elem_of_Filter in Hr as [Hr Hp].
    apply elem_of_upd in Hr as (x & Hx & ->). apply andb_true_iff in Hp as [Hi%Z.eqb_eq Hl%Z.ltb_lt].
    destruct (p s x) eqn:Hpx; [simpl in Hl; lia |]. unfold p in Hpx. rewrite Hi, Z.eqb_refl in Hpx. simpl in Hpx. bool_hyps. lia.
  - intros Hb. rewrite upd_id; [by destruct d |]. intros r Hr. destruct (p s r) eqn:Hp; [| done].
    assert ((zlen (List.filter (p s) (users d)) =? 1) = true); [| congruence]. apply Hone.
    unfold p in Hp. apply andb_true_iff in Hp as [Hi%Z.eqb_eq Hl%Z.ltb_lt]. by exists r.
Qed.

(** ** Invites *)

Lemma UseInvite_inv now rid tok d inv d' : UseInvite now rid tok d = Ok (inv, d') ->
  inv ∈ invites d /\ i_RoomID inv = rid /\ TokenHash inv = tok /\ now < i_Expires inv /\ UsesLeft inv <> 0
  /\ d' = set_invites (if 0 <? UsesLeft inv
                       then upd (fun i => i_ID i =? i_ID inv) (fun i => set_uses (UsesLeft i - 1) i) (invites d)
                       else invites d) d.
Proof.
  unfold UseInvite. intros (i & d1 & H1 & (u & d2 & H2 & H3)%tx_bind_ok)%tx_bind_ok. injection H3 as -> ->.
  unfold one in H1. destruct (List.find _ _) as [x |] eqn:Hf; [| done]. injection H1 as -> <-.
  apply find_spec in Hf as [Hin Hp]. unfold usable in Hp.
  rewrite !andb_true_iff, !bool_decide_eq_true, Z.ltb_lt, negb_true_iff, Z.eqb_neq in Hp.
  destruct Hp as ([Hr Ht] & He & Hu). repeat split; try done.
  destruct (0 <? UsesLeft inv); injection H2 as _ <-; [done | by destruct d].
Qed.

Lemma UseInvite_usable now rid tok d i : wf d -> i ∈ invites d -> i_RoomID i = rid -> TokenHash i = tok ->
  usable now i = true -> exists d', UseInvite now rid tok d = Ok (i, d').
Proof.
  intros Hd Hi Hr Ht Hu. unfold UseInvite, mbind, tx_bind, one.
  destruct (List.find _ _) as [x |] eqn:Hf.
  - apply find_spec in Hf as [Hx Hp]. rewrite !andb_true_iff, !bool_decide_eq_true in Hp.
    assert (x = i) as -> by (apply (key_inj TokenHash (invites d)); [apply Hd | done | done | naive_solver congruence]).
    destruct (0 <? UsesLeft i); eexists; reflexivity.
  - apply list_elem_of_In in Hi. pose proof (find_none _ _ Hf i Hi) as Hn. cbv beta in Hn.
    rewrite Hr, Ht, Hu, !bool_decide_eq_true_2 in Hn by done. done.
Qed.

(** How many of the attempts at the times [nows] use the invite. *)
Fixpoint use_many (nows : list Z) (rid tok : bytes) (d : db) : nat * db :=
  match nows with
  | [] => (0%nat, d)
  | now :: nows =>
    match UseInvite now rid tok d with
    | Ok (_, d') => let '(n, d'') := use_many nows rid tok d' in (S n, d'')
    | _ => use_many nows rid tok d
    end
  end.

(** The row of the invite after one more use. *)
Lemma UseInvite_row now rid tok d inv d' i : wf d -> UseInvite now rid tok d = Ok (inv, d') ->
  i ∈ invites d -> TokenHash i = tok -> i = inv /\ wf d'
  /\ set_uses (if 0 <? UsesLeft i then UsesLeft i - 1 else UsesLeft i) i ∈ invites d'.
Proof.
  intros Hd H Hi Ht. pose proof (UseInvite_wf now rid tok _ _ _ Hd H) as Hd'.
  apply UseInvite_inv in H as (Hin & _ & Htok & _ & _ & ->).
  assert (i = inv) as <- by (apply (key_inj TokenHash (invites d)); [apply Hd | done | done | congruence]).
  split; [done |]. split; [done |]. simpl. destruct (Z.ltb_spec 0 (UsesLeft i)).
  - apply elem_of_upd. exists i. by rewrite Z.eqb_refl.
  - by destruct i.
Qed.

(** an invite with [n] uses lets at most [n] attempts through, whatever
    their times, and exactly [n] of the first [n] or more attempts before it
    expires; one with a negative count has no limit. *)
Theorem invite_uses nows rid tok d i : wf d -> i ∈ invites d -> i_RoomID i = rid -> TokenHash i = tok ->
  (0 <= UsesLeft i -> (fst (use_many nows rid tok d) <= Z.to_nat (UsesLeft i))%nat)
  /\ (Forall (fun now => now < i_Expires i) nows ->
      fst (use_many nows rid tok d)
      = if decide (0 <= UsesLeft i) then (length nows `min` Z.to_nat (UsesLeft i))%nat else length nows).
Proof.
  revert d i. induction nows as [| now nows IH]; intros d i Hd Hi Hr Ht; simpl.
  { split; [lia |]. by case_decide. }
  destruct (UseInvite now rid tok d) as [[inv d'] | e |] eqn:Hu.
  - destruct (UseInvite_row _ _ _ _ _ _ i Hd Hu Hi Ht) as (<- & Hd' & Hi').
    apply UseInvite_inv in Hu as (_ & _ & _ & _ & Hn & _).
    destruct (IH d' _ Hd' Hi' Hr Ht) as [IH1 IH2]. simpl in IH1, IH2.
    destruct (use_many nows rid tok d') as [n d'']. simpl in *.
    destruct (Z.ltb_spec 0 (UsesLeft i)) as [Hp | Hp].
    + split; [intros _; specialize (IH1 ltac:(lia)); lia |]. intros [_ Hf]%Forall_cons. rewrite IH2 by done.
      rewrite !decide_True by lia.
      by assert (Z.to_nat (UsesLeft i) = S (Z.to_nat (UsesLeft i - 1))) as -> by lia.
    + split; [lia |]. intros [_ Hf]%Forall_cons. rewrite IH2 by done. rewrite !decide_False by lia. done.
  - destruct (IH d i Hd Hi Hr Ht) as [IH1 IH2]. split; [done |]. intros [Hnow Hf]%Forall_cons.
    rewrite (IH2 Hf). destruct (Z.eq_dec (UsesLeft i) 0) as [Hz |]; [rewrite Hz, !decide_True by lia; simpl; lia |].
    destruct (UseInvite_usable now rid tok d i Hd Hi Hr Ht) as [d' Hx]; [| congruence].
    unfold usable. rewrite (proj2 (Z.ltb_lt _ _)), (proj2 (Z.eqb_neq _ _)) by done. done.
  - exfalso. revert Hu. unfold UseInvite, mbind, tx_bind, one. destruct (List.find _ _) as [x |]; [| done].
    by destruct (0 <? UsesLeft x).
Qed.

(** ** Witnesses *)

(** The toy AEAD: the text itself. *)
#[local] Instance toy_aead : Aead := {| aead_seal := fun _ _ m => m; aead_open := fun _ _ c => Some c |}.
#[local] Instance toy_aead_laws : AeadLaws toy_aead.
Proof. split. done. Qed.

Definition exUser : user_row := MkUserRow (MkUser 1 (str "root") [] true 0 false) (Some [1]) 5 [].
Definition exRoom : Room :=
  MkRoom (str "r") (str "room") (MkPrefix (Addr4 (10 * 2 ^ 24)) 24) [7] [8] 1 (str "manual") (str "on") [] [] false 1 0.
Definition exInvite : Invite := MkInvite 1 (str "r") [9] 2 100 true [] 1 0.
Definition exDb : db := MkDb 1 [exUser] [] [] [exRoom] [] [exInvite] [(str "relay_key", [6])] [].

Lemma exDb_wf : wf exDb.
Proof. split; simpl; repeat constructor; by intros ?%elem_of_nil. Qed.

Lemma schema_invariant_witness : exists d, BumpVersion empty_db = Ok (2, d) /\ wf d.
Proof.
  eexists. split; [reflexivity |]. apply (schema_invariant (A := toy_aead)). eapply rtc_l; [| apply rtc_refl].
  exists None. apply (step_bump (A := toy_aead) None _ _ 2). reflexivity.
Defined.

Lemma open_seal_spec_witness : open_ (Some [1]) (seal (Some [1]) [5; 6] (zeros 24)) = Ok [5; 6].
Proof. apply (open_seal_spec (AL := toy_aead_laws) (Some [1]) [5; 6] (zeros 24)); [reflexivity | discriminate]. Defined.

Lemma OpenOptions_seals_witness : exists d', OpenOptions (Some [1]) (fun _ => zeros 24) exDb = Ok (tt, d')
  /\ OpenOptions None (fun _ => zeros 24) d' = Err ErrNeedKEK.
Proof.
  eexists. split; [vm_compute; reflexivity |].
  eapply (OpenOptions_seals (AL := toy_aead_laws) [1] (fun _ => zeros 24) exDb); [reflexivity | vm_compute; reflexivity | discriminate].
Defined.

Lemma UseTOTPStep_once_witness : exists d1, UseTOTPStep 1 6 exDb = Ok (true, d1)
  /\ exists d2, UseTOTPStep 1 6 d1 = Ok (false, d2).
Proof.
  eexists. split; [reflexivity |].
  eapply (UseTOTPStep_once 1 6 exDb true); [apply exDb_wf | reflexivity | reflexivity | lia].
Defined.

Lemma invite_uses_witness : fst (use_many [50; 60; 70] (str "r") [9] exDb) = 2%nat.
Proof.
  transitivity (if decide (0 <= UsesLeft exInvite) then (length [50; 60; 70] `min` Z.to_nat (UsesLeft exInvite))%nat else 3%nat); [| reflexivity].
  apply (invite_uses [50; 60; 70] (str "r") [9] exDb exInvite exDb_wf); [constructor | reflexivity | reflexivity |].
  repeat constructor.
Defined.

(** A database with a sealed setting and no room opens without the key: only
    signing keys are looked at. *)
Example sealed_settings_only :
  OpenOptions None (fun _ => []) (set_settings [(str "relay_key", sealedPrefix)] empty_db)
  = Ok (tt, set_settings [(str "relay_key", sealedPrefix)] empty_db).
Proof. reflexivity. Qed.

End store.
