(* ===== verification/Schema.v ===== *)
(** The schema of the controller's database and its migrations
    (internal/store/schema.sql and the start of store.go).

    A database is its tables with their columns, its indexes and the version in
    table meta, 0 before there is one. Statements fail as SQLite's do: what is created must not exist,
    what is altered or indexed must. A migration and its version are one
    transaction. *)
From stdpp Require Import base gmap list strings sets relations.
From Stdlib Require Import ZArith Lia.
From S2P Require Import Prelude GoStrings Store.

Open Scope Z_scope.

Module schema.

(** ** Statements *)

Inductive ddl : Type :=
  | InitVersion                                   (* INSERT OR IGNORE INTO meta *)
  | CreateTable (if_missing : bool) (table : bytes) (columns : list bytes)
  | AddColumn (table column : bytes)
  | CreateIndex (if_missing : bool) (index table column : bytes).
Record shape := MkShape { tables : gmap bytes (list bytes); indexes : gset bytes; version : nat }.

Definition exec (d : ddl) (s : shape) : option shape :=
  match d with
  | InitVersion => Some (if (version s =? 0)%nat then MkShape (tables s) (indexes s) 1 else s)
  | CreateTable if_missing t cols =>
    match tables s !! t with
    | Some _ => if if_missing : bool then Some s else None
    | None => Some (MkShape (<[t := cols]> (tables s)) (indexes s) (version s))
    end
  | AddColumn t c =>
    match tables s !! t with
    | Some cols => if bool_decide (c ∈ cols) then None else Some (MkShape (<[t := cols ++ [c]]> (tables s)) (indexes s) (version s))
    | None => None
    end
  | CreateIndex if_missing i t c =>
    if bool_decide (i ∈ indexes s) then (if if_missing : bool then Some s else None)
    else match tables s !! t with
         | Some cols => if bool_decide (c ∈ cols) then Some (MkShape (tables s) ({[i]} ∪ indexes s) (version s)) else None
         | None => None
         end
  end.
Fixpoint execs (l : list ddl) (s : shape) : option shape :=
  match l with [] => Some s | d :: l => s ← exec d s; execs l s end.

Definition columns (l : list string) : list bytes := map str l.

(** schema.sql, by its statements. *)
Definition base : list ddl := [
  CreateTable true (str "meta") (columns ["key"; "value"]);
  InitVersion;
  CreateTable true (str "users") (columns ["id"; "login"; "pass_hash"; "is_admin"; "created_at"]);
  CreateTable true (str "sessions") (columns ["token_hash"; "user_id"; "csrf"; "expires_at"]);
  CreateTable true (str "nodes") (columns ["id"; "ed_key"; "box_key"; "name"; "public_ip"; "udp_port"; "locals"; "client_version"; "last_seen"; "created_at"]);
  CreateTable true (str "rooms") (columns ["id"; "name"; "subnet"; "secret"; "sign_key"; "owner_id"; "join_policy"; "version"; "created_at"]);
  CreateTable true (str "members") (columns ["room_id"; "node_id"; "name"; "wg_key"; "ip"; "tags"; "status"; "created_at"]);
  CreateIndex true (str "members_node") (str "members") (str "node_id");
  CreateTable true (str "invites") (columns ["id"; "room_id"; "token_hash"; "uses_left"; "expires_at"; "auto_approve"; "note"; "created_by"; "created_at"]);
  CreateTable true (str "audit") (columns ["id"; "ts"; "actor"; "action"; "target"; "details"])].

Definition add (table column : string) : ddl := AddColumn (str table) (str column).
Definition migrations : list (list ddl) := [
  [add "nodes" "nat_type"; add "nodes" "reflexive"; add "nodes" "portmap"];
  [add "nodes" "disco_key"];
  [CreateTable false (str "settings") (columns ["key"; "value"]); add "nodes" "relay"; CreateIndex false (str "nodes_disco") (str "nodes") (str "disco_key")];
  [add "rooms" "broadcast"];
  [add "nodes" "routes"; add "members" "routes"];
  [add "nodes" "exit_offer"; add "members" "exit"; add "members" "use_exit"];
  [add "nodes" "exit_dns"];
  [add "rooms" "dns"];
  [add "rooms" "acl"];
  [add "rooms" "dht"];
  [add "users" "totp_secret"; add "users" "totp_step"];
  [add "users" "oidc_email"; CreateIndex false (str "users_oidc_email") (str "users") (str "oidc_email")]].
Definition SchemaVersion : nat := 1 + length migrations.

(** ** Opening a database *)

Inductive error := ENewer (v : nat) | EInit | EMigrate (to : nat).

(** The transaction of one migration; [broken]: the disk or the process fails
    before the commit of the migration to this version. *)
Definition migrate1 (broken : nat -> bool) (s : shape) : option shape :=
  l ← migrations !! (version s - 1)%nat;
  if broken (S (version s)) then None
  else s' ← execs l s; Some (MkShape (tables s') (indexes s') (S (version s))).

Fixpoint migrate_loop (broken : nat -> bool) (fuel : nat) (s : shape) : option error * shape :=
  if (version s <? SchemaVersion)%nat then
    match fuel with
    | O => (None, s)
    | S fuel => match migrate1 broken s with
                | Some s' => migrate_loop broken fuel s'
                | None => (Some (EMigrate (S (version s))), s)
                end
    end
  else (None, s).
Definition migrate (broken : nat -> bool) (s : shape) : option error * shape :=
  if (SchemaVersion <? version s)%nat then (Some (ENewer (version s)), s)
  else migrate_loop broken (SchemaVersion - version s) s.

(** [OpenOptions] up to the keys. The statements of [base] are not one
    transaction: when the process dies, the first [stop] of them are executed. *)
Definition open (stop : nat) (broken : nat -> bool) (s : shape) : option error * shape :=
  match execs (take stop base) s with
  | None => (Some EInit, s)
  | Some s' => if (stop <? length base)%nat then (Some EInit, s') else migrate broken s'
  end.
Definition new_file : shape := MkShape ∅ ∅ 0.

(** ** The stages of a database: after so many statements of the base, then after
    so many migrations. *)

#[export] Instance shape_eq_dec : EqDecision shape.
Proof. solve_decision. Defined.

Definition sound (_ : nat) : bool := false.
Fixpoint migrated (n : nat) (s : shape) : shape :=
  match n with O => s | S n => default s (migrate1 sound (migrated n s)) end.
Definition stage (n : nat) : shape :=
  migrated (n - length base) (default new_file (execs (take n base) new_file)).
Definition last_stage : nat := length base + length migrations.
Definition complete : shape := stage (length base + length migrations).

Definition base_check : bool := forallb (fun i => forallb (fun k =>
  bool_decide (execs (take k base) (stage i) = Some (stage (Nat.max i k)))) (seq 0 (S (length base)))) (seq 0 (S last_stage)).
Definition migrate_check : bool := forallb (fun i =>
  bool_decide (migrate1 sound (stage (length base + i)) = Some (stage (length base + S i)))
  && (version (stage (length base + i)) =? S i)%nat) (seq 0 (length migrations)).
Lemma checks : base_check = true /\ migrate_check = true /\ version (stage (length base + length migrations)) = SchemaVersion.
Proof. vm_compute. done. Qed.

Lemma base_stage i k : (i <= last_stage)%nat -> (k <= length base)%nat -> execs (take k base) (stage i) = Some (stage (Nat.max i k)).
Proof.
  intros Hi Hk. destruct checks as (H & _ & _). unfold base_check in H. rewrite forallb_forall in H.
  specialize (H i). rewrite in_seq in H. specialize (H ltac:(lia)). rewrite forallb_forall in H.
  specialize (H k). rewrite in_seq in H. specialize (H ltac:(lia)). by apply bool_decide_eq_true in H.
Qed.
Lemma migrate_stage i : (i < length migrations)%nat ->
  migrate1 sound (stage (length base + i)) = Some (stage (length base + S i)) /\ version (stage (length base + i)) = S i.
Proof.
  intros Hi. destruct checks as (_ & H & _). unfold migrate_check in H. rewrite forallb_forall in H.
  specialize (H i). rewrite in_seq in H. specialize (H ltac:(lia)). apply andb_true_iff in H as [H1 H2].
  apply bool_decide_eq_true in H1. by apply Nat.eqb_eq in H2.
Qed.
Lemma version_last : version (stage (length base + length migrations)) = SchemaVersion.
Proof. apply checks. Qed.
#[local] Opaque stage.
Lemma migrate1_broken broken s s' : migrate1 broken s = Some s' -> migrate1 sound s = Some s'.
Proof. unfold migrate1. destruct (migrations !! _); [| done]. cbn. by destruct (broken _). Qed.

(** The loop: some migrations, and all of them when nothing breaks. *)
Lemma migrate_loop_stage broken fuel i : (i <= length migrations)%nat -> (length migrations - i <= fuel)%nat ->
  exists j, (i <= j <= length migrations)%nat /\ (migrate_loop broken fuel (stage (length base + i))).2 = stage (length base + j)
    /\ ((migrate_loop broken fuel (stage (length base + i))).1 = None -> j = length migrations)
    /\ ((forall v, broken v = false) -> (migrate_loop broken fuel (stage (length base + i))).1 = None).
Proof.
  revert i. induction fuel as [| fuel IH]; intros i Hi Hf; cbn [migrate_loop].
  - assert (i = length migrations) as -> by lia. exists (length migrations). rewrite version_last, Nat.ltb_irrefl. cbn [fst snd]. done.
  - destruct (decide (i = length migrations)) as [-> | Hne].
    { exists (length migrations). rewrite version_last, Nat.ltb_irrefl. cbn [fst snd]. done. }
    destruct (migrate_stage i) as [Hm Hv]; [lia |]. rewrite Hv. rewrite (proj2 (Nat.ltb_lt _ _)) by (unfold SchemaVersion; lia).
    destruct (migrate1 broken _) as [s' |] eqn:Hb.
    + apply migrate1_broken in Hb. rewrite Hm in Hb. injection Hb as <-.
      destruct (IH (S i)) as (j & Hj & H1 & H2 & H3); [lia | lia |]. exists j. split; [lia | done].
    + exists i. split; [lia |]. split; [done |]. split; [done |]. intros Hbr. unfold migrate1 in *. rewrite Hv in Hb, Hm.
      destruct (migrations !! _); [| done]. cbn in Hb, Hm. rewrite Hbr in Hb. rewrite Hm in Hb. done.
Qed.

(** ** Opening *)

Inductive opens (s : shape) : shape -> Prop :=
  | opened stop broken : (stop <= length base)%nat -> opens s (open stop broken s).2.

Lemma open_stage stop broken i : (i <= last_stage)%nat -> (stop <= length base)%nat ->
  exists j, (i <= j <= last_stage)%nat /\ (open stop broken (stage i)).2 = stage j
    /\ ((open stop broken (stage i)).1 = None -> j = last_stage)
    /\ (stop = length base -> (forall v, broken v = false) -> (open stop broken (stage i)).1 = None).
Proof.
  intros Hi Hs. unfold open. rewrite base_stage by done. destruct (stop <? length base)%nat eqn:Hlt.
  - apply Nat.ltb_lt in Hlt. exists (Nat.max i stop). unfold last_stage in *. repeat split; try done; lia.
  - apply Nat.ltb_ge in Hlt. assert (exists m, Nat.max i stop = (length base + m)%nat /\ (i <= length base + m)%nat /\ (m <= length migrations)%nat) as (m & -> & Him & Hm)
      by (exists (Nat.max i stop - length base)%nat; unfold last_stage in *; lia).
    assert (version (stage (length base + m)) = S m) as Hv.
    { destruct (decide (m = length migrations)) as [-> | ?]; [apply version_last | apply migrate_stage; lia]. }
    unfold migrate. rewrite Hv, (proj2 (Nat.ltb_ge _ _)) by (unfold SchemaVersion; lia).
    destruct (migrate_loop_stage broken (SchemaVersion - S m) m Hm) as (j & Hj & H1 & H2 & H3); [unfold SchemaVersion; lia |].
    exists (length base + j)%nat. unfold last_stage in *. split; [lia |]. split; [done |]. split; [intros H; rewrite H2 by done; lia | done].
Qed.

(** C8: however often opening a new database file is broken off, in the middle of the
    first statements or between two migrations, the next opening that is not
    completes it: with all tables, columns and indexes of this version. *)
Theorem open_completes s broken : rtc opens new_file s -> (forall v, broken v = false) -> open (length base) broken s = (None, complete).
Proof.
  intros Hs Hb. assert (exists i, (i <= last_stage)%nat /\ s = stage i) as (i & Hi & ->).
  { assert (exists i, (i <= last_stage)%nat /\ new_file = stage i) as H by (exists O; split; [lia | reflexivity]).
    revert H. induction Hs as [s | s s1 s2 [stop br Hst] _ IH]; [done |]. intros (i & Hi & ->). apply IH.
    destruct (open_stage stop br i Hi Hst) as (j & Hj & -> & _). exists j. split; [lia | done]. }
  destruct (open_stage (length base) broken i Hi (le_n _)) as (j & _ & H1 & H2 & H3). specialize (H3 eq_refl Hb).
  rewrite (surjective_pairing (open _ _ _)), H1, H3, (H2 H3). done.
Qed.

(** a database of a newer version is left alone. *)
Theorem open_newer s broken : (SchemaVersion < version s)%nat -> execs base s = Some s -> open (length base) broken s = (Some (ENewer (version s)), s).
Proof.
  intros Hv He. unfold open. rewrite (take_ge base) by lia. rewrite He, Nat.ltb_irrefl. unfold migrate.
  by rewrite (proj2 (Nat.ltb_lt _ _)).
Qed.

(** ** The columns that the statements name *)

Definition used : list (bytes * list bytes) := [
  (str "meta", columns ["key"; "value"]);
  (str "users", columns ["id"; "login"; "pass_hash"; "is_admin"; "created_at"; "totp_secret"; "totp_step"; "oidc_email"]);
  (str "sessions", columns ["token_hash"; "user_id"; "csrf"; "expires_at"]);
  (str "nodes", columns ["id"; "ed_key"; "box_key"; "name"; "public_ip"; "udp_port"; "locals"; "client_version"; "last_seen"; "created_at"; "nat_type";
    "reflexive"; "portmap"; "disco_key"; "relay"; "routes"; "exit_offer"; "exit_dns"]);
  (str "rooms", columns ["id"; "name"; "subnet"; "secret"; "sign_key"; "owner_id"; "join_policy"; "version"; "created_at"; "broadcast"; "dns"; "acl"; "dht"]);
  (str "members", columns ["room_id"; "node_id"; "name"; "wg_key"; "ip"; "tags"; "status"; "created_at"; "routes"; "exit"; "use_exit"]);
  (str "invites", columns ["id"; "room_id"; "token_hash"; "uses_left"; "expires_at"; "auto_approve"; "note"; "created_by"; "created_at"]);
  (str "settings", columns ["key"; "value"]);
  (str "audit", columns ["id"; "ts"; "actor"; "action"; "target"; "details"])].

(** every column that a statement of the store names is in the complete schema,
    and the schema has no others. *)
Theorem columns_match t cols : tables complete !! t = Some cols <-> exists cols', (t, cols') ∈ used /\ cols = cols'.
Proof.
  assert (tables complete = list_to_map used) as -> by (vm_compute; reflexivity).
  rewrite <- elem_of_list_to_map; [naive_solver |]. apply (bool_decide_unpack (NoDup used.*1)). vm_compute. exact I.
Qed.

(** Broken off after five statements, then at the seventh version. *)
Lemma open_completes_witness : let broken := fun v => (v =? 7)%nat in
  let s := (open (length base) broken (open 5 sound new_file).2).2 in version s = 6%nat /\ open (length base) sound s = (None, complete).
Proof.
  cbv zeta. split; [vm_compute; reflexivity |]. apply open_completes; [| reflexivity].
  apply rtc_l with (open 5 sound new_file).2; [constructor; vm_compute; lia |]. apply rtc_once. by constructor.
Defined.
End schema.
