(* ===== verification/Controller.v ===== *)
(** The controller's service (internal/controller/service.go, hub.go and the
    status mapping of nodeapi.go): rooms, invites, members, the node API, and
    the network map the controller signs for a node.

    A service operation is a function of the service's state; the part inside
    the transaction is a [Tx]. [now] is [s.now()] in nanoseconds, and every
    random value (secrets, seeds, tokens, nonces) is an argument. Texts of
    errors are constructors with what they quote. *)
From stdpp Require Import base list gmap strings.
From Stdlib Require Import ZArith Lia.
From S2P Require Import Prelude GoStrings GoText Netip Acl Encoding Crypto Obfs Identity Pki Store.

Open Scope Z_scope.

Module controller.

Definition OnlineWindow : Z := 90 * Second.
Definition subnetPool : Prefix := MkPrefix (Addr4 (10 * 2 ^ 24 + 128 * 2 ^ 16)) 9.

(** What an "invalid request" says. *)
Inductive msg : Type :=
  | MRoomName | MPolicy | MRoomQuota (n : Z) | MSubnet | MOverlap (p u : Prefix) | MBroadcast
  | MDNS (f : bytes) | MDNSCount | MRules (e : acl.error) | MNoMember (s : bytes) | MWhere (s : bytes)
  | MProto | MTTL | MNote | MNoExit | MNotExit (name : bytes) | MNoRoutes | MNoExitOffer | MAction (act : bytes)
  | MMemberName | MTag (t : bytes) | MIP (p : Prefix) | MIPTaken (a : Addr) (name : bytes) | MFull (p : Prefix) | MKeys.

Inductive error : Type :=
  | EStore (e : store.error)
  | ErrForbidden
  | EInvalid (m : msg)
  | ENoFreeSubnet
  | EAcl (e : acl.error)
  | EPki (e : pki.error).

(** [apiError]: the HTTP status of an error. *)
Definition apiStatus (e : error) : Z :=
  match e with
  | ErrForbidden => 403
  | EStore store.ErrNotFound => 404
  | EInvalid _ => 400
  | _ => 500
  end.

(** ** The hub (hub.go)

    A generation of the [changed] channel; closing it starts the next one. *)
Record hub := MkHub { h_version : Z; h_gen : nat }.
Definition newHub (v : Z) : hub := MkHub v 0.
Definition hub_set (h : hub) (v : Z) : hub := if h_version h <? v then MkHub v (S (h_gen h)) else h.
(** [wait]: [None] returns at once, [Some g] blocks until generation [g] ends. *)
Definition hub_wait (h : hub) (since : Z) : option nat := if negb (h_version h =? since) then None else Some (h_gen h).
Definition woken (h : hub) (g : nat) : bool := negb (h_gen h =? g)%nat.

Record PathStats := MkPathStats { Direct : Z; RelayPaths : Z }.

Record Service := MkService {
  st : store.db; hub_ : hub; maxRooms : Z; maxMembers : Z; paths : gmap bytes PathStats }.

Definition NewService (d : store.db) : Service := MkService d (newHub (store.version d)) 0 0 ∅.
Definition SetQuotas (s : Service) (r m : Z) : Service := MkService (st s) (hub_ s) r m (paths s).

(** Calls of the store inside a service transaction. *)
Notation Tx := (store.Tx error).
Definition tx {A} (m : store.Tx store.error A) : Tx A := store.map_tx EStore m.
Definition forbid {A} (m : store.Tx store.error A) : Tx A := store.map_tx (fun _ => ErrForbidden) m.
Definition invalid {A} (m : msg) : Tx A := store.fail (EInvalid m).

(** [st.Tx], [st.Read] and [change]. *)
Definition Tx_ {A} (s : Service) (fn : Tx A) : res error A * Service :=
  match fn (st s) with
  | Ok (a, d) => (Ok a, MkService d (hub_ s) (maxRooms s) (maxMembers s) (paths s))
  | Err e => (Err e, s)
  | Panic => (Panic, s)
  end.
Definition Read {A} (s : Service) (fn : Tx A) : res error A := fst <$> fn (st s).

Definition change {A} (s : Service) (fn : Tx A) : res error A * Service :=
  match (a ← fn; v ← tx store.BumpVersion; mret (a, v)) (st s) with
  | Ok ((a, v), d) => (Ok a, MkService d (hub_set (hub_ s) v) (maxRooms s) (maxMembers s) (paths s))
  | Err e => (Err e, s)
  | Panic => (Panic, s)
  end.

Definition canManage (u : store.User) (r : store.Room) : bool := store.IsAdmin u || (store.OwnerID r =? store.u_ID u).

Definition ValidateRoomName (name : bytes) : option bytes :=
  let name := TrimSpace name in
  let n := RuneCount name in
  if (n <? 1) || (40 <? n) then None else Some name.

Definition validPolicy (p : bytes) : bool := bool_decide (p = str "manual") || bool_decide (p = str "auto").

(** [byte(i)] of a number. *)
Definition pool_subnet (i : Z) : Prefix :=
  PrefixFrom (AddrFrom4 [10; u8 (128 + u8 (Z.shiftr i 8)); u8 i; 0]) 24.

(** The 200 random numbers below [blocks] are [rnds]. *)
Fixpoint pick (used : list Prefix) (rnds : list Z) : res error Prefix :=
  match rnds with
  | [] => Err ENoFreeSubnet
  | i :: rnds =>
    let p := pool_subnet i in
    if existsb (fun u => Overlaps u p) used then pick used rnds else Ok p
  end.
Definition blocks : Z := Z.shiftl 1 (24 - pfx_bits subnetPool).
Definition pickSubnet (used : list Prefix) (rnds : list Z) : res error Prefix :=
  pick used (map (fun r => r mod blocks) (take 200 rnds)).

(** ** Addresses of members *)

Definition lastAddr {E} (p : Prefix) : res E Addr :=
  b ← As4 (pfx_ip (Masked p));
  let host := u32 (u32 (2 ^ (32 - pfx_bits p)) - 1) in
  Ok (AddrFrom4 (put_be 4 (Z.lor (be b) host))).

Definition usableHost {E} (p : Prefix) (a : Addr) : res E bool :=
  if negb (Contains p a) || bool_decide (a = pfx_ip (Masked p)) then Ok false
  else last ← lastAddr p; Ok (negb (bool_decide (a = last))).

(** The loop over the addresses from [a] on. *)
Fixpoint next_free (fuel : nat) (p : Prefix) (used : list Addr) (a : Addr) : res error Addr :=
  match fuel with
  | O => Err (EInvalid (MFull p))
  | S fuel =>
    if Contains p a then
      ok ← usableHost p a;
      if ok && negb (bool_decide (a ∈ used)) then Ok a else next_free fuel p used (Next a)
    else Err (EInvalid (MFull p))
  end.

(** A subnet has [2 ^ (32 - bits)] addresses, which is the fuel. *)
Definition allocateIP (p : Prefix) (members : list store.Member) : res error Addr :=
  next_free (Z.to_nat (2 ^ (32 - pfx_bits p))) p (map (fun m => store.IP (store.m_row m)) members) (Next (pfx_ip (Masked p))).

(** [fmt.Sprint] of the values in audit details. *)
Definition bool_String (b : bool) : bytes := if b then str "true" else str "false".

Section Service.
Context `{CR : Crypto} `{A : Aead} `{J : pki.Json} (kek : option bytes).
Context (EqualFold : bytes -> bytes -> bool).

Definition Unix (now : Z) : Z := now / Second.
Definition audit (now : Z) (actor action target : bytes) (details : list bytes) : Tx unit :=
  tx (store.Audit (Unix now) actor action target details).
Definition BumpRoom (roomID : bytes) : Tx unit := tx (store.BumpRoom roomID).

Definition roomFor (u : store.User) (roomID : bytes) : Tx store.Room :=
  r ← tx (store.RoomByID kek roomID);
  if canManage u r then mret r else store.fail ErrForbidden.

(** ** Rooms *)

Definition room_quota (s : Service) (u : store.User) : Tx unit :=
  if (0 <? maxRooms s) && negb (store.IsAdmin u) then
    own ← tx (store.ListRooms kek (store.u_ID u));
    if maxRooms s <=? zlen own then invalid (MRoomQuota (maxRooms s)) else mret tt
  else mret tt.

(** The subnet of a new room: the wanted one, or a free one of the pool. *)
Definition choose_subnet (subnet : bytes) (used : list Prefix) (rnds : list Z) : res error Prefix :=
  let subnet := TrimSpace subnet in
  if negb (bool_decide (subnet = [])) then
    match ParsePrefix subnet with
    | None => Err (EInvalid MSubnet)
    | Some p =>
      if negb (Is4 (pfx_ip p)) || negb (IsPrivate (pfx_ip p)) || (pfx_bits p <? 16) || (29 <? pfx_bits p)
      then Err (EInvalid MSubnet)
      else match List.find (fun u => Overlaps u p) used with
           | Some u => Err (EInvalid (MOverlap (Masked p) u))
           | None => Ok (Masked p)
           end
    end
  else pickSubnet used rnds.

(** The random values of a new room. *)
Record room_rnd := MkRoomRnd { rnd_secret : bytes; rnd_seed : bytes; rnd_subnet : list Z; rnd_nonce : bytes; rnd_nonce' : bytes }.

Definition new_room (u : store.User) (name policy : bytes) (subnet : Prefix) (rnd : room_rnd) : store.Room :=
  store.MkRoom (obfs.RoomID (rnd_secret rnd)) name subnet (rnd_secret rnd) (pki.NewKeyFromSeed (rnd_seed rnd))
    (store.u_ID u) policy [] [] [] false 0 0.

Definition CreateRoom (s : Service) (now : Z) (u : store.User) (name subnet policy : bytes) (rnd : room_rnd)
    : res error store.Room * Service :=
  match ValidateRoomName name with
  | None => (Err (EInvalid MRoomName), s)
  | Some name =>
    if negb (validPolicy policy) then (Err (EInvalid MPolicy), s)
    else change s
      (_ ← room_quota s u;
       used ← tx store.AllSubnets;
       p ← store.lift (choose_subnet subnet used (rnd_subnet rnd));
       let r := new_room u name policy p rnd in
       _ ← tx (store.CreateRoom kek (Unix now) r (rnd_nonce rnd) (rnd_nonce' rnd));
       _ ← audit now (store.Login u) (str "room.create") (store.r_ID r) [name; Prefix_String p];
       mret r)
  end.

(** The common part of the changes of a room's settings. *)
Definition room_change (s : Service) (now : Z) (u : store.User) (roomID : bytes) (fn : Tx unit)
    (action : bytes) (details : list bytes) : res error unit * Service :=
  change s
    (_ ← roomFor u roomID;
     _ ← fn;
     _ ← BumpRoom roomID;
     audit now (store.Login u) action roomID details).

Definition UpdateRoom (s : Service) (now : Z) (u : store.User) (roomID name policy broadcast : bytes)
    : res error unit * Service :=
  match ValidateRoomName name with
  | None => (Err (EInvalid MRoomName), s)
  | Some name =>
    if negb (validPolicy policy) then (Err (EInvalid MPolicy), s)
    else if negb (bool_decide (broadcast = str "on")) && negb (bool_decide (broadcast = str "off"))
            && negb (bool_decide (broadcast = str "mdns")) then (Err (EInvalid MBroadcast), s)
    else room_change s now u roomID (tx (store.UpdateRoom roomID name policy broadcast)) (str "room.update")
           [name ++ [32] ++ policy ++ str " broadcast=" ++ broadcast]
  end.

Definition dns_sep (c : Z) : bool := (c =? 44) || (c =? 32) || (c =? 59).

(** The loop over the words of the DNS field; [acc] is the list so far. *)
Fixpoint parse_dns (fs : list bytes) (acc : list Addr) : res error (list Addr) :=
  match fs with
  | [] => Ok acc
  | f :: fs =>
    match ParseAddr f with
    | Some a =>
      if negb (pki.ValidDNS a) then Err (EInvalid (MDNS f))
      else parse_dns fs (if decide (a ∈ acc) then acc else acc ++ [a])
    | None => Err (EInvalid (MDNS f))
    end
  end.

Definition SetRoomDNS (s : Service) (now : Z) (u : store.User) (roomID servers : bytes) : res error unit * Service :=
  match parse_dns (FieldsFunc dns_sep servers) [] with
  | Ok dns =>
    if pki.MaxDNS <? zlen dns then (Err (EInvalid MDNSCount), s)
    else room_change s now u roomID (tx (store.SetRoomDNS roomID dns)) (str "room.dns") (Addr_String <$> dns)
  | Err e => (Err e, s)
  | Panic => (Panic, s)
  end.

(** [Backup]: only an admin; [ok] says whether the copy was written. *)
Definition Backup (s : Service) (now : Z) (u : store.User) (ok : res error unit) : res error unit * Service :=
  if negb (store.IsAdmin u) then (Err ErrForbidden, s)
  else match ok with
       | Ok _ => Tx_ s (audit now (store.Login u) (str "backup") [] [[]])
       | e => (e, s)
       end.

Definition SetRoomDHT (s : Service) (now : Z) (u : store.User) (roomID : bytes) (on : bool) : res error unit * Service :=
  room_change s now u roomID (tx (store.SetRoomDHT roomID on)) (str "room.dht") [bool_String on].

(** The rules as they are kept: with Unix line ends and one at the end. *)
Definition clean_rules (text : bytes) (rules : list acl.Rule) : bytes :=
  match rules with [] => [] | _ => TrimSpace (unix_lines text) ++ [10] end.

Definition SetRoomACL (s : Service) (now : Z) (u : store.User) (roomID text : bytes) : res error unit * Service :=
  match acl.Parse text with
  | Ok rules =>
    room_change s now u roomID (tx (store.SetRoomACL roomID (clean_rules text rules))) (str "room.acl") [Itoa (zlen rules)]
  | Err e => (Err (EInvalid (MRules e)), s)
  | Panic => (Panic, s)
  end.

Definition DeleteRoom (s : Service) (now : Z) (u : store.User) (roomID : bytes) : res error unit * Service :=
  change s
    (r ← roomFor u roomID;
     _ ← tx (store.DeleteRoom roomID);
     audit now (store.Login u) (str "room.delete") roomID [store.r_Name r]).

Record RoomView := MkRoomView {
  v_Room : store.Room; RoomKey : bytes; v_Members : list store.Member; v_Invites : list store.Invite }.

Definition Rooms (s : Service) (u : store.User) : res error (list store.Room) :=
  Read s (tx (store.ListRooms kek (if store.IsAdmin u then 0 else store.u_ID u))).

Definition Room (s : Service) (now : Z) (u : store.User) (roomID : bytes) : res error RoomView :=
  Read s
    (r ← roomFor u roomID;
     pub ← store.lift (pki.PrivateKey_Public (store.SignKey r));
     ms ← tx (store.ListMembers roomID);
     invs ← tx (store.ListInvites (Unix now) roomID);
     mret (MkRoomView r (pki.RoomKeyString pub) ms invs)).

(** ** What the rules allow *)

Definition member_addr (who : bytes) (ms : list store.Member) : Addr :=
  fold_left (fun acc m => let r := store.m_row m in
    if EqualFold (store.m_Name r) who || bool_decide (store.m_NodeID r = who) then store.IP r else acc) ms AddrZero.

Definition proto_of (proto : bytes) : Z :=
  let p := ToLower proto in
  if bool_decide (p = str "tcp") then acl.TCP else if bool_decide (p = str "udp") then acl.UDP
  else if bool_decide (p = str "icmp") then acl.ICMP else 0.

Definition TestACL (s : Service) (now : Z) (u : store.User) (roomID from to proto : bytes) (port : Z)
    : res error (bool * bytes) :=
  v ← Room s now u roomID;
  rules ← map_err EAcl (acl.Parse (store.ACL (v_Room v)));
  let pol := acl.MkPolicy rules
    (map (fun m => let r := store.m_row m in acl.MkMember (store.m_Name r) (store.IP r) (store.Tags r)) (v_Members v))
    (store.Subnet (v_Room v)) in
  let src := member_addr from (v_Members v) in
  if negb (IsValid src) then Err (EInvalid (MNoMember from))
  else
    let dst := member_addr to (v_Members v) in
    dst ← (if IsValid dst then Ok dst else from_option (ParseAddr to) (EInvalid (MWhere to)));
    let p := proto_of proto in
    if (p =? 0) || (port <? 0) || (65535 <? port) then Err (EInvalid MProto)
    else
      let '(ok, i) := acl.Allowed EqualFold pol src dst p (u16 port) in
      if negb ok || (i <? 0) then Ok (ok, [])
      else r ← slice rules i (i + 1); Ok (true, TrimSpace (acl.String r)).

(** ** Invites *)

Definition hashToken (t : bytes) : bytes := sha256 t.

Record ApiInvite := MkApiInvite { i_Controller : bytes; i_Room : bytes; i_RoomKey : bytes; i_Token : bytes }.

(** [raw]: the 18 random bytes of the token. *)
Definition CreateInvite (s : Service) (now : Z) (u : store.User) (controllerURL roomID : bytes) (uses ttl : Z)
    (autoApprove : bool) (note raw : bytes) : res error ApiInvite * Service :=
  if (ttl <=? 0) || (365 * 24 * Hour <? ttl) then (Err (EInvalid MTTL), s)
  else
    let uses := if uses <=? 0 then -1 else uses in
    if 100 <? RuneCount note then (Err (EInvalid MNote), s)
    else
      let token := encode64url raw in
      change s
        (r ← roomFor u roomID;
         _ ← tx (store.CreateInvite (Unix now) (store.MkInvite 0 roomID (hashToken token) uses (Unix (now + ttl))
               autoApprove (TrimSpace note) (store.u_ID u) 0));
         pub ← store.lift (pki.PrivateKey_Public (store.SignKey r));
         _ ← audit now (store.Login u) (str "invite.create") roomID [Itoa uses; Itoa ttl; bool_String autoApprove; note];
         mret (MkApiInvite (TrimRight controllerURL 47) roomID (pki.RoomKeyString pub) token)).

Definition RevokeInvite (s : Service) (now : Z) (u : store.User) (roomID : bytes) (id : Z) : res error unit * Service :=
  change s
    (_ ← roomFor u roomID;
     _ ← tx (store.RevokeInvite roomID id);
     audit now (store.Login u) (str "invite.revoke") roomID [Itoa id]).

(** ** Members *)

(** The row of a member with other settings. *)
Definition with_status (m : store.member_row) (st : bytes) : store.member_row :=
  store.MkMemberRow (store.m_RoomID m) (store.m_NodeID m) (store.m_Name m) (store.WGKey m) (store.IP m) (store.Tags m)
    st (store.m_CreatedAt m) (store.Routes m) (store.Exit m) (store.UseExit m).
Definition with_routes (m : store.member_row) (rs : list Prefix) : store.member_row :=
  store.MkMemberRow (store.m_RoomID m) (store.m_NodeID m) (store.m_Name m) (store.WGKey m) (store.IP m) (store.Tags m)
    (store.Status m) (store.m_CreatedAt m) rs (store.Exit m) (store.UseExit m).
Definition with_exit (m : store.member_row) (b : bool) : store.member_row :=
  store.MkMemberRow (store.m_RoomID m) (store.m_NodeID m) (store.m_Name m) (store.WGKey m) (store.IP m) (store.Tags m)
    (store.Status m) (store.m_CreatedAt m) (store.Routes m) b (store.UseExit m).
Definition with_use_exit (m : store.member_row) (x : bytes) : store.member_row :=
  store.MkMemberRow (store.m_RoomID m) (store.m_NodeID m) (store.m_Name m) (store.WGKey m) (store.IP m) (store.Tags m)
    (store.Status m) (store.m_CreatedAt m) (store.Routes m) (store.Exit m) x.
Definition with_place (m : store.member_row) (name : bytes) (ip : Addr) (tags : list bytes) : store.member_row :=
  store.MkMemberRow (store.m_RoomID m) (store.m_NodeID m) name (store.WGKey m) ip tags
    (store.Status m) (store.m_CreatedAt m) (store.Routes m) (store.Exit m) (store.UseExit m).

(** Check of the exit picked for a member: its name in the audit. *)
Definition exit_choice (roomID nodeID exitID : bytes) : Tx bytes :=
  if bool_decide (exitID = []) then mret (str "нет")
  else
    r ← store.attempt (store.Member_ roomID exitID);
    match r with
    | Ok x =>
      let row := store.m_row x in
      if bool_decide (exitID = nodeID) || negb (store.Exit row) || negb (store.ExitOffered x)
         || negb (bool_decide (store.Status row = store.StatusActive))
      then invalid (MNotExit (store.m_Name row))
      else mret (store.m_Name row)
    | _ => invalid MNoExit
    end.

Definition SetMemberExit (s : Service) (now : Z) (u : store.User) (roomID nodeID exitID : bytes) : res error unit * Service :=
  change s
    (_ ← roomFor u roomID;
     m ← tx (store.Member_ roomID nodeID);
     name ← exit_choice roomID nodeID exitID;
     _ ← tx (store.UpdateMember (with_use_exit (store.m_row m) exitID));
     _ ← BumpRoom roomID;
     audit now (store.Login u) (str "member.use_exit") roomID [nodeID; store.m_Name (store.m_row m); name]).

Inductive Action : Type :=
  | ActApprove | ActUnban | ActBan | ActKick | ActRoutes | ActNoRoutes | ActExit | ActNoExit | ActOther (s : bytes).

Definition action_text (a : Action) : bytes :=
  match a with
  | ActApprove => str "approve" | ActUnban => str "unban" | ActBan => str "ban" | ActKick => str "kick"
  | ActRoutes => str "routes" | ActNoRoutes => str "noroutes" | ActExit => str "exit" | ActNoExit => str "noexit"
  | ActOther s => s
  end.

(** The switch of [MemberAction]. *)
Definition do_action (roomID nodeID : bytes) (m : store.Member) (act : Action) : Tx unit :=
  let row := store.m_row m in
  match act with
  | ActApprove | ActUnban => tx (store.UpdateMember (with_status row store.StatusActive))
  | ActBan => tx (store.UpdateMember (with_status row store.StatusBanned))
  | ActKick => tx (store.DeleteMember roomID nodeID)
  | ActRoutes =>
    r ← tx (store.RoomByID kek roomID);
    let routes := List.filter (fun p => negb (Overlaps p (store.Subnet r))) (store.Offered m) in
    if bool_decide (routes = []) then invalid MNoRoutes
    else tx (store.UpdateMember (with_routes row routes))
  | ActNoRoutes => tx (store.UpdateMember (with_routes row []))
  | ActExit =>
    if negb (store.ExitOffered m) then invalid MNoExitOffer
    else tx (store.UpdateMember (with_exit row true))
  | ActNoExit => tx (store.UpdateMember (with_exit row false))
  | ActOther s => invalid (MAction s)
  end.

Definition MemberAction (s : Service) (now : Z) (u : store.User) (roomID nodeID : bytes) (act : Action)
    : res error unit * Service :=
  change s
    (_ ← roomFor u roomID;
     m ← tx (store.Member_ roomID nodeID);
     _ ← do_action roomID nodeID m act;
     _ ← BumpRoom roomID;
     audit now (store.Login u) (str "member." ++ action_text act) roomID [nodeID; store.m_Name (store.m_row m)]).

Definition tag_sep (c : Z) : bool := (c =? 44) || (c =? 32).

Fixpoint parse_tags (fs : list bytes) : res error (list bytes) :=
  match fs with
  | [] => Ok []
  | t :: fs => if 32 <? zlen t then Err (EInvalid (MTag t)) else l ← parse_tags fs; Ok (ToLower t :: l)
  end.

(** The address a member is given by hand. *)
Definition place (roomID : bytes) (r : store.Room) (m : store.Member) (ip : bytes) : Tx Addr :=
  match ParseAddr (TrimSpace ip) with
  | None => invalid (MIP (store.Subnet r))
  | Some addr =>
    ok ← store.lift (usableHost (store.Subnet r) addr);
    if negb ok then invalid (MIP (store.Subnet r))
    else if bool_decide (addr = store.IP (store.m_row m)) then mret addr
    else
      ms ← tx (store.ListMembers roomID);
      match List.find (fun o => bool_decide (store.IP (store.m_row o) = addr)) ms with
      | Some o => invalid (MIPTaken addr (store.m_Name (store.m_row o)))
      | None => mret addr
      end
  end.

Definition UpdateMember (s : Service) (now : Z) (u : store.User) (roomID nodeID name ip tags : bytes)
    : res error unit * Service :=
  let name := TrimSpace name in
  let n := RuneCount name in
  if (n <? 1) || (40 <? n) then (Err (EInvalid MMemberName), s)
  else match parse_tags (FieldsFunc tag_sep tags) with
  | Ok tagList =>
    change s
      (r ← roomFor u roomID;
       m ← tx (store.Member_ roomID nodeID);
       addr ← place roomID r m ip;
       _ ← tx (store.UpdateMember (with_place (store.m_row m) name addr tagList));
       _ ← BumpRoom roomID;
       audit now (store.Login u) (str "member.update") roomID ([nodeID; name; Addr_String addr] ++ tagList))
  | Err e => (Err e, s)
  | Panic => (Panic, s)
  end.

(** ** The node API *)

Record Endpoints := MkEndpoints {
  e_UDPPort : Z; e_Locals : list AddrPort; e_Reflexive : list AddrPort; e_NAT : bytes; e_PortMap : AddrPort;
  e_DiscoKey : bytes; e_Relay : bytes; e_Paths : PathStats; e_Routes : list Prefix; e_Exit : bool; e_ExitDNS : bool }.

Record JoinRequest := MkJoinRequest {
  j_RoomID : bytes; j_Token : bytes; j_Name : bytes; j_WGKey : bytes; j_BoxKey : bytes;
  j_Endpoints : Endpoints; j_ClientVersion : bytes }.
Record JoinResponse := MkJoinResponse { Status : bytes; RoomName : bytes }.
Record PollRequest := MkPollRequest { Since : Z; p_BoxKey : bytes; p_Endpoints : Endpoints; p_ClientVersion : bytes }.

Definition cleanName (name fallback : bytes) : bytes :=
  let name := TrimSpace name in
  if bool_decide (name = []) then fallback
  else
    let r := runes name in
    if 40 <? zlen r then string_of_runes (take 40 r) else name.

Definition knownNAT : list bytes := [[]; str "none"; str "cone"; str "symmetric"; str "udp-blocked"; str "unknown"].

(** The first [n] valid addresses. *)
Definition take_valid (n : nat) (l : list AddrPort) : list AddrPort := take n (List.filter apIsValid l).
Definition cleanLocals (e : Endpoints) : list AddrPort := take_valid 16 (e_Locals e).

(** The loop over the offered routes; [acc] is what is kept so far. *)
Fixpoint clean_routes (l acc : list Prefix) : list Prefix :=
  match l with
  | [] => acc
  | p :: l =>
    clean_routes l (if pki.ValidRoute p && (length acc <? 16)%nat && negb (bool_decide (p ∈ acc)) then acc ++ [p] else acc)
  end.

Definition reach (e : Endpoints) (remote : Addr) (version : bytes) : store.Reach :=
  store.MkReach remote (e_UDPPort e) (cleanLocals e) (take_valid 4 (e_Reflexive e))
    (if bool_decide (e_NAT e ∈ knownNAT) then e_NAT e else [])
    (if apIsValid (e_PortMap e) then e_PortMap e else AddrPortZero)
    (if identity.IsZero (e_DiscoKey e) then [] else e_DiscoKey e)
    (if zlen (e_Relay e) <=? 255 then e_Relay e else [])
    (clean_routes (e_Routes e) []) (e_Exit e) (e_Exit e && e_ExitDNS e)
    (if 32 <? zlen version then take 32 version else version).

(** What a joining node writes about itself. *)
Definition join_node (now : Z) (nodeID nodeKey : bytes) (req : JoinRequest) (remote : Addr) : store.Node :=
  store.MkNode nodeID nodeKey (j_BoxKey req) (cleanName (j_Name req) nodeID) remote (e_UDPPort (j_Endpoints req))
    (cleanLocals (j_Endpoints req)) (j_ClientVersion req) 0 0 [] [] AddrPortZero [] [] [] false false.

(** A node that is not a member yet: the invite, the quota, the address. *)
Definition admitNode (s : Service) (now : Z) (r : store.Room) (nodeID : bytes) (req : JoinRequest) : Tx bytes :=
  inv ← forbid (store.UseInvite (Unix now) (store.r_ID r) (hashToken (j_Token req)));
  members ← tx (store.ListMembers (store.r_ID r));
  if (0 <? maxMembers s) && (maxMembers s <=? zlen members) then store.fail ErrForbidden
  else
    ip ← store.lift (allocateIP (store.Subnet r) members);
    let status := if store.AutoApprove inv || bool_decide (store.JoinPolicy r = str "auto")
                  then store.StatusActive else store.StatusPending in
    _ ← tx (store.AddMember (Unix now) (store.MkMemberRow (store.r_ID r) nodeID (cleanName (j_Name req) nodeID)
          (j_WGKey req) ip [] status 0 [] false []));
    _ ← BumpRoom (store.r_ID r);
    _ ← audit now (str "node:" ++ nodeID) (str "member.join") (store.r_ID r)
          [j_Name req; Addr_String ip; status; Itoa (store.i_ID inv)];
    mret status.

Definition Join (s : Service) (now : Z) (nodeKey : bytes) (req : JoinRequest) (remote : Addr)
    : res error JoinResponse * Service :=
  let nodeID := identity.NodeIDFromPublic nodeKey in
  if identity.IsZero (j_WGKey req) || identity.IsZero (j_BoxKey req) then (Err (EInvalid MKeys), s)
  else change s
    (r ← forbid (store.RoomByID kek (j_RoomID req));
     _ ← tx (store.UpsertNode (Unix now) (join_node now nodeID nodeKey req remote));
     _ ← tx (store.UpdateNodeEndpoints (Unix now) nodeID (reach (j_Endpoints req) remote (j_ClientVersion req)));
     m ← store.attempt (store.Member_ (store.r_ID r) nodeID);
     match m with
     | Ok m =>
       let status := store.Status (store.m_row m) in
       if bool_decide (status = store.StatusBanned) then store.fail ErrForbidden
       else mret (MkJoinResponse status (store.r_Name r))
     | Err store.ErrNotFound =>
       status ← admitNode s now r nodeID req; mret (MkJoinResponse status (store.r_Name r))
     | Err e => store.fail (EStore e)
     | Panic => store.lift Panic
     end).

Definition Leave (s : Service) (now : Z) (nodeKey roomID : bytes) : res error unit * Service :=
  let nodeID := identity.NodeIDFromPublic nodeKey in
  change s
    (m ← tx (store.Member_ roomID nodeID);
     if bool_decide (store.Status (store.m_row m) = store.StatusBanned) then mret tt
     else
       _ ← tx (store.DeleteMember roomID nodeID);
       _ ← BumpRoom roomID;
       audit now (str "node:" ++ nodeID) (str "member.leave") roomID [store.m_Name (store.m_row m)]).

(** ** The network map *)

Record Peer := MkPeer {
  pr_PublicIP : Addr; pr_UDPPort : Z; pr_Locals : list AddrPort; pr_Reflexive : list AddrPort; pr_PortMap : AddrPort;
  pr_NAT : bytes; pr_DiscoKey : bytes; pr_Relay : bytes; Online : bool }.
Record RoomState := MkRoomState { rs_RoomID : bytes; rs_Status : bytes; Config : option pki.Signed; rs_UseExit : bytes }.
Record NetMap := MkNetMap {
  Version : Z; ObservedIP : Addr; nm_Rooms : list RoomState; Peers : gmap bytes Peer }.

Definition key32 (b : bytes) : bytes := copy_into (zeros 32) (take 32 b).

Definition peer_of (now : Z) (n : store.Node) : Peer :=
  MkPeer (store.PublicIP n) (store.UDPPort n) (store.Locals n) (store.Reflexive n) (store.PortMap n) (store.NAT n)
    (if zlen (store.n_DiscoKey n) =? identity.KeyLen then key32 (store.n_DiscoKey n) else zeros 32)
    (store.Relay n) (time_sub now (store.LastSeen n * Second) <? OnlineWindow).

(** A member in the signed configuration: routes and exit only while the node
    still offers what was approved. *)
Definition config_member (o : store.Member) : pki.Member :=
  let r := store.m_row o in
  let exit := store.Exit r && store.ExitOffered o in
  pki.MkMember (store.m_NodeID r) (store.m_Name r) (key32 (store.WGKey r)) (store.IP r) (store.Tags r)
    (List.filter (fun p => bool_decide (p ∈ store.Offered o)) (store.Routes r)) exit (exit && store.m_ExitDNS o) false.

Definition active (o : store.Member) : bool := bool_decide (store.Status (store.m_row o) = store.StatusActive).

(** The peers of one room are added to those of the rooms before. *)
Fixpoint add_peers (now : Z) (nodeID : bytes) (ms : list store.Member) (peers : gmap bytes Peer) : Tx (gmap bytes Peer) :=
  match ms with
  | [] => mret peers
  | o :: ms =>
    let id := store.m_NodeID (store.m_row o) in
    if negb (active o) || bool_decide (id = nodeID) || bool_decide (is_Some (peers !! id)) then add_peers now nodeID ms peers
    else n ← tx (store.NodeByID id); add_peers now nodeID ms (<[id := peer_of now n]> peers)
  end.

Definition room_config (now : Z) (r : store.Room) (rules : list acl.Rule) (members : list store.Member) : pki.RoomConfig :=
  pki.MkRoomConfig (store.r_ID r) (store.r_Name r) (store.Subnet r) (key32 (store.Secret r)) (store.r_Version r) now
    (map config_member (List.filter active members)) (store.Broadcast r) (store.DNS r) rules (store.DHT r).

(** One membership of the node. *)
Definition room_state (now : Z) (nodeID : bytes) (m : store.Member) (peers : gmap bytes Peer) : Tx (RoomState * gmap bytes Peer) :=
  let row := store.m_row m in
  let id := store.m_RoomID row in
  if negb (active m) then mret (MkRoomState id (store.Status row) None [], peers)
  else
    r ← tx (store.RoomByID kek id);
    members ← tx (store.ListMembers id);
    rules ← store.lift (map_err EAcl (acl.Parse (store.ACL r)));
    peers ← add_peers now nodeID members peers;
    cfg ← store.lift (map_err EPki (pki.SignRoomConfig (store.SignKey r) (room_config now r rules members)));
    mret (MkRoomState id (store.Status row) (Some cfg) (store.UseExit row), peers).

Fixpoint room_states (now : Z) (nodeID : bytes) (ms : list store.Member) (peers : gmap bytes Peer)
    : Tx (list RoomState * gmap bytes Peer) :=
  match ms with
  | [] => mret ([], peers)
  | m :: ms =>
    sp ← room_state now nodeID m peers;
    rest ← room_states now nodeID ms (snd sp);
    mret (fst sp :: fst rest, snd rest)
  end.

Definition netMap (s : Service) (now : Z) (nodeID : bytes) (remote : Addr) : res error NetMap :=
  Read s
    (v ← tx store.Version;
     mine ← tx (store.Memberships nodeID);
     rp ← room_states now nodeID mine ∅;
     mret (MkNetMap v remote (fst rp) (snd rp))).

(** [Poll] up to the wait: the box key, and what it waits for, if it does. *)
Definition Poll (s : Service) (now : Z) (nodeKey : bytes) (req : PollRequest) (remote : Addr)
    : res error (bytes * option nat) * Service :=
  let nodeID := identity.NodeIDFromPublic nodeKey in
  match Tx_ s
    (n ← forbid (store.NodeByID nodeID);
     changed ← tx (store.UpdateNodeEndpoints (Unix now) nodeID (reach (p_Endpoints req) remote (p_ClientVersion req)));
     mret (key32 (store.BoxKey n), changed)) with
  | (Ok (boxKey, changed), s) =>
    let s := MkService (st s) (hub_ s) (maxRooms s) (maxMembers s) (<[nodeID := e_Paths (p_Endpoints req)]> (paths s)) in
    if changed : bool then
      let '(r, s) := change s (mret tt) in ((fun _ => (boxKey, None)) <$> r, s)
    else (Ok (boxKey, hub_wait (hub_ s) (Since req)), s)
  | (Err e, s) => (Err e, s)
  | (Panic, s) => (Panic, s)
  end.

Definition Paths (s : Service) (nodeID : bytes) : PathStats := default (MkPathStats 0 0) (paths s !! nodeID).

(** ** Keys of the controller, the relay's questions *)

(** A setting of a fixed length, created from [rnd] when it is missing or of
    another length. *)
Definition load_setting (name : string) (len : Z) (rnd nonce : bytes) : Tx bytes :=
  r ← store.attempt (store.Setting kek (str name));
  match r with
  | Ok v => if zlen v =? len then mret v
            else (_ ← tx (store.SetSetting kek (str name) rnd nonce); mret rnd)
  | Err store.ErrNotFound => _ ← tx (store.SetSetting kek (str name) rnd nonce); mret rnd
  | Err e => store.fail (EStore e)
  | Panic => store.lift Panic
  end.

Definition RelayKey (s : Service) (rnd nonce : bytes) : res error (bytes * bytes) * Service :=
  Tx_ s (priv ← load_setting "relay_key" identity.KeyLen (identity.clamp rnd) nonce;
         mret (priv, identity.Public priv)).

(** The private key, short ID and user of VLESS. *)
Definition VLESSSecrets (s : Service) (rnd1 rnd2 rnd3 n1 n2 n3 : bytes) : res error (bytes * bytes * bytes) * Service :=
  Tx_ s (k ← load_setting "reality_key" 32 rnd1 n1;
         i ← load_setting "reality_short_id" 8 rnd2 n2;
         u ← load_setting "vless_user" 16 rnd3 n3;
         mret (k, i, u)).

(** [relayAuth]. *)
Definition relayNode (s : Service) (key : bytes) : option bytes :=
  match Read s (tx (store.NodeByDiscoKey key)) with Ok id => Some id | _ => None end.
Definition CanSend (s : Service) (src dst : bytes) : bool :=
  match Read s (tx (store.ShareActiveRoom src dst)) with Ok ok => ok | _ => false end.

(** One turn of [WatchExternalChanges]. *)
Definition watch (s : Service) : Service :=
  match Read s (tx store.Version) with
  | Ok v => MkService (st s) (hub_set (hub_ s) v) (maxRooms s) (maxMembers s) (paths s)
  | _ => s
  end.

End Service.

End controller.
