(* ===== verification/ControllerNet.v ===== *)
(** Addresses in the controller: the subnets of rooms and the addresses of
    their members (allocateIP, usableHost, pickSubnet of service.go). *)
From stdpp Require Import base list gmap strings.
From Stdlib Require Import ZArith Lia.
From S2P Require Import Prelude GoStrings Netip Store Controller.

Open Scope Z_scope.

Module subnets.

(** The subnet of a room: a masked IPv4 network of 8 to 65536 addresses. *)
Record subnet_at (p : Prefix) (v bits : Z) : Prop := {
  a_eq : p = MkPrefix (Addr4 v) bits;
  a_bits : 16 <= bits <= 29;
  a_base : 0 <= v;
  a_aligned : v mod 2 ^ (32 - bits) = 0;
  a_top : v + 2 ^ (32 - bits) <= 2 ^ 32 }.

Definition subnet_ok (p : Prefix) : Prop := exists v bits, subnet_at p v bits.

Lemma size_range bits : 16 <= bits <= 29 -> 8 <= 2 ^ (32 - bits) <= 65536.
Proof.
  intros H. split.
  - change 8 with (2 ^ 3). apply Z.pow_le_mono_r; lia.
  - change 65536 with (2 ^ 16). apply Z.pow_le_mono_r; lia.
Qed.

Lemma mask_at p v bits : subnet_at p v bits -> mask 32 bits v = v.
Proof.
  intros [-> Hb Hv Ha Ht]. unfold mask. pose proof (size_range bits Hb).
  pose proof (Z.div_mod v (2 ^ (32 - bits)) ltac:(lia)). lia.
Qed.

Lemma Masked_at p v bits : subnet_at p v bits -> Masked p = p.
Proof.
  intros H. pose proof (mask_at p v bits H) as Hm. destruct H as [-> Hb Hv Ha Ht].
  unfold Masked, PrefixIsValid, PrefixFrom. cbn [pfx_bits pfx_ip addr_mask withoutZone IsValid BitLen].
  rewrite (proj2 (Z.leb_le 0 bits)) by lia. rewrite Hm. cbn [IsValid BitLen withoutZone andb].
  by rewrite (proj2 (Z.leb_le bits 32)) by lia.
Qed.

Lemma Contains_at p v bits a : subnet_at p v bits ->
  Contains p a = true <-> exists x, a = Addr4 x /\ v <= x < v + 2 ^ (32 - bits).
Proof.
  intros H. pose proof (mask_at p v bits H) as Hm. destruct H as [-> Hb Hv Ha Ht]. split.
  - intros Hc. pose proof (Contains_Is4 _ _ Hc) as H4. destruct a as [| x |]; [done | | done].
    exists x. split; [done |]. apply Contains_v4 in Hc; lia.
  - intros (x & -> & Hx). apply Contains_v4; lia.
Qed.

Lemma lastAddr_at {E} p v bits : subnet_at p v bits ->
  controller.lastAddr (E := E) p = Ok (Addr4 (v + 2 ^ (32 - bits) - 1)).
Proof.
  intros H. unfold controller.lastAddr. rewrite (Masked_at p v bits H). destruct H as [-> Hb Hv Ha Ht].
  pose proof (size_range bits Hb) as Hs. cbn [pfx_ip As4 Unmap pfx_bits mbind res_bind]. unfold As4. cbn [Unmap mbind res_bind].
  rewrite be_put_be_small by (change (256 ^ Z.of_nat 4) with (2 ^ 32); lia).
  unfold u32. rewrite (Z.mod_small (2 ^ (32 - bits))), (Z.mod_small (2 ^ (32 - bits) - 1)) by lia.
  assert (Z.land v (2 ^ (32 - bits) - 1) = 0) as Hl.
  { replace (2 ^ (32 - bits) - 1) with (Z.ones (32 - bits)) by (rewrite Z.ones_equiv; lia).
    by rewrite Z.land_ones by lia. }
  rewrite <- Z.lxor_lor, <- Z.add_nocarry_lxor by done. f_equal.
  rewrite AddrFrom4_As4 by lia. f_equal. lia.
Qed.

Lemma usableHost_at {E} p v bits a : subnet_at p v bits -> exists b, controller.usableHost (E := E) p a = Ok b /\
  (b = true <-> exists x, a = Addr4 x /\ v < x < v + 2 ^ (32 - bits) - 1).
Proof.
  intros H. unfold controller.usableHost. rewrite (Masked_at p v bits H), (lastAddr_at p v bits H).
  cbn [mbind res_bind]. pose proof (Contains_at p v bits a H) as Hc. pose proof H as [Hp Hb Hv Ha Ht].
  destruct (Contains p a) eqn:He; cbn [negb orb].
  - destruct (proj1 Hc eq_refl) as (x & -> & Hx). rewrite Hp. cbn [pfx_ip]. case_bool_decide as Hd.
    + eexists. split; [done |]. split; [done |]. intros (y & [= <-] & Hy). injection Hd as ->. lia.
    + eexists. split; [done |]. rewrite negb_true_iff, bool_decide_eq_false. split.
      * intros Hne. exists x. split; [done |]. assert (x <> v) by congruence.
        assert (x <> v + 2 ^ (32 - bits) - 1) by congruence. lia.
      * intros (y & [= <-] & Hy) [= Hz]. lia.
  - eexists. split; [done |]. split; [done |]. intros (x & -> & Hx).
    assert (false = true); [apply Hc; exists x; split; [done | lia] | done].
Qed.

(** The search gives the first usable address that is free, or there is none. *)
Lemma next_free_at p v bits used : subnet_at p v bits -> forall n x, v < x < v + 2 ^ (32 - bits) ->
  v + 2 ^ (32 - bits) - x <= Z.of_nat n ->
  (exists y, controller.next_free n p used (Addr4 x) = Ok (Addr4 y) /\ x <= y < v + 2 ^ (32 - bits) - 1
     /\ Addr4 y ∉ used /\ forall z, x <= z < y -> Addr4 z ∈ used)
  \/ (controller.next_free n p used (Addr4 x) = Err (controller.EInvalid (controller.MFull p))
      /\ forall z, x <= z < v + 2 ^ (32 - bits) - 1 -> Addr4 z ∈ used).
Proof.
  intros H. pose proof H as [Hp Hb Hv Ha Ht]. induction n as [| n IH]; intros x Hx Hn; [lia |].
  cbn [controller.next_free]. rewrite (proj2 (Contains_at p v bits (Addr4 x) H)) by (exists x; split; [done | lia]).
  destruct (usableHost_at (E := controller.error) p v bits (Addr4 x) H) as (b & -> & Hu). cbn [mbind res_bind].
  assert (b = true <-> x < v + 2 ^ (32 - bits) - 1) as Hb'.
  { rewrite Hu. split; [intros (y & [= <-] & ?); lia | intros; exists x; split; [done | lia]]. }
  clear Hu. destruct (decide (x = v + 2 ^ (32 - bits) - 1)) as [Hlast | Hlast].
  - right. assert (b = false) as -> by (destruct b; [lia | done]). cbn [andb]. split; [| lia].
    assert (Contains p (Next (Addr4 x)) = false) as Hc.
    { destruct (Contains p (Next (Addr4 x))) eqn:Hc; [| done]. apply (Contains_at p v bits _ H) in Hc as (y & Hy & ?).
      simpl in Hy. destruct (x =? 2 ^ 32 - 1); [done |]. injection Hy as <-. lia. }
    destruct n as [| n]; [done |]. cbn [controller.next_free]. by rewrite Hc.
  - assert (b = true) as -> by (apply Hb'; lia). cbn [andb]. case_bool_decide as Hin; cbn [negb].
    + simpl Next. rewrite (proj2 (Z.eqb_neq x (2 ^ 32 - 1))) by lia.
      destruct (IH (x + 1) ltac:(lia) ltac:(lia)) as [(y & Hy & Hr & Hf & Hall) | [Hy Hall]].
      * left. exists y. repeat split; try done; try lia. intros z Hz. destruct (decide (z = x)) as [-> |]; [done | apply Hall; lia].
      * right. split; [done |]. intros z Hz. destruct (decide (z = x)) as [-> |]; [done | apply Hall; lia].
    + left. exists x. repeat split; try done; try lia.
Qed.

(** ** Where the subnets come from *)

Lemma ParsePrefix_Is4 s p : ParsePrefix s = Some p -> Is4 (pfx_ip p) = true ->
  exists v, p = MkPrefix (Addr4 v) (pfx_bits p) /\ 0 <= v < 2 ^ 32 /\ 0 <= pfx_bits p <= 32.
Proof.
  unfold ParsePrefix. destruct (_ <? 0); [done |]. intros (a & Ha & H)%bind_Some.
  destruct (_ && _); [done |]. destruct (_ && _); [done |]. apply bind_Some in H as (bits & Hb & H).
  destruct (_ || _) eqn:Hr; [done |]. injection H as <-. unfold PrefixFrom. cbn [pfx_ip pfx_bits]. intros H4. bool_hyps.
  destruct a as [| v | w z]; [done | | done]. cbn [withoutZone IsValid BitLen andb] in *.
  rewrite (proj2 (Z.leb_le 0 bits)), (proj2 (Z.leb_le bits 32)) by lia. cbn [andb]. exists v. split; [done |]. split; [| lia].
  by apply ParseAddr_Addr4 in Ha.
Qed.

Lemma mask_top n b v : 0 <= n <= b -> b <= 32 -> mask 32 b v / 2 ^ (32 - n) = v / 2 ^ (32 - n).
Proof.
  intros Hn Hb. replace (32 - n) with ((32 - b) + (b - n)) by lia.
  rewrite !div_pow_split by lia. by rewrite mask_div by lia.
Qed.

Lemma Masked_subnet v bits : 0 <= v < 2 ^ 32 -> 16 <= bits <= 29 ->
  subnet_at (Masked (MkPrefix (Addr4 v) bits)) (mask 32 bits v) bits.
Proof.
  intros Hv Hb. pose proof (mask_range 32 bits v ltac:(lia)) as Hm. pose proof (size_range bits Hb) as Hs.
  unfold Masked, PrefixIsValid, PrefixFrom. cbn [pfx_bits pfx_ip addr_mask withoutZone IsValid BitLen].
  rewrite (proj2 (Z.leb_le 0 bits)), (proj2 (Z.leb_le bits 32)) by lia. cbn [andb].
  assert (2 ^ 32 = 2 ^ bits * 2 ^ (32 - bits)) as H32 by (rewrite <- Z.pow_add_r by lia; f_equal; lia).
  assert (0 <= mask 32 bits v) by (unfold mask; apply Z.mul_nonneg_nonneg; [apply Z.div_pos; lia | lia]).
  split; [done | done | done | unfold mask; apply Z.mod_mul; lia |].
  unfold mask. assert (v / 2 ^ (32 - bits) < 2 ^ bits) by (apply Z.div_lt_upper_bound; lia). nia.
Qed.

Lemma Overlaps_Masked u v bits : 16 <= bits <= 29 ->
  Overlaps u (Masked (MkPrefix (Addr4 v) bits)) = Overlaps u (MkPrefix (Addr4 v) bits).
Proof.
  intros Hb. unfold Masked, PrefixIsValid at 1, PrefixFrom. cbn [pfx_bits pfx_ip addr_mask withoutZone IsValid BitLen].
  rewrite (proj2 (Z.leb_le 0 bits)), (proj2 (Z.leb_le bits 32)) by lia. cbn [andb]. unfold Overlaps.
  cbn [pfx_bits pfx_ip]. unfold PrefixIsValid. cbn [pfx_bits].
  destruct (0 <=? pfx_bits u) eqn:Hu; [| done]. apply Z.leb_le in Hu. cbn [andb]. f_equal.
  destruct (pfx_ip u) as [| x | x z]; [done | | done]. simpl. by rewrite mask_top by lia.
Qed.

Lemma pool_subnet_ok i : 0 <= i < controller.blocks -> subnet_ok (controller.pool_subnet i).
Proof.
  change controller.blocks with 32768. intros Hi. unfold controller.pool_subnet. exists (2 ^ 24 * 10 + 2 ^ 16 * (128 + i / 256) + 2 ^ 8 * (i mod 256)), 24.
  rewrite Z.shiftr_div_pow2 by lia. change (2 ^ 8) with 256. unfold u8. change (2 ^ 8) with 256.
  assert (0 <= i / 256 < 128) by (split; [apply Z.div_pos | apply Z.div_lt_upper_bound]; lia).
  pose proof (Z.mod_pos_bound i 256 ltac:(lia)).
  rewrite (Z.mod_small (i / 256)), (Z.mod_small (128 + i / 256)) by lia.
  split; try lia.
  - unfold PrefixFrom, AddrFrom4. cbn [withoutZone IsValid BitLen]. f_equal. f_equal. unfold be. simpl. lia.
  - change (2 ^ (32 - 24)) with 256.
    replace (2 ^ 24 * 10 + 2 ^ 16 * (128 + i / 256) + 256 * (i mod 256))
      with ((2 ^ 16 * 10 + 2 ^ 8 * (128 + i / 256) + i mod 256) * 256) by lia. apply Z.mod_mul. lia.
Qed.

Lemma pick_ok used rnds p : Forall (fun i => 0 <= i < controller.blocks) rnds -> controller.pick used rnds = Ok p ->
  subnet_ok p /\ Forall (fun u => Overlaps u p = false) used.
Proof.
  induction 1 as [| i rnds Hi _ IH]; simpl; [done |]. destruct (existsb _ _) eqn:He; [done |]. intros [= <-].
  split; [by apply pool_subnet_ok | by apply existsb_Forall].
Qed.

Lemma choose_subnet_ok subnet used rnds p : controller.choose_subnet subnet used rnds = Ok p ->
  subnet_ok p /\ Forall (fun u => Overlaps u p = false) used.
Proof.
  unfold controller.choose_subnet. case_bool_decide; cbn [negb].
  - apply pick_ok, Forall_map, Forall_forall. intros i _. apply Z.mod_pos_bound. reflexivity.
  - destruct (ParsePrefix _) as [q |] eqn:Hq; [| done]. destruct (_ || _) eqn:Hc; [done |]. bool_hyps.
    destruct (List.find _ used) as [u |] eqn:Hf; [done |]. intros [= <-].
    destruct (ParsePrefix_Is4 _ _ Hq ltac:(done)) as (v & Hqv & Hv & Hb). rewrite Hqv.
    split; [by exists (mask 32 (pfx_bits q) v), (pfx_bits q); apply Masked_subnet |].
    apply Forall_forall. intros u Hu. rewrite Overlaps_Masked by done.
    apply list_elem_of_In in Hu. rewrite <- Hqv. exact (find_none _ _ Hf u Hu).
Qed.

(** ** Theorems *)

(** a new member gets the lowest address of the room's subnet that is
    neither the network, the broadcast address nor another member's; only when
    every such address is taken is it refused. *)
Theorem allocateIP_spec p ms : subnet_ok p ->
  let ips := map (fun m => store.IP (store.m_row m)) ms in
  (exists a, controller.allocateIP p ms = Ok (Addr4 a)
     /\ controller.usableHost (E := unit) p (Addr4 a) = Ok true /\ Addr4 a ∉ ips
     /\ forall b, b < a -> controller.usableHost (E := unit) p (Addr4 b) = Ok true -> Addr4 b ∈ ips)
  \/ (controller.allocateIP p ms = Err (controller.EInvalid (controller.MFull p))
      /\ forall b, controller.usableHost (E := unit) p b = Ok true -> b ∈ ips).
Proof.
  intros (v & bits & H) ips. pose proof H as [Hp Hb Hv Ha Ht]. pose proof (size_range bits Hb) as Hs.
  assert (forall a, controller.usableHost (E := unit) p a = Ok true <-> exists x, a = Addr4 x /\ v < x < v + 2 ^ (32 - bits) - 1) as Hu.
  { intros a. destruct (usableHost_at (E := unit) p v bits a H) as (b & -> & <-). split; [by intros [= ->] | by intros ->]. }
  unfold controller.allocateIP. rewrite (Masked_at p v bits H). fold ips.
  assert (Next (pfx_ip p) = Addr4 (v + 1)) as ->.
  { rewrite Hp. cbn [pfx_ip Next]. by rewrite (proj2 (Z.eqb_neq v (2 ^ 32 - 1))) by lia. }
  assert (pfx_bits p = bits) as -> by (by rewrite Hp).
  destruct (next_free_at p v bits ips H (Z.to_nat (2 ^ (32 - bits))) (v + 1)) as [(y & -> & Hy & Hn & Hall) | [-> Hall]]; [lia | lia | |].
  - left. exists y. split; [done |]. split; [apply Hu; exists y; split; [done | lia] |]. split; [done |].
    intros b Hby Hub. apply Hu in Hub as (x & [= <-] & Hx). apply Hall. lia.
  - right. split; [done |]. intros b Hub. apply Hu in Hub as (x & -> & Hx). apply Hall. lia.
Qed.

(** ** Witnesses *)

Definition exNet : Prefix := MkPrefix (Addr4 (10 * 2 ^ 24)) 29.

Lemma exNet_ok : subnet_ok exNet.
Proof. exists (10 * 2 ^ 24), 29. split; reflexivity || (split; discriminate) || (intros [=]) || done. Qed.

Definition exMember (ip : Z) : store.Member :=
  store.MkMember (store.MkMemberRow [] [] [] [] (Addr4 ip) [] [] 0 [] false []) 0 AddrZero [] [] [] AddrPortZero [] false false.

Lemma allocateIP_spec_witness : exists a,
  controller.allocateIP exNet [exMember (10 * 2 ^ 24 + 1)] = Ok (Addr4 a) /\ a = 10 * 2 ^ 24 + 2.
Proof.
  destruct (allocateIP_spec exNet [exMember (10 * 2 ^ 24 + 1)] exNet_ok) as [(a & Ha & _) | [Ha _]].
  - exists a. split; [exact Ha |]. vm_compute in Ha. injection Ha as <-. reflexivity.
  - vm_compute in Ha. discriminate Ha.
Defined.

End subnets.
