(* ===== verification/ControllerInv.v ===== *)
(** What the controller's service keeps true of its database (service.go):
    rooms with usable keys and settings, disjoint subnets, members with
    addresses and routes their room's signed configuration may carry. *)
From stdpp Require Import base list gmap strings.
From Stdlib Require Import ZArith Lia.
From S2P Require Import Prelude GoStrings GoText Netip Acl AclText Crypto Obfs Identity Pki Store Controller ControllerNet.

Open Scope Z_scope.

Module service.
Import controller.

Section Invariant.
Context `{CR : Crypto} `{A : Aead} `{J : pki.Json} (kek : option bytes).

(** ** The invariant *)

Record room_ok (r : store.Room) : Prop := {
  ro_subnet : subnets.subnet_ok (store.Subnet r);
  ro_secret : exists s, store.open_ kek (store.Secret r) = Ok s /\ zlen s = 32 /\ obfs.RoomID s = store.r_ID r;
  ro_key : exists seed, length seed = 32%nat /\ store.open_ kek (store.SignKey r) = Ok (pki.NewKeyFromSeed seed);
  ro_dns : zlen (store.DNS r) <= pki.MaxDNS /\ Forall (fun a => pki.ValidDNS a = true) (store.DNS r);
  ro_acl : exists rules, acl.Parse (store.ACL r) = Ok rules }.

Definition route_ok (p q : Prefix) : Prop := pki.ValidRoute q = true /\ Overlaps q p = false.

Record member_ok (p : Prefix) (m : store.member_row) : Prop := {
  mo_ip : usableHost (E := unit) p (store.IP m) = Ok true;
  mo_routes : Forall (route_ok p) (store.Routes m) }.

Definition node_ok (n : store.Node) : Prop := Forall (fun q => pki.ValidRoute q = true) (store.n_Routes n).

Record inv (d : store.db) : Prop := {
  i_wf : store.wf d;
  i_rooms : Forall room_ok (store.rooms d);
  i_disjoint : forall r r', r ∈ store.rooms d -> r' ∈ store.rooms d -> store.r_ID r <> store.r_ID r' ->
    Overlaps (store.Subnet r) (store.Subnet r') = false;
  i_members : forall m r, m ∈ store.members d -> r ∈ store.rooms d -> store.r_ID r = store.m_RoomID m ->
    member_ok (store.Subnet r) m;
  i_nodes : Forall node_ok (store.nodes d) }.

Lemma inv_empty : inv store.empty_db.
Proof.
  split; simpl; [apply store.wf_empty | constructor | by intros r r' ?%elem_of_nil | by intros m r ?%elem_of_nil | constructor].
Qed.

(** The tables the invariant is about are the same. *)
Lemma inv_tables d d' : store.wf d' -> store.rooms d' = store.rooms d -> store.members d' = store.members d ->
  store.nodes d' = store.nodes d -> inv d -> inv d'.
Proof. intros Hw Hr Hm Hn []. split; rewrite ?Hr, ?Hm, ?Hn; done. Qed.

(** A statement that leaves rooms, members and nodes as they are. *)
Definition same_tables (d d' : store.db) : Prop :=
  store.rooms d' = store.rooms d /\ store.members d' = store.members d /\ store.nodes d' = store.nodes d.

Lemma inv_other {E X} (m : store.Tx E X) : store.keeps store.wf m ->
  (forall d a d', m d = Ok (a, d') -> same_tables d d') -> store.keeps inv m.
Proof.
  intros Hw Hs d a d' Hd H. destruct (Hs _ _ _ H) as (Hr & Hm & Hn). apply (inv_tables d); try done.
  eapply Hw, H. apply Hd.
Qed.

Lemma BumpVersion_inv : store.keeps inv store.BumpVersion.
Proof. apply inv_other; [apply store.BumpVersion_wf |]. by intros d a d' [= _ <-]. Qed.

Lemma Audit_inv now a b c e : store.keeps inv (store.Audit now a b c e).
Proof. apply inv_other; [apply store.Audit_wf |]. by intros d x d' [= _ <-]. Qed.

Lemma SetSetting_inv k v n : store.keeps inv (store.SetSetting kek k v n).
Proof. apply inv_other; [apply store.SetSetting_wf |]. by intros d x d' [= _ <-]. Qed.

Lemma CreateInvite_inv now i : store.keeps inv (store.CreateInvite now i).
Proof.
  apply inv_other; [apply store.CreateInvite_wf |].
  intros d id d' (? & d1 & H1 & (j & d2 & H2 & (? & d3 & H3 & H4)%store.tx_bind_ok)%store.tx_bind_ok)%store.tx_bind_ok.
  unfold store.exec_if in H1. destruct (_ && _); [| done]. injection H1 as _ <-. injection H2 as _ <-.
  injection H3 as _ <-. by injection H4 as _ <-.
Qed.

Lemma UseInvite_service now rid tok : store.keeps inv (store.UseInvite now rid tok).
Proof.
  apply inv_other; [apply store.UseInvite_wf |].
  intros d i d' (j & d1 & H1 & (u & d2 & H2 & H3)%store.tx_bind_ok)%store.tx_bind_ok.
  apply store.reads_one in H1 as ->. injection H3 as _ <-. destruct (0 <? _); by injection H2 as _ <-.
Qed.

Lemma RevokeInvite_inv rid id : store.keeps inv (store.RevokeInvite rid id).
Proof. apply inv_other; [apply store.RevokeInvite_wf |]. by intros d x d' [= _ <-]. Qed.

(** ** Rooms *)

Lemma upd_room_inv id f : (forall r, store.r_ID (f r) = store.r_ID r /\ store.OwnerID (f r) = store.OwnerID r
    /\ store.Subnet (f r) = store.Subnet r) ->
  (forall r, room_ok r -> room_ok (f r)) -> store.keeps inv (store.upd_room id f).
Proof.
  intros Hf Hok d a d' Hd H. pose proof (store.upd_room_wf id f ltac:(intros r; split; apply Hf) d a d' (i_wf _ Hd) H) as Hw.
  injection H as _ <-. destruct Hd as [_ Hr Hdis Hm Hn].
  assert (forall r, r ∈ store.upd (store.room_is id) f (store.rooms d) ->
    exists r0, r0 ∈ store.rooms d /\ store.r_ID r0 = store.r_ID r /\ store.Subnet r0 = store.Subnet r) as Hfrom.
  { intros r (r0 & Hr0 & ->)%store.elem_of_upd. exists r0. split; [done |].
    destruct (store.room_is id r0); [split; symmetry; apply Hf | done]. }
  split; simpl; try done.
  - apply store.Forall_upd; [done | auto].
  - intros r r' (r0 & Hr0 & Hi & Hs)%Hfrom (r1 & Hr1 & Hi' & Hs')%Hfrom. rewrite <- Hi, <- Hi', <- Hs, <- Hs'. by apply Hdis.
  - intros m r Hm0 (r0 & Hr0 & Hi & Hs)%Hfrom. rewrite <- Hi, <- Hs. by apply Hm.
Qed.

(** What does not touch the keys, the DNS servers or the rules. *)
Lemma room_ok_same r r' : store.r_ID r' = store.r_ID r -> store.Subnet r' = store.Subnet r ->
  store.Secret r' = store.Secret r -> store.SignKey r' = store.SignKey r -> store.DNS r' = store.DNS r ->
  store.ACL r' = store.ACL r -> room_ok r -> room_ok r'.
Proof. intros H1 H2 H3 H4 H5 H6 []. split; rewrite ?H1, ?H2, ?H3, ?H4, ?H5, ?H6; done. Qed.

Lemma BumpRoom_inv id : store.keeps inv (store.BumpRoom id).
Proof. apply upd_room_inv; [done |]. intros r. by apply room_ok_same. Qed.

Lemma UpdateRoom_inv id n p b : store.keeps inv (store.UpdateRoom id n p b).
Proof. apply upd_room_inv; [done |]. intros r. by apply room_ok_same. Qed.

Lemma SetRoomDHT_inv id b : store.keeps inv (store.SetRoomDHT id b).
Proof. apply upd_room_inv; [done |]. intros r. by apply room_ok_same. Qed.

Lemma SetRoomACL_inv id text rules : acl.Parse text = Ok rules -> store.keeps inv (store.SetRoomACL id text).
Proof. intros Ht. apply upd_room_inv; [done |]. intros r []. split; try done. by exists rules. Qed.

Lemma SetRoomDNS_inv id dns : zlen dns <= pki.MaxDNS -> Forall (fun a => pki.ValidDNS a = true) dns ->
  store.keeps inv (store.SetRoomDNS id dns).
Proof. intros Hl Hv. apply upd_room_inv; [done |]. intros r []. by split. Qed.

Lemma DeleteRoom_inv id : store.keeps inv (store.DeleteRoom id).
Proof.
  intros d a d' Hd H. pose proof (store.DeleteRoom_wf id d a d' (i_wf _ Hd) H) as Hw.
  injection H as _ <-. destruct Hd as [_ Hr Hdis Hm Hn]. split; simpl; try done.
  - by apply store.Forall_Filter.
  - intros r r' [Hr0 _]%store.elem_of_Filter [Hr1 _]%store.elem_of_Filter. by apply Hdis.
  - intros m r [Hm0 _]%store.elem_of_Filter [Hr0 _]%store.elem_of_Filter. by apply Hm.
Qed.

(** ** Members and nodes *)

Lemma AddMember_inv now m d a d' :
  (forall r, r ∈ store.rooms d -> store.r_ID r = store.m_RoomID m -> usableHost (E := unit) (store.Subnet r) (store.IP m) = Ok true) ->
  inv d -> store.AddMember now m d = Ok (a, d') -> inv d'.
Proof.
  intros Hip Hd H. pose proof (store.AddMember_wf now m d a d' (i_wf _ Hd) H) as Hw.
  unfold store.AddMember, store.exec_if in H. destruct (_ && _); [| done]. injection H as _ <-.
  destruct Hd as [_ Hr Hdis Hm Hn]. split; simpl; try done.
  intros x r [Hx | ->%list_elem_of_singleton]%elem_of_app Hr0 Hi; [by apply Hm |]. split; [by apply Hip | constructor].
Qed.

Lemma UpdateMember_inv m d a d' :
  (forall r, r ∈ store.rooms d -> store.r_ID r = store.m_RoomID m -> member_ok (store.Subnet r) m) ->
  inv d -> store.UpdateMember m d = Ok (a, d') -> inv d'.
Proof.
  intros Hok Hd H. pose proof (store.UpdateMember_wf m d a d' (i_wf _ Hd) H) as Hw.
  unfold store.UpdateMember, store.exec_if in H. destruct (_ || _); [| done]. injection H as _ <-.
  destruct Hd as [_ Hr Hdis Hm Hn]. split; simpl; try done.
  intros x r (y & Hy & ->)%store.elem_of_upd Hr0 Hi. destruct (store.member_is _ _ y) eqn:Hk; [| by apply Hm].
  apply store.member_is_key in Hk as [= He _]. simpl in Hi. destruct (Hok r Hr0) as [H1 H2]; [congruence |]. by split.
Qed.

Lemma DeleteMember_inv rid nid : store.keeps inv (store.DeleteMember rid nid).
Proof.
  intros d a d' Hd H. pose proof (store.DeleteMember_wf rid nid d a d' (i_wf _ Hd) H) as Hw.
  injection H as _ <-. destruct Hd as [_ Hr Hdis Hm Hn]. split; simpl; try done.
  intros m r [Hm0 _]%store.elem_of_Filter. by apply Hm.
Qed.

Lemma UpsertNode_inv now n : store.keeps inv (store.UpsertNode now n).
Proof.
  intros d a d' Hd H. pose proof (store.UpsertNode_wf now n d a d' (i_wf _ Hd) H) as Hw. revert H. unfold store.UpsertNode.
  destruct Hd as [_ Hr Hdis Hm Hn]. destruct (existsb _ _).
  { intros [= _ <-]. split; simpl; try done. by apply store.Forall_upd. }
  destruct (existsb (fun x => bool_decide (store.EdKey x = store.EdKey n)) _); [done |]. intros [= _ <-].
  split; simpl; try done. apply Forall_app. split; [done |]. constructor; [constructor | done].
Qed.

Lemma UpdateNodeEndpoints_inv now id r : Forall (fun q => pki.ValidRoute q = true) (store.h_Routes r) ->
  store.keeps inv (store.UpdateNodeEndpoints now id r).
Proof.
  intros Hr d a d' Hd H. pose proof (store.UpdateNodeEndpoints_wf now id r d a d' (i_wf _ Hd) H) as Hw.
  apply store.tx_bind_ok in H as (n & d1 & H1 & (u & d2 & H2 & H3)%store.tx_bind_ok).
  apply store.reads_one in H1 as ->. injection H2 as _ <-. injection H3 as _ <-. destruct Hd as [_ Hro Hdis Hm Hn].
  split; simpl; try done. apply store.Forall_upd; [done |]. done.
Qed.

(** ** The service's transactions *)

Lemma keeps_tx {X} P (m : store.Tx store.error X) : store.keeps P m -> store.keeps P (tx m).
Proof. apply store.keeps_map_tx. Qed.

Lemma tx_ok {X} (m : store.Tx store.error X) d a d' : tx m d = Ok (a, d') <-> m d = Ok (a, d').
Proof. unfold tx, store.map_tx, map_err. destruct (m d) as [[b d1] | |]; naive_solver. Qed.

Lemma forbid_ok {X} (m : store.Tx store.error X) d a d' : forbid m d = Ok (a, d') <-> m d = Ok (a, d').
Proof. unfold forbid, store.map_tx, map_err. destruct (m d) as [[b d1] | |]; naive_solver. Qed.

Lemma lift_ok {E X} (r : res E X) d a d' : store.lift r d = Ok (a, d') <-> r = Ok a /\ d' = d.
Proof. unfold store.lift. destruct r; naive_solver. Qed.

(** A change that succeeded: its transaction, the version after it, the hub. *)
Lemma change_ok {X} s (fn : Tx X) a s' : change s fn = (Ok a, s') <->
  exists d, fn (st s) = Ok (a, d) /\ s' = MkService (store.set_version (store.version d + 1) d)
    (hub_set (hub_ s) (store.version d + 1)) (maxRooms s) (maxMembers s) (paths s).
Proof.
  unfold change. match goal with |- context [match ?m with _ => _ end] => destruct m as [[[b v] d'] | e |] eqn:H end.
  - apply store.tx_bind_ok in H as (c & d & Hf & (w & d1 & [= <- <-] & [= <- <- <-])%store.tx_bind_ok).
    rewrite Hf. split; [intros [= <- <-]; by exists d |]. by intros (? & [= <- <-] & ->).
  - split; [done |]. intros (d & Hf & _). unfold mbind, store.tx_bind in H. by rewrite Hf in H.
  - split; [done |]. intros (d & Hf & _). unfold mbind, store.tx_bind in H. by rewrite Hf in H.
Qed.

(** A change that failed leaves the service as it was. *)
Lemma change_failed {X} s (fn : Tx X) : (exists a s', change s fn = (Ok a, s')) \/ snd (change s fn) = s.
Proof.
  unfold change. match goal with |- context [match ?m with _ => _ end] => destruct m as [[[a v] d] | e |] end;
    [left; eauto | by right | by right].
Qed.

Lemma change_inv {X} s (fn : Tx X) : (forall a d, fn (st s) = Ok (a, d) -> inv d) -> inv (st s) -> inv (st (snd (change s fn))).
Proof.
  intros Hf Hs. destruct (change_failed s fn) as [(a & s' & H) | ->]; [| done]. rewrite H.
  apply change_ok in H as (d & H & ->). simpl. by eapply BumpVersion_inv; [| exact (eq_refl _)]; eapply Hf.
Qed.

(** The room a manager works on. *)
Lemma openRoom_ok r0 r : store.openRoom kek r0 = Ok r <-> exists s k,
  store.open_ kek (store.Secret r0) = Ok s /\ store.open_ kek (store.SignKey r0) = Ok k
  /\ r = store.MkRoom (store.r_ID r0) (store.r_Name r0) (store.Subnet r0) s k (store.OwnerID r0) (store.JoinPolicy r0)
       (store.Broadcast r0) (store.DNS r0) (store.ACL r0) (store.DHT r0) (store.r_Version r0) (store.r_CreatedAt r0).
Proof. unfold store.openRoom. rewrite bind_ok. setoid_rewrite bind_ok. naive_solver. Qed.

Lemma RoomByID_ok id d r d' : store.RoomByID kek id d = Ok (r, d') -> d' = d /\
  exists r0, r0 ∈ store.rooms d /\ store.r_ID r0 = id /\ store.openRoom kek r0 = Ok r.
Proof.
  intros (r0 & d1 & H1 & [H2 ->]%lift_ok)%store.tx_bind_ok. pose proof (store.reads_one _ _ _ _ _ H1) as ->. split; [done |].
  unfold store.one in H1. destruct (List.find _ _) as [x |] eqn:Hx; [| done]. injection H1 as ->.
  apply store.find_spec in Hx as [Hin Hid]. exists r0. split; [done |]. split; [| done].
  unfold store.room_is in Hid. by apply bool_decide_eq_true in Hid.
Qed.

Lemma roomFor_ok u id d r d' : roomFor kek u id d = Ok (r, d') -> d' = d /\ canManage u r = true /\
  exists r0, r0 ∈ store.rooms d /\ store.r_ID r0 = id /\ store.openRoom kek r0 = Ok r.
Proof.
  intros (r1 & d1 & [-> H1]%tx_ok%RoomByID_ok & H2)%store.tx_bind_ok. destruct (canManage u r1) eqn:Hc; [| done].
  by injection H2 as <- <-.
Qed.

Lemma roomFor_keeps P u id : store.keeps P (roomFor kek u id).
Proof. intros d r d' Hd [-> _]%roomFor_ok. done. Qed.

Lemma Member_ok rid nid d m d' : store.Member_ rid nid d = Ok (m, d') -> d' = d /\ store.m_row m ∈ store.members d
  /\ store.m_RoomID (store.m_row m) = rid /\ store.m_NodeID (store.m_row m) = nid /\ store.scanMember d (store.m_row m) = Some m.
Proof.
  unfold store.Member_. destruct (omap _ _) as [| x l] eqn:Hx; [done |]. intros [= -> <-]. split; [done |].
  assert (m ∈ omap (store.scanMember d) (List.filter (store.member_is rid nid) (store.members d))) as Hin by (rewrite Hx; constructor).
  apply list_elem_of_omap in Hin as (row & [Hrow Hk]%store.elem_of_Filter & Hs). apply store.member_is_key in Hk as [= <- <-].
  assert (store.m_row m = row) as ->; [| done]. unfold store.scanMember in Hs. destruct (List.find _ _); [| done]. by injection Hs as <-.
Qed.

(** The offered routes of a member are those of its node. *)
Lemma scan_offered d row m : store.scanMember d row = Some m -> exists n, n ∈ store.nodes d
  /\ store.n_ID n = store.m_NodeID row /\ store.Offered m = store.n_Routes n.
Proof.
  unfold store.scanMember. destruct (List.find _ _) as [n |] eqn:Hn; [| done]. intros [= <-].
  apply store.find_spec in Hn as [Hin Hid]. apply bool_decide_eq_true in Hid. by exists n.
Qed.

Lemma audit_inv now a b c e : store.keeps inv (audit now a b c e).
Proof. apply keeps_tx, Audit_inv. Qed.

Lemma bump_inv id : store.keeps inv (controller.BumpRoom id).
Proof. apply keeps_tx, BumpRoom_inv. Qed.

#[local] Hint Resolve audit_inv bump_inv roomFor_keeps keeps_tx store.keeps_ret store.keeps_lift store.keeps_fail
  store.keeps_one store.keeps_attempt : tx.
#[local] Ltac keeps := repeat first [apply store.keeps_bind; [solve [eauto with tx] |]; intros ? | solve [eauto with tx]].

Lemma change_keeps {X} s (fn : Tx X) : store.keeps inv fn -> inv (st s) -> inv (st (snd (change s fn))).
Proof. intros Hf Hs. apply change_inv; [| done]. intros a d. by apply Hf. Qed.

Lemma room_change_inv s now u id fn act det : store.keeps inv fn -> inv (st s) ->
  inv (st (snd (room_change kek s now u id fn act det))).
Proof. intros Hf. apply change_keeps. keeps. Qed.

(** ** Rooms: operations *)

Lemma ListRooms_reads i : store.reads (store.ListRooms kek i).
Proof. intros d a d' (rs & _ & [= _ <-])%bind_ok. done. Qed.

Lemma room_quota_keeps P s u : store.keeps P (room_quota kek s u).
Proof.
  unfold room_quota. destruct (_ && _); [| apply store.keeps_ret]. apply store.keeps_bind.
  - apply keeps_tx, store.reads_keeps, ListRooms_reads.
  - intros own. destruct (_ <=? _); [apply store.keeps_fail | apply store.keeps_ret].
Qed.

(** Random values of a new room: of their lengths, and without a key not by
    chance with the prefix of sealed values. *)
Record rnd_ok (rnd : room_rnd) : Prop := {
  q_secret : zlen (rnd_secret rnd) = 32;
  q_seed : length (rnd_seed rnd) = 32%nat;
  q_nonces : length (rnd_nonce rnd) = 24%nat /\ length (rnd_nonce' rnd) = 24%nat;
  q_plain : kek = None -> store.isSealed (rnd_secret rnd) = false /\ store.isSealed (pki.NewKeyFromSeed (rnd_seed rnd)) = false }.

Lemma subnet_valid p : subnets.subnet_ok p -> PrefixIsValid p = true.
Proof. intros (v & bits & [-> Hb _ _ _]). unfold PrefixIsValid. cbn [pfx_bits]. apply Z.leb_le. lia. Qed.

(** The row of a new room. *)
Definition fresh_row (now : Z) (u : store.User) (name policy : bytes) (p : Prefix) (rnd : room_rnd) : store.Room :=
  store.MkRoom (obfs.RoomID (rnd_secret rnd)) name p (store.seal kek (rnd_secret rnd) (rnd_nonce rnd))
    (store.seal kek (pki.NewKeyFromSeed (rnd_seed rnd)) (rnd_nonce' rnd)) (store.u_ID u) policy (str "on") [] [] false 1 now.

Lemma fresh_row_ok `{AL : !AeadLaws A} now u name policy p rnd : rnd_ok rnd -> subnets.subnet_ok p ->
  room_ok (fresh_row now u name policy p rnd).
Proof.
  intros [Hs Hk [Hn Hn'] Hp] Hsub. split; simpl; try done.
  - exists (rnd_secret rnd). split; [| done]. apply (store.open_seal_spec kek _ _ Hn). by intros [? ?]%Hp.
  - exists (rnd_seed rnd). split; [done |]. apply (store.open_seal_spec kek _ _ Hn'). by intros [? ?]%Hp.
  - exists []. apply Parse_empty.
Qed.

Lemma CreateRoom_tx_inv `{AL : !AeadLaws A} now u name policy p rnd d a d' : rnd_ok rnd -> subnets.subnet_ok p ->
  Forall (fun v => Overlaps v p = false) (List.filter PrefixIsValid (store.Subnet <$> store.rooms d)) ->
  inv d -> store.CreateRoom kek now (new_room u name policy p rnd) (rnd_nonce rnd) (rnd_nonce' rnd) d = Ok (a, d') -> inv d'.
Proof.
  intros Hrnd Hsub Hov Hd H. pose proof (fresh_row_ok now u name policy p rnd Hrnd Hsub) as Hr0.
  pose proof (store.CreateRoom_wf kek _ _ _ _ d a d' (i_wf _ Hd) H) as Hw.
  unfold store.CreateRoom, store.exec_if in H. destruct (_ && _) eqn:Hc; [| done]. injection H as _ <-. bool_hyps.
  apply store.existsb_key in H. destruct Hd as [Hwf Hr Hdis Hm Hnd].
  change (store.MkRoom _ _ _ _ _ _ _ _ _ _ _ _ _) with (fresh_row now u name policy p rnd) in *.
  assert (forall r, r ∈ store.rooms d -> Overlaps (store.Subnet r) p = false) as Hnew.
  { intros r Hin. rewrite Forall_forall in Hov. rewrite Forall_forall in Hr. apply Hov, store.elem_of_Filter.
    split; [by apply list_elem_of_fmap_2 |]. apply subnet_valid, (ro_subnet _ (Hr r Hin)). }
  split; simpl; try done.
  - apply Forall_app. split; [done | by constructor].
  - intros r r' [Hr1 | ->%list_elem_of_singleton]%elem_of_app [Hr2 | ->%list_elem_of_singleton]%elem_of_app Hne;
      [by apply Hdis | by apply Hnew | rewrite Overlaps_sym; by apply Hnew | by destruct Hne].
  - intros m r Hm0 [Hr1 | ->%list_elem_of_singleton]%elem_of_app Hi; [by apply Hm |].
    pose proof (store.w_member_of _ Hwf) as Hof. rewrite Forall_forall in Hof. destruct (Hof m Hm0) as [Hx _].
    rewrite <- Hi in Hx. done.
Qed.

Lemma CreateRoom_inv `{AL : !AeadLaws A} s now u name subnet policy rnd : rnd_ok rnd -> inv (st s) ->
  inv (st (snd (controller.CreateRoom kek s now u name subnet policy rnd))).
Proof.
  intros Hrnd Hs. unfold controller.CreateRoom. destruct (ValidateRoomName name) as [nm |]; [| done].
  destruct (negb _); [done |]. apply change_inv; [| done].
  intros a d (x & d1 & Hq & (used & d2 & [= <- <-]%tx_ok & (p & d3 & [Hp ->]%lift_ok & H)%store.tx_bind_ok)%store.tx_bind_ok)%store.tx_bind_ok.
  apply (room_quota_keeps inv s u _ _ _ Hs) in Hq. destruct (subnets.choose_subnet_ok _ _ _ _ Hp) as [Hok Hov].
  apply store.tx_bind_ok in H as (y & d4 & Hc%tx_ok & H). eapply CreateRoom_tx_inv in Hc; try done.
  apply store.tx_bind_ok in H as (z & d5 & Ha & [= <- <-]). by eapply audit_inv.
Qed.

Lemma parse_dns_ok fs : forall acc l, parse_dns fs acc = Ok l -> Forall (fun a => pki.ValidDNS a = true) acc ->
  Forall (fun a => pki.ValidDNS a = true) l.
Proof.
  induction fs as [| f fs IH]; intros acc l; simpl; [by intros [= <-] |].
  destruct (ParseAddr f) as [a |]; [| done]. destruct (pki.ValidDNS a) eqn:Hv; [| done]. cbn [negb].
  intros H Hacc. eapply IH; [exact H |]. destruct (decide _); [done |]. apply Forall_app. split; [done | by constructor].
Qed.

Lemma SetRoomDNS_op_inv s now u id servers : inv (st s) -> inv (st (snd (controller.SetRoomDNS kek s now u id servers))).
Proof.
  intros Hs. unfold controller.SetRoomDNS. destruct (parse_dns _ _) as [dns | |] eqn:Hp; [| done | done].
  destruct (Z.ltb_spec pki.MaxDNS (zlen dns)); [done |]. apply room_change_inv; [| done].
  apply keeps_tx, SetRoomDNS_inv; [done |]. eapply parse_dns_ok; [exact Hp | constructor].
Qed.

Lemma clean_rules_ok text rules : acl.Parse text = Ok rules -> acl.Parse (clean_rules text rules) = Ok rules.
Proof. intros H. unfold clean_rules. destruct rules; [apply Parse_empty | by apply Parse_kept]. Qed.

Lemma SetRoomACL_op_inv s now u id text : inv (st s) -> inv (st (snd (controller.SetRoomACL kek s now u id text))).
Proof.
  intros Hs. unfold controller.SetRoomACL. destruct (acl.Parse text) as [rules | |] eqn:Hp; [| done | done].
  apply room_change_inv; [| done]. eapply keeps_tx, SetRoomACL_inv. by apply clean_rules_ok.
Qed.

Lemma UpdateRoom_op_inv s now u id name pol b : inv (st s) -> inv (st (snd (controller.UpdateRoom kek s now u id name pol b))).
Proof.
  intros Hs. unfold controller.UpdateRoom. destruct (ValidateRoomName name); [| done]. destruct (negb _); [done |].
  destruct (_ && _); [done |]. apply room_change_inv; [| done]. apply keeps_tx, UpdateRoom_inv.
Qed.

Lemma DeleteRoom_op_inv s now u id : inv (st s) -> inv (st (snd (controller.DeleteRoom kek s now u id))).
Proof. apply change_keeps. pose proof (keeps_tx inv _ (DeleteRoom_inv id)). keeps. Qed.

(** ** Invites: operations *)

Lemma CreateInvite_op_inv s now u url id uses ttl auto note raw : inv (st s) ->
  inv (st (snd (controller.CreateInvite kek s now u url id uses ttl auto note raw))).
Proof.
  intros Hs. unfold controller.CreateInvite. destruct (_ || _); [done |]. destruct (_ <? _); [done |].
  apply change_keeps; [| done]. apply store.keeps_bind; [eauto with tx |]. intros r.
  apply store.keeps_bind; [apply keeps_tx, CreateInvite_inv |]. intros i. keeps.
Qed.

Lemma RevokeInvite_op_inv s now u id i : inv (st s) -> inv (st (snd (controller.RevokeInvite kek s now u id i))).
Proof. apply change_keeps. pose proof (keeps_tx inv _ (RevokeInvite_inv id i)). keeps. Qed.

(** ** Members: operations *)

(** The row of a member may carry these settings in its room. *)
Definition row_ok (d : store.db) (m : store.member_row) : Prop :=
  forall r, r ∈ store.rooms d -> store.r_ID r = store.m_RoomID m -> member_ok (store.Subnet r) m.

Lemma row_ok_same d m m' : store.m_RoomID m' = store.m_RoomID m -> store.IP m' = store.IP m ->
  store.Routes m' = store.Routes m -> row_ok d m -> row_ok d m'.
Proof. intros Hr Hi Hro H r Hin Hid. rewrite Hr in Hid. destruct (H r Hin Hid). split; by rewrite ?Hi, ?Hro. Qed.

Lemma row_ok_routes d m rs : (forall r, r ∈ store.rooms d -> store.r_ID r = store.m_RoomID m -> Forall (route_ok (store.Subnet r)) rs) ->
  row_ok d m -> row_ok d (with_routes m rs).
Proof. intros Hrs H r Hin Hid. split; simpl; [by apply H | by apply Hrs]. Qed.

(** A change of one member, with its end. *)
Lemma member_end_inv (fn : Tx unit) now id actor act det d a d' : inv d ->
  (forall b d1, fn d = Ok (b, d1) -> inv d1) ->
  (_ ← fn; _ ← controller.BumpRoom id; audit now actor act id det) d = Ok (a, d') -> inv d'.
Proof.
  intros Hd Hf (b & d1 & H1 & H2)%store.tx_bind_ok. apply Hf in H1.
  by eapply (store.keeps_bind inv); [apply bump_inv | intros; apply audit_inv | exact H1 | exact H2].
Qed.

Lemma update_row_inv m d b d1 : inv d -> row_ok d m -> tx (store.UpdateMember m) d = Ok (b, d1) -> inv d1.
Proof. intros Hd Hm H%tx_ok. by eapply UpdateMember_inv. Qed.

Lemma exit_choice_reads rid nid xid d a d' : exit_choice rid nid xid d = Ok (a, d') -> d' = d.
Proof.
  unfold exit_choice. case_bool_decide; [by intros [= _ <-] |].
  intros (r & d1 & H1 & H2)%store.tx_bind_ok. unfold store.attempt in H1.
  assert (d1 = d) as ->.
  { destruct (store.Member_ rid xid d) as [[m d2] | |] eqn:Hm; [| by injection H1 as _ <- | done].
    apply Member_ok in Hm as [-> _]. by injection H1 as _ <-. }
  destruct r as [x | |]; [| done | done]. destruct (_ || _); [done |]. by injection H2 as _ <-.
Qed.

Lemma SetMemberExit_inv s now u rid nid xid : inv (st s) -> inv (st (snd (controller.SetMemberExit kek s now u rid nid xid))).
Proof.
  intros Hs. apply change_inv; [| done].
  intros a d (r & d1 & [-> _]%roomFor_ok & (m & d2 & Hm%tx_ok & (name & d3 & Hx & H)%store.tx_bind_ok)%store.tx_bind_ok)%store.tx_bind_ok.
  apply Member_ok in Hm as (-> & Hin & Hrid & _). apply exit_choice_reads in Hx as ->. revert H. apply member_end_inv; [done |].
  intros b d1. apply update_row_inv; [done |]. apply (row_ok_same _ (store.m_row m)); try done. intros r0. by apply (i_members _ Hs).
Qed.

Lemma do_action_inv rid nid m act d a d' : inv d -> store.m_row m ∈ store.members d -> store.m_RoomID (store.m_row m) = rid ->
  store.scanMember d (store.m_row m) = Some m -> do_action kek rid nid m act d = Ok (a, d') -> inv d'.
Proof.
  intros Hd Hin Hrid Hscan. assert (row_ok d (store.m_row m)) as Hrow by (intros r0; by apply (i_members _ Hd)).
  unfold do_action. destruct act; try (apply update_row_inv; [done | by apply (row_ok_same _ (store.m_row m))]).
  - intros H%tx_ok. by eapply DeleteMember_inv.
  - intros (r & d1 & [-> (r0 & Hr0 & Hid & Ho)]%tx_ok%RoomByID_ok & H)%store.tx_bind_ok. case_bool_decide; [done |]. revert H.
    apply update_row_inv; [done |]. apply row_ok_routes; [| done]. intros r1 Hr1 Hid1.
    assert (r1 = r0) as -> by (apply (store.key_inj store.r_ID (store.rooms d)); [apply Hd | done | done | congruence]).
    apply openRoom_ok in Ho as (s & k & _ & _ & ->). simpl. apply Forall_forall.
    intros q [Hq Hov]%store.elem_of_Filter. split; [| by apply negb_true_iff].
    destruct (scan_offered _ _ _ Hscan) as (n & Hn & _ & Hof). rewrite Hof in Hq.
    pose proof (i_nodes _ Hd) as Hall. rewrite Forall_forall in Hall. specialize (Hall n Hn).
    unfold node_ok in Hall. rewrite Forall_forall in Hall. by apply Hall.
  - apply update_row_inv; [done |]. by apply row_ok_routes.
  - destruct (negb _); [done |]. apply update_row_inv; [done |]. by apply (row_ok_same _ (store.m_row m)).
  - done.
Qed.

Lemma MemberAction_inv s now u rid nid act : inv (st s) -> inv (st (snd (controller.MemberAction kek s now u rid nid act))).
Proof.
  intros Hs. apply change_inv; [| done].
  intros a d (r & d1 & [-> _]%roomFor_ok & (m & d2 & Hm%tx_ok & H)%store.tx_bind_ok)%store.tx_bind_ok.
  apply Member_ok in Hm as (-> & Hin & Hrid & _ & Hsc). revert H. apply member_end_inv; [done |].
  intros b d1. by apply do_action_inv.
Qed.

(** A checked address. *)
Lemma usable_any {E F} p a : usableHost (E := E) p a = Ok true -> usableHost (E := F) p a = Ok true.
Proof.
  unfold usableHost. destruct (_ || _); [done |]. unfold lastAddr, As4.
  destruct (Unmap (pfx_ip (Masked p))); cbn [mbind res_bind]; [done | intros H; injection H as H; by f_equal | done].
Qed.

Lemma place_ok rid r m ip d a d' : place rid r m ip d = Ok (a, d') -> d' = d /\ usableHost (E := unit) (store.Subnet r) a = Ok true.
Proof.
  unfold place. destruct (ParseAddr _) as [addr |]; [| done].
  intros (ok & d1 & [Hu ->]%lift_ok & H)%store.tx_bind_ok. destruct ok; [| done]. cbn [negb] in H. apply (usable_any (F := unit)) in Hu.
  case_bool_decide; [by injection H as <- <- |].
  apply store.tx_bind_ok in H as (ms & d2 & [= _ <-]%tx_ok & H). destruct (List.find _ _); [done |]. by injection H as <- <-.
Qed.

Lemma UpdateMember_op_inv s now u rid nid name ip tags : inv (st s) ->
  inv (st (snd (controller.UpdateMember kek s now u rid nid name ip tags))).
Proof.
  intros Hs. unfold controller.UpdateMember. destruct (_ || _); [done |]. destruct (parse_tags _) as [tl | |]; [| done | done].
  apply change_inv; [| done].
  intros a d (r & d1 & (-> & _ & r0 & Hr0 & Hid & Ho)%roomFor_ok & (m & d2 & Hm%tx_ok & (addr & d3 & [-> Hu]%place_ok & H)%store.tx_bind_ok)%store.tx_bind_ok)%store.tx_bind_ok.
  apply Member_ok in Hm as (-> & Hin & Hrid & _ & Hsc). revert H. apply member_end_inv; [done |].
  intros b d1. apply update_row_inv; [done |]. intros r1 Hr1 Hid1. simpl in Hid1.
  assert (r1 = r0) as -> by (apply (store.key_inj store.r_ID (store.rooms (st s))); [apply Hs | done | done | congruence]).
  apply openRoom_ok in Ho as (sec & k & _ & _ & ->). simpl in Hu. split; simpl; [done |].
  apply (mo_routes _ _ (i_members _ Hs (store.m_row m) r0 Hin Hr0 ltac:(congruence))).
Qed.

(** ** The node API: operations *)

Lemma next_free_usable fuel p used : forall a x, next_free fuel p used a = Ok x ->
  usableHost (E := unit) p x = Ok true /\ x ∉ used.
Proof.
  induction fuel as [| fuel IH]; intros a x; simpl; [done |]. destruct (Contains p a); [| done].
  intros (ok & Hu & H)%bind_ok. destruct (ok && _) eqn:Hc; [| by eapply IH]. injection H as <-. bool_hyps. subst ok.
  split; [by apply (usable_any (E := error)) | done].
Qed.

Lemma take_routes_ok l : forall acc, Forall (fun q => pki.ValidRoute q = true) acc ->
  Forall (fun q => pki.ValidRoute q = true) (clean_routes l acc).
Proof.
  induction l as [| q l IH]; intros acc Hacc; simpl; [done |]. apply IH. destruct (_ && _) eqn:Hc; [| done].
  bool_hyps. apply Forall_app. split; [done | by constructor].
Qed.

Lemma reach_routes e remote v : Forall (fun q => pki.ValidRoute q = true) (store.h_Routes (reach e remote v)).
Proof. by apply take_routes_ok. Qed.

(** The statements of a join write one table each. *)
Lemma UpsertNode_set now n d a d' : store.UpsertNode now n d = Ok (a, d') -> exists l, d' = store.set_nodes l d.
Proof.
  unfold store.UpsertNode. destruct (existsb _ _); [intros [= _ <-]; eauto |].
  destruct (existsb _ _); [done |]. intros [= _ <-]. eauto.
Qed.

Lemma UpdateNodeEndpoints_set now id r d a d' : store.UpdateNodeEndpoints now id r d = Ok (a, d') ->
  exists l, d' = store.set_nodes l d.
Proof.
  intros (n & d1 & H1 & (u & d2 & H2 & H3)%store.tx_bind_ok)%store.tx_bind_ok.
  apply store.reads_one in H1 as ->. injection H2 as _ <-. injection H3 as _ <-. eauto.
Qed.

Lemma UseInvite_set now rid tok d i d' : store.UseInvite now rid tok d = Ok (i, d') ->
  i ∈ store.invites d /\ store.i_RoomID i = rid /\ store.TokenHash i = tok /\ store.usable now i = true /\
  d' = store.set_invites (if 0 <? store.UsesLeft i
    then store.upd (fun x => store.i_ID x =? store.i_ID i) (fun x => store.set_uses (store.UsesLeft x - 1) x) (store.invites d)
    else store.invites d) d.
Proof.
  intros (j & d1 & H1 & (u & d2 & H2 & [= -> <-])%store.tx_bind_ok)%store.tx_bind_ok.
  pose proof (store.reads_one _ _ _ _ _ H1) as ->. unfold store.one in H1. destruct (List.find _ _) as [x |] eqn:Hx; [| done].
  injection H1 as ->. apply store.find_spec in Hx as [Hin Hx]. bool_hyps. repeat (split; [done |]).
  destruct (0 <? _); injection H2 as _ <-; [done | by destruct d].
Qed.

Lemma admitNode_inv s now r nodeID req d a d' : inv d ->
  (forall r0, r0 ∈ store.rooms d -> store.r_ID r0 = store.r_ID r -> store.Subnet r0 = store.Subnet r) ->
  admitNode s now r nodeID req d = Ok (a, d') -> inv d'.
Proof.
  intros Hd Hsub (i & d1 & Hi%forbid_ok & (ms & d2 & [= <- <-]%tx_ok & H)%store.tx_bind_ok)%store.tx_bind_ok.
  pose proof (UseInvite_set _ _ _ _ _ _ Hi) as (_ & _ & _ & _ & Hr). apply UseInvite_service in Hi; [| done].
  destruct (_ && _); [done |]. apply store.tx_bind_ok in H as (ip & d3 & [Hip ->]%lift_ok & H).
  apply next_free_usable in Hip as [Hu _]. apply store.tx_bind_ok in H as (x & d4 & Ha%tx_ok & H).
  apply AddMember_inv in Ha; [| | done].
  2: { simpl. rewrite Hr. intros r0 Hin Hid. by rewrite (Hsub r0 Hin Hid). }
  eapply (store.keeps_bind inv); [apply bump_inv | | exact Ha | exact H]. intros ?. keeps.
Qed.

Lemma Join_inv s now key req remote : inv (st s) -> inv (st (snd (controller.Join kek s now key req remote))).
Proof.
  intros Hs. unfold controller.Join. destruct (_ || _); [done |]. apply change_inv; [| done].
  intros a d (r & d1 & [-> (r0 & Hr0 & Hid & Ho)]%forbid_ok%RoomByID_ok & (x & d2 & Hup%tx_ok
    & (y & d3 & Hue%tx_ok & H)%store.tx_bind_ok)%store.tx_bind_ok)%store.tx_bind_ok.
  pose proof (UpsertNode_set _ _ _ _ _ Hup) as [l Hra]. pose proof (UpdateNodeEndpoints_set _ _ _ _ _ _ Hue) as [l' Hrb].
  apply UpsertNode_inv in Hup; [| done]. apply UpdateNodeEndpoints_inv in Hue; [| apply reach_routes | done].
  apply store.tx_bind_ok in H as (m & d4 & Hm & H). apply (store.keeps_attempt inv) in Hm as Hd4; [| | done].
  2: { intros d5 m5 d6 Hd5 [-> _]%Member_ok. done. }
  assert (d4 = d3) as ->.
  { unfold store.attempt in Hm. destruct (store.Member_ _ _ d3) as [[m5 d5] | |] eqn:Hm5; [| by injection Hm as _ <- | done].
    apply Member_ok in Hm5 as [-> _]. by injection Hm as _ <-. }
  destruct m as [m | [] |]; try done.
  - case_bool_decide; [done |]. by injection H as _ <-.
  - apply store.tx_bind_ok in H as (z & d5 & Had & [= _ <-]). revert Had. apply admitNode_inv; [done |].
    rewrite Hrb, Hra. intros r1 Hr1 Hid1. apply openRoom_ok in Ho as (sec & k & _ & _ & ->). simpl in *.
    f_equal. by apply (store.key_inj store.r_ID (store.rooms (st s))); [apply Hs | | |].
Qed.

Lemma Leave_inv s now key rid : inv (st s) -> inv (st (snd (controller.Leave s now key rid))).
Proof.
  intros Hs. apply change_inv; [| done]. intros a d (m & d1 & [-> _]%tx_ok%Member_ok & H)%store.tx_bind_ok.
  case_bool_decide; [by injection H as _ <- |]. revert H. apply member_end_inv; [done |].
  intros b d1 H%tx_ok. by eapply DeleteMember_inv.
Qed.

Lemma Tx_inv {X} s (fn : Tx X) : store.keeps inv fn -> inv (st s) -> inv (st (snd (Tx_ s fn))).
Proof. intros Hf Hs. unfold Tx_. destruct (fn (st s)) as [[a d] | |] eqn:H; [| done | done]. by eapply Hf. Qed.

Lemma Tx_ok {X} s (fn : Tx X) a s' : Tx_ s fn = (Ok a, s') -> exists d, fn (st s) = Ok (a, d)
  /\ s' = MkService d (hub_ s) (maxRooms s) (maxMembers s) (paths s).
Proof. unfold Tx_. destruct (fn (st s)) as [[b d] | |]; [| done | done]. intros [= <- <-]. by exists d. Qed.

Lemma Tx_failed {X} s (fn : Tx X) r s' : Tx_ s fn = (r, s') -> is_ok r = false -> s' = s.
Proof. unfold Tx_. destruct (fn (st s)) as [[b d] | |]; intros [= <- <-]; done. Qed.

Lemma Poll_inv s now key req remote : inv (st s) -> inv (st (snd (controller.Poll s now key req remote))).
Proof.
  intros Hs. unfold controller.Poll. destruct (Tx_ _ _) as [r s1] eqn:Ht. destruct r as [[bk ch] | |].
  2-3: by apply Tx_failed in Ht as ->.
  apply Tx_ok in Ht as (d & H & ->).
  assert (inv d) as Hd.
  { revert Hs H. generalize (st s) (bk, ch) d. apply store.keeps_bind; [apply store.keeps_map_tx, store.keeps_one |].
    intros n. apply store.keeps_bind; [| intros; apply store.keeps_ret].
    apply keeps_tx, UpdateNodeEndpoints_inv, reach_routes. }
  destruct ch; [| done]. set (s2 := MkService _ _ _ _ _).
  pose proof (change_keeps s2 (mret tt) (store.keeps_ret inv tt) Hd) as Hc. by destruct (change s2 (mret tt)).
Qed.

(** ** The service as a step relation *)

(** One operation of the service, or a statement of the panel or the command
    line on users, sessions and settings. *)
Inductive step (s : Service) : Service -> Prop :=
  | s_create now u n p pol rnd : rnd_ok rnd -> step s (snd (CreateRoom kek s now u n p pol rnd))
  | s_update now u id n pol b : step s (snd (UpdateRoom kek s now u id n pol b))
  | s_dns now u id l : step s (snd (SetRoomDNS kek s now u id l))
  | s_dht now u id b : step s (snd (SetRoomDHT kek s now u id b))
  | s_acl now u id t : step s (snd (SetRoomACL kek s now u id t))
  | s_delete now u id : step s (snd (DeleteRoom kek s now u id))
  | s_invite now u url id n ttl b note raw : step s (snd (CreateInvite kek s now u url id n ttl b note raw))
  | s_revoke now u id i : step s (snd (RevokeInvite kek s now u id i))
  | s_exit now u id nid x : step s (snd (SetMemberExit kek s now u id nid x))
  | s_action now u id nid act : step s (snd (MemberAction kek s now u id nid act))
  | s_member now u id nid n ip tags : step s (snd (UpdateMember kek s now u id nid n ip tags))
  | s_join now key req remote : step s (snd (Join kek s now key req remote))
  | s_leave now key id : step s (snd (Leave s now key id))
  | s_poll now key req remote : step s (snd (Poll s now key req remote))
  | s_backup now u ok : step s (snd (Backup s now u ok))
  | s_relay rnd n : step s (snd (RelayKey kek s rnd n))
  | s_vless r1 r2 r3 n1 n2 n3 : step s (snd (VLESSSecrets kek s r1 r2 r3 n1 n2 n3))
  | s_quotas r m : step s (SetQuotas s r m)
  | s_watch : step s (watch s)
  | s_users d : store.step kek (st s) d -> same_tables (st s) d ->
      step s (MkService d (hub_ s) (maxRooms s) (maxMembers s) (paths s)).

(** The service of a new database and what operations make of it. *)
Definition reachable (s : Service) : Prop := rtc step (NewService store.empty_db) s.

Lemma load_setting_inv name len rnd n : store.keeps inv (load_setting kek name len rnd n).
Proof.
  apply store.keeps_bind.
  - apply store.keeps_attempt, store.keeps_bind; [apply store.keeps_one | intros; apply store.keeps_lift].
  - assert (store.keeps inv (_ ← tx (store.SetSetting kek (str name) rnd n); mret rnd)) as Hset.
    { apply store.keeps_bind; [apply keeps_tx, SetSetting_inv | intros; apply store.keeps_ret]. }
    intros [v | [] |]; eauto with tx. destruct (_ =? _); eauto with tx.
Qed.

Lemma step_inv `{AL : !AeadLaws A} s s' : step s s' -> inv (st s) -> inv (st s').
Proof.
  intros Hs Hd. destruct Hs.
  - by apply CreateRoom_inv.
  - by apply UpdateRoom_op_inv.
  - by apply SetRoomDNS_op_inv.
  - apply room_change_inv; [| done]. apply keeps_tx, SetRoomDHT_inv.
  - by apply SetRoomACL_op_inv.
  - by apply DeleteRoom_op_inv.
  - by apply CreateInvite_op_inv.
  - by apply RevokeInvite_op_inv.
  - by apply SetMemberExit_inv.
  - by apply MemberAction_inv.
  - by apply UpdateMember_op_inv.
  - by apply Join_inv.
  - by apply Leave_inv.
  - by apply Poll_inv.
  - unfold Backup. destruct (negb _); [done |]. destruct ok; [| done | done]. apply Tx_inv; [apply audit_inv | done].
  - apply Tx_inv; [| done]. apply store.keeps_bind; [apply load_setting_inv | intros; apply store.keeps_ret].
  - apply Tx_inv; [| done]. repeat (apply store.keeps_bind; [apply load_setting_inv | intros]). apply store.keeps_ret.
  - done.
  - done.
  - destruct H0 as (Hr & Hm & Hn). apply (inv_tables (st s)); try done. eapply store.step_wf; [done | apply Hd].
Qed.

Lemma reachable_inv `{AL : !AeadLaws A} s : reachable s -> inv (st s).
Proof.
  intros H. unfold reachable in H. assert (inv (st (NewService store.empty_db))) as H0 by apply inv_empty.
  revert H0. induction H as [| x y z Hs _ IH]; [done |]. intros Hx. by apply IH, (step_inv x y).
Qed.

(** in every reachable state of the service the database satisfies its
    schema; every room has a subnet of 8 to 65536 addresses that overlaps no
    other room's, a secret and a signing key that open and fit its ID, at most
    three valid DNS servers and rules that parse; every member has a usable
    address of its room's subnet, and its approved routes are valid and outside
    the subnet. *)
Theorem service_invariant `{AL : !AeadLaws A} s : reachable s -> inv (st s).
Proof. apply reachable_inv. Qed.

End Invariant.
End service.
