(* ===== verification/ControllerMap.v ===== *)
(** The network map the controller answers a poll with (netMap of service.go):
    who gets a signed configuration of which room, what is in it, and whose
    addresses a node learns. *)
From stdpp Require Import base list gmap strings.
From Stdlib Require Import ZArith Lia.
From S2P Require Import Prelude GoStrings GoText Netip Acl Crypto Obfs Identity Pki Store Controller ControllerNet ControllerInv.

Open Scope Z_scope.

Module netmap.
Import controller service.

(** ** Members as the code reads them *)

Lemma scan_some d row : store.wf d -> row ∈ store.members d -> exists m, store.scanMember d row = Some m.
Proof.
  intros Hd Hin. pose proof (store.w_member_of _ Hd) as Hof. rewrite Forall_forall in Hof. destruct (Hof row Hin) as [_ Hn].
  unfold store.scanMember. destruct (List.find _ (store.nodes d)) as [n |] eqn:Hf; [eauto |].
  apply list_elem_of_fmap in Hn as (n & Hid & Hn). apply list_elem_of_In in Hn.
  pose proof (find_none _ _ Hf n Hn) as Hb. cbv beta in Hb. by rewrite bool_decide_eq_true_2 in Hb.
Qed.

Lemma scan_row d row m : store.scanMember d row = Some m -> store.m_row m = row.
Proof. unfold store.scanMember. destruct (List.find _ _); [| done]. by intros [= <-]. Qed.

Lemma scan_node d row m : store.scanMember d row = Some m -> exists n, List.find
  (fun n => bool_decide (store.n_ID n = store.m_NodeID row)) (store.nodes d) = Some n.
Proof. unfold store.scanMember. destruct (List.find _ _) as [n |]; [eauto | done]. Qed.

(** [queryMembers] gives every row of the condition, with its node. *)
Definition query_result (p : store.member_row -> bool) (d : store.db) : list store.Member :=
  store.order_by (fun a b => store.text_le (store.addrString (store.IP (store.m_row a))) (store.addrString (store.IP (store.m_row b))))
    (omap (store.scanMember d) (List.filter p (store.members d))).

Lemma query_in p d m : m ∈ query_result p d <->
  store.m_row m ∈ store.members d /\ p (store.m_row m) = true /\ store.scanMember d (store.m_row m) = Some m.
Proof.
  unfold query_result. rewrite (store.order_by_perm _ _), list_elem_of_omap. split.
  - intros (row & [Hin Hp]%store.elem_of_Filter & Hs). by rewrite (scan_row _ _ _ Hs).
  - intros (Hin & Hp & Hs). exists (store.m_row m). split; [by apply store.elem_of_Filter | done].
Qed.

Lemma query_rows p d : store.wf d -> map store.m_row (query_result p d) ≡ₚ List.filter p (store.members d).
Proof.
  intros Hd. unfold query_result. rewrite (Permutation_map _ (store.order_by_perm _ _)). apply reflexive_eq.
  assert (forall l, (forall x, x ∈ l -> x ∈ store.members d) -> map store.m_row (omap (store.scanMember d) l) = l) as H.
  { induction l as [| x l IH]; intros Hl; [done |]. simpl.
    destruct (scan_some d x Hd (Hl x ltac:(constructor))) as (m & Hm). rewrite Hm. simpl. rewrite (scan_row _ _ _ Hm).
    f_equal. apply IH. intros y Hy. apply Hl. by constructor. }
  apply H. by intros x [? _]%store.elem_of_Filter.
Qed.

Lemma query_row p d row : store.wf d -> row ∈ store.members d -> p row = true ->
  exists m, m ∈ query_result p d /\ store.m_row m = row.
Proof.
  intros Hd Hin Hp. destruct (scan_some d row Hd Hin) as (m & Hm). exists m. pose proof (scan_row _ _ _ Hm) as Hr.
  split; [| done]. apply query_in. by rewrite Hr.
Qed.

Section NetMap.
Context `{CL : CryptoLaws} `{A : Aead} `{J : pki.Json} (kek : option bytes).

(** ** The peers *)

Lemma NodeByID_found d row m : store.scanMember d row = Some m -> exists n,
  tx (store.NodeByID (store.m_NodeID row)) d = Ok (n, d).
Proof.
  intros (n & Hn)%scan_node. exists n. apply tx_ok. unfold store.NodeByID, store.one. by rewrite Hn.
Qed.

(** Every other active member of the room becomes a peer, and nobody else. *)
Lemma add_peers_spec now nodeID d ms : (forall m, m ∈ ms -> store.scanMember d (store.m_row m) = Some m) -> forall peers,
  exists peers', add_peers now nodeID ms peers d = Ok (peers', d) /\
    forall id, is_Some (peers' !! id) <-> is_Some (peers !! id) \/
      (id <> nodeID /\ exists m, m ∈ ms /\ active m = true /\ store.m_NodeID (store.m_row m) = id).
Proof.
  induction ms as [| m ms IH]; intros Hscan peers.
  - exists peers. split; [done |]. intros id. split; [by left |]. intros [? | (_ & m & Hm & _)]; [done | by apply elem_of_nil in Hm].
  - assert (forall m', m' ∈ ms -> store.scanMember d (store.m_row m') = Some m') as Hscan' by (intros; apply Hscan; by constructor).
    cbn [add_peers]. destruct (_ || _) eqn:Hskip.
    + destruct (IH Hscan' peers) as (peers' & Hp & Hk). exists peers'. split; [done |]. intros id. rewrite Hk.
      assert (active m = true -> store.m_NodeID (store.m_row m) <> nodeID -> is_Some (peers !! store.m_NodeID (store.m_row m))) as Hm.
      { intros Ha Hne. rewrite Ha, bool_decide_eq_false_2 in Hskip by done. by apply bool_decide_eq_true in Hskip. }
      setoid_rewrite elem_of_cons. naive_solver.
    + bool_hyps. destruct (NodeByID_found d _ m (Hscan m ltac:(constructor))) as (n & Hn).
      destruct (IH Hscan' (<[store.m_NodeID (store.m_row m) := peer_of now n]> peers)) as (peers' & Hp & Hk).
      exists peers'. split; [unfold mbind, store.tx_bind; by rewrite Hn |]. intros id. rewrite Hk.
      rewrite lookup_insert_is_Some. setoid_rewrite elem_of_cons.
      destruct (decide (store.m_NodeID (store.m_row m) = id)); naive_solver.
Qed.

(** ** The configuration of a room *)

Lemma key32_id b : zlen b = 32 -> key32 b = b.
Proof.
  intros Hb. unfold key32. unfold zlen in Hb. rewrite take_ge by lia. apply copy_into_full. unfold zeros; rewrite length_replicate; lia.
Qed.

Lemma NoDup_map_weaken {X Y Z} (f : X -> Y) (g : X -> Z) l : NoDup (map g l) ->
  (forall x y, x ∈ l -> y ∈ l -> f x = f y -> g x = g y) -> NoDup (map f l).
Proof.
  induction l as [| x l IH]; simpl; [constructor |]. intros [Hx Hl]%NoDup_cons Hfg. apply NoDup_cons. split.
  - intros (y & Hy & Hin)%list_elem_of_fmap. apply Hx, list_elem_of_fmap. exists y. split; [| done].
    apply Hfg; [constructor | by constructor | done].
  - apply IH; [done |]. intros y z Hy Hz. apply Hfg; by constructor.
Qed.

Definition of_room (id : bytes) (row : store.member_row) : bool := bool_decide (store.m_RoomID row = id).

Lemma room_ips d id : store.wf d -> NoDup (map (fun m => store.IP (store.m_row m)) (query_result (of_room id) d)).
Proof.
  intros Hd. rewrite <- (map_map store.m_row store.IP), (Permutation_map _ (query_rows _ _ Hd)).
  eapply NoDup_map_weaken; [apply store.NoDup_map_Filter, (store.w_ips _ Hd) |].
  intros x y [_ Hx]%store.elem_of_Filter [_ Hy]%store.elem_of_Filter He. unfold of_room in *.
  apply bool_decide_eq_true in Hx, Hy. by rewrite Hx, Hy, He.
Qed.

Lemma usable_inside {E} p a : usableHost (E := E) p a = Ok true -> Contains p a = true.
Proof. unfold usableHost. destruct (Contains p a); [done |]. done. Qed.

Lemma room_config_ok d r0 r now rules : inv kek d -> r0 ∈ store.rooms d -> store.openRoom kek r0 = Ok r ->
  pki.config_ok (room_config now r rules (query_result (of_room (store.r_ID r0)) d)).
Proof.
  intros Hd Hr0 Ho. pose proof (i_rooms _ _ Hd) as Hall. rewrite Forall_forall in Hall. specialize (Hall r0 Hr0).
  destruct Hall as [Hsub (s & Hs & Hl & Hid) _ [Hdl Hdns] _]. apply openRoom_ok in Ho as (s' & k & Hs' & _ & ->).
  assert (s' = s) as -> by congruence.
  set (ms := query_result _ _).
  assert (forall m, m ∈ List.filter active ms -> member_ok (store.Subnet r0) (store.m_row m)) as Hms.
  { intros m [(Hin & Hp & _)%query_in _]%store.elem_of_Filter. apply bool_decide_eq_true in Hp.
    by apply (i_members _ _ Hd). }
  split; simpl.
  - by rewrite key32_id.
  - by apply subnet_valid.
  - rewrite map_map. apply store.NoDup_map_Filter. apply (room_ips d _ (i_wf _ _ Hd)).
  - apply Forall_map, Forall_forall. intros m Hm. simpl. eapply usable_inside, mo_ip, Hms, Hm.
  - apply Forall_map, Forall_forall. intros m Hm. simpl. apply store.Forall_Filter. exact (mo_routes _ _ (Hms m Hm)).
  - done.
  - done.
Qed.

(** The configuration lists exactly the active members of the room. *)
Lemma config_members d now r rules rid id : store.wf d ->
  id ∈ map pki.NodeID (pki.Members (room_config now r rules (query_result (of_room rid) d))) <->
  exists o, o ∈ store.members d /\ store.is_active o = true /\ store.m_RoomID o = rid /\ store.m_NodeID o = id.
Proof.
  intros Hd. simpl. rewrite map_map, list_elem_of_fmap. split.
  - intros (m & -> & [(Hin & Hr & _)%query_in Ha]%store.elem_of_Filter). apply bool_decide_eq_true in Hr.
    by exists (store.m_row m).
  - intros (o & Ho & Ha & Hr & <-). destruct (query_row (of_room rid) d o Hd Ho) as (m & Hm & Hrow).
    { by apply bool_decide_eq_true. }
    exists m. simpl. rewrite Hrow. split; [done |]. apply store.elem_of_Filter. split; [done |]. unfold active. by rewrite Hrow.
Qed.

(** ** One membership *)

(** The state of a room in the map of a member: for an active one the signed
    configuration of the room's active members, which a node that knows the
    room's key accepts. *)
Definition described (d : store.db) (now : Z) (row : store.member_row) (rs : RoomState) : Prop :=
  rs_RoomID rs = store.m_RoomID row /\ rs_Status rs = store.Status row /\
  if store.is_active row then
    rs_UseExit rs = store.UseExit row /\
    exists r0 r seed rules cfg sg, r0 ∈ store.rooms d /\ store.r_ID r0 = store.m_RoomID row
      /\ store.openRoom kek r0 = Ok r /\ length seed = 32%nat /\ store.SignKey r = pki.NewKeyFromSeed seed
      /\ acl.Parse (store.ACL r) = Ok rules
      /\ cfg = room_config now r rules (query_result (of_room (store.r_ID r0)) d) /\ pki.config_ok cfg
      /\ (forall id, id ∈ map pki.NodeID (pki.Members cfg) <-> exists o, o ∈ store.members d
            /\ store.is_active o = true /\ store.m_RoomID o = store.m_RoomID row /\ store.m_NodeID o = id)
      /\ Config rs = Some sg /\ pki.Marshal cfg = Some (pki.Payload sg)
      /\ (pki.Unmarshal (pki.Payload sg) = Some cfg -> pki.VerifyRoomConfig (ed_public seed) sg = Ok cfg)
  else Config rs = None /\ rs_UseExit rs = [].

(** Whose addresses the map has after some of the memberships. *)
Definition known (d : store.db) (nodeID id : bytes) (ms : list store.Member) : Prop :=
  id <> nodeID /\ exists m o, m ∈ ms /\ active m = true /\ o ∈ store.members d /\ store.is_active o = true
    /\ store.m_RoomID o = store.m_RoomID (store.m_row m) /\ store.m_NodeID o = id.

Lemma RoomByID_found d row : inv kek d -> row ∈ store.members d -> exists r0 r, r0 ∈ store.rooms d
  /\ store.r_ID r0 = store.m_RoomID row /\ store.openRoom kek r0 = Ok r
  /\ tx (store.RoomByID kek (store.m_RoomID row)) d = Ok (r, d).
Proof.
  intros Hd Hin. pose proof (store.w_member_of _ (i_wf _ _ Hd)) as Hof. rewrite Forall_forall in Hof.
  destruct (Hof row Hin) as [Hr _]. apply list_elem_of_fmap in Hr as (r1 & Hid1 & Hr1).
  destruct (List.find (store.room_is (store.m_RoomID row)) (store.rooms d)) as [r0 |] eqn:Hf.
  2: { apply list_elem_of_In in Hr1. pose proof (find_none _ _ Hf r1 Hr1) as Hb. unfold store.room_is in Hb.
       by rewrite bool_decide_eq_true_2 in Hb. }
  destruct (store.find_spec _ _ _ Hf) as [Hr0 Hid]. unfold store.room_is in Hid. apply bool_decide_eq_true in Hid.
  pose proof (i_rooms _ _ Hd) as Hall. rewrite Forall_forall in Hall.
  destruct (Hall r0 Hr0) as [_ (s & Hs & _) (seed & _ & Hk) _ _].
  assert (exists r, store.openRoom kek r0 = Ok r) as [r Ho] by (eexists; apply openRoom_ok; eauto 10).
  exists r0, r. repeat split; try done. apply tx_ok. unfold store.RoomByID, mbind, store.tx_bind, store.one.
  by rewrite Hf, Ho.
Qed.

Lemma room_state_spec now nodeID d m peers : inv kek d -> (forall c, is_Some (pki.Marshal c)) ->
  store.m_row m ∈ store.members d ->
  exists rs peers', room_state kek now nodeID m peers d = Ok ((rs, peers'), d) /\ described d now (store.m_row m) rs
    /\ forall id, is_Some (peers' !! id) <-> is_Some (peers !! id) \/ known d nodeID id [m].
Proof.
  intros Hd HJ Hin. unfold room_state, described. change (store.is_active (store.m_row m)) with (active m).
  destruct (active m) eqn:Ha; cbn [negb].
  2: { eexists _, peers. split; [reflexivity |]. simpl. split; [done |]. intros id. split; [by left |].
       intros [? | (_ & x & o & ->%list_elem_of_singleton & Hx & _)]; [done | congruence]. }
  destruct (RoomByID_found d (store.m_row m) Hd Hin) as (r0 & r & Hr0 & Hid & Ho & Hby).
  set (ms := query_result (of_room (store.r_ID r0)) d).
  destruct (add_peers_spec now nodeID d ms) with (peers := peers) as (peers' & Hp & Hk).
  { intros x. by intros (_ & _ & ?)%query_in. }
  pose proof (i_rooms _ _ Hd) as Hall. rewrite Forall_forall in Hall.
  destruct (Hall r0 Hr0) as [_ _ (seed & Hl & Hkey) _ (rules & Hacl)].
  pose proof Ho as (s & k & _ & Hk' & Hr)%openRoom_ok. assert (k = pki.NewKeyFromSeed seed) as -> by congruence. clear Hk'.
  destruct (HJ (room_config now r rules ms)) as [payload Hm].
  destruct (pki.SignRoomConfig_spec seed payload _ Hl Hm) as (sg & Hsign & Hpay & Hver).
  exists (MkRoomState (store.m_RoomID (store.m_row m)) (store.Status (store.m_row m)) (Some sg) (store.UseExit (store.m_row m))), peers'.
  pose proof (room_config_ok d r0 r now rules Hd Hr0 Ho) as Hok. fold ms in Hok.
  split; [| split].
  - unfold mbind, store.tx_bind. rewrite Hby.
    replace (tx (store.ListMembers (store.m_RoomID (store.m_row m))) d) with (Ok (E := error) (ms, d)) by (unfold ms; by rewrite Hid).
    assert (acl.Parse (store.ACL r) = Ok rules) as Hacl' by (by rewrite Hr).
    assert (store.SignKey r = pki.NewKeyFromSeed seed) as Hkey' by (by rewrite Hr).
    rewrite Hacl'. cbn [map_err store.lift]. rewrite Hp, Hkey', Hsign. reflexivity.
  - cbn [rs_RoomID rs_Status rs_UseExit Config]. split; [done |]. split; [done |]. split; [done |].
    exists r0, r, seed, rules, (room_config now r rules ms), sg.
    split; [done |]. split; [done |]. split; [done |]. split; [done |]. split; [by rewrite Hr |]. split; [by rewrite Hr |].
    split; [done |]. split; [done |]. split; [by intros id; rewrite <- Hid; apply config_members, Hd |].
    split; [done |]. split; [by rewrite Hpay |].
    rewrite Hpay. intros Hu. by apply Hver.
  - intros id. rewrite Hk. unfold known. split.
    + intros [? | (Hne & x & (Hx & Hxr & _)%query_in & Hxa & Hxid)]; [by left | right]. split; [done |].
      exists m, (store.m_row x). apply bool_decide_eq_true in Hxr. split; [constructor |]. by rewrite Hxr, Hid.
    + intros [? | (Hne & x & o & ->%list_elem_of_singleton & _ & Ho' & Hoa & Hor & Hoid)]; [by left | right]. split; [done |].
      destruct (query_row (of_room (store.r_ID r0)) d o (i_wf _ _ Hd) Ho') as (y & Hy & Hyr).
      { apply bool_decide_eq_true. congruence. }
      exists y. split; [done |]. unfold active. rewrite Hyr. done.
Qed.

(** ** The map *)

Lemma known_cons d nodeID id m ms : known d nodeID id (m :: ms) <-> known d nodeID id [m] \/ known d nodeID id ms.
Proof.
  unfold known. split.
  - intros (Hne & x & o & [-> | Hx]%elem_of_cons & H); [left | right]; (split; [done |]).
    + exists m, o. split; [by left | done].
    + exists x, o. split; [done | done].
  - intros [(Hne & x & o & ->%list_elem_of_singleton & H) | (Hne & x & o & Hx & H)]; (split; [done |]).
    + exists m, o. split; [by left | done].
    + exists x, o. split; [by right | done].
Qed.

Lemma room_states_spec now nodeID d ms : inv kek d -> (forall c, is_Some (pki.Marshal c)) ->
  (forall m, m ∈ ms -> store.m_row m ∈ store.members d) -> forall peers,
  exists rss peers', room_states kek now nodeID ms peers d = Ok ((rss, peers'), d)
    /\ Forall2 (described d now) (map store.m_row ms) rss
    /\ forall id, is_Some (peers' !! id) <-> is_Some (peers !! id) \/ known d nodeID id ms.
Proof.
  intros Hd HJ. induction ms as [| m ms IH]; intros Hin peers.
  - exists [], peers. split; [done |]. split; [constructor |]. intros id. split; [by left |].
    intros [? | (_ & m & o & Hm & _)]; [done | by apply elem_of_nil in Hm].
  - destruct (room_state_spec now nodeID d m peers Hd HJ (Hin m ltac:(constructor))) as (rs & peers1 & H1 & Hdesc & Hk1).
    destruct (IH ltac:(intros; apply Hin; by constructor) peers1) as (rss & peers2 & H2 & Hall & Hk2).
    exists (rs :: rss), peers2. split; [| split; [by constructor |]].
    + cbn [room_states]. unfold mbind, store.tx_bind. rewrite H1. cbn [snd fst]. by rewrite H2.
    + intros id. rewrite Hk2, Hk1, (known_cons d nodeID id m ms). tauto.
Qed.

Lemma CanSend_spec s a b : CanSend s a b = true <-> exists x y, x ∈ store.members (st s) /\ y ∈ store.members (st s)
  /\ store.m_NodeID x = a /\ store.m_NodeID y = b /\ store.is_active x = true /\ store.is_active y = true
  /\ store.m_RoomID x = store.m_RoomID y.
Proof.
  unfold CanSend, Read, tx, store.map_tx, store.ShareActiveRoom, store.query. cbn [map_err fmap res_fmap fst].
  rewrite existsb_exists. setoid_rewrite andb_true_iff. setoid_rewrite existsb_exists. setoid_rewrite andb_true_iff.
  setoid_rewrite andb_true_iff. setoid_rewrite bool_decide_eq_true. setoid_rewrite <- list_elem_of_In. split.
  - intros (x & Hx & [? ?] & y & Hy & [? ?] & ?). by exists x, y.
  - intros (x & y & ? & ? & ? & ? & ? & ? & ?). exists x. split; [done |]. split; [done |]. by exists y.
Qed.

(** C3: in every reachable state the network map of a node exists; it has one
    entry for each of its memberships. For an active one it is the document of
    the room signed with the room's key, whose members are exactly the room's
    active ones and whose configuration is consistent, so that a node that
    pinned the room's key accepts it; for a pending or banned one there is no
    configuration. The node learns the addresses of exactly the nodes it may
    send to. *)
Theorem netMap_spec `{AL : !AeadLaws A} s now nodeID remote : reachable kek s -> (forall c, is_Some (pki.Marshal c)) ->
  exists nm rows, netMap kek s now nodeID remote = Ok nm /\ Version nm = store.version (st s)
    /\ rows ≡ₚ List.filter (fun m => bool_decide (store.m_NodeID m = nodeID)) (store.members (st s))
    /\ Forall2 (described (st s) now) rows (nm_Rooms nm)
    /\ forall id, is_Some (Peers nm !! id) <-> id <> nodeID /\ CanSend s nodeID id = true.
Proof.
  intros Hr0 HJ. pose proof (reachable_inv kek s Hr0) as Hs. set (mine := query_result (fun m => bool_decide (store.m_NodeID m = nodeID)) (st s)).
  destruct (room_states_spec now nodeID (st s) mine Hs HJ) with (peers := ∅ : gmap bytes Peer) as (rss & peers & Hr & Hall & Hk).
  { by intros m [? _]%query_in. }
  exists (MkNetMap (store.version (st s)) remote rss peers), (map store.m_row mine).
  split; [| split; [done |]; split; [apply query_rows, Hs |]; split; [done |]].
  - unfold netMap, Read, mbind, store.tx_bind, tx at 1 2, store.map_tx, map_err, store.Version, store.Memberships,
      store.queryMembers, store.query. fold (query_result (fun m => bool_decide (store.m_NodeID m = nodeID)) (st s)).
    fold mine. by rewrite Hr.
  - intros id. rewrite CanSend_spec. simpl. rewrite Hk, lookup_empty. unfold known. split.
    + intros [[? [=]] | (Hne & m & o & (Hm & Hn & _)%query_in & Ha & Ho & Hoa & Hor & Hid)]. split; [done |].
      apply bool_decide_eq_true in Hn. exists (store.m_row m), o. done.
    + intros (Hne & x & y & Hx & Hy & Hxn & Hyn & Hxa & Hya & Hr'). right. split; [done |].
      destruct (query_row (fun m => bool_decide (store.m_NodeID m = nodeID)) (st s) x (i_wf _ _ Hs) Hx) as (m & Hm & Hrow).
      { by apply bool_decide_eq_true. }
      exists m, y. split; [done |]. unfold active. rewrite Hrow. done.
Qed.

End NetMap.
End netmap.
