(* ===== verification/ControllerOps.v ===== *)
(** Who may do what with the controller's service (service.go), what a join
    needs, and that a long poll never misses a change (hub.go). *)
From stdpp Require Import base list gmap strings.
From Stdlib Require Import ZArith Lia.
From S2P Require Import Prelude GoStrings GoText Netip Acl AclText Crypto Obfs Identity Pki Store Controller ControllerNet ControllerInv ControllerMap.

Open Scope Z_scope.

Module ops.
Import controller service.

Section Ops.
Context `{CR : Crypto} `{A : Aead} `{J : pki.Json} (kek : option bytes) (EqualFold : bytes -> bytes -> bool).

(** ** Authorization *)

(** The user may manage the room: the room exists, its secrets open, and the
    user is an admin or its owner. *)
Definition manages (s : Service) (u : store.User) (id : bytes) : Prop :=
  exists r, store.RoomByID kek id (st s) = Ok (r, st s) /\ canManage u r = true.

(** An operation that returned an error and changed nothing. *)
Definition refused {X} (s : Service) (r : res error X * Service) : Prop := (exists e, fst r = Err e) /\ snd r = s.

Lemma open_no_panic v : store.open_ kek v <> Panic.
Proof.
  unfold store.open_. destruct (negb _); [done |]. destruct kek as [k |]; [| done]. destruct (_ <? _); [done |].
  by destruct (aead_open _ _ _).
Qed.

Lemma openRoom_no_panic r : store.openRoom kek r <> Panic.
Proof.
  unfold store.openRoom. destruct (store.open_ kek (store.Secret r)) eqn:H1; [| done | by apply open_no_panic in H1].
  destruct (store.open_ kek (store.SignKey r)) eqn:H2; [done | done | by apply open_no_panic in H2].
Qed.

Lemma roomFor_refused s u id : ~ manages s u id -> exists e, roomFor kek u id (st s) = Err e.
Proof.
  intros Hn. destruct (roomFor kek u id (st s)) as [[r d] | e |] eqn:H; [exfalso | eauto | exfalso].
  - apply store.tx_bind_ok in H as (r' & d' & H1%tx_ok & H2). pose proof H1 as [-> _]%RoomByID_ok.
    destruct (canManage u r') eqn:Hc; [| done]. apply Hn. by exists r'.
  - unfold roomFor, mbind, store.tx_bind, tx, store.map_tx, map_err in H. unfold store.RoomByID, mbind, store.tx_bind, store.one in H.
    destruct (List.find _ _) as [r |]; [| done]. unfold store.lift in H.
    destruct (store.openRoom kek r) as [r1 | |] eqn:Ho; [| done | by apply openRoom_no_panic in Ho].
    by destruct (canManage u r1).
Qed.

Lemma change_refused {X Y} s (m : Tx X) (f : X -> Tx Y) e : m (st s) = Err e -> refused s (change s (m ≫= f)).
Proof. intros H. unfold refused, change, mbind, store.tx_bind. rewrite H. split; [by exists e | done]. Qed.

Lemma management_change {Y} s u id (f : store.Room -> Tx Y) : ~ manages s u id -> refused s (change s (roomFor kek u id ≫= f)).
Proof. intros [e H]%roomFor_refused. by eapply change_refused. Qed.

Lemma refused_err {X} s e : refused s (Err (A := X) e, s).
Proof. split; [by exists e | done]. Qed.

Lemma parse_dns_no_panic fs : forall acc, parse_dns fs acc <> Panic.
Proof.
  induction fs as [| f fs IH]; intros acc; simpl; [done |]. destruct (ParseAddr f); [| done]. by destruct (negb _).
Qed.

Lemma parse_tags_no_panic fs : parse_tags fs <> Panic.
Proof.
  induction fs as [| f fs IH]; simpl; [done |]. destruct (32 <? _); [done |]. by destruct (parse_tags fs).
Qed.

(** every operation on a room by a user who neither owns it nor is an admin
    (or on a room that does not exist) fails and changes nothing: settings,
    rules, deletion, invites, members, and looking at the room. *)
Theorem management_refused s now u id : ~ manages s u id ->
  (forall n p b, refused s (UpdateRoom kek s now u id n p b))
  /\ (forall l, refused s (SetRoomDNS kek s now u id l))
  /\ (forall b, refused s (SetRoomDHT kek s now u id b))
  /\ (forall t, refused s (SetRoomACL kek s now u id t))
  /\ refused s (DeleteRoom kek s now u id)
  /\ (forall url n ttl b note raw, refused s (CreateInvite kek s now u url id n ttl b note raw))
  /\ (forall i, refused s (RevokeInvite kek s now u id i))
  /\ (forall nid x, refused s (SetMemberExit kek s now u id nid x))
  /\ (forall nid act, refused s (MemberAction kek s now u id nid act))
  /\ (forall nid n ip tags, refused s (UpdateMember kek s now u id nid n ip tags))
  /\ (exists e, Room kek s now u id = Err e)
  /\ (forall a b p port, exists e, TestACL kek EqualFold s now u id a b p port = Err e).
Proof.
  intros Hn. assert (exists e, Room kek s now u id = Err e) as [e He].
  { destruct (roomFor_refused s u id Hn) as [e He]. exists e. unfold Room, Read, mbind, store.tx_bind. by rewrite He. }
  split; [| split; [| split; [| split; [| split; [| split; [| split; [| split; [| split; [| split; [| split]]]]]]]]]].
  - intros n p b. unfold UpdateRoom. destruct (ValidateRoomName n); [| apply refused_err]. destruct (negb _); [apply refused_err |].
    destruct (_ && _); [apply refused_err |]. by apply management_change.
  - intros l. unfold SetRoomDNS. destruct (parse_dns _ _) eqn:Hp; [| apply refused_err | by apply parse_dns_no_panic in Hp].
    destruct (_ <? _); [apply refused_err |]. by apply management_change.
  - intros b. by apply management_change.
  - intros t. unfold SetRoomACL. destruct (acl.Parse t) eqn:Hp; [| apply refused_err | by apply rules_no_panic in Hp]. by apply management_change.
  - by apply management_change.
  - intros url n ttl b note raw. unfold CreateInvite. destruct (_ || _); [apply refused_err |].
    destruct (_ <? _); [apply refused_err |]. by apply management_change.
  - intros i. by apply management_change.
  - intros nid x. by apply management_change.
  - intros nid act. by apply management_change.
  - intros nid n ip tags. unfold UpdateMember. destruct (_ || _); [apply refused_err |].
    destruct (parse_tags _) eqn:Hp; [| apply refused_err | by apply parse_tags_no_panic in Hp]. by apply management_change.
  - by exists e.
  - intros a b p port. exists e. unfold TestACL. by rewrite He.
Qed.

(** ** Joining *)

Lemma attempt_member rid nid d r d' : store.attempt (store.Member_ rid nid) d = Ok (E := error) (r, d') ->
  d' = d /\ match r with
            | Ok m => store.m_row m ∈ store.members d /\ store.m_RoomID (store.m_row m) = rid /\ store.m_NodeID (store.m_row m) = nid
            | Err e => e = store.ErrNotFound /\ omap (store.scanMember d) (List.filter (store.member_is rid nid) (store.members d)) = []
            | Panic => False
            end.
Proof.
  unfold store.attempt. destruct (store.Member_ rid nid d) as [[m d1] | e |] eqn:Hm.
  - intros [= <- <-]. apply Member_ok in Hm as (-> & ? & ? & ? & _). done.
  - intros [= <- <-]. split; [done |]. unfold store.Member_ in Hm. destruct (omap _ _); [by injection Hm as <- | done].
  - done.
Qed.

(** No scanned row: no row at all. *)
Lemma no_member rid nid d row : store.wf d ->
  omap (store.scanMember d) (List.filter (store.member_is rid nid) (store.members d)) = [] ->
  row ∈ store.members d -> store.m_RoomID row = rid -> store.m_NodeID row = nid -> False.
Proof.
  intros Hd Ho Hin Hr Hn. destruct (netmap.scan_some d row Hd Hin) as (m & Hm).
  assert (m ∈ omap (store.scanMember d) (List.filter (store.member_is rid nid) (store.members d))) as H.
  { apply list_elem_of_omap. exists row. split; [| done]. apply store.elem_of_Filter. split; [done |].
    apply store.member_is_key. by rewrite Hr, Hn. }
  rewrite Ho in H. by apply elem_of_nil in H.
Qed.

(** What an accepted new member's row holds. *)
Record joined (s : Service) (r0 : store.Room) (i : store.Invite) (nid : bytes) (req : JoinRequest) (status : bytes)
    (row : store.member_row) : Prop := {
  jo_room : store.m_RoomID row = store.r_ID r0;
  jo_node : store.m_NodeID row = nid;
  jo_key : store.WGKey row = j_WGKey req;
  jo_status : store.Status row = status;
  jo_active : status = if store.AutoApprove i || bool_decide (store.JoinPolicy r0 = str "auto")
                       then store.StatusActive else store.StatusPending;
  jo_ip : usableHost (E := unit) (store.Subnet r0) (store.IP row) = Ok true;
  jo_plain : store.Routes row = [] /\ store.Exit row = false /\ store.Tags row = [];
  jo_quota : 0 < maxMembers s -> zlen (List.filter (netmap.of_room (store.r_ID r0)) (store.members (st s))) < maxMembers s }.

(** The invite's uses after one more. *)
Definition use_one (i : store.Invite) (l : list store.Invite) : list store.Invite :=
  if 0 <? store.UsesLeft i
  then store.upd (fun x => store.i_ID x =? store.i_ID i) (fun x => store.set_uses (store.UsesLeft x - 1) x) l
  else l.

Lemma admitNode_spec s now r nid req d status d' : inv kek d ->
  admitNode s now r nid req d = Ok (status, d') ->
  exists i row, i ∈ store.invites d /\ store.i_RoomID i = store.r_ID r /\ store.TokenHash i = hashToken (j_Token req)
    /\ store.usable (Unix now) i = true /\ store.members d' = store.members d ++ [row]
    /\ store.invites d' = use_one i (store.invites d)
    /\ joined (MkService d (hub_ s) (maxRooms s) (maxMembers s) (paths s)) r i nid req status row.
Proof.
  intros Hd (i & d1 & Hi%forbid_ok & (ms & d2 & [= <- <-]%tx_ok & H)%store.tx_bind_ok)%store.tx_bind_ok.
  pose proof (UseInvite_service _ _ _ _ _ _ _ Hd Hi) as Hd1. apply UseInvite_set in Hi as (Hin & Hri & Htok & Hu & ->).
  fold (use_one i (store.invites d)) in *. set (d1 := store.set_invites _ d) in *.
  change (store.order_by _ _) with (netmap.query_result (netmap.of_room (store.r_ID r)) d1) in H.
  set (ms := netmap.query_result _ d1) in *. destruct (_ && _) eqn:Hq; [done |].
  apply store.tx_bind_ok in H as (ip & d3 & [Hip ->]%lift_ok & H). apply next_free_usable in Hip as [Hip _].
  apply store.tx_bind_ok in H as (x & d4 & Ha%tx_ok & H). unfold store.AddMember, store.exec_if in Ha.
  destruct (_ && _) in Ha; [| done]. injection Ha as _ <-.
  apply store.tx_bind_ok in H as (y & d5 & Hb%tx_ok & H). injection Hb as _ <-.
  apply store.tx_bind_ok in H as (z & d6 & Hc%tx_ok & [= <- <-]). injection Hc as _ <-.
  eexists i, _. repeat (split; [first [done | reflexivity] |]). split; simpl; try done.
  intros Hmax. rewrite (proj2 (Z.ltb_lt 0 (maxMembers s)) Hmax) in Hq. apply Z.leb_gt in Hq.
  replace (zlen ms) with (zlen (map store.m_row ms)) in Hq by (unfold zlen; by rewrite length_map).
  unfold zlen, ms in *. rewrite (Permutation_length (netmap.query_rows _ _ (i_wf _ _ Hd1))) in Hq. exact Hq.
Qed.

Lemma Join_ok s now key req remote : inv kek (st s) ->
  let nid := identity.NodeIDFromPublic key in
  forall resp s', Join kek s now key req remote = (Ok resp, s') ->
    (exists row, row ∈ store.members (st s) /\ store.m_RoomID row = j_RoomID req /\ store.m_NodeID row = nid
       /\ store.Status row <> store.StatusBanned /\ Status resp = store.Status row
       /\ store.members (st s') = store.members (st s) /\ store.invites (st s') = store.invites (st s))
    \/ (exists r0 i row, r0 ∈ store.rooms (st s) /\ store.r_ID r0 = j_RoomID req
       /\ (forall m, m ∈ store.members (st s) -> store.m_RoomID m = j_RoomID req -> store.m_NodeID m <> nid)
       /\ i ∈ store.invites (st s) /\ store.i_RoomID i = j_RoomID req /\ store.TokenHash i = sha256 (j_Token req)
       /\ store.usable (Unix now) i = true
       /\ store.members (st s') = store.members (st s) ++ [row] /\ store.invites (st s') = use_one i (store.invites (st s))
       /\ joined s r0 i nid req (Status resp) row).
Proof.
  intros Hs nid resp s'. unfold Join. destruct (_ || _); [done |]. intros (d & H & ->)%change_ok. cbn [st store.members store.invites store.set_version].
  apply store.tx_bind_ok in H as (r & d1 & [-> (r0 & Hr0 & Hid & Ho)]%forbid_ok%RoomByID_ok & H).
  apply store.tx_bind_ok in H as (x & d2 & Hup%tx_ok & H). apply store.tx_bind_ok in H as (y & d3 & Hue%tx_ok & H).
  pose proof (UpsertNode_set _ _ _ _ _ Hup) as [l Hra]. pose proof (UpdateNodeEndpoints_set _ _ _ _ _ _ Hue) as [l' Hrb].
  apply (UpsertNode_inv kek) in Hup; [| done]. apply (UpdateNodeEndpoints_inv kek) in Hue; [| apply reach_routes | done].
  apply store.tx_bind_ok in H as (m & d4 & [-> Hm]%attempt_member & H).
  apply openRoom_ok in Ho as (sec & k & _ & _ & Hr). fold nid in H, Hm.
  assert (store.members d3 = store.members (st s) /\ store.invites d3 = store.invites (st s) /\ store.rooms d3 = store.rooms (st s))
    as (Hmem & Hinv & Hroom) by (by rewrite Hrb, Hra). rewrite Hmem in Hm.
  destruct m as [m | e |]; [| destruct Hm as [-> Hm] | done].
  - left. case_bool_decide as Hb; [done |]. injection H as <- <-. exists (store.m_row m).
    destruct Hm as (Hin & Hmr & Hmn). rewrite Hmr, Hmem, Hinv, Hr. done.
  - right. apply store.tx_bind_ok in H as (status & d5 & Had & [= <- <-]).
    destruct (admitNode_spec s now r nid req d3 status d5 Hue Had) as (i & row & Hi & Hri & Htok & Hu & Hm5 & Hi5 & Hjo).
    exists r0, i, row. rewrite Hmem in Hm5. rewrite Hinv in Hi, Hi5. rewrite Hr in Hri. simpl in Hri.
    split; [done |]. split; [done |]. split; [| split; [done |]; split; [by rewrite Hri |]; repeat (split; [done |])].
    + intros q Hq Hqr Hqn. rewrite <- Hmem in Hm, Hq. eapply (no_member _ _ d3 q); [apply Hue | | exact Hq | reflexivity | reflexivity].
      rewrite Hqr, Hqn. rewrite Hr in Hm. simpl in Hm. by rewrite Hid in Hm.
    + destruct Hjo as [J1 J2 J3 J4 J5 J6 J7 J8]. rewrite Hr in *. simpl in *. rewrite Hmem in J8. by split.
Qed.

(** C4: a node joins only with an unexpired invite of the room for its token,
    which loses one use, or because it already is a member that is not banned,
    which costs no invite and changes no member. A new member gets a free
    address of the room, no routes, exit or tags, and is active only if the
    invite or the room lets it in without approval, and only below the quota.
    A banned node is refused and nothing changes. *)
Theorem Join_spec `{AL : !AeadLaws A} s now key req remote : reachable kek s ->
  let nid := identity.NodeIDFromPublic key in
  (forall row, row ∈ store.members (st s) -> store.m_RoomID row = j_RoomID req -> store.m_NodeID row = nid ->
    store.Status row = store.StatusBanned -> forall resp s', Join kek s now key req remote <> (Ok resp, s'))
  /\ forall resp s', Join kek s now key req remote = (Ok resp, s') ->
    (exists row, row ∈ store.members (st s) /\ store.m_RoomID row = j_RoomID req /\ store.m_NodeID row = nid
       /\ store.Status row <> store.StatusBanned /\ Status resp = store.Status row
       /\ store.members (st s') = store.members (st s) /\ store.invites (st s') = store.invites (st s))
    \/ (exists r0 i row, r0 ∈ store.rooms (st s) /\ store.r_ID r0 = j_RoomID req
       /\ (forall m, m ∈ store.members (st s) -> store.m_RoomID m = j_RoomID req -> store.m_NodeID m <> nid)
       /\ i ∈ store.invites (st s) /\ store.i_RoomID i = j_RoomID req /\ store.TokenHash i = sha256 (j_Token req)
       /\ store.usable (Unix now) i = true
       /\ store.members (st s') = store.members (st s) ++ [row] /\ store.invites (st s') = use_one i (store.invites (st s))
       /\ joined s r0 i nid req (Status resp) row).
Proof.
  intros Hreach nid. pose proof (reachable_inv kek s Hreach) as Hs. pose proof (Join_ok s now key req remote Hs) as Hok.
  split; [| exact Hok]. intros row Hin Hr Hn Hb resp s' H.
  destruct (Hok resp s' H) as [(m & Hm & Hmr & Hmn & Hmb & _) | (r0 & i & m & _ & _ & Hno & _)]; [| by eapply Hno].
  apply Hmb. rewrite <- Hb. f_equal. apply (store.key_inj (fun m => (store.m_RoomID m, store.m_NodeID m)) (store.members (st s)));
    [apply Hs | done | done | cbv beta; by rewrite Hmr, Hmn, Hr, Hn].
Qed.

End Ops.
End ops.
