(* ===== verification/ControllerHub.v ===== *)
(** The version counter and the hub that wakes polling nodes (hub.go, change,
    Poll and WatchExternalChanges of service.go): no node waits past a change
    it has not seen. *)
From stdpp Require Import base list gmap strings.
From Stdlib Require Import ZArith Lia.
From S2P Require Import Prelude GoStrings Netip Acl Crypto Obfs Identity Pki Store Controller ControllerInv.

Open Scope Z_scope.

Module hubs.
Import controller service.

Section Hub.
Context `{CR : Crypto} `{A : Aead} `{J : pki.Json} (kek : option bytes).

(** ** Properties closed under the store's statements

    What every statement of the store keeps, every operation of the service
    keeps. *)
Section Closed.
Context (P : store.db -> Prop) (HP : forall kek d d', store.step kek d d' -> P d -> P d').

#[local] Ltac by_step c := let d := fresh in let a := fresh in let d' := fresh in let Hd := fresh in let H := fresh in
  intros d a d' Hd H; try destruct a; eapply (HP kek d d'); [eapply c; exact H | exact Hd].

Lemma closed_bump : store.keeps P store.BumpVersion.
Proof. intros d a d' Hd H. eapply (HP kek d d'); [eapply store.step_bump; exact H | exact Hd]. Qed.
Lemma closed_audit now a b c e : store.keeps P (audit now a b c e).
Proof. apply keeps_tx. by_step (store.step_audit (A := A)). Qed.
Lemma closed_bump_room id : store.keeps P (controller.BumpRoom id).
Proof. apply keeps_tx. by_step (store.step_bump_room (A := A)). Qed.
Lemma closed_update id n p b : store.keeps P (store.UpdateRoom id n p b).
Proof. by_step (store.step_update_room (A := A)). Qed.
Lemma closed_dht id b : store.keeps P (store.SetRoomDHT id b).
Proof. by_step (store.step_dht (A := A)). Qed.
Lemma closed_acl id t : store.keeps P (store.SetRoomACL id t).
Proof. by_step (store.step_acl (A := A)). Qed.
Lemma closed_dns id l : store.keeps P (store.SetRoomDNS id l).
Proof. by_step (store.step_dns (A := A)). Qed.
Lemma closed_delete id : store.keeps P (store.DeleteRoom id).
Proof. by_step (store.step_delete_room (A := A)). Qed.
Lemma closed_create now r n n' : store.keeps P (store.CreateRoom kek now r n n').
Proof. by_step (store.step_create_room (A := A)). Qed.
Lemma closed_add now m : store.keeps P (store.AddMember now m).
Proof. by_step (store.step_add_member (A := A)). Qed.
Lemma closed_member m : store.keeps P (store.UpdateMember m).
Proof. by_step (store.step_update_member (A := A)). Qed.
Lemma closed_drop r n : store.keeps P (store.DeleteMember r n).
Proof. by_step (store.step_delete_member (A := A)). Qed.
Lemma closed_node now n : store.keeps P (store.UpsertNode now n).
Proof. by_step (store.step_node (A := A)). Qed.
Lemma closed_endpoints now id r : store.keeps P (store.UpdateNodeEndpoints now id r).
Proof. intros d a d' Hd H. eapply (HP kek d d'); [eapply store.step_endpoints; exact H | exact Hd]. Qed.
Lemma closed_setting k v n : store.keeps P (store.SetSetting kek k v n).
Proof. by_step (store.step_setting (A := A)). Qed.
Lemma closed_invite now i : store.keeps P (store.CreateInvite now i).
Proof. intros d a d' Hd H. eapply (HP kek d d'); [eapply store.step_create_invite; exact H | exact Hd]. Qed.
Lemma closed_use now r t : store.keeps P (store.UseInvite now r t).
Proof. intros d a d' Hd H. eapply (HP kek d d'); [eapply store.step_use_invite; exact H | exact Hd]. Qed.
Lemma closed_revoke r i : store.keeps P (store.RevokeInvite r i).
Proof. by_step (store.step_revoke (A := A)). Qed.

Lemma reads_member rid nid : store.keeps P (store.Member_ rid nid).
Proof. intros d a d' Hd [-> _]%Member_ok. done. Qed.
Lemma reads_room id : store.keeps P (store.RoomByID kek id).
Proof. intros d a d' Hd [-> _]%RoomByID_ok. done. Qed.
Lemma reads_members rid : store.keeps P (store.ListMembers rid).
Proof. apply store.keeps_query. Qed.
Lemma reads_subnets : store.keeps P store.AllSubnets.
Proof. apply store.keeps_query. Qed.
Lemma keeps_invalid {X} m : store.keeps P (invalid m : Tx X).
Proof. apply store.keeps_fail. Qed.
Lemma reads_setting k : store.keeps P (store.Setting kek k).
Proof. apply store.keeps_bind; [apply store.keeps_one | intros; apply store.keeps_lift]. Qed.
Lemma reads_node id : store.keeps P (store.NodeByID id).
Proof. apply store.keeps_one. Qed.
Lemma keeps_forbid {X} (m : store.Tx store.error X) : store.keeps P m -> store.keeps P (forbid m).
Proof. apply store.keeps_map_tx. Qed.
Lemma keeps_choice rid nid x : store.keeps P (exit_choice rid nid x).
Proof. intros d a d' Hd ->%exit_choice_reads. done. Qed.
Lemma keeps_place rid r m ip : store.keeps P (place rid r m ip).
Proof. intros d a d' Hd [-> _]%place_ok. done. Qed.

#[local] Hint Resolve closed_audit closed_bump_room closed_update closed_dht closed_acl closed_dns closed_delete closed_create
  closed_add closed_member closed_drop closed_node closed_endpoints closed_setting closed_invite closed_use closed_revoke
  reads_member reads_members reads_subnets reads_room reads_setting reads_node keeps_forbid keeps_invalid keeps_choice keeps_place keeps_tx roomFor_keeps room_quota_keeps
  store.keeps_ret store.keeps_lift store.keeps_fail store.keeps_one store.keeps_attempt store.keeps_query store.keeps_map_tx : closed.
#[local] Ltac closed := repeat first
  [ solve [eauto 3 with closed] | apply store.keeps_bind; [| intros ?]
  | match goal with |- store.keeps _ (if ?b then _ else _) => destruct b | |- store.keeps _ (match ?x with _ => _ end) => destruct x end ].

Lemma change_closed {X} s (fn : Tx X) : store.keeps P fn -> P (st s) -> P (st (snd (change s fn))).
Proof.
  intros Hf Hs. destruct (change_failed s fn) as [(a & s' & H) | ->]; [| done]. rewrite H.
  apply change_ok in H as (d & H & ->). simpl. by eapply closed_bump; [| exact (eq_refl _)]; eapply Hf.
Qed.

Lemma Tx_closed {X} s (fn : Tx X) : store.keeps P fn -> P (st s) -> P (st (snd (Tx_ s fn))).
Proof. intros Hf Hs. unfold Tx_. destruct (fn (st s)) as [[a d] | |] eqn:H; [| done | done]. by eapply Hf. Qed.

Lemma admit_closed s now r nid req : store.keeps P (admitNode s now r nid req).
Proof. unfold admitNode. closed. Qed.

Lemma action_closed rid nid m act : store.keeps P (do_action kek rid nid m act).
Proof. unfold do_action. closed. Qed.

Lemma load_closed name len rnd n : store.keeps P (load_setting kek name len rnd n).
Proof. unfold load_setting. closed. Qed.
#[local] Hint Resolve admit_closed action_closed load_closed : closed.

Lemma step_closed s s' : step kek s s' -> P (st s) -> P (st s').
Proof.
  intros Hs Hd. destruct Hs.
  - unfold CreateRoom. repeat case_match; try done. apply change_closed; [closed | done].
  - unfold UpdateRoom. repeat case_match; try done. apply change_closed; [closed | done].
  - unfold SetRoomDNS. repeat case_match; try done. apply change_closed; [closed | done].
  - apply change_closed; [closed | done].
  - unfold SetRoomACL. repeat case_match; try done. apply change_closed; [closed | done].
  - apply change_closed; [closed | done].
  - unfold CreateInvite. repeat case_match; try done; apply change_closed; try done; closed.
  - apply change_closed; [closed | done].
  - apply change_closed; [closed | done].
  - apply change_closed; [closed | done].
  - unfold UpdateMember. repeat case_match; try done. apply change_closed; [closed | done].
  - unfold Join. case_match; [done |]. apply change_closed; [closed | done].
  - apply change_closed; [closed | done].
  - unfold Poll. destruct (Tx_ _ _) as [r s1] eqn:Ht. destruct r as [[bk ch] | |].
    2-3: by apply Tx_failed in Ht as ->.
    apply Tx_ok in Ht as (d & H & ->). assert (P d) as Hd'.
    { revert Hd H. generalize (st s) (bk, ch) d. closed. }
    destruct ch; [| done]. set (s2 := MkService _ _ _ _ _).
    pose proof (change_closed s2 (mret tt) (store.keeps_ret P tt) Hd') as Hc. by destruct (change s2 (mret tt)).
  - unfold Backup. repeat case_match; try done. apply Tx_closed; [closed | done].
  - apply Tx_closed; [closed | done].
  - apply Tx_closed; [closed | done].
  - done.
  - done.
  - by eapply HP.
Qed.

End Closed.

(** ** The version never falls *)

(** A statement that leaves the version counter alone. *)
Definition quiet {E X} (m : store.Tx E X) : Prop := forall d a d', m d = Ok (a, d') -> store.version d' = store.version d.

Lemma quiet_bind {E X Y} (m : store.Tx E X) (f : X -> store.Tx E Y) : quiet m -> (forall a, quiet (f a)) -> quiet (m ≫= f).
Proof. intros Hm Hf d b d'' (a & d' & H1 & H2)%store.tx_bind_ok. rewrite (Hf _ _ _ _ H2). by eapply Hm. Qed.

Lemma quiet_reads {E X} (m : store.Tx E X) : store.reads m -> quiet m.
Proof. intros Hm d a d' H. by rewrite (Hm _ _ _ H). Qed.

Lemma quiet_exec {E} f : (forall d, store.version (f d) = store.version d) -> quiet (store.exec f : store.Tx E unit).
Proof. intros Hf d a d' [= _ <-]. apply Hf. Qed.

Lemma quiet_exec_if c f : (forall d, store.version (f d) = store.version d) -> quiet (store.exec_if c f).
Proof. intros Hf d a d'. unfold store.exec_if. destruct (c d); [| done]. intros [= _ <-]. apply Hf. Qed.

Lemma quiet_query {E X} (f : store.db -> X) : quiet (store.query f : store.Tx E X).
Proof. by intros d a d' [= _ <-]. Qed.

Lemma quiet_ret {E X} (a : X) : quiet (mret a : store.Tx E X).
Proof. by intros d b d' [= _ <-]. Qed.

Lemma store_version_mono k d d' : store.step k d d' -> store.version d <= store.version d'.
Proof.
  intros Hs. destruct Hs as [v H | now l p a id H | id e H | id p H | id s n H | id s b H | id H | t u c e H
    | now t H | now n H | now id r b H | key v n H | now r n n' H | id n p b H | id b H | id t H | id l H | id H | id H
    | now m H | m H | r n H | now i id H | now r t i H | r id H | now a b c e H | nonces H];
    [injection H as _ <-; simpl; lia | apply Z.eq_le_incl; symmetry; revert H ..].
  - eapply quiet_bind; [by apply quiet_exec_if |]. intros ?. eapply quiet_bind; [apply quiet_query |]. intros ?.
    eapply quiet_bind; [by apply quiet_exec |]. intros ?. apply quiet_ret.
  - by apply quiet_exec_if.
  - by apply quiet_exec.
  - by apply quiet_exec.
  - by intros [= _ <-].
  - by apply quiet_exec_if.
  - by apply quiet_exec_if.
  - by apply quiet_exec.
  - intros [l ->]%UpsertNode_set. done.
  - intros [l ->]%UpdateNodeEndpoints_set. done.
  - by apply quiet_exec.
  - by apply quiet_exec_if.
  - by apply quiet_exec.
  - by apply quiet_exec.
  - by apply quiet_exec.
  - by apply quiet_exec.
  - by apply quiet_exec.
  - by apply quiet_exec.
  - by apply quiet_exec_if.
  - by apply quiet_exec_if.
  - by apply quiet_exec.
  - eapply quiet_bind; [by apply quiet_exec_if |]. intros ?. eapply quiet_bind; [apply quiet_query |]. intros ?.
    eapply quiet_bind; [by apply quiet_exec |]. intros ?. apply quiet_ret.
  - intros (_ & _ & _ & _ & ->)%UseInvite_set. done.
  - by apply quiet_exec.
  - by apply quiet_exec.
  - unfold store.OpenOptions. destruct k.
    + intros (rs & _ & (kvs & _ & [= <-])%bind_ok)%bind_ok. done.
    + intros (b & d1 & [= <- <-] & H)%store.tx_bind_ok. destruct (existsb _ _); [done |]. by injection H as <-.
Qed.

Lemma version_mono s s' : step kek s s' -> store.version (st s) <= store.version (st s').
Proof.
  intros Hs. apply (step_closed (fun d => store.version (st s) <= store.version d)) in Hs; [done | | lia].
  intros k d d' Hd%store_version_mono Hv. lia.
Qed.

(** ** The hub follows the version *)

(** The hub after a step: the same, or told of the version. *)
Definition follows (s s' : Service) : Prop :=
  hub_ s' = hub_ s \/ hub_ s' = hub_set (hub_ s) (store.version (st s')).

Lemma change_follows {X} s (fn : Tx X) : follows s (snd (change s fn)).
Proof.
  destruct (change_failed s fn) as [(a & s' & H) | ->]; [| by left]. rewrite H.
  apply change_ok in H as (d & _ & ->). by right.
Qed.

Lemma Tx_follows {X} s (fn : Tx X) : follows s (snd (Tx_ s fn)).
Proof. unfold Tx_. destruct (fn (st s)) as [[a d] | |]; by left. Qed.

Lemma step_follows s s' : step kek s s' -> follows s s'.
Proof.
  intros Hs. destruct Hs; try apply change_follows; try apply Tx_follows; try by left.
  - unfold CreateRoom. repeat case_match; try by left. apply change_follows.
  - unfold UpdateRoom. repeat case_match; try by left. apply change_follows.
  - unfold SetRoomDNS. repeat case_match; try by left. apply change_follows.
  - unfold SetRoomACL. repeat case_match; try by left. apply change_follows.
  - unfold CreateInvite. repeat case_match; try (by left); apply change_follows.
  - unfold UpdateMember. repeat case_match; try by left. apply change_follows.
  - unfold Join. case_match; [by left |]. apply change_follows.
  - unfold Poll. destruct (Tx_ _ _) as [r s1] eqn:Ht. destruct r as [[bk ch] | |].
    2-3: apply Tx_failed in Ht as ->; [by left | done].
    apply Tx_ok in Ht as (d & _ & ->). destruct ch; [| by left]. set (s2 := MkService _ _ _ _ _).
    pose proof (change_follows s2 (mret tt)) as Hc. by destruct (change s2 (mret tt)).
  - unfold Backup. repeat case_match; by left.
  - by right.
Qed.

(** A later hub: the same generation, or a later version and generation. *)
Definition later (h h' : hub) : Prop := h = h' \/ (h_version h < h_version h' /\ (h_gen h < h_gen h')%nat).

Lemma later_trans h1 h2 h3 : later h1 h2 -> later h2 h3 -> later h1 h3.
Proof. intros [-> | [? ?]] [<- | [? ?]]; [by left | by right | by right | right; lia]. Qed.

Lemma hub_set_later h v : later h (hub_set h v).
Proof. unfold hub_set. destruct (Z.ltb_spec (h_version h) v); [right; simpl; lia | by left]. Qed.

Lemma step_later s s' : step kek s s' -> later (hub_ s) (hub_ s').
Proof. intros [-> | ->]%step_follows; [by left | apply hub_set_later]. Qed.

Lemma steps_later s s' : rtc (step kek) s s' -> later (hub_ s) (hub_ s') /\ store.version (st s) <= store.version (st s').
Proof.
  induction 1 as [s | s1 s2 s3 H12 _ [IH1 IH2]]; [split; [by left | lia] |].
  split; [by eapply later_trans; [apply step_later |] | pose proof (version_mono _ _ H12); lia].
Qed.

Lemma hub_behind s : reachable kek s -> h_version (hub_ s) <= store.version (st s).
Proof.
  intros H. unfold reachable in H.
  assert (h_version (hub_ (NewService store.empty_db)) <= store.version (st (NewService store.empty_db))) as H0 by done.
  revert H0. induction H as [| x y z Hs _ IH]; [done |]. intros Hx. apply IH. pose proof (version_mono _ _ Hs) as Hv.
  apply step_follows in Hs as [-> | ->]; [lia |]. unfold hub_set. destruct (Z.ltb_spec (h_version (hub_ x)) (store.version (st y))); simpl; lia.
Qed.

(** C9: a node that waits is woken by every change: once the version differs
    from the one the node has, whoever made the change and whatever happened in
    between, the generation it waits for is over after the next look of the
    watcher, and a change by the service itself ends it at once. After a look
    only a node that has the current version waits. *)
Theorem no_lost_change s since g : reachable kek s -> hub_wait (hub_ s) since = Some g ->
  (forall s', rtc (step kek) s s' -> store.version (st s') <> since -> woken (hub_ (watch s')) g = true)
  /\ (forall X (fn : Tx X) a s', quiet fn -> change s fn = (Ok a, s') -> woken (hub_ s') g = true)
  /\ (forall since' g', hub_wait (hub_ (watch s)) since' = Some g' -> since' = store.version (st s)).
Proof.
  intros Hr Hw. pose proof (hub_behind s Hr) as Hb. unfold hub_wait in Hw.
  destruct (Z.eqb_spec (h_version (hub_ s)) since) as [Hv |]; [| done]. injection Hw as Hg.
  assert (forall s', hub_ (watch s') = hub_set (hub_ s') (store.version (st s'))) as Hwatch by done.
  split; [| split].
  - intros s' [Hl Hm]%steps_later Hne. rewrite Hwatch. unfold woken. apply negb_true_iff, Nat.eqb_neq.
    destruct Hl as [<- | [H1 H2]].
    + unfold hub_set. rewrite (proj2 (Z.ltb_lt _ _)) by lia. simpl. lia.
    + destruct (hub_set_later (hub_ s') (store.version (st s'))) as [<- | [_ H3]]; lia.
  - intros X fn a s' Hq (d & Hf & ->)%change_ok. apply Hq in Hf. simpl. unfold woken, hub_set.
    rewrite (proj2 (Z.ltb_lt _ _)) by lia. apply negb_true_iff, Nat.eqb_neq. simpl. lia.
  - intros since' g'. rewrite Hwatch. unfold hub_wait, hub_set.
    destruct (Z.ltb_spec (h_version (hub_ s)) (store.version (st s))); simpl;
      destruct (Z.eqb_spec (store.version (st s)) since'), (Z.eqb_spec (h_version (hub_ s)) since'); simpl; try done; intros _; lia.
Qed.

End Hub.
End hubs.
