(* ===== verification/ControllerExample.v ===== *)
(** A run of the controller's service from a new database: an admin creates a
    room and an invite, two nodes join; the theorems on the service applied to
    its states. *)
From stdpp Require Import base list gmap strings.
From Stdlib Require Import ZArith Lia.
From S2P Require Import Prelude GoStrings GoText Netip Acl Crypto Obfs Identity Pki Store Controller ControllerNet.
From S2P Require Import ControllerInv ControllerMap ControllerOps ControllerHub.

Open Scope Z_scope.

Module scenario.
Import controller service.

#[local] Instance toy_aead : Aead := {| aead_seal := fun _ _ m => m; aead_open := fun _ _ c => Some c |}.
#[local] Instance toy_aead_laws : AeadLaws toy_aead.
Proof. split. done. Qed.
#[local] Instance no_json : pki.Json := {| pki.Marshal := fun _ => Some []; pki.Unmarshal := fun _ => None |}.

Definition root : store.User := store.MkUser 1 (str "root") [] true 0 false.
Definition guest : store.User := store.MkUser 2 (str "guest") [] false 0 false.
Definition rnd : room_rnd := MkRoomRnd (zeros 32) (replicate 32 1) [] (zeros 24) (zeros 24).
Definition roomID : bytes := obfs.RoomID (CR := toy) (zeros 32).
Definition raw : bytes := zeros 18.
Definition ends : Endpoints := MkEndpoints 51820 [] [] [] AddrPortZero (zeros 32) [] (MkPathStats 0 0) [] false false.
Definition request (k : Z) : JoinRequest :=
  MkJoinRequest roomID (encode64url raw) (str "pc") (replicate 32 k) (replicate 32 k) ends (str "1").
Definition nodeKey (k : Z) : bytes := replicate 32 k.
Definition nodeID (k : Z) : bytes := identity.NodeIDFromPublic (CR := toy) (nodeKey k).

Definition s0 : Service := NewService store.empty_db.
Definition d1 : store.db :=
  match store.CreateUser 0 (str "root") [] true store.empty_db with Ok (_, d) => d | _ => store.empty_db end.
Definition s1 : Service := MkService d1 (hub_ s0) (maxRooms s0) (maxMembers s0) (paths s0).
Definition s2 : Service := snd (CreateRoom (CR := toy) None s1 0 root (str "net") (str "10.1.0.0/29") (str "auto") rnd).
Definition s3 : Service :=
  snd (CreateInvite (CR := toy) None s2 0 root (str "http://c") roomID 5 Hour false (str "note") raw).
Definition s4 : Service := snd (Join (CR := toy) None s3 0 (nodeKey 3) (request 3) (Addr4 1)).
Definition s5 : Service := snd (Join (CR := toy) None s4 0 (nodeKey 4) (request 4) (Addr4 2)).

Lemma rnd_fits : rnd_ok (CR := toy) None rnd.
Proof. by split. Qed.

Lemma s1_reachable : reachable (CR := toy) None s1.
Proof. eapply rtc_l; [| apply rtc_refl]. apply s_users; [by eapply store.step_create_user | done]. Qed.

Lemma s3_reachable : reachable (CR := toy) None s3.
Proof.
  apply rtc_r with s2.
  - apply rtc_r with s1; [exact s1_reachable |].
    exact (s_create (CR := toy) None s1 0 root (str "net") (str "10.1.0.0/29") (str "auto") rnd rnd_fits).
  - exact (s_invite (CR := toy) None s2 0 root (str "http://c") roomID 5 Hour false (str "note") raw).
Qed.

Lemma s4_reachable : reachable (CR := toy) None s4.
Proof. exact (rtc_r _ s3 s4 s3_reachable (s_join (CR := toy) None s3 0 (nodeKey 3) (request 3) (Addr4 1))). Qed.

Lemma s4_s5 : step (CR := toy) None s4 s5.
Proof. exact (s_join (CR := toy) None s4 0 (nodeKey 4) (request 4) (Addr4 2)). Qed.

Lemma s5_reachable : reachable (CR := toy) None s5.
Proof. exact (rtc_r _ s4 s5 s4_reachable s4_s5). Qed.

(** Both nodes are active members with the first two addresses. *)
Example s5_members : map (fun m => (store.m_NodeID m, store.IP m, store.Status m)) (store.members (st s5))
  = [(nodeID 3, Addr4 (10 * 2 ^ 24 + 2 ^ 16 + 1), store.StatusActive);
     (nodeID 4, Addr4 (10 * 2 ^ 24 + 2 ^ 16 + 2), store.StatusActive)].
Proof. vm_compute. reflexivity. Qed.

Lemma service_invariant_witness : reachable (CR := toy) None s5 /\ inv (CR := toy) None (st s5).
Proof. split; [exact s5_reachable |]. apply (service_invariant (CR := toy) None s5). exact s5_reachable. Defined.

Lemma netMap_spec_witness : exists nm, netMap (CR := toy) None s5 0 (nodeID 3) (Addr4 1) = Ok nm
  /\ is_Some (Peers nm !! nodeID 4).
Proof.
  destruct (netmap.netMap_spec (C := toy) None s5 0 (nodeID 3) (Addr4 1)) as (nm & rows & Hnm & _ & _ & _ & Hp);
    [exact s5_reachable | intros c; eexists; reflexivity |].
  exists nm. split; [exact Hnm |]. apply Hp. split; vm_compute; [discriminate | reflexivity].
Defined.

Lemma management_refused_witness : ops.refused s5 (DeleteRoom None s5 0 guest roomID)
  /\ ~ ops.manages None s5 guest roomID.
Proof.
  assert (~ ops.manages None s5 guest roomID) as Hn.
  { intros (r & Hr & Hc). vm_compute in Hr. injection Hr as <-. vm_compute in Hc. discriminate. }
  split; [| exact Hn].
  destruct (ops.management_refused (CR := toy) None (fun _ _ => false) s5 0 guest roomID Hn) as (_ & _ & _ & _ & H & _). exact H.
Defined.

Lemma Join_spec_witness : exists row, store.members (st s4) = store.members (st s3) ++ [row]
  /\ store.Status row = store.StatusActive.
Proof.
  destruct (ops.Join_spec (CR := toy) None s3 0 (nodeKey 3) (request 3) (Addr4 1) s3_reachable) as [_ H].
  destruct (H (MkJoinResponse store.StatusActive (str "net")) s4) as [(row & Hrow & _) | (r0 & i & row & _ & _ & _ & _ & _ & _ & _ & Hm & _ & Hj)].
  - vm_compute. reflexivity.
  - vm_compute in Hrow. apply elem_of_nil in Hrow. destruct Hrow.
  - exists row. split; [exact Hm |]. exact (ops.jo_status _ _ _ _ _ _ _ Hj).
Defined.

Lemma no_lost_change_witness : exists g, hub_wait (hub_ s4) 4 = Some g /\ woken (hub_ (watch s5)) g = true.
Proof.
  exists 3%nat. split; [vm_compute; reflexivity |].
  apply (hubs.no_lost_change (CR := toy) None s4 4 3 s4_reachable); [vm_compute; reflexivity | | vm_compute; discriminate].
  exact (rtc_once _ _ s4_s5).
Defined.

End scenario.
