(* ===== verification/DiscoMgr.v ===== *)
(** The path finder of a node (internal/node/disco.go): it pings every address
    a peer may have and keeps the best one that answered.

    A [*discoPeer] is an index into [heap], because the maps by node ID and by
    key share the peers. A Go map gives its entries in an arbitrary order: the
    order is an argument ([ps], [order]). The clock, the transaction ids and
    the nonces are arguments too. A handler returns the packets it sends. *)
From stdpp Require Import base gmap list strings.
From Stdlib Require Import ZArith Lia.
From S2P Require Import Prelude GoStrings Netip Crypto Obfs Identity Disco RelayProto Magicsock Controller.

Open Scope Z_scope.

Module discomgr.

Definition discoRecheck : Z := 20 * Second.
Definition discoStale : Z := 60 * Second.
Definition discoSearch : Z := 2 * Second.
Definition discoPingTTL : Z := 5 * Second.
Definition discoEagerDirect : Z := Minute.
Definition maxCandidates : nat := 12.
Definition maxPendingPings : nat := 64.
#[global] Arguments maxCandidates : simpl never.
#[global] Arguments maxPendingPings : simpl never.

Record discoPath := MkPath { addr : AddrPort; rtt : Z; at_ : Z }.
Definition noPath : discoPath := MkPath AddrPortZero 0 time_zero.

Record sentPing := MkSent { to_ : AddrPort; s_at : Z }.

Record discoPeer := MkDiscoPeer {
  nodeID : bytes; key : bytes;
  candidates : list AddrPort; learned : list AddrPort; hints : list AddrPort; gossip : list AddrPort;
  best : discoPath; lastPing : Z; since : Z; sent : gmap bytes sentPing }.

Record discoMgr := MkMgr {
  heap : gmap nat discoPeer;
  peers : gmap bytes nat;
  byKey : gmap bytes nat;
  byCtrl : gmap bytes (list bytes) }.

Definition newDiscoMgr : discoMgr := MkMgr ∅ ∅ ∅ ∅.

(** Field updates. *)
Definition set_candidates (l : list AddrPort) (p : discoPeer) : discoPeer :=
  MkDiscoPeer (nodeID p) (key p) l (learned p) (hints p) (gossip p) (best p) (lastPing p) (since p) (sent p).
Definition set_learned (l : list AddrPort) (p : discoPeer) : discoPeer :=
  MkDiscoPeer (nodeID p) (key p) (candidates p) l (hints p) (gossip p) (best p) (lastPing p) (since p) (sent p).
Definition set_hints (l : list AddrPort) (p : discoPeer) : discoPeer :=
  MkDiscoPeer (nodeID p) (key p) (candidates p) (learned p) l (gossip p) (best p) (lastPing p) (since p) (sent p).
Definition set_gossip (l : list AddrPort) (p : discoPeer) : discoPeer :=
  MkDiscoPeer (nodeID p) (key p) (candidates p) (learned p) (hints p) l (best p) (lastPing p) (since p) (sent p).
Definition set_best (b : discoPath) (p : discoPeer) : discoPeer :=
  MkDiscoPeer (nodeID p) (key p) (candidates p) (learned p) (hints p) (gossip p) b (lastPing p) (since p) (sent p).
Definition set_lastPing (t : Z) (p : discoPeer) : discoPeer :=
  MkDiscoPeer (nodeID p) (key p) (candidates p) (learned p) (hints p) (gossip p) (best p) t (since p) (sent p).
Definition set_sent (m : gmap bytes sentPing) (p : discoPeer) : discoPeer :=
  MkDiscoPeer (nodeID p) (key p) (candidates p) (learned p) (hints p) (gossip p) (best p) (lastPing p) (since p) m.

Definition set_peer (i : nat) (p : discoPeer) (d : discoMgr) : discoMgr :=
  MkMgr (<[i := p]> (heap d)) (peers d) (byKey d) (byCtrl d).

Definition peer (d : discoMgr) (id : bytes) : option discoPeer := i ← peers d !! id; heap d !! i.

(** ** The peers of a controller *)

(** [candidates]: the loop's [add]. *)
Definition add_candidate (out : list AddrPort) (a : AddrPort) : list AddrPort :=
  if apIsValid a && negb (ap_port a =? 0) && negb (bool_decide (a ∈ out)) && (length out <? maxCandidates)%nat
  then out ++ [a] else out.
Definition candidatesOf (p : controller.Peer) : list AddrPort :=
  let out := fold_left add_candidate (controller.pr_Locals p) [] in
  let out := add_candidate out (controller.pr_PortMap p) in
  let out := fold_left add_candidate (controller.pr_Reflexive p) out in
  if IsValid (controller.pr_PublicIP p)
  then add_candidate out (MkAddrPort (controller.pr_PublicIP p) (controller.pr_UDPPort p)) else out.

(** The entry of a peer that a controller names: the one there is when its key
    is the same, else a new one. *)
Definition enter (d : discoMgr) (now : Z) (id key_ : bytes) : nat * discoMgr :=
  let renew (byKey : gmap bytes nat) :=
    let i := fresh (dom (heap d)) in
    (i, MkMgr (<[i := MkDiscoPeer id key_ [] [] [] [] noPath time_zero now ∅]> (heap d))
          (<[id := i]> (peers d)) (<[key_ := i]> byKey) (byCtrl d)) in
  match peers d !! id with
  | Some i =>
    match heap d !! i with
    | Some p => if bool_decide (key p = key_) then (i, d) else renew (delete (key p) (byKey d))
    | None => renew (byKey d)
    end
  | None => renew (byKey d)
  end.

(** The candidates of a peer: with its relay when it is ours. *)
Definition with_relay (ourRelay id : bytes) (p : controller.Peer) : list AddrPort :=
  let out := candidatesOf p in
  if negb (bool_decide (ourRelay = [])) && bool_decide (controller.pr_Relay p = ourRelay)
  then match relay.NodeIDBytes id with Ok raw => out ++ [magicsock.RelayEndpoint raw] | _ => out end
  else out.

Fixpoint set_peers (d : discoMgr) (now : Z) (ourRelay : bytes) (active : bytes -> bool)
    (ps : list (bytes * controller.Peer)) (ids : list bytes) : list bytes * discoMgr :=
  match ps with
  | [] => (ids, d)
  | (id, p) :: ps =>
    if negb (active id) || identity.IsZero (controller.pr_DiscoKey p) then set_peers d now ourRelay active ps ids
    else
      let '(i, d) := enter d now id (controller.pr_DiscoKey p) in
      let d := match heap d !! i with
               | Some dp => set_peer i (set_candidates (with_relay ourRelay id p) dp) d
               | None => d
               end in
      set_peers d now ourRelay active ps (ids ++ [id])
  end.

(** Is the node named by some controller? *)
Definition mentioned (byCtrl : gmap bytes (list bytes)) (id : bytes) : bool :=
  bool_decide (map_Exists (fun _ l => id ∈ l) byCtrl).

Fixpoint forget (d : discoMgr) (order : list bytes) : discoMgr :=
  match order with
  | [] => d
  | id :: order =>
    if mentioned (byCtrl d) id then forget d order
    else match peers d !! id with
         | Some i =>
           let byKey := match heap d !! i with Some p => delete (key p) (byKey d) | None => byKey d end in
           forget (MkMgr (heap d) (delete id (peers d)) byKey (byCtrl d)) order
         | None => forget d order
         end
  end.

(** [ps] lists the entries of the map of peers, [order] the known peers. *)
Definition setPeers (d : discoMgr) (now : Z) (ourRelay ctrl : bytes) (ps : list (bytes * controller.Peer))
    (active : bytes -> bool) (order : list bytes) : discoMgr :=
  let '(ids, d) := set_peers d now ourRelay active ps [] in
  forget (MkMgr (heap d) (peers d) (byKey d) (<[ctrl := ids]> (byCtrl d))) order.

(** [addHints] for one peer, [addGossipHints]. *)
Fixpoint take_hints (cands out : list AddrPort) (addrs : list AddrPort) : list AddrPort :=
  match addrs with
  | [] => out
  | a :: addrs =>
    take_hints cands (if (length out <? maxCandidates)%nat && negb (bool_decide (a ∈ cands)) then out ++ [a] else out) addrs
  end.

Definition upd_peer (d : discoMgr) (id : bytes) (f : discoPeer -> discoPeer) : discoMgr :=
  match peers d !! id with
  | Some i => match heap d !! i with Some p => set_peer i (f p) d | None => d end
  | None => d
  end.

Definition addHints (d : discoMgr) (ids : list bytes) (addrs : list AddrPort) : discoMgr :=
  fold_left (fun d id => upd_peer d id (fun p => set_hints (take_hints (candidates p) [] addrs) p)) ids d.
Definition addGossipHints (d : discoMgr) (id : bytes) (addrs : list AddrPort) : discoMgr :=
  upd_peer d id (fun p => set_gossip (take_hints (candidates p) [] addrs) p).

(** [endpoint]: [None] is the fallback. *)
Definition endpoint (d : discoMgr) (now : Z) (id : bytes) : option AddrPort :=
  match peer d id with
  | Some p => if apIsValid (addr (best p)) && (time_sub now (at_ (best p)) <? discoStale) then Some (addr (best p)) else None
  | None => None
  end.

Record outgoing := MkOut { pkt : bytes; o_to : AddrPort }.

(** The random values of one message. *)
Record randoms := MkRnd { r_tx : bytes; r_nonce : bytes; r_anon : bytes; r_tag : bytes }.

Section Crypto.
Context `{CR : Crypto} (priv pub : bytes).

Definition seal (m : disco.Msg) (to : bytes) (r : randoms) : bytes :=
  disco.Seal m priv pub to (r_nonce r) (r_anon r) (r_tag r).

Definition ping (r : randoms) : disco.Msg := disco.MkMsg disco.TypePing (r_tx r) AddrPortZero [].

(** [pingsLocked]; [rs] are the random values of the targets. *)
Fixpoint pings (p : discoPeer) (targets : list AddrPort) (now : Z) (rs : list randoms) : list outgoing * discoPeer :=
  match targets, rs with
  | to :: targets, r :: rs =>
    if (maxPendingPings <=? size (sent p))%nat then ([], p)
    else
      let '(out, p') := pings (set_sent (<[r_tx r := MkSent to now]> (sent p)) p) targets now rs in
      (MkOut (seal (ping r) (key p) r) to :: out, p')
  | _, _ => ([], p)
  end.

(** Where a peer is pinged at a tick, and how often. *)
Definition targets (p : discoPeer) (now : Z) : list AddrPort * Z :=
  let all := candidates p ++ learned p ++ hints p ++ gossip p in
  if apIsValid (addr (best p)) && magicsock.IsRelay (addr (best p)) then
    (all, if discoEagerDirect <=? time_sub now (since p) then discoRecheck else discoSearch)
  else if apIsValid (addr (best p)) then ([addr (best p)], discoRecheck)
  else (all, discoSearch).

(** One peer at a tick: old pings are forgotten, a stale path is lost, the peer
    is pinged when it is time. The flag says that a path was lost. *)
Definition tick_peer (p : discoPeer) (now : Z) (rs : list randoms) : list outgoing * discoPeer * bool :=
  let p := set_sent (filter (fun e => time_sub now (s_at e.2) <= discoPingTTL) (sent p)) p in
  let lost := apIsValid (addr (best p)) && (discoStale <=? time_sub now (at_ (best p))) in
  let p := if lost then set_best noPath p else p in
  let '(ts, interval) := targets p now in
  if time_sub now (lastPing p) <? interval then ([], p, lost)
  else let '(out, p) := pings (set_lastPing now p) ts now rs in (out, p, lost).

Fixpoint tick (d : discoMgr) (now : Z) (rnd : bytes -> list randoms) (order : list bytes) : list outgoing * discoMgr * bool :=
  match order with
  | [] => ([], d, false)
  | id :: order =>
    match peers d !! id ≫= fun i => (i,.) <$> heap d !! i with
    | Some (i, p) =>
      let '(out, p, lost) := tick_peer p now (rnd id) in
      let '(outs, d, losts) := tick (set_peer i p d) now rnd order in
      (out ++ outs, d, lost || losts)
    | None => tick d now rnd order
    end
  end.

(** ** Which path is better *)

Section Lan.
Context (lan : list Prefix).

Definition isLAN (a : AddrPort) : bool :=
  existsb (fun p => Contains p (ap_addr a) && negb (IsLoopback (ap_addr a))) lan.

Definition better (p cur : discoPath) (now : Z) : bool :=
  if negb (apIsValid (addr cur)) || (discoStale <=? time_sub now (at_ cur)) then true
  else if bool_decide (addr p = addr cur) then false
  else
    let pr := magicsock.IsRelay (addr p) in
    let cr := magicsock.IsRelay (addr cur) in
    if negb (Bool.eqb pr cr) then cr
    else
      let pl := isLAN (addr p) in
      let cl := isLAN (addr cur) in
      if negb (Bool.eqb pl cl) then pl else rtt p * 10 <? rtt cur * 7.

(** ** Incoming messages *)

(** What [handle] leaves to others: the requests of joins. *)
Inductive event : Type :=
  | Nothing
  | Join (sender data : bytes) (from : AddrPort)
  | JoinReply (sender data : bytes)
  | PathsChanged.

Definition learn (p : discoPeer) (from : AddrPort) : discoPeer :=
  if negb (bool_decide (from ∈ candidates p)) && negb (bool_decide (from ∈ learned p)) && (length (learned p) <? maxCandidates)%nat
  then set_learned (learned p ++ [from]) p else p.

Definition pong (m : disco.Msg) (from : AddrPort) : disco.Msg := disco.MkMsg disco.TypePong (disco.Tx m) from [].

(** A ping of a known peer; [r] for the answer, [r'] for the ping back. *)
Definition on_ping (p : discoPeer) (m : disco.Msg) (from : AddrPort) (now : Z) (r r' : randoms) : list outgoing * discoPeer :=
  let answer := MkOut (seal (pong m from) (key p) r) from in
  let p := learn p from in
  if apIsValid (addr (best p)) then ([answer], p)
  else let '(out, p) := pings p [from] now [r'] in (answer :: out, p).

(** A pong of a known peer; the flag says that the path changed. *)
Definition on_pong (p : discoPeer) (m : disco.Msg) (from : AddrPort) (now : Z) : discoPeer * bool :=
  match sent p !! disco.Tx m with
  | None => (p, false)
  | Some s =>
    if negb (bool_decide (to_ s = from)) then (p, false)
    else
      let p := set_sent (delete (disco.Tx m) (sent p)) p in
      let path := MkPath from (time_sub now (s_at s)) now in
      if better path (best p) now then (set_best path p, negb (bool_decide (from = addr (best p))))
      else if bool_decide (from = addr (best p)) then (set_best path p, false)
      else (p, false)
  end.

Definition handle (d : discoMgr) (now : Z) (packet : bytes) (from : AddrPort) (r r' : randoms)
    : list outgoing * discoMgr * event :=
  match disco.Open packet priv pub with
  | Ok (sender, m) =>
    if disco.Type_ m =? disco.TypeJoin then ([], d, Join sender (disco.Data m) from)
    else if disco.Type_ m =? disco.TypeJoinReply then ([], d, JoinReply sender (disco.Data m))
    else match byKey d !! sender ≫= fun i => (i,.) <$> heap d !! i with
    | None => ([], d, Nothing)
    | Some (i, p) =>
      if disco.Type_ m =? disco.TypePing then
        let '(out, p) := on_ping p m from now r r' in (out, set_peer i p d, Nothing)
      else if disco.Type_ m =? disco.TypePong then
        let '(p, changed) := on_pong p m from now in
        ([], set_peer i p d, if changed : bool then PathsChanged else Nothing)
      else ([], d, Nothing)
    end
  | _ => ([], d, Nothing)
  end.

(** [stats]: direct and relayed paths; [order] lists the peers. *)
Definition stats (d : discoMgr) (now : Z) (order : list bytes) : controller.PathStats :=
  fold_left (fun s id =>
    match endpoint d now id with
    | None => s
    | Some a => if magicsock.IsRelay a
                then controller.MkPathStats (controller.Direct s) (controller.RelayPaths s + 1)
                else controller.MkPathStats (controller.Direct s + 1) (controller.RelayPaths s)
    end) order (controller.MkPathStats 0 0).

End Lan.
End Crypto.

(** ** The bounds of a peer *)

Record peer_ok (p : discoPeer) : Prop := {
  ok_candidates : (length (candidates p) <= maxCandidates + 1)%nat;
  ok_learned : (length (learned p) <= maxCandidates)%nat;
  ok_hints : (length (hints p) <= maxCandidates)%nat;
  ok_gossip : (length (gossip p) <= maxCandidates)%nat;
  ok_sent : (size (sent p) <= maxPendingPings)%nat }.

(** The hypotheses of a test, with the comparisons of lengths. *)
Ltac len_hyps :=
  bool_hyps;
  repeat match goal with
  | H : (_ <? _)%nat = true |- _ => apply Nat.ltb_lt in H
  | H : (_ <=? _)%nat = false |- _ => apply Nat.leb_gt in H
  end.

Lemma length_add_candidate out a : (length out <= maxCandidates)%nat -> (length (add_candidate out a) <= maxCandidates)%nat.
Proof.
  intros H. unfold add_candidate. destruct (_ && _) eqn:Hb; [| done]. len_hyps.
  rewrite length_app. unfold maxCandidates in *. simpl. lia.
Qed.

Lemma length_fold_candidates l : forall out, (length out <= maxCandidates)%nat ->
  (length (fold_left add_candidate l out) <= maxCandidates)%nat.
Proof. induction l as [| a l IH]; intros out H; [done |]. by apply IH, length_add_candidate. Qed.

Lemma length_candidates ourRelay id p : (length (with_relay ourRelay id p) <= maxCandidates + 1)%nat.
Proof.
  assert (length (candidatesOf p) <= maxCandidates)%nat as H.
  { unfold candidatesOf. set (out := fold_left _ (controller.pr_Locals p) []).
    assert (length out <= maxCandidates)%nat as Ho by (apply length_fold_candidates; simpl; lia).
    assert (length (fold_left add_candidate (controller.pr_Reflexive p) (add_candidate out (controller.pr_PortMap p))) <= maxCandidates)%nat
      by by apply length_fold_candidates, length_add_candidate.
    destruct (IsValid _); [by apply length_add_candidate | done]. }
  unfold with_relay. destruct (_ && _); [| lia]. destruct (relay.NodeIDBytes id); try lia.
  rewrite length_app. unfold maxCandidates in *. simpl. lia.
Qed.

Lemma length_take_hints cands addrs : forall out, (length out <= maxCandidates)%nat ->
  (length (take_hints cands out addrs) <= maxCandidates)%nat.
Proof.
  induction addrs as [| a addrs IH]; intros out H; [done |]. simpl. apply IH.
  destruct (_ && _) eqn:Hb; [| done]. len_hyps. rewrite length_app. unfold maxCandidates in *. simpl. lia.
Qed.

Lemma new_peer_ok id k now : peer_ok (MkDiscoPeer id k [] [] [] [] noPath time_zero now ∅).
Proof. split; simpl; rewrite ?map_size_empty; unfold maxCandidates, maxPendingPings; lia. Qed.

Lemma pings_ok `{CR : Crypto} priv pub ts now : forall rs p, peer_ok p -> peer_ok (pings priv pub p ts now rs).2.
Proof.
  induction ts as [| to ts IH]; intros [| r rs] p Hp; try done. cbn [pings].
  destruct (Nat.leb_spec maxPendingPings (size (sent p))) as [| Hs]; [done |].
  specialize (IH rs (set_sent (<[r_tx r := MkSent to now]> (sent p)) p)).
  destruct (pings priv pub _ ts now rs) as [out p']. apply IH.
  destruct Hp as [????]. split; simpl; try done. rewrite map_size_insert. case_match; unfold id; lia.
Qed.

Lemma tick_peer_ok `{CR : Crypto} priv pub p now rs : peer_ok p -> peer_ok (tick_peer priv pub p now rs).1.2.
Proof.
  intros Hp. unfold tick_peer.
  set (p1 := set_sent _ p). set (lost := _ && _). set (p2 := if lost then _ else p1).
  assert (peer_ok p1) as H1.
  { destruct Hp as [????]. split; simpl; try done. etrans; [apply map_subseteq_size, map_filter_subseteq | done]. }
  assert (peer_ok p2) as H2 by (unfold p2; destruct lost; [by destruct H1 | done]).
  destruct (targets p2 now) as [ts interval]. destruct (_ <? _); [done |].
  pose proof (pings_ok priv pub ts now rs (set_lastPing now p2)) as H.
  destruct (pings _ _ _ _ _ _) as [out p3]. apply H. by destruct H2.
Qed.

Lemma learn_ok p from : peer_ok p -> peer_ok (learn p from).
Proof.
  intros [????]. unfold learn. destruct (_ && _) eqn:Hb; [| done]. len_hyps. split; simpl; try done.
  rewrite length_app. unfold maxCandidates in *. simpl. lia.
Qed.

Lemma on_ping_ok `{CR : Crypto} priv pub p m from now r r' : peer_ok p -> peer_ok (on_ping priv pub p m from now r r').2.
Proof.
  intros Hp. unfold on_ping. destruct (apIsValid _); [by apply learn_ok |].
  pose proof (pings_ok priv pub [from] now [r'] _ (learn_ok _ from Hp)) as H. by destruct (pings _ _ _ _ _ _).
Qed.

Lemma on_pong_ok lan p m from now : peer_ok p -> peer_ok (on_pong lan p m from now).1.
Proof.
  intros [????]. unfold on_pong. case_match; [| done]. case_match; [done |].
  assert (size (delete (disco.Tx m) (sent p)) <= maxPendingPings)%nat
    by (etrans; [apply map_subseteq_size, delete_subseteq | done]).
  repeat case_match; by split.
Qed.

(** ** What a manager keeps

    [A k tx a]: a ping [tx] was sent to the peer [k] at the address [a].
    [C k path]: the peer [k] has confirmed the path. *)
Section Invariant.
Context `{CR : Crypto} (priv pub : bytes).
Context (A : bytes -> bytes -> AddrPort -> Prop) (C : bytes -> discoPath -> Prop).

Record good (p : discoPeer) : Prop := {
  good_ok : peer_ok p;
  good_sent : forall tx s, sent p !! tx = Some s -> A (key p) tx (to_ s);
  good_best : apIsValid (addr (best p)) = true -> C (key p) (best p) }.

Record inv (d : discoMgr) : Prop := {
  inv_key : forall k i, byKey d !! k = Some i -> exists p, heap d !! i = Some p /\ key p = k;
  inv_peer : forall id i, peers d !! id = Some i -> exists p, heap d !! i = Some p /\ nodeID p = id;
  inv_heap : forall i p, heap d !! i = Some p -> good p }.

(** The packets [out] are pings that [A] knows. *)
Definition known (out : list outgoing) : Prop :=
  forall k r a, MkOut (seal priv pub (ping r) k r) a ∈ out -> A k (r_tx r) a.

Lemma known_app out out' : known (out ++ out') -> known out /\ known out'.
Proof. intros H. split; intros k r a Hin; apply H, elem_of_app; auto. Qed.

Lemma inv_newDiscoMgr : inv newDiscoMgr.
Proof. split; simpl; intros ?? H; by rewrite lookup_empty in H. Qed.

Lemma inv_set_peer i p p' d : inv d -> heap d !! i = Some p -> key p' = key p -> nodeID p' = nodeID p ->
  good p' -> inv (set_peer i p' d).
Proof.
  intros [Hk Hp Hh] Hi Ek En Hg.
  assert (forall j q, heap d !! j = Some q -> exists q', <[i := p']> (heap d) !! j = Some q' /\ key q' = key q /\ nodeID q' = nodeID q) as Hsame.
  { intros j q Hj. destruct (decide (j = i)) as [-> |].
    - rewrite lookup_insert_eq. eexists. split; [done |]. by simplify_eq.
    - rewrite lookup_insert_ne by done. eauto. }
  split; simpl.
  - intros k j Hj. destruct (Hk k j Hj) as (q & Hq & <-). destruct (Hsame j q Hq) as (q' & ? & ? & _). eauto.
  - intros id j Hj. destruct (Hp id j Hj) as (q & Hq & <-). destruct (Hsame j q Hq) as (q' & ? & _ & ?). eauto.
  - intros j q. destruct (decide (j = i)) as [-> |].
    + rewrite lookup_insert_eq. by intros [= <-].
    + rewrite lookup_insert_ne by done. apply Hh.
Qed.

(** Changes of the address lists. *)
Lemma good_lists p p' : good p -> key p' = key p -> best p' = best p -> sent p' = sent p -> peer_ok p' -> good p'.
Proof. intros [_ Hs Hb] Ek Eb Es Hok. split; [done | |]; rewrite Ek, ?Eb, ?Es; auto. Qed.

Lemma inv_upd_peer d id f : inv d ->
  (forall p, good p -> good (f p) /\ key (f p) = key p /\ nodeID (f p) = nodeID p) -> inv (upd_peer d id f).
Proof.
  intros Hd Hf. unfold upd_peer. destruct (peers d !! id) as [i |]; [| done].
  destruct (heap d !! i) as [p |] eqn:Hp; [| done].
  destruct (Hf p (inv_heap d Hd _ _ Hp)) as (? & ? & ?). by eapply inv_set_peer.
Qed.

Lemma good_hints cands addrs p : good p -> good (set_hints (take_hints cands [] addrs) p).
Proof.
  intros Hg. apply (good_lists p); try done. destruct (good_ok p Hg) as [????]. split; simpl; try done.
  apply length_take_hints. simpl. lia.
Qed.

Lemma good_gossip cands addrs p : good p -> good (set_gossip (take_hints cands [] addrs) p).
Proof.
  intros Hg. apply (good_lists p); try done. destruct (good_ok p Hg) as [????]. split; simpl; try done.
  apply length_take_hints. simpl. lia.
Qed.

Lemma good_candidates r id cp p : good p -> good (set_candidates (with_relay r id cp) p).
Proof.
  intros Hg. apply (good_lists p); try done. destruct (good_ok p Hg) as [????]. split; simpl; try done.
  apply length_candidates.
Qed.

Lemma inv_addHints d ids addrs : inv d -> inv (addHints d ids addrs).
Proof.
  unfold addHints. revert d. induction ids as [| id ids IH]; intros d Hd; [done |]. apply IH.
  apply inv_upd_peer; [done |]. intros p Hp. split_and!; try done. by apply good_hints.
Qed.

Lemma inv_addGossipHints d id addrs : inv d -> inv (addGossipHints d id addrs).
Proof. intros Hd. apply inv_upd_peer; [done |]. intros p Hp. split_and!; try done. by apply good_gossip. Qed.

(** A new entry. *)
Lemma inv_enter d now id k : inv d ->
  inv (enter d now id k).2 /\ exists p, heap (enter d now id k).2 !! (enter d now id k).1 = Some p /\ key p = k /\ nodeID p = id.
Proof.
  intros Hd. set (i := fresh (dom (heap d))).
  assert (heap d !! i = None) as Hi by apply not_elem_of_dom, is_fresh.
  assert (forall m, (forall k' j, m !! k' = Some j -> byKey d !! k' = Some j) ->
    inv (MkMgr (<[i := MkDiscoPeer id k [] [] [] [] noPath time_zero now ∅]> (heap d))
           (<[id := i]> (peers d)) (<[k := i]> m) (byCtrl d))) as Hnew.
  { intros m Hm. destruct Hd as [Hk Hp Hh].
    assert (forall j q, heap d !! j = Some q -> j <> i) as Hne by (intros j q Hj ->; congruence).
    split; simpl.
    - intros k' j. destruct (decide (k' = k)) as [-> |].
      + rewrite lookup_insert_eq. intros [= <-]. rewrite lookup_insert_eq. eauto.
      + rewrite lookup_insert_ne by done. intros Hj. destruct (Hk _ _ (Hm _ _ Hj)) as (q & Hq & ?).
        rewrite lookup_insert_ne by naive_solver. eauto.
    - intros id' j. destruct (decide (id' = id)) as [-> |].
      + rewrite lookup_insert_eq. intros [= <-]. rewrite lookup_insert_eq. eauto.
      + rewrite lookup_insert_ne by done. intros Hj. destruct (Hp _ _ Hj) as (q & Hq & ?).
        rewrite lookup_insert_ne by naive_solver. eauto.
    - intros j q. destruct (decide (j = i)) as [-> |].
      + rewrite lookup_insert_eq. intros [= <-]. split; simpl; [apply new_peer_ok | | done].
        intros tx s H. by rewrite lookup_empty in H.
      + rewrite lookup_insert_ne by done. apply Hh. }
  unfold enter. destruct (peers d !! id) as [j |] eqn:Hj.
  - destruct (inv_peer d Hd _ _ Hj) as (q & Hq & En). rewrite Hq. case_bool_decide as Ek; simpl.
    + eauto.
    + fold i. split; [apply Hnew; intros k' j'; rewrite lookup_delete_Some; tauto |].
      rewrite lookup_insert_eq. eauto.
  - simpl. fold i. split; [by apply Hnew |]. rewrite lookup_insert_eq. eauto.
Qed.

Lemma inv_set_peers now r active ps : forall d ids, inv d -> inv (set_peers d now r active ps ids).2.
Proof.
  induction ps as [| [id cp] ps IH]; intros d ids Hd; [done |]. cbn [set_peers].
  destruct (_ || _); [by apply IH |].
  destruct (inv_enter d now id (controller.pr_DiscoKey cp) Hd) as (Hd' & p & Hp & _).
  destruct (enter d now id _) as [i d']. simpl in *. rewrite Hp. apply IH.
  eapply inv_set_peer; try done. by apply good_candidates, (inv_heap d' Hd' i).
Qed.

Lemma inv_forget order : forall d, inv d -> inv (forget d order).
Proof.
  induction order as [| id order IH]; intros d Hd; [done |]. cbn [forget].
  destruct (mentioned _ _); [by apply IH |]. destruct (peers d !! id) as [i |] eqn:Hi; [| by apply IH].
  apply IH. destruct Hd as [Hk Hp Hh]. split; simpl; [| | done].
  - intros k j. destruct (heap d !! i); [rewrite lookup_delete_Some; intros [_ ?] |]; by apply Hk.
  - intros id' j. rewrite lookup_delete_Some. intros [_ ?]. by apply Hp.
Qed.

Lemma inv_setPeers d now r ctrl ps active order : inv d -> inv (setPeers d now r ctrl ps active order).
Proof.
  intros Hd. unfold setPeers. pose proof (inv_set_peers now r active ps d [] Hd) as H.
  destruct (set_peers _ _ _ _ _ _) as [ids d']. apply inv_forget. by destruct H.
Qed.

(** Pings are remembered exactly as they are sent. *)
Lemma pings_same ts now : forall rs p, let p' := (pings priv pub p ts now rs).2 in
  key p' = key p /\ nodeID p' = nodeID p /\ best p' = best p /\ candidates p' = candidates p /\ since p' = since p.
Proof.
  induction ts as [| to ts IH]; intros [| r rs] p; try done. cbn [pings].
  destruct (_ <=? _)%nat; [done |]. specialize (IH rs (set_sent (<[r_tx r := MkSent to now]> (sent p)) p)).
  by destruct (pings _ _ _ ts now rs).
Qed.

Lemma pings_good ts now : forall rs p, good p -> known (pings priv pub p ts now rs).1 -> good (pings priv pub p ts now rs).2.
Proof.
  induction ts as [| to ts IH]; intros [| r rs] p Hp; try done. cbn [pings].
  destruct (Nat.leb_spec maxPendingPings (size (sent p))) as [| Hs]; [done |].
  specialize (IH rs (set_sent (<[r_tx r := MkSent to now]> (sent p)) p)).
  destruct (pings _ _ _ ts now rs) as [out p']. simpl in *. intros Hk.
  apply IH; [| intros k r' a Hin; apply Hk; by right].
  destruct Hp as [Hok Hsent Hb]. split; simpl; [| | done].
  - destruct Hok as [????]. split; simpl; try done. rewrite map_size_insert. case_match; unfold id; lia.
  - intros tx s. destruct (decide (tx = r_tx r)) as [-> |].
    + rewrite lookup_insert_eq. intros [= <-]. apply Hk. by left.
    + rewrite lookup_insert_ne by done. apply Hsent.
Qed.

Lemma tick_peer_good p now rs : good p -> known (tick_peer priv pub p now rs).1.1 ->
  let p' := (tick_peer priv pub p now rs).1.2 in good p' /\ key p' = key p /\ nodeID p' = nodeID p.
Proof.
  intros Hp. pose proof (tick_peer_ok priv pub p now rs (good_ok p Hp)) as Hok. revert Hok. unfold tick_peer.
  set (p1 := set_sent _ p). set (lost := _ && _). clearbody lost. set (p2 := if lost then _ else p1).
  assert (good p1) as H1.
  { destruct Hp as [[????] Hs Hb]. split; simpl; [| | done].
    - split; simpl; try done. etrans; [apply map_subseteq_size, map_filter_subseteq | done].
    - intros tx s [? _]%map_lookup_filter_Some. by apply Hs. }
  assert (good p2 /\ key p2 = key p /\ nodeID p2 = nodeID p) as (H2 & Ek & En).
  { unfold p2. destruct lost; [| done]. split; [| done]. destruct H1 as [[????] Hs Hb]. by split. }
  clearbody p2. clear p1 H1.
  destruct (targets p2 now) as [ts interval]. destruct (_ <? _); [done |].
  assert (good (set_lastPing now p2)) as H3 by by destruct H2 as [[????]].
  pose proof (pings_good ts now rs (set_lastPing now p2) H3) as H.
  pose proof (pings_same ts now rs (set_lastPing now p2)) as (Ek' & En' & _).
  destruct (pings _ _ _ _ _ _) as [out p3]. simpl in *. intros _ Hk. split_and!; [by apply H | congruence ..].
Qed.

Lemma inv_tick now rnd order : forall d, inv d -> known (tick priv pub d now rnd order).1.1 ->
  inv (tick priv pub d now rnd order).1.2.
Proof.
  induction order as [| id order IH]; intros d Hd; [done |]. cbn [tick].
  destruct (peers d !! id) as [i |] eqn:Hi; simpl; [| by apply IH].
  destruct (inv_peer d Hd _ _ Hi) as (p & Hp & En). rewrite Hp. simpl.
  pose proof (tick_peer_good p now (rnd id) (inv_heap d Hd _ _ Hp)) as Ht.
  destruct (tick_peer _ _ _ _ _) as [[out p'] lost]. simpl in Ht.
  specialize (IH (set_peer i p' d)). destruct (tick _ _ _ now rnd order) as [[outs d'] losts].
  simpl in *. intros [Hk1 Hk2]%known_app. destruct (Ht Hk1) as (? & ? & ?).
  apply IH; [by eapply inv_set_peer | done].
Qed.

Lemma on_ping_good p m from now r r' : good p -> known (on_ping priv pub p m from now r r').1 ->
  let p' := (on_ping priv pub p m from now r r').2 in
  good p' /\ key p' = key p /\ nodeID p' = nodeID p /\ best p' = best p.
Proof.
  intros Hp. assert (good (learn p from) /\ key (learn p from) = key p /\ nodeID (learn p from) = nodeID p
    /\ best (learn p from) = best p) as (Hl & Ek & En & Eb).
  { assert (key (learn p from) = key p /\ nodeID (learn p from) = nodeID p /\ best (learn p from) = best p
      /\ sent (learn p from) = sent p) as (? & ? & ? & ?) by (unfold learn; by destruct (_ && _)).
    split_and!; try done. apply (good_lists p); try done. by apply learn_ok, good_ok. }
  unfold on_ping. destruct (apIsValid _); [done |].
  pose proof (pings_good [from] now [r'] _ Hl) as H.
  pose proof (pings_same [from] now [r'] (learn p from)) as (Ek' & En' & Eb' & _).
  destruct (pings _ _ _ _ _ _) as [out p3]. cbv zeta in *. cbn [fst snd] in *. intros Hk.
  split_and!; [| congruence ..]. apply H. intros k r0 a Hin. apply Hk. by right.
Qed.

Lemma on_pong_good lan p m from now : good p ->
  (forall s, sent p !! disco.Tx m = Some s -> to_ s = from -> C (key p) (MkPath from (time_sub now (s_at s)) now)) ->
  let p' := (on_pong lan p m from now).1 in good p' /\ key p' = key p /\ nodeID p' = nodeID p.
Proof.
  intros Hp Hc. pose proof (on_pong_ok lan p m from now (good_ok p Hp)) as Hok. revert Hok. unfold on_pong.
  destruct (sent p !! disco.Tx m) as [s |] eqn:Hs; [| done].
  case_bool_decide as Hfrom; [| done]. simpl negb. cbn iota.
  specialize (Hc s eq_refl Hfrom).
  assert (forall tx s', delete (disco.Tx m) (sent p) !! tx = Some s' -> A (key p) tx (to_ s')) as Hdel.
  { intros tx s'. rewrite lookup_delete_Some. intros [_ ?]. by apply (good_sent p Hp). }
  destruct (better _ _ _ _); [| case_bool_decide]; simpl; intros Hok; (split; [| done]);
    (split; [done | exact Hdel |]); simpl; try (by intros _); by apply good_best.
Qed.

Lemma inv_handle lan d now packet from r r' : inv d -> known (handle priv pub lan d now packet from r r').1.1 ->
  (forall m i p s, disco.Open packet priv pub = Ok (key p, m) -> disco.Type_ m = disco.TypePong ->
     heap d !! i = Some p -> sent p !! disco.Tx m = Some s -> to_ s = from ->
     C (key p) (MkPath from (time_sub now (s_at s)) now)) ->
  inv (handle priv pub lan d now packet from r r').1.2.
Proof.
  intros Hd. unfold handle. destruct (disco.Open packet priv pub) as [[k m] | |]; try done.
  destruct (_ =? disco.TypeJoin); [done |]. destruct (_ =? disco.TypeJoinReply); [done |].
  destruct (byKey d !! k) as [i |] eqn:Hi; [| done]. simpl.
  destruct (inv_key d Hd _ _ Hi) as (p & Hp & <-). rewrite Hp. simpl.
  pose proof (inv_heap d Hd _ _ Hp) as Hg.
  destruct (_ =? disco.TypePing); [| destruct (Z.eqb_spec (disco.Type_ m) disco.TypePong) as [Ht |]; [| done]].
  - pose proof (on_ping_good p m from now r r' Hg) as H. destruct (on_ping _ _ _ _ _ _ _ _) as [out p'].
    simpl in *. intros Hk _. destruct (H Hk) as (? & ? & ? & _). by eapply inv_set_peer.
  - intros _ Hc. pose proof (on_pong_good lan p m from now Hg) as H.
    destruct (on_pong _ _ _ _ _) as [p' ch]. simpl in *. destruct H as (? & ? & ?).
    + intros s Hs Hto. by apply (Hc m i p s).
    + by eapply inv_set_peer.
Qed.

End Invariant.

(** ** The runs of a manager *)

Inductive op : Type :=
  | OSetPeers (now : Z) (ourRelay ctrl : bytes) (ps : list (bytes * controller.Peer)) (active : bytes -> bool) (order : list bytes)
  | OHints (ids : list bytes) (addrs : list AddrPort)
  | OGossip (id : bytes) (addrs : list AddrPort)
  | OTick (now : Z) (rnd : bytes -> list randoms) (order : list bytes)
  | OHandle (now : Z) (lan : list Prefix) (packet : bytes) (from : AddrPort) (r r' : randoms).

Section Runs.
Context `{CR : Crypto} (priv pub : bytes).

Definition step (d : discoMgr) (o : op) : list outgoing * discoMgr :=
  match o with
  | OSetPeers now r ctrl ps active order => ([], setPeers d now r ctrl ps active order)
  | OHints ids addrs => ([], addHints d ids addrs)
  | OGossip id addrs => ([], addGossipHints d id addrs)
  | OTick now rnd order => (tick priv pub d now rnd order).1
  | OHandle now lan packet from r r' => (handle priv pub lan d now packet from r r').1
  end.

(** The packets sent, oldest first, and the manager after the operations. *)
Definition run (ops : list op) : list outgoing * discoMgr :=
  fold_left (fun s o => (s.1 ++ (step s.2 o).1, (step s.2 o).2)) ops ([], newDiscoMgr).

(** A ping [tx] for the peer [k] is among the packets [out], for the address [a]. *)
Definition asked (out : list outgoing) (k tx : bytes) (a : AddrPort) : Prop :=
  exists r, r_tx r = tx /\ MkOut (seal priv pub (ping r) k r) a ∈ out.

(** In the run [ops], the peer [k] answered, from the address of the path and at
    its time, a ping that had been sent to it there. *)
Definition confirmed (ops : list op) (k : bytes) (path : discoPath) : Prop :=
  exists pre post lan packet r r' m,
    ops = pre ++ OHandle (at_ path) lan packet (addr path) r r' :: post
    /\ disco.Open packet priv pub = Ok (k, m) /\ disco.Type_ m = disco.TypePong
    /\ asked (run pre).1 k (disco.Tx m) (addr path).

Lemma run_snoc ops o : run (ops ++ [o]) = ((run ops).1 ++ (step (run ops).2 o).1, (step (run ops).2 o).2).
Proof. unfold run. by rewrite fold_left_app. Qed.

Lemma confirmed_snoc ops o k path : confirmed ops k path -> confirmed (ops ++ [o]) k path.
Proof.
  intros (pre & post & lan & packet & r & r' & m & -> & H). exists pre, (post ++ [o]), lan, packet, r, r', m.
  by rewrite <- app_assoc.
Qed.

Lemma inv_mono (A A' : bytes -> bytes -> AddrPort -> Prop) (C C' : bytes -> discoPath -> Prop) d :
  (forall k tx a, A k tx a -> A' k tx a) -> (forall k path, C k path -> C' k path) -> inv A C d -> inv A' C' d.
Proof. intros HA HC [Hk Hp Hh]. split; try done. intros i p Hi. destruct (Hh i p Hi) as [???]. split; auto. Qed.

Lemma inv_run ops : inv (asked (run ops).1) (confirmed ops) (run ops).2.
Proof.
  induction ops as [| o ops IH] using rev_ind; [apply inv_newDiscoMgr |].
  assert (forall lan packet r r' now from k m, o = OHandle now lan packet from r r' ->
    disco.Open packet priv pub = Ok (k, m) -> disco.Type_ m = disco.TypePong ->
    asked (run ops).1 k (disco.Tx m) from -> forall rtt, confirmed (ops ++ [o]) k (MkPath from rtt now)) as Hnew.
  { intros lan packet r r' now from k m -> Ho Ht Ha rtt. by exists ops, [], lan, packet, r, r', m. }
  assert (inv (asked (run (ops ++ [o])).1) (confirmed (ops ++ [o])) (run ops).2) as Hd.
  { apply (inv_mono _ _ _ _ _) with (3 := IH); [| apply confirmed_snoc].
    intros k tx a (r & <- & Hin). exists r. split; [done |]. rewrite run_snoc. apply elem_of_app. by left. }
  assert (known priv pub (asked (run (ops ++ [o])).1) (step (run ops).2 o).1) as Hk.
  { intros k r a Hin. exists r. split; [done |]. rewrite run_snoc. apply elem_of_app. by right. }
  revert Hd Hk Hnew. rewrite run_snoc. cbn [fst snd]. generalize ((run ops).1 ++ (step (run ops).2 o).1). intros outs Hd Hk Hnew.
  destruct o as [now r ctrl ps active order | ids addrs | id addrs | now rnd order | now lan packet from r r']; cbn [step] in *.
  - by apply inv_setPeers.
  - by apply inv_addHints.
  - by apply inv_addGossipHints.
  - by apply inv_tick with (priv := priv) (pub := pub).
  - apply inv_handle with (priv := priv) (pub := pub); [done | done |].
    intros m i p s Ho Ht Hi Hs <-. eapply Hnew; try done. by apply (good_sent _ _ p (inv_heap _ _ _ IH _ _ Hi)).
Qed.

End Runs.

(** ** What the manager promises *)

Section Theorems.
Context `{CR : Crypto} (priv pub : bytes).

(** C18: What WireGuard is given in place of the controller's guess was proved by
    the peer itself: when the manager knows an address, then less than a minute
    ago a message from that address opened as a pong of the peer's key, for a ping
    that had been sent to the peer at that address earlier. Otherwise, and only
    when it has no path to the peer or the one it keeps is a minute old, the caller's
    fallback stays. This holds whatever the controllers, the hints and the network
    do. *)
Theorem endpoint_confirmed ops now id :
  match endpoint (run priv pub ops).2 now id with
  | Some a => exists p pre post t lan packet r r' m,
      peer (run priv pub ops).2 id = Some p /\ nodeID p = id
      /\ ops = pre ++ OHandle t lan packet a r r' :: post
      /\ time_sub now t < discoStale
      /\ disco.Open packet priv pub = Ok (key p, m) /\ disco.Type_ m = disco.TypePong
      /\ asked priv pub (run priv pub pre).1 (key p) (disco.Tx m) a
  | None => forall p, peer (run priv pub ops).2 id = Some p ->
      apIsValid (addr (best p)) = false \/ discoStale <= time_sub now (at_ (best p))
  end.
Proof.
  pose proof (inv_run priv pub ops) as Hd. unfold endpoint.
  destruct (peer (run priv pub ops).2 id) as [p |] eqn:Hp; [| done].
  destruct (apIsValid (addr (best p))) eqn:Hv; [| intros q [= <-]; by left]. cbn [andb].
  destruct (Z.ltb_spec (time_sub now (at_ (best p))) discoStale); [| intros q [= <-]; by right].
  unfold peer in Hp. apply bind_Some in Hp as (i & Hi & Hp).
  destruct (inv_peer _ _ _ Hd _ _ Hi) as (p' & Hp' & En). simplify_eq.
  destruct (good_best _ _ p (inv_heap _ _ _ Hd _ _ Hp) Hv) as (pre & post & lan & packet & r & r' & m & -> & Ho & Ht & Ha).
  by exists p, pre, post, (at_ (best p)), lan, packet, r, r', m.
Qed.

(** The lists of addresses and the pending pings of every peer are bounded. *)
Theorem peers_bounded ops id p : peer (run priv pub ops).2 id = Some p -> peer_ok p.
Proof.
  unfold peer. intros (i & _ & Hp)%bind_Some. exact (good_ok _ _ p (inv_heap _ _ _ (inv_run priv pub ops) _ _ Hp)).
Qed.

Lemma on_pong_best lan p m from now : let '(p', changed) := on_pong lan p m from now in
  key p' = key p /\ (best p' <> best p ->
    (exists s, sent p !! disco.Tx m = Some s /\ to_ s = from /\ best p' = MkPath from (time_sub now (s_at s)) now)
    /\ sent p' !! disco.Tx m = None) /\ (changed = true <-> best p' <> best p /\ from <> addr (best p)).
Proof.
  unfold on_pong. destruct (sent p !! disco.Tx m) as [s |] eqn:Hs; [| naive_solver].
  case_bool_decide as Hf; simpl; [| naive_solver].
  destruct (better _ _ _ _); [| case_bool_decide as Hc]; simpl.
  - split; [done |]. split; [intros _; split; [eauto | apply lookup_delete_eq] |].
    rewrite negb_true_iff, bool_decide_eq_false. split; [| tauto]. intros Hne. split; [| done].
    intros Hb. by rewrite <- Hb in Hne.
  - split; [done |]. split; [intros _; split; [eauto | apply lookup_delete_eq] |]. split; [done | tauto].
  - naive_solver.
Qed.

Lemma pings_one p from now r' : Forall (fun o => o_to o = from /\ exists m r0, pkt o = seal priv pub m (key p) r0) (pings priv pub p [from] now [r']).1
  /\ (length (pings priv pub p [from] now [r']).1 <= 1)%nat.
Proof.
  cbn [pings]. destruct (_ <=? _)%nat; [by split; [constructor | simpl; lia] |]. simpl. split; [| lia].
  repeat constructor. eauto.
Qed.

Lemma handle_cases lan d now packet from r r' out d' ev : handle priv pub lan d now packet from r r' = (out, d', ev) ->
  (out = [] /\ d' = d)
  \/ exists k m i p p', disco.Open packet priv pub = Ok (k, m) /\ byKey d !! k = Some i /\ heap d !! i = Some p
       /\ d' = set_peer i p' d
       /\ ((disco.Type_ m = disco.TypePing /\ on_ping priv pub p m from now r r' = (out, p') /\ ev = Nothing)
           \/ (disco.Type_ m = disco.TypePong /\ out = []
               /\ exists ch : bool, on_pong lan p m from now = (p', ch) /\ ev = if ch then PathsChanged else Nothing)).
Proof.
  unfold handle. destruct (disco.Open packet priv pub) as [[k m] | |]; [| intros [= <- <- _]; by left ..].
  destruct (_ =? disco.TypeJoin); [intros [= <- <- _]; by left |].
  destruct (_ =? disco.TypeJoinReply); [intros [= <- <- _]; by left |].
  destruct (byKey d !! k) as [i |] eqn:Hi; [| intros [= <- <- _]; by left]. simpl.
  destruct (heap d !! i) as [p |] eqn:Hp; [| intros [= <- <- _]; by left]. simpl.
  destruct (Z.eqb_spec (disco.Type_ m) disco.TypePing) as [Ht |].
  - destruct (on_ping _ _ _ _ _ _ _ _) as [o p'] eqn:Hop. intros [= <- <- <-]. right.
    exists k, m, i, p, p'. split_and!; try done. by left.
  - destruct (Z.eqb_spec (disco.Type_ m) disco.TypePong); [| intros [= <- <- _]; by left].
    destruct (on_pong _ _ _ _ _) as [p' ch] eqn:Hop. intros [= <- <- <-]. right.
    exists k, m, i, p, p'. split_and!; try done. right. eauto.
Qed.

Lemma on_ping_safe p m from now r r' out p' : on_ping priv pub p m from now r r' = (out, p') ->
  (length out <= 2)%nat /\ best p' = best p
  /\ Forall (fun o => o_to o = from /\ exists m' r0, pkt o = seal priv pub m' (key p) r0) out.
Proof.
  assert (key (learn p from) = key p /\ best (learn p from) = best p) as (Ek & Eb) by (unfold learn; by destruct (_ && _)).
  unfold on_ping. destruct (apIsValid _).
  - intros [= <- <-]. split_and!; [simpl; lia | done |]. repeat constructor. eauto.
  - pose proof (pings_one (learn p from) from now r') as (Hf & Hl).
    pose proof (pings_same priv pub [from] now [r'] (learn p from)) as (_ & _ & Eb' & _).
    destruct (pings _ _ _ _ _ _) as [o p3]. cbv zeta in *. cbn [fst snd] in *. intros [= <- <-].
    split_and!; [simpl; lia | congruence |]. constructor; [simpl; eauto |]. by rewrite Ek in Hf.
Qed.

Lemma peer_set_peer d i p p' id q q' : heap d !! i = Some p -> peer d id = Some q -> peer (set_peer i p' d) id = Some q' ->
  q' = q \/ (q = p /\ q' = p').
Proof.
  unfold peer. simpl. intros Hi (j & -> & Hj)%bind_Some. simpl. destruct (decide (j = i)) as [-> |].
  - rewrite lookup_insert_eq. intros [= <-]. right. by simplify_eq.
  - rewrite lookup_insert_ne by done. left. by simplify_eq.
Qed.

(** A packet gets at most two answers, both to the address it came from and
    sealed for its sender, and only when its sender is a peer: nothing is
    reflected for strangers, who change nothing either. The path of a peer
    changes only when the peer's pong answers a pending ping from the address
    the ping went to; the answer is then used up, and the other parts of the
    node are told of every new address. *)
Theorem handle_safe ops lan now packet from r r' out d' ev :
  let d := (run priv pub ops).2 in
  handle priv pub lan d now packet from r r' = (out, d', ev) ->
  (length out <= 2)%nat
  /\ (out <> [] \/ d' <> d -> exists k m i, disco.Open packet priv pub = Ok (k, m) /\ byKey d !! k = Some i
        /\ Forall (fun o => o_to o = from /\ exists m' r0, pkt o = seal priv pub m' k r0) out)
  /\ peers d' = peers d /\ byKey d' = byKey d /\ byCtrl d' = byCtrl d
  /\ forall id p p', peer d id = Some p -> peer d' id = Some p' -> best p' <> best p ->
       (exists m s, disco.Open packet priv pub = Ok (key p, m) /\ disco.Type_ m = disco.TypePong
          /\ sent p !! disco.Tx m = Some s /\ to_ s = from /\ best p' = MkPath from (time_sub now (s_at s)) now
          /\ sent p' !! disco.Tx m = None)
       /\ (ev = PathsChanged <-> from <> addr (best p)).
Proof.
  intros d H. pose proof (inv_run priv pub ops) as Hd. fold d in Hd. clearbody d.
  destruct (handle_cases _ _ _ _ _ _ _ _ _ _ H) as [[-> ->] | (k & m & i & p & p' & Ho & Hk & Hi & -> & Hc)].
  { split_and!; try done; [simpl; lia | by intros [] |]. congruence. }
  destruct (inv_key _ _ _ Hd _ _ Hk) as (p0 & Hp0 & <-). simplify_eq.
  destruct Hc as [(Ht & Hop & ->) | (Ht & -> & ch & Hop & ->)].
  - destruct (on_ping_safe _ _ _ _ _ _ _ _ Hop) as (Hl & Eb & Hf). split_and!; try done; [naive_solver |].
    intros id q q' Hq Hq' Hne. destruct (peer_set_peer _ _ _ _ _ _ _ Hi Hq Hq') as [-> | [-> ->]]; congruence.
  - split_and!; try done; [simpl; lia | intros _; by exists (key p), m, i |].
    pose proof (on_pong_best lan p m from now) as Hb. rewrite Hop in Hb. destruct Hb as (_ & Hb & Hch).
    intros id q q' Hq Hq' Hne. destruct (peer_set_peer _ _ _ _ _ _ _ Hi Hq Hq') as [-> | [-> ->]]; [done |].
    destruct (Hb Hne) as ((s & ? & ? & ?) & ?). split; [by exists m, s |]. destruct ch; naive_solver.
Qed.

End Theorems.

(** ** The order of the paths *)

(** Smaller is preferred: direct before relayed, the LAN before the rest. *)
Definition rank (lan : list Prefix) (a : AddrPort) : Z :=
  (if magicsock.IsRelay a then 2 else 0) + (if isLAN lan a then 0 else 1).

Definition usable (cur : discoPath) (now : Z) : Prop :=
  apIsValid (addr cur) = true /\ time_sub now (at_ cur) < discoStale.

(** A path replaces the current one when there is none or it is stale, and
    else exactly when it has another address and is of a better kind (direct
    before relayed, then the LAN before the rest) or of the same kind and at
    least 30% faster. Two usable paths therefore never replace each other in
    turn: whatever the times of the comparisons, of two replacements in
    opposite directions one is refused. *)
Theorem better_spec lan p cur now :
  (better lan p cur now = true <->
     ~ usable cur now
     \/ (addr p <> addr cur /\ (rank lan (addr p) < rank lan (addr cur)
                               \/ (rank lan (addr p) = rank lan (addr cur) /\ rtt p * 10 < rtt cur * 7))))
  /\ (0 <= rtt p -> 0 <= rtt cur -> forall now', usable cur now -> usable p now' ->
        better lan p cur now = true -> better lan cur p now' = false).
Proof.
  assert (forall p cur now, better lan p cur now = true <->
     ~ usable cur now
     \/ (addr p <> addr cur /\ (rank lan (addr p) < rank lan (addr cur)
                               \/ (rank lan (addr p) = rank lan (addr cur) /\ rtt p * 10 < rtt cur * 7)))) as Hiff.
  { clear. intros p cur now. unfold better, usable, rank.
    destruct (apIsValid (addr cur)); simpl; [| split; [intros _; left; by intros [] | done]].
    destruct (Z.leb_spec discoStale (time_sub now (at_ cur))); [split; [intros _; left; lia | done] |].
    case_bool_decide as Ha; [split; [done | intros [[] | []]; [by split | done]] |].
    assert (~ ~ (true = true /\ time_sub now (at_ cur) < discoStale)) by (intros Hn; by apply Hn).
    destruct (magicsock.IsRelay (addr p)), (magicsock.IsRelay (addr cur)); simpl;
      try (split; intros; try done; try tauto; right; destruct (isLAN _ _), (isLAN _ _); split; try done; lia);
      destruct (isLAN lan (addr p)), (isLAN lan (addr cur)); simpl; rewrite ?Z.ltb_lt;
      split; intros; try done; try (right; split; [done | lia]); try lia; destruct_or?; try tauto; lia. }
  split; [apply Hiff |].
  intros H1 H2 now' Hu Hu' Hb. apply not_true_iff_false. intros Hb'.
  apply Hiff in Hb, Hb'. destruct Hb as [| (_ & Hb)]; [done |]. destruct Hb' as [| (_ & Hb')]; [done |]. lia.
Qed.

(** ** A path is found *)

(** A source address that a pong can carry. *)
Definition wire_addr (a : AddrPort) : Prop :=
  addr_ok (ap_addr a) /\ Unmap (ap_addr a) = ap_addr a /\ Zone (ap_addr a) = [] /\ ap_addr a <> AddrZero
  /\ IsUnspecified (ap_addr a) = false /\ 0 <= ap_port a < 2 ^ 16.

Record rnd_ok (r : randoms) : Prop := {
  rnd_tx : zlen (r_tx r) = disco.txLen; rnd_nonce : zlen (r_nonce r) = 24; rnd_tag : zlen (r_tag r) = 4 }.

Section Found.
Context `{CL : CryptoLaws}.

(** With room and enough fresh transaction ids every target is pinged and the ping is remembered. *)
Lemma pings_all priv pub ts now : forall rs p, (length ts <= length rs)%nat -> NoDup (r_tx <$> rs) ->
  (size (sent p) + length ts <= maxPendingPings)%nat ->
  let '(out, p') := pings priv pub p ts now rs in
  (forall tx s, sent p !! tx = Some s -> tx ∉ (r_tx <$> rs) -> sent p' !! tx = Some s)
  /\ forall to, to ∈ ts -> exists r, r ∈ rs /\ MkOut (seal priv pub (ping r) (key p) r) to ∈ out
       /\ sent p' !! r_tx r = Some (MkSent to now).
Proof.
  induction ts as [| to ts IH]; intros rs p Hl Hnd Hs.
  { destruct rs; (split; [done |]); intros ? []%elem_of_nil. }
  destruct rs as [| r rs]; [simpl in Hl; lia |]. cbn [pings]. simpl in Hs, Hl.
  destruct (Nat.leb_spec maxPendingPings (size (sent p))) as [| _]; [lia |].
  rewrite fmap_cons in Hnd. apply NoDup_cons in Hnd as [Hr Hnd].
  specialize (IH rs (set_sent (<[r_tx r := MkSent to now]> (sent p)) p)).
  destruct (pings _ _ _ ts now rs) as [out p'].
  destruct IH as [Hkeep Hall]; [lia | done | |].
  { simpl. rewrite map_size_insert. case_match; unfold id; lia. }
  split.
  - intros tx s Htx Hn. rewrite fmap_cons, not_elem_of_cons in Hn. destruct Hn as [Hne Hn]. apply Hkeep; [| done].
    simpl. by rewrite lookup_insert_ne.
  - intros a [-> | Ha]%elem_of_cons.
    + exists r. split_and!; [by left | by left |]. apply Hkeep; [| done]. simpl. by rewrite lookup_insert_eq.
    + destruct (Hall a Ha) as (r' & ? & ? & ?). exists r'. split_and!; [by right | by right | done].
Qed.

Definition named (d : discoMgr) : Prop :=
  forall id i, peers d !! id = Some i -> exists p, heap d !! i = Some p /\ nodeID p = id.

Lemma named_set_peer d i p p' : named d -> heap d !! i = Some p -> nodeID p' = nodeID p -> named (set_peer i p' d).
Proof.
  intros Hd Hi En id j Hj. destruct (Hd _ _ Hj) as (q & Hq & <-). simpl. destruct (decide (j = i)) as [-> |].
  - rewrite lookup_insert_eq. eexists. split; [done |]. by simplify_eq.
  - rewrite lookup_insert_ne by done. eauto.
Qed.

Lemma tick_peer_same priv pub p now rs : let p' := (tick_peer priv pub p now rs).1.2 in key p' = key p /\ nodeID p' = nodeID p.
Proof.
  unfold tick_peer. set (p1 := set_sent _ p). set (lost := _ && _). clearbody lost. set (p2 := if lost then _ else p1).
  assert (key p2 = key p /\ nodeID p2 = nodeID p) as (Ek & En) by (unfold p2; by destruct lost).
  clearbody p2. destruct (targets p2 now) as [ts interval]. destruct (_ <? _); [done |].
  pose proof (pings_same priv pub ts now rs (set_lastPing now p2)) as (Ek' & En' & _).
  destruct (pings _ _ _ _ _ _) as [out p3]. simpl in *. split; congruence.
Qed.

Lemma tick_other priv pub now rnd i id order : forall d, named d -> peers d !! id = Some i -> id ∉ order ->
  let '(out, d', _) := tick priv pub d now rnd order in
  heap d' !! i = heap d !! i /\ peers d' = peers d /\ byKey d' = byKey d.
Proof.
  induction order as [| id' order IH]; intros d Hd Hi Hn; [done |]. cbn [tick].
  apply not_elem_of_cons in Hn as [Hne Hn].
  destruct (peers d !! id') as [j |] eqn:Hj; simpl; [| by apply IH].
  destruct (Hd _ _ Hj) as (q & Hq & En). rewrite Hq. simpl.
  pose proof (tick_peer_same priv pub q now (rnd id')) as Ht.
  destruct (tick_peer _ _ _ _ _) as [[o q'] lost]. simpl in Ht. destruct Ht as (Ek & En').
  specialize (IH (set_peer j q' d)). destruct (tick _ _ _ now rnd order) as [[outs d'] losts].
  destruct (Hd _ _ Hi) as (p & Hp & Enp).
  assert (i <> j) by (intros ->; simplify_eq).
  destruct IH as (Hh & ? & ?); [| done | done |].
  - by apply named_set_peer with q.
  - split_and!; try done. rewrite Hh. simpl. by rewrite lookup_insert_ne.
Qed.

Lemma tick_at priv pub now rnd i id p order : forall d, named d -> peers d !! id = Some i -> heap d !! i = Some p ->
  id ∈ order -> NoDup order ->
  let '(out, d', _) := tick priv pub d now rnd order in
  heap d' !! i = Some (tick_peer priv pub p now (rnd id)).1.2 /\ peers d' = peers d /\ byKey d' = byKey d
  /\ forall o, o ∈ (tick_peer priv pub p now (rnd id)).1.1 -> o ∈ out.
Proof.
  induction order as [| id' order IH]; intros d Hd Hi Hp Hin Hnd; [by apply elem_of_nil in Hin |].
  apply NoDup_cons in Hnd as [Hni Hnd]. cbn [tick].
  destruct (decide (id' = id)) as [-> |].
  - rewrite Hi. simpl. rewrite Hp. simpl. pose proof (tick_peer_same priv pub p now (rnd id)) as Ht.
    destruct (tick_peer _ _ _ _ _) as [[o p'] lost]. simpl in *. destruct Ht as (Ek & En).
    pose proof (tick_other priv pub now rnd i id order (set_peer i p' d)) as Ho.
    destruct (tick _ _ _ now rnd order) as [[outs d'] losts].
    destruct Ho as (Hh & ? & ?); [| done | done |].
    + by apply named_set_peer with p.
    + split_and!; try done; [rewrite Hh; apply lookup_insert_eq |]. intros x Hx. apply elem_of_app. by left.
  - assert (id ∈ order) by (apply elem_of_cons in Hin as [|]; congruence).
    destruct (peers d !! id') as [j |] eqn:Hj; simpl; [| by apply IH].
    destruct (Hd _ _ Hj) as (q & Hq & En). rewrite Hq. simpl.
    pose proof (tick_peer_same priv pub q now (rnd id')) as Ht.
    destruct (tick_peer priv pub q _ _) as [[o q'] lost]. simpl in Ht. destruct Ht as (Ek & En').
    specialize (IH (set_peer j q' d)). destruct (tick _ _ _ now rnd order) as [[outs d'] losts].
    destruct (Hd _ _ Hi) as (p0 & Hp0 & Enp). assert (i <> j) by (intros ->; simplify_eq).
    destruct IH as (Hh & ? & ? & Hout); try done.
    + by apply named_set_peer with q.
    + simpl. by rewrite lookup_insert_ne.
    + split_and!; try done. intros x Hx. apply elem_of_app. right. by apply Hout.
Qed.

Lemma ping_ok r : rnd_ok r -> disco.msg_ok (ping r).
Proof. intros [? _ _]. split; [done |]. right. split; [by left |]. split; [done | by left]. Qed.

Lemma pong_ok m from : zlen (disco.Tx m) = disco.txLen -> wire_addr from -> disco.msg_ok (pong m from).
Proof. intros Hx Hw. split; [done |]. right. split; [by right |]. split; [done |]. by right. Qed.

(** A peer that has no path is pinged at all its addresses when it is time. *)
Lemma tick_peer_searches priv pub p now rs to : apIsValid (addr (best p)) = false -> discoSearch <= time_sub now (lastPing p) ->
  let all := candidates p ++ learned p ++ hints p ++ gossip p in
  to ∈ all -> (size (sent p) + length all <= maxPendingPings)%nat -> (length all <= length rs)%nat -> NoDup (r_tx <$> rs) ->
  exists r, r ∈ rs /\ MkOut (seal priv pub (ping r) (key p) r) to ∈ (tick_peer priv pub p now rs).1.1
    /\ sent (tick_peer priv pub p now rs).1.2 !! r_tx r = Some (MkSent to now).
Proof.
  intros Hb Hlp all Hto Hs Hl Hnd. unfold tick_peer.
  set (p1 := set_sent _ p). change (best p1) with (best p). rewrite Hb. simpl andb. cbn iota.
  replace (targets p1 now) with (all, discoSearch) by (unfold targets; simpl; by rewrite Hb). cbn iota beta.
  change (lastPing p1) with (lastPing p). destruct (Z.ltb_spec (time_sub now (lastPing p)) discoSearch); [lia |].
  pose proof (pings_all priv pub all now rs (set_lastPing now p1) Hl Hnd) as Hall.
  destruct (pings _ _ _ _ _ _) as [out p']. simpl in *. destruct Hall as (_ & Hall); [| by apply Hall].
  assert (size (filter (fun e : bytes * sentPing => (time_sub now (s_at e.2) <= discoPingTTL)%Z) (sent p)) <= size (sent p))%nat
    by (apply map_subseteq_size, map_filter_subseteq). unfold p1 in *. simpl. lia.
Qed.

Lemma tick_peer_best priv pub p now rs : apIsValid (addr (best p)) = false -> apIsValid (addr (best (tick_peer priv pub p now rs).1.2)) = false.
Proof.
  intros Hb. unfold tick_peer. set (p1 := set_sent _ p). change (best p1) with (best p). rewrite Hb. simpl andb. cbn iota.
  destruct (targets p1 now) as [ts interval]. destruct (_ <? _); [done |].
  pose proof (pings_same priv pub ts now rs (set_lastPing now p1)) as (_ & _ & Eb & _).
  destruct (pings _ _ _ _ _ _) as [out p']. simpl in *. by rewrite Eb.
Qed.

(** A peer's pong to a pending ping gives the first path. *)
Lemma on_pong_first lan p m from now s : sent p !! disco.Tx m = Some s -> to_ s = from -> apIsValid (addr (best p)) = false ->
  best (on_pong lan p m from now).1 = MkPath from (time_sub now (s_at s)) now.
Proof.
  intros Hs Hto Hb. unfold on_pong. rewrite Hs, bool_decide_eq_true_2 by done. simpl negb. cbn iota.
  unfold better. cbn [best set_sent]. by rewrite Hb.
Qed.

Lemma handle_ping priv pub lan d now packet from r r' k m i p :
  disco.Open packet priv pub = Ok (k, m) -> disco.Type_ m = disco.TypePing -> byKey d !! k = Some i -> heap d !! i = Some p ->
  MkOut (seal priv pub (pong m from) (key p) r) from ∈ (handle priv pub lan d now packet from r r').1.1.
Proof.
  intros Ho Ht Hk Hp. unfold handle. rewrite Ho, Ht, Hk. cbn [mbind option_bind]. rewrite Hp. simpl fmap. cbn iota beta.
  change (disco.TypePing =? disco.TypeJoin) with false. change (disco.TypePing =? disco.TypeJoinReply) with false.
  change (disco.TypePing =? disco.TypePing) with true. cbn iota.
  assert (MkOut (seal priv pub (pong m from) (key p) r) from ∈ (on_ping priv pub p m from now r r').1) as H.
  { unfold on_ping. destruct (apIsValid _); [by left |]. destruct (pings _ _ _ _ _ _). by left. }
  by destruct (on_ping _ _ _ _ _ _ _ _).
Qed.

Lemma handle_pong priv pub lan d now packet from r r' k m i p :
  disco.Open packet priv pub = Ok (k, m) -> disco.Type_ m = disco.TypePong -> byKey d !! k = Some i -> heap d !! i = Some p ->
  (handle priv pub lan d now packet from r r').1.2 = set_peer i (on_pong lan p m from now).1 d.
Proof.
  intros Ho Ht Hk Hp. unfold handle. rewrite Ho, Ht, Hk. cbn [mbind option_bind]. rewrite Hp. simpl fmap. cbn iota beta.
  change (disco.TypePong =? disco.TypeJoin) with false. change (disco.TypePong =? disco.TypeJoinReply) with false.
  change (disco.TypePong =? disco.TypePing) with false. change (disco.TypePong =? disco.TypePong) with true. cbn iota.
  by destruct (on_pong _ _ _ _ _).
Qed.

(** C19: Two nodes find each other: when a tick finds a peer without a path, it
    pings each of its addresses; the peer's node, which knows this node's key,
    answers the ping that reaches it to the address it came from; and that
    answer, coming back from the pinged address, makes that address the path. *)
Theorem path_found (a b : bytes) opsA opsB idB i pB toB now rnd order rA rA' lanA t2 lanB tB fromA rB rB' :
  let dA := (run a (x25519 a) opsA).2 in
  let dB := (run b (x25519 b) opsB).2 in
  let all := candidates pB ++ learned pB ++ hints pB ++ gossip pB in
  zlen a = 32 -> zlen b = 32 ->
  peers dA !! idB = Some i -> heap dA !! i = Some pB -> byKey dA !! x25519 b = Some i ->
  is_Some (byKey dB !! x25519 a) ->
  apIsValid (addr (best pB)) = false -> discoSearch <= time_sub now (lastPing pB) ->
  toB ∈ all -> apIsValid toB = true -> wire_addr fromA ->
  (size (sent pB) + length all <= maxPendingPings)%nat ->
  (length all <= length (rnd idB))%nat -> NoDup (r_tx <$> rnd idB) -> Forall rnd_ok (rnd idB) -> rnd_ok rB ->
  idB ∈ order -> NoDup order ->
  let '(out, dA', _) := tick a (x25519 a) dA now rnd order in
  exists pkt1, MkOut pkt1 toB ∈ out
    /\ exists pkt2, MkOut pkt2 fromA ∈ (handle b (x25519 b) lanB dB tB pkt1 fromA rB rB').1.1
    /\ endpoint (handle a (x25519 a) lanA dA' t2 pkt2 toB rA rA').1.2 t2 idB = Some toB.
Proof.
  intros dA dB all Ha Hb Hi HpB Hk [j Hj] Hbest Hlp Hto Hv Hw Hs Hl Hnd Hrs HrB Hin Hord.
  pose proof (inv_run a (x25519 a) opsA) as HdA. fold dA in HdA. clearbody dA.
  pose proof (inv_run b (x25519 b) opsB) as HdB. fold dB in HdB. clearbody dB.
  destruct (inv_key _ _ _ HdA _ _ Hk) as (q & Hq & EkB). simplify_eq.
  destruct (inv_key _ _ _ HdB _ _ Hj) as (pA & HpA & EkA).
  destruct (tick_peer_searches a (x25519 a) pB now (rnd idB) toB) as (r & Hr & Hout & Hsent); try done.
  pose proof (tick_peer_best a (x25519 a) pB now (rnd idB) Hbest) as Hbest'.
  pose proof (tick_peer_same a (x25519 a) pB now (rnd idB)) as (Ek' & _).
  pose proof (tick_at a (x25519 a) now rnd i idB pB order dA (inv_peer _ _ _ HdA) Hi HpB Hin Hord) as Ht.
  destruct (tick _ _ _ now rnd order) as [[out dA'] lost].
  destruct (tick_peer _ _ pB _ _) as [[o pB'] l]. simpl in *. destruct Ht as (Hh & Hps & Hbk & Ho).
  eexists. split; [by apply Ho |].
  rewrite Forall_forall in Hrs. destruct (Hrs r Hr) as [Htx Hnc Htg]. destruct HrB as [HtxB HncB HtgB].
  eexists. split.
  - assert (disco.Open (seal a (x25519 a) (ping r) (key pB) r) b (x25519 b) = Ok (x25519 a, ping r)) as Ho1
      by (unfold seal; rewrite EkB; apply disco.Seal_Open; [by apply ping_ok | done ..]).
    pose proof (handle_ping b (x25519 b) lanB dB tB _ fromA rB rB' _ _ _ _ Ho1 eq_refl Hj HpA) as Hp.
    rewrite EkA in Hp. exact Hp.
  - assert (disco.Open (seal b (x25519 b) (pong (ping r) fromA) (x25519 a) rB) a (x25519 a) = Ok (x25519 b, pong (ping r) fromA)) as Ho2
      by (unfold seal; apply disco.Seal_Open; [by apply pong_ok | done ..]).
    rewrite <- Hbk in Hk. unfold endpoint, peer. rewrite (handle_pong _ _ _ _ _ _ _ _ _ _ _ _ _ Ho2 eq_refl Hk Hh).
    simpl. rewrite Hps, Hi. simpl. rewrite lookup_insert_eq.
    pose proof (on_pong_first lanA pB' (pong (ping r) fromA) toB t2 _ Hsent eq_refl Hbest') as Hp.
    rewrite Hp. simpl. rewrite Hv.
    rewrite (proj2 (Z.ltb_lt _ _)); [done |]. unfold time_sub, discoStale, Second. lia.
Qed.

End Found.

(** ** Two nodes with one key

    A controller passes on the keys that the nodes report, so another member
    may report the key of a peer. The map by key then holds only the entry that
    was made last: no packet of the key's owner reaches its own entry, so the
    owner never gets a path. *)
Theorem shared_key_shadows `{CR : Crypto} priv pub ops now ourRelay active idV i pV idM cp :
  let d := (run priv pub ops).2 in
  peers d !! idV = Some i -> heap d !! i = Some pV -> peers d !! idM = None ->
  controller.pr_DiscoKey cp = key pV -> active idM = true -> identity.IsZero (key pV) = false ->
  let d' := (set_peers d now ourRelay active [(idM, cp)] []).2 in
  heap d' !! i = Some pV
  /\ forall lan t packet from r r' m, disco.Open packet priv pub = Ok (key pV, m) ->
       heap (handle priv pub lan d' t packet from r r').1.2 !! i = Some pV.
Proof.
  intros d Hi Hp HM Ek Ha Hz d'. set (j := fresh (dom (heap d))).
  assert (j <> i) as Hne by (intros E; apply (is_fresh (dom (heap d))); fold j; rewrite E; by apply elem_of_dom_2 in Hp).
  assert (heap d' !! i = Some pV /\ byKey d' !! key pV = Some j) as [Hh Hk].
  { unfold d'. cbn [set_peers]. rewrite Ha, Ek, Hz. simpl. unfold enter. rewrite HM. fold j. simpl.
    rewrite lookup_insert_eq. simpl. rewrite insert_insert_eq, lookup_insert_ne by done.
    split; [done | apply lookup_insert_eq]. }
  split; [done |]. intros lan t packet from r r' m Ho.
  destruct (handle priv pub lan d' t packet from r r') as [[out d2] ev] eqn:Hhd.
  destruct (handle_cases _ _ _ _ _ _ _ _ _ _ _ _ Hhd) as [[_ ->] | (k & m' & i' & p & p' & Ho' & Hk' & _ & -> & _)]; [done |].
  rewrite Ho in Ho'. injection Ho' as <- <-. rewrite Hk in Hk'. injection Hk' as <-. simpl. by rewrite lookup_insert_ne.
Qed.

(** ** A run *)

Module scenario.

Definition priv_a : bytes := repeat 7 32.
Definition priv_b : bytes := repeat 9 32.
Definition addr_a : AddrPort := MkAddrPort (Addr4 (167772160 + 1)) 4001.
Definition addr_b : AddrPort := MkAddrPort (Addr4 (167772160 + 2)) 4000.
Definition peer_with (k : bytes) (a : AddrPort) : controller.Peer :=
  controller.MkPeer AddrZero 0 [a] [] AddrPortZero [] k [] true.
Definition rnd (n : Z) : randoms := MkRnd (n :: zeros 11) (zeros 24) (zeros 32) (zeros 4).
Definition ctrl : bytes := str "controller".
Definition id_a : bytes := str "aaaa".
Definition id_b : bytes := str "bbbb".
Definition knows (id k : bytes) (a : AddrPort) : list op :=
  [OSetPeers 0 [] ctrl [(id, peer_with k a)] (fun _ => true) []].
Definition ops_a : list op := knows id_b priv_b addr_b.
Definition ops_b : list op := knows id_a priv_a addr_a.
Definition now : Z := 10 * Second.
Definition rnds (id : bytes) : list randoms := [rnd 1].
Definition answer : bytes := seal (CR := toy) priv_b priv_b (pong (ping (rnd 1)) addr_a) priv_a (rnd 2).
Definition found : list op := ops_a ++ [OTick now rnds [id_b]; OHandle (now + 5) [] answer addr_b (rnd 3) (rnd 4)].

Lemma endpoint_confirmed_witness :
  exists p pre post t lan packet r r' m,
    peer (run (CR := toy) priv_a priv_a found).2 id_b = Some p /\ nodeID p = id_b
    /\ found = pre ++ OHandle t lan packet addr_b r r' :: post
    /\ time_sub (now + 9) t < discoStale
    /\ disco.Open (CR := toy) packet priv_a priv_a = Ok (key p, m) /\ disco.Type_ m = disco.TypePong
    /\ asked (CR := toy) priv_a priv_a (run (CR := toy) priv_a priv_a pre).1 (key p) (disco.Tx m) addr_b.
Proof.
  pose proof (endpoint_confirmed (CR := toy) priv_a priv_a found (now + 9) id_b) as H.
  assert (endpoint (run (CR := toy) priv_a priv_a found).2 (now + 9) id_b = Some addr_b) as E by (vm_compute; reflexivity).
  rewrite E in H. exact H.
Defined.

Definition before : list op := ops_a ++ [OTick now rnds [id_b]].
Notation handled := (handle (CR := toy) priv_a priv_a [] (run (CR := toy) priv_a priv_a before).2 (now + 5) answer addr_b (rnd 3) (rnd 4)).

Lemma handle_safe_witness :
  (length handled.1.1 <= 2)%nat /\ handled.2 = PathsChanged.
Proof.
  split; [| vm_compute; reflexivity].
  destruct handled as [[out d'] ev] eqn:Hh.
  exact (proj1 (handle_safe (CR := toy) priv_a priv_a before [] (now + 5) answer addr_b (rnd 3) (rnd 4) out d' ev Hh)).
Defined.

Lemma better_spec_witness :
  better [] (MkPath addr_a 6 now) (MkPath addr_b 10 now) now = true
  /\ better [] (MkPath addr_b 10 now) (MkPath addr_a 6 now) (now + 1) = false.
Proof.
  split; [vm_compute; reflexivity |].
  apply (proj2 (better_spec [] (MkPath addr_a 6 now) (MkPath addr_b 10 now) now)); try done; try (vm_compute; split; reflexivity).
Defined.

Lemma path_found_witness :
  let '(out, dA', _) := tick (CR := toy) priv_a priv_a (run (CR := toy) priv_a priv_a ops_a).2 now rnds [id_b] in
  exists pkt1, MkOut pkt1 addr_b ∈ out
    /\ exists pkt2, MkOut pkt2 addr_a
         ∈ (handle (CR := toy) priv_b priv_b [] (run (CR := toy) priv_b priv_b ops_b).2 now pkt1 addr_a (rnd 2) (rnd 5)).1.1
    /\ endpoint (handle (CR := toy) priv_a priv_a [] dA' (now + 5) pkt2 addr_b (rnd 3) (rnd 4)).1.2 (now + 5) id_b = Some addr_b.
Proof.
  set (i := 0%nat). destruct (heap (run (CR := toy) priv_a priv_a ops_a).2 !! i) as [p |] eqn:Hp; [| by vm_compute in Hp].
  vm_compute in Hp. injection Hp as Hp.
  apply (path_found (C := toy) priv_a priv_b ops_a ops_b id_b i p addr_b now rnds [id_b] (rnd 3) (rnd 4) [] (now + 5) [] now addr_a (rnd 2) (rnd 5));
    try (subst p; vm_compute; reflexivity).
  - subst p. vm_compute. eauto.
  - subst p. vm_compute. done.
  - subst p. by left.
  - split_and!; done.
  - subst p. vm_compute. lia.
  - apply NoDup_singleton.
  - repeat constructor.
  - repeat constructor.
  - by left.
  - apply NoDup_singleton.
Defined.

End scenario.

End discomgr.
