(* ===== verification/Config.v ===== *)
(** The configuration of a node (internal/config/config.go): the values of the
    YAML file and what makes them valid. Reading the file and YAML are outside.
    A [float64] is a [spec_float]; an unset pointer is [None]; the operating
    system's name is an argument. *)
From stdpp Require Import base gmap list strings.
From Stdlib Require Import ZArith Lia SpecFloat.
From S2P Require Import Prelude GoStrings Netip Acl Crypto Obfs Identity.

Open Scope Z_scope.

Module config.

Definition DefaultListenPort : Z := 4790.
Definition MinMTU : Z := 1280.
Definition MaxMTU : Z := 1500 - 32 - obfs.MaxTransportPadding - obfs.TagLen - 48.
Definition DefaultMTU : Z := MaxMTU.

Definition alnum (c : Z) : bool := ((97 <=? c) && (c <=? 122)) || ((48 <=? c) && (c <=? 57)).

(** [^[a-z0-9][a-z0-9-]{0,10}$] *)
Definition roomNameRe (s : bytes) : bool :=
  match s with
  | c :: r => alnum c && forallb (fun d => alnum d || (d =? 45)) r && (length r <=? 10)%nat
  | [] => false
  end.

Record Obfuscation := MkObfuscation {
  o_Jc : option Z; o_Jmin : option Z; o_Jmax : option Z; o_I : list bytes; o_ContentPadding : option bytes }.

Record Peer := MkPeer {
  p_Name : bytes; PublicKey : bytes; Endpoint : bytes; AllowedIPs : list Prefix; Keepalive : Z }.

Record Room := MkRoom {
  Name : bytes; Secret : bytes; Address : Prefix; MTU : Z; Broadcast : bytes; Obfs_ : option Obfuscation;
  Peers : list Peer;
  Routes : list Prefix; Routing : list Prefix; Exit : bool; ExitNode : bool; ExitDNS : Addr; RoomDNS : list Addr;
  ZoneName : bytes; ZoneRecords : gmap bytes Addr; DHT : bool; Policy : option acl.Policy;
  PeerNodes : gmap bytes bytes; ExitPeer : bytes; ExitPeers : gset bytes }.

Record Config := MkConfig {
  ListenPort : option Z; Userspace : bool; PortMap : option bool; RelayTransport : bytes; UpdateChannel : bytes;
  PublicSTUN : list bytes; AdvertiseRoutes : list Prefix; AdvertiseExit : bool; KillSwitch : bool;
  KillSwitchAllowLAN : bool; DNS : list Addr; ExitDNSUpstreams : list Addr; ExitNAT : bytes;
  ExitRateLimit : spec_float; ExitRateLimitTotal : spec_float; Rooms : list Room }.

Definition set_MTU (mtu : Z) (r : Room) : Room :=
  MkRoom (Name r) (Secret r) (Address r) mtu (Broadcast r) (Obfs_ r) (Peers r) (Routes r) (Routing r) (Exit r)
    (ExitNode r) (ExitDNS r) (RoomDNS r) (ZoneName r) (ZoneRecords r) (DHT r) (Policy r) (PeerNodes r) (ExitPeer r) (ExitPeers r).
Definition set_Name (name : bytes) (r : Room) : Room :=
  MkRoom name (Secret r) (Address r) (MTU r) (Broadcast r) (Obfs_ r) (Peers r) (Routes r) (Routing r) (Exit r)
    (ExitNode r) (ExitDNS r) (RoomDNS r) (ZoneName r) (ZoneRecords r) (DHT r) (Policy r) (PeerNodes r) (ExitPeer r) (ExitPeers r).
Definition set_Rooms (rs : list Room) (c : Config) : Config :=
  MkConfig (ListenPort c) (Userspace c) (PortMap c) (RelayTransport c) (UpdateChannel c) (PublicSTUN c)
    (AdvertiseRoutes c) (AdvertiseExit c) (KillSwitch c) (KillSwitchAllowLAN c) (DNS c) (ExitDNSUpstreams c)
    (ExitNAT c) (ExitRateLimit c) (ExitRateLimitTotal c) rs.

Definition ClientParams (r : Room) : obfs.ClientParams :=
  let p := obfs.DefaultClientParams in
  match Obfs_ r with
  | None => p
  | Some o =>
    obfs.MkClientParams (default (obfs.Jc p) (o_Jc o)) (default (obfs.Jmin p) (o_Jmin o)) (default (obfs.Jmax p) (o_Jmax o))
      (o_I o) (default (obfs.ContentPadding p) (o_ContentPadding o))
  end.

Definition UpdateChannelName (c : Config) : bytes :=
  if bool_decide (UpdateChannel c = []) then str "stable" else UpdateChannel c.

Definition DefaultPublicSTUN : list bytes := map str ["stun.l.google.com:19302"; "stun.cloudflare.com:3478"]%string.

Definition PublicSTUNServers (c : Config) : list bytes :=
  if bool_decide (PublicSTUN c = []) then DefaultPublicSTUN
  else if bool_decide (PublicSTUN c = [str "off"]) then []
  else PublicSTUN c.

Definition PortMapEnabled (c : Config) : bool := default true (PortMap c).

Definition Port (c : Config) : Z := default DefaultListenPort (ListenPort c).

Section OS.
Context (GOOS : bytes).

Definition UserspaceExit (c : Config) : bool :=
  bool_decide (ExitNAT c = str "userspace")
  || (bool_decide (ExitNAT c = []) || bool_decide (ExitNAT c = str "auto")) && negb (bool_decide (GOOS = str "linux")).

Inductive error : Type :=
  | EName | ESecret | EObfuscation | EAddress | EBroadcast | EMTU | EPeerKey | EPeerDuplicate | EPeerAllowed | EKeepalive
  | EPort | EChannel | EExitNAT | ERate | EDNS | EAdvertise | ETransport
  | EDuplicateName | EDuplicateSecret | EOverlap.

(** The loop of [ValidateRoom] over the peers; [keys] are the keys so far. *)
Fixpoint check_peers (keys : list bytes) (ps : list Peer) : res error unit :=
  match ps with
  | [] => Ok tt
  | p :: ps =>
    if identity.IsZero (PublicKey p) then Err EPeerKey
    else if bool_decide (PublicKey p ∈ keys) then Err EPeerDuplicate
    else if bool_decide (AllowedIPs p = []) then Err EPeerAllowed
    else if (Keepalive p <? 0) || (65535 <? Keepalive p) then Err EKeepalive
    else check_peers (PublicKey p :: keys) ps
  end.

Definition ValidateRoom (r : Room) : res error Room :=
  if negb (roomNameRe (Name r)) then Err EName
  else if obfs.IsZero (Secret r) then Err ESecret
  else
    let cp := ClientParams r in
    if (obfs.Jc cp <? 0) || (128 <? obfs.Jc cp) || (obfs.Jmin cp <? 0) || (obfs.Jmax cp <? obfs.Jmin cp) || (1280 <? obfs.Jmax cp)
    then Err EObfuscation
    else if negb (PrefixIsValid (Address r)) then Err EAddress
    else if negb (bool_decide (Broadcast r ∈ [[]; str "on"; str "off"; str "mdns"])) then Err EBroadcast
    else
      let r := if MTU r =? 0 then set_MTU DefaultMTU r else r in
      if (MTU r <? MinMTU) || (MaxMTU <? MTU r) then Err EMTU
      else _ ← check_peers [] (Peers r); Ok r.

(** [0 < x], [x < 0] of floats. *)
Definition negative (x : spec_float) : bool := SFltb x (S754_zero false).

Definition valid_dns (a : Addr) : bool :=
  negb (negb (IsValid a) || IsUnspecified a || IsMulticast a || negb (bool_decide (Zone a = []))).
Definition valid_advertised (p : Prefix) : bool :=
  negb (negb (PrefixIsValid p) || negb (bool_decide (p = Masked p)) || negb (Is4 (pfx_ip p)) || (pfx_bits p <? 8)).

(** The loop over the rooms; what the rooms before have used is kept. *)
Fixpoint check_rooms (names secrets : list bytes) (prefixes : list Prefix) (rs : list Room) : res error (list Room) :=
  match rs with
  | [] => Ok []
  | r :: rs =>
    r ← ValidateRoom r;
    if bool_decide (Name r ∈ names) then Err EDuplicateName
    else if bool_decide (Secret r ∈ secrets) then Err EDuplicateSecret
    else if existsb (fun p => Overlaps p (Masked (Address r))) prefixes then Err EOverlap
    else
      rs ← check_rooms (Name r :: names) (Secret r :: secrets) (prefixes ++ [Masked (Address r)]) rs;
      Ok (r :: rs)
  end.

Definition Validate (c : Config) : res error Config :=
  if (Port c <? 0) || (65535 <? Port c) then Err EPort
  else if negb (bool_decide (UpdateChannel c ∈ [[]; str "stable"; str "beta"; str "off"])) then Err EChannel
  else if negb (bool_decide (ExitNAT c ∈ [[]; str "auto"; str "kernel"; str "userspace"])) then Err EExitNAT
  else if bool_decide (ExitNAT c = str "kernel") && negb (bool_decide (GOOS = str "linux")) then Err EExitNAT
  else if negative (ExitRateLimit c) || negative (ExitRateLimitTotal c) then Err ERate
  else if 3 <? zlen (DNS c) then Err EDNS
  else if negb (forallb valid_dns (DNS c ++ ExitDNSUpstreams c)) then Err EDNS
  else if negb (forallb valid_advertised (AdvertiseRoutes c)) then Err EAdvertise
  else if negb (bool_decide (RelayTransport c ∈ [[]; str "auto"; str "udp"; str "vless"])) then Err ETransport
  else rs ← check_rooms [] [] [] (Rooms c); Ok (set_Rooms rs c).

End OS.

(** ** What validation accepts *)

Record peers_ok (ps : list Peer) : Prop := {
  po_keys : NoDup (PublicKey <$> ps);
  po_peer : Forall (fun p => identity.IsZero (PublicKey p) = false /\ AllowedIPs p <> [] /\ 0 <= Keepalive p <= 65535) ps }.

Record room_ok (r : Room) : Prop := {
  ro_name : roomNameRe (Name r) = true;
  ro_secret : obfs.IsZero (Secret r) = false;
  ro_params : let cp := ClientParams r in 0 <= obfs.Jc cp <= 128 /\ 0 <= obfs.Jmin cp <= obfs.Jmax cp /\ obfs.Jmax cp <= 1280;
  ro_address : PrefixIsValid (Address r) = true;
  ro_broadcast : Broadcast r ∈ [[]; str "on"; str "off"; str "mdns"];
  ro_mtu : MinMTU <= MTU r <= MaxMTU;
  ro_peers : peers_ok (Peers r) }.

(** A room without an MTU gets the default one. *)
Definition fill (r : Room) : Room := if MTU r =? 0 then set_MTU DefaultMTU r else r.

Definition disjoint (a b : Room) : Prop := Overlaps (Masked (Address a)) (Masked (Address b)) = false.

Record rooms_ok (rs : list Room) : Prop := {
  rs_each : Forall room_ok rs;
  rs_names : NoDup (Name <$> rs);
  rs_secrets : NoDup (Secret <$> rs);
  rs_subnets : ForallOrdPairs disjoint rs }.

Record config_ok (GOOS : bytes) (c : Config) : Prop := {
  co_port : 0 <= Port c <= 65535;
  co_channel : UpdateChannel c ∈ [[]; str "stable"; str "beta"; str "off"];
  co_nat : ExitNAT c ∈ [[]; str "auto"; str "kernel"; str "userspace"];
  co_kernel : ExitNAT c = str "kernel" -> GOOS = str "linux";
  co_rate : negative (ExitRateLimit c) = false /\ negative (ExitRateLimitTotal c) = false;
  co_dns : (length (DNS c) <= 3)%nat;
  co_servers : Forall (fun a => valid_dns a = true) (DNS c ++ ExitDNSUpstreams c);
  co_routes : Forall (fun p => valid_advertised p = true) (AdvertiseRoutes c);
  co_transport : RelayTransport c ∈ [[]; str "auto"; str "udp"; str "vless"];
  co_rooms : rooms_ok (Rooms c) }.

Lemma check_peers_ok ps : forall keys, check_peers keys ps = Ok tt <->
  peers_ok ps /\ Forall (fun p => PublicKey p ∉ keys) ps.
Proof.
  induction ps as [| p ps IH]; intros keys; simpl.
  { split; [intros _ | done]. split; [split; constructor | constructor]. }
  rewrite Forall_cons. destruct (identity.IsZero (PublicKey p)) eqn:Hz.
  { split; [done |]. intros ([_ H] & _). apply Forall_cons in H as [(? & _) _]. congruence. }
  case_bool_decide as Hk; [split; [done | tauto] |].
  case_bool_decide as Ha. { split; [done |]. intros ([_ H] & _). by apply Forall_cons in H as [(_ & ? & _) _]. }
  destruct (_ || _) eqn:Hr.
  { split; [done |]. intros ([_ H] & _). apply Forall_cons in H as [(_ & _ & ?) _]. apply orb_prop in Hr as [?%Z.ltb_lt | ?%Z.ltb_lt]; lia. }
  bool_hyps. rewrite IH. split.
  - intros ([Hnd Hp] & Hks). rewrite Forall_forall in Hks. split; [split |].
    + rewrite fmap_cons. apply NoDup_cons. split; [| done]. intros (q & E & Hq)%list_elem_of_fmap.
      apply (Hks q Hq). rewrite <- E. by left.
    + by constructor.
    + split; [done |]. rewrite Forall_forall. intros q Hq Hin. apply (Hks q Hq). by right.
  - intros ([Hnd Hp] & _ & Hks). rewrite fmap_cons in Hnd. apply NoDup_cons in Hnd as [Hn Hnd]. apply Forall_cons in Hp as [_ Hp].
    split; [by split |]. rewrite Forall_forall in *. intros q Hq [E | Hin]%elem_of_cons; [| by apply (Hks q)].
    apply Hn. rewrite <- E. by apply list_elem_of_fmap_2.
Qed.

Lemma ValidateRoom_ok r r' : ValidateRoom r = Ok r' <-> r' = fill r /\ room_ok (fill r).
Proof.
  assert (Name (fill r) = Name r /\ Secret (fill r) = Secret r /\ ClientParams (fill r) = ClientParams r /\ Address (fill r) = Address r
    /\ Broadcast (fill r) = Broadcast r /\ Peers (fill r) = Peers r) as (En & Es & Ec & Ea & Eb & Ep)
    by (unfold fill; by destruct (MTU r =? 0)).
  unfold ValidateRoom. fold (fill r). rewrite Ep.
  destruct (roomNameRe (Name r)) eqn:Hn; simpl; [| split; [done | intros (_ & [])]; congruence].
  destruct (obfs.IsZero (Secret r)) eqn:Hs; [split; [done | intros (_ & [])]; congruence |].
  destruct (_ || (1280 <? _)) eqn:Hp.
  { split; [done |]. intros (_ & [_ _ H _ _ _ _]). rewrite Ec in H. cbv zeta in H.
    rewrite !orb_true_iff, !Z.ltb_lt in Hp. lia. }
  destruct (PrefixIsValid (Address r)) eqn:Ha; simpl; [| split; [done | intros (_ & [])]; congruence].
  case_bool_decide as Hb; simpl; [| split; [done | intros (_ & [])]; congruence].
  destruct (_ || (MaxMTU <? _)) eqn:Hm.
  { split; [done |]. intros (_ & [_ _ _ _ _ H _]). apply orb_prop in Hm as [Hm | Hm]; apply Z.ltb_lt in Hm; lia. }
  bool_hyps. rewrite bind_ok. split.
  - intros ([] & Hc & [= <-]). apply check_peers_ok in Hc as [Hc _]. split; [done |].
    split; rewrite ?En, ?Es, ?Ec, ?Ea, ?Eb, ?Ep; try done; cbv zeta; lia.
  - intros (-> & [_ _ _ _ _ _ Hc]). rewrite Ep in Hc. exists tt. split; [| done]. apply check_peers_ok. split; [done |].
    apply Forall_forall. intros ? _ []%elem_of_nil.
Qed.

Lemma check_rooms_ok rs : forall names secrets prefixes rs',
  check_rooms names secrets prefixes rs = Ok rs' <->
  rs' = fill <$> rs /\ rooms_ok rs'
  /\ Forall (fun r => Name r ∉ names /\ Secret r ∉ secrets /\ Forall (fun p => Overlaps p (Masked (Address r)) = false) prefixes) rs'.
Proof.
  induction rs as [| r rs IH]; intros names secrets prefixes rs'; simpl.
  { split; [intros [= <-] | by intros (-> & _)]. split_and!; [done | split; constructor | constructor]. }
  rewrite bind_ok. split.
  - intros (r' & (-> & Hr)%ValidateRoom_ok & H).
    case_bool_decide as Hn; [done |]. case_bool_decide as Hs; [done |].
    destruct (existsb _ _) eqn:Hp; [done |]. apply bind_ok in H as (rs2 & H & [= <-]).
    apply IH in H as (-> & [Hea Hnd Hsd Hsub] & Hall). split; [done |].
    apply existsb_Forall in Hp.
    rewrite Forall_forall in Hall. split.
    + split.
      * by constructor.
      * rewrite fmap_cons. apply NoDup_cons. split; [| done]. intros (q & E & Hq)%list_elem_of_fmap.
        destruct (Hall q Hq) as (Hq' & _ & _). apply Hq'. rewrite <- E. by left.
      * rewrite fmap_cons. apply NoDup_cons. split; [| done]. intros (q & E & Hq)%list_elem_of_fmap.
        destruct (Hall q Hq) as (_ & Hq' & _). apply Hq'. rewrite <- E. by left.
      * constructor; [| done]. apply List.Forall_forall. intros q Hq%list_elem_of_In.
        destruct (Hall q Hq) as (_ & _ & Hq'). apply Forall_app in Hq' as [_ Hq']. by apply Forall_inv in Hq'.
    + constructor; [by split_and! |].
      * apply Forall_forall. intros q Hq. destruct (Hall q Hq) as (H1 & H2 & H3). apply Forall_app in H3 as [H3 _].
        rewrite not_elem_of_cons in H1, H2. tauto.
  - intros (-> & [Hea Hnd Hsd Hsub] & Hall). exists (fill r).
    apply Forall_cons in Hea as [Hr Hea]. apply Forall_cons in Hall as [(Hn & Hs & Hp) Hall].
    rewrite fmap_cons in Hnd, Hsd. apply NoDup_cons in Hnd as [Hn' Hnd], Hsd as [Hs' Hsd].
    inversion Hsub as [| ? ? Hd Hsub']; subst.
    split; [by apply ValidateRoom_ok |]. rewrite !bool_decide_eq_false_2 by done.
    rewrite (proj2 (existsb_Forall _ _)) by done.
    apply bind_ok. exists (fill <$> rs). split; [| done]. apply IH. split_and!; [done | by split |].
    rewrite Forall_forall in *. intros q Hq. destruct (Hall q Hq) as (H1 & H2 & H3).
    rewrite !not_elem_of_cons. split_and!; [| done | | done |].
    + intros E. apply Hn'. rewrite <- E. by apply list_elem_of_fmap_2.
    + intros E. apply Hs'. rewrite <- E. by apply list_elem_of_fmap_2.
    + apply Forall_app. split; [done |]. constructor; [| done]. by apply Hd.
Qed.

(** Validation accepts exactly the valid configurations: it returns the same
    configuration with the default MTU filled in, whose rooms have distinct
    names and secrets, disjoint subnets, peers with distinct keys, and an MTU
    that keeps a datagram with all its wrapping within 1500 bytes. *)
Theorem Validate_spec GOOS c c' :
  Validate GOOS c = Ok c' <-> c' = set_Rooms (fill <$> Rooms c) c /\ config_ok GOOS c'.
Proof.
  unfold Validate.
  destruct (_ || (65535 <? _)) eqn:Hport.
  { split; [done |]. intros (-> & [H]). change (Port (set_Rooms _ c)) with (Port c) in H.
    apply orb_prop in Hport as [Hp | Hp]; apply Z.ltb_lt in Hp; lia. }
  case_bool_decide as Hch; simpl; [| split; [done | by intros (-> & [])]].
  case_bool_decide as Hnat; simpl; [| split; [done | by intros (-> & [])]].
  destruct (_ && negb _) eqn:Hk.
  { split; [done |]. bool_hyps. intros (-> & [_ _ _ Hk]). simpl in Hk. tauto. }
  assert (ExitNAT c = str "kernel" -> GOOS = str "linux") as Hk'.
  { intros E. rewrite (bool_decide_eq_true_2 _ E) in Hk. simpl in Hk. by apply negb_false_iff, bool_decide_eq_true in Hk. }
  clear Hk. destruct (negative _ || _) eqn:Hrate.
  { split; [done |]. intros (-> & [_ _ _ _ [H1 H2]]). simpl in *. rewrite H1, H2 in Hrate. done. }
  destruct (3 <? _) eqn:Hdns.
  { split; [done |]. apply Z.ltb_lt in Hdns. intros (-> & [_ _ _ _ _ Hd]). unfold zlen in *. simpl in Hd. lia. }
  destruct (forallb valid_dns _) eqn:Hsrv; simpl.
  2: { split; [done |]. intros (-> & [_ _ _ _ _ _ H]). simpl in H. apply not_true_iff_false in Hsrv. destruct Hsrv. by apply forallb_Forall. }
  destruct (forallb valid_advertised _) eqn:Hadv; simpl.
  2: { split; [done |]. intros (-> & [_ _ _ _ _ _ _ H]). simpl in H. apply not_true_iff_false in Hadv. destruct Hadv. by apply forallb_Forall. }
  case_bool_decide as Htr; simpl; [| split; [done | by intros (-> & [])]].
  bool_hyps. rewrite bind_ok. split.
  - intros (rs & (-> & Hrs & _)%check_rooms_ok & [= <-]). split; [done |]. split; simpl; try done; try (by apply forallb_Forall).
    + unfold zlen in *. lia.
  - intros (-> & [_ _ _ _ _ _ _ _ _ Hrs]). simpl in Hrs. eexists. split; [| done]. apply check_rooms_ok. split_and!; [done | done |].
    apply Forall_forall. intros r _. split_and!; [by intros []%elem_of_nil | by intros []%elem_of_nil | constructor].
Qed.

End config.
