(* ===== verification/Names.v ===== *)
(** Names of rooms and members: the DNS label of a name (internal/dnsfwd/zone.go)
    and the short interface name of a room ([slug] in internal/node/node.go).
    Both spell a name with Latin letters, digits and hyphens. *)
From stdpp Require Import base gmap list strings.
From Stdlib Require Import ZArith Lia.
From S2P Require Import Prelude GoStrings GoText Netip Config.

Open Scope Z_scope.

Module names.

(** [unicode.ToLower] as far as the spelling depends on it: the runes whose
    lower case is an ASCII or a transliterated letter. *)
Definition lower_rune (r : Z) : Z :=
  if (65 <=? r) && (r <=? 90) then r + 32
  else if r =? 304 then 105
  else if r =? 8490 then 107
  else if (1040 <=? r) && (r <=? 1071) then r + 32
  else if r =? 1025 then 1105
  else r.

(** [translit]: the letters from U+0430 on, and U+0451. *)
Definition translit_table : list bytes :=
  map str ["a"; "b"; "v"; "g"; "d"; "e"; "zh"; "z"; "i"; "y"; "k"; "l"; "m"; "n"; "o"; "p"; "r"; "s"; "t"; "u"; "f";
           "h"; "c"; "ch"; "sh"; "sch"; ""; "y"; ""; "e"; "yu"; "ya"]%string.
Definition translit (r : Z) : bytes :=
  if r =? 1105 then str "e"
  else if (1072 <=? r) && (r <=? 1103) then nth (Z.to_nat (r - 1072)) translit_table []
  else [].

(** The loop: what is written so far and whether it ends in a hyphen written
    for a run of other characters. *)
Definition spell1 (s : bytes * bool) (r : Z) : bytes * bool :=
  let '(out, dash) := s in
  if config.alnum r then (out ++ [r], false)
  else if negb (bool_decide (translit r = [])) then (out ++ translit r, false)
  else if negb (bool_decide (out = [])) && negb dash then (out ++ [45], true)
  else (out, dash).
Definition spell (name : bytes) : bytes := fst (fold_left spell1 (lower_rune <$> runes name) ([], false)).

(** [strings.Trim(s, "-")] *)
Definition TrimDash (s : bytes) : bytes := TrimRight (drop_byte 45 s) 45.

Definition Label (name : bytes) : bytes := TrimDash (take 63 (spell name)).
Definition slug (name : bytes) : bytes := TrimDash (take 11 (spell name)).

(** ** What the names look like *)

Definition label_char (c : Z) : bool := config.alnum c || (c =? 45).

(** The letters, digits and hyphens of a DNS label, at most [n], the first and
    the last one not a hyphen. *)
Definition label_ok (n : nat) (s : bytes) : Prop :=
  Forall (fun c => label_char c = true) s /\ (length s <= n)%nat
  /\ (forall c, head s = Some c -> config.alnum c = true) /\ (forall c, last s = Some c -> config.alnum c = true).

Lemma translit_chars r : Forall (fun c => label_char c = true) (translit r).
Proof.
  unfold translit. destruct (r =? 1105); [repeat constructor |]. destruct (_ && _); [| constructor].
  assert (Forall (Forall (fun c => label_char c = true)) translit_table) as H by (repeat constructor).
  rewrite Forall_forall in H.
  destruct (nth_in_or_default (Z.to_nat (r - 1072)) translit_table []) as [Hin | ->]; [| constructor].
  by apply H, list_elem_of_In.
Qed.

Lemma spell_chars name : Forall (fun c => label_char c = true) (spell name).
Proof.
  unfold spell. generalize (lower_rune <$> runes name). intros rs.
  assert (forall s, Forall (fun c => label_char c = true) s.1 -> Forall (fun c => label_char c = true) (fold_left spell1 rs s).1) as H.
  { induction rs as [| r rs IH]; intros s Hs; [done |]. simpl. apply IH. destruct s as [out dash]. unfold spell1.
    destruct (config.alnum r) eqn:Hr; [simpl; apply Forall_app; split; [done |]; constructor; [| done]; unfold label_char; by rewrite Hr |].
    destruct (negb _); [simpl; apply Forall_app; split; [done | apply translit_chars] |].
    destruct (_ && _); simpl; [apply Forall_app; split; [done |]; by constructor | done]. }
  apply H. constructor.
Qed.

Lemma drop_byte_spec c s : exists k, s = repeat c k ++ drop_byte c s /\ head (drop_byte c s) <> Some c.
Proof.
  induction s as [| x s IH]; simpl; [by exists 0%nat |]. destruct (Z.eqb_spec x c) as [-> | Hne].
  - destruct IH as (k & E & H). exists (S k). simpl. by rewrite <- E.
  - exists 0%nat. split; [done |]. simpl. congruence.
Qed.

Lemma TrimRight_spec c s : exists k, s = TrimRight s c ++ repeat c k /\ last (TrimRight s c) <> Some c.
Proof.
  unfold TrimRight. destruct (drop_byte_spec c (rev s)) as (k & E & H). exists k. split.
  - apply (f_equal (@rev Z)) in E. rewrite rev_involutive, rev_app_distr, rev_repeat in E. done.
  - destruct (drop_byte c (rev s)) as [| x l]; [done |]. simpl. by rewrite last_snoc.
Qed.

Lemma TrimDash_ok n s : Forall (fun c => label_char c = true) s -> (length s <= n)%nat -> label_ok n (TrimDash s).
Proof.
  intros Hs Hn. unfold TrimDash. destruct (drop_byte_spec 45 s) as (k & E & H).
  destruct (TrimRight_spec 45 (drop_byte 45 s)) as (k' & E' & H'). set (t := TrimRight (drop_byte 45 s) 45) in *.
  assert (Forall (fun c => label_char c = true) t) as Ht.
  { rewrite E, Forall_app in Hs. destruct Hs as [_ Hs]. rewrite E', Forall_app in Hs. tauto. }
  assert (forall c, c ∈ t -> c <> 45 -> config.alnum c = true) as Ha.
  { intros c Hc Hne. rewrite Forall_forall in Ht. specialize (Ht c Hc). unfold label_char in Ht.
    apply orb_prop in Ht as [|?%Z.eqb_eq]; done. }
  split_and!; [done | | |].
  - apply (f_equal length) in E, E'. rewrite length_app in E, E'. lia.
  - intros c Hc. apply Ha; [by apply head_Some_elem_of |]. intros ->. apply H. rewrite E'. by destruct t.
  - intros c Hc. apply Ha; [by apply last_Some_elem_of |]. by intros ->.
Qed.

(** A label of a member or room name is empty or a well formed DNS label. *)
Lemma Label_ok name : label_ok 63 (Label name).
Proof. apply TrimDash_ok; [apply Forall_take, spell_chars | rewrite length_take; lia]. Qed.

(** A non-empty slug is a valid room name. *)
Lemma slug_ok name : slug name <> [] -> config.roomNameRe (slug name) = true.
Proof.
  intros Hne. assert (label_ok 11 (slug name)) as (Hc & Hl & Hh & _)
    by (apply TrimDash_ok; [apply Forall_take, spell_chars | rewrite length_take; lia]).
  destruct (slug name) as [| c s]; [done |]. simpl. rewrite (Hh c eq_refl). simpl in Hl.
  apply Forall_cons in Hc as [_ Hc]. apply andb_true_iff. split; [| apply Nat.leb_le; lia].
  by apply forallb_Forall.
Qed.

Example slug_examples : map (slug ∘ str) ["Game Night!"; "--a--b--"; "averyveryverylongname"; "!!"]%string
  = map str ["game-night"; "a-b"; "averyveryve"; ""]%string.
Proof. vm_compute. reflexivity. Qed.

End names.
