(* ===== verification/NodeState.v ===== *)
(** What a node keeps on disk (internal/node/state.go) and the rooms without a
    controller (internal/node/local.go): the owner's node holds the room's
    signing key and signs the configuration itself.

    Time and randomness are arguments. A Go map of keys is a [gmap]; a nil map
    and an empty one are the same. [*LocalRoom] results are the new values. The
    text form of invite links ([net/url]) is outside. *)
From stdpp Require Import base gmap list strings.
From Stdlib Require Import ZArith Lia.
From S2P Require Import Prelude GoStrings GoText Netip Acl Crypto Obfs Identity Pki Store Controller ControllerNet.

Open Scope Z_scope.

Module nodestate.

Definition localPrefix : bytes := str "local:".

Record OffRoom := MkOffRoom { off_ID : bytes; off_Name : bytes }.
Record DNSChoice := MkDNSChoice { Servers : list Addr; dns_Off : bool }.
Record ExitChoice := MkExitChoice {
  exit_Off : bool; exit_Room : bytes; exit_Member : bytes; KillSwitch : bool; AllowLAN : bool }.
Record ControllerState := MkControllerState { URL : bytes; Rooms : gmap bytes bytes }.

Record LocalInvite := MkLocalInvite { TokenHash : bytes; UsesLeft : Z; Expires : Z }.
Record LocalLink := MkLocalLink {
  l_RoomID : bytes; l_RoomKey : bytes; l_Secret : bytes; l_Subnet : Prefix; Token : bytes;
  Owner : bytes; OwnerDisco : bytes; OwnerWG : bytes; OwnerIP : Addr; l_Endpoints : list AddrPort }.
Record LocalJoin := MkLocalJoin { Invite : LocalLink; j_Name : bytes; j_IP : Addr }.
Record LocalRoom := MkLocalRoom {
  RoomID : bytes; Name : bytes; RoomKey : bytes; SignKey : bytes; Config : option pki.Signed;
  Invites : list LocalInvite; Join : option LocalJoin; Peers : gmap bytes controller.Peer }.

Record State := MkState {
  Controllers : list ControllerState; Exit : option ExitChoice; DNS : option DNSChoice;
  Local : list LocalRoom; Off : list OffRoom }.

Definition emptyState : State := MkState [] None None [] [].

Definition set_Controllers (l : list ControllerState) (s : State) : State := MkState l (Exit s) (DNS s) (Local s) (Off s).
Definition set_Local (l : list LocalRoom) (s : State) : State := MkState (Controllers s) (Exit s) (DNS s) l (Off s).
Definition set_Off_list (l : list OffRoom) (s : State) : State := MkState (Controllers s) (Exit s) (DNS s) (Local s) l.

Definition set_Config (c : option pki.Signed) (r : LocalRoom) : LocalRoom :=
  MkLocalRoom (RoomID r) (Name r) (RoomKey r) (SignKey r) c (Invites r) (Join r) (Peers r).
Definition set_Invites (l : list LocalInvite) (r : LocalRoom) : LocalRoom :=
  MkLocalRoom (RoomID r) (Name r) (RoomKey r) (SignKey r) (Config r) l (Join r) (Peers r).
Definition set_Join (j : option LocalJoin) (r : LocalRoom) : LocalRoom :=
  MkLocalRoom (RoomID r) (Name r) (RoomKey r) (SignKey r) (Config r) (Invites r) j (Peers r).
Definition set_Peers (m : gmap bytes controller.Peer) (r : LocalRoom) : LocalRoom :=
  MkLocalRoom (RoomID r) (Name r) (RoomKey r) (SignKey r) (Config r) (Invites r) (Join r) m.
Definition set_SignKey (k : bytes) (r : LocalRoom) : LocalRoom :=
  MkLocalRoom (RoomID r) (Name r) (RoomKey r) k (Config r) (Invites r) (Join r) (Peers r).

(** ** The state file *)

Definition IsOff (s : State) (roomID : bytes) : bool := existsb (fun o => bool_decide (off_ID o = roomID)) (Off s).

Definition SetOff (s : State) (roomID name : bytes) (off : bool) : State :=
  let keep := List.filter (fun o => negb (bool_decide (off_ID o = roomID))) (Off s) in
  set_Off_list (if off then keep ++ [MkOffRoom roomID name] else keep) s.

Definition normURL (u : bytes) : bytes := TrimRight u 47.

Fixpoint pin (l : list ControllerState) (url roomID roomKey : bytes) : list ControllerState :=
  match l with
  | [] => [MkControllerState url {[roomID := roomKey]}]
  | c :: l =>
    if bool_decide (URL c = url) then MkControllerState (URL c) (<[roomID := roomKey]> (Rooms c)) :: l
    else c :: pin l url roomID roomKey
  end.
Definition Pin (s : State) (ctrl roomID roomKey : bytes) : State :=
  set_Controllers (pin (Controllers s) (normURL ctrl) roomID roomKey) s.

Fixpoint unpin (l : list ControllerState) (roomID : bytes) : option bytes * list ControllerState :=
  match l with
  | [] => (None, [])
  | c :: r =>
    match Rooms c !! roomID with
    | Some _ =>
      let rooms := delete roomID (Rooms c) in
      (Some (URL c), if bool_decide (rooms = ∅) then r else MkControllerState (URL c) rooms :: r)
    | None => let '(u, r) := unpin r roomID in (u, c :: r)
    end
  end.
Definition Unpin (s : State) (roomID : bytes) : option bytes * State :=
  let '(u, l) := unpin (Controllers s) roomID in (u, set_Controllers l s).

Definition TrimPrefix (s p : bytes) : bytes := if HasPrefix s p then drop (length p) s else s.

Definition localRoomKey (s : State) (url roomID : bytes) : option bytes :=
  if negb (HasPrefix url localPrefix) || negb (bool_decide (TrimPrefix url localPrefix = roomID)) then None
  else RoomKey <$> List.find (fun r => bool_decide (RoomID r = roomID)) (Local s).

Definition RoomKey_of (s : State) (ctrl roomID : bytes) : option bytes :=
  match localRoomKey s ctrl roomID with
  | Some k => Some k
  | None => c ← List.find (fun c => bool_decide (URL c = normURL ctrl)) (Controllers s); Rooms c !! roomID
  end.

(** ** Rooms without a controller *)

Inductive error : Type :=
  | EPki (e : pki.error) | ENoConfig | ENotAdmin | ENoAddress | ESubnet | EAmbiguous | ENoRoom
  | EUnexpected | EBadIP | ENotNewer | EOther.

(** [strings.EqualFold] is a parameter. *)
Fixpoint find_ref (EqualFold : bytes -> bytes -> bool) (l : list LocalRoom) (ref : bytes) (found : option LocalRoom)
    : res error LocalRoom :=
  match l with
  | [] => match found with Some r => Ok r | None => Err ENoRoom end
  | r :: l =>
    if bool_decide (RoomID r = ref) || EqualFold (Name r) ref then
      match found with Some _ => Err EAmbiguous | None => find_ref EqualFold l ref (Some r) end
    else find_ref EqualFold l ref found
  end.
Definition LocalRoomByRef (EqualFold : bytes -> bytes -> bool) (s : State) (ref : bytes) : res error LocalRoom :=
  find_ref EqualFold (Local s) ref None.

(** [hostAddr] *)
Definition hostAddr (p : Prefix) (n : Z) : res error Addr :=
  b ← As4 (pfx_ip (Masked p));
  Ok (AddrFrom4 (put_be 4 (u32 (be b + n)))).

Definition set_Members (ms : list pki.Member) (c : pki.RoomConfig) : pki.RoomConfig :=
  pki.MkRoomConfig (pki.RoomID c) (pki.RoomName c) (pki.Subnet c) (pki.Secret c) (pki.Version c) (pki.IssuedAt c)
    ms (pki.Broadcast c) (pki.DNS c) (pki.ACL c) (pki.DHT c).
Definition set_Version (v : Z) (c : pki.RoomConfig) : pki.RoomConfig :=
  pki.MkRoomConfig (pki.RoomID c) (pki.RoomName c) (pki.Subnet c) (pki.Secret c) v (pki.IssuedAt c)
    (pki.Members c) (pki.Broadcast c) (pki.DNS c) (pki.ACL c) (pki.DHT c).
Definition set_IssuedAt (t : Z) (c : pki.RoomConfig) : pki.RoomConfig :=
  pki.MkRoomConfig (pki.RoomID c) (pki.RoomName c) (pki.Subnet c) (pki.Secret c) (pki.Version c) t
    (pki.Members c) (pki.Broadcast c) (pki.DNS c) (pki.ACL c) (pki.DHT c).
Definition set_IP (a : Addr) (m : pki.Member) : pki.Member :=
  pki.MkMember (pki.NodeID m) (pki.Name m) (pki.WGKey m) a (pki.Tags m) (pki.Routes m) (pki.Exit m) (pki.ExitDNS m) (pki.Admin m).

(** The loop of [addMember]: [fuel] numbers from [n] on. *)
Fixpoint free_host (fuel : nat) (subnet : Prefix) (used : list Addr) (n : Z) : res error Addr :=
  match fuel with
  | O => Err ENoAddress
  | S fuel =>
    a ← hostAddr subnet n;
    if bool_decide (a ∈ used) then free_host fuel subnet used (n + 1) else Ok a
  end.

(** [addMember]: shifting by a negative count panics. *)
Definition addMember (c : pki.RoomConfig) (m : pki.Member) : res error (Addr * pki.RoomConfig) :=
  match List.find (fun x => bool_decide (pki.NodeID x = pki.NodeID m)) (pki.Members c) with
  | Some x => Ok (pki.IP x, c)
  | None =>
    if 32 <? pfx_bits (pki.Subnet c) then Panic
    else
      let size := u32 (u32 (2 ^ (32 - pfx_bits (pki.Subnet c))) - 2) in
      a ← free_host (Z.to_nat size) (pki.Subnet c) (map pki.IP (pki.Members c)) 1;
      Ok (a, set_Members (pki.Members c ++ [set_IP a m]) c)
  end.

Section Crypto.
Context `{CR : Crypto} `{J : pki.Json}.

Definition config (r : LocalRoom) : res error pki.RoomConfig :=
  match Config r with
  | None => Err ENoConfig
  | Some s => pub ← map_err EPki (pki.ParseRoomKey (RoomKey r)); map_err EPki (pki.VerifyRoomConfig pub s)
  end.

Definition sign (r : LocalRoom) (c : pki.RoomConfig) (now : Z) : res error LocalRoom :=
  if negb (zlen (SignKey r) =? identity.SeedSize) then Err ENotAdmin
  else
    s ← map_err EPki (pki.SignRoomConfig (pki.NewKeyFromSeed (SignKey r)) (set_IssuedAt now c));
    Ok (set_Config (Some s) r).

Definition Update {A} (r : LocalRoom) (change : pki.RoomConfig -> res error (A * pki.RoomConfig)) (now : Z) : res error (A * LocalRoom) :=
  c ← config r;
  ac ← change c;
  r ← sign r (set_Version (int64 (pki.Version ac.2 + 1)) ac.2) now;
  Ok (ac.1, r).

(** [rnd]: the 18 random bytes of the token. *)
Definition NewInvite (r : LocalRoom) (uses ttl now : Z) (rnd : bytes) : res error (bytes * LocalRoom) :=
  if bool_decide (SignKey r = []) then Err ENotAdmin
  else
    let tok := encode64url rnd in
    Ok (tok, set_Invites (Invites r ++ [MkLocalInvite (sha256 tok) (if uses <=? 0 then -1 else uses) (now + ttl)]) r).

Fixpoint use_invite (h : bytes) (now : Z) (l : list LocalInvite) : bool * list LocalInvite :=
  match l with
  | [] => (false, [])
  | i :: l =>
    if bool_decide (TokenHash i = h) && (now <? Expires i) && negb (UsesLeft i =? 0) then
      (true, (if 0 <? UsesLeft i then MkLocalInvite (TokenHash i) (UsesLeft i - 1) (Expires i) else i) :: l)
    else let '(ok, l) := use_invite h now l in (ok, i :: l)
  end.
Definition useInvite (r : LocalRoom) (tok : bytes) (now : Z) : bool * LocalRoom :=
  let '(ok, l) := use_invite (sha256 tok) now (Invites r) in (ok, set_Invites l r).

(** [CreateLocalRoom]: [secret], [seed] and [b] are random; [id] is the seed of
    the node's identity. *)
Definition CreateLocalRoom (s : State) (id name memberName : bytes) (subnet : Prefix) (secret seed : bytes) (b0 b1 now : Z)
    : res error (LocalRoom * State) :=
  let subnet := if PrefixIsValid subnet then subnet
                else PrefixFrom (AddrFrom4 [10; u8 (100 + b0 mod 100); b1; 0]) 24 in
  if negb (Is4 (pfx_ip subnet)) || (29 <? pfx_bits subnet) || (pfx_bits subnet <? 16) || negb (bool_decide (subnet = Masked subnet))
  then Err ESubnet
  else
    let roomID := obfs.RoomID secret in
    let wg := identity.RoomKey id roomID in
    ip ← hostAddr subnet 1;
    let c := pki.MkRoomConfig roomID name subnet secret 1 0
               [pki.MkMember (identity.NodeID id) memberName (identity.Public wg) ip [] [] false false true] [] [] [] false in
    r ← sign (MkLocalRoom roomID name (pki.RoomKeyString (ed_public seed)) seed None [] None ∅) c now;
    Ok (r, set_Local (Local s ++ [r]) s).

End Crypto.

(** ** The state file *)

Lemma find_pin l url rid k u : List.find (fun c => bool_decide (URL c = u)) (pin l url rid k)
  = if decide (url = u)
    then Some (MkControllerState url (<[rid := k]> (match List.find (fun c => bool_decide (URL c = u)) l with Some c => Rooms c | None => ∅ end)))
    else List.find (fun c => bool_decide (URL c = u)) l.
Proof.
  induction l as [| c l IH]; simpl.
  - destruct (decide (url = u)) as [-> |]; [by rewrite bool_decide_eq_true_2 | by rewrite bool_decide_eq_false_2].
  - case_bool_decide as Hc; simpl; case_bool_decide as Hu; destruct (decide (url = u)) as [E |]; try congruence.
Qed.

(** The key pinned for a room at a controller is the one of the last invite:
    recording one changes no other room's key, and the way the address of the
    controller ends does not matter. *)
Theorem RoomKey_Pin s ctrl rid k url rid' : HasPrefix url localPrefix = false ->
  RoomKey_of (Pin s ctrl rid k) url rid' = if decide (normURL url = normURL ctrl /\ rid' = rid) then Some k else RoomKey_of s url rid'.
Proof.
  intros Hl. unfold RoomKey_of, localRoomKey. rewrite Hl. simpl. rewrite find_pin.
  destruct (decide (normURL ctrl = normURL url)) as [E |].
  - simpl. destruct (decide (rid' = rid)) as [-> |].
    + rewrite lookup_insert_eq. by rewrite decide_True.
    + rewrite lookup_insert_ne by done. rewrite decide_False by naive_solver.
      destruct (List.find _ _); simpl; [done | apply lookup_empty].
  - rewrite decide_False by naive_solver. done.
Qed.

(** Turning a room off or on is remembered, and touches no other room. *)
Lemma IsOff_SetOff s rid name off rid' : IsOff (SetOff s rid name off) rid' = if decide (rid' = rid) then off else IsOff s rid'.
Proof.
  unfold IsOff, SetOff. set (f := fun o => negb (bool_decide (off_ID o = rid))).
  assert (existsb (fun o => bool_decide (off_ID o = rid')) (List.filter f (Off s))
    = if decide (rid' = rid) then false else existsb (fun o => bool_decide (off_ID o = rid')) (Off s)) as H.
  { induction (Off s) as [| o l IH]; simpl; [by destruct (decide _) |]. unfold f at 1.
    case_bool_decide as E; simpl; [| rewrite IH; destruct (decide (rid' = rid)) as [-> |]; [by rewrite bool_decide_eq_false_2 | done]].
    rewrite IH. destruct (decide (rid' = rid)); [done |]. by rewrite bool_decide_eq_false_2 by congruence. }
  destruct off; simpl; [| rewrite H; by destruct (decide _)].
  rewrite existsb_app, H. simpl. rewrite orb_false_r. destruct (decide (rid' = rid)) as [-> |]; [by rewrite bool_decide_eq_true_2 |].
  rewrite (bool_decide_eq_false_2 (rid = rid')) by congruence. apply orb_false_r.
Qed.

(** ** The address of a new member *)

Lemma hostAddr_at p v bits n : subnets.subnet_at p v bits -> 0 <= n < 2 ^ (32 - bits) -> hostAddr p n = Ok (Addr4 (v + n)).
Proof.
  intros H Hn. unfold hostAddr. rewrite (subnets.Masked_at p v bits H). destruct H as [-> Hb Hv Ha Ht].
  unfold As4. cbn [pfx_ip Unmap mbind res_bind].
  rewrite be_put_be_small by (change (256 ^ Z.of_nat 4) with (2 ^ 32); lia).
  unfold u32. rewrite Z.mod_small by lia. by rewrite AddrFrom4_As4 by lia.
Qed.

Lemma free_host_at p v bits used : subnets.subnet_at p v bits -> forall fuel n, 0 < n -> n + Z.of_nat fuel <= 2 ^ (32 - bits) ->
  (exists x, free_host fuel p used n = Ok (Addr4 (v + x)) /\ n <= x < n + Z.of_nat fuel /\ Addr4 (v + x) ∉ used
     /\ forall y, n <= y < x -> Addr4 (v + y) ∈ used)
  \/ (free_host fuel p used n = Err ENoAddress /\ forall y, n <= y < n + Z.of_nat fuel -> Addr4 (v + y) ∈ used).
Proof.
  intros H. induction fuel as [| fuel IH]; intros n Hn Hf; [right; split; [done | lia] |].
  cbn [free_host]. rewrite (hostAddr_at p v bits n H) by lia. cbn [mbind res_bind]. case_bool_decide as Hu.
  - destruct (IH (n + 1) ltac:(lia) ltac:(lia)) as [(x & Hx & Hr & Hfree & Hall) | [Hx Hall]].
    + left. exists x. split_and!; try done; try lia. intros y Hy. destruct (decide (y = n)) as [-> |]; [done | apply Hall; lia].
    + right. split; [done |]. intros y Hy. destruct (decide (y = n)) as [-> |]; [done | apply Hall; lia].
  - left. exists n. split_and!; try done; try lia.
Qed.

(** A new member gets the lowest host address of the subnet that is free, and is
    refused only when none is; a member that is there keeps its address. *)
Lemma addMember_at c m v bits : subnets.subnet_at (pki.Subnet c) v bits ->
  (exists x, List.find (fun x => bool_decide (pki.NodeID x = pki.NodeID m)) (pki.Members c) = Some x /\ addMember c m = Ok (pki.IP x, c))
  \/ (Forall (fun x => pki.NodeID x <> pki.NodeID m) (pki.Members c) /\
      ((exists x, addMember c m = Ok (Addr4 (v + x), set_Members (pki.Members c ++ [set_IP (Addr4 (v + x)) m]) c)
          /\ 0 < x < 2 ^ (32 - bits) - 1 /\ Addr4 (v + x) ∉ map pki.IP (pki.Members c)
          /\ forall y, 0 < y < x -> Addr4 (v + y) ∈ map pki.IP (pki.Members c))
       \/ (addMember c m = Err ENoAddress /\ forall y, 0 < y < 2 ^ (32 - bits) - 1 -> Addr4 (v + y) ∈ map pki.IP (pki.Members c)))).
Proof.
  intros H. unfold addMember. destruct (List.find _ _) as [x |] eqn:Hf; [left; eauto |]. right.
  pose proof H as [Hp Hb Hv Ha Ht]. pose proof (subnets.size_range bits Hb) as Hs. split.
  { apply Forall_forall. intros x Hx%list_elem_of_In. pose proof (find_none _ _ Hf x Hx) as E. by apply bool_decide_eq_false in E. }
  rewrite Hp. cbn [pfx_bits]. rewrite (proj2 (Z.ltb_ge 32 bits)) by lia. rewrite <- Hp.
  unfold u32. rewrite (Z.mod_small (2 ^ (32 - bits))), (Z.mod_small (2 ^ (32 - bits) - 2)) by lia.
  destruct (free_host_at (pki.Subnet c) v bits (map pki.IP (pki.Members c)) H (Z.to_nat (2 ^ (32 - bits) - 2)) 1 ltac:(lia) ltac:(lia))
    as [(x & -> & Hr & Hfree & Hall) | [-> Hall]].
  - left. exists x. cbn [mbind res_bind]. split_and!; try done; try lia. intros y Hy. apply Hall. lia.
  - right. split; [done |]. intros y Hy. apply Hall. lia.
Qed.

(** ** The owner of a room *)

Section Owner.
Context `{CL : CryptoLaws} `{J : pki.Json}.

(** JSON carries the document. *)
Definition carried (c : pki.RoomConfig) : Prop := exists p, pki.Marshal c = Some p /\ pki.Unmarshal p = Some c.

(** The node holds the room's key and a configuration that verifies. *)
Record owner (r : LocalRoom) (c : pki.RoomConfig) : Prop := {
  ow_seed : length (SignKey r) = 32%nat;
  ow_bytes : bytes_ok (SignKey r);
  ow_key : RoomKey r = pki.RoomKeyString (ed_public (SignKey r));
  ow_config : config r = Ok c }.

Lemma sign_spec r c now : length (SignKey r) = 32%nat -> bytes_ok (SignKey r) ->
  RoomKey r = pki.RoomKeyString (ed_public (SignKey r)) ->
  let c' := set_IssuedAt now c in carried c' -> pki.config_ok c' ->
  exists s, sign r c now = Ok (set_Config (Some s) r) /\ config (set_Config (Some s) r) = Ok c'.
Proof.
  intros Hl Hb Hk c' (p & Hm & Hu) Hc.
  destruct (pki.SignRoomConfig_spec (SignKey r) p c' Hl Hm) as (s & Hs & _ & Hv). exists s. split.
  - unfold sign. fold c'. rewrite Hs. unfold zlen. rewrite Hl. done.
  - unfold config. cbn [Config set_Config RoomKey]. rewrite Hk, pki.ParseRoomKey_RoomKeyString.
    + cbn. by rewrite (proj2 (Hv Hu) Hc).
    + by apply ed_public_ok.
    + unfold zlen. by rewrite length_ed_public.
Qed.

(** The document that an update signs. *)
Definition updated (c : pki.RoomConfig) (now : Z) : pki.RoomConfig :=
  set_IssuedAt now (set_Version (int64 (pki.Version c + 1)) c).

Lemma Update_owner {A} r c (change : pki.RoomConfig -> res error (A * pki.RoomConfig)) a c1 now :
  owner r c -> change c = Ok (a, c1) -> carried (updated c1 now) -> pki.config_ok c1 ->
  exists s, Update r change now = Ok (a, set_Config (Some s) r) /\ owner (set_Config (Some s) r) (updated c1 now).
Proof.
  intros [Hl Hb Hk Hc] Hch Hcar Hok. unfold Update. rewrite Hc. cbn [mbind res_bind]. rewrite Hch. cbn [mbind res_bind fst snd].
  assert (pki.config_ok (updated c1 now)) as Hok' by by destruct Hok.
  destruct (sign_spec r (set_Version (int64 (pki.Version c1 + 1)) c1) now Hl Hb Hk Hcar Hok') as (s & -> & Hcfg).
  exists s. split; [done |]. by split.
Qed.

Lemma config_ok_add c a m : pki.config_ok c -> Contains (pki.Subnet c) a = true -> a ∉ map pki.IP (pki.Members c) -> pki.Routes m = [] ->
  pki.config_ok (set_Members (pki.Members c ++ [set_IP a m]) c).
Proof.
  intros [H1 H2 H3 H4 H5 H6 H7] Ha Hn Hr. split; simpl; try done.
  - rewrite map_app. apply NoDup_app. split_and!; [done | | apply NoDup_singleton].
    intros x Hx ->%list_elem_of_singleton. done.
  - apply Forall_app. split; [done |]. by constructor.
  - apply Forall_app. split; [done |]. constructor; [| done]. simpl. rewrite Hr. constructor.
Qed.

(** A member without routes can be added whenever an address is free, and the
    configuration stays valid. *)
Lemma addMember_owner c m v bits a c1 : subnets.subnet_at (pki.Subnet c) v bits -> pki.config_ok c -> pki.Routes m = [] ->
  addMember c m = Ok (a, c1) -> pki.config_ok c1 /\ pki.Subnet c1 = pki.Subnet c.
Proof.
  intros H Hok Hr Ha. destruct (addMember_at c m v bits H) as [(x & _ & E) | (_ & [(x & E & Hx & Hf & _) | [E _]])];
    rewrite E in Ha; [by injection Ha as <- <- | | done].
  injection Ha as <- <-. split; [| done]. apply config_ok_add; try done.
  apply (subnets.Contains_at _ v bits _ H). exists (v + x). split; [done | lia].
Qed.

End Owner.

(** ** A new room *)

Section Create.
Context `{CL : CryptoLaws} `{J : pki.Json}.

(** The subnet of a new room: the given one, or a random 10.x.y.0/24. *)
Definition new_subnet (subnet : Prefix) (b0 b1 : Z) : Prefix :=
  if PrefixIsValid subnet then subnet else PrefixFrom (AddrFrom4 [10; u8 (100 + b0 mod 100); b1; 0]) 24.

Definition new_config (id name memberName : bytes) (subnet : Prefix) (secret : bytes) (ip : Addr) (now : Z) : pki.RoomConfig :=
  pki.MkRoomConfig (obfs.RoomID secret) name subnet secret 1 now
    [pki.MkMember (identity.NodeID id) memberName (identity.Public (identity.RoomKey id (obfs.RoomID secret))) ip [] [] false false true]
    [] [] [] false.

Lemma CreateLocalRoom_owner s id name memberName subnet secret seed b0 b1 now v bits :
  length seed = 32%nat -> bytes_ok seed -> subnets.subnet_at (new_subnet subnet b0 b1) v bits ->
  let c := new_config id name memberName (new_subnet subnet b0 b1) secret (Addr4 (v + 1)) now in carried c ->
  exists r, CreateLocalRoom s id name memberName subnet secret seed b0 b1 now = Ok (r, set_Local (Local s ++ [r]) s)
    /\ owner r c /\ RoomID r = obfs.RoomID secret /\ Name r = name.
Proof.
  intros Hl Hb Hsub c Hcar. unfold CreateLocalRoom. fold (new_subnet subnet b0 b1). set (p := new_subnet subnet b0 b1) in *.
  pose proof Hsub as [Hp Hbits Hv Ha Ht]. pose proof (subnets.size_range bits Hbits) as Hs.
  rewrite (subnets.Masked_at p v bits Hsub), bool_decide_eq_true_2 by done. rewrite Hp. cbn [pfx_ip pfx_bits Is4 negb].
  rewrite (proj2 (Z.ltb_ge 29 bits)), (proj2 (Z.ltb_ge bits 16)) by lia. cbn [orb]. rewrite <- Hp.
  rewrite (hostAddr_at p v bits 1 Hsub) by lia. cbn [mbind res_bind].
  set (r0 := MkLocalRoom _ _ _ _ _ _ _ _).
  assert (pki.config_ok c) as Hok.
  { split; simpl; [done | | apply NoDup_singleton | | by repeat constructor | done | constructor].
    - rewrite Hp. apply Z.leb_le. simpl. lia.
    - constructor; [| done]. apply (subnets.Contains_at p v bits _ Hsub). exists (v + 1). split; [done | lia]. }
  destruct (sign_spec r0 (set_IssuedAt 0 c) now Hl Hb eq_refl Hcar Hok) as (sg & Hsg & Hcfg).
  change (set_IssuedAt 0 c) with (pki.MkRoomConfig (obfs.RoomID secret) name p secret 1 0 (pki.Members c) [] [] [] false) in Hsg.
  unfold c in Hsg. cbn [pki.Members new_config] in Hsg. rewrite Hsg. cbn [mbind res_bind].
  eexists. split; [done |]. split_and!; [by split | done | done].
Qed.

(** A new room has its creator as the only member, an admin at the first
    address of the subnet, in a configuration that verifies under the room's new
    key; the subnet must be an IPv4 network of /16 to /29 written with its
    network address. *)
Theorem CreateLocalRoom_spec s id name memberName subnet secret seed b0 b1 now :
  length seed = 32%nat -> bytes_ok seed -> 0 <= b0 < 256 -> 0 <= b1 < 256 -> prefix_ok subnet ->
  let p := new_subnet subnet b0 b1 in
  (CreateLocalRoom s id name memberName subnet secret seed b0 b1 now = Err ESubnet /\ ~ subnets.subnet_ok p)
  \/ exists v bits, subnets.subnet_at p v bits
       /\ let c := new_config id name memberName p secret (Addr4 (v + 1)) now in
          (carried c -> exists r, CreateLocalRoom s id name memberName subnet secret seed b0 b1 now = Ok (r, set_Local (Local s ++ [r]) s)
             /\ owner r c /\ RoomID r = obfs.RoomID secret /\ Name r = name).
Proof.
  intros Hl Hb H0 H1 Hpo p.
  destruct (negb (Is4 (pfx_ip p)) || (29 <? pfx_bits p) || (pfx_bits p <? 16) || negb (bool_decide (p = Masked p))) eqn:Hg.
  - left. split; [unfold CreateLocalRoom; fold (new_subnet subnet b0 b1); fold p; by rewrite Hg |].
    intros (v & bits & H). rewrite (subnets.Masked_at p v bits H), bool_decide_eq_true_2 in Hg by done.
    destruct H as [-> ? _ _ _]. simpl in Hg. rewrite (proj2 (Z.ltb_ge 29 bits)), (proj2 (Z.ltb_ge bits 16)) in Hg by lia. done.
  - right. bool_hyps.
    assert (subnets.subnet_ok p) as (v & bits & Hsub).
    { assert (addr_ok (pfx_ip p)) as Hao.
      { unfold p, new_subnet. destruct (PrefixIsValid subnet); [by destruct Hpo |].
        assert (addr_ok (AddrFrom4 [10; u8 (100 + b0 mod 100); b1; 0])) as Ho.
        { assert (0 <= u8 (100 + b0 mod 100) < 256) by (unfold u8; apply Z.mod_pos_bound; lia).
          unfold AddrFrom4, be. cbn [fold_left addr_ok]. lia. }
        by destruct (PrefixFrom_ok _ 24 Ho). }
      destruct p as [[| v | ? ?] bits]; try done. simpl in *.
      exists v, bits. pose proof (subnets.Masked_subnet v bits Hao ltac:(lia)) as Hm.
      assert (Masked (MkPrefix (Addr4 v) bits) = MkPrefix (Addr4 v) bits) as E by done. rewrite E in Hm.
      pose proof (subnets.a_eq _ _ _ Hm) as Hv. injection Hv as Hv. by rewrite <- Hv in Hm. }
    exists v, bits. split; [done |]. intros c Hc. by apply CreateLocalRoom_owner with (v := v) (bits := bits).
Qed.

End Create.

End nodestate.
