(* ===== verification/Url.v ===== *)
(** Go's [net/url] as far as invitation links use it: [Parse] with the scheme,
    the opaque part, the host and the raw query of a URL, the escapes,
    [ParseQuery] and [Values.Encode].

    The check of an IPv6 literal in brackets is a parameter: only a host that
    has a bracket reaches it. *)
From stdpp Require Import base list strings sorting.
From Stdlib Require Import ZArith Lia.
From S2P Require Import Prelude GoStrings Netip Encoding Bencode.

Open Scope Z_scope.

Module gourl.

(** ** Escapes *)

Definition alnum (c : Z) : bool := is_digit c || (97 <=? c) && (c <=? 122) || (65 <=? c) && (c <=? 90).
Definition one_of (c : Z) (s : bytes) : bool := existsb (Z.eqb c) s.
(** Letters, digits and [-_.~] stand for themselves everywhere. *)
Definition unreserved (c : Z) : bool := alnum c || one_of c [45; 95; 46; 126].
Definition hex_upper (v : Z) : Z := if v <? 10 then 48 + v else 55 + v.

Definition escape1 (c : Z) : bytes :=
  if unreserved c then [c] else if c =? 32 then [43] else [37; hex_upper (c / 16); hex_upper (c mod 16)].
Definition QueryEscape (s : bytes) : bytes := flat_map escape1 s.

(** [shouldEscape(c, encodeHost)] *)
Definition host_char (c : Z) : bool := unreserved c || one_of c [33; 36; 38; 39; 40; 41; 42; 43; 44; 59; 61; 58; 91; 93; 60; 62; 34].

(** [unescape]: in a host only bytes above 127 and the percent sign are
    escaped and some characters are refused; in a query a plus is a space. *)
Fixpoint unescape (host query : bool) (s : bytes) : option bytes :=
  match s with
  | [] => Some []
  | c :: r =>
    if c =? 37 then
      match r with
      | a :: b :: r' =>
        match hex_digit a, hex_digit b with
        | Some x, Some y =>
          if host && (x <? 8) && negb (bool_decide ((a, b) = (50, 53))) then None
          else cons (x * 16 + y) <$> unescape host query r'
        | _, _ => None
        end
      | _ => None
      end
    else if host && (c <? 128) && negb (host_char c) then None
    else cons (if query && (c =? 43) then 32 else c) <$> unescape host query r
  end.
Definition QueryUnescape (s : bytes) : option bytes := unescape false true s.

(** ** Queries *)

Definition Values : Type := list (bytes * bytes).
(** The first value of a key, or nothing. *)
Definition Get (q : Values) (k : bytes) : bytes :=
  match List.find (fun e => bool_decide (e.1 = k)) q with Some e => e.2 | None => [] end.

Definition query_field (s : bytes) : option (bytes * bytes) :=
  if Contains1 s 59 || bool_decide (s = []) then None
  else
    let '(k, v, _) := Cut 61 s in
    k ← QueryUnescape k; v ← QueryUnescape v; Some (k, v).
Definition maxParams : Z := 10000.
(** What [URL.Query] keeps of a query with errors. *)
Definition ParseQuery (s : bytes) : Values :=
  if maxParams <? zlen (Split 38 s) then [] else omap query_field (Split 38 s).

(** [Values.Encode] of a map given by its entries. *)
Definition key_le (a b : bytes * bytes) : Prop := bencode.bytes_le a.1 b.1.
#[export] Instance key_le_dec a b : Decision (key_le a b).
Proof. apply bencode.bytes_le_dec. Defined.
Definition field (e : bytes * bytes) : bytes := QueryEscape e.1 ++ 61 :: QueryEscape e.2.
Definition Encode (q : Values) : bytes := Join 38 (map field (merge_sort key_le q)).

(** ** URLs *)

Record URL := MkURL { Scheme : bytes; Opaque : bytes; Host : bytes; RawQuery : bytes }.

Definition letter (c : Z) : bool := (97 <=? c) && (c <=? 122) || (65 <=? c) && (c <=? 90).
(** [getScheme]: nothing on a missing scheme. *)
Fixpoint scheme_of (first : bool) (acc s whole : bytes) : option (bytes * bytes) :=
  match s with
  | [] => Some ([], whole)
  | c :: r =>
    if letter c then scheme_of false (acc ++ [c]) r whole
    else if is_digit c || one_of c [43; 45; 46] then if first then Some ([], whole) else scheme_of false (acc ++ [c]) r whole
    else if c =? 58 then if first then None else Some (acc, r)
    else Some ([], whole)
  end.
Definition getScheme (s : bytes) : option (bytes * bytes) := scheme_of true [] s s.

Definition validOptionalPort (s : bytes) : bool :=
  match s with [] => true | c :: r => (c =? 58) && forallb is_digit r end.
Definition validUserinfo (s : bytes) : bool :=
  forallb (fun c => alnum c || one_of c [45; 46; 95; 58; 126; 33; 36; 38; 39; 40; 41; 42; 43; 44; 59; 61; 37; 64]) s.

Section Parse.
Context (ip_literal : bytes -> option bytes).

Definition parseHost (host : bytes) : option bytes :=
  if Contains1 host 91 then ip_literal host
  else
    let i := IndexByte host 58 in
    if negb (i <? 0) && negb (validOptionalPort (sub host i (zlen host))) then None
    else unescape true false host.

Definition parseAuthority (a : bytes) : option bytes :=
  let i := LastIndexByte a 64 in
  if i <? 0 then parseHost a
  else
    host ← parseHost (sub a (i + 1) (zlen a));
    let user := sub a 0 i in
    if negb (validUserinfo user) then None
    else let '(name, password, _) := Cut 58 user in
         _ ← unescape false false name; _ ← unescape false false password; Some host.

(** The URL without its fragment. *)
Definition parse (s : bytes) : option URL :=
  if existsb (fun c => (c <? 32) || (c =? 127)) s then None
  else if bool_decide (s = [42]) then Some (MkURL [] [] [] [])
  else
    '(scheme, rest) ← getScheme s;
    let scheme := ToLower scheme in
    let '(rest, query, _) := Cut 63 rest in
    if negb (HasPrefix rest [47]) && negb (bool_decide (scheme = [])) then Some (MkURL scheme rest [] query)
    else if negb (HasPrefix rest [47]) && Contains1 (Cut 47 rest).1.1 58 then None
    else if (negb (bool_decide (scheme = [])) || negb (HasPrefix rest [47; 47; 47])) && HasPrefix rest [47; 47] then
      let '(authority, path, slash) := Cut 47 (drop 2 rest) in
      host ← parseAuthority authority;
      _ ← unescape false false (if slash : bool then 47 :: path else []);
      Some (MkURL scheme [] host query)
    else _ ← unescape false false rest; Some (MkURL scheme [] [] query).

Definition Parse (s : bytes) : option URL :=
  let '(u, frag, _) := Cut 35 s in
  url ← parse u;
  _ ← unescape false false frag; Some url.
End Parse.

Example Parse_examples :
  map (fun s => Parse (fun _ => None) (str s))
    ["HTTPS://zpt.example.org:8443/a?x=1#f"; "zpt:local?a=b"; "://x"; "http://a:b:c/"; "http://u:p@h"; "a b"; "http://a%41/"]%string
  = [Some (MkURL (str "https") [] (str "zpt.example.org:8443") (str "x=1")); Some (MkURL (str "zpt") (str "local") [] (str "a=b"));
     None; None; Some (MkURL (str "http") [] (str "h") []); Some (MkURL [] [] [] []); None].
Proof. vm_compute. reflexivity. Qed.
Example Encode_example : Encode [(str "t", str "a b+c"); (str "c", str "http://x/")] = str "c=http%3A%2F%2Fx%2F&t=a+b%2Bc".
Proof. vm_compute. reflexivity. Qed.

(** ** Lemmas *)

Lemma hex_digit_upper v : 0 <= v < 16 -> hex_digit (hex_upper v) = Some v.
Proof.
  intros Hv. unfold hex_upper, hex_digit, is_digit. destruct (Z.ltb_spec v 10).
  - destruct (Z.leb_spec 48 (48 + v)), (Z.leb_spec (48 + v) 57); try lia. simpl. f_equal. lia.
  - repeat match goal with |- context [?a <=? ?b] => destruct (Z.leb_spec a b) end; simpl; try lia; f_equal; lia.
Qed.

Lemma unreserved_special c : unreserved c = true -> c <> 37 /\ c <> 43 /\ c <> 38 /\ c <> 61 /\ c <> 59 /\ 33 <= c <= 126.
Proof.
  unfold unreserved, alnum, is_digit, one_of. simpl. intros H. repeat (apply orb_prop in H as [H | H]); bool_hyps; try lia; done.
Qed.

Lemma unescape_escape1 c r : byte_ok c -> unescape false true (escape1 c ++ r) = cons c <$> unescape false true r.
Proof.
  intros Hc. unfold byte_ok in Hc. unfold escape1. destruct (unreserved c) eqn:Hu.
  - apply unreserved_special in Hu as (H1 & H2 & _). simpl. by rewrite (proj2 (Z.eqb_neq c 37)), (proj2 (Z.eqb_neq c 43)).
  - destruct (Z.eqb_spec c 32) as [-> | Hs]; [reflexivity |]. cbn [app unescape].
    rewrite !hex_digit_upper by (Z.div_mod_to_equations; lia). cbn [andb].
    replace (c / 16 * 16 + c mod 16) with c by (Z.div_mod_to_equations; lia). done.
Qed.

Lemma QueryUnescape_Escape s : bytes_ok s -> QueryUnescape (QueryEscape s) = Some s.
Proof.
  unfold QueryUnescape, QueryEscape. induction 1 as [| c s Hc Hs IH]; [done |]. simpl. by rewrite unescape_escape1, IH.
Qed.

Lemma hex_upper_range v : 0 <= v < 16 -> 48 <= hex_upper v <= 70 /\ hex_upper v <> 61 /\ hex_upper v <> 59.
Proof. intros Hv. unfold hex_upper. destruct (Z.ltb_spec v 10); lia. Qed.

(** What an escaped text is made of: no separator of queries, no space, no
    fragment mark. *)
Definition query_char (c : Z) : bool := unreserved c || (c =? 37) || (c =? 43).
Lemma QueryEscape_chars s : bytes_ok s -> forallb query_char (QueryEscape s) = true.
Proof.
  unfold QueryEscape. induction 1 as [| c s Hc Hs IH]; [done |]. simpl. rewrite forallb_app, IH, andb_true_r. unfold escape1.
  destruct (unreserved c) eqn:Hu; [simpl; unfold query_char; by rewrite Hu |].
  destruct (c =? 32); [done |]. unfold byte_ok in Hc.
  assert (forall v, 0 <= v < 16 -> query_char (hex_upper v) = true) as Hh.
  { intros v Hv. unfold query_char, unreserved, alnum, is_digit, hex_upper.
    destruct (Z.ltb_spec v 10); repeat match goal with |- context [?a <=? ?b] => destruct (Z.leb_spec a b) end; simpl; try lia; done. }
  simpl. rewrite !Hh by (Z.div_mod_to_equations; lia). done.
Qed.
Lemma query_char_not c d : query_char c = true -> query_char d = false -> c <> d.
Proof. intros Hc Hd ->. congruence. Qed.
Lemma QueryEscape_not_in s d : bytes_ok s -> query_char d = false -> d ∉ QueryEscape s.
Proof.
  intros Hs Hd Hin. pose proof (QueryEscape_chars s Hs) as H. rewrite forallb_forall in H.
  apply list_elem_of_In, H in Hin. congruence.
Qed.

Lemma query_field_field e : bytes_ok e.1 -> bytes_ok e.2 -> query_field (field e) = Some e.
Proof.
  destruct e as [k v]. intros Hk Hv. unfold query_field, field. simpl in *.
  assert (Contains1 (QueryEscape k ++ 61 :: QueryEscape v) 59 = false) as ->.
  { apply not_true_is_false. unfold Contains1. rewrite existsb_exists. intros (x & Hin & <-%Z.eqb_eq).
    apply list_elem_of_In in Hin. rewrite elem_of_app, elem_of_cons in Hin. destruct Hin as [Hin | [Hin | Hin]]; [| done |];
      by apply QueryEscape_not_in in Hin. }
  rewrite bool_decide_eq_false_2 by (by destruct (QueryEscape k)). cbn [orb].
  rewrite Cut_app by (by apply QueryEscape_not_in). by rewrite !QueryUnescape_Escape.
Qed.

Lemma field_not_amp e : bytes_ok e.1 -> bytes_ok e.2 -> 38 ∉ field e.
Proof.
  intros Hk Hv. unfold field. rewrite elem_of_app, elem_of_cons. intros [Hin | [Hin | Hin]]; [| done |]; by apply QueryEscape_not_in in Hin.
Qed.

Lemma omap_fields (q : Values) : Forall (fun e => bytes_ok e.1 /\ bytes_ok e.2) q -> omap query_field (map field q) = q.
Proof. induction 1 as [| e q [Hk Hv] Hq IH]; [done |]. simpl. rewrite query_field_field by done. f_equal. exact IH. Qed.

(** ** Encoding and parsing *)

Lemma ParseQuery_Encode q : q <> [] -> zlen q <= maxParams -> Forall (fun e => bytes_ok e.1 /\ bytes_ok e.2) q ->
  ParseQuery (Encode q) = merge_sort key_le q.
Proof.
  intros Hne Hl Hq. unfold ParseQuery, Encode. pose proof (merge_sort_Permutation key_le q) as Hp.
  assert (Forall (fun e => bytes_ok e.1 /\ bytes_ok e.2) (merge_sort key_le q)) as Hs by (by rewrite Hp).
  rewrite Split_Join.
  - unfold zlen. rewrite length_map, (Permutation_length Hp). fold (zlen q). rewrite (proj2 (Z.ltb_ge _ _)) by done. by apply omap_fields.
  - intros E. apply map_eq_nil in E. rewrite E in Hp. by apply Permutation_nil in Hp.
  - apply Forall_map. eapply Forall_impl; [exact Hs |]. intros e [? ?]. by apply field_not_amp.
Qed.

Lemma find_perm (q q' : Values) k : NoDup q.*1 -> q ≡ₚ q' -> Get q k = Get q' k.
Proof.
  intros Hn Hp. unfold Get.
  assert (forall l : Values, NoDup l.*1 -> forall e, List.find (fun e => bool_decide (e.1 = k)) l = Some e <-> e ∈ l /\ e.1 = k) as Hf.
  { clear. induction l as [| x l IH]; intros Hn e; simpl; [split; [done | intros [H _]; by apply elem_of_nil in H] |].
    apply NoDup_cons in Hn as [Hx Hn]. rewrite elem_of_cons. destruct (bool_decide_reflect (x.1 = k)) as [Hk | Hk].
    - split; [intros [= <-]; auto |]. intros [[-> | Hin] He]; [done |]. destruct Hx. apply list_elem_of_fmap. exists e. split; [congruence | done].
    - rewrite IH by done. split; [tauto |]. intros [[-> | ?] ?]; [done | auto]. }
  assert (NoDup q'.*1) as Hn' by (by rewrite <- Hp).
  destruct (List.find _ q) as [e |] eqn:E.
  - apply Hf in E as [Hin He]; [| done]. assert (List.find (fun e => bool_decide (e.1 = k)) q' = Some e) as -> by (apply Hf; [done | by rewrite <- Hp]). done.
  - destruct (List.find _ q') as [e |] eqn:E'; [| done]. apply Hf in E' as [Hin He]; [| done].
    assert (List.find (fun e => bool_decide (e.1 = k)) q = Some e) as E2 by (apply Hf; [done | by rewrite Hp]). congruence.
Qed.

(** What was encoded is read back. *)
Lemma Get_Encode q k : q <> [] -> zlen q <= maxParams -> NoDup q.*1 -> Forall (fun e => bytes_ok e.1 /\ bytes_ok e.2) q ->
  Get (ParseQuery (Encode q)) k = Get q k.
Proof.
  intros Hne Hl Hn Hq. rewrite ParseQuery_Encode by done. symmetry. apply find_perm; [done |]. by rewrite merge_sort_Permutation.
Qed.

(** The characters of an encoded query. *)
Lemma Encode_chars q : Forall (fun e => bytes_ok e.1 /\ bytes_ok e.2) q ->
  forallb (fun c => query_char c || (c =? 38) || (c =? 61)) (Encode q) = true.
Proof.
  intros Hq. apply forallb_forall. intros x Hx%list_elem_of_In. unfold Encode in Hx. apply elem_of_Join in Hx as [(w & Hw & Hx) | [-> _]]; [| done].
  apply list_elem_of_In, in_map_iff in Hw as (e & <- & He%list_elem_of_In). rewrite merge_sort_Permutation in He.
  rewrite Forall_forall in Hq. destruct (Hq e He) as [Hk Hv]. unfold field in Hx. rewrite elem_of_app, elem_of_cons in Hx.
  pose proof (QueryEscape_chars e.1 Hk) as H1. pose proof (QueryEscape_chars e.2 Hv) as H2. rewrite forallb_forall in H1, H2.
  destruct Hx as [Hx | [-> | Hx]]; [| done |]; apply list_elem_of_In in Hx; by rewrite ?(H1 x Hx), ?(H2 x Hx).
Qed.
End gourl.
