(* ===== verification/Links.v ===== *)
(** Invitation links: "zpt://join?..." of a controller (internal/api/api.go) and
    "zpt://local?..." of a room without one (internal/node/local.go).

    A link that was printed is read back as it was, whatever its fields hold;
    every link that is accepted has such a printed form. *)
From stdpp Require Import base gmap list strings sets.
From Stdlib Require Import ZArith Lia.
From S2P Require Import Prelude GoStrings GoText Netip NetText AddrText Encoding Bencode Crypto Obfs Identity Url Pki Controller NodeState.

Open Scope Z_scope.

Module links.
Import gourl nodestate.

Inductive error : Type :=
  | EForm | EIncomplete | EController (c : bytes) | EKey (e : pki.error) | ESecret | ESubnet | EOwnerDisco | EOwnerWG | EOwnerIP.

(** ** Links of a controller *)

Definition Invite_fields (i : controller.ApiInvite) : Values :=
  [(str "c", controller.i_Controller i); (str "r", controller.i_Room i); (str "k", controller.i_RoomKey i); (str "t", controller.i_Token i)].
Definition Invite_String (i : controller.ApiInvite) : bytes := str "zpt://join?" ++ Encode (Invite_fields i).

Section Literal.
Context (ip_literal : bytes -> option bytes).

(** The URL of a link with the given host, written [zpt://host?...] or [zpt:host?...]. *)
Definition link_query (host s : bytes) : option Values :=
  match Parse ip_literal (TrimSpace s) with
  | Some u =>
    if bool_decide (Scheme u = str "zpt") && (bool_decide (Host u = host) || bool_decide (Opaque u = host))
    then Some (ParseQuery (RawQuery u)) else None
  | None => None
  end.

Definition http_url (c : bytes) : bool :=
  match Parse ip_literal c with
  | Some u => (bool_decide (Scheme u = str "https") || bool_decide (Scheme u = str "http")) && negb (bool_decide (Host u = []))
  | None => false
  end.

Definition ParseInvite (s : bytes) : res error controller.ApiInvite :=
  q ← from_option (link_query (str "join") s) EForm;
  let i := controller.MkApiInvite (TrimRight (Get q (str "c")) 47) (Get q (str "r")) (Get q (str "k")) (Get q (str "t")) in
  if bool_decide (controller.i_Controller i = []) || bool_decide (controller.i_Room i = [])
     || bool_decide (controller.i_RoomKey i = []) || bool_decide (controller.i_Token i = []) then Err EIncomplete
  else if negb (http_url (controller.i_Controller i)) then Err (EController (controller.i_Controller i))
  else _ ← map_err EKey (pki.ParseRoomKey (controller.i_RoomKey i)); Ok i.

(** ** Links of a room without a controller *)

Definition LocalLink_fields (l : LocalLink) : Values :=
  [(str "r", l_RoomID l); (str "k", l_RoomKey l); (str "s", obfs.Secret_String (l_Secret l)); (str "n", Prefix_String (l_Subnet l));
   (str "t", Token l); (str "o", Owner l); (str "d", identity.Key_String (OwnerDisco l)); (str "w", identity.Key_String (OwnerWG l));
   (str "i", Addr_String (OwnerIP l)); (str "e", GoStrings.Join 44 (AddrPort_String <$> l_Endpoints l))].
Definition LocalLink_String (l : LocalLink) : bytes := str "zpt://local?" ++ Encode (LocalLink_fields l).

Context `{CR : Crypto}.

Definition ParseLocalLink (s : bytes) : res error LocalLink :=
  q ← from_option (link_query (str "local") s) EForm;
  _ ← map_err EKey (pki.ParseRoomKey (Get q (str "k")));
  secret ← from_option (obfs.ParseSecret (Get q (str "s"))) ESecret;
  if negb (bool_decide (obfs.RoomID secret = Get q (str "r"))) then Err ESecret
  else
    subnet ← from_option (ParsePrefix (Get q (str "n"))) ESubnet;
    disco ← from_option (identity.ParseKey (Get q (str "d"))) EOwnerDisco;
    wg ← from_option (identity.ParseKey (Get q (str "w"))) EOwnerWG;
    ip ← from_option (ParseAddr (Get q (str "i"))) EOwnerIP;
    if negb (Contains subnet ip) then Err EOwnerIP
    else
      let eps := omap ParseAddrPort (Split 44 (Get q (str "e"))) in
      if bool_decide (Get q (str "t") = []) || bool_decide (Get q (str "o") = []) || bool_decide (eps = []) then Err EIncomplete
      else Ok (MkLocalLink (Get q (str "r")) (Get q (str "k")) secret subnet (Get q (str "t")) (Get q (str "o")) disco wg ip eps).
End Literal.

Example ParseInvite_example : ParseInvite (fun _ => None)
    (str "  zpt:join?c=https%3A%2F%2Fzpt.example.org%2F&r=a1&k=AAAAAAAAAAAAAAAAAAAAAAAAAAAAAAAAAAAAAAAAAAA&t=x+y&bad=%zz ")
  = Ok (controller.MkApiInvite (str "https://zpt.example.org") (str "a1") (str "AAAAAAAAAAAAAAAAAAAAAAAAAAAAAAAAAAAAAAAAAAA") (str "x y")).
Proof. vm_compute. reflexivity. Qed.

(** ** Lemmas *)

Definition printed (q : Values) : Prop := zlen q <= maxParams /\ NoDup q.*1 /\ Forall (fun e => bytes_ok e.1 /\ bytes_ok e.2) q /\ q <> [].

Lemma encoded_graph q : Forall (fun e => bytes_ok e.1 /\ bytes_ok e.2) q -> forallb graph (Encode q) = true /\ 35 ∉ Encode q.
Proof.
  intros Hq. pose proof (Encode_chars q Hq) as H. rewrite forallb_forall in H. split.
  - apply forallb_forall. intros x Hx. specialize (H x Hx). unfold graph. apply orb_prop in H as [H | ->%Z.eqb_eq]; [| done].
    apply orb_prop in H as [H | ->%Z.eqb_eq]; [| done]. unfold query_char in H.
    apply orb_prop in H as [H | ->%Z.eqb_eq]; [| done]. apply orb_prop in H as [H | ->%Z.eqb_eq]; [| done].
    apply unreserved_special in H as (_ & _ & _ & _ & _ & H). apply andb_true_intro. split; apply Z.leb_le; lia.
  - intros Hin. apply list_elem_of_In in Hin. by specialize (H 35 Hin).
Qed.

Lemma graph_no_ctl s : forallb graph s = true -> existsb (fun c => (c <? 32) || (c =? 127)) s = false.
Proof.
  intros Hs. apply not_true_is_false. rewrite existsb_exists. intros (c & Hc & H). rewrite forallb_forall in Hs. specialize (Hs c Hc).
  unfold graph in Hs. apply orb_prop in H as [H | H]; bool_hyps; lia.
Qed.

(** A printed link has the query that was printed. *)
Lemma link_query_printed lit host q : forallb graph host = true -> 35 ∉ host -> 63 ∉ host -> 47 ∉ host -> host <> [] ->
  parseAuthority lit host = Some host -> printed q ->
  exists q', link_query lit host (str "zpt://" ++ host ++ 63 :: Encode q) = Some q' /\ forall k, Get q' k = Get q k.
Proof.
  intros Hg H35 H63 H47 Hne Ha (Hl & Hn & Hq & Hq0). exists (ParseQuery (Encode q)). split; [| intros k; by apply Get_Encode].
  destruct (encoded_graph q Hq) as [Hgq H35q]. generalize dependent (Encode q). intros e Hge H35e.
  assert (forallb graph (str "zpt://" ++ host ++ 63 :: e) = true) as Hall.
  { rewrite !forallb_app. cbn [forallb]. by rewrite Hg, Hge. }
  unfold link_query. rewrite TrimSpace_word by (by apply graph_no_space). unfold Parse.
  rewrite Cut_none; last first.
  { rewrite !elem_of_app, elem_of_cons. intros [H | [H | [H | H]]]; try done. revert H.
    apply (bool_decide_unpack (35 ∉ str "zpt://")). vm_compute. exact I. }
  unfold parse. rewrite graph_no_ctl by done. rewrite bool_decide_eq_false_2 by done.
  change (getScheme (str "zpt://" ++ host ++ 63 :: e)) with (Some (str "zpt", str "//" ++ host ++ 63 :: e)). cbn [mbind option_bind].
  change (ToLower (str "zpt")) with (str "zpt"). rewrite app_assoc, Cut_app.
  2: { rewrite elem_of_app. intros [H | H]; [| done]. revert H. apply (bool_decide_unpack (63 ∉ str "//")). vm_compute. exact I. }
  change (HasPrefix (str "//" ++ host) [47]) with true. change (HasPrefix (str "//" ++ host) [47; 47]) with (HasPrefix host []).
  replace (HasPrefix host []) with true by (by destruct host). cbn [negb andb].
  rewrite (bool_decide_eq_false_2 (str "zpt" = [])) by done. cbn [negb orb andb].
  change (drop 2 (str "//" ++ host)) with host. rewrite Cut_none by done. rewrite Ha. cbn [mbind option_bind unescape].
  cbn [Scheme Host Opaque RawQuery]. by rewrite (bool_decide_eq_true_2 (str "zpt" = str "zpt")), (bool_decide_eq_true_2 (host = host)).
Qed.

Lemma printed_join q lit : printed q -> exists q', link_query lit (str "join") (str "zpt://join?" ++ Encode q) = Some q' /\ forall k, Get q' k = Get q k.
Proof. apply (link_query_printed lit (str "join")); try done; by apply (bool_decide_unpack _); vm_compute. Qed.
Lemma printed_local q lit : printed q -> exists q', link_query lit (str "local") (str "zpt://local?" ++ Encode q) = Some q' /\ forall k, Get q' k = Get q k.
Proof. apply (link_query_printed lit (str "local")); try done; by apply (bool_decide_unpack _); vm_compute. Qed.

Lemma bytes_ok_graph s : forallb graph s = true -> bytes_ok s.
Proof.
  rewrite forallb_forall. intros H. apply Forall_forall. intros x Hx%list_elem_of_In. specialize (H x Hx). unfold graph in H. bool_hyps.
  unfold byte_ok. lia.
Qed.
Lemma bytes_ok_key : forall k, k ∈ map str ["c"; "r"; "k"; "t"; "s"; "n"; "o"; "d"; "w"; "i"; "e"]%string -> bytes_ok k.
Proof. apply Forall_forall. apply (bool_decide_unpack _). vm_compute. exact I. Qed.

Definition endpoint_ok (e : AddrPort) : Prop :=
  addr_ok (ap_addr e) /\ apIsValid e = true /\ 0 <= ap_port e < 65536 /\ bytes_ok (Zone (ap_addr e)) /\ 44 ∉ Zone (ap_addr e).

(** ** What is read consists of bytes *)

Lemma unescape_bytes h q s : forall t, bytes_ok s -> unescape h q s = Some t -> bytes_ok t.
Proof.
  assert (forall n s, (length s <= n)%nat -> forall t, bytes_ok s -> unescape h q s = Some t -> bytes_ok t) as H; [| by apply (H (length s))].
  clear s. induction n as [| n IH]; intros [| c s] Hn t Hs H; simpl in *; simplify_eq; try done; try lia.
  apply Forall_cons in Hs as [Hc Hs]. destruct (c =? 37).
  - destruct s as [| a [| b s]]; try done. destruct (hex_digit a) as [x |] eqn:Ex; [| done]. destruct (hex_digit b) as [y |] eqn:Ey; [| done].
    destruct (h && _ && _); [done |]. apply fmap_Some in H as (r & Hr & ->). apply hex_digit_range in Ex, Ey.
    apply Forall_cons. split; [unfold byte_ok; lia |]. apply (IH s); [simpl in Hn; lia | by inversion_clear Hs as [| ? ? ? H']; inversion_clear H' | done].
  - destruct (h && _ && _); [done |]. apply fmap_Some in H as (r & Hr & ->). apply Forall_cons.
    split; [by destruct (q && _) | apply (IH s); [lia | done | done]].
Qed.

Lemma Get_bytes q k : Forall (fun e => bytes_ok e.1 /\ bytes_ok e.2) q -> bytes_ok (Get q k).
Proof.
  intros Hq. unfold Get. destruct (List.find _ q) as [e |] eqn:E; [| done]. apply find_some in E as [Hin _].
  rewrite Forall_forall in Hq. by apply Hq, list_elem_of_In.
Qed.

Lemma Split_bytes sep s : bytes_ok s -> Forall (fun w => bytes_ok w) (Split sep s).
Proof.
  intros Hs. induction Hs as [| c s Hc Hs IH]; cbn [Split]; [by apply Forall_cons; split |]. destruct (c =? sep); [by apply Forall_cons; split |].
  destruct (Split sep s) as [| w ws] eqn:E; [by apply Split_not_nil in E |]. apply Forall_cons in IH as [Hw Hws]. constructor; [by constructor | done].
Qed.

Lemma Cut_bytes sep s a b ok : Cut sep s = (a, b, ok) -> bytes_ok s -> bytes_ok a /\ bytes_ok b.
Proof.
  revert a b ok. induction s as [| c s IH]; intros a b ok H Hs; simpl in H; [by simplify_eq |]. apply Forall_cons in Hs as [Hc Hs].
  destruct (c =? sep); [by simplify_eq |]. destruct (Cut sep s) as [[a' b'] ok'] eqn:E. simplify_eq.
  destruct (IH _ _ _ eq_refl Hs). split; [by constructor | done].
Qed.

Lemma ParseQuery_bytes s : bytes_ok s -> Forall (fun e => bytes_ok e.1 /\ bytes_ok e.2) (ParseQuery s).
Proof.
  intros Hs. unfold ParseQuery. destruct (_ <? _); [done |]. apply Forall_forall. intros e (w & Hw & He)%list_elem_of_omap.
  pose proof (Split_bytes 38 s Hs) as Hf. rewrite Forall_forall in Hf. specialize (Hf w Hw). unfold query_field in He.
  destruct (_ || _); [done |]. destruct (Cut 61 w) as [[k v] ok] eqn:Ec. destruct (Cut_bytes _ _ _ _ _ Ec Hf) as [Hk Hv].
  apply bind_Some in He as (k' & Ek & He). apply bind_Some in He as (v' & Ev & [= <-]). split; [exact (unescape_bytes _ _ _ _ Hk Ek) | exact (unescape_bytes _ _ _ _ Hv Ev)].
Qed.

Lemma scheme_of_bytes s : forall first acc whole a r, bytes_ok s -> bytes_ok whole -> scheme_of first acc s whole = Some (a, r) -> bytes_ok r.
Proof.
  induction s as [| c s IH]; intros first acc whole a r Hs Hw H; simpl in H; [by simplify_eq |]. apply Forall_cons in Hs as [Hc Hs].
  repeat (case_match; try (by simplify_eq); try (by eapply IH)).
Qed.

Lemma Parse_bytes lit s u : bytes_ok s -> Parse lit s = Some u -> bytes_ok (RawQuery u).
Proof.
  intros Hs H. unfold Parse in H. destruct (Cut 35 s) as [[t frag] ok] eqn:Ec. apply Cut_bytes in Ec as [Ht _]; [| done].
  apply bind_Some in H as (u' & Hp & H). apply bind_Some in H as (_ & _ & [= <-]). unfold parse in Hp.
  destruct (existsb _ t); [done |]. destruct (bool_decide (t = [42])); [by injection Hp as <- |].
  apply bind_Some in Hp as ([scheme rest] & Hsch & Hp). apply scheme_of_bytes in Hsch; [| done ..].
  destruct (Cut 63 rest) as [[r q] ok'] eqn:Eq. apply Cut_bytes in Eq as [_ Hq]; [| done].
  destruct (_ && _); [by injection Hp as <- |]. destruct (_ && _); [done |]. destruct (_ && _).
  - destruct (Cut 47 (drop 2 r)) as [[au pa] sl]. apply bind_Some in Hp as (h & _ & Hp). by apply bind_Some in Hp as (_ & _ & [= <-]).
  - by apply bind_Some in Hp as (_ & _ & [= <-]).
Qed.

Lemma drop_spaces_Forall (P : Z -> Prop) s2 s3 s : Forall P s -> Forall P (drop_spaces s2 s3 s).
Proof.
  assert (forall n s, (length s <= n)%nat -> Forall P s -> Forall P (drop_spaces s2 s3 s)) as H; [| by apply (H (length s))].
  clear s. induction n as [| n IH]; intros [| c s] Hn Hs; simpl in Hn; try lia; try done. pose proof Hs as Hcs.
  apply Forall_cons in Hs as [_ Hs]. cbn [drop_spaces]. destruct (space1 c); [apply IH; [lia | done] |].
  destruct s as [| d s]; [done |]. apply Forall_cons in Hs as [_ Hs]. simpl in Hn. destruct (s2 c d); [apply IH; [lia | done] |].
  destruct s as [| e s]; [done |]. apply Forall_cons in Hs as [_ Hs]. simpl in Hn. destruct (s3 c d e); [apply IH; [lia | done] | done].
Qed.
Lemma TrimSpace_Forall (P : Z -> Prop) s : Forall P s -> Forall P (TrimSpace s).
Proof. intros Hs. unfold TrimSpace, TrimRightSpace, TrimLeftSpace. apply Forall_rev, drop_spaces_Forall, Forall_rev. by apply drop_spaces_Forall. Qed.

Lemma link_query_bytes lit host s q : bytes_ok s -> link_query lit host s = Some q -> Forall (fun e => bytes_ok e.1 /\ bytes_ok e.2) q.
Proof.
  intros Hs H. unfold link_query in H. destruct (Parse lit (TrimSpace s)) as [u |] eqn:E; [| done].
  destruct (_ && _); [| done]. injection H as <-. apply ParseQuery_bytes. eapply Parse_bytes; [| exact E]. by apply TrimSpace_Forall.
Qed.

Lemma group64_bytes cs d n b : group64 cs d n = Some b -> bytes_ok b.
Proof. unfold group64. intros (vs & _ & ->)%fmap_Some. apply put_be_ok. Qed.
Lemma decode64_bytes s : forall b, decode64 s = Some b -> bytes_ok b.
Proof.
  assert (forall n s, (length s <= n)%nat -> forall b, decode64 s = Some b -> bytes_ok b) as H; [| by apply (H (length s))].
  clear s. induction n as [| n IH]; intros [| c1 [| c2 [| c3 [| c4 s]]]] Hn b H; simpl in Hn; try lia; try done; try (by injection H as <-).
  cbn [decode64] in H. destruct (_ && _); [destruct (c3 =? 61); by eapply group64_bytes |].
  destruct (group64 [c1; c2; c3; c4] 0 3) as [x |] eqn:Ex; [| done]. destruct (decode64 s) as [y |] eqn:Ey; [| done]. injection H as <-.
  apply Forall_app. split; [by eapply group64_bytes | apply (IH s); [lia | done]].
Qed.
Lemma ParseSecret_ok v s : obfs.ParseSecret v = Some s -> bytes_ok s /\ zlen s = obfs.SecretLen.
Proof.
  unfold obfs.ParseSecret. destruct (base64_decode _) as [b |] eqn:E; [| done]. destruct (Z.eqb_spec (zlen b) obfs.SecretLen) as [Hl |]; [| done].
  intros [= <-]. split; [by eapply decode64_bytes | done].
Qed.
Lemma ParseKey_ok v k : identity.ParseKey v = Some k -> bytes_ok k /\ zlen k = identity.KeyLen.
Proof.
  unfold identity.ParseKey. destruct (base64_decode _) as [b |] eqn:E; [| done]. destruct (Z.eqb_spec (zlen b) identity.KeyLen) as [Hl |]; [| done].
  intros [= <-]. split; [by eapply decode64_bytes | done].
Qed.

Lemma endpoints_ok s : bytes_ok s -> Forall endpoint_ok (omap ParseAddrPort (Split 44 s)).
Proof.
  intros Hs. apply Forall_forall. intros e (w & Hw & He)%list_elem_of_omap. pose proof (Split_bytes 44 s Hs) as Hb.
  pose proof (Split_not_in 44 s) as Hn. rewrite Forall_forall in Hb, Hn. specialize (Hb w Hw). specialize (Hn w Hw).
  apply ParseAddrPort_ok in He as (H1 & H2 & H3 & Hz). split_and!; try done; try lia.
  - apply Forall_forall. intros x Hx%Hz. rewrite Forall_forall in Hb. by apply Hb.
  - intros Hx%Hz. done.
Qed.

(** ** Links of a controller *)

(** What [CreateInvite] of a controller with a usable address makes. *)
Record valid_invite (lit : bytes -> option bytes) (i : controller.ApiInvite) : Prop := {
  vi_controller : bytes_ok (controller.i_Controller i) /\ TrimRight (controller.i_Controller i) 47 = controller.i_Controller i
    /\ http_url lit (controller.i_Controller i) = true;
  vi_room : bytes_ok (controller.i_Room i) /\ controller.i_Room i <> [];
  vi_key : bytes_ok (controller.i_RoomKey i) /\ exists pub, pki.ParseRoomKey (controller.i_RoomKey i) = Ok pub;
  vi_token : bytes_ok (controller.i_Token i) /\ controller.i_Token i <> [] }.

Lemma ParseRoomKey_not_nil k pub : pki.ParseRoomKey k = Ok pub -> k <> [].
Proof. by intros H ->. Qed.

(** a printed invitation of a controller is read back as it was. *)
Theorem ParseInvite_String lit i : valid_invite lit i -> ParseInvite lit (Invite_String i) = Ok i.
Proof.
  intros [(Hcb & Ht & Hu) [Hrb Hr] [Hkb [pub Hk]] [Htb Htk]].
  destruct (printed_join (Invite_fields i) lit) as (q & Hq & HG).
  { split; [by vm_compute |]. split; [by apply (bool_decide_unpack _); vm_compute |]. split; [| done].
    repeat (apply Forall_cons; split; [split; [apply bytes_ok_key; set_solver | done] |]). done. }
  unfold ParseInvite, Invite_String. rewrite Hq. cbn [from_option mbind res_bind]. rewrite !HG.
  change (Get (Invite_fields i) (str "c")) with (controller.i_Controller i). change (Get (Invite_fields i) (str "r")) with (controller.i_Room i).
  change (Get (Invite_fields i) (str "k")) with (controller.i_RoomKey i). change (Get (Invite_fields i) (str "t")) with (controller.i_Token i).
  rewrite Ht. cbn [controller.i_Controller controller.i_Room controller.i_RoomKey controller.i_Token].
  rewrite (bool_decide_eq_false_2 (controller.i_Controller i = [])) by (intros E; by rewrite E in Hu).
  rewrite (bool_decide_eq_false_2 (controller.i_Room i = [])), (bool_decide_eq_false_2 (controller.i_Token i = [])) by done.
  rewrite (bool_decide_eq_false_2 (controller.i_RoomKey i = [])) by (by eapply ParseRoomKey_not_nil). cbn [orb].
  rewrite Hu, Hk. cbn [negb map_err mbind res_bind]. by destruct i.
Qed.

(** ** Links of a room without a controller *)

Section Local.
Context `{CR : Crypto}.

Record valid_link (l : LocalLink) : Prop := {
  vl_bytes : bytes_ok (l_RoomID l) /\ bytes_ok (l_RoomKey l) /\ bytes_ok (Token l) /\ bytes_ok (Owner l);
  vl_key : exists pub, pki.ParseRoomKey (l_RoomKey l) = Ok pub;
  vl_secret : bytes_ok (l_Secret l) /\ zlen (l_Secret l) = obfs.SecretLen /\ obfs.RoomID (l_Secret l) = l_RoomID l;
  vl_subnet : prefix_ok (l_Subnet l) /\ PrefixIsValid (l_Subnet l) = true;
  vl_disco : bytes_ok (OwnerDisco l) /\ zlen (OwnerDisco l) = identity.KeyLen;
  vl_wg : bytes_ok (OwnerWG l) /\ zlen (OwnerWG l) = identity.KeyLen;
  vl_ip : addr_ok (OwnerIP l) /\ Contains (l_Subnet l) (OwnerIP l) = true;
  vl_token : Token l <> [] /\ Owner l <> [];
  vl_endpoints : l_Endpoints l <> [] /\ Forall endpoint_ok (l_Endpoints l) }.

Lemma Contains_plain p a : Contains p a = true -> IsValid a = true /\ Zone a = [].
Proof.
  unfold Contains. intros H. apply andb_prop in H as [H Hs]. apply andb_prop in H as [_ H]. apply bool_decide_eq_true in H.
  split; [| done]. destruct a; [| done | done]. by destruct (pfx_ip p).
Qed.

Lemma Utoa_bytes n : 0 <= n -> bytes_ok (Utoa n).
Proof. intros Hn. by apply bytes_ok_graph, digits_graph, Utoa_digits. Qed.
Lemma Itoa_bytes n : 0 <= n -> bytes_ok (Itoa n).
Proof. intros Hn. unfold Itoa. rewrite (proj2 (Z.ltb_ge n 0)) by lia. by apply Utoa_bytes. Qed.
Lemma String4_bytes v : 0 <= v -> bytes_ok (String4 v).
Proof.
  intros Hv. unfold String4. repeat (apply Forall_app; split; [apply Utoa_bytes; Z.div_mod_to_equations; lia |]; apply Forall_cons; split; [done |]).
  apply Utoa_bytes. Z.div_mod_to_equations; lia.
Qed.
Lemma hex_digit_byte c : hex_digit c <> None -> byte_ok c.
Proof.
  unfold hex_digit, is_digit, byte_ok. intros H.
  repeat match goal with _ : context [?a <=? ?b] |- _ => destruct (Z.leb_spec a b) end; simpl in H; try lia; done.
Qed.
Lemma Addr_String_bytes a : addr_ok a -> bytes_ok (Zone a) -> bytes_ok (Addr_String a).
Proof.
  destruct a as [| v | v z]; intros Ha Hz; cbn [Addr_String Zone addr_ok] in *.
  - repeat (apply Forall_cons; split; [done |]). done.
  - apply String4_bytes. lia.
  - apply Forall_app. split.
    + destruct (_ =? _).
      * apply Forall_app. split; [by apply bytes_ok_graph | apply String4_bytes, Z.mod_pos_bound; lia].
      * eapply Forall_impl; [apply String6_chars |]. intros c [-> | Hc]; [done | by apply hex_digit_byte].
    + destruct (bool_decide _); [done |]. by apply Forall_cons.
Qed.
Lemma AddrPort_String_bytes e : endpoint_ok e -> bytes_ok (AddrPort_String e) /\ 44 ∉ AddrPort_String e.
Proof.
  destruct e as [a p]. intros (Ha & Hv & Hp & Hz & Hc). unfold AddrPort_String. cbn [ap_addr ap_port] in *.
  assert (bytes_ok (Itoa p)) as Hi by (apply Itoa_bytes; lia).
  assert (44 ∉ Itoa p) as Hi' by (unfold Itoa; rewrite (proj2 (Z.ltb_ge p 0)) by lia; apply Utoa_not_in; lia || done).
  destruct a as [| v | v z]; [done | |].
  - split; [apply Forall_app; split; [apply String4_bytes; simpl in Ha; lia | by apply Forall_cons] |].
    rewrite elem_of_app, elem_of_cons. intros [H | [H | H]]; [by apply String4_chars in H | done | done].
  - split.
    + apply Forall_cons. split; [done |]. apply Forall_app. split; [by apply Addr_String_bytes |]. by repeat (apply Forall_cons; split; [done |]).
    + rewrite elem_of_cons, elem_of_app, !elem_of_cons. intros [H | [H | [H | [H | H]]]]; try done. revert H.
      assert (Addr_String (Addr6 v z) = Addr_String (Addr6 v []) ++ (if bool_decide (z = []) then [] else 37 :: z)) as ->.
      { cbn [Addr_String]. by rewrite (bool_decide_eq_true_2 ([] = [])), app_nil_r. }
      rewrite elem_of_app. intros [H | H]; [by apply (Addr_String_not (Addr6 v []) 44) in H |].
      case_bool_decide; [by apply elem_of_nil in H | apply elem_of_cons in H as [H | H]; done].
Qed.

Lemma endpoints_text l : Forall endpoint_ok l -> Forall (fun s => bytes_ok s /\ 44 ∉ s) (AddrPort_String <$> l).
Proof. intros H. apply Forall_fmap. eapply Forall_impl; [exact H |]. intros e He. by apply AddrPort_String_bytes. Qed.

(** The fields of a valid link are bytes, so they print and read back. *)
Lemma valid_printed l : valid_link l -> printed (LocalLink_fields l).
Proof.
  intros [(Hb1 & Hb2 & Hb3 & Hb4) [pub Hk] (Hs1 & Hs2 & Hs3) [Hp1 Hp2] [Hd1 Hd2] [Hw1 Hw2] [Hi1 Hi2] [Ht Ho] [Hne He]].
  destruct (Contains_plain _ _ Hi2) as [Hi3 Hi4]. pose proof (endpoints_text _ He) as Hes.
  assert (bytes_ok (Prefix_String (l_Subnet l))) as Hpb.
  { unfold Prefix_String. rewrite Hp2. unfold PrefixIsValid in Hp2. apply Z.leb_le in Hp2. destruct Hp1 as (Ha & Hz & _).
    apply Forall_app. split; [apply Addr_String_bytes; [done | by rewrite Hz] |]. apply Forall_cons. split; [done | by apply Itoa_bytes]. }
  split; [by vm_compute |]. split; [by apply (bool_decide_unpack _); vm_compute |]. split; [| done].
    repeat (apply Forall_cons; split; [split; [apply bytes_ok_key; set_solver |] |]); try done; cbn [snd].
    - by apply bytes_ok_graph, graph_encode64.
    - by apply bytes_ok_graph, graph_encode64.
    - by apply bytes_ok_graph, graph_encode64.
    - apply Addr_String_bytes; [done | by rewrite Hi4].
    - apply Forall_forall. intros x [(w & Hw & Hx) | [-> _]]%elem_of_Join; [| done]. rewrite Forall_forall in Hes.
      destruct (Hes w Hw) as [Hwb _]. rewrite Forall_forall in Hwb. by apply Hwb.
Qed.

Lemma TrimSpace_link l : valid_link l -> TrimSpace (LocalLink_String l) = LocalLink_String l.
Proof.
  intros Hl. destruct (valid_printed l Hl) as (_ & _ & Hq & _). apply TrimSpace_word, graph_no_space. unfold LocalLink_String.
  rewrite forallb_app. by destruct (encoded_graph _ Hq) as [-> _].
Qed.

(** a printed link of a room without a controller is read back as it was,
    whatever the room, the token and the addresses, IPv6 ones included. *)
Theorem ParseLocalLink_String lit l : valid_link l -> ParseLocalLink lit (LocalLink_String l) = Ok l.
Proof.
  intros Hval. pose proof Hval as [(Hb1 & Hb2 & Hb3 & Hb4) [pub Hk] (Hs1 & Hs2 & Hs3) [Hp1 Hp2] [Hd1 Hd2] [Hw1 Hw2] [Hi1 Hi2] [Ht Ho] [Hne He]].
  destruct (Contains_plain _ _ Hi2) as [Hi3 Hi4].
  pose proof (endpoints_text _ He) as Hes.
  destruct (printed_local (LocalLink_fields l) lit) as (q & Hq & HG); [by apply valid_printed |].
  unfold ParseLocalLink, LocalLink_String. rewrite Hq. cbn [from_option mbind res_bind]. rewrite !HG.
  change (Get (LocalLink_fields l) (str "r")) with (l_RoomID l). change (Get (LocalLink_fields l) (str "k")) with (l_RoomKey l).
  change (Get (LocalLink_fields l) (str "s")) with (obfs.Secret_String (l_Secret l)). change (Get (LocalLink_fields l) (str "n")) with (Prefix_String (l_Subnet l)).
  change (Get (LocalLink_fields l) (str "t")) with (Token l). change (Get (LocalLink_fields l) (str "o")) with (Owner l).
  change (Get (LocalLink_fields l) (str "d")) with (identity.Key_String (OwnerDisco l)). change (Get (LocalLink_fields l) (str "w")) with (identity.Key_String (OwnerWG l)).
  change (Get (LocalLink_fields l) (str "i")) with (Addr_String (OwnerIP l)).
  change (Get (LocalLink_fields l) (str "e")) with (GoStrings.Join 44 (AddrPort_String <$> l_Endpoints l)).
  rewrite Hk. cbn [map_err mbind res_bind]. rewrite (obfs.ParseSecret_String (l_Secret l)) by done. cbn [from_option mbind res_bind].
  rewrite (bool_decide_eq_true_2 (obfs.RoomID (l_Secret l) = l_RoomID l)) by done. cbn [negb]. rewrite ParsePrefix_String by done. cbn [from_option mbind res_bind].
  rewrite (identity.ParseKey_String (OwnerDisco l)), (identity.ParseKey_String (OwnerWG l)) by done. cbn [from_option mbind res_bind]. rewrite ParseAddr_String by done. cbn [from_option mbind res_bind].
  rewrite Hi2. cbn [negb]. rewrite Split_Join; last first.
  { eapply Forall_impl; [exact Hes |]. by intros s [_ ?]. }
  { by destruct (l_Endpoints l). }
  assert (omap ParseAddrPort (AddrPort_String <$> l_Endpoints l) = l_Endpoints l) as ->.
  { clear Hne Hes. induction He as [| e es (Hoa & Hov & Hop & _) Hes IH]; [done |]. simpl. rewrite ParseAddrPort_String by done. f_equal. exact IH. }
  rewrite !bool_decide_eq_false_2 by done. by destruct l.
Qed.

(** what the parser accepts is valid, so it has a printed form. *)
Theorem ParseLocalLink_ok lit s l : bytes_ok s -> ParseLocalLink lit s = Ok l -> valid_link l.
Proof.
  intros Hs H. unfold ParseLocalLink in H. apply bind_ok in H as (q & Hq & H).
  destruct (link_query lit (str "local") s) as [q' |] eqn:E; [| done]. injection Hq as ->. apply link_query_bytes in E; [| done].
  assert (forall k, bytes_ok (Get q k)) as HG by (intros k; by apply Get_bytes).
  apply bind_ok in H as (pub & Hk & H). destruct (pki.ParseRoomKey (Get q (str "k"))) as [pub' | |] eqn:Ek; try done.
  apply bind_ok in H as (sec & Hsec & H). destruct (obfs.ParseSecret _) as [sec' |] eqn:Es; [| done]. injection Hsec as ->. apply ParseSecret_ok in Es as [Hs1 Hs2].
  destruct (bool_decide_reflect (obfs.RoomID sec = Get q (str "r"))) as [Hr |]; [| done]. cbn [negb] in H.
  apply bind_ok in H as (sub & Hsub & H). destruct (ParsePrefix _) as [sub' |] eqn:Ep; [| done]. injection Hsub as ->. apply ParsePrefix_ok in Ep as [Hp1 Hp2].
  apply bind_ok in H as (disco & Hd & H). destruct (identity.ParseKey (Get q (str "d"))) as [disco' |] eqn:Ed; [| done]. injection Hd as ->. apply ParseKey_ok in Ed.
  apply bind_ok in H as (wg & Hw & H). destruct (identity.ParseKey (Get q (str "w"))) as [wg' |] eqn:Ew; [| done]. injection Hw as ->. apply ParseKey_ok in Ew.
  apply bind_ok in H as (ip & Hi & H). destruct (ParseAddr _) as [ip' |] eqn:Ei; [| done]. injection Hi as ->. apply ParseAddr_ok in Ei as (Hi & _).
  destruct (Contains sub ip) eqn:Ec; [| done]. cbn [negb] in H.
  pose proof (endpoints_ok _ (HG (str "e"))) as He.
  set (eps := omap ParseAddrPort _) in *. clearbody eps.
  destruct (bool_decide_reflect (Get q (str "t") = [])); [done |]. destruct (bool_decide_reflect (Get q (str "o") = [])); [done |].
  destruct (bool_decide_reflect (eps = [])); [done |]. injection H as <-.
  split; simpl; try done. by exists pub'.
Qed.

(** every accepted link prints as a link with the same contents. *)
Theorem ParseLocalLink_normal lit s l : bytes_ok s -> ParseLocalLink lit s = Ok l -> ParseLocalLink lit (LocalLink_String l) = Ok l.
Proof. intros Hs H. apply ParseLocalLink_String. by eapply ParseLocalLink_ok. Qed.
End Local.
End links.
