(* ===== verification/LocalSync.v ===== *)
(** Joining a room without a controller, and the cards with which members find
    each other (internal/node/localsync.go, cards.go, admins.go).

    The state file is passed through the handlers; [saved] says whether writing
    it succeeded. JSON is a parameter: [GossipJson] holds the encoders and
    decoders of the documents exchanged here. Time and randomness are
    arguments; a handler returns the packets it sends and whether it asked for
    a reload. *)
From stdpp Require Import base gmap list strings.
From Stdlib Require Import ZArith Lia.
From S2P Require Import Prelude GoStrings GoText Netip Encoding Acl Crypto Obfs Identity Disco Pki Store Controller ControllerNet DiscoMgr NodeState.

Open Scope Z_scope.

Module localsync.
Import nodestate.

Record joinRequest := MkJoinRequest {
  q_RoomID : bytes; q_Token : bytes; q_Name : bytes; q_EdKey : bytes; WGKey : bytes;
  q_Endpoints : list AddrPort; q_Sig : bytes }.
Record joinReply := MkJoinReply { p_RoomID : bytes; OK : bool; p_IP : Addr; Error : bytes }.

Record peerCard := MkPeerCard {
  c_RoomID : bytes; c_NodeID : bytes; c_EdKey : bytes; Disco : bytes; Endpoints : list AddrPort; Issued : Z; c_Sig : bytes }.

(** The cards of one room, by node. *)
Abbreviation cards := (gmap bytes peerCard).

Class GossipJson := {
  marshal_request : joinRequest -> option bytes; unmarshal_request : bytes -> option joinRequest;
  marshal_reply : joinReply -> bytes; unmarshal_reply : bytes -> option joinReply }.

(** [AddrPort.String] *)
Definition AddrPort_String (a : AddrPort) : bytes :=
  match ap_addr a with
  | AddrZero => str "invalid AddrPort"
  | Addr4 v => String4 v ++ 58 :: Utoa (ap_port a)
  | Addr6 _ _ => 91 :: Addr_String (ap_addr a) ++ 93 :: 58 :: Utoa (ap_port a)
  end.

Definition request_signedPart (r : joinRequest) : bytes :=
  str "zpt-join-v1|" ++ q_RoomID r ++ 124 :: q_Token r ++ 124 :: q_Name r ++ 124 :: identity.Key_String (WGKey r).

Definition card_signedPart (c : peerCard) : bytes :=
  str "zpt-card-v1" ++ 10 :: c_RoomID c ++ 10 :: c_NodeID c ++ 10 :: identity.Key_String (Disco c) ++ 10 ::
  GoStrings.Join 44 (AddrPort_String <$> Endpoints c) ++ 10 :: Itoa (Issued c).

(** [modifyLocal]: the first room with the ID is changed and the file written. *)
Fixpoint modify {A} (l : list LocalRoom) (roomID : bytes) (fn : LocalRoom -> res error (A * LocalRoom)) : res error (A * list LocalRoom) :=
  match l with
  | [] => Err ENoRoom
  | r :: l =>
    if bool_decide (RoomID r = roomID) then ar ← fn r; Ok (ar.1, ar.2 :: l)
    else al ← modify l roomID fn; Ok (al.1, r :: al.2)
  end.
Definition modifyLocal {A} (s : State) (roomID : bytes) (fn : LocalRoom -> res error (A * LocalRoom)) : res error (A * State) :=
  al ← modify (Local s) roomID fn; Ok (al.1, set_Local al.2 s).

(** ** Cards *)

Definition cardTTL : Z := 2 * 60 * Minute.
Definition maxCardAddrs : Z := 12.
Definition maxCards : nat := 256.
#[global] Arguments maxCards : simpl never.

(** [time.Unix(sec, 0)] against [now]: the seconds since year 1 wrap around. *)
Definition unixToInternal : Z := 62135596800.
Definition unix_time (sec : Z) : Z := (int64 (sec + unixToInternal) - unixToInternal) * Second.

Section Crypto.
Context `{CR : Crypto}.

Inductive card_error : Type := CRoom | CKey | CSig | CTime | CAddrs.

Definition verify (c : peerCard) (roomID : bytes) (now : Z) : res card_error unit :=
  if negb (bool_decide (c_RoomID c = roomID)) then Err CRoom
  else match base64_decode (c_EdKey c) with
  | None => Err CKey
  | Some pub =>
    if negb (zlen pub =? pki.PublicKeySize) || negb (bool_decide (identity.NodeIDFromPublic pub = c_NodeID c)) then Err CKey
    else match base64_decode (c_Sig c) with
    | None => Err CSig
    | Some sig =>
      if negb (ed_verify pub (card_signedPart c) sig) then Err CSig
      else
        let t := unix_time (Issued c) in
        if (now + 5 * Minute <? t) || (cardTTL <? time_sub now t) then Err CTime
        else if identity.IsZero (Disco c) || bool_decide (Endpoints c = []) || (maxCardAddrs <? zlen (Endpoints c)) then Err CAddrs
        else Ok tt
    end
  end.

(** One card of a merge: the cards kept and the fresh ones. *)
Definition merge1 (me roomID : bytes) (members : gset bytes) (now : Z) (s : cards * list peerCard) (c : peerCard) : cards * list peerCard :=
  let '(known, fresh) := s in
  if bool_decide (c_NodeID c = me) || negb (bool_decide (c_NodeID c ∈ members)) || negb (is_ok (verify c roomID now)) then s
  else if match known !! c_NodeID c with Some old => Issued c <=? Issued old | None => false end then s
  else if (maxCards <=? size known)%nat then s
  else (<[c_NodeID c := c]> known, fresh ++ [c]).

(** [mergeCards]: the cards kept, the hints for disco and the cards for the
    state file of a local room. *)
Definition mergeCards (me roomID : bytes) (members : gset bytes) (now : Z) (known : cards) (l : list peerCard) : cards * list peerCard :=
  fold_left (merge1 me roomID members now) l (known, []).

Definition give_hints (d : discomgr.discoMgr) (fresh : list peerCard) : discomgr.discoMgr :=
  fold_left (fun d c => discomgr.addGossipHints d (c_NodeID c) (Endpoints c)) fresh d.

(** [learnLocalPeers] on the room: whether something changed, and the room. *)
Definition same_card (p : controller.Peer) (c : peerCard) : bool :=
  bool_decide (controller.pr_DiscoKey p = Disco c) && bool_decide (controller.pr_Locals p = Endpoints c).
Definition card_peer (c : peerCard) : controller.Peer :=
  controller.MkPeer AddrZero 0 (Endpoints c) [] AddrPortZero [] (Disco c) [] false.
Definition learn1 (s : bool * gmap bytes controller.Peer) (c : peerCard) : bool * gmap bytes controller.Peer :=
  match s.2 !! c_NodeID c with
  | Some old => if same_card old c then s else (true, <[c_NodeID c := card_peer c]> s.2)
  | None => (true, <[c_NodeID c := card_peer c]> s.2)
  end.
Definition learnLocalPeers (r : LocalRoom) (l : list peerCard) : res error (unit * LocalRoom) :=
  let '(changed, ps) := fold_left learn1 l (false, Peers r) in
  if changed : bool then Ok (tt, set_Peers ps r) else Err EOther.

(** [cardsFor]: ours and the fresh ones of members; [known] in some order. *)
Definition cardsFor (mine : option peerCard) (members : gset bytes) (now : Z) (known : list peerCard) : list peerCard :=
  match mine with Some c => [c] | None => [] end
  ++ List.filter (fun c => (time_sub now (unix_time (Issued c)) <? cardTTL) && bool_decide (c_NodeID c ∈ members)) known.

(** [myCard] *)
Definition myCard (id roomID disco : bytes) (eps : list AddrPort) (now : Z) : option peerCard :=
  if bool_decide (eps = []) then None
  else
    let c := MkPeerCard roomID (identity.NodeID id) (encode64 (identity.PublicKey id)) disco eps (pki.Unix now) [] in
    Some (MkPeerCard (c_RoomID c) (c_NodeID c) (c_EdKey c) (Disco c) (Endpoints c) (Issued c)
            (encode64 (identity.Sign id (card_signedPart c)))).

(** ** Joining *)

Context `{J : pki.Json} `{GJ : GossipJson}.

(** [sendJoin]: the data of the request; the random values seal the packets. *)
Definition request (id token name roomID : bytes) (locals : list AddrPort) : joinRequest :=
  let r := MkJoinRequest roomID token name (encode64 (identity.PublicKey id)) (identity.Public (identity.RoomKey id roomID)) locals [] in
  MkJoinRequest (q_RoomID r) (q_Token r) (q_Name r) (q_EdKey r) (WGKey r) (q_Endpoints r)
    (encode64 (identity.Sign id (request_signedPart r))).

Definition join_data (id : bytes) (link : LocalLink) (name : bytes) (locals : list AddrPort) : option bytes :=
  data ← marshal_request (request id (Token link) name (l_RoomID link) locals);
  if disco.MaxData <? zlen data then None else Some data.

(** The limiter of joins: when its second began and the requests in it. *)
Record limiter := MkLimiter { at_ : Z; cnt : Z }.
Definition limit (l : limiter) (now : Z) : bool * limiter :=
  let l := if Second <? time_sub now (at_ l) then MkLimiter now 0 else l in
  let l := MkLimiter (at_ l) (cnt l + 1) in
  (20 <? cnt l, l).

(** The texts of the refusals. *)
Context (bad_invite : bytes) (text : error -> bytes).

Definition peer_from (sender : bytes) (from : AddrPort) (eps : list AddrPort) : controller.Peer :=
  controller.MkPeer AddrZero 0 (take 8 eps) [from] AddrPortZero [] sender [] false.

(** The change of the room that a valid request makes, and the reply. *)
Definition accept (req : joinRequest) (nodeID sender : bytes) (from : AddrPort) (now : Z) (r : LocalRoom)
    : res error (joinReply * LocalRoom) :=
  let rep := MkJoinReply (q_RoomID req) in
  if bool_decide (SignKey r = []) then Err ENotAdmin
  else
    c ← config r;
    match List.find (fun m => bool_decide (pki.NodeID m = nodeID)) (pki.Members c) with
    | Some m => Ok (rep true (pki.IP m) [], r)
    | None =>
      let '(ok, r) := useInvite r (q_Token req) now in
      if negb ok then Ok (rep false AddrZero bad_invite, r)
      else
        let name := if bool_decide (q_Name req = []) || (40 <? zlen (q_Name req)) then take 8 nodeID else q_Name req in
        let m := pki.MkMember nodeID name (WGKey req) AddrZero [] [] false false false in
        match Update r (fun c => addMember c m) now with
        | Ok (ip, r) => Ok (rep true ip [], set_Peers (<[nodeID := peer_from sender from (q_Endpoints req)]> (Peers r)) r)
        | Err e => Ok (rep false (match addMember c m with Ok (a, _) => a | _ => AddrZero end) (text e), r)
        | Panic => Panic
        end
    end.

(** Who signed the request; [None]: nobody. *)
Definition request_node (req : joinRequest) : option bytes :=
  ed ← base64_decode (q_EdKey req);
  sig ← base64_decode (q_Sig req);
  if (zlen ed =? pki.PublicKeySize) && ed_verify ed (request_signedPart req) sig then Some (identity.NodeIDFromPublic ed) else None.

(** [handleJoin]: the reply and where it goes (sealed for the sender), the
    state and whether the node reloads it. *)
Definition handleJoin (s : State) (l : limiter) (now : Z) (sender data : bytes) (from : AddrPort) (saved : bool)
    : res error (option joinReply * State * limiter * bool) :=
  let '(over, l) := limit l now in
  if over : bool then Ok (None, s, l, false)
  else match (req ← unmarshal_request data; node ← request_node req; Some (req, node)) with
  | None => Ok (None, s, l, false)
  | Some (req, nodeID) =>
    match modifyLocal s (q_RoomID req) (accept req nodeID sender from now) with
    | Panic => Panic
    | Err _ => Ok (None, s, l, false)
    | Ok (rep, s') =>
      let s' := if saved then s' else s in
      if negb saved && negb (OK rep) && bool_decide (Error rep = []) then Ok (None, s', l, false)
      else Ok (Some rep, s', l, OK rep)
    end
  end.

(** The change of the room that a reply makes. *)
Definition on_reply (sender : bytes) (rep : joinReply) (r : LocalRoom) : res error (unit * LocalRoom) :=
  match nodestate.Join r with
  | Some j =>
    if negb (bool_decide (OwnerDisco (Invite j) = sender)) || IsValid (j_IP j) then Err EUnexpected
    else if negb (OK rep) then Ok (tt, set_Join None r)
    else if negb (Contains (l_Subnet (Invite j)) (p_IP rep)) then Err EBadIP
    else Ok (tt, set_Join (Some (MkLocalJoin (Invite j) (j_Name j) (p_IP rep))) r)
  | None => Err EUnexpected
  end.

Definition handleJoinReply (s : State) (sender data : bytes) : State * bool :=
  match unmarshal_reply data with
  | None => (s, false)
  | Some rep => match modifyLocal s (p_RoomID rep) (on_reply sender rep) with
                | Ok (_, s') => (s', true)
                | _ => (s, false)
                end
  end.

(** The change of the room that a signed configuration makes. *)
Definition newer_config (doc : pki.Signed) (r : LocalRoom) : res error (unit * LocalRoom) :=
  pub ← map_err EPki (pki.ParseRoomKey (RoomKey r));
  c ← map_err EPki (pki.VerifyRoomConfig pub doc);
  let stale := match Config r with
               | Some old => match pki.VerifyRoomConfig pub old with
                             | Ok o => pki.Version c <=? pki.Version o
                             | _ => false
                             end
               | None => false
               end in
  if stale : bool then Err ENotNewer
  else
    let r := set_Config (Some doc) r in
    Ok (tt, match nodestate.Join r with
            | Some j => set_Join None (set_Peers (<[Owner (Invite j) :=
                          controller.MkPeer AddrZero 0 (l_Endpoints (Invite j)) [] AddrPortZero [] (OwnerDisco (Invite j)) [] false]> (Peers r)) r)
            | None => r
            end).

Definition persistLocal (s : State) (roomID : bytes) (doc : pki.Signed) : State * bool :=
  match modifyLocal s roomID (newer_config doc) with
  | Ok (_, s') => (s', true)
  | _ => (s, false)
  end.

(** ** The signing key among admins *)

(** [serveSignKey]: [admins] are the admins' addresses in the signed
    configuration. *)
Definition serveSignKey (EqualFold : bytes -> bytes -> bool) (s : State) (roomID : bytes) (admins : list Addr) (from : Addr) : option bytes :=
  if negb (bool_decide (Unmap from ∈ admins)) then None
  else match LocalRoomByRef EqualFold s roomID with
       | Ok r => if zlen (SignKey r) =? identity.SeedSize then Some (encode64 (SignKey r) ++ [10]) else None
       | _ => None
       end.

(** [fetchSignKey]: what is made of the answer. *)
Definition accept_key (pinned line : bytes) : option bytes :=
  seed ← base64_decode (TrimSpace line);
  if (zlen seed =? identity.SeedSize) && bool_decide (pki.RoomKeyString (ed_public seed) = pinned) then Some seed else None.

(** [ensureSignKey]: whom a node without the key asks. *)
Definition key_admins (r : LocalRoom) (c : pki.RoomConfig) (me : bytes) : list Addr :=
  if negb (bool_decide (SignKey r = [])) then []
  else
    let mine := List.filter (fun m => bool_decide (pki.NodeID m = me)) (pki.Members c) in
    if match last mine with Some m => pki.Admin m | None => false end
    then map pki.IP (List.filter (fun m => negb (bool_decide (pki.NodeID m = me)) && pki.Admin m) (pki.Members c))
    else [].

End Crypto.

(** ** Cards *)

(** A card that a member signed for the room: its node ID is the one of the key
    that signed it, and it is not older than two hours. *)
Record card_valid `{CR : Crypto} (c : peerCard) (roomID : bytes) (now : Z) : Prop := {
  cv_room : c_RoomID c = roomID;
  cv_signed : exists pub sig, base64_decode (c_EdKey c) = Some pub /\ zlen pub = pki.PublicKeySize
    /\ identity.NodeIDFromPublic pub = c_NodeID c /\ base64_decode (c_Sig c) = Some sig
    /\ ed_verify pub (card_signedPart c) sig = true;
  cv_time : unix_time (Issued c) <= now + 5 * Minute /\ time_sub now (unix_time (Issued c)) <= cardTTL;
  cv_disco : identity.IsZero (Disco c) = false;
  cv_addrs : 0 < zlen (Endpoints c) <= maxCardAddrs }.

Lemma verify_spec `{CR : Crypto} c roomID now : verify c roomID now = Ok tt <-> card_valid c roomID now.
Proof.
  unfold verify. split.
  - case_bool_decide as Hr; simpl; [| done]. destruct (base64_decode (c_EdKey c)) as [pub |] eqn:Hk; [| done].
    destruct (_ || _) eqn:Hp; [done |]. destruct (base64_decode (c_Sig c)) as [sig |] eqn:Hsig; [| done].
    destruct (ed_verify _ _ _) eqn:Hv; simpl; [| done]. destruct ((_ <? _) || (cardTTL <? _)) eqn:Ht; [done |].
    destruct (identity.IsZero (Disco c)) eqn:Hd; [done |]. destruct (bool_decide (Endpoints c = [])) eqn:He; [done |]. simpl.
    destruct (Z.ltb_spec maxCardAddrs (zlen (Endpoints c))); [done |]. intros _. bool_hyps.
    split; try done; [by exists pub, sig |].
    split; [| done]. unfold zlen. destruct (Endpoints c); [done |]. simpl. lia.
  - intros [Hr (pub & sig & Hk & Hp & Hn & Hsig & Hv) Ht Hd Ha]. rewrite bool_decide_eq_true_2 by done. simpl.
    rewrite Hk, Hp, Hsig, Hv. rewrite bool_decide_eq_true_2 by done. simpl.
    rewrite (proj2 (Z.ltb_ge _ _)), (proj2 (Z.ltb_ge _ _)) by lia. simpl. rewrite Hd. simpl.
    rewrite bool_decide_eq_false_2 by (intros E; rewrite E in Ha; unfold zlen in Ha; simpl in Ha; lia).
    by rewrite (proj2 (Z.ltb_ge _ _)) by lia.
Qed.

Section Merge.
Context `{CR : Crypto} (me roomID : bytes) (members : gset bytes) (now : Z).

(** The state of a merge that began with the cards [known0]. *)
Record merging (known0 : cards) (l : list peerCard) (s : cards * list peerCard) : Prop := {
  mg_from : forall id c, s.1 !! id = Some c -> c_NodeID c = id /\ c ∈ s.2 \/ known0 !! id = Some c;
  mg_newer : forall id c0, known0 !! id = Some c0 -> exists c, s.1 !! id = Some c /\ Issued c0 <= Issued c;
  mg_fresh : forall c, c ∈ s.2 -> c ∈ l /\ c_NodeID c <> me /\ c_NodeID c ∈ members /\ card_valid c roomID now;
  mg_size : (size s.1 <= Nat.max (size known0) maxCards)%nat }.

Lemma merge1_ok known0 l s c : c ∈ l -> merging known0 l s -> merging known0 l (merge1 me roomID members now s c).
Proof.
  intros Hc Hm. destruct s as [known fresh]. unfold merge1.
  destruct (_ || _ || _) eqn:Hg; [done |]. bool_hyps.
  destruct (match known !! _ with Some _ => _ | None => _ end) eqn:Ho; [done |].
  destruct (Nat.leb_spec maxCards (size known)); [done |].
  assert (card_valid c roomID now) as Hv by (apply verify_spec; by destruct (verify c roomID now) as [[] | |]).
  destruct Hm as [Hf Hn Hfr Hs]. split; simpl in *.
  - intros id c'. destruct (decide (id = c_NodeID c)) as [-> |].
    + rewrite lookup_insert_eq. intros [= <-]. left. split; [done |]. apply elem_of_app. right. by left.
    + rewrite lookup_insert_ne by done. intros Hl. destruct (Hf id c' Hl) as [[? ?] | ?]; [left | by right].
      split; [done |]. apply elem_of_app. by left.
  - intros id c0 Hc0. destruct (Hn id c0 Hc0) as (c1 & Hc1 & Hle). destruct (decide (id = c_NodeID c)) as [-> |].
    + exists c. rewrite lookup_insert_eq. split; [done |]. rewrite Hc1 in Ho. apply Z.leb_gt in Ho. lia.
    + exists c1. by rewrite lookup_insert_ne.
  - intros c' [? | ->%list_elem_of_singleton]%elem_of_app; [by apply Hfr |]. by split_and!.
  - rewrite map_size_insert. case_match; unfold id; lia.
Qed.

Lemma merge_ok known0 l l' : (forall c, c ∈ l' -> c ∈ l) -> forall s, merging known0 l s ->
  merging known0 l (fold_left (merge1 me roomID members now) l' s).
Proof.
  induction l' as [| c l' IH]; intros Hl s Hs; [done |]. simpl. apply IH.
  - intros c' ?. apply Hl. by right.
  - apply merge1_ok; [| done]. apply Hl. by left.
Qed.

(** Merging cards from anybody takes only cards that another member of the
    room signed itself for this room within the last two hours; it never
    replaces a card by an older one, forgets no member, and the number of cards
    stays bounded. *)
Theorem mergeCards_spec known l : let '(known', fresh) := mergeCards me roomID members now known l in
  (forall id c, known' !! id = Some c -> (c_NodeID c = id /\ c ∈ fresh) \/ known !! id = Some c)
  /\ (forall c, c ∈ fresh -> c ∈ l /\ c_NodeID c <> me /\ c_NodeID c ∈ members /\ card_valid c roomID now)
  /\ (forall id c0, known !! id = Some c0 -> exists c, known' !! id = Some c /\ Issued c0 <= Issued c)
  /\ (size known' <= Nat.max (size known) maxCards)%nat.
Proof.
  assert (merging known l (mergeCards me roomID members now known l)) as H.
  { apply merge_ok; [done |]. split; simpl; [by right | | by intros c []%elem_of_nil | lia]. intros id c0 H0. exists c0. split; [done | lia]. }
  destruct (mergeCards _ _ _ _ _ _) as [known' fresh]. by destruct H.
Qed.

(** With [maxCards] cards nothing is taken any more, not even a newer card of a
    member that is known: the cards grow old together. *)
Theorem mergeCards_full known l : (maxCards <= size known)%nat -> mergeCards me roomID members now known l = (known, []).
Proof.
  intros H. unfold mergeCards. induction l as [| c l IH]; [done |]. cbn [fold_left].
  assert (merge1 (CR := CR) me roomID members now (known, []) c = (known, [])) as ->; [| done].
  unfold merge1. destruct (_ || _ || _); [done |]. destruct (match _ with Some _ => _ | None => _ end); [done |].
  by rewrite (proj2 (Nat.leb_le _ _) H).
Qed.

End Merge.

(** ** Joins *)

Definition room_of (s : State) (roomID : bytes) : option LocalRoom := List.find (fun r => bool_decide (RoomID r = roomID)) (Local s).

Lemma modifyLocal_ok {A} s roomID (fn : LocalRoom -> res error (A * LocalRoom)) r a r' :
  room_of s roomID = Some r -> fn r = Ok (a, r') -> RoomID r' = RoomID r ->
  exists s', modifyLocal s roomID fn = Ok (a, s') /\ room_of s' roomID = Some r'
    /\ forall id, id <> roomID -> room_of s' id = room_of s id.
Proof.
  unfold room_of, modifyLocal. intros Hf Hfn Hid.
  assert (exists l', modify (Local s) roomID fn = Ok (a, l')
    /\ List.find (fun r => bool_decide (RoomID r = roomID)) l' = Some r'
    /\ forall id, id <> roomID -> List.find (fun r => bool_decide (RoomID r = id)) l' = List.find (fun r => bool_decide (RoomID r = id)) (Local s))
    as (l' & Hl & H1 & H2).
  { induction (Local s) as [| x l IH]; [done |]. simpl in *. case_bool_decide as Hx.
    - injection Hf as ->. rewrite Hfn. cbn [mbind res_bind fst snd]. eexists. split; [done |]. simpl. split.
      + by rewrite bool_decide_eq_true_2 by congruence.
      + intros id Hne. by rewrite !bool_decide_eq_false_2 by congruence.
    - destruct (IH Hf) as (l' & -> & H1 & H2). cbn [mbind res_bind fst snd]. eexists. split; [done |]. simpl. split.
      + by rewrite bool_decide_eq_false_2.
      + intros id Hne. case_bool_decide; [done | by apply H2]. }
  exists (set_Local l' s). rewrite Hl. split_and!; done.
Qed.

(** A change that fails leaves the state file as it is; one that succeeds was
    made to the first room with the ID. *)
Lemma modifyLocal_inv {A} s roomID (fn : LocalRoom -> res error (A * LocalRoom)) a s' :
  modifyLocal s roomID fn = Ok (a, s') -> exists r r', room_of s roomID = Some r /\ fn r = Ok (a, r').
Proof.
  unfold modifyLocal, room_of. rewrite bind_ok. intros ([a' l'] & Hm & [= -> _]). revert l' Hm.
  induction (Local s) as [| x l IH]; intros l' Hm; [done |]. simpl in *. case_bool_decide.
  - apply bind_ok in Hm as ([a1 r1] & Hfn & [= -> _]). eauto.
  - apply bind_ok in Hm as ([a1 l1] & Hm & [= -> _]). eauto.
Qed.

Lemma use_invite_false h now l : (use_invite h now l).1 = false -> (use_invite h now l).2 = l.
Proof.
  induction l as [| i l IH]; [done |]. simpl. destruct (_ && _ && _); [done |].
  destruct (use_invite h now l) as [ok l']. simpl in *. intros ->. by rewrite IH.
Qed.

Lemma useInvite_false `{CR : Crypto} r tok now : (useInvite r tok now).1 = false -> (useInvite r tok now).2 = r.
Proof.
  unfold useInvite. pose proof (use_invite_false (sha256 tok) now (Invites r)) as H.
  destruct (use_invite _ _ _) as [ok l]. simpl in *. intros ->. rewrite H by done. by destruct r.
Qed.

(** Using an invite changes nothing but the uses that are left. *)
Lemma useInvite_owner `{CR : Crypto} `{J : pki.Json} r c tok now : owner r c -> owner (useInvite r tok now).2 c.
Proof. unfold useInvite. destruct (use_invite _ _ _) as [ok l]. by intros []. Qed.

Section Accept.
Context `{CL : CryptoLaws} `{J : pki.Json} (bad_invite : bytes) (text : error -> bytes).

(** The member that a request makes, and the configuration with it. *)
Definition new_member (req : joinRequest) (nodeID : bytes) : pki.Member :=
  pki.MkMember nodeID (if bool_decide (q_Name req = []) || (40 <? zlen (q_Name req)) then take 8 nodeID else q_Name req)
    (WGKey req) AddrZero [] [] false false false.
Definition with_member (c : pki.RoomConfig) (req : joinRequest) (nodeID : bytes) (a : Addr) (now : Z) : pki.RoomConfig :=
  updated (set_Members (pki.Members c ++ [set_IP a (new_member req nodeID)]) c) now.

(** The addresses of the members in a room's subnet. *)
Definition used_hosts (c : pki.RoomConfig) : list Addr := map pki.IP (pki.Members c).

Lemma not_member c nodeID : Forall (fun m => pki.NodeID m <> nodeID) (pki.Members c) ->
  List.find (fun m => bool_decide (pki.NodeID m = nodeID)) (pki.Members c) = None.
Proof.
  intros H. destruct (List.find _ _) as [m |] eqn:Hm; [| done]. apply find_some in Hm as [Hin E].
  apply bool_decide_eq_true in E. rewrite Forall_forall in H. by apply list_elem_of_In, H in Hin.
Qed.

Lemma owner_config_ok r c : owner r c -> pki.config_ok c.
Proof.
  intros Hown. pose proof (ow_config _ _ Hown) as Hc. unfold config in Hc. destruct (Config r) as [d |]; [| done].
  apply bind_ok in Hc as (pub & _ & Hc). destruct (pki.VerifyRoomConfig pub d) as [c' | |] eqn:Hv; [| done ..].
  injection Hc as ->. by apply pki.VerifyRoomConfig_iff in Hv as (_ & _ & _ & ?).
Qed.

(** A new node with a usable invite. *)
Lemma accept_invited req nodeID sender from now r c v bits : owner r c -> subnets.subnet_at (pki.Subnet c) v bits ->
  Forall (fun m => pki.NodeID m <> nodeID) (pki.Members c) -> (useInvite r (q_Token req) now).1 = true ->
  let result := accept bad_invite text req nodeID sender from now r in
  let used := useInvite r (q_Token req) now in
  (exists x, 0 < x < 2 ^ (32 - bits) - 1 /\ Addr4 (v + x) ∉ used_hosts c
     /\ (forall y, 0 < y < x -> Addr4 (v + y) ∈ used_hosts c)
     /\ (carried (with_member c req nodeID (Addr4 (v + x)) now) ->
         exists r', result = Ok (MkJoinReply (q_RoomID req) true (Addr4 (v + x)) [], r')
           /\ owner r' (with_member c req nodeID (Addr4 (v + x)) now)
           /\ Invites r' = Invites used.2 /\ RoomID r' = RoomID r /\ RoomKey r' = RoomKey r
           /\ Peers r' = <[nodeID := peer_from sender from (q_Endpoints req)]> (Peers r)))
  \/ ((forall y, 0 < y < 2 ^ (32 - bits) - 1 -> Addr4 (v + y) ∈ used_hosts c)
      /\ result = Ok (MkJoinReply (q_RoomID req) false AddrZero (text ENoAddress), used.2)).
Proof.
  intros Hown Hsub Hnot Hinv result used. unfold result, accept. clear result.
  assert (SignKey r <> []) as Hne by (intros E; pose proof (ow_seed _ _ Hown) as Hl; by rewrite E in Hl).
  rewrite bool_decide_eq_false_2 by done. rewrite (ow_config _ _ Hown). cbn [mbind res_bind]. rewrite not_member by done.
  fold used in Hinv |- *. pose proof (useInvite_owner r c (q_Token req) now Hown) as Hown'. fold used in Hown'.
  assert (Peers used.2 = Peers r /\ RoomID used.2 = RoomID r /\ RoomKey used.2 = RoomKey r) as (HP & Hid & Hrk)
    by (unfold used, useInvite; by destruct (use_invite _ _ _)).
  destruct used as [ok r1]. cbn [fst snd] in *. subst ok. cbn [negb]. fold (new_member req nodeID).
  destruct (addMember_at c (new_member req nodeID) v bits Hsub) as [(x & Hx & _) | (_ & [(x & Ha & Hx & Hfree & Hlow) | (Ha & Hfull)])].
  - cbn [pki.NodeID new_member] in Hx. by rewrite not_member in Hx.
  - left. exists x. split_and!; try done; try lia. intros Hcar.
    destruct (addMember_owner c (new_member req nodeID) v bits _ _ Hsub (owner_config_ok _ _ Hown) eq_refl Ha) as [Hok1 _].
    destruct (Update_owner r1 c (fun c => addMember c (new_member req nodeID)) _ _ now Hown' Ha Hcar Hok1) as (s & -> & Hown2).
    eexists. split; [done |]. cbn [Invites set_Peers set_Config RoomID RoomKey Peers]. split_and!; try done; [by destruct Hown2 | by rewrite HP].
  - right. split; [done |]. unfold Update. rewrite (ow_config _ _ Hown'). cbn [mbind res_bind]. by rewrite Ha.
Qed.

(** What the owner of a room does with a request it has authenticated: a
    member gets the address it has, and no invite is used up; without a usable
    invite the request is refused and nothing changes; otherwise the invite
    loses a use, and the node becomes a plain member with the lowest free
    address in a newly signed configuration that verifies — or is refused when
    the subnet is full. *)
Theorem accept_spec req nodeID sender from now r c v bits : owner r c -> subnets.subnet_at (pki.Subnet c) v bits ->
  let result := accept bad_invite text req nodeID sender from now r in
  let used := useInvite r (q_Token req) now in
  (exists m, List.find (fun m => bool_decide (pki.NodeID m = nodeID)) (pki.Members c) = Some m
     /\ result = Ok (MkJoinReply (q_RoomID req) true (pki.IP m) [], r))
  \/ Forall (fun m => pki.NodeID m <> nodeID) (pki.Members c)
     /\ ((used.1 = false /\ result = Ok (MkJoinReply (q_RoomID req) false AddrZero bad_invite, r))
         \/ (used.1 = true
             /\ ((exists x, 0 < x < 2 ^ (32 - bits) - 1 /\ Addr4 (v + x) ∉ used_hosts c
                    /\ (forall y, 0 < y < x -> Addr4 (v + y) ∈ used_hosts c)
                    /\ (carried (with_member c req nodeID (Addr4 (v + x)) now) ->
                        exists r', result = Ok (MkJoinReply (q_RoomID req) true (Addr4 (v + x)) [], r')
                          /\ owner r' (with_member c req nodeID (Addr4 (v + x)) now)
                          /\ Invites r' = Invites used.2 /\ RoomID r' = RoomID r /\ RoomKey r' = RoomKey r
                          /\ Peers r' = <[nodeID := peer_from sender from (q_Endpoints req)]> (Peers r)))
                 \/ ((forall y, 0 < y < 2 ^ (32 - bits) - 1 -> Addr4 (v + y) ∈ used_hosts c)
                     /\ result = Ok (MkJoinReply (q_RoomID req) false AddrZero (text ENoAddress), used.2))))).
Proof.
  intros Hown Hsub result used.
  destruct (List.find (fun m => bool_decide (pki.NodeID m = nodeID)) (pki.Members c)) as [m |] eqn:Hm.
  - left. exists m. split; [done |]. unfold result, accept.
    assert (SignKey r <> []) as Hne by (intros E; pose proof (ow_seed _ _ Hown) as Hl; by rewrite E in Hl).
    rewrite bool_decide_eq_false_2 by done. rewrite (ow_config _ _ Hown). cbn [mbind res_bind]. by rewrite Hm.
  - right. assert (Forall (fun m => pki.NodeID m <> nodeID) (pki.Members c)) as Hnot.
    { apply Forall_forall. intros m Hin%list_elem_of_In. apply (find_none _ _ Hm) in Hin. by apply bool_decide_eq_false in Hin. }
    split; [done |]. destruct (used.1) eqn:Hu; [right; split; [done |]; by apply accept_invited | left].
    split; [done |]. unfold result, accept.
    assert (SignKey r <> []) as Hne by (intros E; pose proof (ow_seed _ _ Hown) as Hl; by rewrite E in Hl).
    rewrite bool_decide_eq_false_2 by done. rewrite (ow_config _ _ Hown). cbn [mbind res_bind]. rewrite Hm.
    pose proof (useInvite_false r (q_Token req) now) as Hsame. fold used in Hsame |- *.
    destruct used as [ok r1]. simpl in *. subst ok. simpl. by rewrite Hsame.
Qed.

End Accept.

(** ** Two nodes *)

Section Join.
Context `{CL : CryptoLaws} `{J : pki.Json} `{GJ : GossipJson} (bad_invite : bytes) (text : error -> bytes).

(** A request that the node itself made is authenticated as its own. *)
Lemma request_node_own id token name roomID locals : length id = 32%nat -> bytes_ok id ->
  request_node (request id token name roomID locals) = Some (identity.NodeID id).
Proof.
  intros Hl Hb. unfold request_node, request. cbn [q_EdKey q_Sig q_RoomID q_Token q_Name WGKey q_Endpoints].
  unfold identity.PublicKey, identity.Sign. rewrite !base64_roundtrip by (by apply ed_public_ok || apply ed_sign_ok).
  cbn [mbind option_bind]. unfold zlen. rewrite length_ed_public by done. change (Z.of_nat 32 =? pki.PublicKeySize) with true.
  unfold request_signedPart at 1. cbn [q_RoomID q_Token q_Name WGKey]. by rewrite ed_verify_sign.
Qed.

(** The signed configuration of a room in the state file. *)
Definition room_config (s : State) (roomID : bytes) : res error pki.RoomConfig :=
  match room_of s roomID with Some r => config r | None => Err ENoRoom end.

Lemma persist_newer s roomID r doc c : room_of s roomID = Some r ->
  (pub ← map_err EPki (pki.ParseRoomKey (RoomKey r)); map_err EPki (pki.VerifyRoomConfig pub doc)) = Ok c ->
  Config r = None ->
  exists s', persistLocal s roomID doc = (s', true) /\ room_config s' roomID = Ok c
    /\ exists r', room_of s' roomID = Some r' /\ nodestate.Join r' = None.
Proof.
  intros Hr Hv Hn. apply bind_ok in Hv as (pub & Hpub & Hv).
  set (r1 := set_Config (Some doc) r).
  set (r2 := match nodestate.Join r1 with
             | Some j => set_Join None (set_Peers (<[Owner (Invite j) :=
                  controller.MkPeer AddrZero 0 (l_Endpoints (Invite j)) [] AddrPortZero [] (OwnerDisco (Invite j)) [] false]> (Peers r1)) r1)
             | None => r1
             end).
  assert (RoomID r2 = RoomID r /\ RoomKey r2 = RoomKey r /\ Config r2 = Some doc /\ nodestate.Join r2 = None) as (Hid & Hkey & Hcfg & Hj)
    by (unfold r2, r1; destruct (nodestate.Join _) eqn:E; simpl in *; done).
  assert (newer_config doc r = Ok (tt, r2)) as Hnew.
  { unfold newer_config. rewrite Hpub. cbn [mbind res_bind]. rewrite Hv. cbn [mbind res_bind]. by rewrite Hn. }
  destruct (modifyLocal_ok s roomID (newer_config doc) r tt r2 Hr Hnew Hid) as (s' & Hs' & Hr' & _).
  exists s'. unfold persistLocal. rewrite Hs'. split; [done |]. split.
  - unfold room_config. rewrite Hr'. unfold config. rewrite Hcfg, Hkey, Hpub. cbn [mbind res_bind]. exact Hv.
  - exists r2. done.
Qed.

(** C15: A join from end to end. The new node's request reaches the owner, who
    accepts it; the reply makes the node keep the address it was given, the
    lowest free one of the subnet; and the
    owner's new configuration, when it arrives, is taken by the node: it
    verifies under the key of the invite, holds the old members and, with its
    own room key and the address of the reply, the new one, and ends the join. *)
Theorem join_complete (id ownerDisco sender : bytes) sO sJ rO rJ c v bits (j : LocalJoin) locals data lim now from :
  let link := Invite j in
  let q := request id (Token link) (j_Name j) (l_RoomID link) locals in
  length id = 32%nat -> bytes_ok id ->
  join_data id link (j_Name j) locals = Some data -> unmarshal_request data = Some q ->
  (limit lim now).1 = false ->
  room_of sO (l_RoomID link) = Some rO -> owner rO c -> subnets.subnet_at (pki.Subnet c) v bits ->
  Forall (fun m => pki.NodeID m <> identity.NodeID id) (pki.Members c) ->
  (useInvite rO (Token link) now).1 = true ->
  (exists y, 0 < y < 2 ^ (32 - bits) - 1 /\ Addr4 (v + y) ∉ used_hosts c) ->
  (forall x, 0 < x < 2 ^ (32 - bits) - 1 -> carried (with_member c q (identity.NodeID id) (Addr4 (v + x)) now)) ->
  room_of sJ (l_RoomID link) = Some rJ -> nodestate.Join rJ = Some j -> j_IP j = AddrZero -> Config rJ = None ->
  OwnerDisco link = ownerDisco -> l_Subnet link = pki.Subnet c -> RoomKey rJ = RoomKey rO ->
  exists a rep sO' lim', handleJoin bad_invite text sO lim now sender data from true = Ok (Some rep, sO', lim', true)
    /\ rep = MkJoinReply (l_RoomID link) true a []
    /\ (exists x, 0 < x < 2 ^ (32 - bits) - 1 /\ a = Addr4 (v + x) /\ a ∉ used_hosts c /\ forall y, 0 < y < x -> Addr4 (v + y) ∈ used_hosts c)
    /\ room_config sO' (l_RoomID link) = Ok (with_member c q (identity.NodeID id) a now)
    /\ (unmarshal_reply (marshal_reply rep) = Some rep ->
        exists sJ' sJ'' doc, handleJoinReply sJ ownerDisco (marshal_reply rep) = (sJ', true)
          /\ (rO' ← room_of sO' (l_RoomID link); Config rO') = Some doc
          /\ persistLocal sJ' (l_RoomID link) doc = (sJ'', true)
          /\ room_config sJ'' (l_RoomID link) = Ok (with_member c q (identity.NodeID id) a now)
          /\ exists r, room_of sJ'' (l_RoomID link) = Some r /\ nodestate.Join r = None).
Proof.
  intros link q Hidl Hidb Hdata Hun Hlim HrO Hown Hsub Hnot Hinv [y Hy] Hcar HrJ Hj Hip Hcfg Hod Hls Hkey.
  destruct (accept_invited bad_invite text q (identity.NodeID id) sender from now rO c v bits Hown Hsub Hnot Hinv)
    as [(x & Hx & Hfree & Hlow & Hacc) | (Hfull & _)].
  2: { destruct Hy as [Hy Hy']. by destruct Hy'; apply Hfull. }
  destruct (Hacc (Hcar x Hx)) as (rO' & Ha & Hown' & _ & Hid' & Hrk & _). set (a := Addr4 (v + x)) in *.
  destruct (modifyLocal_ok sO (l_RoomID link) _ rO _ rO' HrO Ha Hid') as (sO' & HsO' & HrO' & _).
  exists a, (MkJoinReply (l_RoomID link) true a []), sO', (limit lim now).2. split.
  { unfold handleJoin. destruct (limit lim now) as [over lim']. simpl in Hlim. subst over. rewrite Hun. cbn [mbind option_bind].
    assert (request_node q = Some (identity.NodeID id)) as Hn by by apply request_node_own.
    rewrite Hn. cbn [mbind option_bind].
    change (q_RoomID q) with (l_RoomID link). rewrite HsO'. done. }
  split; [done |]. split; [by exists x |]. split; [unfold room_config; rewrite HrO'; apply (ow_config _ _ Hown') |]. intros Hrep.
  assert (IsValid (j_IP j) = false) as Hval by (by rewrite Hip).
  assert (Contains (l_Subnet link) a = true) as Hin.
  { rewrite Hls. apply (subnets.Contains_at _ v bits _ Hsub). exists (v + x). split; [done | lia]. }
  set (rJ' := set_Join (Some (MkLocalJoin link (j_Name j) a)) rJ).
  assert (on_reply ownerDisco (MkJoinReply (l_RoomID link) true a []) rJ = Ok (tt, rJ')) as Hon.
  { unfold on_reply. rewrite Hj. fold link. rewrite Hod, bool_decide_eq_true_2 by done. rewrite Hval. cbn [negb orb OK p_IP]. by rewrite Hin. }
  destruct (modifyLocal_ok sJ (l_RoomID link) _ rJ tt rJ' HrJ Hon eq_refl) as (sJ' & HsJ' & HrJ' & _).
  destruct (Config rO') as [doc |] eqn:Hdoc.
  2: { pose proof (ow_config _ _ Hown') as Hc. unfold config in Hc. by rewrite Hdoc in Hc. }
  destruct (persist_newer sJ' (l_RoomID link) rJ' doc (with_member c q (identity.NodeID id) a now) HrJ') as (sJ'' & Hp & Hcf & Hjn).
  { change (RoomKey rJ') with (RoomKey rJ). rewrite Hkey. pose proof (ow_config _ _ Hown') as Hc. unfold config in Hc. rewrite Hdoc in Hc.
    rewrite <- Hc, Hrk. done. }
  { done. }
  exists sJ', sJ'', doc. split_and!; try done.
  - unfold handleJoinReply. rewrite Hrep. cbn [p_RoomID]. by rewrite HsJ'.
  - by rewrite HrO'.
Qed.

End Join.

(** ** Documents, keys and invites *)

Section Documents.
Context `{CR : Crypto} `{J : pki.Json}.

Lemma config_verify r doc pub : Config r = Some doc -> pki.ParseRoomKey (RoomKey r) = Ok pub ->
  config r = map_err EPki (pki.VerifyRoomConfig pub doc).
Proof. intros Hc Hp. unfold config. by rewrite Hc, Hp. Qed.

(** A configuration that reaches the state file from another member
    verifies under the room's pinned key and is newer than the valid one it
    replaces; a pending join ends with it. Anything else leaves the room as it
    was. *)
Theorem newer_config_spec doc r :
  (exists e, newer_config doc r = Err e)
  \/ exists r' c, newer_config doc r = Ok (tt, r') /\ config r' = Ok c
       /\ (exists pub, pki.ParseRoomKey (RoomKey r) = Ok pub /\ pki.VerifyRoomConfig pub doc = Ok c)
       /\ (forall o, config r = Ok o -> pki.Version o < pki.Version c)
       /\ RoomKey r' = RoomKey r /\ RoomID r' = RoomID r /\ SignKey r' = SignKey r /\ nodestate.Join r' = None.
Proof.
  unfold newer_config. destruct (pki.ParseRoomKey (RoomKey r)) as [pub | e |] eqn:Hp; [| left; by eexists |].
  2: { unfold pki.ParseRoomKey in Hp. by destruct (rawurl_decode _); [destruct (_ =? _) |]. }
  cbn [map_err mbind res_bind]. destruct (pki.VerifyRoomConfig pub doc) as [c | e |] eqn:Hv; [| left; by eexists |].
  2: { by apply pki.Verify_no_panic in Hv. }
  cbn [map_err mbind res_bind].
  destruct (match Config r with Some old => _ | None => _ end) eqn:Hst; [left; by eexists | right].
  eexists _, c. split; [done |].
  assert (forall o, config r = Ok o -> pki.Version o < pki.Version c) as Hnew.
  { intros o Ho. destruct (Config r) as [old |] eqn:Hold; [| unfold config in Ho; by rewrite Hold in Ho].
    rewrite (config_verify r old pub Hold Hp) in Ho. destruct (pki.VerifyRoomConfig pub old); [| done ..].
    injection Ho as ->. lia. }
  set (r1 := set_Config (Some doc) r).
  assert (forall P : LocalRoom -> Prop, (forall j ps, nodestate.Join r1 = Some j -> P (set_Join None (set_Peers ps r1))) ->
    (nodestate.Join r1 = None -> P r1) -> P (match nodestate.Join r1 with
      | Some j => set_Join None (set_Peers (<[Owner (Invite j) :=
                    controller.MkPeer AddrZero 0 (l_Endpoints (Invite j)) [] AddrPortZero [] (OwnerDisco (Invite j)) [] false]> (Peers r1)) r1)
      | None => r1
      end)) as Hcase by (intros P H1 H2; destruct (nodestate.Join r1) eqn:Ej; [by eapply H1 | by apply H2]).
  apply Hcase; [intros j ps Ej | intros Ej]; (split_and!; [| by exists pub | done ..]);
    rewrite (config_verify _ doc pub) by done; by rewrite Hv.
Qed.

(** The signing key of a room leaves the node only for an address that the
    signed configuration names as an admin's, and an answer is taken only when
    it is the key of the pinned public key; the key that the owner serves is. *)
Theorem sign_key_exchange EqualFold s roomID admins from line pinned line' seed :
  (serveSignKey EqualFold s roomID admins from = Some line ->
     Unmap from ∈ admins /\ exists r, LocalRoomByRef EqualFold s roomID = Ok r /\ zlen (SignKey r) = identity.SeedSize
       /\ line = encode64 (SignKey r) ++ [10]
       /\ (bytes_ok (SignKey r) -> RoomKey r = pki.RoomKeyString (ed_public (SignKey r)) -> accept_key (RoomKey r) line = Some (SignKey r)))
  /\ (accept_key pinned line' = Some seed -> zlen seed = identity.SeedSize /\ pki.RoomKeyString (ed_public seed) = pinned).
Proof.
  split.
  - unfold serveSignKey. case_bool_decide as Ha; [| done]. cbn [negb].
    destruct (LocalRoomByRef _ _ _) as [r | |]; [| done ..]. destruct (Z.eqb_spec (zlen (SignKey r)) identity.SeedSize); [| done].
    intros [= <-]. split; [done |]. exists r. split_and!; try done. intros Hb Hk. unfold accept_key.
    rewrite TrimSpace_line by apply graph_encode64. rewrite base64_roundtrip by done. cbn [mbind option_bind].
    rewrite (proj2 (Z.eqb_eq _ _)) by done. by rewrite bool_decide_eq_true_2 by done.
  - unfold accept_key. intros (x & _ & H)%bind_Some. destruct (_ && _) eqn:Hb; [| done]. injection H as ->. by bool_hyps.
Qed.

(** Attempts to use an invite one after another. *)
Fixpoint attempts (r : LocalRoom) (tok : bytes) (times : list Z) : list bool * LocalRoom :=
  match times with
  | [] => ([], r)
  | t :: times =>
    let '(ok, r) := useInvite r tok t in
    let '(oks, r) := attempts r tok times in (ok :: oks, r)
  end.

Lemma use_invite_at h now pre i post : Forall (fun i => TokenHash i <> h) pre -> TokenHash i = h ->
  use_invite h now (pre ++ i :: post) =
    if (now <? Expires i) && negb (UsesLeft i =? 0)
    then (true, pre ++ (if 0 <? UsesLeft i then MkLocalInvite h (UsesLeft i - 1) (Expires i) else i) :: post)
    else ((use_invite h now post).1, pre ++ i :: (use_invite h now post).2).
Proof.
  intros Hpre Hi. induction Hpre as [| x pre Hx Hpre IH]; simpl.
  - rewrite Hi, bool_decide_eq_true_2 by done. simpl. destruct (_ && _); [done |]. by destruct (use_invite h now post).
  - rewrite bool_decide_eq_false_2 by done. simpl. rewrite IH. by destruct (_ && _).
Qed.

Lemma use_invite_none h now l : Forall (fun i => TokenHash i <> h) l -> use_invite h now l = (false, l).
Proof. induction 1 as [| i l Hi Hl IH]; [done |]. simpl. rewrite bool_decide_eq_false_2 by done. simpl. by rewrite IH. Qed.

(** An invite of [n] uses lets exactly the first [n] attempts through that
    are made before it expires, and none after; an unlimited one lets all of
    them through. *)
Theorem local_invite_uses tok pre post : Forall (fun i => TokenHash i <> sha256 tok) (pre ++ post) -> forall times r n exp,
  Invites r = pre ++ MkLocalInvite (sha256 tok) n exp :: post -> -1 <= n -> Forall (fun t => t < exp) times ->
  (attempts r tok times).1 = (if n =? -1 then repeat true (length times)
                              else repeat true (Nat.min (Z.to_nat n) (length times)) ++ repeat false (length times - Z.to_nat n))
  /\ forall t, exp <= t -> (useInvite (attempts r tok times).2 tok t).1 = false.
Proof.
  intros Hne. apply Forall_app in Hne as [Hpre Hpost]. induction times as [| t times IH]; intros r n exp Hr Hn Ht.
  - split; [by destruct (n =? -1); [| rewrite Nat.min_0_r] |]. intros t Ht'. simpl. unfold useInvite. rewrite Hr.
    rewrite use_invite_at, use_invite_none by done. cbn [Expires fst snd].
    by rewrite (proj2 (Z.ltb_ge t exp)) by lia.
  - apply Forall_cons in Ht as [Ht Hts]. simpl. unfold useInvite at 1 3. rewrite Hr, use_invite_at, use_invite_none by done.
    cbn [Expires UsesLeft fst snd]. rewrite (proj2 (Z.ltb_lt t exp)) by lia. cbn [andb].
    destruct (Z.eqb_spec n 0) as [-> | Hn0]; cbn [negb].
    + specialize (IH (set_Invites (pre ++ MkLocalInvite (sha256 tok) 0 exp :: post) r) 0 exp eq_refl ltac:(lia) Hts).
      destruct (attempts _ tok times) as [oks r']. simpl in *. destruct IH as [-> IH]. by rewrite Nat.sub_0_r.
    + destruct (Z.ltb_spec 0 n).
      * specialize (IH (set_Invites (pre ++ MkLocalInvite (sha256 tok) (n - 1) exp :: post) r) (n - 1) exp eq_refl ltac:(lia) Hts).
        destruct (attempts _ tok times) as [oks r']. simpl in *. destruct IH as [-> IH]. split; [| done].
        rewrite (proj2 (Z.eqb_neq n (-1))), (proj2 (Z.eqb_neq (n - 1) (-1))) by lia.
        replace (Z.to_nat n) with (S (Z.to_nat (n - 1))) by lia. done.
      * assert (n = -1) as -> by lia.
        specialize (IH (set_Invites (pre ++ MkLocalInvite (sha256 tok) (-1) exp :: post) r) (-1) exp eq_refl ltac:(lia) Hts).
        destruct (attempts _ tok times) as [oks r']. simpl in *. by destruct IH as [-> IH].
Qed.

End Documents.

End localsync.
