(* ===== verification/Node.v ===== *)
(** The daemon (internal/node/node.go): how a network map of a controller, or a
    configuration from another member, becomes running rooms.

    [Node] is the state under the node's lock. The operating system is in
    [Env]: whether a device comes up and takes its peers, the local networks.
    The calls on a running room are actions of the result; the map orders of Go
    are arguments ([Orders]). Logging, and the notes that only say when to log,
    are outside. *)
From stdpp Require Import base gmap list strings.
From Stdlib Require Import ZArith Lia.
From S2P Require Import Prelude GoStrings GoText Netip Acl Crypto Obfs Identity Pki RelayProto Magicsock Store Controller DiscoMgr Config Names NodeState LocalSync.

Open Scope Z_scope.

Module node.

Definition PeerKeepalive : Z := 25.
Definition TLD : bytes := str "zpt".

Record running := MkRunning { tagKey : bytes; controller_ : bytes; cfg : config.Room }.

Record Node := MkNode {
  sock : magicsock.Conn;
  rooms : gmap bytes running;
  versions : gmap bytes Z;
  pending : gmap bytes bytes;
  last : gmap bytes controller.NetMap;
  disco : option discomgr.discoMgr;
  signed : gmap bytes pki.Signed;
  members : gmap bytes (gset bytes);
  admins : gmap bytes (list Addr);
  ksKey : bytes }.

Definition set_sock (c : magicsock.Conn) (n : Node) : Node :=
  MkNode c (rooms n) (versions n) (pending n) (last n) (disco n) (signed n) (members n) (admins n) (ksKey n).
Definition set_rooms (m : gmap bytes running) (n : Node) : Node :=
  MkNode (sock n) m (versions n) (pending n) (last n) (disco n) (signed n) (members n) (admins n) (ksKey n).
Definition set_pending (m : gmap bytes bytes) (n : Node) : Node :=
  MkNode (sock n) (rooms n) (versions n) m (last n) (disco n) (signed n) (members n) (admins n) (ksKey n).
Definition set_last (m : gmap bytes controller.NetMap) (n : Node) : Node :=
  MkNode (sock n) (rooms n) (versions n) (pending n) m (disco n) (signed n) (members n) (admins n) (ksKey n).
Definition set_disco (d : option discomgr.discoMgr) (n : Node) : Node :=
  MkNode (sock n) (rooms n) (versions n) (pending n) (last n) d (signed n) (members n) (admins n) (ksKey n).
Definition accept_config (id : bytes) (v : Z) (doc : gmap bytes pki.Signed) (ids : gset bytes) (adm : list Addr) (n : Node) : Node :=
  MkNode (sock n) (rooms n) (<[id := v]> (versions n)) (pending n) (last n) (disco n) doc
    (<[id := ids]> (members n)) (<[id := adm]> (admins n)) (ksKey n).
Definition set_ksKey (k : bytes) (n : Node) : Node :=
  MkNode (sock n) (rooms n) (versions n) (pending n) (last n) (disco n) (signed n) (members n) (admins n) k.

(** What the node is and sees: its identity, the settings of its configuration
    file, the operating system, and how [fmt.Sprint] prints. *)
Record Env := MkEnv {
  seed : bytes;                          (* of the identity *)
  AdvertiseExit : bool;
  cfg_DNS : list Addr;
  cfg_KillSwitch : bool;
  cfg_KillSwitchAllowLAN : bool;
  cfg_Userspace : bool;
  lan : list Prefix;                     (* [localPrefixes] *)
  now : Z;
  ourRelay : bytes;                      (* [relayReadyAddr] *)
  room_up : bytes -> config.Room -> bool;             (* [room.Up] succeeds *)
  peers_set : bytes -> list config.Peer -> bool;      (* [Room.SetPeers] succeeds *)
  ks_set : bool -> list bytes -> list Prefix -> bool; (* [room.SetKillSwitch] succeeds *)
  Sprint_members : list acl.Member -> bytes;
  Sprint_rules : list bytes -> list Prefix -> bytes }.

(** The map orders of one [apply]; [o_names] are the running rooms in the order
    of their names. *)
Record Orders := MkOrders {
  o_peers : list (bytes * controller.Peer); o_known : list bytes; o_rooms : list bytes; o_desired : list bytes;
  o_names : list bytes }.

Inductive action : Type :=
  | RoomUp (key : bytes) (rc : config.Room) (priv : bytes) (bind : nat)
  | RoomClose (key : bytes)
  | SetPeers (key : bytes) (ps : list config.Peer)
  | SetRoom (key : bytes) (rc : config.Room)     (* broadcast, routes, router, exit, zone *)
  | SetPolicy (key : bytes) (p : option acl.Policy)
  | SetKillSwitch (on : bool) (rooms : list bytes) (allowed : list Prefix)
  | SetDNS (key : bytes) (servers : list Addr)
  | StartGossip (key : bytes) | StopGossip (key : bytes) | KickGossip (key : bytes).

Inductive error : Type := EPki (e : pki.error) | EOtherRoom | ERollback | EOverlap | EBind | EUp.

Section Crypto.
Context `{CR : Crypto} `{J : pki.Json} (env : Env).

Definition me : bytes := identity.NodeID (seed env).

(** ** Rooms *)

Definition startLocked (n : Node) (key ctrl : bytes) (rc : config.Room) : res error (list action) * Node :=
  if bool_decide (map_Exists (fun _ o => Overlaps (Masked (config.Address (cfg o))) (Masked (config.Address rc)) = true) (rooms n))
  then (Err EOverlap, n)
  else
    let tag := obfs.TagKey (obfs.Derive (config.Secret rc)) in
    match magicsock.Bind (sock n) tag with
    | Ok (bind, c) =>
      let priv := identity.RoomKey (seed env) (obfs.RoomID (config.Secret rc)) in
      if negb (room_up env key rc) then (Err EUp, set_sock (magicsock.Unbind c tag) n)
      else
        (Ok (RoomUp key rc priv bind :: SetRoom key rc :: SetPolicy key (config.Policy rc)
             :: if bool_decide (ctrl = []) then [] else [StartGossip key]),
         set_rooms (<[key := MkRunning tag ctrl rc]> (rooms n)) (set_sock c n))
    | _ => (Err EBind, n)
    end.

Definition stopLocked (n : Node) (key : bytes) : list action * Node :=
  match rooms n !! key with
  | Some r => ([StopGossip key; RoomClose key], set_rooms (delete key (rooms n)) (set_sock (magicsock.Unbind (sock n) (tagKey r)) n))
  | None => ([], n)
  end.

(** ** Names *)

Definition names_taken (n : Node) : list bytes := (fun x => config.Name (cfg x.2)) <$> map_to_list (rooms n).

(** The loop over [r<id>2], [r<id>3], ...: one more candidate than rooms. *)
Fixpoint numbered_name (fuel : nat) (taken : list bytes) (roomID : bytes) (i : Z) : bytes :=
  let c := 114 :: take 4 roomID ++ Itoa i in
  match fuel with
  | O => c
  | S fuel => if bool_decide (c ∈ taken) then numbered_name fuel taken roomID (i + 1) else c
  end.

(** [ifnameLocked]; a room ID has 32 characters. *)
Definition ifnameLocked (n : Node) (roomID name : bytes) : bytes :=
  let taken := names_taken n in
  match List.find (fun c => negb (bool_decide (c = [])) && negb (bool_decide (c ∈ taken)))
          [names.slug name; 114 :: take 6 roomID] with
  | Some c => c
  | None => numbered_name (length taken) taken roomID 2
  end.

Definition zoneNameLocked (n : Node) (key name : bytes) : bytes :=
  let l := if bool_decide (names.Label name = []) then str "room" else names.Label name in
  let z := l ++ 46 :: TLD in
  if bool_decide (map_Exists (fun k r => k <> key /\ config.ZoneName (cfg r) = z) (rooms n))
  then
    let id := take 6 (nodestate.TrimPrefix key (str "static:")) in
    l ++ 45 :: names.Label id ++ 46 :: TLD
  else z.

(** ** Peers *)

(** [routeConflictLocked]: may the network not be routed here? *)
Definition routeConflictLocked (n : Node) (r : Prefix) (roomID : bytes) (subnet : Prefix) : bool :=
  Overlaps r subnet
  || existsb (fun p => negb (IsLoopback (pfx_ip p)) && Overlaps p r) (lan env)
  || bool_decide (map_Exists (fun key o => key <> roomID /\
       (Overlaps (Masked (config.Address (cfg o))) r = true \/ Exists (fun x => Overlaps x r = true) (config.Routes (cfg o)))) (rooms n)).

(** [exitPeerLocked]: the node ID of the exit, or nothing. *)
Definition exit_ids (byName byID : bytes) (c : pki.RoomConfig) : list bytes :=
  map pki.NodeID (List.filter (fun m =>
    (bool_decide (pki.Name m = byName) || bool_decide (pki.NodeID m = byID))
    && negb (bool_decide (pki.NodeID m = me)) && pki.Exit m) (pki.Members c)).
Definition exitPeerLocked (n : Node) (choice : option nodestate.ExitChoice) (rs : controller.RoomState) (c : pki.RoomConfig) : bytes :=
  let pick byName byID :=
    let id := default [] (list.last (exit_ids byName byID c)) in
    if bool_decide (map_Exists (fun key o => key <> controller.rs_RoomID rs /\ config.Exit (cfg o) = true) (rooms n)) then [] else id in
  match choice with
  | Some ch =>
    if nodestate.exit_Off ch then []
    else if negb (bool_decide (nodestate.exit_Room ch = controller.rs_RoomID rs)) && negb (bool_decide (nodestate.exit_Room ch = pki.RoomName c))
    then []
    else pick (nodestate.exit_Member ch) []
  | None => if bool_decide (controller.rs_UseExit rs = []) then [] else pick [] (controller.rs_UseExit rs)
  end.

Definition zeroPeer : controller.Peer := controller.MkPeer AddrZero 0 [] [] AddrPortZero [] (zeros 32) [] false.

Definition chooseEndpoint (p : controller.Peer) (myPublic : Addr) (prefixes : list Prefix) : bytes :=
  let near := if IsValid (controller.pr_PublicIP p) && bool_decide (controller.pr_PublicIP p = myPublic)
              then List.find (fun l => existsb (fun pfx => Contains pfx (ap_addr l)) prefixes) (controller.pr_Locals p)
              else None in
  match near with
  | Some l => localsync.AddrPort_String l
  | None =>
    if apIsValid (controller.pr_PortMap p) then localsync.AddrPort_String (controller.pr_PortMap p)
    else match controller.pr_Reflexive p with
    | a :: _ => localsync.AddrPort_String a
    | [] =>
      if IsValid (controller.pr_PublicIP p) && negb (controller.pr_UDPPort p =? 0)
      then localsync.AddrPort_String (MkAddrPort (controller.pr_PublicIP p) (controller.pr_UDPPort p))
      else match controller.pr_Locals p with a :: _ => localsync.AddrPort_String a | [] => [] end
    end
  end.

Definition peerEndpoint (n : Node) (nodeID guess : bytes) : bytes :=
  match disco n with
  | Some d => match discomgr.endpoint d (now env) nodeID with Some a => localsync.AddrPort_String a | None => guess end
  | None => guess
  end.

(** ** From a signed configuration to a room *)

Definition policy_of (c : pki.RoomConfig) : option acl.Policy :=
  if bool_decide (pki.ACL c = []) then None
  else Some (acl.MkPolicy (pki.ACL c) (map (fun m => acl.MkMember (pki.Name m) (pki.IP m) (pki.Tags m)) (pki.Members c)) (pki.Subnet c)).

(** The DNS names: the first member with a label has it. *)
Definition add_record (rs : gmap bytes Addr) (m : pki.Member) : gmap bytes Addr :=
  let l := names.Label (pki.Name m) in
  if bool_decide (l = []) then rs else match rs !! l with Some _ => rs | None => <[l := pki.IP m]> rs end.

Definition base_room (n : Node) (rs : controller.RoomState) (c : pki.RoomConfig) : config.Room :=
  config.MkRoom (pki.RoomName c) (pki.Secret c) PrefixZero config.DefaultMTU (pki.Broadcast c) None []
    [] [] false false AddrZero (pki.DNS c) (zoneNameLocked n (controller.rs_RoomID rs) (pki.RoomName c))
    (fold_left add_record (pki.Members c) ∅) (pki.DHT c) (policy_of c) ∅ [] ∅.

Definition set_self (a : Prefix) (routing : list Prefix) (exitNode : bool) (r : config.Room) : config.Room :=
  config.MkRoom (config.Name r) (config.Secret r) a (config.MTU r) (config.Broadcast r) (config.Obfs_ r) (config.Peers r)
    (config.Routes r) routing (config.Exit r) exitNode (config.ExitDNS r) (config.RoomDNS r) (config.ZoneName r)
    (config.ZoneRecords r) (config.DHT r) (config.Policy r) (config.PeerNodes r) (config.ExitPeer r) (config.ExitPeers r).

(** The networks of a member that may be routed. *)
Definition good_routes (n : Node) (roomID : bytes) (c : pki.RoomConfig) (m : pki.Member) : list Prefix :=
  List.filter (fun r => negb (routeConflictLocked n r roomID (pki.Subnet c))) (pki.Routes m).

(** The room with one more peer. *)
Definition add_peer (n : Node) (rs : controller.RoomState) (nm : controller.NetMap) (c : pki.RoomConfig) (exitID : bytes)
    (r : config.Room) (m : pki.Member) : config.Room :=
  let good := good_routes n (controller.rs_RoomID rs) c m in
  let isExit := bool_decide (pki.NodeID m = exitID) in
  let allowed := PrefixFrom (pki.IP m) 32 :: good ++ (if isExit then [PrefixFrom IPv4Unspecified 0] else []) in
  let guess := chooseEndpoint (default zeroPeer (controller.Peers nm !! pki.NodeID m)) (controller.ObservedIP nm) (lan env) in
  config.MkRoom (config.Name r) (config.Secret r) (config.Address r) (config.MTU r) (config.Broadcast r) (config.Obfs_ r)
    (config.Peers r ++ [config.MkPeer (pki.Name m) (pki.WGKey m) (peerEndpoint n (pki.NodeID m) guess) allowed PeerKeepalive])
    (config.Routes r ++ good) (config.Routing r) (isExit || config.Exit r) (config.ExitNode r)
    (if isExit && pki.ExitDNS m then pki.IP m else config.ExitDNS r) (config.RoomDNS r) (config.ZoneName r)
    (config.ZoneRecords r) (config.DHT r) (config.Policy r) (<[pki.WGKey m := pki.NodeID m]> (config.PeerNodes r))
    (if isExit then pki.NodeID m else config.ExitPeer r)
    (if pki.Exit m then {[pki.NodeID m]} ∪ config.ExitPeers r else config.ExitPeers r).

(** The loop over the members: the room, the active peers, and whether this
    node is among the members. *)
Definition add_member (n : Node) (rs : controller.RoomState) (nm : controller.NetMap) (c : pki.RoomConfig) (exitID : bytes)
    (s : config.Room * gset bytes * bool) (m : pki.Member) : config.Room * gset bytes * bool :=
  let '(r, active, found) := s in
  if bool_decide (pki.NodeID m = me)
  then (set_self (PrefixFrom (pki.IP m) (pfx_bits (pki.Subnet c))) (pki.Routes m) (pki.Exit m && AdvertiseExit env) r, active, true)
  else (add_peer n rs nm c exitID r m, {[pki.NodeID m]} ∪ active, found).

(** [roomFromConfig] *)
Definition roomFromConfig (n : Node) (keyStr : bytes) (rs : controller.RoomState) (doc : pki.Signed) (nm : controller.NetMap)
    (active : gset bytes) (exit : option nodestate.ExitChoice) : res error (list action * Node * gset bytes * option config.Room) :=
  let id := controller.rs_RoomID rs in
  pub ← map_err EPki (pki.ParseRoomKey keyStr);
  c ← map_err EPki (pki.VerifyRoomConfig pub doc);
  if negb (bool_decide (pki.RoomID c = id)) then Err EOtherRoom
  else
    let v := default 0 (versions n !! id) in
    if pki.Version c <? v then Err ERollback
    else
      let fresh := (v <? pki.Version c) || bool_decide (signed n !! id = None) in
      let n := accept_config id (pki.Version c) (if fresh then <[id := doc]> (signed n) else signed n)
                 (list_to_set (map pki.NodeID (pki.Members c)))
                 (map pki.IP (List.filter pki.Admin (pki.Members c))) n in
      let exitID := exitPeerLocked n exit rs c in
      let '(r, active, found) := fold_left (add_member n rs nm c exitID) (pki.Members c) (base_room n rs c, active, false) in
      Ok (if fresh then [KickGossip id] else [], n, active, if found : bool then Some r else None).

(** ** Applying a network map *)

(** The loop over the rooms of the map; [desired] are the rooms to run. *)
Fixpoint desire (n : Node) (url : bytes) (st : nodestate.State) (nm : controller.NetMap) (rss : list controller.RoomState)
    (desired : gmap bytes config.Room) (active : gset bytes) : res error (list action * Node * gmap bytes config.Room * gset bytes) :=
  match rss with
  | [] => Ok ([], n, desired, active)
  | rs :: rss =>
    let id := controller.rs_RoomID rs in
    let keep := match rooms n !! id with Some cur => <[id := cfg cur]> desired | None => desired end in
    match nodestate.RoomKey_of st url id with
    | None => desire n url st nm rss desired active
    | Some key =>
      if nodestate.IsOff st id then desire n url st nm rss desired active
      else if bool_decide (controller.rs_Status rs = str "active") then
        match controller.Config rs with
        | None => if HasPrefix url nodestate.localPrefix then desire n url st nm rss keep active
                  else desire (set_pending (<[id := controller.rs_Status rs]> (pending n)) n) url st nm rss desired active
        | Some doc =>
          let n := set_pending (delete id (pending n)) n in
          match roomFromConfig n key rs doc nm active (nodestate.Exit st) with
          | Ok (acts, n, active, r) =>
            acts_rest ← desire n url st nm rss (match r with Some r => <[id := r]> desired | None => desired end) active;
            let '(acts', n, desired, active) := acts_rest in Ok (acts ++ acts', n, desired, active)
          | Err _ => desire n url st nm rss keep active
          | Panic => Panic
          end
        end
      else desire (set_pending (<[id := controller.rs_Status rs]> (pending n)) n) url st nm rss desired active
    end
  end.

(** Rooms of this controller that are not desired any more are left. *)
Fixpoint leave (n : Node) (url : bytes) (desired : gmap bytes config.Room) (order : list bytes) : list action * Node :=
  match order with
  | [] => ([], n)
  | key :: order =>
    match rooms n !! key with
    | Some r =>
      if bool_decide (controller_ r = url) && bool_decide (desired !! key = None) then
        let '(acts, n) := stopLocked n key in
        let '(acts', n) := leave n url desired order in (acts ++ acts', n)
      else leave n url desired order
    | None => leave n url desired order
    end
  end.

Definition samePolicy (a b : option acl.Policy) : bool :=
  match a, b with
  | Some a, Some b => bool_decide (acl.String (acl.Rules a) = acl.String (acl.Rules b))
                      && bool_decide (Sprint_members env (acl.Members a) = Sprint_members env (acl.Members b))
  | None, None => true
  | _, _ => false
  end.

Definition set_cfg (r : running) (rc : config.Room) : running := MkRunning (tagKey r) (controller_ r) rc.

(** A desired room is changed in place when its secret and address are those of
    the running one, and else started anew. *)
Definition start_room (n : Node) (url id : bytes) (rc : config.Room) : list action * Node :=
  let rc := config.set_Name (ifnameLocked n id (config.Name rc)) rc in
  match config.ValidateRoom rc with
  | Ok rc => match startLocked n id url rc with (Ok acts, n) => (acts, n) | (_, n) => ([], n) end
  | _ => ([], n)
  end.

Definition bring (n : Node) (url id : bytes) (rc : config.Room) : list action * Node :=
  match rooms n !! id with
  | Some cur =>
    if bool_decide (config.Secret (cfg cur) = config.Secret rc) && bool_decide (config.Address (cfg cur) = config.Address rc) then
      let rc := config.set_Name (config.Name (cfg cur)) rc in
      if negb (peers_set env id (config.Peers rc)) then ([SetPeers id (config.Peers rc)], n)
      else
        (SetPeers id (config.Peers rc) :: SetRoom id rc
           :: (if samePolicy (config.Policy (cfg cur)) (config.Policy rc) then [] else [SetPolicy id (config.Policy rc)]),
         set_rooms (<[id := set_cfg cur rc]> (rooms n)) n)
    else
      let '(acts, n) := stopLocked n id in
      let '(acts', n) := start_room n url id rc in (acts ++ acts', n)
  | None => start_room n url id rc
  end.

Fixpoint bring_all (n : Node) (url : bytes) (desired : gmap bytes config.Room) (order : list bytes) : list action * Node :=
  match order with
  | [] => ([], n)
  | id :: order =>
    match desired !! id with
    | Some rc => let '(acts, n) := bring n url id rc in
                 let '(acts', n) := bring_all n url desired order in (acts ++ acts', n)
    | None => bring_all n url desired order
    end
  end.

(** ** Kill switch and DNS *)

(** Is the kill switch wanted, and with the LAN? *)
Definition kill_switch (n : Node) (st : nodestate.State) : bool * bool :=
  let '(on, lan) :=
    match nodestate.Exit st with
    | Some c => if nodestate.exit_Off c then (false, false) else (nodestate.KillSwitch c, nodestate.AllowLAN c)
    | None =>
      if cfg_KillSwitch env then
        (bool_decide (map_Exists (fun url nm => Exists (fun rs =>
             nodestate.RoomKey_of st url (controller.rs_RoomID rs) <> None /\ controller.rs_Status rs = str "active"
             /\ controller.rs_UseExit rs <> []) (controller.nm_Rooms nm)) (last n)), cfg_KillSwitchAllowLAN env)
      else (false, false)
    end in
  (on && negb (cfg_Userspace env), lan).

(** [lanPrefixesLocked] *)
Definition fixed_lan : list Prefix :=
  [MkPrefix (Addr4 (224 * 2 ^ 24)) 4; MkPrefix (Addr4 (2 ^ 32 - 1)) 32; MkPrefix (Addr6 (be [254; 128] * 2 ^ 112) []) 10;
   MkPrefix (Addr6 (255 * 2 ^ 120) []) 8].
Definition lanPrefixesLocked (n : Node) : list Prefix :=
  fold_left (fun out p =>
    if IsLoopback (pfx_ip p) || IsLinkLocalUnicast (pfx_ip p) || (pfx_bits p =? 0)
       || bool_decide (map_Exists (fun _ r => Overlaps (Masked (config.Address (cfg r))) p = true) (rooms n))
       || bool_decide (p ∈ out)
    then out else out ++ [p]) (lan env) fixed_lan.

Definition room_name (n : Node) (k : bytes) : bytes :=
  match rooms n !! k with Some r => config.Name (cfg r) | None => [] end.

(** [updateKillSwitchLocked] *)
Definition updateKillSwitchLocked (n : Node) (st : nodestate.State) (keys : list bytes) : list action * Node :=
  let '(on, allow_lan) := kill_switch n st in
  let names := if on : bool then map (room_name n) keys else [] in
  let allowed := if on && allow_lan then lanPrefixesLocked n else [] in
  let key := if on then Sprint_rules env names allowed else [] in
  if bool_decide (key = ksKey n) then ([], n)
  else ([SetKillSwitch on names allowed], if ks_set env on names allowed then set_ksKey key n else n).

(** The room that carries DNS and its servers; [keys] are the
    rooms in the order of their names. *)
Definition dns_exit (own : list Addr) (off : bool) (n : Node) (s : bytes * list Addr) (k : bytes) : bytes * list Addr :=
  match rooms n !! k with
  | Some r =>
    let c := cfg r in
    if config.Exit c then
      (k, if negb (bool_decide (own = [])) then own
          else if negb off && negb (bool_decide (config.RoomDNS c = [])) then config.RoomDNS c
          else if IsValid (config.ExitDNS c) then [config.ExitDNS c]
          else s.2)
    else s
  | None => s
  end.
Definition dns_choice (n : Node) (st : nodestate.State) (keys : list bytes) : bytes * list Addr :=
  let '(own, off) := match nodestate.DNS st with
                     | Some c => (nodestate.Servers c, nodestate.dns_Off c)
                     | None => (cfg_DNS env, false)
                     end in
  let '(carrier, servers) := fold_left (dns_exit own off n) keys ([], []) in
  if negb (bool_decide (carrier = [])) then (carrier, servers)
  else
    let has k := match rooms n !! k with
                 | Some r => negb (bool_decide (own = [])) || negb off && negb (bool_decide (config.RoomDNS (cfg r) = []))
                 | None => false
                 end in
    match List.find has keys with
    | Some k => (k, if bool_decide (own = []) then match rooms n !! k with Some r => config.RoomDNS (cfg r) | None => [] end else own)
    | None => (carrier, servers)
    end.

(** [updateDNSLocked] *)
Definition updateDNSLocked (n : Node) (st : nodestate.State) (keys : list bytes) : list action :=
  let '(carrier, servers) := dns_choice n st keys in
  map (fun k => SetDNS k []) (List.filter (fun k => negb (bool_decide (k = carrier))) keys)
  ++ (if bool_decide (carrier = []) then [] else [SetDNS carrier servers]).

(** [apply]; [st] is the state file, when it can be read. *)
Definition apply (n : Node) (url : bytes) (nm : controller.NetMap) (st : option nodestate.State) (o : Orders)
    : res error (list action * Node) :=
  match st with
  | None => Ok ([], n)
  | Some st =>
    d ← desire (set_last (<[url := nm]> (last n)) n) url st nm (controller.nm_Rooms nm) ∅ ∅;
    let '(acts, n, desired, active) := d in
    let n := match disco n with
             | Some dm => set_disco (Some (discomgr.setPeers dm (now env) (ourRelay env) url (o_peers o)
                                             (fun id => bool_decide (id ∈ active)) (o_known o))) n
             | None => n
             end in
    let '(acts1, n) := leave n url desired (o_rooms o) in
    let '(acts2, n) := bring_all n url desired (o_desired o) in
    let '(acts3, n) := updateKillSwitchLocked n st (o_names o) in
    Ok (acts ++ acts1 ++ acts2 ++ acts3 ++ updateDNSLocked n st (o_names o), n)
  end.

(** [applyGossip]: the map that is applied for a configuration from a peer. *)
Definition gossip_map (n : Node) (roomID : bytes) (doc : pki.Signed) : option (bytes * controller.NetMap) :=
  r ← rooms n !! roomID;
  if bool_decide (controller_ r = []) then None
  else
    nm ← last n !! controller_ r;
    if existsb (fun rs => bool_decide (controller.rs_RoomID rs = roomID)) (controller.nm_Rooms nm) then
      Some (controller_ r,
            controller.MkNetMap (controller.Version nm) (controller.ObservedIP nm)
              (map (fun rs => if bool_decide (controller.rs_RoomID rs = roomID)
                              then controller.MkRoomState (controller.rs_RoomID rs) (str "active") (Some doc) (controller.rs_UseExit rs)
                              else rs) (controller.nm_Rooms nm))
              (controller.Peers nm))
    else None.

Definition applyGossip (n : Node) (roomID : bytes) (doc : pki.Signed) (st : option nodestate.State) (o : Orders)
    : res error (list action * Node) :=
  match gossip_map n roomID doc with
  | Some (url, nm) => apply n url nm st o
  | None => Ok ([], n)
  end.

(** [startProvisional]: a room that the owner has accepted this node into runs
    with the owner as its only peer until the signed configuration arrives. *)
Definition provisional_room (n : Node) (r : nodestate.LocalRoom) (j : nodestate.LocalJoin) : config.Room :=
  let link := nodestate.Invite j in
  config.MkRoom (ifnameLocked n (nodestate.RoomID r) (nodestate.Name r)) (nodestate.l_Secret link)
    (PrefixFrom (nodestate.j_IP j) (pfx_bits (nodestate.l_Subnet link))) config.DefaultMTU [] None
    [config.MkPeer (str "owner") (nodestate.OwnerWG link)
       (match nodestate.l_Endpoints link with e :: _ => localsync.AddrPort_String e | [] => [] end)
       [PrefixFrom (nodestate.OwnerIP link) 32] PeerKeepalive]
    [] [] false false AddrZero [] [] ∅ false None ∅ [] ∅.

Definition owner_peer (link : nodestate.LocalLink) : controller.Peer :=
  controller.MkPeer AddrZero 0 (nodestate.l_Endpoints link) [] AddrPortZero [] (nodestate.OwnerDisco link) [] true.

(** The address of the owner is read without a test: an invite without one
    panics, but [ParseLocalLink] refuses those. *)
Definition startProvisional (n : Node) (r : nodestate.LocalRoom) (j : nodestate.LocalJoin) (known : list bytes) : res error (list action * Node) :=
  let link := nodestate.Invite j in
  let url := nodestate.localPrefix ++ nodestate.RoomID r in
  match rooms n !! nodestate.RoomID r with
  | Some _ => Ok ([], n)
  | None =>
    if bool_decide (nodestate.l_Endpoints link = []) then Panic
    else
      let rc := provisional_room n r j in
      let peers := {[nodestate.Owner link := owner_peer link]} in
      let nm := controller.MkNetMap 0 AddrZero [controller.MkRoomState (nodestate.RoomID r) (str "active") None []] peers in
      match startLocked (set_last (<[url := nm]> (last n)) n) (nodestate.RoomID r) url rc with
      | (Ok acts, n) =>
        Ok (acts, match disco n with
                  | Some d => set_disco (Some (discomgr.setPeers d (now env) (ourRelay env) url [(nodestate.Owner link, owner_peer link)]
                                                 (fun id => bool_decide (id = nodestate.Owner link)) known)) n
                  | None => n
                  end)
      | (_, n) => Ok ([], n)
      end
  end.

End Crypto.

End node.
