(* ===== verification/NodeInv.v ===== *)
(** What holds of a node's rooms in every reachable state: they come from
    configurations signed with the pinned key, never from an older one, and do
    not overlap. A local room that still waits for its first configuration has the
    owner of the invite as its only peer. *)
From stdpp Require Import base gmap list strings.
From Stdlib Require Import ZArith Lia.
From S2P Require Import Prelude GoStrings GoText Netip Acl Crypto Obfs Identity Pki RelayProto Magicsock Store Controller DiscoMgr Config Names NodeState LocalSync Node.

Open Scope Z_scope.

Module nodeinv.
Import node.

Section Node.
Context `{CR : Crypto} `{J : pki.Json}.

(** ** The room that a configuration describes *)

Section Describe.
Context (self : bytes).

Definition others (ms : list pki.Member) : list pki.Member := List.filter (fun m => negb (bool_decide (pki.NodeID m = self))) ms.

(** The peer of a member: packets to its address and to networks that were
    approved for it go there, and everything else only when the member is an
    approved exit. *)
Record peer_from (c : pki.RoomConfig) (m : pki.Member) (p : config.Peer) : Prop := {
  pf_key : config.PublicKey p = pki.WGKey m;
  pf_allowed : exists rs ex, config.AllowedIPs p = PrefixFrom (pki.IP m) 32 :: rs ++ ex
    /\ Forall (fun r => r ∈ pki.Routes m /\ Overlaps r (pki.Subnet c) = false) rs
    /\ (ex = [] \/ (ex = [PrefixFrom IPv4Unspecified 0]
        /\ (pki.NodeID m <> [] -> exists m', m' ∈ pki.Members c /\ pki.NodeID m' = pki.NodeID m /\ pki.Exit m' = true))) }.

(** The room as it runs: this node is a member, with its own address, and the
    peers are the other members. *)
Record room_from (c : pki.RoomConfig) (r : config.Room) : Prop := {
  rf_secret : config.Secret r = pki.Secret c;
  rf_self : exists m, m ∈ pki.Members c /\ pki.NodeID m = self
    /\ config.Address r = PrefixFrom (pki.IP m) (pfx_bits (pki.Subnet c)) /\ config.Routing r = pki.Routes m
    /\ (config.ExitNode r = true -> pki.Exit m = true);
  rf_peers : Forall2 (peer_from c) (others (pki.Members c)) (config.Peers r);
  rf_policy : config.Policy r = policy_of c;
  rf_broadcast : config.Broadcast r = pki.Broadcast c }.

Lemma room_from_name c r name : room_from c r -> room_from c (config.set_Name name r).
Proof. by intros []. Qed.

Lemma room_from_fill c r : room_from c r -> room_from c (config.fill r).
Proof. unfold config.fill. destruct (_ =? _); [| done]. by intros []. Qed.

End Describe.

Lemma exitPeer_approved env n choice rs c : exitPeerLocked env n choice rs c <> [] ->
  exists m, m ∈ pki.Members c /\ pki.NodeID m = exitPeerLocked env n choice rs c /\ pki.Exit m = true.
Proof.
  set (P := fun id => id <> [] -> exists m, m ∈ pki.Members c /\ pki.NodeID m = id /\ pki.Exit m = true).
  assert (forall a b, P (default [] (list.last (exit_ids env a b c)))) as H.
  { intros a b. destruct (list.last _) as [id |] eqn:Hl; [| by intros []]. intros _. simpl.
    apply last_Some_elem_of in Hl. unfold exit_ids in Hl. apply list_elem_of_fmap in Hl as (m & -> & Hm).
    apply list_elem_of_In, filter_In in Hm as [Hm Hb]. exists m. apply andb_prop in Hb as [_ Hb]. split; [by apply list_elem_of_In | done]. }
  change (P (exitPeerLocked env n choice rs c)). unfold exitPeerLocked.
  assert (forall (b : bool) id, P id -> P (if b then [] else id)) as Hif by (intros [] id Hid; [by intros [] | done]).
  destruct choice as [ch |].
  - destruct (nodestate.exit_Off ch); [by intros [] |]. destruct (_ && _); [by intros [] |]. apply Hif, H.
  - case_bool_decide; [by intros [] |]. apply Hif, H.
Qed.

Lemma add_peer_from env n rs nm c exitID r m : (exitID <> [] -> exists m', m' ∈ pki.Members c /\ pki.NodeID m' = exitID /\ pki.Exit m' = true) ->
  exists p, config.Peers (add_peer env n rs nm c exitID r m) = config.Peers r ++ [p] /\ peer_from c m p.
Proof.
  intros He. eexists. split; [done |]. split; [done |]. cbn [config.AllowedIPs].
  eexists _, _. split; [done |]. split.
  - apply Forall_forall. intros x Hx%list_elem_of_In. apply filter_In in Hx as [Hx Hb]. split; [by apply list_elem_of_In |].
    apply negb_true_iff in Hb. unfold routeConflictLocked in Hb. apply orb_false_elim in Hb as [Hb _]. by apply orb_false_elim in Hb as [? _].
  - case_bool_decide as Hid; [right | by left]. split; [done |]. intros Hne. rewrite Hid in Hne |- *. by apply He.
Qed.

Lemma members_loop env n rs nm c exitID ms : (exitID <> [] -> exists m', m' ∈ pki.Members c /\ pki.NodeID m' = exitID /\ pki.Exit m' = true) ->
  forall r active found, let '(r', active', found') := fold_left (add_member env n rs nm c exitID) ms (r, active, found) in
    config.Secret r' = config.Secret r /\ config.Policy r' = config.Policy r /\ config.Broadcast r' = config.Broadcast r
    /\ (exists ps, config.Peers r' = config.Peers r ++ ps /\ Forall2 (peer_from c) (others (me env) ms) ps)
    /\ active' = list_to_set (map pki.NodeID (others (me env) ms)) ∪ active
    /\ ((found' = found /\ Forall (fun m => pki.NodeID m <> me env) ms
         /\ config.Address r' = config.Address r
         /\ config.Routing r' = config.Routing r /\ config.ExitNode r' = config.ExitNode r)
        \/ (found' = true /\ exists m, m ∈ ms /\ pki.NodeID m = me env
            /\ config.Address r' = PrefixFrom (pki.IP m) (pfx_bits (pki.Subnet c)) /\ config.Routing r' = pki.Routes m
            /\ (config.ExitNode r' = true -> pki.Exit m = true))).
Proof.
  intros He. induction ms as [| m ms IH]; intros r active found.
  { simpl. split_and!; try done; [exists []; by rewrite app_nil_r | set_solver | by left]. }
  cbn [fold_left]. unfold add_member at 2. unfold others. cbn [List.filter]. case_bool_decide as Hm; cbn [negb].
  - specialize (IH (set_self (PrefixFrom (pki.IP m) (pfx_bits (pki.Subnet c))) (pki.Routes m) (pki.Exit m && AdvertiseExit env) r) active true).
    destruct (fold_left _ ms _) as [[r' active'] found'].
    destruct IH as (H1 & H2 & H3 & H4 & H5 & H6). split_and!; try done. right.
    destruct H6 as [(-> & Hall & Ha) | (-> & m' & Hin & Hm' & H)]; (split; [done |]).
    + destruct Ha as (Ha & Hr & Hx). exists m. split_and!; [by left | done | done | done |]. rewrite Hx. simpl. by intros [? _]%andb_prop.
    + exists m'. split; [by right | done].
  - specialize (IH (add_peer env n rs nm c exitID r m) ({[pki.NodeID m]} ∪ active) found).
    destruct (fold_left _ ms _) as [[r' active'] found'].
    destruct IH as (H1 & H2 & H3 & (ps & H4 & H4') & H5 & H6). split_and!; try done.
    + destruct (add_peer_from env n rs nm c exitID r m He) as (p & Hp & Hpf). exists (p :: ps).
      rewrite H4, Hp, <- app_assoc. split; [done |]. by constructor.
    + rewrite H5. simpl. set_solver.
    + destruct H6 as [(-> & Hall & Ha) | (-> & m' & Hin & Hm' & H)]; [left | right]; (split; [done |]).
      * split; [by constructor | done].
      * exists m'. split; [by right | done].
Qed.

(** A document that verifies under the key. *)
Definition verifies (key : bytes) (doc : pki.Signed) (c : pki.RoomConfig) : Prop :=
  exists pub, pki.ParseRoomKey key = Ok pub /\ pki.VerifyRoomConfig pub doc = Ok c.

Definition member_ids (c : pki.RoomConfig) : gset bytes := list_to_set (map pki.NodeID (pki.Members c)).
Definition admin_ips (c : pki.RoomConfig) : list Addr := map pki.IP (List.filter pki.Admin (pki.Members c)).

(** Is the document the first one of its version? *)
Definition is_fresh (n : Node) (id : bytes) (c : pki.RoomConfig) : bool :=
  (default 0 (versions n !! id) <? pki.Version c) || bool_decide (signed n !! id = None).
Definition taken (n : Node) (id : bytes) (doc : pki.Signed) (c : pki.RoomConfig) : Node :=
  accept_config id (pki.Version c) (if is_fresh n id c then <[id := doc]> (signed n) else signed n) (member_ids c) (admin_ips c) n.

Lemma ParseRoomKey_no_panic key : pki.ParseRoomKey key <> Panic.
Proof. unfold pki.ParseRoomKey. destruct (rawurl_decode _); [by destruct (_ =? _) | done]. Qed.

Lemma roomFromConfig_ok env n key rs doc nm active exit :
  let id := controller.rs_RoomID rs in
  match roomFromConfig env n key rs doc nm active exit with
  | Panic => False
  | Err _ => forall c, verifies key doc c -> pki.RoomID c <> id \/ pki.Version c < default 0 (versions n !! id)
  | Ok (acts, n', active', r) =>
    exists c, verifies key doc c /\ pki.RoomID c = id /\ default 0 (versions n !! id) <= pki.Version c
      /\ n' = taken n id doc c
      /\ match r with
         | Some rc => room_from (me env) c rc
         | None => Forall (fun m => pki.NodeID m <> me env) (pki.Members c)
         end
      /\ active' = list_to_set (map pki.NodeID (others (me env) (pki.Members c))) ∪ active
  end.
Proof.
  intros id. unfold roomFromConfig. fold id. destruct (pki.ParseRoomKey key) as [pub | e |] eqn:Hk.
  2: { cbn. intros c (pub & Hp & _). congruence. }
  2: { by apply ParseRoomKey_no_panic in Hk. }
  cbn [map_err mbind res_bind]. destruct (pki.VerifyRoomConfig pub doc) as [c | e |] eqn:Hv.
  2: { cbn. intros c (pub' & Hp & Hc). congruence. }
  2: { by apply pki.Verify_no_panic in Hv. }
  assert (forall c', verifies key doc c' -> c' = c) as Huniq by (intros c' (pub' & Hp & Hc); congruence).
  cbn [map_err mbind res_bind]. case_bool_decide as Hid; cbn [negb].
  2: { intros c' Hc'. rewrite (Huniq c' Hc'). by left. }
  destruct (Z.ltb_spec (pki.Version c) (default 0 (versions n !! id))).
  { intros c' Hc'. rewrite (Huniq c' Hc'). by right. }
  fold (is_fresh n id c) (member_ids c) (admin_ips c) (taken n id doc c). set (n' := taken n id doc c).
  pose proof (members_loop env n' rs nm c (exitPeerLocked env n' exit rs c) (pki.Members c)
    (exitPeer_approved env n' exit rs c) (base_room n' rs c) active false) as Hml.
  destruct (fold_left _ _ _) as [[r active'] found]. destruct Hml as (H1 & H2 & H3 & (ps & H4 & H4') & H5 & H6).
  exists c. split_and!; try done; [by exists pub |].
  destruct H6 as [(-> & Hall & _) | (-> & Hself)]; [done |].
  split; try done. by rewrite H4.
Qed.

(** ** The keys that were pinned

    [Pinned url id key]: a state file pinned the key of the room at the
    controller. [Joined id j]: a state file had the local room waiting for its
    first configuration, its owner having answered the join with an address. *)
Context (Pinned : bytes -> bytes -> bytes -> Prop) (Joined : bytes -> nodestate.LocalJoin -> Prop) (sd : bytes).

Definition self : bytes := identity.NodeID sd.

(** The room's configuration is signed with a pinned key. *)
Definition vouched (id : bytes) (c : pki.RoomConfig) : Prop :=
  exists url key doc, Pinned url id key /\ verifies key doc c /\ pki.RoomID c = id.

(** A local room that waits for its first configuration: this node has the
    address the owner gave it, and the owner of the invite, with the key, the
    single address and the first endpoint of the invite, is its only peer; nothing is routed. *)
Definition provisional (id : bytes) (rc : config.Room) : Prop :=
  exists j, Joined id j /\ let link := nodestate.Invite j in
    config.Secret rc = nodestate.l_Secret link
    /\ config.Address rc = PrefixFrom (nodestate.j_IP j) (pfx_bits (nodestate.l_Subnet link))
    /\ config.Peers rc = [config.MkPeer (str "owner") (nodestate.OwnerWG link)
                               (match nodestate.l_Endpoints link with a :: _ => localsync.AddrPort_String a | [] => [] end)
                               [PrefixFrom (nodestate.OwnerIP link) 32] PeerKeepalive]
    /\ config.Routes rc = [] /\ config.Routing rc = [] /\ config.Exit rc = false /\ config.ExitNode rc = false.

Lemma provisional_name id rc name : provisional id rc -> provisional id (config.set_Name name rc).
Proof. done. Qed.
Lemma provisional_fill id rc : provisional id rc -> provisional id (config.fill rc).
Proof. unfold config.fill. by destruct (_ =? _). Qed.

(** Where a running room comes from: the configuration file, an invite, or a
    document no newer than the last one accepted. *)
Definition static (id : bytes) : Prop := HasPrefix id (str "static:") = true.
Definition origin (n : Node) (id : bytes) (rc : config.Room) : Prop :=
  static id \/ provisional id rc
  \/ exists c v, vouched id c /\ versions n !! id = Some v /\ pki.Version c <= v /\ room_from self c rc.

Record node_inv (n : Node) : Prop := {
  ni_signed : forall id doc, signed n !! id = Some doc ->
    exists url key c, Pinned url id key /\ verifies key doc c /\ pki.RoomID c = id /\ versions n !! id = Some (pki.Version c);
  ni_versions : forall id v, versions n !! id = Some v -> is_Some (signed n !! id);
  ni_members : forall id s, members n !! id = Some s ->
    exists c, vouched id c /\ s = member_ids c /\ admins n !! id = Some (admin_ips c) /\ versions n !! id = Some (pki.Version c);
  ni_origin : forall id r, rooms n !! id = Some r -> origin n id (cfg r);
  ni_disjoint : forall i j ri rj, rooms n !! i = Some ri -> rooms n !! j = Some rj -> i <> j ->
    Overlaps (Masked (config.Address (cfg ri))) (Masked (config.Address (cfg rj))) = false }.

(** Versions only grow. *)
Definition grows (n n' : Node) : Prop :=
  forall id v, versions n !! id = Some v -> exists v', versions n' !! id = Some v' /\ v <= v'.

Lemma grows_refl n : grows n n.
Proof. intros id v H. exists v. split; [done | lia]. Qed.
Lemma grows_trans n1 n2 n3 : grows n1 n2 -> grows n2 n3 -> grows n1 n3.
Proof. intros H1 H2 id v H. destruct (H1 id v H) as (v' & H' & ?). destruct (H2 id v' H') as (v'' & ? & ?). exists v''. split; [done | lia]. Qed.
Lemma grows_same n n' : versions n' = versions n -> grows n n'.
Proof. intros E id v H. exists v. rewrite E. split; [done | lia]. Qed.

Lemma origin_grows n n' id rc : grows n n' -> origin n id rc -> origin n' id rc.
Proof.
  intros Hg [H | [H | (c & v & Hc & Hv & Hle & Hr)]]; [by left | by right; left |].
  right. right. destruct (Hg id v Hv) as (v' & Hv' & ?). exists c, v'. split_and!; [done | done | lia | done].
Qed.

Lemma origin_name n id rc name : origin n id rc -> origin n id (config.set_Name name rc).
Proof.
  intros [H | [H | (c & v & Hc & Hv & Hle & Hr)]]; [by left | by right; left | right; right].
  exists c, v. split_and!; try done. by apply room_from_name.
Qed.

Lemma origin_fill n id rc : origin n id rc -> origin n id (config.fill rc).
Proof.
  intros [H | [H | (c & v & Hc & Hv & Hle & Hr)]]; [by left | right; left; by apply provisional_fill | right; right].
  exists c, v. split_and!; try done. by apply room_from_fill.
Qed.

Lemma taken_grows n id doc c : default 0 (versions n !! id) <= pki.Version c -> grows n (taken n id doc c).
Proof.
  intros Hle i v Hv. simpl. destruct (decide (i = id)) as [-> |].
  - rewrite lookup_insert_eq. eexists. split; [done |]. by rewrite Hv in Hle.
  - exists v. rewrite lookup_insert_ne by done. split; [done | lia].
Qed.

(** A document that was checked is taken. *)
Lemma taken_inv n url id key doc c : node_inv n -> Pinned url id key -> verifies key doc c -> pki.RoomID c = id ->
  default 0 (versions n !! id) <= pki.Version c -> node_inv (taken n id doc c).
Proof.
  intros [Hs Hv Hm Ho Hd] Hp Hver Hid Hle. split; simpl.
  - intros i d. unfold is_fresh. intros Hi. destruct (decide (i = id)) as [-> |].
    + rewrite lookup_insert_eq. destruct (_ || _) eqn:Hf.
      * rewrite lookup_insert_eq in Hi. injection Hi as <-. by exists url, key, c.
      * apply orb_false_elim in Hf as [Hf _]. apply Z.ltb_ge in Hf.
        destruct (Hs _ _ Hi) as (u' & k' & c' & ? & ? & ? & Hv'). exists u', k', c'. split_and!; try done.
        rewrite Hv' in Hf, Hle. simpl in *. f_equal. lia.
    + rewrite lookup_insert_ne by done. apply Hs. destruct (_ || _); [by rewrite lookup_insert_ne in Hi | done].
  - intros i v. unfold is_fresh. destruct (decide (i = id)) as [-> |].
    + intros _. destruct (_ || _) eqn:Hf; [rewrite lookup_insert_eq; eauto |].
      apply orb_false_elim in Hf as [_ Hf]. apply bool_decide_eq_false in Hf. by apply not_eq_None_Some.
    + rewrite lookup_insert_ne by done. intros Hi. destruct (_ || _); [rewrite lookup_insert_ne by done |]; by apply (Hv i v).
  - intros i s. destruct (decide (i = id)) as [-> |].
    + rewrite !lookup_insert_eq. intros [= <-]. exists c. split_and!; try done. by exists url, key, doc.
    + rewrite !lookup_insert_ne by done. apply Hm.
  - intros i r Hi. eapply origin_grows; [by apply taken_grows | by apply Ho].
  - exact Hd.
Qed.

(** ** The steps of [apply] *)

(** The rooms may only become fewer, or differ at one key. *)
Lemma inv_rooms n n' : node_inv n -> versions n' = versions n -> signed n' = signed n -> members n' = members n -> admins n' = admins n ->
  (forall id r, rooms n' !! id = Some r -> origin n id (cfg r)) ->
  (forall i j ri rj, rooms n' !! i = Some ri -> rooms n' !! j = Some rj -> i <> j ->
    Overlaps (Masked (config.Address (cfg ri))) (Masked (config.Address (cfg rj))) = false) -> node_inv n'.
Proof.
  intros [Hs Hv Hm Ho Hd] Ev Es Em Ea Hor Hdis. split; rewrite ?Es, ?Ev, ?Em, ?Ea; try done.
  intros id r Hi. eapply origin_grows; [by apply grows_same | by apply Hor].
Qed.

Lemma stop_inv n key : node_inv n -> node_inv (stopLocked n key).2.
Proof.
  intros Hn. unfold stopLocked. destruct (rooms n !! key) as [r |]; [| done].
  apply (inv_rooms n); try done; simpl.
  - intros id r'. rewrite lookup_delete_Some. intros [_ ?]. by apply (ni_origin n Hn).
  - intros i j ri rj. rewrite !lookup_delete_Some. intros [_ ?] [_ ?]. by apply (ni_disjoint n Hn).
Qed.

Lemma stop_rooms n key id : rooms (stopLocked n key).2 !! id = if decide (id = key) then None else rooms n !! id.
Proof.
  unfold stopLocked. destruct (rooms n !! key) as [r |] eqn:Hr; simpl.
  - destruct (decide (id = key)) as [-> |]; [by rewrite lookup_delete_eq | by rewrite lookup_delete_ne].
  - by destruct (decide (id = key)) as [-> |].
Qed.

Lemma stop_versions n key : versions (stopLocked n key).2 = versions n.
Proof. unfold stopLocked. by destruct (rooms n !! key). Qed.

Lemma start_inv env n key ctrl rc : node_inv n -> origin n key rc -> node_inv (startLocked env n key ctrl rc).2.
Proof.
  intros Hn Ho. unfold startLocked. case_bool_decide as Hov; [done |].
  destruct (magicsock.Bind _ _) as [[b c] | |]; [| done ..].
  assert (forall id r, rooms n !! id = Some r -> Overlaps (Masked (config.Address (cfg r))) (Masked (config.Address rc)) = false) as Hno.
  { intros id r Hr. apply not_true_iff_false. intros E. apply Hov. by exists id, r. }
  destruct (room_up env key rc); simpl; [| by destruct Hn].
  apply (inv_rooms n); try done; simpl.
  - intros id r. destruct (decide (id = key)) as [-> |].
    + rewrite lookup_insert_eq. by intros [= <-].
    + rewrite lookup_insert_ne by done. apply (ni_origin n Hn).
  - intros i j ri rj. destruct (decide (i = key)) as [-> |], (decide (j = key)) as [-> |]; rewrite ?lookup_insert_eq, ?lookup_insert_ne by done.
    + done.
    + intros [= <-] Hj _. rewrite Overlaps_sym. by apply (Hno j).
    + intros Hi [= <-] _. by apply (Hno i).
    + by apply (ni_disjoint n Hn).
Qed.

Lemma start_same env n key ctrl rc : let n' := (startLocked env n key ctrl rc).2 in
  versions n' = versions n /\ forall id, id <> key -> rooms n' !! id = rooms n !! id.
Proof.
  unfold startLocked. case_bool_decide; [done |]. destruct (magicsock.Bind _ _) as [[b c] | |]; [| done ..].
  destruct (room_up _ _ _); [| done]. simpl. split; [done |]. intros id Hne. by rewrite lookup_insert_ne.
Qed.

Lemma start_room_inv env n url id rc : node_inv n -> origin n id rc -> node_inv (start_room env n url id rc).2.
Proof.
  intros Hn Ho. unfold start_room. destruct (config.ValidateRoom _) as [rc' | |] eqn:Hv; [| done ..].
  apply config.ValidateRoom_ok in Hv as [-> _].
  pose proof (start_inv env n id url _ Hn (origin_fill _ _ _ (origin_name _ _ _ (ifnameLocked n id (config.Name rc)) Ho))) as H.
  by destruct (startLocked _ _ _ _ _) as [[acts | |] n'].
Qed.

Lemma start_room_same env n url id rc : let n' := (start_room env n url id rc).2 in
  versions n' = versions n /\ forall k, k <> id -> rooms n' !! k = rooms n !! k.
Proof.
  unfold start_room. destruct (config.ValidateRoom _) as [rc' | |]; [| done ..].
  pose proof (start_same env n id url rc') as H. by destruct (startLocked _ _ _ _ _) as [[acts | |] n'].
Qed.

Lemma bring_inv env n url id rc : node_inv n -> origin n id rc -> node_inv (bring env n url id rc).2.
Proof.
  intros Hn Ho. unfold bring. destruct (rooms n !! id) as [cur |] eqn:Hcur; [| by apply start_room_inv].
  destruct (_ && _) eqn:Hsame.
  - destruct (peers_set _ _ _); [| done]. simpl. bool_hyps. apply (inv_rooms n); try done; simpl.
    + intros k r. destruct (decide (k = id)) as [-> |].
      * rewrite lookup_insert_eq. intros [= <-]. by apply origin_name.
      * rewrite lookup_insert_ne by done. apply (ni_origin n Hn).
    + assert (forall k r, <[id := set_cfg cur (config.set_Name (config.Name (cfg cur)) rc)]> (rooms n) !! k = Some r ->
        exists r', rooms n !! k = Some r' /\ config.Address (cfg r) = config.Address (cfg r')) as Hadr.
      { intros k r. destruct (decide (k = id)) as [-> |].
        - rewrite lookup_insert_eq. intros [= <-]. exists cur. by split.
        - rewrite lookup_insert_ne by done. eauto. }
      intros i j ri rj Hi Hj Hne. destruct (Hadr i ri Hi) as (ri' & Hi' & ->), (Hadr j rj Hj) as (rj' & Hj' & ->).
      by apply (ni_disjoint n Hn i j).
  - pose proof (stop_inv n id Hn) as Hs. pose proof (stop_versions n id) as Hv. destruct (stopLocked n id) as [acts n1]. simpl in *.
    assert (origin n1 id rc) as Ho1 by (eapply origin_grows; [by apply grows_same | done]).
    pose proof (start_room_inv env n1 url id rc Hs Ho1) as H. by destruct (start_room _ _ _ _ _).
Qed.

Lemma bring_same env n url id rc : let n' := (bring env n url id rc).2 in
  versions n' = versions n /\ forall k, k <> id -> rooms n' !! k = rooms n !! k.
Proof.
  unfold bring. destruct (rooms n !! id) as [cur |]; [| apply start_room_same]. destruct (_ && _).
  - destruct (peers_set _ _ _); [| done]. simpl. split; [done |]. intros k Hk. by rewrite lookup_insert_ne.
  - pose proof (stop_versions n id) as Hv. pose proof (fun k => stop_rooms n id k) as Hr. destruct (stopLocked n id) as [acts n1]. simpl in *.
    pose proof (start_room_same env n1 url id rc) as [H1 H2]. destruct (start_room _ _ _ _ _) as [acts' n2]. simpl in *.
    split; [congruence |]. intros k Hk. rewrite H2 by done. rewrite Hr. by rewrite decide_False.
Qed.

(** The rooms to run: each is pinned and has an origin. *)
Definition desired_ok (n : Node) (url : bytes) (st : nodestate.State) (desired : gmap bytes config.Room) : Prop :=
  forall id rc, desired !! id = Some rc -> origin n id rc /\ is_Some (nodestate.RoomKey_of st url id).

Lemma desired_grows n n' url st d : grows n n' -> desired_ok n url st d -> desired_ok n' url st d.
Proof. intros Hg Hd id rc H. destruct (Hd id rc H). split; [by eapply origin_grows | done]. Qed.

Lemma desired_insert n url st d id rc : desired_ok n url st d -> origin n id rc -> is_Some (nodestate.RoomKey_of st url id) ->
  desired_ok n url st (<[id := rc]> d).
Proof.
  intros Hd Ho Hp i r. destruct (decide (i = id)) as [-> |].
  - rewrite lookup_insert_eq. by intros [= <-].
  - rewrite lookup_insert_ne by done. apply Hd.
Qed.

Lemma pending_inv n m : node_inv n -> node_inv (set_pending m n).
Proof. by intros []. Qed.

(** What the loop over the rooms of a map leaves alone. *)
Definition same_rooms (n n' : Node) : Prop := rooms n' = rooms n /\ sock n' = sock n /\ disco n' = disco n /\ last n' = last n.

Lemma desire_ok env url st nm : seed env = sd -> (forall id key, nodestate.RoomKey_of st url id = Some key -> Pinned url id key) ->
  forall rss n d active, node_inv n -> desired_ok n url st d ->
  match desire env n url st nm rss d active with
  | Ok (acts, n', d', active') => node_inv n' /\ grows n n' /\ same_rooms n n' /\ desired_ok n' url st d'
  | _ => False
  end.
Proof.
  intros Hsd Hpin. induction rss as [| rs rss IH]; intros n d active Hn Hd.
  { split_and!; [done | apply grows_refl | by split | done]. }
  cbn [desire]. set (id := controller.rs_RoomID rs).
  destruct (nodestate.RoomKey_of st url id) as [key |] eqn:Hkey; [| by apply IH].
  destruct (nodestate.IsOff st id); [by apply IH |].
  assert (desired_ok n url st (match rooms n !! id with Some cur => <[id := cfg cur]> d | None => d end)) as Hkeep.
  { destruct (rooms n !! id) as [cur |] eqn:Hcur; [| done]. apply desired_insert; [done | by apply (ni_origin n Hn) |]. by rewrite Hkey. }
  case_bool_decide; [| by apply (IH (set_pending _ n)); [apply pending_inv |]].
  destruct (controller.Config rs) as [doc |].
  2: { destruct (HasPrefix _ _); [by apply IH | by apply (IH (set_pending _ n)); [apply pending_inv |]]. }
  pose proof (roomFromConfig_ok env (set_pending (delete id (pending n)) n) key rs doc nm active (nodestate.Exit st)) as Hr.
  cbv zeta in Hr. fold id in Hr. destruct (roomFromConfig _ _ _ _ _ _ _ _) as [[[[acts n1] active1] r] | e |]; [| | done].
  2: { apply (IH (set_pending _ n)); [by apply pending_inv | done]. }
  destruct Hr as (c & Hver & Hid & Hle & -> & Hroom & ->).
  set (n1 := taken (set_pending (delete id (pending n)) n) id doc c).
  assert (node_inv n1) as Hn1 by (apply (taken_inv _ url id key doc c); [by apply pending_inv | by apply Hpin | done ..]).
  assert (grows n n1) as Hg by exact (taken_grows (set_pending (delete id (pending n)) n) id doc c Hle).
  assert (desired_ok n1 url st (match r with Some r => <[id := r]> d | None => d end)) as Hd1.
  { destruct r as [r |]; [| by eapply desired_grows]. apply desired_insert; [by eapply desired_grows | | by rewrite Hkey].
    right. right. exists c, (pki.Version c). split_and!; [by exists url, key, doc; split_and!; [apply Hpin | |] | | lia |].
    - simpl. by rewrite lookup_insert_eq.
    - unfold self. rewrite <- Hsd. exact Hroom. }
  specialize (IH n1 (match r with Some r => <[id := r]> d | None => d end)
    (list_to_set (map pki.NodeID (others (me env) (pki.Members c))) ∪ active) Hn1 Hd1).
  destruct (desire _ n1 _ _ _ _ _ _) as [[[[acts' n2] d2] active2] | |]; cbn [mbind res_bind]; [| done ..].
  destruct IH as (? & ? & Hs & ?). split_and!; [done | by eapply grows_trans | | done].
  destruct Hs as (E1 & E2 & E3 & E4). by split_and!.
Qed.

Lemma leave_ok url d order : forall n, node_inv n -> let n' := (leave n url d order).2 in
  node_inv n' /\ versions n' = versions n
  /\ (forall id r, rooms n' !! id = Some r -> rooms n !! id = Some r)
  /\ (forall id r, rooms n !! id = Some r -> controller_ r <> url \/ d !! id <> None -> rooms n' !! id = Some r)
  /\ (forall id r, rooms n' !! id = Some r -> id ∈ order -> controller_ r <> url \/ d !! id <> None).
Proof.
  induction order as [| key order IH]; intros n Hn.
  { simpl. split_and!; try done. intros ? ? _ []%elem_of_nil. }
  cbn [leave]. destruct (rooms n !! key) as [r |] eqn:Hr.
  - destruct (_ && _) eqn:Hb.
    + bool_hyps. pose proof (stop_inv n key Hn) as Hs. pose proof (stop_versions n key) as Hv.
      pose proof (fun k => stop_rooms n key k) as Hk. destruct (stopLocked n key) as [acts n1]. simpl in Hs, Hv, Hk.
      specialize (IH n1 Hs). destruct (leave n1 _ _ _) as [acts' n2]. simpl in *.
      destruct IH as (? & Hv2 & H1 & H2 & H3). split_and!; [done | congruence | | |].
      * intros id r' Hi. apply H1 in Hi. rewrite Hk in Hi. by destruct (decide (id = key)).
      * intros id r' Hi Hc. apply H2; [| done]. rewrite Hk. destruct (decide (id = key)) as [-> |]; [| done].
        simplify_eq. by destruct Hc.
      * intros id r' Hi [-> | Hin]%elem_of_cons; [| by apply H3]. apply H1 in Hi. rewrite Hk in Hi. by rewrite decide_True in Hi.
    + destruct (IH n Hn) as (? & ? & H1 & H2 & H3). split_and!; try done.
      intros id r' Hi [-> | Hin]%elem_of_cons; [| by apply H3]. apply H1 in Hi. simplify_eq.
      apply andb_false_iff in Hb as [Hb | Hb]; apply bool_decide_eq_false in Hb; tauto.
  - destruct (IH n Hn) as (? & ? & H1 & H2 & H3). split_and!; try done.
    intros id r' Hi [-> | Hin]%elem_of_cons; [| by apply H3]. apply H1 in Hi. congruence.
Qed.

Lemma bring_all_ok env url d order : forall n, node_inv n -> (forall id rc, d !! id = Some rc -> origin n id rc) ->
  let n' := (bring_all env n url d order).2 in
  node_inv n' /\ versions n' = versions n /\ forall id, d !! id = None -> rooms n' !! id = rooms n !! id.
Proof.
  induction order as [| id order IH]; intros n Hn Hd; [done |]. cbn [bring_all].
  destruct (d !! id) as [rc |] eqn:Hrc; [| by apply IH].
  pose proof (bring_inv env n url id rc Hn (Hd id rc Hrc)) as Hn1.
  pose proof (bring_same env n url id rc) as [Hv1 Hk1]. destruct (bring _ _ _ _ _) as [acts n1]. simpl in *.
  destruct (IH n1 Hn1) as (Hn2 & Hv2 & Hk2).
  { intros i r Hi. eapply origin_grows; [by apply grows_same | by apply Hd]. }
  destruct (bring_all _ n1 _ _ _) as [acts' n2]. simpl in *. split_and!; [done | congruence |].
  intros i Hi. rewrite Hk2 by done. apply Hk1. congruence.
Qed.

Lemma ks_same env n st keys : exists k, (updateKillSwitchLocked env n st keys).2 = set_ksKey k n.
Proof.
  unfold updateKillSwitchLocked. destruct (kill_switch env n st) as [on allow]. case_bool_decide; [| simpl; destruct (ks_set _ _ _ _)].
  - exists (ksKey n). by destruct n.
  - by eexists.
  - exists (ksKey n). by destruct n.
Qed.
Lemma ks_inv n k : node_inv n -> node_inv (set_ksKey k n).
Proof. by intros []. Qed.

(** One [apply]: the invariant, the versions, and the rooms of others. *)
Lemma apply_ok env n url nm st o : seed env = sd ->
  (forall s id key, st = Some s -> nodestate.RoomKey_of s url id = Some key -> Pinned url id key) -> node_inv n ->
  match apply env n url nm st o with
  | Ok (acts, n') => node_inv n' /\ grows n n'
      /\ forall s id r, st = Some s -> nodestate.RoomKey_of s url id = None -> rooms n !! id = Some r -> controller_ r <> url -> rooms n' !! id = Some r
  | _ => False
  end.
Proof.
  intros Hsd Hpin Hn. unfold apply. destruct st as [st |]; [| split_and!; [done | apply grows_refl | done]].
  set (n0 := set_last (<[url := nm]> (last n)) n).
  assert (node_inv n0) as Hn0 by by destruct Hn.
  pose proof (desire_ok env url st nm Hsd (fun id key => Hpin st id key eq_refl) (controller.nm_Rooms nm) n0 ∅ ∅ Hn0) as Hde.
  destruct (desire _ n0 _ _ _ _ _ _) as [[[[acts n1] d] active] | |]; cbn [mbind res_bind]; [| apply Hde; by intros ? ? ? .. ].
  destruct Hde as (Hn1 & Hg1 & (Er & _ & _ & _) & Hd); [by intros ? ?; rewrite lookup_empty |].
  set (n2 := match disco n1 with Some dm => _ | None => n1 end).
  assert (node_inv n2 /\ versions n2 = versions n1 /\ rooms n2 = rooms n1) as (Hn2 & Ev2 & Er2)
    by (unfold n2; destruct (disco n1); [split_and!; [by destruct Hn1 | done | done] | done]).
  clearbody n2. destruct (leave_ok url d (o_rooms o) n2 Hn2) as (Hn3 & Ev3 & _ & Hkeep & _).
  destruct (leave n2 _ _ _) as [acts1 n3]. simpl in *.
  assert (grows n n3) as Hg3.
  { eapply grows_trans; [exact Hg1 |]. apply grows_same. congruence. }
  destruct (bring_all_ok env url d (o_desired o) n3 Hn3) as (Hn4 & Ev4 & Hk4).
  { intros id rc Hi. eapply origin_grows; [| by apply (Hd id rc)]. apply grows_same. congruence. }
  destruct (bring_all _ n3 _ _ _) as [acts2 n4]. simpl in *.
  destruct (ks_same env n4 st (o_names o)) as (kk & Ek). destruct (updateKillSwitchLocked _ _ _ _) as [acts3 n5].
  simpl in Ek. subst n5. split_and!; [by apply ks_inv | |].
  - eapply grows_trans; [exact Hg3 | by apply grows_same].
  - intros s id r [= <-] Hnone Hr Hc. assert (d !! id = None) as Hdn.
    { destruct (d !! id) as [rc |] eqn:E; [| done]. destruct (Hd id rc E) as [_ [k Hk]]. congruence. }
    rewrite Hk4 by done. apply Hkeep; [by rewrite Er2, Er | by left].
Qed.

Lemma applyGossip_ok env n id doc st o : seed env = sd ->
  (forall s url id key, st = Some s -> nodestate.RoomKey_of s url id = Some key -> Pinned url id key) -> node_inv n ->
  match applyGossip env n id doc st o with
  | Ok (acts, n') => node_inv n' /\ grows n n'
  | _ => False
  end.
Proof.
  intros Hsd Hpin Hn. unfold applyGossip. destruct (gossip_map n id doc) as [[url nm] |]; [| split; [done | apply grows_refl]].
  pose proof (apply_ok env n url nm st o Hsd (fun s i k => Hpin s url i k) Hn) as H.
  destruct (apply _ _ _ _ _ _) as [[acts n'] | |]; [| done ..]. by destruct H as (? & ? & _).
Qed.

Lemma startProvisional_ok env n r j known : Joined (nodestate.RoomID r) j -> node_inv n ->
  match startProvisional env n r j known with
  | Ok (acts, n') => node_inv n' /\ grows n n'
  | Err _ => False
  | Panic => nodestate.l_Endpoints (nodestate.Invite j) = []
  end.
Proof.
  intros Hj Hn. unfold startProvisional. destruct (rooms n !! nodestate.RoomID r); [split; [done | apply grows_refl] |].
  case_bool_decide as He; [done |]. set (n0 := set_last _ n). set (rc := provisional_room n r j).
  assert (node_inv n0) as Hn0 by by destruct Hn.
  assert (origin n0 (nodestate.RoomID r) rc) as Ho by (right; left; by exists j).
  pose proof (start_inv env n0 (nodestate.RoomID r) (nodestate.localPrefix ++ nodestate.RoomID r) rc Hn0 Ho) as H.
  pose proof (start_same env n0 (nodestate.RoomID r) (nodestate.localPrefix ++ nodestate.RoomID r) rc) as [Hv _].
  destruct (startLocked _ _ _ _ _) as [[acts | |] n1]; simpl in *; try (split; [done | by apply grows_same]).
  destruct (disco n1); (split; [by destruct H | by apply grows_same]).
Qed.

(** ** Reachable states *)

Definition empty_node (d : option discomgr.discoMgr) : Node := MkNode magicsock.Listen ∅ ∅ ∅ ∅ d ∅ ∅ ∅ [].

(** A step of the node: static rooms at the start, network maps, configurations
    from members, joins, rooms that are closed, and whatever path discovery
    does in between. Every state file that is read pins keys of [Pinned]. *)
Inductive step (n : Node) : Node -> Prop :=
  | s_static env name rc : seed env = sd -> step n (startLocked env n (str "static:" ++ name) [] rc).2
  | s_apply env url nm st o acts n' : seed env = sd ->
      (forall s u i k, st = Some s -> nodestate.RoomKey_of s u i = Some k -> Pinned u i k) ->
      apply env n url nm st o = Ok (acts, n') -> step n n'
  | s_gossip env id doc st o acts n' : seed env = sd ->
      (forall s u i k, st = Some s -> nodestate.RoomKey_of s u i = Some k -> Pinned u i k) ->
      applyGossip env n id doc st o = Ok (acts, n') -> step n n'
  | s_provisional env r j known acts n' : seed env = sd -> Joined (nodestate.RoomID r) j -> startProvisional env n r j known = Ok (acts, n') -> step n n'
  | s_stop key : step n (stopLocked n key).2
  | s_disco d : step n (set_disco d n)
  | s_ks env st keys : step n (updateKillSwitchLocked env n st keys).2.

Inductive steps : Node -> Node -> Prop :=
  | st_refl n : steps n n
  | st_step n n' n'' : steps n n' -> step n' n'' -> steps n n''.

Lemma steps_trans n1 n2 n3 : steps n1 n2 -> steps n2 n3 -> steps n1 n3.
Proof. intros H1. induction 1 as [| n n2 n3 _ IH Hst]; [done | eapply st_step; [by apply IH | done]]. Qed.

Definition reachable (n : Node) : Prop := exists d, steps (empty_node d) n.

Lemma node_step_ok n n' : node_inv n -> step n n' -> node_inv n' /\ grows n n'.
Proof.
  intros Hn [env name rc Hsd | env url nm st o acts m Hsd Hp H | env id doc st o acts m Hsd Hp H | env r j known acts m Hsd Hj H | key | d | env st keys].
  - split; [| apply grows_same, start_same]. apply start_inv; [done |]. left. apply HasPrefix_app.
  - pose proof (apply_ok env n url nm st o Hsd (fun s i k => Hp s url i k) Hn) as Ha. rewrite H in Ha. tauto.
  - pose proof (applyGossip_ok env n id doc st o Hsd Hp Hn) as Ha. by rewrite H in Ha.
  - pose proof (startProvisional_ok env n r j known Hj Hn) as Ha. by rewrite H in Ha.
  - split; [by apply stop_inv | apply grows_same, stop_versions].
  - split; [by destruct Hn | by apply grows_same].
  - destruct (ks_same env n st keys) as [k ->]. split; [by apply ks_inv | by apply grows_same].
Qed.

Lemma steps_ok n n' : node_inv n -> steps n n' -> node_inv n' /\ grows n n'.
Proof.
  intros Hn. induction 1 as [n | n n1 n2 H1 IH H2]; [split; [done | apply grows_refl] |].
  destruct (IH Hn) as [Hn1 Hg1]. destruct (node_step_ok n1 n2 Hn1 H2) as [Hn2 Hg2]. split; [done | by eapply grows_trans].
Qed.

Lemma empty_inv d : node_inv (empty_node d).
Proof. split; simpl; intros *; rewrite ?lookup_empty; done. Qed.

Lemma reachable_ok n : reachable n -> node_inv n.
Proof. intros [d H]. exact (proj1 (steps_ok _ _ (empty_inv d) H)). Qed.

(** ** Theorems *)

(** C10: In every reachable state a running room is from the configuration file;
    or it is a local room that waits for its first configuration: then a state
    file has the join that the owner answered, the only peer is the owner of the
    invite, with its key and its address alone, and nothing is routed; or it runs
    a configuration that verified under a key pinned for the room, for this room,
    and not newer than the newest one accepted: this node is a member with its own
    address, its peers are exactly the other members with their keys, and packets
    go to a peer only for its address, for networks approved for it outside the
    room's subnet, or, when the member is an approved exit, for everything. *)
Theorem rooms_signed n id r : reachable n -> rooms n !! id = Some r ->
  static id \/ provisional id (cfg r)
  \/ exists c v, vouched id c /\ pki.config_ok c /\ versions n !! id = Some v /\ pki.Version c <= v /\ room_from self c (cfg r).
Proof.
  intros Hr Hi. destruct (ni_origin n (reachable_ok n Hr) id r Hi) as [H | [H | (c & v & Hc & Hv & Hle & Hf)]];
    [by left | by right; left | right; right].
  exists c, v. split_and!; try done. destruct Hc as (u & k & doc & _ & (pub & _ & Hver) & _).
  by apply pki.VerifyRoomConfig_iff in Hver as (_ & _ & _ & ?).
Qed.

(** C11: No rollback: the version of a room's newest accepted configuration never
    gets smaller, whoever sends maps and configurations in whatever order, and
    the document that is passed on to other members is the one of that version.
    Running rooms never overlap. *)
Theorem no_rollback n n' : reachable n -> steps n n' ->
  (forall id v, versions n !! id = Some v -> exists v', versions n' !! id = Some v' /\ v <= v')
  /\ (forall id doc, signed n' !! id = Some doc ->
        exists url key c, Pinned url id key /\ verifies key doc c /\ pki.RoomID c = id /\ versions n' !! id = Some (pki.Version c))
  /\ (forall i j ri rj, rooms n' !! i = Some ri -> rooms n' !! j = Some rj -> i <> j ->
        Overlaps (Masked (config.Address (cfg ri))) (Masked (config.Address (cfg rj))) = false).
Proof.
  intros Hr Hs. destruct (steps_ok n n' (reachable_ok n Hr) Hs) as [Hn Hg]. split_and!; [exact Hg | exact (ni_signed n' Hn) | exact (ni_disjoint n' Hn)].
Qed.

(** C12: A controller cannot touch what is not its own: applying its map never
    fails, and leaves every room of another controller (and every static room)
    as it is unless the state file pins a key for that room at this one too. *)
Theorem apply_isolated env n url nm st o : reachable n -> seed env = sd ->
  (forall u i k, nodestate.RoomKey_of st u i = Some k -> Pinned u i k) ->
  exists acts n', apply env n url nm (Some st) o = Ok (acts, n')
    /\ forall id r, nodestate.RoomKey_of st url id = None -> rooms n !! id = Some r -> controller_ r <> url -> rooms n' !! id = Some r.
Proof.
  intros Hr Hsd Hp. pose proof (apply_ok env n url nm (Some st) o Hsd) as H.
  destruct (apply _ _ _ _ _ _) as [[acts n'] | |].
  - exists acts, n'. split; [done |]. destruct H as (_ & _ & H); [by intros s i k [= <-]; apply Hp | by apply reachable_ok |].
    intros id r. by apply (H st).
  - exfalso. apply H; [by intros s i k [= <-]; apply Hp | by apply reachable_ok].
  - exfalso. apply H; [by intros s i k [= <-]; apply Hp | by apply reachable_ok].
Qed.

End Node.
End nodeinv.
