(* ===== verification/NodeExample.v ===== *)
(** Runs of the daemon: a node that a controller puts into two rooms, and a
    local room whose owner accepts a node; the theorems on the daemon applied
    to their states. *)
From stdpp Require Import base list gmap strings.
From Stdlib Require Import ZArith Lia.
From S2P Require Import Prelude GoStrings GoText Netip Acl Crypto Obfs Identity Pki Disco Store Controller ControllerNet DiscoMgr.
From S2P Require Import Config Names NodeState LocalSync Node NodeInv.

Open Scope Z_scope.

Module nodescenario.
Import nodestate node nodeinv.

(** The theorems on rooms and versions need nothing of the cryptography: a
    quick one. *)
#[local] Instance quick : Crypto := {|
  sha256 m := take 32 (m ++ zeros 32); blake2s m := take 32 (m ++ zeros 32);
  hkdf s salt l n := take n (s ++ zeros n); aes128 k b := k;
  secretbox_seal m n k := zeros 16 ++ m; secretbox_open c n k := Some (drop 16 c);
  x25519 s := s; box_seal m n p s := zeros 16 ++ m; box_open c n p s := Some (drop 16 c);
  anon_seal m p r := zeros 48 ++ m; anon_open c p s := Some (drop 48 c);
  ed_public s := s; ed_sign s m := s; ed_verify p m s := bool_decide (p = s) |}.

(** ** Documents

    The documents of the runs are a finite list; the JSON of one is its version
    and the addresses of its members. *)
Definition seedOf (k : Z) : bytes := replicate 32 k.
Definition secretOf (k : Z) : bytes := replicate 32 k.
Definition nodeOf (k : Z) : bytes := identity.NodeID (seedOf k).
Definition roomOf (k : Z) : bytes := obfs.RoomID (secretOf k).
Definition subnetOf (k : Z) : Prefix := MkPrefix (Addr4 (10 * 2 ^ 24 + k * 2 ^ 16)) 29.
Definition addrOf (k i : Z) : Addr := Addr4 (10 * 2 ^ 24 + k * 2 ^ 16 + i).
Definition ownKey (k i : Z) : bytes := identity.Public (identity.RoomKey (seedOf i) (roomOf k)).

(** The member that node [i] is in room [k]; node 2 is an exit. *)
Definition memberOf (k i : Z) : pki.Member :=
  pki.MkMember (nodeOf i) (str "node" ++ Itoa i) (ownKey k i) (addrOf k i) [] [] (i =? 2) (i =? 2) (i =? 1).
Definition docOf (k version : Z) (who : list Z) : pki.RoomConfig :=
  pki.MkRoomConfig (roomOf k) (str "room" ++ Itoa k) (subnetOf k) (secretOf k) version 0 (map (memberOf k) who) [] [] [] false.

Definition documents : list pki.RoomConfig :=
  [docOf 1 1 [1; 2]; docOf 2 1 [1; 2]; docOf 1 2 [1; 2; 3]].

Definition json_of (c : pki.RoomConfig) : bytes :=
  pki.Version c :: map (fun m => match pki.IP m with Addr4 v => v | _ => 0 end) (pki.Members c).
#[local] Instance listed : pki.Json :=
  {| pki.Marshal := fun c => Some (json_of c);
     pki.Unmarshal := fun p => List.find (fun c => bool_decide (json_of c = p)) documents |}.

(** ** Two rooms with an exit *)

Definition url : bytes := str "https://c".
Definition keyOf (k : Z) : bytes := pki.RoomKeyString (ed_public (seedOf (100 + k))).
Definition signedDoc (c : pki.RoomConfig) (k : Z) : pki.Signed :=
  match pki.SignRoomConfig (pki.NewKeyFromSeed (seedOf (100 + k))) c with Ok s => s | _ => pki.MkSigned [] [] end.
Definition state : State := Pin (Pin emptyState url (roomOf 1) (keyOf 1)) url (roomOf 2) (keyOf 2).
Definition pinned (u i k : bytes) : Prop := RoomKey_of state u i = Some k.
Definition joined (i : bytes) (j : LocalJoin) : Prop := False.
Definition roomState (c : pki.RoomConfig) (k : Z) : controller.RoomState :=
  controller.MkRoomState (roomOf k) (str "active") (Some (signedDoc c k)) (nodeOf 2).
Definition mapOf (rss : list controller.RoomState) : controller.NetMap := controller.MkNetMap 1 (Addr4 16909060) rss ∅.
Definition env : Env :=
  MkEnv (seedOf 1) false [] true false false [] 0 [] (fun _ _ => true) (fun _ _ => true) (fun _ _ _ => true) (fun _ => []) (fun _ _ => [1]).
Definition orders : Orders := MkOrders [] [] [roomOf 1; roomOf 2] [roomOf 1; roomOf 2] [roomOf 1; roomOf 2].
Definition go (n : Node) (nm : controller.NetMap) : Node :=
  match apply env n url nm (Some state) orders with Ok (_, n') => n' | _ => n end.

Definition n0 : Node := empty_node (Some discomgr.newDiscoMgr).
Definition two : list controller.RoomState := [roomState (docOf 1 1 [1; 2]) 1; roomState (docOf 2 1 [1; 2]) 2].
Definition both : controller.NetMap := mapOf two.
Definition one : list controller.RoomState := [roomState (docOf 1 2 [1; 2; 3]) 1].
Definition n1 : Node := go n0 (mapOf two).
Definition n2 : Node := go n1 (mapOf two).
Definition n3 : Node := go n2 (mapOf one).
Definition exits (n : Node) : list (option bool) := map (fun k => r ← rooms n !! roomOf k; Some (config.Exit (cfg r))) [1; 2].

Definition applied (n : Node) (rss : list controller.RoomState) : bool :=
  match apply env n url (mapOf rss) (Some state) orders with Ok _ => true | _ => false end.
Lemma go_step n rss : applied n rss = true -> step pinned joined (seedOf 1) n (go n (mapOf rss)).
Proof.
  unfold applied, go. destruct (apply _ _ _ _ _ _) as [[acts m] | |] eqn:Ha; [intros _ | done ..].
  eapply s_apply; [| | exact Ha]; [done |]. by intros s u i k [= <-].
Qed.

Lemma n1_reachable : reachable pinned joined (seedOf 1) n1.
Proof.
  assert (applied n0 two = true) as H by (vm_compute; reflexivity).
  exact (ex_intro _ (Some discomgr.newDiscoMgr) (st_step _ _ _ n0 n0 n1 (st_refl _ _ _ n0) (go_step n0 two H))).
Qed.
Lemma n1_n3 : steps pinned joined (seedOf 1) n1 n3.
Proof.
  assert (applied n1 two = true) as H1 by (vm_compute; reflexivity).
  assert (applied n2 one = true) as H2 by (vm_compute; reflexivity).
  exact (st_step _ _ _ n1 n2 n3 (st_step _ _ _ n1 n1 n2 (st_refl _ _ _ n1) (go_step n1 two H1)) (go_step n2 one H2)).
Qed.

Definition room1 : running := default (MkRunning [] [] (config.MkRoom [] [] PrefixZero 0 [] None [] [] [] false false AddrZero [] [] ∅ false None ∅ [] ∅)) (rooms n1 !! roomOf 1).

Lemma rooms_signed_witness : rooms n1 !! roomOf 1 = Some room1 /\ exists c v, vouched pinned (roomOf 1) c
  /\ versions n1 !! roomOf 1 = Some v /\ room_from (self (seedOf 1)) c (cfg room1).
Proof.
  assert (rooms n1 !! roomOf 1 = Some room1) as Hr by (vm_compute; reflexivity). split; [exact Hr |].
  assert (HasPrefix (roomOf 1) (str "static:") = false) as Hn by (vm_compute; reflexivity).
  destruct (rooms_signed pinned joined (seedOf 1) n1 (roomOf 1) room1 n1_reachable Hr) as [Hs | [(j & [] & _) | (c & v & Hc & _ & Hv & _ & Hf)]].
  - exfalso. unfold static in Hs. congruence.
  - exists c, v. split; [exact Hc |]. split; [exact Hv | exact Hf].
Defined.

Lemma no_rollback_witness : versions n1 !! roomOf 1 = Some 1 /\ versions n3 !! roomOf 1 = Some 2
  /\ exists v, versions n3 !! roomOf 1 = Some v /\ 1 <= v.
Proof.
  assert (versions n1 !! roomOf 1 = Some 1) as H1 by (vm_compute; reflexivity). split; [exact H1 |].
  split; [vm_compute; reflexivity |].
  destruct (no_rollback pinned joined (seedOf 1) n1 n3 n1_reachable n1_n3) as (H & _ & _). exact (H _ _ H1).
Defined.

(** Another controller that sends a map with the same room changes nothing. *)
Lemma apply_isolated_witness : exists acts n', apply env n1 (str "https://evil") both (Some state) orders = Ok (acts, n')
  /\ rooms n' !! roomOf 1 = Some room1.
Proof.
  destruct (apply_isolated pinned joined (seedOf 1) env n1 (str "https://evil") both state orders n1_reachable eq_refl) as (acts & n' & Ha & H).
  - intros u i k Hk. exact Hk.
  - exists acts, n'. split; [exact Ha |]. apply H; vm_compute; [reflexivity | reflexivity | discriminate].
Defined.

(** Only one room at a time should carry the internet traffic; but the choice
    looks at the running rooms, not at the other rooms of the map: two rooms
    with an exit in one map both carry it after the first time the map is
    applied, neither after the second time, and so on. *)
Theorem exit_not_exclusive : reachable pinned joined (seedOf 1) n1 /\ exits n1 = [Some true; Some true]
  /\ exits (go n1 both) = [Some false; Some false] /\ exits (go (go n1 both) both) = [Some true; Some true].
Proof. split; [exact n1_reachable |]. vm_compute. done. Qed.

End nodescenario.

(** ** A room without a controller

    Node 1 creates a room with a /29 subnet and an invite of two uses; node 5
    joins. *)

Module localscenario.
Import nodestate.

Definition seedOf (k : Z) : bytes := replicate 32 k.
Definition secretOf (k : Z) : bytes := replicate 32 k.
Definition nodeOf (k : Z) : bytes := identity.NodeID (seedOf k).
Definition roomOf (k : Z) : bytes := obfs.RoomID (secretOf k).
Definition subnetOf (k : Z) : Prefix := MkPrefix (Addr4 (10 * 2 ^ 24 + k * 2 ^ 16)) 29.
Definition addrOf (k i : Z) : Addr := Addr4 (10 * 2 ^ 24 + k * 2 ^ 16 + i).
Definition ownKey (k i : Z) : bytes := identity.Public (identity.RoomKey (seedOf i) (roomOf k)).

Lemma seedOf_ok k : 0 <= k < 256 -> bytes_ok (seedOf k).
Proof. intros H. unfold seedOf. apply Forall_replicate. exact H. Qed.

(** The local room: its owner is node 1, and node 5 wants to join. *)
Definition link : LocalLink :=
  MkLocalLink (roomOf 7) (pki.RoomKeyString (ed_public (seedOf 9))) (secretOf 7) (subnetOf 7) (str "token")
    (nodeOf 1) (zeros 32) (ownKey 7 1) (addrOf 7 1) [MkAddrPort (Addr4 16909060) 4790].
Definition req : localsync.joinRequest := localsync.request (seedOf 5) (str "token") (str "five") (roomOf 7) [].
Definition first : pki.RoomConfig := new_config (seedOf 1) (str "den") (str "one") (subnetOf 7) (secretOf 7) (addrOf 7 1) 0.
Definition second (x : Z) : pki.RoomConfig := localsync.with_member first req (nodeOf 5) (addrOf 7 x) 0.

Definition documents : list pki.RoomConfig := first :: map second [1; 2; 3; 4; 5; 6].

Definition json_of (c : pki.RoomConfig) : bytes :=
  pki.Version c :: map (fun m => match pki.IP m with Addr4 v => v | _ => 0 end) (pki.Members c).
#[local] Instance listed : pki.Json :=
  {| pki.Marshal := fun c => Some (json_of c);
     pki.Unmarshal := fun p => List.find (fun c => bool_decide (json_of c = p)) documents |}.

Lemma carried_listed c : List.find (fun d => bool_decide (json_of d = json_of c)) documents = Some c -> carried c.
Proof. intros H. by exists (json_of c). Qed.


Lemma subnetOf_at : subnets.subnet_at (subnetOf 7) (10 * 2 ^ 24 + 7 * 2 ^ 16) 29.
Proof. split; [reflexivity | lia | lia | reflexivity | vm_compute; discriminate]. Qed.

Definition created : LocalRoom :=
  match CreateLocalRoom emptyState (seedOf 1) (str "den") (str "one") (subnetOf 7) (secretOf 7) (seedOf 9) 0 0 0 with
  | Ok (r, _) => r | _ => MkLocalRoom [] [] [] [] None [] None ∅ end.
Definition invited : LocalRoom := set_Invites [MkLocalInvite (sha256 (str "token")) 2 1000] created.
Definition ownerState : State := set_Local [invited] emptyState.
Definition join : LocalJoin := MkLocalJoin link (str "five") AddrZero.
Definition guestRoom : LocalRoom :=
  MkLocalRoom (roomOf 7) (str "den") (RoomKey created) [] None [] (Some join) ∅.
Definition guestState : State := set_Local [guestRoom] emptyState.

Lemma new_subnetOf : new_subnet (subnetOf 7) 0 0 = subnetOf 7.
Proof. reflexivity. Qed.

Lemma created_owner : owner created first.
Proof.
  destruct (CreateLocalRoom_owner emptyState (seedOf 1) (str "den") (str "one") (subnetOf 7) (secretOf 7) (seedOf 9) 0 0 0
    (10 * 2 ^ 24 + 7 * 2 ^ 16) 29) as (r & Hr & Ho & _ & _).
  - reflexivity.
  - by apply seedOf_ok.
  - exact subnetOf_at.
  - apply carried_listed. vm_compute. reflexivity.
  - unfold created. rewrite Hr. exact Ho.
Qed.
Lemma owner_invites r c l : owner r c -> owner (set_Invites l r) c.
Proof. by intros []. Qed.
Lemma invited_owner : owner invited first.
Proof. apply owner_invites. exact created_owner. Qed.

Lemma second_carried x : 0 < x < 2 ^ (32 - 29) - 1 -> carried (second x).
Proof.
  intros Hx. apply carried_listed. assert (x = 1 \/ x = 2 \/ x = 3 \/ x = 4 \/ x = 5 \/ x = 6) as H by (simpl in Hx; lia).
  destruct H as [-> | [-> | [-> | [-> | [-> | ->]]]]]; vm_compute; reflexivity.
Qed.

Lemma first_others : Forall (fun m => pki.NodeID m <> nodeOf 5) (pki.Members first).
Proof. repeat constructor. vm_compute. discriminate. Qed.

#[local] Instance toy_gossip : localsync.GossipJson := {|
  localsync.marshal_request := fun _ => Some [1];
  localsync.unmarshal_request := fun d => if bool_decide (d = [1]) then Some req else None;
  localsync.marshal_reply := fun r => [match localsync.p_IP r with Addr4 v => v | _ => 0 end];
  localsync.unmarshal_reply := fun d => match d with [v] => Some (localsync.MkJoinReply (roomOf 7) true (Addr4 v) []) | _ => None end |}.

Definition no_text (e : nodestate.error) : bytes := str "refused".

(** Node 5 gets the second address, the lowest that is free. *)
Lemma accept_spec_witness : exists r', localsync.accept (str "bad") no_text req (nodeOf 5) (zeros 32) AddrPortZero 0 invited
    = Ok (localsync.MkJoinReply (roomOf 7) true (addrOf 7 2) [], r') /\ owner r' (second 2).
Proof.
  destruct (localsync.accept_spec (str "bad") no_text req (nodeOf 5) (zeros 32) AddrPortZero 0 invited first
    (10 * 2 ^ 24 + 7 * 2 ^ 16) 29 invited_owner subnetOf_at) as [(m & Hm & _) | (_ & [(Hu & _) | (_ & [(x & Hx & Hfree & Hlow & H) | (Hfull & _)])])].
  - vm_compute in Hm. discriminate.
  - vm_compute in Hu. discriminate.
  - assert (x = 2) as ->.
    { destruct (Z.lt_trichotomy x 2) as [H2 | [-> | H2]]; [| reflexivity |].
      - assert (x = 1) as -> by lia. exfalso. apply Hfree. vm_compute. left.
      - exfalso. specialize (Hlow 2 ltac:(lia)). apply list_elem_of_singleton in Hlow. vm_compute in Hlow. discriminate. }
    destruct (H (second_carried 2 ltac:(simpl; lia))) as (r' & Hr & Ho & _). exists r'. split; [exact Hr | exact Ho].
  - exfalso. specialize (Hfull 2 ltac:(simpl; lia)). apply list_elem_of_singleton in Hfull. vm_compute in Hfull. discriminate.
Defined.

Lemma join_complete_witness : exists x sO' rep lim' sJ' sJ'' doc,
  localsync.handleJoin (str "bad") no_text ownerState (localsync.MkLimiter 0 0) 0 (zeros 32) [1] AddrPortZero true = Ok (Some rep, sO', lim', true)
  /\ localsync.handleJoinReply guestState (zeros 32) (localsync.marshal_reply rep) = (sJ', true)
  /\ localsync.persistLocal sJ' (roomOf 7) doc = (sJ'', true)
  /\ localsync.room_config sJ'' (roomOf 7) = Ok (second x).
Proof.
  destruct (localsync.join_complete (str "bad") no_text (seedOf 5) (zeros 32) (zeros 32) ownerState guestState invited guestRoom first
    (10 * 2 ^ 24 + 7 * 2 ^ 16) 29 join [] [1] (localsync.MkLimiter 0 0) 0 AddrPortZero)
    as (a & rep & sO' & lim' & Hj & Hrep & (x & _ & Ha & _) & _ & H).
  - reflexivity.
  - by apply seedOf_ok.
  - vm_compute. reflexivity.
  - vm_compute. reflexivity.
  - vm_compute. reflexivity.
  - vm_compute. reflexivity.
  - exact invited_owner.
  - exact subnetOf_at.
  - exact first_others.
  - vm_compute. reflexivity.
  - exists 2. split; [simpl; lia |]. intros Hin. apply list_elem_of_singleton in Hin. vm_compute in Hin. discriminate.
  - exact second_carried.
  - vm_compute. reflexivity.
  - reflexivity.
  - reflexivity.
  - reflexivity.
  - reflexivity.
  - reflexivity.
  - reflexivity.
  - destruct H as (sJ' & sJ'' & doc & H1 & _ & H2 & H3 & _).
    + rewrite Hrep, Ha. reflexivity.
    + subst a. exists x, sO', rep, lim', sJ', sJ'', doc. split; [exact Hj |]. split; [exact H1 |]. split; [exact H2 | exact H3].
Defined.

Lemma local_invite_uses_witness :
  (localsync.attempts invited (str "token") [0; 1; 2]).1 = [true; true; false].
Proof.
  destruct (localsync.local_invite_uses (str "token") [] [] (Forall_nil_2 _) [0; 1; 2] invited 2 1000) as [H _].
  - reflexivity.
  - lia.
  - repeat constructor.
  - exact H.
Defined.

Lemma CreateLocalRoom_spec_witness : exists r,
  CreateLocalRoom emptyState (seedOf 1) (str "den") (str "one") (subnetOf 7) (secretOf 7) (seedOf 9) 0 0 0 = Ok (r, set_Local [r] emptyState)
  /\ owner r first.
Proof.
  destruct (CreateLocalRoom_spec emptyState (seedOf 1) (str "den") (str "one") (subnetOf 7) (secretOf 7) (seedOf 9) 0 0 0)
    as [(H & _) | (v & bits & Hsub & H)].
  - reflexivity.
  - by apply seedOf_ok.
  - lia.
  - lia.
  - split; [vm_compute; split; [discriminate | reflexivity] | split; [reflexivity | right; split; [reflexivity | vm_compute; split; discriminate]]].
  - vm_compute in H. discriminate.
  - pose proof (subnets.a_eq _ _ _ Hsub) as E. change (MkPrefix (Addr4 (10 * 2 ^ 24 + 7 * 2 ^ 16)) 29 = MkPrefix (Addr4 v) bits) in E.
    injection E as E1 E2. subst v bits. destruct H as (r & Hr & Ho & _).
    + apply carried_listed. vm_compute. reflexivity.
    + exists r. split; [exact Hr | exact Ho].
Defined.

End localscenario.
