(* ===== verification/Cmd.v ===== *)
(** What the commands of zpt change in the state file (cmd/zpt/main.go, local.go):
    rooms without a controller, joining and leaving, turning rooms off, the exit
    and the DNS servers.

    A command gets the state it loaded, its parsed flags, the time and the
    random bytes, and returns what it prints that matters and the state it saves; with an
    error nothing is saved. What the running node answers on the control channel
    and [strings.EqualFold] are arguments. *)
From stdpp Require Import base gmap list strings sets.
From Stdlib Require Import ZArith Lia.
From S2P Require Import Prelude GoStrings GoText Netip NetText AddrText Encoding Crypto Obfs Identity Pki Controller NodeState Url Links.

Open Scope Z_scope.

Module zptcmd.
Import nodestate.

Inductive error : Type :=
  | ENode (e : nodestate.error) | ELink (e : links.error) | EUsage | ENeedLocal | ENoName | ESubnetText
  | EEndpoint (s : bytes) | ENoEndpoints | ENotMember | ENoMember (who : bytes) | EIsAdmin (name : bytes) | ESelf
  | EAlready | ENoRoomRef (ref : bytes) | EForbidden | ERefused | ELanAlone | EDNSAddr (s : bytes).

(** What the commands ask the running node for ([control.Status]). *)
Record NodeStatus := MkNodeStatus { s_UDPPort : Z; s_PortMap : AddrPort; s_Mapped : list (list AddrPort); s_Rooms : list (bytes * bytes) }.

Section Cmd.
Context `{CR : Crypto} `{J : pki.Json} (EqualFold : bytes -> bytes -> bool) (ip_literal : bytes -> option bytes) (id : bytes).

(** ** Rooms without a controller *)

(** The room that [LocalRoomByRef] points to is changed in place. *)
Fixpoint replace_ref (ref : bytes) (r' : LocalRoom) (l : list LocalRoom) : list LocalRoom :=
  match l with
  | [] => []
  | r :: l => if bool_decide (RoomID r = ref) || EqualFold (Name r) ref then r' :: l else r :: replace_ref ref r' l
  end.
Definition with_room {A} (s : State) (ref : bytes) (fn : LocalRoom -> res error (A * LocalRoom)) : res error (A * State) :=
  r ← map_err ENode (LocalRoomByRef EqualFold s ref);
  ar ← fn r;
  Ok (ar.1, set_Local (replace_ref ref ar.2 (Local s)) s).

Definition create (s : State) (is_local : bool) (name me subnet secret seed : bytes) (b0 b1 now : Z) : res error (LocalRoom * State) :=
  if negb is_local then Err ENeedLocal
  else if bool_decide (name = []) then Err ENoName
  else
    sub ← (if bool_decide (subnet = []) then Ok PrefixZero else from_option (ParsePrefix subnet) ESubnetText);
    map_err ENode (CreateLocalRoom s id name me sub secret seed b0 b1 now).

(** ** An invitation *)

Definition parse_endpoint (e : bytes) : res error AddrPort := from_option (ParseAddrPort (TrimSpace e)) (EEndpoint e).
Fixpoint parse_endpoints (l : list bytes) : res error (list AddrPort) :=
  match l with
  | [] => Ok []
  | e :: l => a ← parse_endpoint e; as_ ← parse_endpoints l; Ok (a :: as_)
  end.

(** The addresses of the machine that others may reach: at most six in all. *)
Fixpoint add_interfaces (subnet : Prefix) (port : Z) (ifaces : list bytes) (eps : list AddrPort) : list AddrPort :=
  match ifaces with
  | [] => eps
  | b :: ifaces =>
    let '(ip, ok) := AddrFromSlice b in
    let ip := Unmap ip in
    add_interfaces subnet port ifaces
      (if ok && Is4 ip && negb (IsLoopback ip) && negb (IsLinkLocalUnicast ip) && negb (Contains subnet ip) && (zlen eps <? 6)
       then eps ++ [MkAddrPort ip port] else eps)
  end.

Definition owner_ip (c : pki.RoomConfig) : Addr :=
  fold_left (fun a m => if bool_decide (pki.NodeID m = identity.NodeID id) then pki.IP m else a) (pki.Members c) AddrZero.

(** [link]; [cfgPort] is the port of the configuration file. *)
Definition link (r : LocalRoom) (c : pki.RoomConfig) (tok endpoints : bytes) (cfgPort : Z) (running : option NodeStatus) (ifaces : list bytes)
    : res error LocalLink :=
  let wg := identity.Public (identity.RoomKey id (RoomID r)) in
  let mk := MkLocalLink (RoomID r) (RoomKey r) (pki.Secret c) (pki.Subnet c) tok (identity.NodeID id) (identity.DiscoKey id).2 wg (owner_ip c) in
  if negb (IsValid (owner_ip c)) then Err ENotMember
  else if negb (bool_decide (endpoints = [])) then mk <$> parse_endpoints (Split 44 endpoints)
  else
    let '(port, eps) :=
      match running with
      | Some s => (s_UDPPort s, (if apIsValid (s_PortMap s) then [s_PortMap s] else []) ++ concat (s_Mapped s))
      | None => (u16 cfgPort, [])
      end in
    let eps := add_interfaces (pki.Subnet c) port ifaces eps in
    if bool_decide (eps = []) then Err ENoEndpoints else Ok (mk eps).

(** "zpt room invite": the text of the link. *)
Definition invite (s : State) (ref : bytes) (uses hours : Z) (endpoints : bytes) (cfgPort : Z) (running : option NodeStatus) (ifaces : list bytes)
    (rnd : bytes) (now : Z) : res error (bytes * State) :=
  with_room s ref (fun r =>
    c ← map_err ENode (config r);
    tr ← map_err ENode (NewInvite r uses (int64 (hours * Hour)) now rnd);
    l ← link tr.2 c tr.1 endpoints cfgPort running ifaces;
    Ok (links.LocalLink_String l, tr.2)).

(** ** Members *)

Definition set_Admin (m : pki.Member) : pki.Member :=
  pki.MkMember (pki.NodeID m) (pki.Name m) (pki.WGKey m) (pki.IP m) (pki.Tags m) (pki.Routes m) (pki.Exit m) (pki.ExitDNS m) true.
Definition is_who (who : bytes) (m : pki.Member) : bool := bool_decide (pki.Name m = who) || bool_decide (pki.NodeID m = who).

(** The change of "zpt room admin"; it marks this node too. *)
Fixpoint promote (who : bytes) (l : list pki.Member) : res error (list pki.Member) :=
  match l with
  | [] => Err (ENoMember who)
  | m :: l =>
    if is_who who m then if pki.Admin m then Err (EIsAdmin (pki.Name m)) else Ok (set_Admin m :: l)
    else l ← promote who l; Ok (m :: l)
  end.
Definition mark_self (m : pki.Member) : pki.Member := if bool_decide (pki.NodeID m = identity.NodeID id) then set_Admin m else m.

(** [LocalRoom.Update] with a change that has errors of its own. *)
Definition update {A} (r : LocalRoom) (change : pki.RoomConfig -> res error (A * pki.RoomConfig)) (now : Z) : res error (A * LocalRoom) :=
  c ← map_err ENode (config r);
  ac ← change c;
  r ← map_err ENode (sign r (set_Version (int64 (pki.Version ac.2 + 1)) ac.2) now);
  Ok (ac.1, r).

Definition admin (s : State) (ref who : bytes) (now : Z) : res error (unit * State) :=
  with_room s ref (fun r => update r (fun c => l ← promote who (map mark_self (pki.Members c)); Ok (tt, set_Members l c)) now).

(** The change of "zpt room kick": the member's ID and the others. *)
Fixpoint remove_member (who : bytes) (l : list pki.Member) : res error (bytes * list pki.Member) :=
  match l with
  | [] => Err (ENoMember who)
  | m :: l =>
    if is_who who m then if bool_decide (pki.NodeID m = identity.NodeID id) then Err ESelf else Ok (pki.NodeID m, l)
    else nl ← remove_member who l; Ok (nl.1, m :: nl.2)
  end.
Definition kick (s : State) (ref who : bytes) (now : Z) : res error (bytes * State) :=
  with_room s ref (fun r =>
    nr ← update r (fun c => nl ← remove_member who (pki.Members c); Ok (nl.1, set_Members nl.2 c)) now;
    Ok (nr.1, set_Peers (delete nr.1 (Peers nr.2)) nr.2)).

(** "zpt join" of a room without a controller; [RoomID[:6]] panics on a shorter ID. *)
Definition join_local (s : State) (raw name : bytes) : res error State :=
  l ← map_err ELink (links.ParseLocalLink ip_literal raw);
  if existsb (fun r => bool_decide (RoomID r = l_RoomID l)) (Local s) then Err EAlready
  else if zlen (l_RoomID l) <? 6 then Panic
  else Ok (set_Local (Local s ++ [MkLocalRoom (l_RoomID l) (str "room-" ++ take 6 (l_RoomID l)) (l_RoomKey l) [] None []
                                    (Some (MkLocalJoin l name AddrZero)) ∅]) s).

(** ** Rooms of a controller *)

(** [answer]: the controller's answer to the join; [Some] with the HTTP status of a refusal. *)
Definition join (s : State) (raw name : bytes) (answer : controller.ApiInvite -> option Z) : res error State :=
  if HasPrefix (TrimSpace raw) (str "zpt://local") then join_local s raw name
  else
    inv ← map_err ELink (links.ParseInvite ip_literal raw);
    match answer inv with
    | Some status => Err (if status =? 403 then EForbidden else ERefused)
    | None => Ok (Pin s (controller.i_Controller inv) (controller.i_Room inv) (controller.i_RoomKey inv))
    end.

(** "zpt leave": the pin is dropped whatever the controller answers; its URL. *)
Definition leave (s : State) (roomID : bytes) : res error (bytes * State) :=
  match Unpin s roomID with
  | (Some url, s') => Ok (url, s')
  | (None, _) => Err (ENoRoomRef roomID)
  end.

(** ** Choices *)

Definition first_match (ref : bytes) (idn : bytes * bytes) (l : list (bytes * bytes)) : bytes * bytes :=
  fold_left (fun idn e => if bool_decide (idn.1 = []) && (bool_decide (e.1 = ref) || EqualFold e.2 ref) then e else idn) l idn.

(** "zpt room off" and "on"; [None]: nothing to do. *)
Definition toggle (s : State) (off : bool) (ref : bytes) (running : option NodeStatus) : res error (option State) :=
  let rooms := match running with Some n => List.filter (fun e => negb (bool_decide (e.1 = []))) (s_Rooms n) | None => [] end in
  let found := first_match ref ([], []) (map (fun o => (off_ID o, off_Name o)) (Off s) ++ rooms ++ map (fun r => (RoomID r, Name r)) (Local s)) in
  let found := if bool_decide (found.1 = []) && existsb (fun c => bool_decide (is_Some (Rooms c !! ref))) (Controllers s) then (ref, ref) else found in
  if bool_decide (found.1 = []) then Err (ENoRoomRef ref)
  else if Bool.eqb (IsOff s found.1) off then Ok None
  else Ok (Some (SetOff s found.1 found.2 off)).
End Cmd.

Definition set_Exit (x : option ExitChoice) (s : State) : State := MkState (Controllers s) x (DNS s) (Local s) (Off s).
Definition set_DNS (x : option DNSChoice) (s : State) : State := MkState (Controllers s) (Exit s) x (Local s) (Off s).

(** "zpt exit": the new state and whether the kill switch's rules are removed;
    [None]: the choice is only shown. *)
Definition exit (s : State) (args : list bytes) (ks lan : bool) : res error (option (State * bool)) :=
  match args with
  | [] => Ok None
  | [a] =>
    if bool_decide (a = str "off") then Ok (Some (set_Exit (Some (MkExitChoice true [] [] false false)) s, true))
    else if bool_decide (a = str "auto") then Ok (Some (set_Exit None s, true)) else Err EUsage
  | [r; m] => if lan && negb ks then Err ELanAlone else Ok (Some (set_Exit (Some (MkExitChoice false r m ks lan)) s, false))
  | _ => Err EUsage
  end.

Fixpoint dns_servers (args : list bytes) : res error (list Addr) :=
  match args with
  | [] => Ok []
  | t :: args =>
    a ← from_option (ParseAddr t) (EDNSAddr t);
    if IsUnspecified a || IsMulticast a || negb (bool_decide (Zone a = [])) then Err (EDNSAddr t)
    else l ← dns_servers args; Ok (a :: l)
  end.
(** "zpt dns" *)
Definition dns (s : State) (args : list bytes) : res error (option State) :=
  match args with
  | [] => Ok None
  | _ =>
    if bool_decide (args = [str "off"]) then Ok (Some (set_DNS (Some (MkDNSChoice [] true)) s))
    else if bool_decide (args = [str "auto"]) then Ok (Some (set_DNS None s))
    else if zlen args <=? 3 then l ← dns_servers args; Ok (Some (set_DNS (Some (MkDNSChoice l false)) s))
    else Err EUsage
  end.
End zptcmd.
