(* ===== verification/CmdInv.v ===== *)
(** What the commands of zpt guarantee: the link that "zpt room invite" prints is
    one that "zpt join" accepts on another machine, with everything that joining
    needs; who is made an administrator or removed; what turning off changes. *)
From stdpp Require Import base gmap list strings sets.
From Stdlib Require Import ZArith Lia.
From S2P Require Import Prelude GoStrings GoText Netip NetText AddrText Encoding Crypto Obfs Identity Pki Controller ControllerNet NodeState LocalSync Url Links Cmd.

Open Scope Z_scope.

Module cmdinv.
Import nodestate zptcmd.

(** ** Keys and names *)

Lemma land_lt a b k : 0 <= a < 2 ^ k -> 0 <= b -> 0 <= k -> 0 <= Z.land a b < 2 ^ k.
Proof.
  intros Ha Hb Hk. pose proof (proj2 (Z.land_nonneg a b) (or_introl (proj1 Ha))) as H0. split; [done |].
  destruct (Z.eqb_spec (Z.land a b) 0) as [-> |]; [by apply Z.pow_pos_nonneg |].
  apply Z.log2_lt_pow2; [lia |]. pose proof (Z.log2_land a b (proj1 Ha) Hb) as Hl.
  assert (a <> 0) as Hn by (intros ->; rewrite Z.land_0_l in *; done).
  assert (Z.log2 a < k) by (apply Z.log2_lt_pow2; lia). lia.
Qed.
Lemma lor_lt a b k : 0 <= a < 2 ^ k -> 0 <= b < 2 ^ k -> 0 <= k -> 0 <= Z.lor a b < 2 ^ k.
Proof.
  intros Ha Hb Hk. split; [apply Z.lor_nonneg; lia |]. destruct (Z.eqb_spec (Z.lor a b) 0) as [-> |]; [by apply Z.pow_pos_nonneg |].
  assert (0 <= Z.lor a b) by (apply Z.lor_nonneg; lia). apply Z.log2_lt_pow2; [lia |]. rewrite Z.log2_lor by lia.
  assert (forall x, 0 <= x < 2 ^ k -> x <> 0 -> Z.log2 x < k) as Hx by (intros; apply Z.log2_lt_pow2; lia).
  destruct (Z.eqb_spec a 0) as [-> |], (Z.eqb_spec b 0) as [-> |]; try done; [| |].
  - change (Z.log2 0) with 0. pose proof (Hx b Hb n0). pose proof (Z.log2_nonneg b). lia.
  - change (Z.log2 0) with 0. pose proof (Hx a Ha n0). pose proof (Z.log2_nonneg a). lia.
  - pose proof (Hx a Ha n0). pose proof (Hx b Hb n1). lia.
Qed.
Lemma clamp_ok k : bytes_ok k -> length k = 32%nat -> bytes_ok (identity.clamp k) /\ length (identity.clamp k) = 32%nat.
Proof.
  intros Hk Hl. unfold identity.clamp. rewrite !length_insert. split; [| done].
  assert (forall k i, bytes_ok k -> byte_ok (nth i k 0)) as Hnth.
  { intros k' i Hk'. destruct (nth_in_or_default i k' 0) as [Hin | ->]; [| done]. rewrite Forall_forall in Hk'. by apply Hk', list_elem_of_In. }
  assert (bytes_ok (<[0%nat := Z.land (nth 0 k 0) 248]> k)) as H1.
  { apply Forall_insert; [done |]. by apply (land_lt _ 248 8); [apply Hnth | |]. }
  apply Forall_insert; [done |]. apply (lor_lt _ 64 8); [| done | done]. by apply (land_lt _ 127 8); [apply Hnth | |].
Qed.

Lemma ToLower_ascii s : Forall (fun c => 50 <= c <= 55 \/ 65 <= c <= 90) s -> bytes_ok (ToLower s).
Proof.
  induction 1 as [| c s Hc Hs IH]; [done |]. rewrite ToLower_cons by lia. apply Forall_cons. split; [| done].
  unfold byte_ok. destruct (_ && _); lia.
Qed.

Section Crypto.
Context `{CL : CryptoLaws} `{J : pki.Json}.

Lemma NodeID_text id : bytes_ok (identity.NodeID id) /\ identity.NodeID id <> [].
Proof.
  unfold identity.NodeID, identity.NodeIDFromPublic. set (b := sub (blake2s _) 0 10).
  assert (length b = 10%nat) as Hl by (unfold b, sub; rewrite length_take, length_drop, length_blake2s; done).
  pose proof (encode32_chars b) as Hc. split; [by apply ToLower_ascii |]. intros E.
  pose proof (ToUpper_ToLower _ Hc) as H. rewrite E in H. pose proof (length_encode32_10 b Hl) as H16. by rewrite <- H in H16.
Qed.

Lemma derived_key s salt l : bytes_ok (x25519 (identity.clamp (hkdf s salt l 32))) /\ zlen (x25519 (identity.clamp (hkdf s salt l 32))) = identity.KeyLen.
Proof.
  destruct (clamp_ok (hkdf s salt l 32) (hkdf_ok _ _ _ _) (length_hkdf _ _ _ _)) as [Hb Hl].
  split; [by apply x25519_ok |]. unfold zlen. by rewrite length_x25519.
Qed.

(** ** Addresses *)

Lemma Contains_addr_ok p a : prefix_ok p -> Contains p a = true -> addr_ok a.
Proof.
  destruct p as [q b]. intros (Hq & _ & Hb) H. unfold Contains, PrefixIsValid in H. cbn [pfx_ip pfx_bits] in *. bool_hyps.
  destruct Hb as [-> | [_ Hb]]; [lia |].
  assert (forall w x y, 0 <= b <= w -> 0 <= y < 2 ^ w -> x / 2 ^ (w - b) = y / 2 ^ (w - b) -> 0 <= x < 2 ^ w) as Hr.
  { intros w x y Hbw Hy E. assert (0 < 2 ^ (w - b)) as Hp by (apply Z.pow_pos_nonneg; lia).
    assert (2 ^ w = 2 ^ (w - b) * 2 ^ b) as Hw by (rewrite <- Z.pow_add_r by lia; f_equal; lia).
    assert (0 <= y / 2 ^ (w - b) < 2 ^ b) as Hd by (split; [apply Z.div_pos; lia | apply Z.div_lt_upper_bound; lia]).
    rewrite <- E in Hd. pose proof (Z.div_mod x (2 ^ (w - b)) ltac:(lia)). pose proof (Z.mod_pos_bound x (2 ^ (w - b)) Hp). nia. }
  unfold same_top in *. destruct q as [| v | v z], a as [| x | x zx]; try done; simpl in *.
  - apply Z.eqb_eq in H0. by apply (Hr 32 x v).
  - apply Z.eqb_eq in H0. by apply (Hr 128 x v).
Qed.

Definition status_ok (n : NodeStatus) : Prop :=
  0 <= s_UDPPort n < 65536 /\ (apIsValid (s_PortMap n) = true -> links.endpoint_ok (s_PortMap n))
  /\ Forall (Forall links.endpoint_ok) (s_Mapped n).

Lemma add_interfaces_ok subnet port ifaces : 0 <= port < 65536 -> Forall (fun b : bytes => bytes_ok b) ifaces ->
  forall eps, Forall links.endpoint_ok eps -> Forall links.endpoint_ok (add_interfaces subnet port ifaces eps).
Proof.
  intros Hp. induction ifaces as [| b l IH]; intros Hb eps He; [done |]. apply Forall_cons in Hb as [Hb Hl]. cbn [add_interfaces].
  destruct (AddrFromSlice b) as [ip ok] eqn:E. apply IH; [done |]. destruct (ok && Is4 (Unmap ip) && _ && _ && _ && _) eqn:Ec; [| done].
  bool_hyps. apply Forall_app. split; [done |]. apply Forall_cons. split; [| done].
  assert (addr_ok ip) as Hok.
  { unfold AddrFromSlice in E. pose proof (be_bound b Hb) as Hbe. destruct (Z.eqb_spec (zlen b) 4) as [El |]; [rewrite El in Hbe; by injection E as <- <- |].
    destruct (Z.eqb_spec (zlen b) 16) as [El' |]; [rewrite El' in Hbe; by injection E as <- <- | by injection E as <- <-]. }
  apply Unmap_ok in Hok. destruct (Unmap ip) as [| v | v z]; try done. split; [done |]. split; [done |]. split; [done |]. split; [done |]. apply not_elem_of_nil.
Qed.

Lemma parse_endpoints_ok l : Forall (fun s => bytes_ok s /\ 44 ∉ s) l -> forall eps, parse_endpoints l = Ok eps ->
  Forall links.endpoint_ok eps /\ (l <> [] -> eps <> []).
Proof.
  induction 1 as [| s l [Hs Hc] Hl IH]; intros eps H; [by injection H as <- |]. cbn [parse_endpoints] in H.
  apply bind_ok in H as (a & Ha & H). apply bind_ok in H as (as_ & Has & [= <-]). split; [| done]. apply Forall_cons. split; [| by apply IH].
  unfold parse_endpoint in Ha. destruct (ParseAddrPort (TrimSpace s)) as [a' |] eqn:E; [| done]. injection Ha as ->.
  apply ParseAddrPort_ok in E as (H1 & H2 & H3 & Hz). split_and!; try done; try lia.
  - apply Forall_forall. intros x Hx%Hz. pose proof (links.TrimSpace_Forall byte_ok s Hs) as Hb. rewrite Forall_forall in Hb. by apply Hb.
  - intros Hx%Hz. assert (Forall (fun c => c <> 44) s) as Hn by (apply Forall_forall; by intros c Hc' ->).
    apply links.TrimSpace_Forall in Hn. rewrite Forall_forall in Hn. by apply (Hn 44).
Qed.

(** ** An invitation *)

Lemma owner_ip_member id c : IsValid (owner_ip id c) = true -> exists m, m ∈ pki.Members c /\ pki.IP m = owner_ip id c.
Proof.
  unfold owner_ip. intros H.
  assert (forall l a, let x := fold_left (fun a m => if bool_decide (pki.NodeID m = identity.NodeID id) then pki.IP m else a) l a in
    x = a \/ exists m, m ∈ l /\ pki.IP m = x) as Hl.
  { induction l as [| m l IH]; intros a; [by left |]. cbn [fold_left]. case_bool_decide.
    - destruct (IH (pki.IP m)) as [-> | (m' & Hm & E)]; right; [exists m | exists m']; split; [by left | done | by right | done].
    - destruct (IH a) as [-> | (m' & Hm & E)]; [by left | right; exists m'; split; [by right | done]]. }
  destruct (Hl (pki.Members c) AddrZero) as [E | ?]; [by rewrite E in H | done].
Qed.

(** What the node of a room knows of it. *)
Record room_data (r : LocalRoom) (c : pki.RoomConfig) : Prop := {
  rd_owner : owner r c;
  rd_id : RoomID r = pki.RoomID c;
  rd_secret : bytes_ok (pki.Secret c) /\ zlen (pki.Secret c) = obfs.SecretLen;
  rd_subnet : prefix_ok (pki.Subnet c) }.

Lemma hex_encode_bytes b : bytes_ok (hex_encode b).
Proof.
  unfold hex_encode. apply Forall_forall. intros x Hx%list_elem_of_In. apply in_flat_map in Hx as (y & _ & Hx).
  apply in_map_iff in Hx as (d & <- & Hd). pose proof (digits_range 4 2 y ltac:(lia)) as Hr. rewrite Forall_forall in Hr.
  apply list_elem_of_In, Hr in Hd. unfold hex_char, byte_ok. destruct (_ <? _); lia.
Qed.
Lemma encode64url_bytes b : bytes_ok (encode64url b).
Proof.
  assert (forall v, 0 <= v < 64 -> byte_ok (char64url v)) as Hc.
  { intros v Hv. unfold char64url. destruct (_ =? _); [done |]. destruct (_ =? _); [done |]. pose proof (graph_char64 v Hv) as H. unfold graph in H. bool_hyps. unfold byte_ok. lia. }
  assert (forall n v, bytes_ok (map char64url (digits 6 n v))) as Hd.
  { intros n v. apply Forall_map. eapply Forall_impl; [apply (digits_range 6); lia |]. intros d Hd. by apply Hc. }
  assert (forall n b, (length b <= n)%nat -> bytes_ok (encode64url b)) as H; [| by apply (H (length b))].
  clear b. induction n as [| n IH]; intros [| x [| y [| z b]]] Hn; simpl in Hn; try lia; try done; try apply Hd.
  cbn [encode64url]. apply Forall_app. split; [apply Hd | apply IH; lia].
Qed.

(** The link that the node makes is valid, and names the room, this node and
    its address in the room. *)
Lemma link_valid id r c tok endpoints cfgPort running ifaces l : room_data r c -> bytes_ok endpoints -> bytes_ok tok -> tok <> [] ->
  Forall (fun b : bytes => bytes_ok b) ifaces -> match running with Some n => status_ok n | None => True end ->
  link id r c tok endpoints cfgPort running ifaces = Ok l ->
  links.valid_link l /\ l_RoomID l = RoomID r /\ l_RoomKey l = RoomKey r /\ l_Secret l = pki.Secret c /\ l_Subnet l = pki.Subnet c
  /\ Token l = tok /\ Owner l = identity.NodeID id /\ OwnerDisco l = (identity.DiscoKey id).2
  /\ exists m, m ∈ pki.Members c /\ pki.IP m = OwnerIP l.
Proof.
  intros [Hown Hid [Hs1 Hs2] Hsub] Hep Ht1 Ht2 Hif Hrun H. unfold link in H. pose proof (localsync.owner_config_ok r c Hown) as Hok.
  set (mk := MkLocalLink _ _ _ _ _ _ _ _ _) in H.
  destruct (IsValid (owner_ip id c)) eqn:Hv; [| done]. cbn [negb] in H. destruct (owner_ip_member id c Hv) as (m & Hm & Hip).
  assert (exists eps, l = mk eps /\ eps <> [] /\ Forall links.endpoint_ok eps) as (eps & -> & Hne & Heps).
  { destruct (negb (bool_decide (endpoints = []))).
    - destruct (parse_endpoints (Split 44 endpoints)) as [eps | |] eqn:E; try done. injection H as <-. exists eps. split; [done |].
      assert (Forall (fun s => bytes_ok s /\ 44 ∉ s) (Split 44 endpoints)) as Hf
        by (apply Forall_and; split; [by apply links.Split_bytes | apply Split_not_in]).
      destruct (parse_endpoints_ok _ Hf _ E) as [He Hn]. split; [apply Hn, Split_not_nil | done].
    - destruct (match running with Some s => _ | None => _ end) as [port eps0] eqn:E.
      destruct (bool_decide_reflect (add_interfaces (pki.Subnet c) port ifaces eps0 = [])); [done |]. injection H as <-.
      eexists. split; [done |]. split; [done |].
      assert (0 <= port < 65536 /\ Forall links.endpoint_ok eps0) as [Hp He]; [| by apply add_interfaces_ok].
      destruct running as [st |]; injection E as <- <-; [| split; [apply (Z.mod_pos_bound _ 65536); lia | done]].
      destruct Hrun as (Hp & Hpm & Hmap). split; [done |]. apply Forall_app. split; [| by apply Forall_concat].
      destruct (apIsValid (s_PortMap st)); [by repeat constructor; apply Hpm | done]. }
  destruct (NodeID_text id) as [Hn1 Hn2]. pose proof (pki.k_secret _ Hok) as Hsec. pose proof (pki.k_inside _ Hok) as Hin. rewrite Forall_forall in Hin.
  specialize (Hin m Hm). rewrite Hip in Hin. split; [| split_and!; try done; by exists m].
  split; cbn [mk l_RoomID l_RoomKey l_Secret l_Subnet Token Owner OwnerDisco OwnerWG OwnerIP l_Endpoints].
  - split_and!; try done; [rewrite Hid, <- Hsec; apply hex_encode_bytes | rewrite (ow_key _ _ Hown); apply encode64url_bytes].
  - rewrite (ow_key _ _ Hown), pki.ParseRoomKey_RoomKeyString; [by eexists | by apply ed_public_ok, (ow_bytes _ _ Hown) |].
    unfold zlen. rewrite length_ed_public; [done | apply (ow_seed _ _ Hown)].
  - split_and!; [done | done | congruence].
  - split; [done | apply (pki.k_subnet _ Hok)].
  - apply derived_key.
  - apply derived_key.
  - split; [by apply (Contains_addr_ok (pki.Subnet c)) | done].
  - done.
  - done.
Qed.

Lemma find_ref_some EqualFold l ref : forall found r, find_ref EqualFold l ref found = Ok r ->
  found = Some r \/ forall r', r' ∈ replace_ref EqualFold ref r' l.
Proof.
  induction l as [| x l IH]; intros found r H; cbn [find_ref replace_ref] in *; [destruct found; [left; congruence | done] |].
  destruct (_ || _); [right; intros r'; by left |]. destruct (IH _ _ H) as [? | Hr]; [by left | right; intros r'; by right].
Qed.

Lemma length_hex b : length (hex_encode b) = (2 * length b)%nat.
Proof. unfold hex_encode. induction b as [| x b IH]; [done |]. cbn [flat_map]. rewrite length_app, length_map, IH. simpl. lia. Qed.
Lemma zlen_RoomID s : zlen (obfs.RoomID s) = 32.
Proof. unfold obfs.RoomID, zlen. rewrite length_hex. unfold obfs.derive. by rewrite length_hkdf. Qed.

Lemma fresh_invite_usable h exp uses l t : t < exp -> uses <> 0 -> (use_invite h t (l ++ [MkLocalInvite h uses exp])).1 = true.
Proof.
  intros Ht Hu. induction l as [| i l IH]; cbn [app use_invite TokenHash Expires UsesLeft].
  - rewrite bool_decide_eq_true_2 by done. rewrite (proj2 (Z.ltb_lt t exp)), (proj2 (Z.eqb_neq uses 0)) by done. done.
  - destruct (_ && _); [done |]. by destruct (use_invite h t (l ++ _)).
Qed.

(** C36: the text that "zpt room invite" prints is accepted by "zpt join" on any
    machine that is not in the room: the link arrives as the owner made it, with
    the room's secret, key and subnet and the owner's keys and addresses, and its
    token opens the room at the owner until it expires. *)
Theorem invite_join EqualFold lit id s ref uses hours endpoints cfgPort running ifaces rnd now text s' sJ name answer r c :
  LocalRoomByRef EqualFold s ref = Ok r -> room_data r c -> bytes_ok endpoints -> length rnd = 18%nat ->
  Forall (fun b : bytes => bytes_ok b) ifaces -> match running with Some n => status_ok n | None => True end ->
  invite EqualFold id s ref uses hours endpoints cfgPort running ifaces rnd now = Ok (text, s') ->
  Forall (fun x => RoomID x <> RoomID r) (Local sJ) ->
  exists l room r', join lit sJ text name answer = Ok (set_Local (Local sJ ++ [room]) sJ)
    /\ Join room = Some (MkLocalJoin l name AddrZero) /\ RoomID room = RoomID r /\ RoomKey room = RoomKey r /\ SignKey room = []
    /\ l_RoomID l = RoomID r /\ l_Secret l = pki.Secret c /\ l_Subnet l = pki.Subnet c /\ Owner l = identity.NodeID id
    /\ OwnerDisco l = (identity.DiscoKey id).2 /\ (exists m, m ∈ pki.Members c /\ pki.IP m = OwnerIP l)
    /\ r' ∈ Local s' /\ SignKey r' = SignKey r /\ Config r' = Config r
    /\ forall t, t < now + int64 (hours * Hour) -> (useInvite r' (Token l) t).1 = true.
Proof.
  intros Href Hrd Hep Hrnd Hif Hrun H Hnew. unfold invite, with_room in H. rewrite Href in H. cbn [map_err mbind res_bind] in H.
  apply bind_ok in H as ([tx r'] & H & [= <- <-]). rewrite (ow_config _ _ (rd_owner _ _ Hrd)) in H. cbn [map_err mbind res_bind] in H.
  apply bind_ok in H as ([tok r1] & Hn & H). unfold NewInvite in Hn.
  assert (SignKey r <> []) as Hsk by (intros E; pose proof (ow_seed _ _ (rd_owner _ _ Hrd)) as Hl; by rewrite E in Hl).
  rewrite bool_decide_eq_false_2 in Hn by done. cbn [map_err] in Hn. injection Hn as <- <-. cbn [fst snd] in H.
  apply bind_ok in H as (l & Hl & [= <- <-]).
  assert (encode64url rnd <> []) as Htok by (destruct rnd as [| a [| b [| x rnd]]]; done).
  assert (room_data (set_Invites (Invites r ++ [MkLocalInvite (sha256 (encode64url rnd)) (if uses <=? 0 then -1 else uses) (now + int64 (hours * Hour))]) r) c) as Hrd'
    by (destruct Hrd as [[? ? ? ?] ? ? ?]; split; [split | ..]; done).
  destruct (link_valid _ _ _ _ _ _ _ _ _ Hrd' Hep (encode64url_bytes rnd) Htok Hif Hrun Hl)
    as (Hval & H1 & H2 & H3 & H4 & H5 & H6 & H7 & H8).
  exists l, (MkLocalRoom (l_RoomID l) (str "room-" ++ take 6 (l_RoomID l)) (l_RoomKey l) [] None [] (Some (MkLocalJoin l name AddrZero)) ∅),
    (set_Invites (Invites r ++ [MkLocalInvite (sha256 (encode64url rnd)) (if uses <=? 0 then -1 else uses) (now + int64 (hours * Hour))]) r).
  split; [| cbn [Join RoomID RoomKey SignKey]; split_and!; try done].
  - unfold join. rewrite links.TrimSpace_link by done. change (HasPrefix (links.LocalLink_String l) (str "zpt://local")) with true. cbv iota.
    unfold join_local. rewrite links.ParseLocalLink_String by done. cbn [map_err mbind res_bind].
    assert (existsb (fun x => bool_decide (RoomID x = l_RoomID l)) (Local sJ) = false) as ->.
    { apply not_true_is_false. rewrite existsb_exists. intros (x & Hx & E). apply bool_decide_eq_true in E. rewrite Forall_forall in Hnew.
      apply (Hnew x); [by apply list_elem_of_In | by etrans; [exact E | exact H1]]. }
    assert (zlen (l_RoomID l) = 32) as -> by (rewrite <- (proj2 (proj2 (links.vl_secret l Hval))); apply zlen_RoomID). done.
  - destruct (find_ref_some EqualFold (Local s) ref None r Href) as [? | Hr]; [done | apply Hr].
  - intros t Ht. unfold useInvite. cbn [Invites set_Invites]. rewrite H5.
    pose proof (fresh_invite_usable (sha256 (encode64url rnd)) (now + int64 (hours * Hour)) (if uses <=? 0 then -1 else uses) (Invites r) t Ht) as Hu.
    destruct (use_invite _ t _) as [ok li]. apply Hu. destruct (Z.leb_spec uses 0); lia.
Qed.

(** ** Members *)

Lemma update_owner {A} r c (change : pki.RoomConfig -> res zptcmd.error (A * pki.RoomConfig)) a c1 now :
  owner r c -> change c = Ok (a, c1) -> carried (updated c1 now) -> pki.config_ok c1 ->
  exists s, update r change now = Ok (a, set_Config (Some s) r) /\ owner (set_Config (Some s) r) (updated c1 now).
Proof.
  intros Hown Hch Hcar Hok.
  destruct (Update_owner r c (fun _ => Ok (a, c1)) a c1 now Hown eq_refl Hcar Hok) as (s & HU & Ho). exists s. split; [| done].
  unfold Update in HU. unfold update. rewrite (ow_config _ _ Hown) in *. cbn [map_err mbind res_bind fst snd] in *. rewrite Hch. cbn [mbind res_bind fst snd].
  destruct (sign r _ now) as [r1 | |]; try done. cbn [map_err mbind res_bind] in *. by injection HU as ->.
Qed.

Lemma map_sublist {A B} (f : A -> B) l k : l `sublist_of` k -> map f l `sublist_of` map f k.
Proof. induction 1; simpl; [apply sublist_nil | by apply sublist_skip | by apply sublist_cons]. Qed.

Lemma config_ok_sub c l : pki.config_ok c -> l `sublist_of` pki.Members c -> pki.config_ok (set_Members l c).
Proof.
  intros [H1 H2 H3 H4 H5 H6 H7] Hl.
  assert (forall P : pki.Member -> Prop, Forall P (pki.Members c) -> Forall P l) as Hf.
  { intros P HP. apply Forall_forall. intros m Hm. rewrite Forall_forall in HP. apply HP. by eapply elem_of_sublist. }
  split; cbn [set_Members pki.Secret pki.RoomID pki.Subnet pki.Members pki.DNS]; try done; [| by apply Hf | by apply Hf].
  eapply sublist_NoDup; [exact H3 |]. by apply map_sublist.
Qed.

(** The first member with the name or the ID. *)
Lemma remove_member_spec id who l :
  match List.find (is_who who) l with
  | None => remove_member id who l = Err (ENoMember who)
  | Some m => exists pre post, l = pre ++ m :: post /\ Forall (fun x => is_who who x = false) pre
      /\ remove_member id who l = if bool_decide (pki.NodeID m = identity.NodeID id) then Err ESelf else Ok (pki.NodeID m, pre ++ post)
  end.
Proof.
  induction l as [| m l IH]; cbn [List.find remove_member]; [done |]. destruct (is_who who m) eqn:E.
  - exists [], l. split_and!; done.
  - destruct (List.find (is_who who) l) as [x |].
    + destruct IH as (pre & post & -> & Hp & ->). exists (m :: pre), post. split; [done |]. split; [by constructor |]. by case_bool_decide.
    + by rewrite IH.
Qed.

(** "zpt room kick" removes the first member with the name or ID, never this
    node, in a newly signed configuration of the next version that verifies, and
    forgets how to reach it; without such a member nothing changes. *)
Theorem kick_spec EqualFold id s ref who now r c : LocalRoomByRef EqualFold s ref = Ok r -> owner r c ->
  match List.find (is_who who) (pki.Members c) with
  | None => kick EqualFold id s ref who now = Err (ENoMember who)
  | Some m =>
    if bool_decide (pki.NodeID m = identity.NodeID id) then kick EqualFold id s ref who now = Err ESelf
    else exists pre post, pki.Members c = pre ++ m :: post /\ Forall (fun x => is_who who x = false) pre /\
      let c' := updated (set_Members (pre ++ post) c) now in
      carried c' -> exists r', kick EqualFold id s ref who now = Ok (pki.NodeID m, set_Local (replace_ref EqualFold ref r' (Local s)) s)
        /\ owner r' c' /\ Peers r' = delete (pki.NodeID m) (Peers r) /\ RoomID r' = RoomID r /\ Invites r' = Invites r
  end.
Proof.
  intros Href Hown. pose proof (remove_member_spec id who (pki.Members c)) as Hm. unfold kick, with_room. rewrite Href. cbn [map_err mbind res_bind].
  destruct (List.find (is_who who) (pki.Members c)) as [m |].
  - destruct Hm as (pre & post & Hl & Hp & Hm). case_bool_decide as Hme.
    + unfold update. rewrite (ow_config _ _ Hown). cbn [map_err mbind res_bind]. by rewrite Hm.
    + exists pre, post. split; [done |]. split; [done |]. intros Hcar.
      assert (pki.config_ok (set_Members (pre ++ post) c)) as Hok.
      { apply config_ok_sub; [by eapply localsync.owner_config_ok |]. rewrite Hl. apply sublist_app; [done | by apply sublist_cons]. }
      destruct (update_owner r c (fun c => nl ← remove_member id who (pki.Members c); Ok (nl.1, set_Members nl.2 c)) (pki.NodeID m)
        (set_Members (pre ++ post) c) now Hown) as (sg & HU & Ho); [by rewrite Hm | done | done |].
      rewrite HU. cbn [mbind res_bind fst snd]. eexists. split; [reflexivity |]. destruct Ho. by split_and!; [split | ..].
  - unfold update. rewrite (ow_config _ _ Hown). cbn [map_err mbind res_bind]. by rewrite Hm.
Qed.
End Crypto.
End cmdinv.
