(* ===== verification/CmdExample.v ===== *)
(** Runs of the commands of zpt on the room of NodeExample: an invitation that
    another machine takes, a member that is removed, and a change of the running
    node that a command overwrites. *)
From stdpp Require Import base list gmap strings.
From Stdlib Require Import ZArith Lia.
From S2P Require Import Prelude GoStrings GoText Netip Crypto Obfs Identity Pki Controller ControllerNet NodeState LocalSync NodeExample Url Links Cmd CmdInv.

Open Scope Z_scope.

Module cmdscenario.
Import nodestate zptcmd localscenario.

#[local] Existing Instance listed.
#[local] Existing Instance toy_gossip.

Definition same (a b : bytes) : bool := bool_decide (a = b).
Definition nowhere (s : bytes) : option bytes := None.
Definition rnd : bytes := replicate 18 200.

(** Node 1 invites somebody into its room for a day. *)
Notation inviting := (invite same (seedOf 1) ownerState (str "den") 1 24 (str "1.2.3.4:4790, [2001:db8::5]:4791") 0 None [] rnd 100).

Lemma room_data_invited : cmdinv.room_data invited first.
Proof.
  split; [exact invited_owner | vm_compute; reflexivity | split; [by apply seedOf_ok | reflexivity] |].
  split; [simpl; lia |]. split; [reflexivity |]. right. split; [reflexivity | simpl; lia].
Qed.

Lemma invite_join_witness : exists text s' sJ l, inviting = Ok (text, s')
  /\ zptcmd.join nowhere emptyState text (str "five") (fun _ => None) = Ok sJ
  /\ (exists room, Local sJ = [room] /\ nodestate.Join room = Some (MkLocalJoin l (str "five") AddrZero)) /\ l_Secret l = secretOf 7.
Proof.
  destruct inviting as [[text s'] | |] eqn:E; [| exfalso; revert E; vm_compute; discriminate ..].
  destruct (cmdinv.invite_join same nowhere (seedOf 1) ownerState (str "den") 1 24 (str "1.2.3.4:4790, [2001:db8::5]:4791") 0 None [] rnd 100
    text s' emptyState (str "five") (fun _ => None) invited first) as (l & room & r' & Hj & Hr & _ & _ & _ & _ & Hs & _).
  - vm_compute. reflexivity.
  - exact room_data_invited.
  - apply (bool_decide_unpack (Forall (fun b => 0 <= b < 256) (str "1.2.3.4:4790, [2001:db8::5]:4791"))). vm_compute. exact I.
  - reflexivity.
  - done.
  - exact I.
  - exact E.
  - done.
  - exists text, s', (set_Local [room] emptyState), l. split; [reflexivity |]. split; [exact Hj |]. split; [exists room; split; [reflexivity | exact Hr] | exact Hs].
Defined.

(** A command loads the state, changes and saves it; the running node may save
    in between. Node 1 accepts node 5 and says so while "zpt exit off" is
    between loading and saving: the saved file is the loaded one with the choice
    of exit, and the room in it has no node 5 any more. *)
Theorem acceptance_lost : match localsync.handleJoin (str "bad") no_text ownerState (localsync.MkLimiter 0 0) 0 (zeros 32) [1] AddrPortZero true with
  | Ok (Some rep, node_file, _, reload) =>
    localsync.OK rep = true /\ reload = true
    /\ match localsync.room_config node_file (roomOf 7) with Ok c => map pki.NodeID (pki.Members c) = [nodeOf 1; nodeOf 5] | _ => False end
    /\ match exit ownerState [str "off"] false false with
       | Ok (Some (file, _)) => match localsync.room_config file (roomOf 7) with Ok c => map pki.NodeID (pki.Members c) = [nodeOf 1] | _ => False end
       | _ => False
       end
  | _ => False
  end.
Proof. vm_compute. repeat split. Qed.

(** An endpoint given by name is refused: only addresses are read. *)
Theorem endpoint_by_name : parse_endpoint (str "home.example.org:4790") = Err (EEndpoint (str "home.example.org:4790")).
Proof. vm_compute. reflexivity. Qed.
End cmdscenario.
