(* ===== verification/Update.v ===== *)
(** Self-update (internal/update/update.go, install.go): versions, the signed
    manifest, finding and downloading a release, replacing the binaries.

    The network is a function from URLs to bodies, JSON a class, archives are
    given by their regular files in order, and the file system is a map from
    paths to contents on which every call may fail. *)
From stdpp Require Import base list gmap strings.
From Stdlib Require Import ZArith Lia.
From S2P Require Import Prelude GoStrings GoText Encoding Crypto Identity Pki.

Open Scope Z_scope.

Module update.

Definition ManifestName : bytes := str "release.json".
Definition SigName : bytes := str "release.json.sig".
Definition sigDomain : bytes := str "zeropentime-release-v1" ++ [10].
Definition maxManifest : Z := 2 ^ 20.
Definition maxAsset : Z := 512 * 2 ^ 20.
Definition maxSig : Z := 1024.
Definition maxList : Z := 4 * 2 ^ 20.
Definition API : bytes := str "https://api.github.com/repos/Chistovik92/zeropentime".
Definition PublicKey : bytes := str "RV5enp93MHfpzewxhebFOxWh8Zi/oYICtjRG5MYbuYk=".

Record Manifest := MkManifest { Version : bytes; Prerelease : bool; Assets : gmap bytes bytes }.
Record ghRelease := MkGhRelease { Tag : bytes; Draft : bool; gh_Prerelease : bool; gh_Assets : list (bytes * bytes) }.
Record Release := MkRelease { r_Version : bytes; r_Manifest : Manifest; urls : gmap bytes bytes }.

Inductive error : Type :=
  | EBadSeed | EBadKey | ESignature | EJson | EManifest | EFetch (url : bytes) | EOtherVersion (m tag : bytes)
  | ENoFile (name : bytes) | ETooLarge | EHash (name : bytes) | ENoBinary | EOpen | ECopy | ERename.

Class UpdateJson := {
  marshal_manifest : Manifest -> option bytes;
  unmarshal_manifest : bytes -> option Manifest;
  unmarshal_releases : bytes -> option (list ghRelease) }.

(** ** Files *)

(** The files of the machine by path. *)
Abbreviation files := (gmap bytes bytes).
Definition remove (ok : bool) (p : bytes) (fs : files) : files := if ok then delete p fs else fs.

(** [filepath.Base] *)
Definition is_sep (windows : bool) (c : Z) : bool := (c =? 47) || (windows && (c =? 92)).
Fixpoint drop_seps (windows : bool) (s : bytes) : bytes :=
  match s with c :: r => if is_sep windows c then drop_seps windows r else s | [] => [] end.
Fixpoint take_name (windows : bool) (s : bytes) : bytes :=
  match s with c :: r => if is_sep windows c then [] else c :: take_name windows r | [] => [] end.
Definition Base (windows : bool) (path : bytes) : bytes :=
  if bool_decide (path = []) then [46]
  else
    let s := drop_seps windows (rev path) in
    if bool_decide (s = []) then [if windows then 92 else 47] else rev (take_name windows s).

Definition sep (windows : bool) : Z := if windows then 92 else 47.
Definition in_dir (windows : bool) (dir name : bytes) : bytes := dir ++ sep windows :: name.

(** What the calls of [Download] return: [os.Create], how much was written when
    copying failed, [Close], [os.Remove]. *)
Record Saving := MkSaving { create_ok : bool; wrote : option nat; close_ok : bool; remove_ok : bool }.

(** ** Versions *)

Record version := MkVersion { nums : list Z; pre : bytes }.

(** [s >= 0] is the test of a number that parses. *)
Fixpoint all_nums (parts : list bytes) : option (list Z) :=
  match parts with
  | [] => Some []
  | p :: parts =>
    match ParseInt p with
    | Some n => if n <? 0 then None else l ← all_nums parts; Some (n :: l)
    | None => None
    end
  end.

Definition trimV (s : bytes) : bytes := match s with 118 :: r => r | _ => s end.

Definition parseVersion (s : bytes) : option version :=
  let '(num, pre, _) := Cut 45 (trimV s) in
  let parts := Split 46 num in
  if negb (length parts =? 3)%nat then None
  else n ← all_nums parts; Some (MkVersion n pre).

(** [a > b] of strings. *)
Fixpoint string_gt (a b : bytes) : bool :=
  match a, b with
  | _ :: _, [] => true
  | [], _ => false
  | x :: a, y :: b => if x =? y then string_gt a b else y <? x
  end.

(** The first number that differs decides. *)
Fixpoint nums_cmp (a b : list Z) : option bool :=
  match a, b with
  | x :: a, y :: b => if x =? y then nums_cmp a b else Some (y <? x)
  | _, _ => None
  end.

Definition pre_newer (a b : bytes) : bool :=
  if bool_decide (a = b) then false
  else if bool_decide (a = []) then true
  else if bool_decide (b = []) then false
  else string_gt a b.

Definition Newer (a b : bytes) : bool :=
  match parseVersion a with
  | None => false
  | Some va =>
    match parseVersion b with
    | None => true
    | Some vb => match nums_cmp (nums va) (nums vb) with Some r => r | None => pre_newer (pre va) (pre vb) end
    end
  end.

(** ** The signed manifest *)

Section Crypto.
Context `{CR : Crypto} `{UJ : UpdateJson}.

Definition Sign (seed : bytes) (m : Manifest) : res error (bytes * bytes) :=
  if negb (zlen seed =? identity.SeedSize) then Err EBadSeed
  else match marshal_manifest m with
       | None => Err EJson
       | Some payload =>
         s ← pki.ed25519_Sign (pki.NewKeyFromSeed seed) (sigDomain ++ payload); Ok (payload, encode64 s)
       end.

(** [Verify]; [key] is the text of the built-in key, a variable of the package. *)
Definition Verify (key payload sig : bytes) : res error Manifest :=
  match base64_decode key with
  | None => Err EBadKey
  | Some pub =>
    if negb (zlen pub =? pki.PublicKeySize) then Err EBadKey
    else match base64_decode (TrimSpace sig) with
    | None => Err ESignature
    | Some s =>
      if negb (ed_verify pub (sigDomain ++ payload) s) then Err ESignature
      else match unmarshal_manifest payload with
      | None => Err EJson
      | Some m => if bool_decide (parseVersion (Version m) = None) || bool_decide (Assets m = ∅) then Err EManifest else Ok m
      end
    end
  end.

(** ** Finding a release *)

Context (fetch : bytes -> option bytes).

Definition get (url : bytes) (limit : Z) : res error bytes :=
  match fetch url with
  | Some b => if limit <? zlen b then Err (EFetch url) else Ok b
  | None => Err (EFetch url)
  end.

(** The last asset of a name counts. *)
Definition assetURLs (r : ghRelease) : gmap bytes bytes := fold_left (fun m a => <[a.1 := a.2]> m) (gh_Assets r) ∅.

Definition url_of (m : gmap bytes bytes) (name : bytes) : bytes := default [] (m !! name).

Definition consider (current channel : bytes) (best : option ghRelease) (r : ghRelease) : option ghRelease :=
  if Draft r || (gh_Prerelease r && negb (bool_decide (channel = str "beta"))) then best
  else if negb (Newer (Tag r) current) || match best with Some b => negb (Newer (Tag r) (Tag b)) | None => false end then best
  else if bool_decide (url_of (assetURLs r) ManifestName = []) || bool_decide (url_of (assetURLs r) SigName = []) then best
  else Some r.

Definition Check (key current channel : bytes) : res error (option Release) :=
  b ← get (API ++ str "/releases?per_page=30") maxList;
  match unmarshal_releases b with
  | None => Err EJson
  | Some l =>
    match fold_left (consider current channel) l None with
    | None => Ok None
    | Some best =>
      let urls := assetURLs best in
      payload ← get (url_of urls ManifestName) maxManifest;
      sig ← get (url_of urls SigName) maxSig;
      m ← Verify key payload sig;
      if negb (bool_decide (Version m = trimV (Tag best))) then Err (EOtherVersion (Version m) (trimV (Tag best)))
      else if negb (Newer (Version m) current) then Ok None
      else Ok (Some (MkRelease (Version m) m urls))
    end
  end.

(** [Download]: what it returns, and the files after it. *)
Definition Download (windows : bool) (r : Release) (name dir : bytes) (o : Saving) (fs : files) : res error bytes * files :=
  match Assets (r_Manifest r) !! name with
  | None => (Err (ENoFile name), fs)
  | Some want =>
    let url := url_of (urls r) name in
    if bool_decide (url = []) then (Err (ENoFile name), fs)
    else match fetch url with
    | None => (Err (EFetch url), fs)
    | Some resp =>
      let path := in_dir windows dir (Base windows name) in
      if negb (create_ok o) then (Err EOpen, fs)
      else
        let limited := if maxAsset + 1 <? zlen resp then take (Z.to_nat (maxAsset + 1)) resp else resp in
        let body := match wrote o with Some n => take n limited | None => limited end in
        let fs := <[path := body]> fs in
        let err :=
          if negb (bool_decide (wrote o = None)) || negb (close_ok o) then Some ECopy
          else if maxAsset <? zlen body then Some ETooLarge
          else if negb (bool_decide (hex_encode (sha256 body) = ToLower want)) then Some (EHash name)
          else None in
        match err with Some e => (Err e, remove (remove_ok o) path fs) | None => (Ok path, fs) end
    end
  end.

End Crypto.

(** ** Installing (install.go) *)

Inductive Kind : Type := KindArchive | KindMSI | KindDeb | KindRPM.

Definition AssetName (k : Kind) (version goos goarch : bytes) : bytes :=
  match k with
  | KindMSI => str "zpt_" ++ version ++ str "_windows_" ++ goarch ++ str ".msi"
  | KindDeb => str "zeropentime_" ++ version ++ str "_linux_" ++ goarch ++ str ".deb"
  | KindRPM => str "zeropentime_" ++ version ++ str "_linux_" ++ goarch ++ str ".rpm"
  | KindArchive =>
    if bool_decide (goos = str "windows") then str "zpt_" ++ version ++ str "_windows_" ++ goarch ++ str ".zip"
    else str "zpt_" ++ version ++ 95 :: goos ++ 95 :: goarch ++ str ".tar.gz"
  end.

(** ** Replacing the binaries

    What the calls of the operating system return is in [Calls]; [copied] is how
    much of the new file was written when writing failed. *)
Record Calls := MkCalls {
  open_ok : bool; copied : option nat; rm_tmp : bool; rm_old : bool; mv_old : bool; mv_new : bool; mv_back : bool }.

Definition rename (a b : bytes) (fs : files) : files :=
  match fs !! a with Some c => <[b := c]> (delete a fs) | None => fs end.

Definition tmp_of (dst : bytes) : bytes := dst ++ str ".new".
Definition old_of (dst : bytes) : bytes := dst ++ str ".old".

Definition replaceFile (windows : bool) (o : Calls) (dst data : bytes) (fs : files) : res error unit * files :=
  let tmp := tmp_of dst in
  let old := old_of dst in
  if negb (open_ok o) then (Err EOpen, fs)
  else match copied o with
  | Some n => (Err ECopy, remove (rm_tmp o) tmp (<[tmp := take n data]> fs))
  | None =>
    let fs := remove (rm_old o) old (<[tmp := data]> fs) in
    let moved := bool_decide (fs !! dst = None) || mv_old o in
    if windows && negb moved then (Err ERename, remove (rm_tmp o) tmp fs)
    else
      let fs := if windows then rename dst old fs else fs in
      if mv_new o then (Ok tt, rename tmp dst fs)
      else (Err ERename, remove (rm_tmp o) tmp (if windows && mv_back o then rename old dst fs else fs))
  end.

Definition binaries : list bytes := map str ["zpt"; "zpt.exe"; "zpt-tray"; "zpt-tray.exe"]%string.

(** [put]: was the file one to install, and what became of it. *)
Definition put (windows : bool) (dir : bytes) (o : Calls) (name data : bytes) (fs : files) : bool * res error unit * files :=
  let name := Base windows name in
  let dst := in_dir windows dir name in
  if negb (bool_decide (name ∈ binaries)) then (false, Ok tt, fs)
  else if bool_decide (fs !! dst = None) && negb (bool_decide (name = str "zpt")) && negb (bool_decide (name = str "zpt.exe"))
  then (false, Ok tt, fs)
  else let '(r, fs) := replaceFile windows o dst (take (Z.to_nat maxAsset) data) fs in (true, r, fs).

(** [replaceFromArchive] on the regular files of the archive. *)
Fixpoint replace_all (windows : bool) (dir : bytes) (l : list (bytes * bytes * Calls)) (found : bool) (fs : files)
    : res error unit * files :=
  match l with
  | [] => (if found then Ok tt else Err ENoBinary, fs)
  | (name, data, o) :: l =>
    let '(f, r, fs) := put windows dir o name data fs in
    match r with
    | Ok _ => replace_all windows dir l (found || f) fs
    | _ => (r, fs)
    end
  end.
Definition replaceFromArchive (windows : bool) (dir : bytes) (l : list (bytes * bytes * Calls)) (fs : files) : res error unit * files :=
  replace_all windows dir l false fs.

(** ** The order of versions *)

Lemma string_gt_irrefl a : string_gt a a = false.
Proof. induction a as [| x a IH]; [done |]. simpl. by rewrite Z.eqb_refl. Qed.
Lemma string_gt_trans a : forall b c, string_gt a b = true -> string_gt b c = true -> string_gt a c = true.
Proof.
  induction a as [| x a IH]; intros b c; [done |]. destruct b as [| y b]; [done |]. destruct c as [| z c]; [done |]. simpl.
  destruct (Z.eqb_spec x y) as [-> | Hxy], (Z.eqb_spec y z) as [-> | Hyz]; [apply IH | tauto | |].
  - intros Hy _. rewrite (proj2 (Z.eqb_neq x z)) by done. exact Hy.
  - intros Hy Hz. rewrite (proj2 (Z.eqb_neq x z)) by lia. lia.
Qed.
Lemma string_gt_total a : forall b, a <> b -> string_gt a b = true \/ string_gt b a = true.
Proof.
  induction a as [| x a IH]; intros [| y b] H; simpl; [done | by right | by left |].
  rewrite (Z.eqb_sym y x). destruct (Z.eqb_spec x y) as [-> |]; [apply IH; congruence |]. lia.
Qed.

Lemma pre_newer_iff a b : pre_newer a b = true <-> b <> [] /\ (a = [] \/ string_gt a b = true).
Proof.
  unfold pre_newer. case_bool_decide as Hab; [subst; rewrite string_gt_irrefl; naive_solver |].
  case_bool_decide as Ha; [subst; naive_solver |]. case_bool_decide as Hb; naive_solver.
Qed.
Lemma pre_newer_trans a b c : pre_newer a b = true -> pre_newer b c = true -> pre_newer a c = true.
Proof.
  rewrite !pre_newer_iff. intros [Hb [-> | H1]] [Hc [-> | H2]]; try done; split; auto.
  right. by eapply string_gt_trans.
Qed.
Lemma pre_newer_total a b : a <> b -> pre_newer a b = true \/ pre_newer b a = true.
Proof.
  intros H. unfold pre_newer. rewrite (bool_decide_eq_false_2 (a = b)), (bool_decide_eq_false_2 (b = a)) by congruence.
  do 2 case_bool_decide; try (by left); try (by right). by apply string_gt_total.
Qed.

Lemma nums_cmp_trans a : forall b c, nums_cmp a b = Some true -> nums_cmp b c = Some true -> nums_cmp a c = Some true.
Proof.
  induction a as [| x a IH]; intros [| y b] [| z c]; simpl; try done.
  destruct (Z.eqb_spec x y) as [-> | Hxy], (Z.eqb_spec y z) as [-> | Hyz]; [apply IH | tauto | |].
  - intros [= Hy] _. rewrite (proj2 (Z.eqb_neq x z)) by done. by rewrite Hy.
  - intros [= Hy] [= Hz]. rewrite (proj2 (Z.eqb_neq x z)) by lia. f_equal. lia.
Qed.
Lemma nums_cmp_eq a : forall b, length a = length b -> nums_cmp a b = None -> a = b.
Proof.
  induction a as [| x a IH]; intros [| y b]; simpl; try done. intros [= Hl]. destruct (Z.eqb_spec x y) as [-> |]; [| done].
  intros H. f_equal. by apply IH.
Qed.
Lemma nums_cmp_refl a : nums_cmp a a = None.
Proof. induction a as [| x a IH]; [done |]. simpl. by rewrite Z.eqb_refl. Qed.
Lemma nums_cmp_sym a : forall b, nums_cmp a b = Some false -> nums_cmp b a = Some true.
Proof.
  induction a as [| x a IH]; intros [| y b]; simpl; try done. rewrite (Z.eqb_sym y x).
  destruct (Z.eqb_spec x y) as [-> |]; [apply IH |]. intros [= H]. f_equal. lia.
Qed.

Lemma all_nums_length parts : forall l, all_nums parts = Some l -> length l = length parts.
Proof.
  induction parts as [| p parts IH]; intros l; simpl; [by intros [= <-] |].
  destruct (ParseInt p) as [n |]; [| done]. destruct (n <? 0); [done |].
  intros (l' & Hl & [= <-])%bind_Some. simpl. f_equal. by apply IH.
Qed.
Lemma parse_three s v : parseVersion s = Some v -> length (nums v) = 3%nat.
Proof.
  unfold parseVersion. destruct (Cut _ _) as [[num p] b]. destruct (_ =? _)%nat eqn:E; [| done]. apply Nat.eqb_eq in E.
  intros (l & Hl & [= <-])%bind_Some. simpl. rewrite <- E. by apply all_nums_length.
Qed.

Lemma Newer_trans a b c : Newer a b = true -> Newer b c = true -> Newer a c = true.
Proof.
  unfold Newer. destruct (parseVersion a) as [va |] eqn:Ha; [| done]. destruct (parseVersion b) as [vb |] eqn:Hb; [| done].
  destruct (parseVersion c) as [vc |] eqn:Hc; [| done].
  pose proof (parse_three _ _ Ha) as La. pose proof (parse_three _ _ Hb) as Lb. pose proof (parse_three _ _ Hc) as Lc.
  destruct (nums_cmp (nums va) (nums vb)) as [r1 |] eqn:E1, (nums_cmp (nums vb) (nums vc)) as [r2 |] eqn:E2; intros H1 H2; subst.
  - by rewrite (nums_cmp_trans _ _ _ E1 E2).
  - apply nums_cmp_eq in E2; [| congruence]. by rewrite <- E2, E1.
  - apply nums_cmp_eq in E1; [| congruence]. by rewrite E1, E2.
  - apply nums_cmp_eq in E1; [| congruence]. apply nums_cmp_eq in E2; [| congruence]. rewrite E1, E2, nums_cmp_refl.
    by eapply pre_newer_trans.
Qed.

Lemma Newer_irrefl a : Newer a a = false.
Proof. unfold Newer. destruct (parseVersion a) as [v |]; [| done]. rewrite nums_cmp_refl. unfold pre_newer. by rewrite bool_decide_eq_true_2. Qed.

(** [Newer] is a strict order in which two versions are comparable unless
    they are written with the same numbers and the same suffix, and a text that
    is no version is older than every version. *)
Theorem Newer_spec : (forall a, Newer a a = false)
  /\ (forall a b c, Newer a b = true -> Newer b c = true -> Newer a c = true)
  /\ (forall a b va vb, parseVersion a = Some va -> parseVersion b = Some vb -> va <> vb -> Newer a b = true \/ Newer b a = true)
  /\ (forall a b, parseVersion b = None -> Newer b a = false /\ (Newer a b = true <-> parseVersion a <> None)).
Proof.
  split_and!; [exact Newer_irrefl | exact Newer_trans | |].
  - intros a b va vb Ha Hb Hne. pose proof (parse_three _ _ Ha) as La. pose proof (parse_three _ _ Hb) as Lb.
    unfold Newer. rewrite Ha, Hb. destruct (nums_cmp (nums va) (nums vb)) as [[] |] eqn:E; [by left | right; by rewrite (nums_cmp_sym _ _ E) |].
    apply nums_cmp_eq in E; [| congruence]. rewrite E, nums_cmp_refl. apply pre_newer_total. destruct va, vb. simpl in *. congruence.
  - intros a b Hb. unfold Newer. rewrite Hb. split; [done |]. by destruct (parseVersion a).
Qed.

(** The suffixes of pre-releases are compared as texts: the tenth release
    candidate is older than the ninth. *)
Theorem Newer_rc10 : Newer (str "1.0.0-rc.10") (str "1.0.0-rc.9") = false /\ Newer (str "1.0.0-rc.9") (str "1.0.0-rc.10") = true.
Proof. by vm_compute. Qed.

(** ** What is found and downloaded *)

Section Found.
Context `{CR : Crypto} `{UJ : UpdateJson} (fetch : bytes -> option bytes).

(** A release that may be taken: of the channel, newer than the running
    version, and signed. *)
Definition eligible (current channel : bytes) (r : ghRelease) : Prop :=
  Draft r = false /\ (gh_Prerelease r = true -> channel = str "beta") /\ Newer (Tag r) current = true
  /\ url_of (assetURLs r) ManifestName <> [] /\ url_of (assetURLs r) SigName <> [].

Definition newest (current channel : bytes) (l : list ghRelease) (best : option ghRelease) : Prop :=
  match best with
  | Some b => b ∈ l /\ eligible current channel b /\ forall r, r ∈ l -> eligible current channel r -> Newer (Tag r) (Tag b) = false
  | None => forall r, r ∈ l -> ~ eligible current channel r
  end.

Lemma consider_newest current channel l best r : newest current channel l best ->
  newest current channel (l ++ [r]) (consider current channel best r).
Proof.
  intros H. assert (forall b, newest current channel l b -> ~ eligible current channel r -> newest current channel (l ++ [r]) b) as Hskip.
  { intros [b |]; simpl; intros Hb Hno.
    - destruct Hb as (Hin & He & Hmax). split_and!; [set_solver | done |]. intros x [Hx | ->%list_elem_of_singleton]%elem_of_app He'; [by apply Hmax | done].
    - intros x [Hx | ->%list_elem_of_singleton]%elem_of_app; [by apply Hb | done]. }
  unfold consider. destruct (Draft r || _) eqn:Hd.
  { apply Hskip; [done |]. intros (H1 & H2 & _). rewrite H1 in Hd. simpl in Hd. apply andb_true_iff in Hd as [Hp Hch].
    apply negb_true_iff, bool_decide_eq_false in Hch. auto. }
  destruct (negb (Newer (Tag r) current)) eqn:Hc; simpl.
  { apply Hskip; [done |]. intros (_ & _ & H3 & _). by rewrite H3 in Hc. }
  destruct (bool_decide (url_of (assetURLs r) ManifestName = []) || _) eqn:Hu; [case_match; apply Hskip; try done|].
  1, 2: intros (_ & _ & _ & H4 & H5); apply orb_true_iff in Hu as [Hu | Hu]; apply bool_decide_eq_true in Hu; done.
  apply orb_false_iff in Hd as [Hd Hp]. apply orb_false_iff in Hu as [Hu1 Hu2]. apply bool_decide_eq_false in Hu1, Hu2.
  apply negb_false_iff in Hc.
  assert (eligible current channel r) as He.
  { split_and!; try done. intros Hpre. rewrite Hpre in Hp. simpl in Hp. apply negb_false_iff, bool_decide_eq_true in Hp. done. }
  destruct best as [b |]; simpl in H; [destruct (Newer (Tag r) (Tag b)) eqn:Hn; simpl |].
  - destruct H as (Hin & Hb & Hmax). split_and!; [set_solver | done |].
    intros x [Hx | ->%list_elem_of_singleton]%elem_of_app Hex; [| apply Newer_irrefl].
    apply not_true_iff_false. intros E. pose proof (Newer_trans _ _ _ E Hn) as Ht. by rewrite (Hmax x Hx Hex) in Ht.
  - destruct H as (Hin & Hb & Hmax). split_and!; [set_solver | done |].
    intros x [Hx | ->%list_elem_of_singleton]%elem_of_app Hex; [by apply Hmax | done].
  - split_and!; [set_solver | done |]. intros x [Hx | ->%list_elem_of_singleton]%elem_of_app Hex; [by destruct (H x Hx) | apply Newer_irrefl].
Qed.

Lemma consider_all current channel l : newest current channel l (fold_left (consider current channel) l None).
Proof.
  induction l as [| r l IH] using rev_ind; [intros r H; by apply elem_of_nil in H |].
  rewrite fold_left_app. by apply consider_newest.
Qed.

Lemma Verify_ok key payload sig m : Verify key payload sig = Ok m <->
  exists pub s, base64_decode key = Some pub /\ zlen pub = pki.PublicKeySize /\ base64_decode (TrimSpace sig) = Some s
    /\ ed_verify pub (sigDomain ++ payload) s = true /\ unmarshal_manifest payload = Some m
    /\ parseVersion (Version m) <> None /\ Assets m <> ∅.
Proof.
  unfold Verify. split.
  - destruct (base64_decode key) as [pub |]; [| done]. destruct (Z.eqb_spec (zlen pub) pki.PublicKeySize) as [Hl |]; [| done].
    cbn [negb]. destruct (base64_decode (TrimSpace sig)) as [s |]; [| done]. destruct (ed_verify pub _ s) eqn:Hv; [| done].
    cbn [negb]. destruct (unmarshal_manifest payload) as [m' |]; [| done].
    case_bool_decide; [done |]. case_bool_decide; [done |]. cbn [orb]. intros [= <-]. by exists pub, s.
  - intros (pub & s & -> & -> & -> & Hv & -> & Hp & Ha). rewrite Z.eqb_refl. cbn [negb]. rewrite Hv. cbn [negb].
    by rewrite !bool_decide_eq_false_2.
Qed.

Lemma get_ok url limit b : get fetch url limit = Ok b <-> fetch url = Some b /\ zlen b <= limit.
Proof.
  unfold get. destruct (fetch url) as [x |]; [| naive_solver]. destruct (Z.ltb_spec limit (zlen x)).
  - split; [done |]. intros [[= ->] ?]. lia.
  - split; [intros [= ->]; split; [done | lia] | by intros [[= ->] _]].
Qed.

(** What makes a release trustworthy: its manifest is signed with the built-in
    key and names a version newer than the running one. *)
Definition trusted (key current : bytes) (r : Release) : Prop :=
  exists payload sig, Verify key payload sig = Ok (r_Manifest r) /\ Version (r_Manifest r) = r_Version r /\ Newer (r_Version r) current = true.

(** A release that is found is signed with the built-in key for the very
    version of its tag, newer than the running one, of the channel, and no other
    release of the list that may be taken is newer. When nothing is found, none
    may be taken, or the newest one is signed for a version that is not newer. *)
Theorem Check_spec key current channel r : Check fetch key current channel = Ok r ->
  exists body l best, fetch (API ++ str "/releases?per_page=30") = Some body /\ unmarshal_releases body = Some l
    /\ newest current channel l best
    /\ match r with
       | Some r => trusted key current r /\ exists b, best = Some b /\ r_Version r = trimV (Tag b) /\ urls r = assetURLs b
       | None => best = None \/ exists b m payload sig, best = Some b /\ Verify key payload sig = Ok m
                   /\ Version m = trimV (Tag b) /\ Newer (Version m) current = false
       end.
Proof.
  unfold Check. intros (body & Hb & H)%bind_ok. apply get_ok in Hb as [Hb _]. exists body.
  destruct (unmarshal_releases body) as [l |]; [| done]. pose proof (consider_all current channel l) as Hn.
  destruct (fold_left _ l None) as [b |] eqn:Hbest.
  - apply bind_ok in H as (payload & _ & H). apply bind_ok in H as (sig & _ & H). apply bind_ok in H as (m & Hm & H).
    case_bool_decide as Hv; [| done]. cbn [negb] in H. destruct (Newer (Version m) current) eqn:Hnew; cbn [negb] in H; injection H as <-.
    + exists l, (Some b). split_and!; try done; [by exists payload, sig | by exists b].
    + exists l, (Some b). split_and!; try done. right. by exists b, m, payload, sig.
  - injection H as <-. exists l, None. split_and!; try done. by left.
Qed.

(** C17: Whatever the servers answer and whichever call fails, [Download] touches
    no file but the one it returns; when it returns one, its contents have the
    hash that a manifest signed with the built-in key lists under its name, and
    that manifest is for a version newer than the running one. When it fails, no
    file is left, unless removing it fails. *)
Theorem update_authentic windows key current channel r name dir o fs : Check fetch key current channel = Ok (Some r) ->
  let path := in_dir windows dir (Base windows name) in
  let '(result, fs') := Download fetch windows r name dir o fs in
  (forall p, p <> path -> fs' !! p = fs !! p)
  /\ match result with
     | Ok p => p = path /\ exists body pub payload s m want, fs' !! path = Some body
         /\ base64_decode key = Some pub /\ ed_verify pub (sigDomain ++ payload) s = true
         /\ unmarshal_manifest payload = Some m /\ Newer (Version m) current = true
         /\ Assets m !! name = Some want /\ hex_encode (sha256 body) = ToLower want /\ zlen body <= maxAsset
     | _ => fs' = fs \/ fs' !! path = None \/ remove_ok o = false
     end.
Proof.
  unfold Check. intros (b & _ & H)%bind_ok. set (path := in_dir windows dir (Base windows name)). destruct (unmarshal_releases b) as [l |]; [| done].
  destruct (fold_left _ l None) as [best |]; [| done].
  apply bind_ok in H as (payload & _ & H). apply bind_ok in H as (sig & _ & H). apply bind_ok in H as (m & Hm & H).
  case_bool_decide; [| done]. cbn [negb] in H. destruct (Newer (Version m) current) eqn:Hnew; [| done]. injection H as <-.
  apply Verify_ok in Hm as (pub & s & Hk & _ & _ & Hv & Hu & _ & _).
  unfold Download. cbn [r_Manifest urls]. destruct (Assets m !! name) as [want |] eqn:Ha; [| split; [done | by left]].
  case_bool_decide; [split; [done | by left] |]. destruct (fetch _) as [resp |]; [| split; [done | by left]]. fold path.
  destruct (create_ok o); cbn [negb]; [| split; [done | by left]].
  set (body := match wrote o with Some n => _ | None => _ end).
  assert (forall p, p <> path -> (<[path := body]> fs) !! p = fs !! p) as Hins by (intros p Hp; by rewrite lookup_insert_ne).
  assert (forall e : error, (forall p, p <> path -> remove (remove_ok o) path (<[path := body]> fs) !! p = fs !! p)
    /\ (remove (remove_ok o) path (<[path := body]> fs) = fs \/ remove (remove_ok o) path (<[path := body]> fs) !! path = None \/ remove_ok o = false)) as Herr.
  { intros _. unfold remove. destruct (remove_ok o); [| split; [done | by right; right]]. split; [| right; left; apply lookup_delete_eq].
    intros p Hp. by rewrite lookup_delete_ne, Hins. }
  destruct (negb (bool_decide (wrote o = None)) || negb (close_ok o)); [exact (Herr ECopy) |].
  destruct (Z.ltb_spec maxAsset (zlen body)); [exact (Herr ETooLarge) |].
  case_bool_decide as Hh; cbn [negb]; [| exact (Herr ECopy)]. split; [done |]. split; [done |].
  exists body, pub, payload, s, m, want. split; [apply lookup_insert_eq | done].
Qed.

End Found.

(** ** Replacing a file *)

Lemma rename_other a b fs p : p <> a -> p <> b -> rename a b fs !! p = fs !! p.
Proof. intros Ha Hb. unfold rename. destruct (fs !! a); [| done]. by rewrite lookup_insert_ne, lookup_delete_ne. Qed.
Lemma rename_to a b fs c : fs !! a = Some c -> rename a b fs !! b = Some c.
Proof. intros H. unfold rename. rewrite H. apply lookup_insert_eq. Qed.
Lemma remove_other ok p q fs : q <> p -> remove ok p fs !! q = fs !! q.
Proof. intros H. unfold remove. destruct ok; [by rewrite lookup_delete_ne | done]. Qed.

Lemma suffix_ne (a s : bytes) : s <> [] -> a ++ s <> a.
Proof. intros Hs E. apply (f_equal length) in E. rewrite length_app in E. destruct s; [done | simpl in E; lia]. Qed.
Lemma tmp_ne dst : tmp_of dst <> dst.
Proof. by apply suffix_ne. Qed.
Lemma old_ne dst : old_of dst <> dst.
Proof. by apply suffix_ne. Qed.
Lemma tmp_old dst : tmp_of dst <> old_of dst.
Proof. unfold tmp_of, old_of. intros E%app_inv_head. vm_compute in E. congruence. Qed.

(** C27: Replacing a binary that exists either succeeds, and the file has the new
    contents, or fails, and the file is the old one — except on Windows, when
    the new file could not be moved in and the old one could not be moved back.
    No file but the binary and its .new and .old is touched. *)
Theorem replaceFile_spec windows o dst data fs c : fs !! dst = Some c ->
  let '(r, fs') := replaceFile windows o dst data fs in
  match r with
  | Ok _ => fs' !! dst = Some data
  | _ => fs' !! dst = Some c \/ (windows = true /\ mv_new o = false /\ mv_back o = false)
  end
  /\ forall p, p <> dst -> p <> tmp_of dst -> p <> old_of dst -> fs' !! p = fs !! p.
Proof.
  intros Hc. pose proof (tmp_ne dst) as H1. pose proof (old_ne dst) as H2. pose proof (tmp_old dst) as H3.
  unfold replaceFile. destruct (open_ok o); cbn [negb]; [| split; [by left | done]].
  destruct (copied o) as [n |].
  { split; [left | intros p ???]; by rewrite remove_other, lookup_insert_ne by done. }
  set (fs1 := remove (rm_old o) (old_of dst) (<[tmp_of dst := data]> fs)).
  assert (fs1 !! dst = Some c) as Hd by (unfold fs1; by rewrite remove_other, lookup_insert_ne by done).
  assert (fs1 !! tmp_of dst = Some data) as Ht by (unfold fs1; by rewrite remove_other, lookup_insert_eq by done).
  assert (forall p, p <> dst -> p <> tmp_of dst -> p <> old_of dst -> fs1 !! p = fs !! p) as Hp
    by (intros p ???; unfold fs1; by rewrite remove_other, lookup_insert_ne by done).
  rewrite (bool_decide_eq_false_2 (fs1 !! dst = None)) by (by rewrite Hd). cbn [orb].
  destruct windows; cbn [andb].
  - destruct (mv_old o); cbn [negb].
    2: { split; [left; by rewrite remove_other | intros p ???; rewrite remove_other by done; by apply Hp]. }
    set (fs2 := rename dst (old_of dst) fs1).
    assert (fs2 !! tmp_of dst = Some data) as Ht2 by (unfold fs2; by rewrite rename_other).
    assert (fs2 !! old_of dst = Some c) as Ho2 by (unfold fs2; by apply rename_to).
    assert (forall p, p <> dst -> p <> tmp_of dst -> p <> old_of dst -> fs2 !! p = fs !! p) as Hp2
      by (intros p ???; unfold fs2; rewrite rename_other by done; by apply Hp).
    destruct (mv_new o).
    + split; [by apply rename_to | intros p ???; rewrite rename_other by done; by apply Hp2].
    + destruct (mv_back o); cbn [andb]; (split; [| intros p ???; rewrite remove_other, ?rename_other by done; by apply Hp2]).
      * left. rewrite remove_other by done. by apply rename_to.
      * by right.
  - destruct (mv_new o); (split; [| intros p ???; rewrite ?remove_other, ?rename_other by done; by apply Hp]).
    + by apply rename_to.
    + left. by rewrite remove_other.
Qed.

(** The paths an update may write. *)
Definition may_write (windows : bool) (dir p : bytes) : Prop :=
  exists name, name ∈ binaries /\ let dst := in_dir windows dir name in p = dst \/ p = tmp_of dst \/ p = old_of dst.

Lemma replaceFile_other windows o dst data fs p : p <> dst -> p <> tmp_of dst -> p <> old_of dst ->
  (replaceFile windows o dst data fs).2 !! p = fs !! p.
Proof.
  intros ???. unfold replaceFile. destruct (open_ok o); [| done]. cbn [negb]. destruct (copied o) as [n |]; simpl.
  - by rewrite remove_other, lookup_insert_ne.
  - set (fs1 := remove _ _ _). assert (fs1 !! p = fs !! p) as Hp by (unfold fs1; by rewrite remove_other, lookup_insert_ne).
    destruct (windows && _); simpl; [by rewrite remove_other |].
    destruct windows, (mv_new o), (mv_back o); simpl; by rewrite ?remove_other, ?rename_other.
Qed.

(** Whatever names an archive holds ("../../etc/passwd"), installing it
    writes only the four binaries in their directory and their .new and .old. *)
Theorem archive_confined windows dir l fs : forall p, ~ may_write windows dir p ->
  (replaceFromArchive windows dir l fs).2 !! p = fs !! p.
Proof.
  intros p Hp. unfold replaceFromArchive. generalize false. revert fs.
  induction l as [| [[name data] o] l IH]; intros fs found; [done |]. cbn [replace_all]. unfold put.
  case_bool_decide as Hb; cbn [negb]; [| cbn; by apply IH].
  destruct (_ && _); [cbn; by apply IH |].
  pose proof (replaceFile_other windows o (in_dir windows dir (Base windows name)) (take (Z.to_nat maxAsset) data) fs p) as Ho.
  destruct (replaceFile _ _ _ _ _) as [r fs']. cbn [snd] in Ho.
  rewrite <- Ho by (intros ->; apply Hp; exists (Base windows name); naive_solver).
  destruct r; [apply IH | done | done].
Qed.

(** ** Signing *)

(** What the release workflow signs is what the node accepts under the public
    half of the key. *)
Theorem Verify_manifest `{CL : CryptoLaws} `{UJ : UpdateJson} seed m payload sig : bytes_ok seed -> Sign seed m = Ok (payload, sig) ->
  unmarshal_manifest payload = Some m -> parseVersion (Version m) <> None -> Assets m <> ∅ ->
  Verify (encode64 (ed_public seed)) payload sig = Ok m.
Proof.
  intros Hb Hs Hu Hv Ha. unfold Sign in Hs. destruct (Z.eqb_spec (zlen seed) identity.SeedSize) as [Hl |]; [| done]. cbn [negb] in Hs.
  destruct (marshal_manifest m) as [p |]; [| done].
  assert (length seed = 32%nat) as Hn by (unfold zlen, identity.SeedSize in Hl; lia).
  destruct (pki.NewKeyFromSeed_spec (E := error) seed Hn) as [_ Hk]. rewrite Hk in Hs. cbn in Hs. injection Hs as -> <-.
  apply Verify_ok. exists (ed_public seed), (ed_sign seed (sigDomain ++ payload)).
  rewrite TrimSpace_word by (apply graph_no_space, graph_encode64). rewrite !base64_roundtrip by (by apply ed_public_ok || apply ed_sign_ok).
  split_and!; try done; [unfold zlen; by rewrite length_ed_public | apply ed_verify_sign].
Qed.

(** ** A run *)

Module scenario.

#[local] Instance plain : Crypto := {|
  sha256 m := take 32 (m ++ zeros 32); blake2s m := take 32 (m ++ zeros 32);
  hkdf s salt l n := take n (s ++ zeros n); aes128 k b := k;
  secretbox_seal m n k := zeros 16 ++ m; secretbox_open c n k := Some (drop 16 c);
  x25519 s := s; box_seal m n p s := zeros 16 ++ m; box_open c n p s := Some (drop 16 c);
  anon_seal m p r := zeros 48 ++ m; anon_open c p s := Some (drop 48 c);
  ed_public s := s; ed_sign s m := s; ed_verify p m s := bool_decide (p = s) |}.

Definition key : bytes := encode64 (zeros 32).
Definition file : bytes := str "new binary".
Definition name : bytes := str "zpt.tar.gz".
Definition manifest : Manifest := MkManifest (str "0.6.7") false {[name := hex_encode (sha256 file)]}.
Definition release (tag : bytes) : ghRelease :=
  MkGhRelease tag false false [(ManifestName, str "m"); (SigName, str "s"); (name, str "f")].

#[local] Instance json : UpdateJson := {|
  marshal_manifest m := Some [1];
  unmarshal_manifest p := if bool_decide (p = [1]) then Some manifest else None;
  unmarshal_releases p := if bool_decide (p = [2]) then Some [release (str "v0.6.6"); release (str "v0.6.7"); release (str "v0.6.5")] else None |}.

Definition fetch (url : bytes) : option bytes :=
  if bool_decide (url = API ++ str "/releases?per_page=30") then Some [2]
  else if bool_decide (url = str "m") then Some [1]
  else if bool_decide (url = str "s") then Some (encode64 (zeros 32))
  else if bool_decide (url = str "f") then Some file else None.

Definition found : Release := MkRelease (str "0.6.7") manifest (assetURLs (release (str "v0.6.7"))).

Lemma found_ok : Check fetch key (str "0.6.5") (str "stable") = Ok (Some found).
Proof. vm_compute. reflexivity. Qed.

Lemma Check_spec_witness : trusted key (str "0.6.5") found.
Proof.
  destruct (Check_spec fetch key (str "0.6.5") (str "stable") (Some found) found_ok) as (_ & _ & _ & _ & _ & _ & H & _). exact H.
Defined.

Definition saving : Saving := MkSaving true None true true.
Definition dir : bytes := str "/tmp/zpt-update-1".

Lemma update_authentic_witness : exists fs', Download fetch false found name dir saving ∅ = (Ok (dir ++ 47 :: name), fs')
  /\ exists body want, fs' !! (dir ++ 47 :: name) = Some body /\ Assets manifest !! name = Some want /\ hex_encode (sha256 body) = ToLower want.
Proof.
  pose proof (update_authentic fetch false key (str "0.6.5") (str "stable") found name dir saving ∅ found_ok) as H. cbv zeta in H.
  assert ((Download fetch false found name dir saving ∅).1 = Ok (dir ++ 47 :: name)) as Hd by (vm_compute; reflexivity).
  assert (in_dir false dir (Base false name) = dir ++ 47 :: name) as Hp by (vm_compute; reflexivity).
  destruct (Download _ _ _ _ _ _ _) as [result fs']. cbn [fst] in Hd. subst result. rewrite Hp in H.
  destruct H as (_ & _ & body & pub & payload & s & m & want & Hf & _ & _ & Hm & _ & Ha & Hh & _).
  exists fs'. split; [reflexivity |]. exists body, want. split; [exact Hf |]. split; [| exact Hh].
  unfold unmarshal_manifest, json in Hm. case_bool_decide; [| discriminate]. injection Hm as <-. exact Ha.
Defined.

Definition calls : Calls := MkCalls true None true true true false true.

(** On Windows the new file cannot be moved in: the old one is moved back. *)
Lemma replaceFile_spec_witness :
  (replaceFile true calls (str "zpt.exe") file {[str "zpt.exe" := str "old"]}).2 !! str "zpt.exe" = Some (str "old").
Proof.
  pose proof (replaceFile_spec true calls (str "zpt.exe") file {[str "zpt.exe" := str "old"]} (str "old") (lookup_singleton_eq _ _)) as H.
  assert ((replaceFile true calls (str "zpt.exe") file {[str "zpt.exe" := str "old"]}).1 = Err ERename) as Hr by (vm_compute; reflexivity).
  destruct (replaceFile _ _ _ _ _) as [r fs']. simpl in Hr. subst r. destruct H as [[H | (_ & _ & H)] _]; [exact H | discriminate H].
Defined.

Lemma Verify_manifest_witness : exists sig, Sign (CR := toy) (zeros 32) manifest = Ok ([1], sig)
  /\ Verify (CR := toy) (encode64 (ed_public (Crypto := toy) (zeros 32))) [1] sig = Ok manifest.
Proof.
  assert (exists sig, Sign (CR := toy) (zeros 32) manifest = Ok ([1], sig)) as (sig & H) by (eexists; vm_compute; reflexivity).
  assert (bytes_ok (zeros 32)) as H0 by by apply Forall_replicate.
  assert (parseVersion (Version manifest) <> None) as H1 by (vm_compute; discriminate).
  assert (Assets manifest <> ∅) as H2 by (vm_compute; discriminate).
  exists sig. split; [exact H |].
  exact (Verify_manifest (C := toy) (zeros 32) manifest [1] sig H0 H eq_refl H1 H2).
Defined.

End scenario.

End update.
