(* ===== verification/Login.v ===== *)
(** Signing in to the panel (internal/controller/auth.go, totp.go, oidc.go, and
    the checks of panel.go and oidc_panel.go): passwords, one-time codes,
    sessions, the limit on failures, the verification of ID tokens.

    Argon2id, HMAC-SHA1, RSA, ECDSA and JSON are classes. Random values and the
    time are arguments; cookies, pages and redirects are outside. *)
From stdpp Require Import base list gmap strings.
From Stdlib Require Import ZArith Lia.
From S2P Require Import Prelude GoStrings GoText Encoding Crypto Pki Store Controller.

Open Scope Z_scope.

Module login.

Definition argonTime : Z := 3.
Definition argonMemory : Z := 64 * 1024.
Definition argonThreads : Z := 2.
Definition argonKeyLen : Z := 32.
Definition SessionTTL : Z := 7 * 24 * Hour.
Definition MinPasswordLen : Z := 10.

(** What is called outside the repository: [argon2.IDKey], [fmt.Sscanf] with
    "m=%d,t=%d,p=%d", HMAC-SHA1. *)
Class Auth := {
  IDKey : bytes -> bytes -> Z -> Z -> Z -> Z -> bytes;
  scan_mtp : bytes -> option (Z * Z * Z);
  hmac_sha1 : bytes -> bytes -> bytes }.

Inductive error : Type :=
  | EService (e : controller.error) | ErrBadLogin | EPasswordShort | ELogin | EExists (login : bytes) | EHasRooms (login : bytes) (n : Z)
  | EWrongPassword | EWrongCode | EEmail.

Definition tx {A} (m : store.Tx store.error A) : store.Tx error A := store.map_tx (fun e => EService (controller.EStore e)) m.

(** [st.Tx] and [st.Read] with this error type. *)
Definition in_tx {A} (s : controller.Service) (fn : store.Tx error A) : res error A * controller.Service :=
  match fn (controller.st s) with
  | Ok (a, d) => (Ok a, controller.MkService d (controller.hub_ s) (controller.maxRooms s) (controller.maxMembers s) (controller.paths s))
  | Err e => (Err e, s)
  | Panic => (Panic, s)
  end.
Definition in_read {A} (s : controller.Service) (fn : store.Tx error A) : res error A := fst <$> fn (controller.st s).

(** ** base64.RawStdEncoding: the URL alphabet with two letters replaced *)

Definition to_std (c : Z) : Z := if c =? 45 then 43 else if c =? 95 then 47 else c.
Definition to_url (c : Z) : Z :=
  if c =? 43 then 45 else if c =? 47 then 95 else if (c =? 45) || (c =? 95) then 33 else c.
Definition rawstd_encode (s : bytes) : bytes := map to_std (encode64url s).
Definition rawstd_decode (s : bytes) : option bytes := decode64url (map to_url (stripNewlines s)).

Section Auth.
Context `{CR : Crypto} `{A : Aead} `{AU : Auth} (kek : option bytes).

(** ** Passwords *)

Definition mtp : bytes := str "m=" ++ Itoa argonMemory ++ str ",t=" ++ Itoa argonTime ++ str ",p=" ++ Itoa argonThreads.

(** [HashPassword] with the random salt. *)
Definition HashPassword (pw salt : bytes) : bytes :=
  str "$argon2id$v=19$" ++ mtp ++ 36 :: rawstd_encode salt
    ++ 36 :: rawstd_encode (IDKey pw salt argonTime argonMemory argonThreads argonKeyLen).

(** [argon2.IDKey] panics when it has no rounds or no threads. *)
Definition CheckPassword (hash pw : bytes) : res error bool :=
  match Split 36 hash with
  | [_; alg; _; params; salt; key] =>
    if negb (bool_decide (alg = str "argon2id")) then Ok false
    else match scan_mtp params, rawstd_decode salt, rawstd_decode key with
    | Some (m, t, p), Some salt, Some want =>
      if (t <? 1) || (p <? 1) then Panic else Ok (bool_decide (IDKey pw salt t m p (zlen want) = want))
    | _, _, _ => Ok false
    end
  | _ => Ok false
  end.

Definition ValidatePassword (pw : bytes) : bool := MinPasswordLen <=? RuneCount pw.

(** [randomToken] of 32 random bytes, and the hash that is stored. *)
Definition randomToken (rnd : bytes) : bytes := encode64url rnd.
Definition tokenHash (t : bytes) : bytes := sha256 t.

(** ** One-time codes (totp.go) *)

Definition totpPeriod : Z := 30.
Definition totpDigits : Z := 6.
Definition totpSkew : Z := 1.

Definition pad (n : nat) (s : bytes) : bytes := replicate (n - length s) 48 ++ s.

Definition totpCode (secret : bytes) (step : Z) : res error bytes :=
  let sum := hmac_sha1 secret (put_be 8 (u64 step)) in
  last ← index sum (zlen sum - 1);
  let off := Z.land last 15 in
  n ← (w ← slice sum off (off + 4); uint32_be w);
  Ok (pad 6 (Utoa (Z.land n (2 ^ 31 - 1) mod 1000000))).

(** One turn of the loop over the steps around the current one. *)
Definition try_step (secret code : bytes) (lastUsed hit step : Z) : res error Z :=
  c ← totpCode secret step;
  Ok (if bool_decide (code = c) && (lastUsed <? step) && (hit <? step) then step else hit).

Definition clean_code (code : bytes) : bytes := List.filter (fun c => negb (c =? 32)) (TrimSpace code).

Definition checkTOTP (secret code : bytes) (now lastUsed : Z) : res error Z :=
  let code := clean_code code in
  if negb (zlen code =? totpDigits) then Ok 0
  else
    let cur := Z.quot (pki.Unix now) totpPeriod in
    hit ← try_step secret code lastUsed 0 (cur - 1);
    hit ← try_step secret code lastUsed hit cur;
    try_step secret code lastUsed hit (cur + 1).

(** [checkSecondFactor]: the code and its time step are used up together. *)
Definition second_factor (uid : Z) (code : bytes) (now : Z) : store.Tx error unit :=
  sl ← tx (store.TOTP kek uid);
  let secret := default [] sl.1 in
  step ← store.lift (checkTOTP secret code now sl.2);
  if bool_decide (secret = []) || (step =? 0) then store.fail ErrBadLogin
  else
    ok ← tx (store.UseTOTPStep uid step);
    if ok : bool then mret tt else store.fail ErrBadLogin.
Definition checkSecondFactor (s : controller.Service) (now uid : Z) (code : bytes) : res error unit * controller.Service :=
  in_tx s (second_factor uid code now).

(** ** Sessions *)

(** [newSession]: [tok] and [csrf] are random bytes. *)
Definition newSession (s : controller.Service) (now : Z) (u : store.User) (action tok csrf : bytes) : res error bytes * controller.Service :=
  let token := randomToken tok in
  let '(r, s) := in_tx s (
    _ ← tx (store.CreateSession (tokenHash token) (store.u_ID u) (randomToken csrf) (now + SessionTTL));
    tx (store.Audit (controller.Unix now) (store.Login u) action (store.Login u) [])) in
  (match r with Ok _ => Ok token | Err e => Err e | Panic => Panic end, s).

Definition Login (s : controller.Service) (now : Z) (login pw code tok csrf : bytes) : res error bytes * controller.Service :=
  match in_read s (tx (store.UserByLogin login)) with
  | Ok u =>
    match CheckPassword (store.PassHash u) pw with
    | Ok true =>
      if store.u_TOTP u then
        match checkSecondFactor s now (store.u_ID u) code with
        | (Ok _, s) => newSession s now u (str "user.login") tok csrf
        | (Err e, s) => (Err e, s)
        | (Panic, s) => (Panic, s)
        end
      else newSession s now u (str "user.login") tok csrf
    | Ok false => (Err ErrBadLogin, s)
    | Err e => (Err e, s)
    | Panic => (Panic, s)
    end
  | Err _ => (Err ErrBadLogin, s)
  | Panic => (Panic, s)
  end.

Definition LoginOIDC (s : controller.Service) (now : Z) (email tok csrf : bytes) : res error bytes * controller.Service :=
  match in_read s (tx (store.UserByOIDCEmail email)) with
  | Ok u => newSession s now u (str "user.login.oidc") tok csrf
  | Err _ => (Err ErrBadLogin, s)
  | Panic => (Panic, s)
  end.

(** [Session]: the column is read back as [time.Unix(exp, 0)]. *)
Definition Session (s : controller.Service) (now : Z) (token : bytes) : res error (store.User * store.Session) :=
  in_read s (
    sess ← tx (store.SessionByToken (tokenHash token));
    if store.s_Expires sess * Second <? now then store.fail (EService (controller.EStore store.ErrNotFound))
    else u ← tx (store.UserByID (store.s_UserID sess)); mret (u, sess)).

Definition Logout (s : controller.Service) (now : Z) (token : bytes) : res error unit * controller.Service :=
  in_tx s (tx (store.DeleteSession (controller.Unix now) (tokenHash token))).

(** [auth] of panel.go: who a request is from. *)
Inductive access : Type := Redirect | Forbidden | Allowed (u : store.User) (csrf : bytes).

Definition auth (s : controller.Service) (now : Z) (cookie : option bytes) (post : bool) (csrf : bytes) : access :=
  match cookie with
  | None => Redirect
  | Some token =>
    match Session s now token with
    | Ok (u, sess) =>
      if post && negb (bool_decide (csrf = store.CSRF sess)) then Forbidden else Allowed u (store.CSRF sess)
    | _ => Redirect
    end
  end.

(** ** Accounts *)

Definition login_char (r : Z) : bool :=
  ((97 <=? r) && (r <=? 122)) || ((48 <=? r) && (r <=? 57)) || (r =? 45) || (r =? 95) || (r =? 46).

Definition ValidateLogin (login : bytes) : option bytes :=
  let login := TrimSpace (ToLower login) in
  if (zlen login <? 2) || (32 <? zlen login) then None
  else if forallb login_char (runes login) then Some login else None.

Definition may (actor : option store.User) : bool := match actor with Some u => store.IsAdmin u | None => true end.
Definition who (actor : option store.User) : bytes := match actor with Some u => store.Login u | None => str "cli" end.

Definition CreateUser (s : controller.Service) (now : Z) (actor : option store.User) (login pw : bytes) (admin : bool) (salt : bytes)
    : res error unit * controller.Service :=
  if negb (may actor) then (Err (EService controller.ErrForbidden), s)
  else match ValidateLogin login with
  | None => (Err ELogin, s)
  | Some login =>
    if negb (ValidatePassword pw) then (Err EPasswordShort, s)
    else in_tx s (
      r ← store.attempt (tx (store.UserByLogin login));
      match r with
      | Ok _ => store.fail (EExists login)
      | _ =>
        _ ← tx (store.CreateUser (controller.Unix now) login (HashPassword pw salt) admin);
        tx (store.Audit (controller.Unix now) (who actor) (str "user.create") login [if admin then str "admin=true" else str "admin=false"])
      end)
  end.

Definition Users (s : controller.Service) (actor : store.User) : res error (list store.User) :=
  if negb (store.IsAdmin actor) then Err (EService controller.ErrForbidden) else in_read s (tx store.ListUsers).

(** [change] with this error type. *)
Definition in_change {B} (s : controller.Service) (fn : store.Tx error B) : res error B * controller.Service :=
  match (b ← fn; v ← tx store.BumpVersion; mret (b, v)) (controller.st s) with
  | Ok ((b, v), d) => (Ok b, controller.MkService d (controller.hub_set (controller.hub_ s) v) (controller.maxRooms s)
                               (controller.maxMembers s) (controller.paths s))
  | Err e => (Err e, s)
  | Panic => (Panic, s)
  end.

Definition DeleteUser (s : controller.Service) (now : Z) (actor : store.User) (id : Z) : res error unit * controller.Service :=
  if negb (store.IsAdmin actor) || (store.u_ID actor =? id) then (Err (EService controller.ErrForbidden), s)
  else in_change s (
    u ← tx (store.UserByID id);
    rooms ← tx (store.ListRooms kek id);
    if 0 <? zlen rooms then store.fail (EHasRooms (store.Login u) (zlen rooms))
    else
      _ ← tx (store.DeleteUser id);
      tx (store.Audit (controller.Unix now) (store.Login actor) (str "user.delete") (store.Login u) [])).

Definition ChangePassword (s : controller.Service) (now : Z) (actor : store.User) (oldPw newPw salt : bytes)
    : res error unit * controller.Service :=
  match CheckPassword (store.PassHash actor) oldPw with
  | Ok true =>
    if negb (ValidatePassword newPw) then (Err EPasswordShort, s)
    else in_tx s (
      _ ← tx (store.SetPassword (store.u_ID actor) (HashPassword newPw salt));
      tx (store.Audit (controller.Unix now) (store.Login actor) (str "user.password") (store.Login actor) []))
  | Ok false => (Err EWrongPassword, s)
  | Err e => (Err e, s)
  | Panic => (Panic, s)
  end.

Definition SetPassword (s : controller.Service) (now : Z) (login pw salt : bytes) : res error unit * controller.Service :=
  if negb (ValidatePassword pw) then (Err EPasswordShort, s)
  else in_tx s (
    u ← tx (store.UserByLogin login);
    _ ← tx (store.SetPassword (store.u_ID u) (HashPassword pw salt));
    tx (store.Audit (controller.Unix now) (str "cli") (str "user.password") login [])).

Definition EnableTOTP (s : controller.Service) (now : Z) (actor : store.User) (secret code nonce : bytes)
    : res error unit * controller.Service :=
  match checkTOTP secret code now 0 with
  | Ok step =>
    if step =? 0 then (Err EWrongCode, s)
    else in_tx s (
      _ ← tx (store.SetTOTP kek (store.u_ID actor) (Some secret) nonce);
      _ ← tx (store.UseTOTPStep (store.u_ID actor) step);
      tx (store.Audit (controller.Unix now) (store.Login actor) (str "user.totp.on") (store.Login actor) []))
  | Err e => (Err e, s)
  | Panic => (Panic, s)
  end.

Definition DisableTOTP (s : controller.Service) (now : Z) (actor : store.User) (pw nonce : bytes) : res error unit * controller.Service :=
  match CheckPassword (store.PassHash actor) pw with
  | Ok true => in_tx s (
      _ ← tx (store.SetTOTP kek (store.u_ID actor) None nonce);
      tx (store.Audit (controller.Unix now) (store.Login actor) (str "user.totp.off") (store.Login actor) []))
  | Ok false => (Err EWrongPassword, s)
  | Err e => (Err e, s)
  | Panic => (Panic, s)
  end.

Definition ResetTOTP (s : controller.Service) (now : Z) (login nonce : bytes) : res error unit * controller.Service :=
  in_tx s (
    u ← tx (store.UserByLogin login);
    _ ← tx (store.SetTOTP kek (store.u_ID u) None nonce);
    tx (store.Audit (controller.Unix now) (str "cli") (str "user.totp.off") login [])).

Definition BindOIDCEmail (s : controller.Service) (now : Z) (login email : bytes) : res error unit * controller.Service :=
  let email := ToLower (TrimSpace email) in
  if negb (bool_decide (email = [])) && (negb (Contains1 email 64) || (254 <? zlen email)) then (Err EEmail, s)
  else in_tx s (
    u ← tx (store.UserByLogin login);
    _ ← tx (store.SetOIDCEmail (store.u_ID u) email);
    tx (store.Audit (controller.Unix now) (str "cli") (str "user.oidc") login [email])).

End Auth.

(** ** The limit on failures *)

(** The failures of each address; the zero value has none. *)
Record loginLimiter := MkLoginLimiter { l_fail : gmap bytes (list Z) }.
#[global] Instance loginLimiter_empty : Empty loginLimiter := MkLoginLimiter ∅.

Definition allowed (l : loginLimiter) (addr : bytes) (now : Z) : bool * loginLimiter :=
  let recent := List.filter (fun t => time_sub now t <? 10 * Minute) (default [] (l_fail l !! addr)) in
  (zlen recent <? 10, MkLoginLimiter (if bool_decide (recent = []) then delete addr (l_fail l) else <[addr := recent]> (l_fail l))).

Definition failed (l : loginLimiter) (addr : bytes) (now : Z) : loginLimiter :=
  MkLoginLimiter (<[addr := default [] (l_fail l !! addr) ++ [now]]> (l_fail l)).

End login.
