(* ===== verification/LoginInv.v ===== *)
(** Signing in to the panel, theorems: one-time codes, sessions, the limit on
    failures, who a panel request is from.

    A session ends with the second its end falls into, as the database keeps whole
    seconds. The limiter's lock is not held while a password is hashed: sign-ins
    are a list of the limiter's steps, interleaved in any way. *)
From stdpp Require Import base list gmap strings.
From stdpp Require Import sorting.
From Stdlib Require Import ZArith Lia Sorted.
From S2P Require Import Prelude GoStrings GoText Encoding Crypto Pki Store Controller Login.

Open Scope Z_scope.

Module logins.
Import login.

(** HMAC-SHA1 has 20 bytes. *)
Class AuthLaws (AU : Auth) := {
  length_hmac k m : length (hmac_sha1 k m) = 20%nat;
  length_IDKey pw salt t m p n : 0 <= n -> zlen (IDKey pw salt t m p n) = n;
  IDKey_ok pw salt t m p n : bytes_ok (IDKey pw salt t m p n);
  scan_written : scan_mtp mtp = Some (argonMemory, argonTime, argonThreads) }.

(** ** Transactions *)

Lemma login_tx_ok {X} (m : store.Tx store.error X) d a d' : tx m d = Ok (a, d') <-> m d = Ok (a, d').
Proof. unfold tx, store.map_tx. destruct (m d) as [[x d1] | |]; naive_solver. Qed.

Lemma in_tx_ok {X} s (fn : store.Tx error X) a s' : in_tx s fn = (Ok a, s') <->
  exists d, fn (controller.st s) = Ok (a, d)
    /\ s' = controller.MkService d (controller.hub_ s) (controller.maxRooms s) (controller.maxMembers s) (controller.paths s).
Proof. unfold in_tx. destruct (fn (controller.st s)) as [[x d] | |]; naive_solver. Qed.

Lemma in_tx_not_ok {X} s (fn : store.Tx error X) r s' : in_tx s fn = (r, s') -> (forall a, r <> Ok a) -> s' = s.
Proof. unfold in_tx. destruct (fn (controller.st s)) as [[x d] | |]; intros [= <- <-] H; [by destruct (H x) | done ..]. Qed.

Lemma in_read_ok {X} s (fn : store.Tx error X) a : in_read s fn = Ok a <-> exists d, fn (controller.st s) = Ok (a, d).
Proof. unfold in_read. destruct (fn (controller.st s)) as [[x d] | |]; naive_solver. Qed.

(** ** Codes *)

Lemma dec_digits_length fuel : forall n k, 0 <= n < 10 ^ Z.of_nat k -> (0 < k)%nat -> (length (dec_digits fuel n) <= k)%nat.
Proof.
  induction fuel as [| fuel IH]; intros n k Hn Hk; simpl; [lia |]. destruct (Z.ltb_spec n 10); [simpl; lia |].
  rewrite length_app. simpl. destruct k as [| k]; [lia |].
  assert (0 < k)%nat as Hk'. { destruct k; [| lia]. change (10 ^ Z.of_nat 1) with 10 in Hn. lia. }
  rewrite Nat2Z.inj_succ, Z.pow_succ_r in Hn by lia.
  specialize (IH (n / 10) k). assert (0 <= n / 10 < 10 ^ Z.of_nat k); [| lia]. split; [apply Z.div_pos; lia | apply Z.div_lt_upper_bound; lia].
Qed.

Section Codes.
Context `{AL : AuthLaws}.

Lemma totpCode_ok secret step : exists c, totpCode secret step = Ok c /\ length c = 6%nat.
Proof.
  unfold totpCode. set (sum := hmac_sha1 secret _). assert (zlen sum = 20) as Hl by (unfold zlen, sum; by rewrite length_hmac).
  rewrite (index_ok sum (zlen sum - 1) 0) by lia. cbn [mbind res_bind].
  set (off := Z.land _ 15). assert (0 <= off < 16) as Ho by (unfold off; change 15 with (Z.ones 4); rewrite Z.land_ones by lia; by apply Z.mod_pos_bound).
  rewrite slice_ok by lia. cbn [mbind res_bind]. unfold uint32_be.
  rewrite slice_ok by (rewrite ?zlen_sub by lia; lia). cbn [fmap res_fmap mbind res_bind].
  eexists. split; [reflexivity |]. unfold pad. rewrite length_app, length_replicate.
  assert (length (Utoa (Z.land (be (sub (sub sum off (off + 4)) 0 4)) (2 ^ 31 - 1) mod 1000000)) <= 6)%nat; [| lia].
  unfold Utoa. apply dec_digits_length; [| lia]. apply Z.mod_pos_bound. lia.
Qed.

(** The step of a time, and which steps a code is for. *)
Definition current (now : Z) : Z := Z.quot (pki.Unix now) totpPeriod.
Definition code_of (secret code : bytes) (step : Z) : Prop := totpCode secret step = Ok (clean_code code).
Definition fits (secret code : bytes) (now lastUsed step : Z) : Prop :=
  current now - 1 <= step <= current now + 1 /\ code_of secret code step /\ lastUsed < step /\ 0 < step.

(** The latest step of [ks] that the code may be used for, or 0. *)
Definition good (secret code : bytes) (lastUsed k : Z) : Prop := totpCode secret k = Ok code /\ lastUsed < k /\ 0 < k.
Definition best (secret code : bytes) (lastUsed : Z) (ks : list Z) (hit : Z) : Prop :=
  (hit = 0 \/ (hit ∈ ks /\ good secret code lastUsed hit)) /\ forall k, k ∈ ks -> good secret code lastUsed k -> k <= hit.

Lemma try_step_best secret code lastUsed ks hit step : best secret code lastUsed ks hit -> (forall k, k ∈ ks -> k < step) ->
  exists hit', try_step secret code lastUsed hit step = Ok hit' /\ best secret code lastUsed (ks ++ [step]) hit'.
Proof.
  intros [Hh Hmax] Hks. unfold try_step. destruct (totpCode_ok secret step) as (c & Hc & _). rewrite Hc. cbn [mbind res_bind].
  assert (0 <= hit) as Hp by (destruct Hh as [-> | (_ & _ & _ & ?)]; lia). eexists. split; [done |].
  destruct (bool_decide (code = c) && (lastUsed <? step) && (hit <? step)) eqn:E.
  - rewrite !andb_true_iff, bool_decide_eq_true, !Z.ltb_lt in E. destruct E as [[-> H1] H2]. split.
    + right. split; [set_solver |]. split; [done | lia].
    + intros k [Hk | ->%list_elem_of_singleton]%elem_of_app _; [apply Z.lt_le_incl; by apply Hks | lia].
  - split; [destruct Hh as [-> | [Hin Hg]]; [by left | right; split; [set_solver | done]] |].
    intros k [Hk | ->%list_elem_of_singleton]%elem_of_app Hg; [by apply Hmax |].
    destruct Hg as (Hk & H1 & H2). rewrite Hc in Hk. injection Hk as ->.
    rewrite bool_decide_eq_true_2, (proj2 (Z.ltb_lt lastUsed step)) in E by done. apply Z.ltb_ge in E. done.
Qed.

(** A code is checked against the steps around the current one: the answer is
    the latest step after the last one used whose code it is, and 0 when there
    is none. It never fails. *)
Lemma checkTOTP_best secret code now lastUsed : exists s, checkTOTP secret code now lastUsed = Ok s
  /\ ((s = 0 /\ forall k, ~ fits secret code now lastUsed k)
      \/ (fits secret code now lastUsed s /\ forall k, fits secret code now lastUsed k -> k <= s)).
Proof.
  unfold checkTOTP. fold (current now). set (c0 := current now). destruct (Z.eqb_spec (zlen (clean_code code)) totpDigits) as [Hl | Hl]; cbn [negb].
  - destruct (try_step_best secret (clean_code code) lastUsed [] 0 (c0 - 1)) as (h1 & -> & H1); [by split; [left | intros k Hk%elem_of_nil] | by intros k Hk%elem_of_nil |].
    cbn [mbind res_bind]. destruct (try_step_best _ _ _ _ h1 c0 H1) as (h2 & -> & H2); [cbn [app]; intros k; rewrite list_elem_of_singleton; lia |].
    cbn [mbind res_bind]. destruct (try_step_best _ _ _ _ h2 (c0 + 1) H2) as (h3 & -> & Hh & Hmax); [cbn [app]; intros k; rewrite !elem_of_cons, elem_of_nil; lia |].
    exists h3. split; [done |].
    assert (forall k, fits secret code now lastUsed k <-> k ∈ [c0 - 1; c0; c0 + 1] /\ good secret (clean_code code) lastUsed k) as Hf.
    { intros k. unfold fits, good, code_of. fold c0. rewrite !elem_of_cons, elem_of_nil. intuition lia. }
    destruct Hh as [-> | Hg]; [left | right].
    + split; [done |]. intros k [Hk Hgk]%Hf. pose proof (Hmax k Hk Hgk). destruct Hgk as (_ & _ & ?). lia.
    + split; [by apply Hf |]. intros k [Hk Hgk]%Hf. by apply Hmax.
  - exists 0. split; [done |]. left. split; [done |]. intros k (_ & Hc & _). unfold code_of in Hc.
    destruct (totpCode_ok secret k) as (c & Hk & H6). rewrite Hk in Hc. injection Hc as ->. unfold zlen, totpDigits in Hl. lia.
Qed.

(** ** The second factor *)

Context `{AE : Aead} (kek : option bytes).

Definition last_step (d : store.db) (uid : Z) : Z :=
  match List.find (fun r => store.uid r =? uid) (store.users d) with Some r => store.totp_step r | None => 0 end.
Definition secret_of (d : store.db) (uid : Z) : option bytes :=
  match store.TOTP kek uid d with Ok (s, _, _) => s | _ => None end.

Lemma TOTP_ok uid d s l d' : store.TOTP kek uid d = Ok (s, l, d') -> s <> None -> d' = d /\ l = last_step d uid /\ secret_of d uid = s.
Proof.
  intros H Hs. unfold secret_of. rewrite H. unfold store.TOTP, store.one, mbind, store.tx_bind in H. unfold last_step.
  destruct (List.find _ (store.users d)) as [r |]; [| done]. destruct (store.totp_secret r) as [[| c raw] |]; [by injection H as <- <- <- | | by injection H as <- <- <-].
  unfold store.lift in H. destruct (store.open_ kek (c :: raw)) as [x | |]; [| done ..]. by injection H as <- <- <-.
Qed.

(** A step that is used up is the last one; the secret stays. *)
Lemma UseTOTPStep_ok uid step d d1 : store.wf d -> store.UseTOTPStep uid step d = Ok (true, d1) ->
  last_step d uid < step /\ last_step d1 uid = step /\ secret_of d1 uid = secret_of d uid /\ store.wf d1
  /\ forall v, v <> uid -> last_step d1 v = last_step d v.
Proof.
  intros Hd H. destruct (proj1 (proj1 (store.UseTOTPStep_once uid step d true d1 Hd H)) eq_refl) as (r & Hr & Hid & Hlt).
  assert (List.find (fun r => store.uid r =? uid) (store.users d) = Some r) as Hf.
  { destruct (List.find _ _) as [x |] eqn:E.
    - apply store.find_spec in E as [Hx Ex%Z.eqb_eq]. f_equal. apply (store.key_inj store.uid (store.users d)); [apply Hd | done | done | congruence].
    - apply list_elem_of_In in Hr. apply (find_none _ _ E) in Hr. apply Z.eqb_neq in Hr. done. }
  unfold store.UseTOTPStep in H. injection H as _ <-.
  set (f := fun r => store.MkUserRow (store.u_user r) (store.totp_secret r) step (store.oidc_email r)).
  assert (forall v, List.find (fun r => store.uid r =? v) (store.upd (fun r => (store.uid r =? uid) && (store.totp_step r <? step)) f (store.users d))
    = match List.find (fun r => store.uid r =? v) (store.users d) with
      | Some r => Some (if (store.uid r =? uid) && (store.totp_step r <? step) then f r else r) | None => None end) as Hv.
  { intros v. assert (forall x, store.uid (f x) = store.uid x) as Huf by done. clear Hr Hf. induction (store.users d) as [| x l IH]; [done |].
    unfold store.upd in *. cbn [map List.find].
    destruct (_ && (store.totp_step x <? step)) eqn:Ep; rewrite ?Huf; (destruct (store.uid x =? v); [by rewrite Ep | exact IH]). }
  apply Z.ltb_lt in Hlt as Hlt'.
  assert (last_step d uid = store.totp_step r) as Hl by (unfold last_step; by rewrite Hf).
  split_and!.
  - lia.
  - unfold last_step. cbn [store.users store.set_users]. rewrite (Hv uid), Hf. by rewrite (proj2 (Z.eqb_eq _ _) Hid), Hlt'.
  - unfold secret_of, store.TOTP, store.one, mbind, store.tx_bind. cbn [store.users store.set_users]. rewrite (Hv uid), Hf, (proj2 (Z.eqb_eq _ _) Hid), Hlt'.
    cbn [andb f store.totp_secret]. destruct (store.totp_secret r) as [[| c raw] |]; [done | | done].
    unfold store.lift. by destruct (store.open_ kek (c :: raw)).
  - by apply (store.upd_users_wf _ f d).
  - intros v Hne. unfold last_step. cbn [store.users store.set_users]. rewrite (Hv v).
    destruct (List.find (fun r0 => store.uid r0 =? v) (store.users d)) as [x |] eqn:Ex; [| done].
    apply store.find_spec in Ex as [_ Ex%Z.eqb_eq]. by rewrite (proj2 (Z.eqb_neq (store.uid x) uid)) by congruence.
Qed.

(** A code that is accepted is one of the user's secret for a step around now,
    later than the last one; that step is used up with it. *)
Lemma second_factor_ok uid code now d d1 : store.wf d -> second_factor kek uid code now d = Ok (tt, d1) ->
  exists secret, secret_of d uid = Some secret /\ fits secret code now (last_step d uid) (last_step d1 uid)
    /\ secret_of d1 uid = Some secret /\ store.wf d1 /\ last_step d uid < last_step d1 uid
    /\ d1 = store.set_users (store.users d1) d.
Proof.
  intros Hd ([s l] & d2 & Ht%login_tx_ok & H)%store.tx_bind_ok. cbn [fst snd] in H.
  apply store.tx_bind_ok in H as (step & d3 & Hs & H). unfold store.lift in Hs.
  destruct (checkTOTP_best (default [] s) code now l) as (k & Hk & Hfit). rewrite Hk in Hs. injection Hs as <- <-.
  destruct (bool_decide (default [] s = []) || (k =? 0)) eqn:E; [done |]. apply orb_false_iff in E as [E1%bool_decide_eq_false E2%Z.eqb_neq].
  destruct s as [secret |]; [| done]. cbn [default] in *. destruct (TOTP_ok uid d (Some secret) l d2 Ht) as (-> & -> & Hsec); [done |].
  destruct Hfit as [(-> & _) | (Hfit & _)]; [done |].
  apply store.tx_bind_ok in H as (b & d4 & Hu%login_tx_ok & H). destruct b; [| done]. injection H as <-.
  destruct (UseTOTPStep_ok uid k d d4 Hd Hu) as (Hlt & Hl & Hsec' & Hwf & _). exists secret. rewrite Hl.
  split_and!; try done; [congruence |]. unfold store.UseTOTPStep in Hu. by injection Hu as _ <-.
Qed.

(** The user stays the same user. *)
Lemma totp_user uid code now d d1 v r : second_factor kek uid code now d = Ok (tt, d1) ->
  List.find (fun x => store.uid x =? v) (store.users d) = Some r ->
  exists r1, List.find (fun x => store.uid x =? v) (store.users d1) = Some r1 /\ store.scanUser r1 = store.scanUser r.
Proof.
  intros ([s l] & d2 & Ht%login_tx_ok & H)%store.tx_bind_ok Hr. apply store.tx_bind_ok in H as (step & d3 & Hs & H).
  assert (d2 = d) as ->.
  { apply (store.reads_bind (store.one (fun r => store.uid r =? uid) store.users)
      (fun r => match store.totp_secret r with
                | None | Some [] => mret (None, 0)
                | Some raw => s ← store.lift (store.open_ kek raw); mret (Some s, store.totp_step r) end)) in Ht; [done | apply store.reads_one |].
    intros x. destruct (store.totp_secret x) as [[| c raw] |]; [by intros ??? [= _ <-] | | by intros ??? [= _ <-]].
    apply store.reads_bind; [apply store.reads_lift | by intros ???? [= _ <-]]. }
  apply store.reads_lift in Hs as ->. destruct (_ || _) in H; [done |].
  apply store.tx_bind_ok in H as (b & d4 & Hu%login_tx_ok & H). destruct b; [| done]. injection H as <-. unfold store.UseTOTPStep in Hu. injection Hu as _ <-.
  cbn [store.users store.set_users]. revert Hr. induction (store.users d) as [| x us IH]; [done |]. unfold store.upd in *. cbn [map List.find].
  destruct ((store.uid x =? uid) && _).
  - change (store.uid (store.MkUserRow (store.u_user x) (store.totp_secret x) step (store.oidc_email x))) with (store.uid x).
    destruct (store.uid x =? v); [intros [= <-]; by eexists | exact IH].
  - destruct (store.uid x =? v); [intros [= <-]; by exists x | exact IH].
Qed.

(** Codes tried one after another, each with its time: the accepted ones with
    the steps that they used up. *)
Fixpoint try_codes (uid : Z) (l : list (Z * bytes)) (d : store.db) : list (Z * bytes * Z) * store.db :=
  match l with
  | [] => ([], d)
  | (now, code) :: l =>
    match second_factor kek uid code now d with
    | Ok (_, d1) => let '(acc, d2) := try_codes uid l d1 in ((now, code, last_step d1 uid) :: acc, d2)
    | _ => try_codes uid l d
    end
  end.

(** A one-time code cannot be used twice: the steps that accepted codes use
    up strictly increase, each is later than the last one before, and each code
    is the user's for its step, at most one step away from the time it was
    entered. *)
Theorem codes_once uid secret l : forall d, store.wf d -> secret_of d uid = Some secret ->
  StronglySorted Z.lt (last_step d uid :: map snd (try_codes uid l d).1)
  /\ Forall (fun x => current x.1.1 - 1 <= x.2 <= current x.1.1 + 1 /\ code_of secret x.1.2 x.2) (try_codes uid l d).1.
Proof.
  induction l as [| [now code] l IH]; intros d Hd Hsec; simpl; [split; [by repeat constructor | done] |].
  destruct (second_factor kek uid code now d) as [[[] d1] | |] eqn:Hs; [| by apply IH ..].
  destruct (second_factor_ok uid code now d d1 Hd Hs) as (s & Hs0 & (Hw & Hc & _ & _) & Hs1 & Hd1 & Hlt & _).
  assert (s = secret) as -> by congruence. destruct (IH d1 Hd1 Hs1) as [Hsort Hall]. destruct (try_codes uid l d1) as [acc d2]. simpl in *.
  split; [| by constructor]. constructor; [done |]. apply StronglySorted_inv in Hsort as [_ Hf].
  constructor; [done |]. eapply Forall_impl; [exact Hf |]. simpl. lia.
Qed.

End Codes.
(** ** Passwords *)

Section Passwords.
Context `{AL : AuthLaws}.

Lemma to_url_to_std c : c <> 43 -> c <> 47 -> to_url (to_std c) = c.
Proof.
  intros H1 H2. unfold to_std. destruct (Z.eqb_spec c 45) as [-> |]; [done |]. destruct (Z.eqb_spec c 95) as [-> |]; [done |].
  unfold to_url. by rewrite !(proj2 (Z.eqb_neq _ _)) by done.
Qed.

(** The letters of the URL alphabet. *)
Definition url_char (c : Z) : Prop := c <> 43 /\ c <> 47 /\ c <> 10 /\ c <> 13 /\ c <> 36.

Lemma char64url_char v : 0 <= v < 64 -> url_char (char64url v).
Proof.
  intros H. unfold char64url, url_char, char64. destruct (Z.eqb_spec v 62), (Z.eqb_spec v 63); try lia.
  destruct (Z.ltb_spec v 26), (Z.ltb_spec v 52), (Z.ltb_spec v 62), (Z.eqb_spec v 62); lia.
Qed.
Lemma digits_char n v : Forall url_char (map char64url (digits 6 n v)).
Proof. apply Forall_map. eapply Forall_impl; [apply (digits_range 6); lia |]. intros d Hd. by apply char64url_char. Qed.
Lemma encode64url_char s : Forall url_char (encode64url s).
Proof.
  induction s as [| a | a b | a b c r IH] using list_ind3; cbn [encode64url]; [constructor | apply digits_char ..|].
  apply Forall_app. split; [apply digits_char | done].
Qed.

Lemma rawstd_roundtrip s : bytes_ok s -> rawstd_decode (rawstd_encode s) = Some s /\ 36 ∉ rawstd_encode s.
Proof.
  intros Hs. unfold rawstd_decode, rawstd_encode. pose proof (encode64url_char s) as Hc. split.
  - rewrite stripNewlines_id.
    + rewrite map_map, (map_ext_in _ id), map_id; [by apply decode64url_encode64url |].
      intros c Hin%list_elem_of_In. rewrite Forall_forall in Hc. destruct (Hc c Hin) as (? & ? & _). by apply to_url_to_std.
    + apply Forall_map. eapply Forall_impl; [exact Hc |]. intros c (? & ? & ? & ? & ?). unfold is_newline, to_std. simpl.
      destruct (Z.eqb_spec c 45), (Z.eqb_spec c 95); try done. by rewrite !(proj2 (Z.eqb_neq _ _)) by done.
  - intros (c & E & Hin)%list_elem_of_fmap_1. rewrite Forall_forall in Hc. destruct (Hc c Hin) as (? & ? & ? & ? & ?). unfold to_std in E.
    destruct (Z.eqb_spec c 45), (Z.eqb_spec c 95); lia.
Qed.

(** A password is accepted with the hash of another exactly when Argon2id
    gives both the same key; so the password itself always is. *)
Theorem CheckPassword_HashPassword pw pw' salt : bytes_ok salt ->
  CheckPassword (HashPassword pw salt) pw' = Ok (bool_decide (
    IDKey pw' salt argonTime argonMemory argonThreads argonKeyLen = IDKey pw salt argonTime argonMemory argonThreads argonKeyLen)).
Proof.
  intros Hs. set (key := IDKey pw salt argonTime argonMemory argonThreads argonKeyLen).
  assert (bytes_ok key) as Hk by apply IDKey_ok.
  destruct (rawstd_roundtrip salt Hs) as [Ds Ns]. destruct (rawstd_roundtrip key Hk) as [Dk Nk].
  unfold CheckPassword, HashPassword. fold key.
  assert (Split 36 (str "$argon2id$v=19$" ++ mtp ++ 36 :: rawstd_encode salt ++ 36 :: rawstd_encode key)
    = [[]; str "argon2id"; str "v=19"; mtp; rawstd_encode salt; rawstd_encode key]) as ->.
  { change (str "$argon2id$v=19$" ++ mtp ++ 36 :: rawstd_encode salt ++ 36 :: rawstd_encode key)
      with ([] ++ 36 :: (str "argon2id" ++ 36 :: (str "v=19" ++ 36 :: (mtp ++ 36 :: (rawstd_encode salt ++ 36 :: rawstd_encode key))))).
    rewrite !Split_app, Split_word; try done; vm_compute; intros H; repeat (apply elem_of_cons in H as [H | H]; [discriminate H |]); by apply elem_of_nil in H. }
  rewrite bool_decide_eq_true_2 by done. cbn [negb]. rewrite scan_written, Ds, Dk. change ((argonTime <? 1) || (argonThreads <? 1)) with false.
  assert (zlen key = argonKeyLen) as -> by (by apply length_IDKey). done.
Qed.

End Passwords.

(** ** Who a request is from *)

Section Sessions.
Context `{AL : AuthLaws} `{CR : Crypto}.

Lemma find_filter {X} (f keep : X -> bool) l x : List.find f l = Some x -> keep x = true -> List.find f (List.filter keep l) = Some x.
Proof.
  intros H Hk. induction l as [| y l IH]; [done |]. simpl in *. destruct (f y) eqn:E.
  - injection H as ->. rewrite Hk. simpl. by rewrite E.
  - destruct (keep y); simpl; rewrite ?E; by apply IH.
Qed.

(** The session of a token, with its user. *)
Definition live (d : store.db) (now : Z) (token : bytes) (u : store.User) (sess : store.Session) : Prop :=
  List.find (fun s => bool_decide (store.s_token s = tokenHash token)) (store.sessions d) = Some sess
  /\ now <= store.s_Expires sess * Second
  /\ exists r, List.find (fun r => store.uid r =? store.s_UserID sess) (store.users d) = Some r /\ u = store.scanUser r.

Lemma Session_live s now token u sess : Session s now token = Ok (u, sess) <-> live (controller.st s) now token u sess.
Proof.
  unfold Session. rewrite in_read_ok. unfold live, store.SessionByToken, store.UserByID, tx, store.map_tx, store.one, store.fail, mbind, store.tx_bind, mret, store.tx_ret.
  destruct (List.find _ (store.sessions _)) as [x |]; cbn [map_err]; [| naive_solver].
  destruct (Z.ltb_spec (store.s_Expires x * Second) now); [split; [by intros [??] | intros ([= ->] & ? & _); lia] |].
  destruct (List.find _ (store.users _)) as [r |] eqn:E; cbn [map_err].
  - split.
    + intros [d [= <- <- <-]]. split_and!; try done. by exists r.
    + intros ([= <-] & _ & r' & Hr' & ->). rewrite E in Hr'. injection Hr' as <-. by eexists.
  - split; [by intros [??] |]. intros ([= <-] & _ & r' & Hr' & _). congruence.
Qed.

(** A page or action of the panel runs for a user exactly when the request
    carries the token of a live session of that user and, when it changes
    something, the session's CSRF token. *)
Theorem auth_spec s now cookie post csrf u c : auth s now cookie post csrf = Allowed u c <->
  exists token sess, cookie = Some token /\ live (controller.st s) now token u sess /\ c = store.CSRF sess
    /\ (post = true -> csrf = store.CSRF sess).
Proof.
  unfold auth. destruct cookie as [token |]; [| naive_solver].
  assert (forall x sess, Session s now token = Ok (x, sess) <-> live (controller.st s) now token x sess) as HS by (intros; apply Session_live).
  destruct (Session s now token) as [[x sess] | |].
  - pose proof (proj1 (HS x sess) eq_refl) as Hl. destruct post; cbn [andb negb].
    + case_bool_decide as Hc; cbn [negb].
      * split; [intros [= <- <-]; by exists token, sess | intros (t & s' & [= <-] & Hl'%HS & -> & _); congruence].
      * split; [done |]. intros (t & s' & [= <-] & Hl'%HS & _ & Hp). injection Hl' as -> ->. by destruct Hc; apply Hp.
    + split; [intros [= <- <-]; by exists token, sess | intros (t & s' & [= <-] & Hl'%HS & -> & _); congruence].
  - split; [done |]. intros (t & s' & [= <-] & Hl'%HS & _). done.
  - split; [done |]. intros (t & s' & [= <-] & Hl'%HS & _). done.
Qed.

Lemma newSession_ok s now u action tok csrf token s' : newSession s now u action tok csrf = (Ok token, s') ->
  token = randomToken tok /\ store.users (controller.st s') = store.users (controller.st s)
  /\ store.sessions (controller.st s') = store.sessions (controller.st s)
       ++ [store.MkSession (tokenHash token) (store.u_ID u) (randomToken csrf) ((now + SessionTTL) / Second)]
  /\ Forall (fun x => store.s_token x <> tokenHash token) (store.sessions (controller.st s)).
Proof.
  unfold newSession. destruct (in_tx s _) as [[[] | |] s1] eqn:E; intros [=]; subst.
  apply in_tx_ok in E as (d & ([] & d1 & H1%login_tx_ok & H2%login_tx_ok)%store.tx_bind_ok & ->). unfold store.CreateSession, store.exec_if in H1.
  destruct (_ && _) eqn:Hc in H1; [| done]. injection H1 as <-. injection H2 as <-. apply andb_true_iff in Hc as [_ Hc].
  split_and!; try done. apply negb_true_iff, existsb_Forall in Hc. eapply Forall_impl; [exact Hc |].
  intros x Hx. by apply bool_decide_eq_false in Hx.
Qed.

Lemma newSession_err s now u action tok csrf r s' : newSession s now u action tok csrf = (r, s') ->
  (forall token, r <> Ok token) -> s' = s.
Proof.
  unfold newSession. destruct (in_tx s _) as [x s1] eqn:E. intros [= <- <-] Hr.
  destruct x as [[] | |]; [by destruct (Hr (randomToken tok)) | |]; by apply in_tx_not_ok in E.
Qed.

(** The end of a session that starts now: the table keeps whole seconds. *)
Definition session_end (now : Z) : Z := (now + SessionTTL) / Second * Second.

(** A session of the user under the token, with this CSRF token, which is live
    up to its end and no longer. *)
Definition opens (d : store.db) (now : Z) (token csrf : bytes) (r : store.user_row) : Prop :=
  exists sess, store.CSRF sess = csrf /\ forall t, live d t token (store.scanUser r) sess <-> t <= session_end now.

Lemma newSession_opens s now u action tok csrf token s' : newSession s now u action tok csrf = (Ok token, s') ->
  forall r, List.find (fun r => store.uid r =? store.u_ID u) (store.users (controller.st s)) = Some r ->
  opens (controller.st s') now token (randomToken csrf) r.
Proof.
  intros H r Hr. destruct (newSession_ok _ _ _ _ _ _ _ _ H) as (_ & Hu & Hs & Hf).
  exists (store.MkSession (tokenHash token) (store.u_ID u) (randomToken csrf) ((now + SessionTTL) / Second)). split; [reflexivity |].
  intros t. split; [by intros (_ & Ht & _) |]. intros Ht. split_and!; [| exact Ht |].
  - rewrite Hs. clear Hs. induction Hf as [| x l Hx Hf IH]; cbn [app List.find store.s_token]; [by rewrite bool_decide_eq_true_2 |].
    rewrite bool_decide_eq_false_2 by done. exact IH.
  - exists r. split; [| done]. by rewrite Hu.
Qed.

Context `{AE : Aead} (kek : option bytes).

(** What a sign-in with a password has shown: the user's password, and with a
    second factor a fresh code, which is now used up. *)
Definition proved (s s' : controller.Service) (now : Z) (login pw code : bytes) (r : store.user_row) : Prop :=
  r ∈ store.users (controller.st s) /\ store.Login (store.u_user r) = login
  /\ CheckPassword (store.PassHash (store.u_user r)) pw = Ok true
  /\ (store.u_TOTP (store.scanUser r) = true -> exists secret, secret_of kek (controller.st s) (store.uid r) = Some secret
        /\ fits secret code now (last_step (controller.st s) (store.uid r)) (last_step (controller.st s') (store.uid r))).

Lemma find_uid (d : store.db) r : store.wf d -> r ∈ store.users d ->
  List.find (fun x => store.uid x =? store.uid r) (store.users d) = Some r.
Proof.
  intros Hd Hr. destruct (List.find _ _) as [x |] eqn:E.
  - apply store.find_spec in E as [Hx Ex%Z.eqb_eq]. f_equal. apply (store.key_inj store.uid (store.users d)); [apply Hd | done..].
  - apply list_elem_of_In in Hr. apply (find_none _ _ E) in Hr. by apply Z.eqb_neq in Hr.
Qed.

Lemma UserByLogin_ok d login u d' : store.UserByLogin login d = Ok (u, d') ->
  d' = d /\ exists r, r ∈ store.users d /\ store.Login (store.u_user r) = login /\ u = store.scanUser r.
Proof.
  intros (r & d1 & H & H1)%store.tx_bind_ok. injection H1 as <- <-. unfold store.one in H. destruct (List.find _ _) as [x |] eqn:E; [| done].
  injection H as -> <-. apply store.find_spec in E as [Hx Ex%bool_decide_eq_true]. split; [done |]. by exists r.
Qed.

(** What a sign-in leads to: a session of the user who proved to be it; or
    nothing; or, when the session could not be stored, a used code. *)
Lemma Login_result s now login pw code tok csrf r s' : store.wf (controller.st s) -> Login kek s now login pw code tok csrf = (r, s') ->
  match r with
  | Ok token => token = randomToken tok /\ exists row, proved s s' now login pw code row
      /\ opens (controller.st s') now token (randomToken csrf) row
  | _ => s' = s \/ exists row, proved s s' now login pw code row /\ store.u_TOTP (store.scanUser row) = true
      /\ checkSecondFactor kek s now (store.uid row) code = (Ok tt, s')
  end.
Proof.
  intros Hd. unfold Login. destruct (in_read s _) as [u | |] eqn:Hu; [| intros [= <- <-]; by left ..].
  apply in_read_ok in Hu as (d0 & (_ & row & Hrow & Hlog & ->)%login_tx_ok%UserByLogin_ok).
  pose proof (find_uid _ row Hd Hrow) as Hfind.
  destruct (CheckPassword _ pw) as [[] | |] eqn:Hpw; [| intros [= <- <-]; by left ..].
  destruct (store.u_TOTP (store.scanUser row)) eqn:Htotp.
  - change (store.u_ID (store.scanUser row)) with (store.uid row).
    destruct (checkSecondFactor kek s now (store.uid row) code) as [[[] | |] s1] eqn:H2;
      [| intros [= <- <-]; left; by apply in_tx_not_ok in H2 ..].
    pose proof H2 as (d1 & Hf & Hs1)%in_tx_ok.
    destruct (second_factor_ok kek _ code now _ d1 Hd Hf) as (secret & Hsec & Hfit & _ & _).
    assert (forall s2, store.users (controller.st s2) = store.users (controller.st s1) -> proved s s2 now login pw code row) as Hproved.
    { intros s2 Hus. split_and!; try done. intros _. exists secret. split; [done |]. unfold last_step in *. by rewrite Hus, Hs1. }
    intros Hn. destruct r as [token | |].
    + destruct (newSession_ok _ _ _ _ _ _ _ _ Hn) as (Ht & Hus & _ & _). split; [done |]. exists row. split; [by apply Hproved |].
      destruct (totp_user kek _ code now (controller.st s) d1 (store.uid row) row Hf Hfind) as (row1 & Hr1 & Hscan).
      unfold opens. rewrite <- Hscan. apply (newSession_opens _ _ _ _ _ _ _ _ Hn row1). by rewrite Hs1.
    + right. exists row. rewrite (newSession_err _ _ _ _ _ _ _ _ Hn) by done. by split_and!; [apply Hproved | |].
    + right. exists row. rewrite (newSession_err _ _ _ _ _ _ _ _ Hn) by done. by split_and!; [apply Hproved | |].
  - intros Hn. destruct r as [token | |]; [| left; by apply (newSession_err _ _ _ _ _ _ _ _ Hn) ..].
    destruct (newSession_ok _ _ _ _ _ _ _ _ Hn) as (Ht & _). split; [done |]. exists row.
    split; [split_and!; try done; intros E; by rewrite Htotp in E |].
    by apply (newSession_opens _ _ _ _ _ _ _ _ Hn row).
Qed.

(** C13: A sign-in opens a session only for a user who gave their password and,
    with a second factor on, a fresh one-time code, which it uses up; the session
    is live for that user up to the last whole second of its seven days and not
    longer. Without success no session is opened, and at most a code is used up. *)
Theorem Login_spec s now login pw code tok csrf r s' : store.wf (controller.st s) -> Login kek s now login pw code tok csrf = (r, s') ->
  match r with
  | Ok token => token = randomToken tok /\ exists row, proved s s' now login pw code row
      /\ exists sess, store.CSRF sess = randomToken csrf
      /\ forall t, live (controller.st s') t token (store.scanUser row) sess <-> t <= (now + SessionTTL) / Second * Second
  | _ => s' = s \/ exists row, proved s s' now login pw code row /\ store.u_TOTP (store.scanUser row) = true
      /\ checkSecondFactor kek s now (store.uid row) code = (Ok tt, s')
  end.
Proof. exact (Login_result s now login pw code tok csrf r s'). Qed.

(** Signing out ends the session of the token, and no other that has not
    expired. *)
Theorem Logout_spec s now token r s' : Logout s now token = (r, s') ->
  r = Ok tt /\ (forall t u sess, ~ live (controller.st s') t token u sess)
  /\ forall other t u sess, tokenHash other <> tokenHash token -> now <= t -> live (controller.st s) t other u sess ->
       live (controller.st s') t other u sess.
Proof.
  intros [= <- <-]. split; [done |]. cbn [controller.st store.sessions store.set_sessions store.users].
  set (keep := fun x => negb (bool_decide (store.s_token x = tokenHash token) || (store.s_Expires x <? controller.Unix now))). split.
  - intros t u sess (Hf & _). apply store.find_spec in Hf as [Hin Ht%bool_decide_eq_true]. apply store.elem_of_Filter in Hin as [_ Hk].
    unfold keep in Hk. by rewrite bool_decide_eq_true_2 in Hk by done.
  - intros other t u sess Hne Hle (Hf & Hexp & Hu). split; [| by split].
    apply find_filter; [exact Hf |]. unfold keep. apply store.find_spec in Hf as [_ Hf%bool_decide_eq_true].
    rewrite bool_decide_eq_false_2 by congruence. rewrite (proj2 (Z.ltb_ge _ _)); [done |]. unfold controller.Unix.
    apply Z.lt_succ_r, Z.div_lt_upper_bound; [done |]. unfold Second in *. lia.
Qed.

End Sessions.

(** ** The limit on failures *)

(** What the handlers do with the limiter, in the order of its lock. A
    password sign-in ([loginSubmit]) asks at its start; when it is allowed the
    password is looked at, and when that was wrong the limiter is told, while
    other sign-ins may have asked in between. A sign-in through the provider asks
    when it starts ([oidcStart]) and tells of failures without asking
    ([oidcFail]). *)
Inductive call : Type :=
  | Ask (addr : bytes) (now : Z)        (* loginSubmit, before the password *)
  | Wrong (addr : bytes) (now : Z)      (* one that was allowed ends: wrong *)
  | Right (addr : bytes) (now : Z)      (* one that was allowed ends otherwise *)
  | OidcAsk (addr : bytes) (now : Z)
  | OidcFail (addr : bytes) (now : Z).

Definition call_time (c : call) : Z :=
  match c with Ask _ t | Wrong _ t | Right _ t | OidcAsk _ t | OidcFail _ t => t end.

(** The limiter, and how many password sign-ins of each address are looked at. *)
Record signing := MkSigning { lim : loginLimiter; running : gmap bytes nat }.
Definition looked_at (s : signing) (a : bytes) : nat := default 0%nat (running s !! a).

(** A sign-in that is not there cannot end. *)
Definition ends (s : signing) (a : bytes) (l : loginLimiter) : option signing :=
  match looked_at s a with O => None | S n => Some (MkSigning l (<[a := n]> (running s))) end.

Definition signing_step (s : signing) (c : call) : option signing :=
  match c with
  | Ask a now =>
    let '(ok, l) := allowed (lim s) a now in
    Some (MkSigning l (if ok : bool then <[a := S (looked_at s a)]> (running s) else running s))
  | Wrong a now => ends s a (failed (lim s) a now)
  | Right a now => ends s a (lim s)
  | OidcAsk a now => Some (MkSigning (allowed (lim s) a now).2 (running s))
  | OidcFail a now => Some (MkSigning (failed (lim s) a now) (running s))
  end.

Definition signing_run (cs : list call) : option signing :=
  fold_left (fun s c => s ← s; signing_step s c) cs (Some (MkSigning ∅ ∅)).

(** The wrong passwords, and all the failures the limiter was told of. *)
Definition wrongs (cs : list call) : list (bytes * Z) := omap (fun c => match c with Wrong a t => Some (a, t) | _ => None end) cs.
Definition told (cs : list call) : list (bytes * Z) :=
  omap (fun c => match c with Wrong a t | OidcFail a t => Some (a, t) | _ => None end) cs.

(** The failures of an address within ten minutes before a time. *)
Definition recent (now : Z) (ts : list Z) : list Z := List.filter (fun t => time_sub now t <? 10 * Minute) ts.
Definition of_addr (a : bytes) (fs : list (bytes * Z)) : list Z := map snd (List.filter (fun f => bool_decide (f.1 = a)) fs).

Lemma recent_recent now now' ts : now <= now' -> recent now' (recent now ts) = recent now' ts.
Proof.
  intros Hle. unfold recent. induction ts as [| t ts IH]; [done |]. simpl. destruct (time_sub now t <? 10 * Minute) eqn:E; simpl; rewrite IH; [done |].
  apply Z.ltb_ge in E. assert (10 * Minute <= time_sub now' t) as E' by (unfold time_sub, Minute, Second in *; lia).
  by rewrite (proj2 (Z.ltb_ge _ _) E').
Qed.

(** The limiter knows every failure that still counts. *)
Definition knows (l : loginLimiter) (now : Z) (hist : list (bytes * Z)) : Prop :=
  forall a now', now <= now' -> recent now' (default [] (l_fail l !! a)) = recent now' (of_addr a hist).

Lemma allowed_knows l addr now hist : knows l now hist -> knows (allowed l addr now).2 now hist
  /\ (allowed l addr now).1 = (zlen (recent now (of_addr addr hist)) <? 10).
Proof.
  intros H. unfold allowed. fold (recent now (default [] (l_fail l !! addr))). split; [| simpl; by rewrite (H addr now)].
  intros a now' Hle. destruct (decide (a = addr)) as [-> | Hne].
  - transitivity (recent now' (recent now (default [] (l_fail l !! addr)))); [| rewrite recent_recent by done; by apply H].
    case_bool_decide as Hr; simpl; [by rewrite lookup_delete_eq, Hr | by rewrite lookup_insert_eq].
  - case_bool_decide; simpl; [rewrite lookup_delete_ne by done | rewrite lookup_insert_ne by done]; by apply H.
Qed.

Lemma failed_knows l addr now hist : knows l now hist -> knows (failed l addr now) now (hist ++ [(addr, now)]).
Proof.
  intros H a now' Hle. unfold failed, of_addr. rewrite List.filter_app, map_app. cbn [l_fail]. simpl. destruct (decide (a = addr)) as [-> | Hne].
  - rewrite lookup_insert_eq. simpl. rewrite bool_decide_eq_true_2 by done. unfold recent. rewrite !List.filter_app. f_equal. by apply H.
  - rewrite lookup_insert_ne by done. rewrite bool_decide_eq_false_2 by congruence. rewrite app_nil_r. by apply H.
Qed.

Lemma knows_later l now now' hist : now <= now' -> knows l now hist -> knows l now' hist.
Proof. intros Hle H a t Ht. apply H. lia. Qed.

Lemma recent_le now now' ts : now <= now' -> (length (recent now' ts) <= length (recent now ts))%nat.
Proof. intros H. rewrite <- (recent_recent now now') by done. apply List.filter_length_le. Qed.

Lemma of_addr_snoc a fs f : of_addr a (fs ++ [f]) = of_addr a fs ++ (if bool_decide (f.1 = a) then [f.2] else []).
Proof. unfold of_addr. rewrite List.filter_app, map_app. simpl. by case_bool_decide. Qed.

Lemma length_recent_snoc now ts t : (length (recent now (ts ++ [t])) <= S (length (recent now ts)))%nat.
Proof. unfold recent. rewrite List.filter_app, length_app. simpl. destruct (_ <? _); simpl; lia. Qed.

Lemma of_addr_cons a now x fs :
  recent now (of_addr a (x :: fs)) = recent now (of_addr a [x]) ++ recent now (of_addr a fs).
Proof. unfold recent, of_addr. by rewrite <- List.filter_app, <- map_app, <- List.filter_app. Qed.

Lemma of_addr_le a now x l l' : (length (recent now (of_addr a l)) <= length (recent now (of_addr a l')))%nat ->
  (length (recent now (of_addr a l)) <= length (recent now (of_addr a (x :: l'))))%nat
  /\ (length (recent now (of_addr a (x :: l))) <= length (recent now (of_addr a (x :: l'))))%nat.
Proof. intros H. rewrite (of_addr_cons a now x l), (of_addr_cons a now x l'), !length_app. lia. Qed.

Lemma wrongs_told a now cs : (length (recent now (of_addr a (wrongs cs))) <= length (recent now (of_addr a (told cs))))%nat.
Proof. induction cs as [| c cs IH]; [done |]. destruct c; try exact IH; by apply of_addr_le. Qed.

Lemma looked_at_empty l a : looked_at (MkSigning l ∅) a = 0%nat.
Proof. unfold looked_at. cbn [running]. by rewrite lookup_empty. Qed.

Lemma signing_run_snoc cs c : signing_run (cs ++ [c]) = (s ← signing_run cs; signing_step s c).
Proof. unfold signing_run. by rewrite fold_left_app. Qed.

(** At most [n] password sign-ins of an address at any moment. *)
Definition at_once (n : nat) (a : bytes) (cs : list call) : Prop :=
  forall pre post s, cs = pre ++ post -> signing_run pre = Some s -> (looked_at s a <= n)%nat.

Definition clocked (cs : list call) : Prop := StronglySorted Z.le (map call_time cs).

Lemma clocked_snoc cs c : clocked (cs ++ [c]) -> clocked cs /\ forall x, x ∈ cs -> call_time x <= call_time c.
Proof.
  unfold clocked. rewrite map_app. intros H. split; [by eapply StronglySorted_app_1_l |].
  intros x Hx. eapply StronglySorted_app_1_elem_of; [exact H | by apply list_elem_of_fmap_2 | by left].
Qed.

Lemma ends_looked s b l s' a : ends s b l = Some s' ->
  lim s' = l /\ looked_at s a = (if bool_decide (b = a) then S (looked_at s' a) else looked_at s' a).
Proof.
  unfold ends. destruct (looked_at s b) as [| n] eqn:E; [done |]. intros [= <-]. split; [done |]. unfold looked_at in *. cbn [running].
  case_bool_decide as H; [subst; by rewrite lookup_insert_eq | by rewrite lookup_insert_ne].
Qed.

(** The limiter knows every failure that counts, and the recent wrong passwords
    together with those being looked at stay below [10 + n]. *)
Lemma signing_inv n a cs : forall s now, signing_run cs = Some s -> clocked cs -> at_once n a cs ->
  (forall x, x ∈ cs -> call_time x <= now) ->
  knows (lim s) now (told cs) /\ (length (recent now (of_addr a (wrongs cs))) + looked_at s a <= 9 + n)%nat.
Proof.
  induction cs as [| c cs IH] using rev_ind; intros s now Hrun Hc Hn Hnow.
  { injection Hrun as <-. split; [| rewrite looked_at_empty; simpl; lia]. intros a' now' _. unfold lim, empty, loginLimiter_empty. cbn [l_fail]. by rewrite lookup_empty. }
  rewrite signing_run_snoc in Hrun. destruct (signing_run cs) as [s0 |] eqn:Hs0; [| done]. cbn [mbind option_bind] in Hrun.
  apply clocked_snoc in Hc as [Hc Hlast]. assert (call_time c <= now) as Hct by (apply Hnow; apply elem_of_app; right; by left).
  assert (at_once n a cs) as Hn0 by (intros pre post s' -> ?; eapply (Hn pre (post ++ [c])); [by rewrite <- app_assoc | done]).
  destruct (IH s0 (call_time c) eq_refl Hc Hn0 Hlast) as [Hk Hb]. pose proof (Hn (cs ++ [c]) [] s) as Hs.
  rewrite app_nil_r, signing_run_snoc, Hs0 in Hs. specialize (Hs eq_refl Hrun).
  pose proof (recent_le _ _ (of_addr a (wrongs cs)) Hct) as Hle. pose proof (wrongs_told a (call_time c) cs) as Hwt.
  assert (forall l h, knows l (call_time c) h -> knows l now h) as Hlater by (intros l h; by apply knows_later).
  unfold wrongs, told in *. rewrite !omap_app. destruct c as [b t | b t | b t | b t | b t]; cbn [call_time signing_step] in *; cbn [omap list_omap].
  - rewrite !app_nil_r. destruct (allowed (lim s0) b t) as [ok l] eqn:Ha. destruct (allowed_knows (lim s0) b t _ Hk) as [Hk1 Hok].
    rewrite Ha in Hk1, Hok. injection Hrun as <-. split; [by apply Hlater |]. unfold looked_at in *. cbn [running fst] in *.
    destruct ok; [| lia]. symmetry in Hok. apply Z.ltb_lt in Hok. unfold zlen in Hok. destruct (decide (a = b)) as [-> | Hne]; [lia |].
    rewrite lookup_insert_ne in * by done. lia.
  - destruct (ends_looked _ _ _ _ a Hrun) as [Hl Hr]. rewrite Hl. split; [by apply Hlater, failed_knows |].
    rewrite of_addr_snoc. cbn [fst snd]. case_bool_decide; [| rewrite app_nil_r; lia].
    pose proof (length_recent_snoc now (of_addr a (omap (fun c => match c with Wrong a t => Some (a, t) | _ => None end) cs)) t). lia.
  - rewrite !app_nil_r. destruct (ends_looked _ _ _ _ a Hrun) as [Hl Hr]. rewrite Hl. split; [by apply Hlater | case_bool_decide; lia].
  - rewrite !app_nil_r. injection Hrun as <-. split; [by apply Hlater, allowed_knows | unfold looked_at in *; cbn [running] in *; lia].
  - rewrite app_nil_r. injection Hrun as <-. split; [by apply Hlater, failed_knows | unfold looked_at in *; cbn [running] in *; lia].
Qed.

Lemma running_bound a pre : forall s, signing_run pre = Some s -> (looked_at s a <= length pre)%nat.
Proof.
  induction pre as [| c pre IH] using rev_ind; intros s Hr; [injection Hr as <-; by rewrite looked_at_empty |].
  rewrite signing_run_snoc in Hr. destruct (signing_run pre) as [s0 |]; [| done]. specialize (IH s0 eq_refl). cbn [mbind option_bind] in Hr.
  rewrite length_app. cbn [length]. destruct c as [b t | b t | b t | b t | b t]; cbn [signing_step] in Hr.
  - destruct (allowed _ _ _) as [[] l]; injection Hr as <-; unfold looked_at in *; cbn [running]; [| lia].
    destruct (decide (a = b)) as [-> | ?]; [rewrite lookup_insert_eq; simpl; lia | rewrite lookup_insert_ne by done; lia].
  - destruct (ends_looked _ _ _ _ a Hr) as [_ H]. case_bool_decide; lia.
  - destruct (ends_looked _ _ _ _ a Hr) as [_ H]. case_bool_decide; lia.
  - injection Hr as <-. unfold looked_at in *. cbn [running]. lia.
  - injection Hr as <-. unfold looked_at in *. cbn [running]. lia.
Qed.

Lemma at_once_length a cs : at_once (length cs) a cs.
Proof. intros pre post s -> Hr. rewrite length_app. pose proof (running_bound a pre s Hr). lia. Qed.

(** C34: However sign-ins with passwords and through the provider, from however
    many addresses, are interleaved: a password is looked at exactly when the
    limiter was told of fewer than ten failures of its address in the ten minutes
    before, and in any ten minutes at most 9 + n passwords of an address that are
    wrong are looked at, those still being looked at counted, where n is how many
    of its sign-ins run at once; one after another, that is ten. *)
Theorem ten_failures cs s : signing_run cs = Some s -> clocked cs ->
  (forall a now, (forall c, c ∈ cs -> call_time c <= now) ->
     (allowed (lim s) a now).1 = true <-> (length (recent now (of_addr a (told cs))) < 10)%nat)
  /\ (forall n a now, at_once n a cs -> (forall c, c ∈ cs -> call_time c <= now) ->
     (length (recent now (of_addr a (wrongs cs))) + looked_at s a <= 9 + n)%nat).
Proof.
  intros Hrun Hc. split.
  - intros a now Hnow.
    destruct (signing_inv _ a cs s now Hrun Hc (at_once_length a cs) Hnow) as [Hk _]. destruct (allowed_knows (lim s) a now _ Hk) as [_ ->].
    unfold zlen. rewrite Z.ltb_lt. lia.
  - intros n a now Hn Hnow. by apply (signing_inv n a cs s now).
Qed.

End logins.
