(* ===== verification/Oidc.v ===== *)
(** Sign-in through an OpenID Connect provider (internal/controller/oidc.go and
    oidc_panel.go): the provider's keys, the verification of ID tokens, the
    callback of the panel.

    HTTP answers, JSON and the two signature schemes are a class; cookies are
    given as their values. *)
From stdpp Require Import base list gmap strings.
From Stdlib Require Import ZArith Lia SpecFloat.
From S2P Require Import Prelude GoStrings GoText Encoding Crypto Pki Store Controller Login LoginInv.

Open Scope Z_scope.

Module oidc.
Import login logins.

Record OIDCConfig := MkConfig { Issuer : bytes; ClientID : bytes; ClientSecret : bytes }.
Definition Enabled (c : OIDCConfig) : bool := negb (bool_decide (Issuer c = [])) && negb (bool_decide (ClientID c = [])).

Record oidcMeta := MkMeta { AuthURL : bytes; TokenURL : bytes; JWKSURL : bytes; m_Issuer : bytes }.
Record jwk := MkJwk { Kty : bytes; Kid : bytes; Crv : bytes; N : bytes; E_ : bytes; X : bytes; Y : bytes }.
Inductive publicKey : Type := RSA (n e : Z) | EC (x y : Z).

(** The client; [keys] is nil before the first fetch. *)
Record oidcClient := MkClient { cfg : OIDCConfig; meta : option oidcMeta; keys : option (gmap bytes publicKey); got : Z }.

(** The fields of an ID token that are read; [Aud] is raw JSON, and
    [EmailVerified] says whether it is true or "true". *)
Record token_claims := MkTokenClaims {
  Iss : bytes; Aud : bytes; Exp : spec_float; Nonce : bytes; t_Email : bytes; EmailVerified : bool }.
Record Claims := MkClaims { Email : bytes; Verified : bool }.

Class Provider := {
  get_meta : bytes -> option oidcMeta;
  get_keys : bytes -> option (list jwk);
  post_token : bytes -> list (bytes * bytes) -> option bytes;
  parse_header : bytes -> option (bytes * bytes);
  parse_claims : bytes -> option token_claims;
  parse_strings : bytes -> option (list bytes);
  parse_string : bytes -> bytes;
  on_P256 : Z -> Z -> bool;
  rsa_verify : Z -> Z -> bytes -> bytes -> bool;
  ecdsa_verify : Z -> Z -> bytes -> Z -> Z -> bool }.

Inductive oerror : Type :=
  | EHTTP | EIssuer (said : bytes) | EDiscovery | EUnknownKey | EMalformed | EHeader | ESig | EClaims
  | EWrongIssuer | EWrongAudience | EExpired | EWrongNonce | ETokenEndpoint.

(** The bytes that [DecodeString] has written when it stops. *)
Fixpoint decode_prefix (s : bytes) : bytes :=
  match s with
  | [a; b] => default [] (group64url [a; b] 4 1)
  | [a; b; c] => default [] (group64url [a; b; c] 2 2)
  | a :: b :: c :: d :: r => match group64url [a; b; c; d] 0 3 with Some x => x ++ decode_prefix r | None => [] end
  | _ => []
  end.
Definition b64 (s : bytes) : bytes := decode_prefix (stripNewlines (TrimRight s 61)).

Definition BitLen (n : Z) : Z := if n =? 0 then 0 else Z.log2 n + 1.

(** [float64(i)] *)
Definition float64 (i : Z) : spec_float := binary_normalize 53 1024 i 0 false.

Section Provider.
Context `{CR : Crypto} `{P : Provider}.

Definition discover (o : oidcClient) : res oerror oidcMeta * oidcClient :=
  match meta o with
  | Some m => (Ok m, o)
  | None =>
    let iss := Issuer (cfg o) in
    match get_meta (TrimRight iss 47 ++ str "/.well-known/openid-configuration") with
    | None => (Err EHTTP, o)
    | Some m =>
      if negb (bool_decide (m_Issuer m = iss)) && negb (bool_decide (m_Issuer m = TrimRight iss 47)) then (Err (EIssuer (m_Issuer m)), o)
      else if bool_decide (AuthURL m = []) || bool_decide (TokenURL m = []) || bool_decide (JWKSURL m = []) then (Err EDiscovery, o)
      else (Ok m, MkClient (cfg o) (Some m) (keys o) (got o))
    end
  end.

Definition add_key (ks : gmap bytes publicKey) (k : jwk) : gmap bytes publicKey :=
  if bool_decide (Kty k = str "RSA") then
    let n := be (b64 (N k)) in
    let e := be (b64 (E_ k)) in
    if (2048 <=? BitLen n) && (e <? 2 ^ 63) && (2 <? e) then <[Kid k := RSA n e]> ks else ks
  else if bool_decide (Kty k = str "EC") then
    if bool_decide (Crv k = str "P-256") then
      let x := be (b64 (X k)) in
      let y := be (b64 (Y k)) in
      if on_P256 x y then <[Kid k := EC x y]> ks else ks
    else ks
  else ks.

(** [key]: the key set is fetched again at most once a minute. *)
Definition key (o : oidcClient) (now : Z) (m : oidcMeta) (kid : bytes) : res oerror publicKey * oidcClient :=
  match default ∅ (keys o) !! kid with
  | Some k => (Ok k, o)
  | None =>
    if negb (bool_decide (keys o = None)) && (time_sub now (got o) <? Minute) then (Err EUnknownKey, o)
    else match get_keys (JWKSURL m) with
    | None => (Err EHTTP, o)
    | Some l =>
      let ks := fold_left add_key l ∅ in
      let o := MkClient (cfg o) (meta o) (Some ks) now in
      match ks !! kid with Some k => (Ok k, o) | None => (Err EUnknownKey, o) end
    end
  end.

Definition sig_ok (k : publicKey) (alg sum sig : bytes) : bool :=
  match k with
  | RSA n e => bool_decide (alg = str "RS256") && rsa_verify n e sum sig
  | EC x y => bool_decide (alg = str "ES256") && (zlen sig =? 64) && ecdsa_verify x y sum (be (take 32 sig)) (be (drop 32 sig))
  end.

Definition audiences (raw : bytes) : list bytes := match parse_strings raw with Some l => l | None => [parse_string raw] end.

(** The checks of the claims. *)
Definition check_claims (clientID : bytes) (m : oidcMeta) (c : token_claims) (nonce : bytes) (now : Z) : res oerror Claims :=
  if negb (bool_decide (Iss c = m_Issuer m)) then Err EWrongIssuer
  else if negb (existsb (fun a => bool_decide (a = clientID)) (audiences (Aud c))) then Err EWrongAudience
  else if SFleb (Exp c) (float64 (pki.Unix now)) then Err EExpired
  else if bool_decide (Nonce c = []) || negb (bool_decide (Nonce c = nonce)) then Err EWrongNonce
  else Ok (MkClaims (ToLower (TrimSpace (t_Email c))) (EmailVerified c)).

Definition verify (o : oidcClient) (m : oidcMeta) (token nonce : bytes) (now : Z) : res oerror Claims * oidcClient :=
  match Split 46 token with
  | [h; p; s] =>
    match parse_header (b64 h) with
    | None => (Err EHeader, o)
    | Some (alg, kid) =>
      let '(k, o) := key o now m kid in
      (k ← k;
       if negb (sig_ok k alg (sha256 (h ++ 46 :: p)) (b64 s)) then Err ESig
       else match parse_claims (b64 p) with
       | None => Err EClaims
       | Some c => check_claims (ClientID (cfg o)) m c nonce now
       end, o)
    end
  | _ => (Err EMalformed, o)
  end.

Definition pkceChallenge (verifier : bytes) : bytes := encode64url (sha256 verifier).

(** The query of the redirect to the provider. *)
Definition authQuery (o : oidcClient) (redirect state nonce verifier : bytes) : list (bytes * bytes) :=
  [(str "response_type", str "code"); (str "client_id", ClientID (cfg o)); (str "redirect_uri", redirect);
   (str "scope", str "openid email"); (str "state", state); (str "nonce", nonce);
   (str "code_challenge", pkceChallenge verifier); (str "code_challenge_method", str "S256")].

Definition exchange (o : oidcClient) (redirect code nonce verifier : bytes) (now : Z) : res oerror Claims * oidcClient :=
  let '(m, o) := discover o in
  match m with
  | Ok m =>
    let form := [(str "grant_type", str "authorization_code"); (str "code", code); (str "redirect_uri", redirect);
                 (str "client_id", ClientID (cfg o)); (str "client_secret", ClientSecret (cfg o)); (str "code_verifier", verifier)] in
    match post_token (TokenURL m) form with
    | Some tok => if bool_decide (tok = []) then (Err ETokenEndpoint, o) else verify o m tok nonce now
    | None => (Err ETokenEndpoint, o)
    end
  | Err e => (Err e, o)
  | Panic => (Panic, o)
  end.

(** ** The panel (oidc_panel.go) *)

(** What the callback of the provider leads to: a failure, which counts for the
    limiter, or a session. [cookie] is the value the panel set, [q] the query. *)
Inductive outcome : Type := Fail | SignedIn (token : bytes).
Definition query (q : gmap bytes bytes) (k : bytes) : bytes := default [] (q !! k).

Definition oidcCallback (svc : controller.Service) (o : oidcClient) (now : Z) (redirect : bytes) (cookie : option bytes)
    (q : gmap bytes bytes) (tok csrf : bytes) : outcome * controller.Service * oidcClient :=
  match cookie with
  | None => (Fail, svc, o)
  | Some c =>
    match Split 46 c with
    | [state; nonce; verifier] =>
      if bool_decide (query q (str "state") = []) || negb (bool_decide (query q (str "state") = state)) then (Fail, svc, o)
      else if negb (bool_decide (query q (str "error") = [])) || bool_decide (query q (str "code") = []) then (Fail, svc, o)
      else
        let '(r, o) := exchange o redirect (query q (str "code")) nonce verifier now in
        match r with
        | Ok cl =>
          if negb (Verified cl) || bool_decide (Email cl = []) then (Fail, svc, o)
          else match LoginOIDC svc now (Email cl) tok csrf with
          | (Ok token, svc) => (SignedIn token, svc, o)
          | (_, svc) => (Fail, svc, o)
          end
        | _ => (Fail, svc, o)
        end
    | _ => (Fail, svc, o)
    end
  end.

(** ** What is accepted *)

(** A key of the provider: in the set the client has, or in the one it fetches. *)
Definition provider_key (o : oidcClient) (m : oidcMeta) (kid : bytes) (k : publicKey) : Prop :=
  default ∅ (keys o) !! kid = Some k \/ exists l, get_keys (JWKSURL m) = Some l /\ fold_left add_key l ∅ !! kid = Some k.

(** An ID token that proves an address: signed by a key of the provider with
    the algorithm of the key, by this issuer, for this client, not expired, made
    for this sign-in. *)
Definition valid_token (o : oidcClient) (m : oidcMeta) (token nonce : bytes) (now : Z) (cl : Claims) : Prop :=
  exists h p s alg kid k c, Split 46 token = [h; p; s] /\ parse_header (b64 h) = Some (alg, kid) /\ provider_key o m kid k
    /\ sig_ok k alg (sha256 (h ++ 46 :: p)) (b64 s) = true /\ parse_claims (b64 p) = Some c
    /\ Iss c = m_Issuer m /\ ClientID (cfg o) ∈ audiences (Aud c) /\ SFleb (Exp c) (float64 (pki.Unix now)) = false
    /\ Nonce c = nonce /\ nonce <> [] /\ cl = MkClaims (ToLower (TrimSpace (t_Email c))) (EmailVerified c).

Lemma check_claims_ok clientID m c nonce now cl : check_claims clientID m c nonce now = Ok cl <->
  Iss c = m_Issuer m /\ clientID ∈ audiences (Aud c) /\ SFleb (Exp c) (float64 (pki.Unix now)) = false
  /\ Nonce c = nonce /\ nonce <> [] /\ cl = MkClaims (ToLower (TrimSpace (t_Email c))) (EmailVerified c).
Proof.
  unfold check_claims. case_bool_decide as Hi; cbn [negb]; [| naive_solver].
  assert (existsb (fun a => bool_decide (a = clientID)) (audiences (Aud c)) = true <-> clientID ∈ audiences (Aud c)) as Ha.
  { rewrite existsb_exists. split; [intros (x & Hx & ->%bool_decide_eq_true); by apply list_elem_of_In |].
    intros H. exists clientID. split; [by apply list_elem_of_In | by apply bool_decide_eq_true]. }
  destruct (existsb _ _); cbn [negb]; [| split; [done | intros (_ & H & _); by apply Ha in H]].
  destruct (SFleb _ _); [naive_solver |]. case_bool_decide as Hn; cbn [orb].
  - split; [done |]. intros (_ & _ & _ & H & H' & _). congruence.
  - case_bool_decide as Hn'; cbn [negb]; [| naive_solver]. split.
    + intros [= <-]. split_and!; try done; [by apply Ha | congruence].
    + intros (_ & _ & _ & _ & _ & ->). done.
Qed.

Lemma key_ok o now m kid k o' : key o now m kid = (Ok k, o') -> provider_key o m kid k /\ cfg o' = cfg o.
Proof.
  unfold key. destruct (default ∅ (keys o) !! kid) as [k0 |] eqn:Hk; [intros [= <- <-]; split; [by left | done] |].
  destruct (_ && _); [done |]. destruct (get_keys (JWKSURL m)) as [l |] eqn:Hl; [| done].
  destruct (fold_left add_key l ∅ !! kid) as [k1 |] eqn:Hk1; [| done]. intros [= <- <-]. split; [| done]. right. by exists l.
Qed.

Lemma verify_ok o m token nonce now cl o' : verify o m token nonce now = (Ok cl, o') -> valid_token o m token nonce now cl.
Proof.
  unfold verify. destruct (Split 46 token) as [| h [| p [| s [| ? ?]]]] eqn:Hs; try done.
  destruct (parse_header (b64 h)) as [[alg kid] |] eqn:Hh; [| done]. destruct (key o now m kid) as [[k | |] o1] eqn:Hk; [| done ..].
  destruct (key_ok _ _ _ _ _ _ Hk) as [Hp Hc]. cbn [mbind res_bind]. destruct (sig_ok _ _ _ _) eqn:Hsig; cbn [negb]; [| done].
  destruct (parse_claims (b64 p)) as [c |] eqn:Hcl; [| done]. rewrite Hc. intros [= (H1 & H2 & H3 & H4 & H5 & H6)%check_claims_ok <-].
  exists h, p, s, alg, kid, k, c. by split_and!.
Qed.

(** What a sign-in through the provider has shown: the cookie the panel set for
    it, the provider's answer to it, a valid ID token with a verified address, and
    the user bound to that address. *)
Definition vouched (svc : controller.Service) (o : oidcClient) (now : Z) (cookie : option bytes) (q : gmap bytes bytes) (row : store.user_row) : Prop :=
  exists state nonce verifier m o1 id_token cl,
      Split 46 (default [] cookie) = [state; nonce; verifier] /\ query q (str "state") = state /\ state <> []
      /\ discover o = (Ok m, o1) /\ valid_token o1 m id_token nonce now cl /\ Verified cl = true /\ Email cl <> []
      /\ row ∈ store.users (controller.st svc) /\ store.oidc_email row = Email cl.

Lemma oidcCallback_result svc o now redirect cookie q tok csrf r svc' o' : store.wf (controller.st svc) ->
  oidcCallback svc o now redirect cookie q tok csrf = (r, svc', o') ->
  match r with
  | Fail => svc' = svc
  | SignedIn token => exists row, vouched svc o now cookie q row /\ opens (controller.st svc') now token (randomToken csrf) row
  end.
Proof.
  intros Hd. unfold oidcCallback. destruct cookie as [c |]; [| by intros [= <- <- <-]].
  destruct (Split 46 c) as [| state [| nonce [| verifier [| ? ?]]]] eqn:Hs; try by intros [= <- <- <-].
  destruct (bool_decide (query q (str "state") = []) || _) eqn:H1; [by intros [= <- <- <-] |].
  apply orb_false_iff in H1 as [Hne%bool_decide_eq_false Hst%negb_false_iff%bool_decide_eq_true].
  destruct (negb (bool_decide (query q (str "error") = [])) || _); [by intros [= <- <- <-] |].
  destruct (exchange o redirect _ nonce verifier now) as [[cl | |] o2] eqn:Hex.
  2, 3: by intros [= <- <- <-].
  destruct (negb (Verified cl) || _) eqn:H2; [by intros [= <- <- <-] |].
  apply orb_false_iff in H2 as [Hv%negb_false_iff Hem%bool_decide_eq_false].
  unfold exchange in Hex. destruct (discover o) as [[m | |] o1] eqn:Hdis; [| done ..].
  destruct (post_token _ _) as [idt |]; [| done]. case_bool_decide; [done |]. apply verify_ok in Hex.
  unfold LoginOIDC. destruct (in_read svc _) as [u | |] eqn:Hu; [| by intros [= <- <- <-] ..].
  destruct (newSession svc now u _ tok csrf) as [x svc1] eqn:Hn. intros E.
  assert (r = match x with Ok t => SignedIn t | _ => Fail end /\ svc' = svc1) as [-> ->] by (destruct x; by injection E as <- <- <-).
  destruct x as [token | |]; [| by apply (newSession_err _ _ _ _ _ _ _ _ Hn) ..].
  apply in_read_ok in Hu as (d & Hu%login_tx_ok). unfold store.UserByOIDCEmail in Hu. rewrite bool_decide_eq_false_2 in Hu by done.
  apply store.tx_bind_ok in Hu as (row & d1 & Hrow & Hu). injection Hu as <- <-. unfold store.one in Hrow.
  destruct (List.find _ _) as [y |] eqn:Hf; [| done]. injection Hrow as -> <-. apply store.find_spec in Hf as [Hin Ho%bool_decide_eq_true].
  destruct (newSession_ok _ _ _ _ _ _ _ _ Hn) as (-> & _). exists row. split; [| exact (newSession_opens _ _ _ _ _ _ _ _ Hn row (find_uid _ row Hd Hin))].
  exists state, nonce, verifier, m, o1, idt, cl. split_and!; try done; congruence.
Qed.

(** C14: The callback of the provider signs in only the holder of the cookie the
    panel set for this sign-in, with the answer to it, and with an ID token that
    is signed by the provider for this client and this sign-in and has not
    expired; the session is for the one user whose account is bound to the
    address that the provider has verified, and is live up to the last whole
    second of its seven days. Otherwise nothing changes. *)
Theorem oidcCallback_spec svc o now redirect cookie q tok csrf r svc' o' : store.wf (controller.st svc) ->
  oidcCallback svc o now redirect cookie q tok csrf = (r, svc', o') ->
  match r with
  | Fail => svc' = svc
  | SignedIn token => exists state nonce verifier m o1 id_token cl row,
      Split 46 (default [] cookie) = [state; nonce; verifier] /\ query q (str "state") = state /\ state <> []
      /\ discover o = (Ok m, o1) /\ valid_token o1 m id_token nonce now cl /\ Verified cl = true /\ Email cl <> []
      /\ row ∈ store.users (controller.st svc) /\ store.oidc_email row = Email cl
      /\ exists sess, store.CSRF sess = randomToken csrf
      /\ forall t, live (controller.st svc') t token (store.scanUser row) sess <-> t <= (now + SessionTTL) / Second * Second
  end.
Proof.
  intros Hd H. pose proof (oidcCallback_result _ _ _ _ _ _ _ _ _ _ _ Hd H) as Hr. destruct r as [| token]; [exact Hr |].
  destruct Hr as (row & (state & nonce & verifier & m & o1 & idt & cl & Hv) & Ho).
  exists state, nonce, verifier, m, o1, idt, cl, row. destruct Hv as (? & ? & ? & ? & ? & ? & ? & ? & ?). by split_and!.
Qed.

End Provider.
End oidc.
