(* ===== verification/LoginExample.v ===== *)
(** A panel user with a second factor signs in; the theorems on signing in
    applied to that run, and
    twenty wrong passwords sent at once ([concurrent_guesses]). *)
From stdpp Require Import base list gmap strings.
From Stdlib Require Import ZArith Lia Sorted SpecFloat.
From S2P Require Import Prelude GoStrings GoText Netip Encoding Crypto Pki Store Controller Login LoginInv Oidc.

Open Scope Z_scope.

Module loginscenario.
Import login logins.

#[local] Instance plain : Crypto := {|
  sha256 m := take 32 (m ++ zeros 32); blake2s m := take 32 (m ++ zeros 32);
  hkdf s salt l n := take n (s ++ zeros n); aes128 k b := k;
  secretbox_seal m n k := zeros 16 ++ m; secretbox_open c n k := Some (drop 16 c);
  x25519 s := s; box_seal m n p s := zeros 16 ++ m; box_open c n p s := Some (drop 16 c);
  anon_seal m p r := zeros 48 ++ m; anon_open c p s := Some (drop 48 c);
  ed_public s := s; ed_sign s m := s; ed_verify p m s := bool_decide (p = s) |}.
#[local] Instance no_aead : Aead := {| aead_seal := fun _ _ m => m; aead_open := fun _ _ c => Some c |}.

(** The code of a step is its last six digits. *)
#[local] Instance plain_auth : Auth := {|
  IDKey pw salt t m p n := take (Z.to_nat n) (map u8 pw ++ zeros (Z.to_nat n));
  scan_mtp s := if bool_decide (s = mtp) then Some (argonMemory, argonTime, argonThreads) else None;
  hmac_sha1 k m := take 4 (drop 4 m ++ zeros 4) ++ zeros 16 |}.
#[local] Instance plain_laws : AuthLaws plain_auth.
Proof.
  split.
  - intros k m. simpl. rewrite length_app, length_take, length_app. unfold zeros. rewrite !length_replicate. lia.
  - intros pw salt t m p n Hn. unfold zlen. simpl. rewrite length_take, length_app. unfold zeros. rewrite length_replicate. lia.
  - intros pw salt t m p n. simpl. apply Forall_take, Forall_app. split; [| by apply Forall_replicate].
    apply Forall_map, Forall_true. intros x. unfold byte_ok, u8. by apply Z.mod_pos_bound.
  - reflexivity.
Qed.

Definition pw : bytes := str "correct horse".
Definition salt : bytes := zeros 16.
Definition secret : bytes := str "12345678901234567890".
Definition root : store.user_row :=
  store.MkUserRow (store.MkUser 1 (str "root") (HashPassword pw salt) true 0 false) (Some secret) 5 (str "root@example.org").
Definition d0 : store.db := store.MkDb 1 [root] [] [] [] [] [] [] [].
Definition s0 : controller.Service := controller.NewService d0.
Definition now : Z := 600 * Second.
Definition tok : bytes := replicate 32 7.
Definition csrf : bytes := replicate 32 8.
Definition token : bytes := randomToken tok.
Definition s1 : controller.Service := (Login None s0 now (str "root") pw (str "000020") tok csrf).2.

Lemma d0_wf : store.wf d0.
Proof. split; vm_compute; repeat constructor; try (intros H; by apply elem_of_nil in H). Qed.

Lemma signed_in : Login None s0 now (str "root") pw (str "000020") tok csrf = (Ok token, s1).
Proof. vm_compute. reflexivity. Qed.

Lemma codes_once_witness : map snd (try_codes None 1 [(now, str "000020"); (now, str "000020"); (now, str "000019"); (now, str "000021")] d0).1 = [20; 21]
  /\ StronglySorted Z.lt [5; 20; 21].
Proof.
  split; [vm_compute; reflexivity |].
  destruct (codes_once None 1 secret [(now, str "000020"); (now, str "000020"); (now, str "000019"); (now, str "000021")] d0 d0_wf) as [H _];
    [vm_compute; reflexivity | exact H].
Defined.

Lemma CheckPassword_HashPassword_witness : bytes_ok salt /\ CheckPassword (HashPassword pw salt) pw = Ok true
  /\ CheckPassword (HashPassword pw salt) (str "wrong horse") = Ok false.
Proof.
  assert (bytes_ok salt) as Hs by (by apply Forall_replicate). split; [exact Hs |].
  split; (etransitivity; [apply CheckPassword_HashPassword; exact Hs | vm_compute; reflexivity]).
Defined.

Lemma Login_spec_witness : exists row, proved None s0 s1 now (str "root") pw (str "000020") row
  /\ exists sess, live (controller.st s1) (now + SessionTTL) token (store.scanUser row) sess
       /\ ~ live (controller.st s1) (now + SessionTTL + 1) token (store.scanUser row) sess.
Proof.
  destruct (Login_spec None s0 now (str "root") pw (str "000020") tok csrf (Ok token) s1 d0_wf signed_in) as (_ & row & Hp & sess & _ & Hl).
  exists row. split; [exact Hp |]. exists sess. split; [apply Hl; vm_compute; discriminate |].
  intros H%Hl. vm_compute in H. by apply H.
Defined.

Lemma Logout_spec_witness : exists s2, Logout s1 (now + 1) token = (Ok tt, s2) /\ forall t u sess, ~ live (controller.st s2) t token u sess.
Proof.
  destruct (Logout s1 (now + 1) token) as [r s2] eqn:E. exists s2.
  destruct (Logout_spec s1 (now + 1) token r s2 E) as (-> & H & _). split; [reflexivity | exact H].
Defined.

(** Ten wrong passwords, one after another within ten seconds: the eleventh is not
    looked at. *)
Definition guesser : bytes := str "192.0.2.1".
Definition attempts : list call :=
  flat_map (fun i => [Ask guesser (Z.of_nat i * Second); Wrong guesser (Z.of_nat i * Second)]) (seq 0 10).
Definition guessed : signing := default (MkSigning ∅ ∅) (signing_run attempts).

Lemma sorted_check cs : forallb (fun p => call_time p.1 <=? call_time p.2) (zip cs (tail cs)) = true -> clocked cs.
Proof.
  intros H. apply Sorted_StronglySorted; [intros x y z; lia |]. induction cs as [| c [| c' cs] IH]; [by constructor | by repeat constructor |].
  simpl in H. apply andb_true_iff in H as [H1 H2]. constructor; [by apply IH | constructor; by apply Z.leb_le].
Qed.

Lemma ten_failures_witness :
  (allowed (lim guessed) guesser (10 * Second)).1 = false
  /\ ((allowed (lim guessed) guesser (10 * Second)).1 = true <-> (length (recent (10 * Second) (of_addr guesser (told attempts))) < 10)%nat).
Proof.
  split; [vm_compute; reflexivity |].
  assert (signing_run attempts = Some guessed) as Hrun by (vm_compute; reflexivity).
  apply (ten_failures attempts guessed Hrun).
  - apply sorted_check. vm_compute. reflexivity.
  - intros c Hc. apply Z.leb_le.
    assert (forallb (fun c => call_time c <=? 10 * Second) attempts = true) as Ha by (vm_compute; reflexivity).
    rewrite forallb_forall in Ha. by apply Ha, list_elem_of_In.
Defined.

(** Sign-ins that run at the same time all ask before the first is told of:
    twenty wrong passwords of one address are looked at in one second. *)
Definition at_the_same_time : list call := replicate 20 (Ask guesser 0) ++ replicate 20 (Wrong guesser Second).

Theorem concurrent_guesses : exists s, signing_run at_the_same_time = Some s /\ clocked at_the_same_time
  /\ length (recent Second (of_addr guesser (wrongs at_the_same_time))) = 20%nat.
Proof.
  destruct (signing_run at_the_same_time) as [s |] eqn:E; [| vm_compute in E; discriminate E].
  exists s. split; [done |]. split; [by apply sorted_check | done].
Qed.

(** ** A provider *)

Definition claims : oidc.token_claims :=
  oidc.MkTokenClaims (str "https://id") [1] (oidc.float64 1000) (str "nonce") (str "Root@Example.org") true.
Definition provider_meta : oidc.oidcMeta := oidc.MkMeta (str "https://id/auth") (str "https://id/token") (str "https://id/keys") (str "https://id").
#[local] Instance provider : oidc.Provider := {|
  oidc.get_meta _ := Some provider_meta;
  oidc.get_keys _ := Some [oidc.MkJwk (str "EC") (str "k1") (str "P-256") [] [] (str "AQ") (str "Ag")];
  oidc.post_token _ _ := Some (str "AA.AA." ++ replicate 86 65);
  oidc.parse_header _ := Some (str "ES256", str "k1");
  oidc.parse_claims _ := Some claims;
  oidc.parse_strings _ := Some [str "panel"];
  oidc.parse_string _ := [];
  oidc.on_P256 _ _ := true;
  oidc.rsa_verify _ _ _ _ := false;
  oidc.ecdsa_verify _ _ _ _ _ := true |}.

Definition client : oidc.oidcClient := oidc.MkClient (oidc.MkConfig (str "https://id") (str "panel") (str "s")) None None 0.
Definition answer : gmap bytes bytes := <[str "state" := str "st"]> {[str "code" := str "c"]}.
Definition callback := oidc.oidcCallback s0 client now (str "https://p/cb") (Some (str "st.nonce.ver")) answer tok csrf.

Lemma oidcCallback_spec_witness : exists row, row ∈ store.users d0 /\ store.oidc_email row = str "root@example.org"
  /\ exists sess, live (controller.st callback.1.2) now token (store.scanUser row) sess.
Proof.
  destruct (oidc.oidcCallback_spec s0 client now (str "https://p/cb") (Some (str "st.nonce.ver")) answer tok csrf
    (oidc.SignedIn token) callback.1.2 callback.2 d0_wf) as (state & nonce & verifier & m & o1 & idt & cl & row & _ & _ & _ & Hm & Hv & _ & _ & Hrow & He & Hl).
  - vm_compute. reflexivity.
  - exists row. split; [exact Hrow |]. split.
    + rewrite He. destruct Hv as (h & p & sg & alg & kid & k & c & _ & _ & _ & _ & Hc & _ & _ & _ & _ & _ & ->).
      injection Hc as <-. vm_compute. reflexivity.
    + destruct Hl as (sess & _ & Hl). exists sess. apply Hl. vm_compute. discriminate.
Defined.

End loginscenario.
