(* ===== verification/Server.v ===== *)
(** The controller's HTTP server (internal/controller/server.go, nodeapi.go,
    panel.go, oidc_panel.go): the routes, who a request is from, every handler
    of the panel and of the node API, and where requests come from.

    A request is what net/http hands a handler: the method, the decoded path
    segments, cookies, query, posted form and body. A handler is a function of
    the server's state and the request that returns the answer and the new
    state. Templates, QR images and the SVG drawing of a room are not modelled:
    a page is its name and the data it is given. *)
From stdpp Require Import base list gmap strings.
From Stdlib Require Import ZArith Lia.
From S2P Require Import Prelude GoStrings GoText Netip NetText Encoding Crypto Obfs Identity Pki Store Controller Login Oidc Vless.

Open Scope Z_scope.

Module server.

Definition maxBody : Z := 64 * 1024.
Definition sessionCookie : bytes := str "zpt_session".
Definition oidcCookie : bytes := str "zpt_oidc".

(** ** Requests and settings *)

Record Request := MkRequest {
  Method : bytes; Segments : list bytes; Path : bytes; Host : bytes; TLS : bool; RemoteAddr : bytes;
  Header : bytes -> bytes; Cookie : bytes -> option bytes; Query : gmap bytes bytes; Form : bytes -> bytes;
  (** the body, [None] when reading it failed *)
  Body : option bytes }.

(** Settings of the server; [OIDCName] is [OIDC.Name]. *)
Record Config := MkConfig {
  PublicURL : bytes; TrustProxy : bool; STUNListen : list bytes; STUNPublic : list bytes;
  RelayListen : bytes; RelayPublic : bytes; VLESSListen : bytes; VLESSPublic : bytes;
  VLESSServerNames : list bytes; OIDCName : bytes }.

(** The keys of the VLESS entrance. *)
Record VLESSSecrets := MkVLESS { vs_PublicKey : bytes; vs_ShortID : bytes; vs_User : bytes }.

(** [relay] is the relay's public key, when this server runs one. *)
Record Server := MkServer {
  cfg : Config; svc : controller.Service; limiter : login.loginLimiter;
  relay : option bytes; vless_ : option VLESSSecrets; oidc_ : option oidc.oidcClient }.

Definition with_svc (h : Server) (s : controller.Service) : Server := MkServer (cfg h) s (limiter h) (relay h) (vless_ h) (oidc_ h).
Definition with_limiter (h : Server) (l : login.loginLimiter) : Server := MkServer (cfg h) (svc h) l (relay h) (vless_ h) (oidc_ h).
Definition with_oidc (h : Server) (o : oidc.oidcClient) : Server := MkServer (cfg h) (svc h) (limiter h) (relay h) (vless_ h) (Some o).

(** ** Where a request comes from *)

(** The last item of a comma-separated header. *)
Definition last_item (xff : bytes) : bytes :=
  let i := LastIndexByte xff 44 in if i <? 0 then xff else sub xff (i + 1) (zlen xff).

Definition remoteIP (c : Config) (r : Request) : Addr :=
  match ParseAddrPort (RemoteAddr r) with
  | None => AddrZero
  | Some ap =>
    let ip := Unmap (ap_addr ap) in
    if TrustProxy c && (IsLoopback ip || IsPrivate ip) then
      let xff := Header r (str "X-Forwarded-For") in
      if bool_decide (xff = []) then ip
      else match ParseAddr (TrimSpace (last_item xff)) with Some a => Unmap a | None => ip end
    else ip
  end.

Definition forwarded_https (c : Config) (r : Request) : bool :=
  TrustProxy c && bool_decide (Header r (str "X-Forwarded-Proto") = str "https").

Definition secureCookies (c : Config) (r : Request) : bool :=
  TLS r || HasPrefix (PublicURL c) (str "https://") || forwarded_https c r.

Definition publicURL (c : Config) (r : Request) : bytes :=
  if negb (bool_decide (PublicURL c = [])) then PublicURL c
  else (if TLS r || forwarded_https c r then str "https" else str "http") ++ str "://" ++ Host r.

(** net/url and encoding/json: the host of a URL ([] when it does not parse), the
    three node requests, the two answers. *)
Record VLESS := MkVLESSInfo { x_Addr : bytes; x_ServerName : bytes; x_PublicKey : bytes; x_ShortID : bytes; x_User : bytes }.
Record Relay := MkRelay { y_Addr : bytes; y_Key : bytes; y_VLESS : option VLESS }.
Class Web := {
  url_host : bytes -> bytes;
  parse_join : bytes -> option controller.JoinRequest;
  parse_poll : bytes -> option controller.PollRequest;
  parse_leave : bytes -> option bytes;
  marshal_join : controller.JoinResponse -> option bytes;
  marshal_map : controller.NetMap -> list bytes -> list Relay -> option bytes }.

(** ** What the panel says *)

Inductive perror : Type :=
  | PErr (e : login.error) | PSecret | PMismatch | PDenied (what : bytes) | PNumber | PBackup.
Inductive text : Type := TBytes (b : bytes) | TExplain (e : perror).

Definition userMessage (e : perror) : text :=
  match e with
  | PErr (login.EService controller.ErrForbidden) => TBytes (str "нет доступа")
  | PErr (login.EService (controller.EStore store.ErrNotFound)) => TBytes (str "не найдено")
  | PErr (login.EService (controller.EInvalid _)) | PErr login.EPasswordShort | PErr login.ELogin | PErr (login.EExists _)
  | PErr (login.EHasRooms _ _) | PErr login.EWrongPassword | PErr login.EWrongCode | PErr login.EEmail
  | PSecret | PMismatch | PDenied _ => TExplain e
  | _ => TBytes (str "внутренняя ошибка, см. журнал контроллера")
  end.

(** ** Answers *)

Record Dashboard := MkDashboard {
  d_Rooms : Z; d_Members : Z; d_Pending : Z; d_Nodes : Z; d_Online : Z; d_Direct : Z; d_Relayed : Z; d_Exits : Z;
  d_Rows : list (store.Room * Z * Z * Z) (* room, members, online, pending *) }.

Inductive page : Type :=
  | PLogin (oidc : bytes) | PRooms (rooms : list store.Room)
  | PRoom (v : controller.RoomView) (paths : list controller.PathStats) (invite : option controller.ApiInvite)
  | PUsers (users : list store.User) | PAccount (secret : option bytes) | PAudit (entries : list store.AuditEntry)
  | PDashboard (d : Dashboard) (relay_stats : bool).

Inductive response : Type :=
  | NotHandled                                          (* no route, or the path is redirected to its clean form *)
  | Crash                                               (* a panic: net/http drops the connection *)
  | ErrorPage (status : Z)
  | Redirect (path : bytes) (err ok : text)             (* 303 *)
  | SignIn (token : bytes) (secure : bool)              (* 303 to /rooms with the session's cookie *)
  | SignOut                                             (* 303 to /login, the cookie dropped *)
  | ToProvider (url : bytes) (query : list (bytes * bytes)) (cookie : bytes) (secure : bool)
  | Page (status : Z) (p : page) (err ok : text)
  | Download
  | Static | Healthy
  | Json (status : Z)
  | SealedBody (b : bytes)
  | Waiting (nodeID boxKey : bytes) (g : nat)           (* a poll: the answer comes when generation [g] ends *).

Definition none : text := TBytes [].

(** [back]. *)
Definition back (path : bytes) (e : option perror) (ok : bytes) : response :=
  match e with Some e => Redirect path (userMessage e) none | None => Redirect path none (TBytes ok) end.

(** [render]: messages come from the query when the handler has none. *)
Definition render (r : Request) (status : Z) (p : page) (err ok : text) : response :=
  let or_query (t : text) (k : bytes) := match t with TBytes [] => TBytes (oidc.query (Query r) k) | _ => t end in
  Page status p (or_query err (str "err")) (or_query ok (str "ok")).

(** ** Routes *)

Inductive route : Type :=
  | HStatic | HHealth | HLoginPage | HLogin | HOidcStart | HOidcCallback
  | HJoin | HPoll | HLeave
  | HLogout | HHome | HDashboard | HRooms | HRoomCreate
  | HRoom (id : bytes) | HSettings (id : bytes) | HACL (id : bytes) | HACLTest (id : bytes) | HDelete (id : bytes)
  | HInvite (id : bytes) | HRevoke (id inv : bytes)
  | HMember (id node : bytes) | HUseExit (id node : bytes) | HAction (id node action : bytes)
  | HUsers | HUserCreate | HUserDelete (uid : bytes)
  | HAccount | HPassword | HTOTPOn | HTOTPOff | HAudit | HBackup.

Definition eqs (a : bytes) (s : string) : bool := bool_decide (a = str s).

Definition get_route (segs : list bytes) : option route :=
  match segs with
  | [a] =>
    if eqs a "" then Some HHome else if eqs a "login" then Some HLoginPage else if eqs a "dashboard" then Some HDashboard
    else if eqs a "rooms" then Some HRooms else if eqs a "users" then Some HUsers else if eqs a "account" then Some HAccount
    else if eqs a "audit" then Some HAudit else if eqs a "backup" then Some HBackup else if eqs a "healthz" then Some HHealth
    else None
  | a :: b :: r =>
    if eqs a "static" then Some HStatic
    else match r with
    | [] => if eqs a "login" && eqs b "oidc" then Some HOidcStart
            else if eqs a "rooms" && negb (eqs b "") then Some (HRoom b) else None
    | [c] => if eqs a "login" && eqs b "oidc" && eqs c "callback" then Some HOidcCallback else None
    | _ => None
    end
  | [] => None
  end.

Definition post_route (segs : list bytes) : option route :=
  match segs with
  | [a] => if eqs a "login" then Some HLogin else if eqs a "logout" then Some HLogout
           else if eqs a "rooms" then Some HRoomCreate else if eqs a "users" then Some HUserCreate else None
  | [a; b] => if eqs a "account" then (if eqs b "password" then Some HPassword else if eqs b "totp" then Some HTOTPOn else None)
              else None
  | [a; b; c] =>
    if eqs a "rooms" then
      if eqs c "settings" then Some (HSettings b) else if eqs c "acl" then Some (HACL b)
      else if eqs c "acl-test" then Some (HACLTest b) else if eqs c "delete" then Some (HDelete b)
      else if eqs c "invites" then Some (HInvite b) else None
    else if eqs a "users" && eqs c "delete" then Some (HUserDelete b)
    else if eqs a "account" && eqs b "totp" && eqs c "off" then Some HTOTPOff else None
  | [a; b; c; d] =>
    if eqs a "api" && eqs b "v1" && eqs c "node" then
      if eqs d "join" then Some HJoin else if eqs d "poll" then Some HPoll else if eqs d "leave" then Some HLeave else None
    else None
  | [a; b; c; d; e] =>
    if eqs a "rooms" && eqs c "invites" && eqs e "revoke" then Some (HRevoke b d)
    else if eqs a "rooms" && eqs c "members" && negb (eqs e "") then
      Some (if eqs e "update" then HMember b d else if eqs e "use-exit" then HUseExit b d else HAction b d e)
    else None
  | _ => None
  end.

(** A path the mux hands to a handler: no empty segment but a last one, no dots. *)
Definition clean_path (segs : list bytes) : bool :=
  forallb (fun s => negb (eqs s "") && negb (eqs s ".") && negb (eqs s "..")) (removelast segs)
  && match last segs with Some s => negb (eqs s ".") && negb (eqs s "..") | None => false end.

Definition is_post (r : Request) : bool := eqs (Method r) "POST".
Definition find_route (r : Request) : option route :=
  if negb (clean_path (Segments r)) then None
  else if eqs (Method r) "GET" || eqs (Method r) "HEAD" then get_route (Segments r)
  else if is_post r then post_route (Segments r) else None.

Definition action_of (a : bytes) : controller.Action :=
  if eqs a "approve" then controller.ActApprove else if eqs a "ban" then controller.ActBan
  else if eqs a "unban" then controller.ActUnban else if eqs a "kick" then controller.ActKick
  else if eqs a "routes" then controller.ActRoutes else if eqs a "noroutes" then controller.ActNoRoutes
  else if eqs a "exit" then controller.ActExit else if eqs a "noexit" then controller.ActNoExit
  else controller.ActOther a.

Definition action_done (a : controller.Action) : bytes :=
  match a with
  | controller.ActApprove => str "Участник одобрен" | controller.ActBan => str "Участник заблокирован"
  | controller.ActUnban => str "Блокировка снята" | controller.ActKick => str "Участник исключён"
  | controller.ActRoutes => str "Маршруты разрешены" | controller.ActNoRoutes => str "Маршруты отозваны"
  | controller.ActExit => str "Exit-узел разрешён" | controller.ActNoExit => str "Exit-узел отозван"
  | controller.ActOther _ => []
  end.

(** The random values of one request, and how copying the database went. *)
Record randoms := MkRandoms {
  x_tok : bytes; x_csrf : bytes; x_room : controller.room_rnd; x_invite : bytes; x_password : bytes; x_salt : bytes;
  x_nonce : bytes; x_totp : bytes; x_state : bytes; x_oidc : bytes; x_verifier : bytes; x_seal : bytes;
  x_tempdir : bool; x_backup : res controller.error unit; x_opened : bool }.

(** ** The dashboard (dashboard.go) *)

(** One member's row: the counters, and the nodes seen so far. *)
Definition count_member (s : controller.Service) (now : Z) (acc : Dashboard * (Z * Z * Z) * gset bytes) (m : store.Member)
    : Dashboard * (Z * Z * Z) * gset bytes :=
  let '(d, (members, online, pending), seen) := acc in
  let row := store.m_row m in
  if bool_decide (store.Status row = store.StatusPending) then (d, (members, online, pending + 1), seen)
  else if negb (bool_decide (store.Status row = store.StatusActive)) then acc
  else
    let up := time_sub now (store.m_LastSeen m * Second) <? controller.OnlineWindow in
    let row_counts := (members + 1, (if up then online + 1 else online), pending) in
    let exits := if store.Exit row && store.ExitOffered m then d_Exits d + 1 else d_Exits d in
    let id := store.m_NodeID row in
    if bool_decide (id ∈ seen) then
      (MkDashboard (d_Rooms d) (d_Members d) (d_Pending d) (d_Nodes d) (d_Online d) (d_Direct d) (d_Relayed d) exits (d_Rows d), row_counts, seen)
    else
      let p := if up then controller.Paths s id else controller.MkPathStats 0 0 in
      (MkDashboard (d_Rooms d) (d_Members d) (d_Pending d) (d_Nodes d + 1) (if up then d_Online d + 1 else d_Online d)
         (d_Direct d + controller.Direct p) (d_Relayed d + controller.RelayPaths p) exits (d_Rows d), row_counts, {[id]} ∪ seen).

Definition count_room (s : controller.Service) (now : Z) (r : store.Room) (ms : list store.Member) (acc : Dashboard * gset bytes)
    : Dashboard * gset bytes :=
  let '(d, (members, online, pending), seen) := fold_left (count_member s now) ms (acc.1, (0, 0, 0), acc.2) in
  (MkDashboard (d_Rooms d) (d_Members d + members) (d_Pending d + pending) (d_Nodes d) (d_Online d) (d_Direct d) (d_Relayed d)
     (d_Exits d) (d_Rows d ++ [(r, members, online, pending)]), seen).

Fixpoint count_rooms (s : controller.Service) (now : Z) (rooms : list store.Room) (acc : Dashboard * gset bytes)
    : controller.Tx Dashboard :=
  match rooms with
  | [] => mret acc.1
  | r :: rooms =>
    ms ← controller.tx (store.ListMembers (store.r_ID r));
    count_rooms s now rooms (count_room s now r ms acc)
  end.

Section Server.
Context `{CR : Crypto} `{A : Aead} `{J : pki.Json} `{AU : login.Auth} `{P : oidc.Provider} `{W : Web} (kek : option bytes).
Context (EqualFold : bytes -> bytes -> bool).

Definition Dashboard_ (s : controller.Service) (now : Z) (u : store.User) : res controller.error Dashboard :=
  rooms ← controller.Rooms kek s u;
  controller.Read s (count_rooms s now rooms (MkDashboard (zlen rooms) 0 0 0 0 0 0 0 [], ∅)).

Definition Audit (s : controller.Service) (u : store.User) (limit : nat) : res login.error (list store.AuditEntry) :=
  if negb (store.IsAdmin u) then Err (login.EService controller.ErrForbidden)
  else login.in_read s (login.tx (store.ListAudit limit)).

(** ** What nodes are told about this server *)

Definition publicHost (c : Config) (r : Request) : bytes :=
  let host := if bool_decide (url_host (PublicURL c) = []) then Host r else url_host (PublicURL c) in
  match SplitHostPort host with Some (hh, _) => hh | None => host end.

Definition stunServers (c : Config) (r : Request) : list bytes :=
  match STUNPublic c with
  | _ :: _ => STUNPublic c
  | [] => omap (fun l => '(_, port) ← SplitHostPort l; Some (JoinHostPort (publicHost c r) port)) (STUNListen c)
  end.

Definition relay_entry (c : Config) (r : Request) (key addr : bytes) (v : option VLESSSecrets) : res controller.error (list Relay) :=
  match v with
  | None => Ok [MkRelay addr key None]
  | Some v =>
    let vaddr := if bool_decide (VLESSPublic c = []) then
                   match SplitHostPort (VLESSListen c) with Some (_, port) => JoinHostPort (publicHost c r) port | None => [] end
                 else VLESSPublic c in
    name ← index (VLESSServerNames c) 0;
    Ok [MkRelay addr key (Some (MkVLESSInfo vaddr name (vs_PublicKey v) (hex_encode (vs_ShortID v)) (vless.UUID_String (vs_User v))))]
  end.

Definition relays (h : Server) (r : Request) : res controller.error (list Relay) :=
  match relay h with
  | None => Ok []
  | Some key =>
    if bool_decide (RelayPublic (cfg h) = []) then
      match SplitHostPort (RelayListen (cfg h)) with
      | None => Ok []
      | Some (_, port) => relay_entry (cfg h) r key (JoinHostPort (publicHost (cfg h) r) port) (vless_ h)
      end
    else relay_entry (cfg h) r key (RelayPublic (cfg h)) (vless_ h)
  end.

(** ** The node API *)

(** [nodeRequest] before the JSON: the signing key and the body. *)
Definition nodeRequest (now : Z) (r : Request) : response + bytes * bytes :=
  match Body r with
  | None => inl (Json 413)
  | Some body =>
    let body := take (Z.to_nat (maxBody + 1)) body in
    if maxBody <? zlen body then inl (Json 413)
    else match pki.VerifyRequest (Header r) (Method r) (Path r) body now with
         | Ok key => inr (key, body)
         | Err _ => inl (Json 401)
         | Panic => inl Crash
         end
  end.

Definition api_answer {B} (r : res controller.error B) (ok : B -> response) : response :=
  match r with Ok b => ok b | Err e => Json (controller.apiStatus e) | Panic => Crash end.

Definition sealed (b : option bytes) (to rnd : bytes) : response :=
  match b with Some b => SealedBody (pki.Seal b to rnd) | None => Json 500 end.

Definition handleJoin (h : Server) (now : Z) (x : randoms) (r : Request) : response * Server :=
  match nodeRequest now r with
  | inl e => (e, h)
  | inr (key, body) =>
    match parse_join body with
    | None => (Json 400, h)
    | Some req =>
      let '(a, s) := controller.Join kek (svc h) now key req (remoteIP (cfg h) r) in
      (api_answer a (fun resp => sealed (marshal_join resp) (controller.j_BoxKey req) (x_seal x)), with_svc h s)
    end
  end.

(** The end of [handlePoll]: the map of the moment the wait is over. *)
Definition pollReply (h : Server) (now : Z) (x : randoms) (r : Request) (nodeID boxKey : bytes) : response :=
  match controller.netMap kek (svc h) now nodeID (remoteIP (cfg h) r) with
  | Ok nm =>
    match relays h r with
    | Ok rs => sealed (marshal_map nm (stunServers (cfg h) r) rs) boxKey (x_seal x)
    | Err e => Json (controller.apiStatus e)
    | Panic => Crash
    end
  | Err e => Json (controller.apiStatus e)
  | Panic => Crash
  end.

Definition handlePoll (h : Server) (now : Z) (x : randoms) (r : Request) : response * Server :=
  match nodeRequest now r with
  | inl e => (e, h)
  | inr (key, body) =>
    match parse_poll body with
    | None => (Json 400, h)
    | Some req =>
      let '(a, s) := controller.Poll (svc h) now key req (remoteIP (cfg h) r) in
      let h := with_svc h s in
      let id := identity.NodeIDFromPublic key in
      (api_answer a (fun bw => match bw.2 with
                               | Some g => Waiting id bw.1 g
                               | None => pollReply h now x r id bw.1
                               end), h)
    end
  end.

Definition handleLeave (h : Server) (now : Z) (r : Request) : response * Server :=
  match nodeRequest now r with
  | inl e => (e, h)
  | inr (key, body) =>
    match parse_leave body with
    | None => (Json 400, h)
    | Some room =>
      let '(a, s) := controller.Leave (svc h) now key room in
      (match a with
       | Err (controller.EStore store.ErrNotFound) => Json 200
       | _ => api_answer a (fun _ => Json 200)
       end, with_svc h s)
    end
  end.

End Server.

End server.
