(* ===== verification/Panel.v ===== *)
(** The handlers of the controller's panel and the whole HTTP handler
    (internal/controller/panel.go, oidc_panel.go, server.go): [serve] is one
    request. *)
From stdpp Require Import base list gmap strings.
From Stdlib Require Import ZArith Lia.
From S2P Require Import Prelude GoStrings GoText Netip NetText Encoding Crypto Identity Pki Store Controller Login Oidc Server.

Open Scope Z_scope.

Module panel.
Import server.

Section Panel.
Context `{CR : Crypto} `{A : Aead} `{J : pki.Json} `{AU : login.Auth} `{P : oidc.Provider} `{W : Web} (kek : option bytes).
Context (EqualFold : bytes -> bytes -> bool).

(** ** Errors and answers of the service *)

Definition ctl_err (e : controller.error) : perror := PErr (login.EService e).

(** An operation of the service, then [back] to [path]. *)
Definition finish {B E} (h : Server) (path ok : bytes) (f : E -> perror) (r : res E B * controller.Service) : response * Server :=
  (match r.1 with Ok _ => back path None ok | Err e => back path (Some (f e)) [] | Panic => Crash end, with_svc h r.2).

Definition room_path (id : bytes) : bytes := str "/rooms/" ++ id.

(** ** Signing in and out *)

Definition oidcName (h : Server) : bytes :=
  match oidc_ h with
  | None => []
  | Some _ => if bool_decide (OIDCName (cfg h) = []) then str "единый вход" else OIDCName (cfg h)
  end.
Definition oidcRedirect (h : Server) (r : Request) : bytes := publicURL (cfg h) r ++ str "/login/oidc/callback".
Definition remote (h : Server) (r : Request) : bytes := Addr_String (remoteIP (cfg h) r).

Definition loginPage (h : Server) (r : Request) : response := render r 200 (PLogin (oidcName h)) none none.

Definition too_many : text := TBytes (str "Слишком много неудачных попыток. Подождите 10 минут.").
Definition bad_login : text := TBytes (str "Неверный логин, пароль или код").

Definition loginSubmit (h : Server) (now : Z) (x : randoms) (r : Request) : response * Server :=
  let '(ok, l) := login.allowed (limiter h) (remote h r) now in
  let h := with_limiter h l in
  if negb ok then (render r 429 (PLogin []) too_many none, h)
  else
    let '(a, s) := login.Login kek (svc h) now (ToLower (TrimSpace (Form r (str "login")))) (Form r (str "password"))
                     (Form r (str "code")) (x_tok x) (x_csrf x) in
    let h := with_svc h s in
    match a with
    | Ok token => (SignIn token (secureCookies (cfg h) r), h)
    | Err _ => (render r 401 (PLogin []) bad_login none, with_limiter h (login.failed (limiter h) (remote h r) now))
    | Panic => (Crash, h)
    end.

Definition logout (h : Server) (now : Z) (r : Request) : response * Server :=
  match Cookie r sessionCookie with
  | Some token => (SignOut, with_svc h (snd (login.Logout (svc h) now token)))
  | None => (SignOut, h)
  end.

(** [oidcFail]; its message is not modelled. *)
Definition oidcFail (h : Server) (now : Z) (r : Request) : response * Server :=
  let h := with_limiter h (login.failed (limiter h) (remote h r) now) in
  (render r 401 (PLogin (oidcName h)) bad_login none, h).

Definition oidcStart (h : Server) (now : Z) (x : randoms) (r : Request) : response * Server :=
  match oidc_ h with
  | None => (ErrorPage 404, h)
  | Some o =>
    let '(ok, l) := login.allowed (limiter h) (remote h r) now in
    let h := with_limiter h l in
    if negb ok then (render r 429 (PLogin (oidcName h)) too_many none, h)
    else
      let '(m, o) := oidc.discover o in
      let h := with_oidc h o in
      match m with
      | Ok m =>
        let state := encode64url (x_state x) in let nonce := encode64url (x_oidc x) in let verifier := encode64url (x_verifier x) in
        (ToProvider (oidc.AuthURL m) (oidc.authQuery o (oidcRedirect h r) state nonce verifier)
           (state ++ 46 :: nonce ++ 46 :: verifier) (secureCookies (cfg h) r), h)
      | _ => oidcFail h now r
      end
  end.

Definition oidcCallback (h : Server) (now : Z) (x : randoms) (r : Request) : response * Server :=
  match oidc_ h with
  | None => (ErrorPage 404, h)
  | Some o =>
    let '(out, s, o) := oidc.oidcCallback (svc h) o now (oidcRedirect h r) (Cookie r oidcCookie) (Query r) (x_tok x) (x_csrf x) in
    let h := with_oidc (with_svc h s) o in
    match out with
    | oidc.SignedIn token => (SignIn token (secureCookies (cfg h) r), h)
    | oidc.Fail => oidcFail h now r
    end
  end.

(** ** Rooms *)

Definition roomsPage (h : Server) (r : Request) (u : store.User) : response :=
  match controller.Rooms kek (svc h) u with
  | Ok rooms => render r 200 (PRooms rooms) none none
  | Err e => render r 200 (PRooms []) (userMessage (ctl_err e)) none
  | Panic => Crash
  end.

Definition roomCreate (h : Server) (now : Z) (x : randoms) (r : Request) (u : store.User) : response * Server :=
  let '(a, s) := controller.CreateRoom kek (svc h) now u (Form r (str "name")) (Form r (str "subnet")) (Form r (str "policy")) (x_room x) in
  (match a with
   | Ok room => back (room_path (store.r_ID room)) None (str "Комната создана. Создайте приглашение, чтобы позвать участников.")
   | Err e => back (str "/rooms") (Some (ctl_err e)) []
   | Panic => Crash
   end, with_svc h s).

Definition roomView (h : Server) (now : Z) (r : Request) (u : store.User) (id : bytes) (invite : option controller.ApiInvite) : response :=
  match controller.Room kek (svc h) now u id with
  | Ok v => render r 200 (PRoom v (map (fun m => controller.Paths (svc h) (store.m_NodeID (store.m_row m))) (controller.v_Members v)) invite) none none
  | Err e => back (str "/rooms") (Some (ctl_err e)) []
  | Panic => Crash
  end.

(** [roomSettings]: three transactions, each after the one before succeeded. *)
Definition roomSettings (h : Server) (now : Z) (r : Request) (u : store.User) (id : bytes) : response * Server :=
  let ok := str "Настройки сохранены" in
  let r1 := controller.UpdateRoom kek (svc h) now u id (Form r (str "name")) (Form r (str "policy")) (Form r (str "broadcast")) in
  match r1.1 with
  | Ok _ =>
    let r2 := controller.SetRoomDNS kek r1.2 now u id (Form r (str "dns")) in
    match r2.1 with
    | Ok _ => finish h (room_path id) ok ctl_err (controller.SetRoomDHT kek r2.2 now u id (bool_decide (Form r (str "dht") = str "on")))
    | _ => finish h (room_path id) ok ctl_err r2
    end
  | _ => finish h (room_path id) ok ctl_err r1
  end.

Definition roomACLTest (h : Server) (now : Z) (r : Request) (u : store.User) (id : bytes) : response :=
  let from := Form r (str "from") in let to := Form r (str "to") in let proto := Form r (str "proto") in
  let port := (Atoi (Form r (str "port"))).1 in
  let what := from ++ str " → " ++ to ++ [32] ++ proto ++ [58] ++ Itoa port in
  match controller.TestACL kek EqualFold (svc h) now u id from to proto port with
  | Ok (true, []) => back (room_path id) None (what ++ str ": разрешено — правил нет, в комнате разрешено всё")
  | Ok (true, rule) => back (room_path id) None (what ++ str ": разрешено правилом «" ++ rule ++ str "»")
  | Ok (false, _) => back (room_path id) (Some (PDenied what)) []
  | Err e => back (room_path id) (Some (ctl_err e)) []
  | Panic => Crash
  end.

Definition roomDelete (h : Server) (now : Z) (u : store.User) (id : bytes) : response * Server :=
  let '(a, s) := controller.DeleteRoom kek (svc h) now u id in
  (match a with
   | Ok _ => back (str "/rooms") None (str "Комната удалена")
   | Err e => back (room_path id) (Some (ctl_err e)) []
   | Panic => Crash
   end, with_svc h s).

(** The invite's lifetime in nanoseconds: the product wraps. *)
Definition invite_ttl (hours : bytes) : Z :=
  let '(n, ok) := Atoi hours in int64 ((if ok then n else 24) * Hour).

Definition inviteCreate (h : Server) (now : Z) (x : randoms) (r : Request) (u : store.User) (id : bytes) : response * Server :=
  let '(a, s) := controller.CreateInvite kek (svc h) now u (publicURL (cfg h) r) id (Atoi (Form r (str "uses"))).1
                   (invite_ttl (Form r (str "hours"))) (bool_decide (Form r (str "auto") = str "on")) (Form r (str "note")) (x_invite x) in
  let h := with_svc h s in
  (match a with
   | Ok inv => roomView h now r u id (Some inv)
   | Err e => back (room_path id) (Some (ctl_err e)) []
   | Panic => Crash
   end, h).

Definition inviteRevoke (h : Server) (now : Z) (u : store.User) (id inv : bytes) : response * Server :=
  match ParseInt inv with
  | Some n => finish h (room_path id) (str "Приглашение отозвано") ctl_err (controller.RevokeInvite kek (svc h) now u id n)
  | None => (back (room_path id) (Some PNumber) [], h)
  end.

Definition memberAction (h : Server) (now : Z) (u : store.User) (id node action : bytes) : response * Server :=
  let act := action_of action in
  finish h (room_path id) (action_done act) ctl_err (controller.MemberAction kek (svc h) now u id node act).

(** ** Users and the account *)

Definition usersPage (h : Server) (r : Request) (u : store.User) : response :=
  match login.Users (svc h) u with
  | Ok users => render r 200 (PUsers users) none none
  | Err e => back (str "/rooms") (Some (PErr e)) []
  | Panic => Crash
  end.

Definition RandomPassword (rnd : bytes) : bytes := encode64url rnd.

Definition userCreate (h : Server) (now : Z) (x : randoms) (r : Request) (u : store.User) : response * Server :=
  let name := Form r (str "login") in
  let pw := RandomPassword (x_password x) in
  let '(a, s) := login.CreateUser (svc h) now (Some u) name pw (bool_decide (Form r (str "admin") = str "on")) (x_salt x) in
  let h := with_svc h s in
  (match a with
   | Ok _ => render r 200 (PUsers (match login.Users (svc h) u with Ok l => l | _ => [] end)) none
               (TBytes (str "Пользователь " ++ ToLower (TrimSpace name) ++ str " создан. Пароль (показывается один раз): " ++ pw))
   | Err e => back (str "/users") (Some (PErr e)) []
   | Panic => Crash
   end, h).

Definition userDelete (h : Server) (now : Z) (u : store.User) (uid : bytes) : response * Server :=
  match ParseInt uid with
  | Some n => finish h (str "/users") (str "Пользователь удалён") PErr (login.DeleteUser kek (svc h) now u n)
  | None => (back (str "/users") (Some PNumber) [], h)
  end.

Definition accountPage (x : randoms) (r : Request) (u : store.User) : response :=
  render r 200 (PAccount (if store.u_TOTP u then None else Some (encode32 (x_totp x)))) none none.

Definition accountTOTPOn (h : Server) (now : Z) (x : randoms) (r : Request) (u : store.User) : response * Server :=
  match base32_decode (ToUpper (TrimSpace (Form r (str "secret")))) with
  | Some secret =>
    if negb (zlen secret =? 20) then (back (str "/account") (Some PSecret) [], h)
    else finish h (str "/account") (str "Двухфакторный вход включён") PErr
           (login.EnableTOTP kek (svc h) now u secret (Form r (str "code")) (x_nonce x))
  | None => (back (str "/account") (Some PSecret) [], h)
  end.

Definition accountTOTPOff (h : Server) (now : Z) (x : randoms) (r : Request) (u : store.User) : response * Server :=
  finish h (str "/account") (str "Двухфакторный вход выключен") PErr
    (login.DisableTOTP kek (svc h) now u (Form r (str "password")) (x_nonce x)).

Definition accountPassword (h : Server) (now : Z) (x : randoms) (r : Request) (u : store.User) : response * Server :=
  if negb (bool_decide (Form r (str "new") = Form r (str "new2"))) then (back (str "/account") (Some PMismatch) [], h)
  else finish h (str "/account") (str "Пароль изменён") PErr
         (login.ChangePassword (svc h) now u (Form r (str "old")) (Form r (str "new")) (x_salt x)).

Definition backupDownload (h : Server) (now : Z) (x : randoms) (u : store.User) : response * Server :=
  if negb (x_tempdir x) then (back (str "/audit") (Some PBackup) [], h)
  else
    let '(a, s) := controller.Backup (svc h) now u (x_backup x) in
    (match a with
     | Ok _ => if x_opened x then Download else back (str "/audit") (Some PBackup) []
     | Err e => back (str "/audit") (Some (ctl_err e)) []
     | Panic => Crash
     end, with_svc h s).

Definition auditPage (h : Server) (r : Request) (u : store.User) : response :=
  match Audit (svc h) u 300 with
  | Ok l => render r 200 (PAudit l) none none
  | Err e => back (str "/rooms") (Some (PErr e)) []
  | Panic => Crash
  end.

Definition dashboardPage (h : Server) (now : Z) (r : Request) (u : store.User) : response :=
  match Dashboard_ kek (svc h) now u with
  | Ok d => render r 200 (PDashboard d (match relay h with Some _ => store.IsAdmin u | None => false end)) none none
  | Err e => back (str "/rooms") (Some (ctl_err e)) []
  | Panic => Crash
  end.

(** ** One request *)

(** The routes behind [auth]. *)
Definition authed (h : Server) (now : Z) (x : randoms) (r : Request) (rt : route) (u : store.User) : response * Server :=
  let s := svc h in
  match rt with
  | HLogout => logout h now r
  | HHome => (back (str "/rooms") None [], h)
  | HDashboard => (dashboardPage h now r u, h)
  | HRooms => (roomsPage h r u, h)
  | HRoomCreate => roomCreate h now x r u
  | HRoom id => (roomView h now r u id None, h)
  | HSettings id => roomSettings h now r u id
  | HACL id => finish h (room_path id) (str "Правила доступа сохранены") ctl_err (controller.SetRoomACL kek s now u id (Form r (str "acl")))
  | HACLTest id => (roomACLTest h now r u id, h)
  | HDelete id => roomDelete h now u id
  | HInvite id => inviteCreate h now x r u id
  | HRevoke id inv => inviteRevoke h now u id inv
  | HMember id node => finish h (room_path id) (str "Участник обновлён") ctl_err
      (controller.UpdateMember kek s now u id node (Form r (str "name")) (Form r (str "ip")) (Form r (str "tags")))
  | HUseExit id node => finish h (room_path id) (str "Выход в интернет обновлён") ctl_err
      (controller.SetMemberExit kek s now u id node (Form r (str "exit")))
  | HAction id node action => memberAction h now u id node action
  | HUsers => (usersPage h r u, h)
  | HUserCreate => userCreate h now x r u
  | HUserDelete uid => userDelete h now u uid
  | HAccount => (accountPage x r u, h)
  | HPassword => accountPassword h now x r u
  | HTOTPOn => accountTOTPOn h now x r u
  | HTOTPOff => accountTOTPOff h now x r u
  | HAudit => (auditPage h r u, h)
  | HBackup => backupDownload h now x u
  | _ => (NotHandled, h)
  end.

(** [auth] around a handler. *)
Definition auth (h : Server) (now : Z) (x : randoms) (r : Request) (rt : route) : response * Server :=
  match login.auth (svc h) now (Cookie r sessionCookie) (is_post r) (Form r (str "csrf")) with
  | login.Redirect => (back (str "/login") None [], h)
  | login.Forbidden => (ErrorPage 403, h)
  | login.Allowed u _ => authed h now x r rt u
  end.

(** The root handler. *)
Definition serve (h : Server) (now : Z) (x : randoms) (r : Request) : response * Server :=
  match find_route r with
  | None => (NotHandled, h)
  | Some rt =>
    match rt with
    | HStatic => (Static, h)
    | HHealth => (Healthy, h)
    | HLoginPage => (loginPage h r, h)
    | HLogin => loginSubmit h now x r
    | HOidcStart => oidcStart h now x r
    | HOidcCallback => oidcCallback h now x r
    | HJoin => handleJoin kek h now x r
    | HPoll => handlePoll kek h now x r
    | HLeave => handleLeave h now r
    | rt => auth h now x r rt
    end
  end.

End Panel.
End panel.
