(* ===== verification/ServerInv.v ===== *)
(** What requests to the controller's HTTP server can do: every request is a run
    of operations of the service, so the service's invariant holds of the whole
    server; a request changes something only with a node's signature, at
    sign-in, or with a live session and its CSRF token; a user's session opens
    nothing of rooms the user does not manage; and where a request is taken to
    come from. *)
From stdpp Require Import base list gmap strings relations.
From Stdlib Require Import ZArith Lia.
From S2P Require Import Prelude GoStrings GoText Netip NetText Encoding Crypto Identity Pki Store Controller ControllerNet.
From S2P Require Import ControllerInv ControllerOps Login LoginInv Oidc Server Panel.

Open Scope Z_scope.

Module serverinv.
Import server panel.

Section Steps.
Context `{CR : Crypto} `{A : Aead} `{J : pki.Json} `{AU : login.Auth} `{P : oidc.Provider} `{W : Web} (kek : option bytes).
Context (EqualFold : bytes -> bytes -> bool).

(** ** Requests as runs of the service *)

Definition ustep (d d' : store.db) : Prop := store.step kek d d' /\ service.same_tables d d'.

Lemma user_stmt {E X} d0 (m : store.Tx E X) : (forall d a d', m d = Ok (a, d') -> ustep d d') -> store.keeps (rtc ustep d0) m.
Proof. intros H d a d' Hd Hm. eapply rtc_r; [exact Hd | by eapply H]. Qed.

Lemma exec_if_ok c f d x d' : store.exec_if c f d = Ok (x, d') -> c d = true /\ d' = f d.
Proof. unfold store.exec_if. destruct (c d); [intros [= _ <-]; done | done]. Qed.

Ltac stmt c := apply user_stmt; let H := fresh in
  intros ?d [] ?d' H; split; [eapply c; exact H | revert H].

Lemma u_session d0 t u c e : store.keeps (rtc ustep d0) (store.CreateSession t u c e).
Proof. stmt store.step_session. unfold store.CreateSession. by intros [_ ->]%exec_if_ok. Qed.
Lemma u_delete_session d0 now t : store.keeps (rtc ustep d0) (store.DeleteSession now t).
Proof. stmt store.step_delete_session. by intros [= <-]. Qed.
Lemma u_audit d0 now a b c e : store.keeps (rtc ustep d0) (store.Audit now a b c e).
Proof. stmt (store.step_audit (A := A)). by intros [= <-]. Qed.
Lemma u_totp d0 id s n : store.keeps (rtc ustep d0) (store.SetTOTP kek id s n).
Proof. stmt store.step_totp. by intros [= <-]. Qed.
Lemma u_totp_step d0 id s : store.keeps (rtc ustep d0) (store.UseTOTPStep id s).
Proof. apply user_stmt. intros d a d' H. split; [eapply store.step_totp_step; exact H |]. by injection H as _ <-. Qed.
Lemma u_password d0 id p : store.keeps (rtc ustep d0) (store.SetPassword id p).
Proof. stmt store.step_password. by intros [= <-]. Qed.
Lemma u_delete_user d0 id : store.keeps (rtc ustep d0) (store.DeleteUser id).
Proof. stmt store.step_delete_user. unfold store.DeleteUser. by intros [_ ->]%exec_if_ok. Qed.
Lemma u_email d0 id e : store.keeps (rtc ustep d0) (store.SetOIDCEmail id e).
Proof. stmt store.step_email. unfold store.SetOIDCEmail. by intros [_ ->]%exec_if_ok. Qed.
Lemma u_bump d0 : store.keeps (rtc ustep d0) store.BumpVersion.
Proof. apply user_stmt. intros d a d' H. split; [eapply store.step_bump; exact H |]. by injection H as _ <-. Qed.
Lemma u_create_user d0 now l p b : store.keeps (rtc ustep d0) (store.CreateUser now l p b).
Proof.
  apply user_stmt. intros d a d' H. split; [eapply store.step_create_user; exact H |].
  apply store.tx_bind_ok in H as (? & d1 & [_ ->]%exec_if_ok & H). apply store.tx_bind_ok in H as (id & d2 & H2 & H).
  apply store.tx_bind_ok in H as (? & d3 & H3 & H). injection H2 as _ <-. injection H3 as _ <-. by injection H as _ <-.
Qed.

#[local] Hint Resolve u_session u_delete_session u_audit u_totp u_totp_step u_password u_delete_user u_bump u_create_user u_email : tx.

Lemma lift_users s d : rtc ustep (controller.st s) d ->
  rtc (service.step kek) s (controller.MkService d (controller.hub_ s) (controller.maxRooms s) (controller.maxMembers s) (controller.paths s)).
Proof.
  destruct s as [d0 hb r m p]. simpl. intros H. induction H as [d0 | d0 d1 d2 [Hs Ht] _ IH]; [apply rtc_refl |].
  eapply rtc_l; [| apply IH]. by apply (service.s_users kek (controller.MkService d0 hb r m p)).
Qed.

Lemma in_tx_run {X} s (fn : store.Tx login.error X) : store.keeps (rtc ustep (controller.st s)) fn ->
  rtc (service.step kek) s (login.in_tx s fn).2.
Proof.
  intros H. unfold login.in_tx. destruct (fn (controller.st s)) as [[a d] | |] eqn:E; [| apply rtc_refl | apply rtc_refl].
  apply lift_users. eapply H, E. apply rtc_refl.
Qed.

(** A change also moves the hub, as the next [watch] would. *)
Lemma in_change_run {X} s (fn : store.Tx login.error X) : store.keeps (rtc ustep (controller.st s)) fn ->
  rtc (service.step kek) s (login.in_change s fn).2.
Proof.
  intros H. unfold login.in_change.
  match goal with |- context [match ?m (controller.st s) with _ => _ end] => destruct (m (controller.st s)) as [[[a v] d] | |] eqn:E end; [| apply rtc_refl | apply rtc_refl].
  cbn [snd]. assert (rtc ustep (controller.st s) d /\ v = store.version d) as [Hd Hv].
  { apply store.tx_bind_ok in E as (b & d1 & H1 & E). apply store.tx_bind_ok in E as (w & d2 & H2 & E). injection E as <- <- <-.
    pose proof (H _ _ _ (rtc_refl _ _) H1) as Hr. apply logins.login_tx_ok in H2. split; [by eapply u_bump |]. by injection H2 as <- <-. }
  eapply rtc_r; [apply lift_users, Hd |]. subst v. apply (service.s_watch kek (controller.MkService d _ _ _ _)).
Qed.

Lemma u_user d0 id : store.keeps (rtc ustep d0) (store.UserByID id).
Proof. apply store.reads_keeps. intros d a d' (r & d1 & H & H')%store.tx_bind_ok. apply store.reads_one in H as ->. by injection H' as _ <-. Qed.
Lemma u_login d0 l : store.keeps (rtc ustep d0) (store.UserByLogin l).
Proof. apply store.reads_keeps. intros d a d' (r & d1 & H & H')%store.tx_bind_ok. apply store.reads_one in H as ->. by injection H' as _ <-. Qed.
Lemma u_rooms d0 id : store.keeps (rtc ustep d0) (store.ListRooms kek id).
Proof. apply store.reads_keeps, service.ListRooms_reads. Qed.
Lemma u_totp_read d0 id : store.keeps (rtc ustep d0) (store.TOTP kek id).
Proof.
  apply store.keeps_bind; [apply store.keeps_one |]. intros r. destruct (store.totp_secret r) as [[| c l] |]; try apply store.keeps_ret.
  apply store.keeps_bind; [apply store.keeps_lift | intros; apply store.keeps_ret].
Qed.

#[local] Hint Resolve u_user u_login u_rooms u_totp_read : tx.

Ltac user_run := unfold login.tx; repeat first
  [ progress intros | solve [auto with tx] | apply store.keeps_bind | apply store.keeps_ret | apply store.keeps_lift
  | apply store.keeps_fail | apply store.keeps_map_tx | apply store.keeps_attempt | case_match ].

Lemma newSession_run s now u a t c : rtc (service.step kek) s (login.newSession s now u a t c).2.
Proof.
  unfold login.newSession. match goal with |- context [login.in_tx s ?fn] => pose proof (in_tx_run s fn) as H end.
  destruct (login.in_tx s _) as [r s']. apply H. user_run.
Qed.

Lemma Login_run s now l pw code t c : rtc (service.step kek) s (login.Login kek s now l pw code t c).2.
Proof.
  unfold login.Login. destruct (login.in_read s _) as [u | |]; [| apply rtc_refl | apply rtc_refl].
  destruct (login.CheckPassword _ _) as [[] | |]; try apply rtc_refl. destruct (store.u_TOTP u); [| apply newSession_run].
  unfold login.checkSecondFactor. pose proof (in_tx_run s (login.second_factor kek (store.u_ID u) code now)) as H.
  destruct (login.in_tx s _) as [r s1]. assert (rtc (service.step kek) s s1) as H1 by (apply H; unfold login.second_factor; user_run).
  destruct r; [| done | done]. etrans; [exact H1 | apply newSession_run].
Qed.

Lemma LoginOIDC_run s now e t c : rtc (service.step kek) s (login.LoginOIDC s now e t c).2.
Proof.
  unfold login.LoginOIDC. destruct (login.in_read s _); [apply newSession_run | apply rtc_refl | apply rtc_refl].
Qed.

Lemma Logout_run s now t : rtc (service.step kek) s (login.Logout s now t).2.
Proof. apply in_tx_run. user_run. Qed.

Lemma CreateUser_run s now u l pw b salt : rtc (service.step kek) s (login.CreateUser s now u l pw b salt).2.
Proof.
  unfold login.CreateUser. destruct (negb _); [apply rtc_refl |]. destruct (login.ValidateLogin l); [| apply rtc_refl].
  destruct (negb _); [apply rtc_refl |]. apply in_tx_run. user_run.
Qed.

Lemma DeleteUser_run s now u id : rtc (service.step kek) s (login.DeleteUser kek s now u id).2.
Proof. unfold login.DeleteUser. destruct (_ || _); [apply rtc_refl |]. apply in_change_run. user_run. Qed.

Lemma ChangePassword_run s now u o n salt : rtc (service.step kek) s (login.ChangePassword s now u o n salt).2.
Proof.
  unfold login.ChangePassword. destruct (login.CheckPassword _ _) as [[] | |]; try apply rtc_refl.
  destruct (negb _); [apply rtc_refl |]. apply in_tx_run. user_run.
Qed.

Lemma EnableTOTP_run s now u sec code n : rtc (service.step kek) s (login.EnableTOTP kek s now u sec code n).2.
Proof.
  unfold login.EnableTOTP. destruct (login.checkTOTP _ _ _ _) as [st | |]; [| apply rtc_refl | apply rtc_refl].
  destruct (_ =? _); [apply rtc_refl |]. apply in_tx_run. user_run.
Qed.

Lemma DisableTOTP_run s now u pw n : rtc (service.step kek) s (login.DisableTOTP kek s now u pw n).2.
Proof.
  unfold login.DisableTOTP. destruct (login.CheckPassword _ _) as [[] | |]; try apply rtc_refl. apply in_tx_run. user_run.
Qed.

Lemma SetPassword_run s now l pw salt : rtc (service.step kek) s (login.SetPassword s now l pw salt).2.
Proof. unfold login.SetPassword. destruct (negb _); [apply rtc_refl |]. apply in_tx_run. user_run. Qed.

Lemma ResetTOTP_run s now l n : rtc (service.step kek) s (login.ResetTOTP kek s now l n).2.
Proof. apply in_tx_run. user_run. Qed.

Lemma BindOIDCEmail_run s now l e : rtc (service.step kek) s (login.BindOIDCEmail s now l e).2.
Proof. unfold login.BindOIDCEmail. destruct (_ && _); [apply rtc_refl |]. apply in_tx_run. user_run. Qed.

(** ** A request is a run *)

Notation run s s' := (rtc (service.step kek) s s').

Lemma logout_run h now r : run (svc h) (svc (logout h now r).2).
Proof. unfold logout. destruct (Cookie r _); [apply Logout_run | apply rtc_refl]. Qed.

Lemma loginSubmit_run h now x r : run (svc h) (svc (loginSubmit kek h now x r).2).
Proof.
  unfold loginSubmit. destruct (login.allowed _ _ _) as [ok l]. destruct ok; [| apply rtc_refl]. cbn [negb].
  match goal with |- context [login.Login kek ?s ?n ?a ?b ?c ?d ?e] => pose proof (Login_run s n a b c d e) as H; destruct (login.Login kek s n a b c d e) as [r0 s0] end.
  destruct r0; exact H.
Qed.

Lemma oidcCallback_run h now x r : run (svc h) (svc (oidcCallback h now x r).2).
Proof.
  unfold oidcCallback. destruct (oidc_ h) as [o |]; [| apply rtc_refl].
  match goal with |- context [oidc.oidcCallback ?s ?o ?n ?red ?ck ?q ?t ?c] => assert (run s (oidc.oidcCallback s o n red ck q t c).1.2) as H end.
  { unfold oidc.oidcCallback. destruct (Cookie r oidcCookie) as [ck |]; [| apply rtc_refl].
    destruct (Split 46 ck) as [| s1 [| s2 [| s3 [|]]]]; try apply rtc_refl.
    do 2 (destruct (_ || _); [apply rtc_refl |]). destruct (oidc.exchange _ _ _ _ _ _) as [[cl | |] o']; try apply rtc_refl.
    destruct (_ || _); [apply rtc_refl |].
    match goal with |- context [login.LoginOIDC ?s ?n ?e ?t ?c] => pose proof (LoginOIDC_run s n e t c) as H; destruct (login.LoginOIDC s n e t c) as [[tk | |] s'] end; exact H. }
  destruct (oidc.oidcCallback _ _ _ _ _ _ _ _) as [[out s'] o']. destruct out; exact H.
Qed.

Lemma oidcStart_svc h now x r : svc (oidcStart h now x r).2 = svc h.
Proof.
  unfold oidcStart. destruct (oidc_ h) as [o |]; [| done]. destruct (login.allowed _ _ _) as [[] l]; [| done]. cbn [negb].
  destruct (oidc.discover o) as [[m | |] o']; done.
Qed.

Lemma roomSettings_run h now r u id : run (svc h) (svc (roomSettings kek h now r u id).2).
Proof.
  unfold roomSettings.
  set (r1 := controller.UpdateRoom _ _ _ _ _ _ _ _). assert (run (svc h) r1.2) as H1 by (apply rtc_once; constructor).
  destruct (r1.1); [| exact H1 | exact H1].
  set (r2 := controller.SetRoomDNS _ _ _ _ _ _). assert (run r1.2 r2.2) as H2 by (apply rtc_once; constructor).
  destruct (r2.1); [| by etrans | by etrans].
  etrans; [exact H1 |]. etrans; [exact H2 |]. apply rtc_once. constructor.
Qed.

Lemma authed_run h now x r rt u : service.rnd_ok kek (x_room x) -> run (svc h) (svc (authed kek EqualFold h now x r rt u).2).
Proof.
  intros Hx. destruct rt; try apply rtc_refl; cbn [authed]; try (apply rtc_once; constructor).
  - apply logout_run.
  - unfold roomCreate. pose proof (service.s_create kek (svc h) now u (Form r (str "name")) (Form r (str "subnet")) (Form r (str "policy")) (x_room x) Hx) as H.
    destruct (controller.CreateRoom _ _ _ _ _ _ _ _) as [a s']. by apply rtc_once.
  - apply roomSettings_run.
  - unfold roomDelete. pose proof (service.s_delete kek (svc h) now u id) as H. destruct (controller.DeleteRoom _ _ _ _ _). by apply rtc_once.
  - unfold inviteCreate. match goal with |- context [controller.CreateInvite kek ?s ?n ?u ?url ?id ?us ?ttl ?au ?note ?raw] =>
      pose proof (service.s_invite kek s n u url id us ttl au note raw) as H; destruct (controller.CreateInvite kek s n u url id us ttl au note raw) end.
    by apply rtc_once.
  - unfold inviteRevoke. destruct (ParseInt inv); [| apply rtc_refl]. apply rtc_once, service.s_revoke.
  - unfold userCreate. match goal with |- context [login.CreateUser ?s ?n ?u ?l ?p ?b ?sa] =>
      pose proof (CreateUser_run s n u l p b sa) as H; destruct (login.CreateUser s n u l p b sa) end. exact H.
  - unfold userDelete. destruct (ParseInt uid); [| apply rtc_refl]. apply DeleteUser_run.
  - unfold accountPassword. destruct (negb _); [apply rtc_refl |]. apply ChangePassword_run.
  - unfold accountTOTPOn. destruct (base32_decode _); [| apply rtc_refl]. destruct (negb _); [apply rtc_refl |]. apply EnableTOTP_run.
  - apply DisableTOTP_run.
  - unfold backupDownload. destruct (x_tempdir x); [| apply rtc_refl]. cbn [negb].
    pose proof (service.s_backup kek (svc h) now u (x_backup x)) as H. destruct (controller.Backup _ _ _ _). by apply rtc_once.
Qed.

Lemma serve_run h now x r : service.rnd_ok kek (x_room x) -> run (svc h) (svc (serve kek EqualFold h now x r).2).
Proof.
  intros Hx. unfold serve. destruct (find_route r) as [rt |]; [| apply rtc_refl].
  assert (forall rt, run (svc h) (svc (auth kek EqualFold h now x r rt).2)) as Ha.
  { intros rt'. unfold auth. destruct (login.auth _ _ _ _ _); [apply rtc_refl | apply rtc_refl | by apply authed_run]. }
  destruct rt; try apply rtc_refl; try apply Ha.
  - apply loginSubmit_run.
  - by rewrite oidcStart_svc.
  - apply oidcCallback_run.
  - unfold handleJoin. destruct (nodeRequest now r) as [| [key body]]; [apply rtc_refl |]. destruct (parse_join body) as [req |]; [| apply rtc_refl].
    pose proof (service.s_join kek (svc h) now key req (remoteIP (cfg h) r)) as H. destruct (controller.Join _ _ _ _ _ _). by apply rtc_once.
  - unfold handlePoll. destruct (nodeRequest now r) as [| [key body]]; [apply rtc_refl |]. destruct (parse_poll body) as [req |]; [| apply rtc_refl].
    pose proof (service.s_poll kek (svc h) now key req (remoteIP (cfg h) r)) as H. destruct (controller.Poll _ _ _ _ _). by apply rtc_once.
  - unfold handleLeave. destruct (nodeRequest now r) as [| [key body]]; [apply rtc_refl |]. destruct (parse_leave body) as [room |]; [| apply rtc_refl].
    pose proof (service.s_leave kek (svc h) now key room) as H. destruct (controller.Leave _ _ _ _). by apply rtc_once.
Qed.

(** A request handled by the server. *)
Inductive serves (h : Server) : Server -> Prop :=
  | one_request now x r : service.rnd_ok kek (x_room x) -> serves h (serve kek EqualFold h now x r).2.

(** whatever requests come in whatever order, from an empty database on the
    controller's invariant holds: the schema, disjoint subnets, keys that open,
    usable addresses, valid routes. *)
Theorem server_invariant `{AL : !AeadLaws A} h h' : service.reachable kek (svc h) -> rtc serves h h' ->
  service.inv kek (controller.st (svc h')).
Proof.
  intros Hr Hs. assert (service.reachable kek (svc h')) as H; [| by apply service.reachable_inv].
  induction Hs as [h | h h1 h2 [now x r Hx] _ IH]; [done |].
  apply IH. unfold service.reachable in *. etrans; [exact Hr | by apply serve_run].
Qed.

(** ** Who may change something *)

(** Routes of GET requests behind [auth] read only, except for the backup's
    entry in the audit. *)
Lemma get_route_reads segs rt h now x r u : get_route segs = Some rt -> rt <> HBackup ->
  svc (authed kek EqualFold h now x r rt u).2 = svc h.
Proof.
  intros H Hb. unfold get_route in H. repeat case_match; simplify_eq; done.
Qed.

Lemma backup_admin h now x u : svc (backupDownload h now x u).2 <> svc h -> store.IsAdmin u = true.
Proof.
  unfold backupDownload. destruct (x_tempdir x); [| done]. cbn [negb]. unfold controller.Backup.
  by destruct (store.IsAdmin u).
Qed.

Lemma auth_changes h now x r rt : find_route r = Some rt -> svc (auth kek EqualFold h now x r rt).2 <> svc h ->
  exists token u sess, Cookie r sessionCookie = Some token /\ logins.live (controller.st (svc h)) now token u sess
    /\ ((is_post r = true /\ Form r (str "csrf") = store.CSRF sess) \/ (Some rt = Some HBackup /\ store.IsAdmin u = true)).
Proof.
  intros Hrt. unfold auth. intros Hn. destruct (login.auth _ _ _ _ _) as [| | u c] eqn:Hau; [done | done |].
  apply logins.auth_spec in Hau as (token & sess & Hc & Hl & _ & Hp). exists token, u, sess. split; [done |]. split; [done |].
  destruct (is_post r) eqn:Hpost; [left; split; [done | by apply Hp] | right].
  assert (get_route (Segments r) = Some rt) as Hg.
  { unfold find_route in Hrt. rewrite Hpost in Hrt. destruct (negb _); [done |]. by destruct (_ || _). }
  assert (rt = HBackup) as ->.
  { assert (rt = HBackup \/ rt <> HBackup) as [-> | Hb] by (destruct rt; (by left) || (by right)); [done |].
    exfalso. by apply Hn, (get_route_reads (Segments r)). }
  split; [done |]. by eapply backup_admin.
Qed.

Lemma loginSubmit_changes `{AL : !logins.AuthLaws AU} h now x r rsp h' : store.wf (controller.st (svc h)) -> loginSubmit kek h now x r = (rsp, h') -> svc h' <> svc h ->
  (login.allowed (limiter h) (remote h r) now).1 = true
  /\ exists row, logins.proved kek (svc h) (svc h') now (ToLower (TrimSpace (Form r (str "login")))) (Form r (str "password")) (Form r (str "code")) row
     /\ ((exists token, rsp = SignIn token (secureCookies (cfg h) r)
           /\ logins.opens (controller.st (svc h')) now token (login.randomToken (x_csrf x)) row)
         \/ (store.u_TOTP (store.scanUser row) = true
             /\ login.checkSecondFactor kek (svc h) now (store.uid row) (Form r (str "code")) = (Ok tt, svc h'))).
Proof.
  intros Hd Hs Hne. unfold loginSubmit in Hs. destruct (login.allowed _ _ _) as [[] l]; [| by injection Hs as <- <-]. cbn [negb] in Hs.
  split; [done |]. destruct (login.Login kek _ _ _ _ _ _ _) as [a s] eqn:Hl.
  assert (svc h' = s /\ match a with Ok token => rsp = SignIn token (secureCookies (cfg h) r) | _ => True end) as [E Hr]
    by (destruct a; by injection Hs as <- <-).
  change (svc (with_limiter h l)) with (svc h) in Hl. pose proof (logins.Login_result kek (svc h) now _ _ _ _ _ _ _ Hd Hl) as H. rewrite <- E in H.
  destruct a as [token | |]; [destruct H as (_ & row & Hp & Ho); exists row; eauto 6 | | ];
    (destruct H as [H | (row & Hp & Ht & Hc)]; [congruence | exists row; eauto]).
Qed.

Lemma oidcCallback_changes h now x r rsp h' : store.wf (controller.st (svc h)) -> oidcCallback h now x r = (rsp, h') -> svc h' <> svc h ->
  exists o row token, oidc_ h = Some o /\ oidc.vouched (svc h) o now (Cookie r oidcCookie) (Query r) row
    /\ rsp = SignIn token (secureCookies (cfg h) r)
    /\ logins.opens (controller.st (svc h')) now token (login.randomToken (x_csrf x)) row.
Proof.
  intros Hd Hs Hne. unfold oidcCallback in Hs. destruct (oidc_ h) as [o |]; [| by injection Hs as <- <-].
  destruct (oidc.oidcCallback _ _ _ _ _ _ _ _) as [[out s] o'] eqn:Ho. apply oidc.oidcCallback_result in Ho; [| done].
  destruct out as [| token]; [injection Hs as <- <-; by destruct Hne |]. injection Hs as <- <-.
  destruct Ho as (row & Hv & Hop). by exists o, row, token.
Qed.

(** C6: a request changes the controller's state only if it is a join, a poll or
    a leave signed by a node; or a sign-in with the right password and, with a
    second factor, a fresh code, which opens the session it answers with (or, when
    the session could not be stored, uses up the code and nothing else); or the
    callback of a sign-in the provider vouches for, which opens a session too; or
    a POST with the token of a live session and its CSRF token; the one GET that
    leaves a trace is an admin's backup (an entry in the audit log). *)
Theorem changes_authorized `{AL : !logins.AuthLaws AU} h now x r rsp h' : store.wf (controller.st (svc h)) ->
  serve kek EqualFold h now x r = (rsp, h') -> svc h' <> svc h ->
  (find_route r ∈ [Some HJoin; Some HPoll; Some HLeave] /\ exists key body, nodeRequest now r = inr (key, body))
  \/ (find_route r = Some HLogin /\ (login.allowed (limiter h) (remote h r) now).1 = true
      /\ exists row, logins.proved kek (svc h) (svc h') now (ToLower (TrimSpace (Form r (str "login")))) (Form r (str "password")) (Form r (str "code")) row
         /\ ((exists token, rsp = SignIn token (secureCookies (cfg h) r)
               /\ logins.opens (controller.st (svc h')) now token (login.randomToken (x_csrf x)) row)
             \/ (store.u_TOTP (store.scanUser row) = true
                 /\ login.checkSecondFactor kek (svc h) now (store.uid row) (Form r (str "code")) = (Ok tt, svc h'))))
  \/ (find_route r = Some HOidcCallback
      /\ exists o row token, oidc_ h = Some o /\ oidc.vouched (svc h) o now (Cookie r oidcCookie) (Query r) row
         /\ rsp = SignIn token (secureCookies (cfg h) r)
         /\ logins.opens (controller.st (svc h')) now token (login.randomToken (x_csrf x)) row)
  \/ exists token u sess, Cookie r sessionCookie = Some token /\ logins.live (controller.st (svc h)) now token u sess
     /\ ((is_post r = true /\ Form r (str "csrf") = store.CSRF sess) \/ (find_route r = Some HBackup /\ store.IsAdmin u = true)).
Proof.
  intros Hd Hs Hne. unfold serve in Hs. destruct (find_route r) as [rt |] eqn:Hrt; [| injection Hs as <- <-; by destruct Hne].
  assert (auth kek EqualFold h now x r rt = (rsp, h') -> exists token u sess, Cookie r sessionCookie = Some token
    /\ logins.live (controller.st (svc h)) now token u sess
    /\ ((is_post r = true /\ Form r (str "csrf") = store.CSRF sess) \/ (Some rt = Some HBackup /\ store.IsAdmin u = true))) as Ha.
  { intros Hau. apply (auth_changes h now x r rt Hrt). by rewrite Hau. }
  destruct rt; try (right; right; right; by apply Ha); try (injection Hs as <- <-; by destruct Hne).
  - right; left. split; [done |]. by apply loginSubmit_changes.
  - destruct Hne. pose proof (oidcStart_svc h now x r) as E. by rewrite Hs in E.
  - right; right; left. split; [done |]. by apply (oidcCallback_changes h now x).
  - left. split; [by repeat constructor |]. unfold handleJoin in Hs. destruct (nodeRequest now r) as [| [key body]]; [by injection Hs as <- <- | by eauto].
  - left. split; [by repeat constructor |]. unfold handlePoll in Hs. destruct (nodeRequest now r) as [| [key body]]; [by injection Hs as <- <- | by eauto].
  - left. split; [by repeat constructor |]. unfold handleLeave in Hs. destruct (nodeRequest now r) as [| [key body]]; [by injection Hs as <- <- | by eauto].
Qed.

(** ** Rooms of others *)

Definition room_of (rt : route) : option bytes :=
  match rt with
  | HRoom id | HSettings id | HACL id | HACLTest id | HDelete id | HInvite id | HRevoke id _
  | HMember id _ | HUseExit id _ | HAction id _ _ => Some id
  | _ => None
  end.

(** An answer that tells nothing but an error, or where to sign in. *)
Definition refusal (rsp : response) : Prop :=
  match rsp with ErrorPage 403 => True | Redirect p _ (TBytes []) => True | _ => False end.

Lemma finish_refused {B} h p ok f (r : res controller.error B * controller.Service) : ops.refused (svc h) r ->
  svc (finish h p ok f r).2 = svc h /\ refusal (finish h p ok f r).1.
Proof. intros [[e He] Hs]. unfold finish. rewrite He. split; [exact Hs | exact I]. Qed.

Lemma with_refused {B} (r : res controller.error B * controller.Service) s : ops.refused s r -> exists e, r = (Err e, s).
Proof. destruct r. intros [[e He] Hs]. simpl in *. exists e. by rewrite He, Hs. Qed.

Lemma authed_refused h now x r rt u id : room_of rt = Some id -> ~ ops.manages kek (svc h) u id ->
  svc (authed kek EqualFold h now x r rt u).2 = svc h /\ refusal (authed kek EqualFold h now x r rt u).1.
Proof.
  intros Hr Hn. destruct (ops.management_refused kek EqualFold (svc h) now u id Hn)
    as (M1 & M2 & M3 & M4 & M5 & M6 & M7 & M8 & M9 & M10 & [e1 M11] & M12).
  destruct rt; try done; injection Hr as ->; cbn [authed].
  - unfold roomView. by rewrite M11.
  - unfold roomSettings. destruct (with_refused _ _ (M1 (Form r (str "name")) (Form r (str "policy")) (Form r (str "broadcast")))) as [e ->]. done.
  - by apply finish_refused.
  - unfold roomACLTest. destruct (M12 (Form r (str "from")) (Form r (str "to")) (Form r (str "proto")) (Atoi (Form r (str "port"))).1) as [e ->]. done.
  - unfold roomDelete. by destruct (with_refused _ _ M5) as [e ->].
  - unfold inviteCreate.
    match goal with |- context [controller.CreateInvite kek ?s ?n ?u ?url id ?us ?ttl ?au ?note ?raw] =>
      destruct (with_refused _ _ (M6 url us ttl au note raw)) as [e ->] end. done.
  - unfold inviteRevoke. destruct (ParseInt inv); [by apply finish_refused | done].
  - by apply finish_refused.
  - by apply finish_refused.
  - by apply finish_refused.
Qed.

(** C5: whoever asks for a page or an action of a room without a session of a
    user who manages it (an admin or its owner) gets an error or the sign-in
    page, and nothing changes. *)
Theorem rooms_guarded h now x r rt id : find_route r = Some rt -> room_of rt = Some id ->
  (forall token u sess, Cookie r sessionCookie = Some token -> logins.live (controller.st (svc h)) now token u sess ->
    ~ ops.manages kek (svc h) u id) ->
  svc (serve kek EqualFold h now x r).2 = svc h /\ refusal (serve kek EqualFold h now x r).1.
Proof.
  intros Hf Hr Hn. assert (serve kek EqualFold h now x r = auth kek EqualFold h now x r rt) as ->.
  { unfold serve. rewrite Hf. by destruct rt. }
  unfold auth. destruct (login.auth _ _ _ _ _) as [| | u c] eqn:Hau; [done | done |].
  apply logins.auth_spec in Hau as (token & sess & Hc & Hl & _). eapply authed_refused; [done | by eapply Hn].
Qed.

(** ** The network map's envelope *)

(** A poll and the map it is answered with: at once, or after a wait, in the
    state of that later moment. *)
Inductive poll_answer (h : Server) (now : Z) (x : randoms) (r : Request) : Server -> Z -> bytes -> Prop :=
  | answered_now b h' : handlePoll kek h now x r = (SealedBody b, h') -> poll_answer h now x r h' now b
  | answered_later id box g h1 h2 now2 b : handlePoll kek h now x r = (Waiting id box g, h1) -> rtc serves h1 h2 ->
      pollReply kek h2 now2 x r id box = SealedBody b -> poll_answer h now x r h2 now2 b.

Lemma nodeRequest_json now r e : nodeRequest now r = inl e -> (exists status, e = Json status) \/ e = Crash.
Proof.
  unfold nodeRequest. destruct (Body r); [| intros [= <-]; eauto]. destruct (_ <? _); [intros [= <-]; eauto |].
  destruct (pki.VerifyRequest _ _ _ _ _); intros [= <-]; eauto.
Qed.

(** Whom [Poll] lets in, and the key the answer will be sealed to. *)
Lemma Poll_node s now key req ip box w s' : controller.Poll s now key req ip = (Ok (box, w), s') ->
  exists n, n ∈ store.nodes (controller.st s) /\ store.n_ID n = identity.NodeIDFromPublic key /\ box = controller.key32 (store.BoxKey n).
Proof.
  unfold controller.Poll, controller.Tx_.
  match goal with |- context [match ?m (controller.st s) with _ => _ end] => destruct (m (controller.st s)) as [[[bk ch] d] | |] eqn:E end;
    [| done | done].
  apply store.tx_bind_ok in E as (n & d1 & H1 & E). apply service.forbid_ok in H1.
  apply store.tx_bind_ok in E as (ch' & d2 & H2 & E). injection E as <- <- <-.
  unfold store.NodeByID, store.one in H1. destruct (List.find _ _) as [n' |] eqn:Hf; [| done]. injection H1 as -> _.
  apply List.find_some in Hf as [Hin Hid]. apply list_elem_of_In in Hin. apply bool_decide_eq_true in Hid.
  intros Hp2. exists n. split; [done |]. split; [done |].
  destruct ch'; [destruct (controller.change _ _) as [[] ?] |]; by simplify_eq/=.
Qed.

Lemma pollReply_sealed h now x r id box b : pollReply kek h now x r id box = SealedBody b ->
  exists nm rs js, controller.netMap kek (svc h) now id (remoteIP (cfg h) r) = Ok nm /\ relays h r = Ok rs
    /\ marshal_map nm (stunServers (cfg h) r) rs = Some js /\ b = pki.Seal js box (x_seal x).
Proof.
  unfold pollReply. destruct (controller.netMap _ _ _ _ _) as [nm | |] eqn:Hnm; [| done | done].
  destruct (relays _ r) as [rs | |] eqn:Hrs; [| done | done]. unfold sealed.
  destruct (marshal_map nm _ rs) as [js |] eqn:Hjs; [| done]. intros [= <-]. by exists nm, rs, js.
Qed.

Lemma pollReply_not_waiting h now x r id box id' box' g : pollReply kek h now x r id box <> Waiting id' box' g.
Proof.
  unfold pollReply. destruct (controller.netMap _ _ _ _ _); [| done | done]. destruct (relays _ r); [| done | done].
  unfold sealed. by destruct (marshal_map _ _ _).
Qed.

(** The node and the key of an answer, now or later. *)
Lemma handlePoll_node h now x r rsp h' : handlePoll kek h now x r = (rsp, h') ->
  match rsp with
  | SealedBody _ | Waiting _ _ _ => exists key body req n box, nodeRequest now r = inr (key, body) /\ parse_poll body = Some req
      /\ n ∈ store.nodes (controller.st (svc h)) /\ store.n_ID n = identity.NodeIDFromPublic key /\ box = controller.key32 (store.BoxKey n)
      /\ match rsp with
         | Waiting id bk _ => id = identity.NodeIDFromPublic key /\ bk = box
         | _ => pollReply kek h' now x r (identity.NodeIDFromPublic key) box = rsp
         end
  | _ => True
  end.
Proof.
  unfold handlePoll. destruct (nodeRequest now r) as [e | [key body]] eqn:Hr.
  { apply nodeRequest_json in Hr as [[? ->] | ->]; by intros [= <- <-]. }
  destruct (parse_poll body) as [req |] eqn:Hp; [| by intros [= <- <-]].
  destruct (controller.Poll _ _ _ _ _) as [a s'] eqn:Hpoll. intros [= <- <-].
  destruct a as [[box wait] | |]; [| done | done]. apply Poll_node in Hpoll as (n & Hn & Hid & ->). cbn [api_answer snd fst].
  destruct wait as [g |]; [exists key, body, req, n; eauto 10 |].
  destruct (pollReply _ _ _ _ _ _ _) eqn:E; try done; exists key, body, req, n; [| by destruct (pollReply_not_waiting _ _ _ _ _ _ _ _ _ E)]; eauto 10.
Qed.

(** C26: a poll is answered with a network map, at once or after a wait, only
    when the request is signed by a node the controller knows; the map is that
    node's, as of the end of the wait, and it is sealed to the box key the node
    had in the database when it asked. *)
Theorem poll_sealed h now x r h2 now2 b : poll_answer h now x r h2 now2 b ->
  exists key body req n nm js rs,
    nodeRequest now r = inr (key, body) /\ parse_poll body = Some req
    /\ n ∈ store.nodes (controller.st (svc h)) /\ store.n_ID n = identity.NodeIDFromPublic key
    /\ controller.netMap kek (svc h2) now2 (identity.NodeIDFromPublic key) (remoteIP (cfg h2) r) = Ok nm
    /\ relays h2 r = Ok rs /\ marshal_map nm (stunServers (cfg h2) r) rs = Some js
    /\ b = pki.Seal js (controller.key32 (store.BoxKey n)) (x_seal x).
Proof.
  intros [b' h' H | id box g h1 h3 now3 b' H _ Hp]; apply handlePoll_node in H as (key & body & req & n & bk & Hr & Hq & Hn & Hid & -> & H).
  - apply pollReply_sealed in H as (nm & rs & js & ? & ? & ? & ->). exists key, body, req, n, nm, js, rs. by split_and!.
  - destruct H as [-> ->]. apply pollReply_sealed in Hp as (nm & rs & js & ? & ? & ? & ->). exists key, body, req, n, nm, js, rs. by split_and!.
Qed.

End Steps.

(** ** Where requests come from *)

(** the address a request counts for (limits, public addresses of nodes) is
    that of its connection; only when the settings trust a proxy and the
    connection comes from a private or loopback address is it the last item of
    X-Forwarded-For, whatever items a client put before it. *)
Theorem remoteIP_spec c r : 
  (TrustProxy c = false \/ (forall ap, ParseAddrPort (RemoteAddr r) = Some ap ->
      IsLoopback (Unmap (ap_addr ap)) = false /\ IsPrivate (Unmap (ap_addr ap)) = false) ->
    remoteIP c r = match ParseAddrPort (RemoteAddr r) with Some ap => Unmap (ap_addr ap) | None => AddrZero end)
  /\ (forall pre item ap a, TrustProxy c = true -> ParseAddrPort (RemoteAddr r) = Some ap ->
      IsPrivate (Unmap (ap_addr ap)) = true -> Header r (str "X-Forwarded-For") = pre ++ 44 :: item -> 44 ∉ item ->
      ParseAddr (TrimSpace item) = Some a -> remoteIP c r = Unmap a).
Proof.
  unfold remoteIP. split.
  - intros H. destruct (ParseAddrPort (RemoteAddr r)) as [ap |]; [| done]. destruct H as [-> | H]; [done |].
    destruct (H ap eq_refl) as [-> ->]. by rewrite Bool.andb_false_r.
  - intros pre item ap a Ht Hap Hp Hh Hni Ha. rewrite Ht, Hap, Hp, Hh, Bool.orb_true_r. cbn [andb].
    rewrite bool_decide_eq_false_2 by (by destruct pre).
    assert (last_item (pre ++ 44 :: item) = item) as ->.
    { unfold last_item. rewrite LastIndexByte_app, zlen_not_neg by done. by apply sub_rest. }
    by rewrite Ha.
Qed.

End serverinv.
