(* ===== verification/ServerExample.v ===== *)
(** Requests to a controller: a signed-in admin, a node that polls, a proxy in
    front; the theorems on the HTTP server applied to them. *)
From stdpp Require Import base list gmap strings relations.
From Stdlib Require Import ZArith Lia.
From S2P Require Import Prelude GoStrings GoText Netip NetText Encoding Crypto Identity Pki Store Controller ControllerInv.
From S2P Require Import ControllerOps ControllerExample Login LoginInv Oidc LoginExample Server Panel ServerInv.

Open Scope Z_scope.

Module serverscenario.
Import server panel serverinv.

#[local] Existing Instance loginscenario.plain.
#[local] Existing Instance loginscenario.no_aead.
#[local] Existing Instance loginscenario.plain_auth.
#[local] Existing Instance loginscenario.provider.
#[local] Instance no_json : pki.Json := {| pki.Marshal := fun _ => Some []; pki.Unmarshal := fun _ => None |}.

Definition ends : controller.Endpoints :=
  controller.MkEndpoints 51820 [] [] [] AddrPortZero (zeros 32) [] (controller.MkPathStats 0 0) [] false false.
#[local] Instance web : Web := {|
  url_host _ := []; parse_join _ := None; parse_leave _ := None;
  parse_poll _ := Some (controller.MkPollRequest 0 (zeros 32) ends (str "1"));
  marshal_join _ := None; marshal_map _ _ _ := Some (str "map") |}.

Definition conf : Config := MkConfig [] true [] [str "stun:3478"] [] [] [] [] [] [].
Definition server_of (s : controller.Service) : Server := MkServer conf s ∅ None None None.
Definition now : Z := loginscenario.now.
Definition rnd : randoms :=
  MkRandoms [] [] scenario.rnd [] [] [] [] [] [] [] [] (zeros 32) true (Ok tt) true.

(** ** Signing out *)

Definition header (l : list (bytes * bytes)) (k : bytes) : bytes :=
  match List.find (fun p => bool_decide (p.1 = k)) l with Some p => p.2 | None => [] end.
Definition request (method : bytes) (segs : list bytes) (hs : list (bytes * bytes)) (ck : option bytes) (form : list (bytes * bytes)) : Request :=
  MkRequest method segs (concat (map (fun s => 47 :: s) segs)) (str "panel.example") false (str "10.0.0.1:5000") (header hs)
    (fun k => if bool_decide (k = sessionCookie) then ck else None) ∅ (header form) (Some (str "{}")).

Definition h1 : Server := server_of loginscenario.s1.
Definition signed : option bytes := Some loginscenario.token.
Definition log_out : Request :=
  request (str "POST") [str "logout"] [] signed [(str "csrf", login.randomToken loginscenario.csrf)].
Definition EqualFold (a b : bytes) : bool := bool_decide (a = b).

Lemma h1_wf : store.wf (controller.st (svc h1)).
Proof.
  assert (controller.st (svc h1) = controller.st loginscenario.s1) as -> by reflexivity.
  split; vm_compute; repeat constructor; try (intros H; by apply elem_of_nil in H).
Qed.

Lemma changes_authorized_witness : exists token u sess, Cookie log_out sessionCookie = Some token
  /\ logins.live (controller.st (svc h1)) now token u sess /\ Form log_out (str "csrf") = store.CSRF sess.
Proof.
  destruct (changes_authorized (AL := loginscenario.plain_laws) None EqualFold h1 now rnd log_out SignOut
      (serve None EqualFold h1 now rnd log_out).2 h1_wf)
    as [(H & _) | [(H & _) | [(H & _) | (t & u & se & Hc & Hl & [(_ & Hf) | (H & _)])]]].
  - vm_compute. reflexivity.
  - intros H. apply (f_equal (fun s => length (store.sessions (controller.st s)))) in H. vm_compute in H. discriminate H.
  - assert (find_route log_out = Some HLogout) as E by (vm_compute; reflexivity). rewrite E in H.
    exfalso. repeat (apply elem_of_cons in H as [H | H]; [discriminate H |]). by apply elem_of_nil in H.
  - vm_compute in H. discriminate H.
  - vm_compute in H. discriminate H.
  - exists t, u, se. split; [exact Hc | split; [exact Hl | exact Hf]].
  - vm_compute in H. discriminate H.
Defined.

(** ** A room that is not there *)

Definition peek : Request := request (str "GET") [str "rooms"; str "abc"] [] signed [].

Lemma rooms_guarded_witness : refusal (serve None EqualFold h1 now rnd peek).1.
Proof.
  assert (find_route peek = Some (HRoom (str "abc"))) as Hf by (vm_compute; reflexivity).
  assert (forall token u sess, Cookie peek sessionCookie = Some token -> logins.live (controller.st (svc h1)) now token u sess ->
    ~ ops.manages None (svc h1) u (str "abc")) as Hn.
  { intros t u se _ _ (r & Hr & _). vm_compute in Hr. discriminate Hr. }
  destruct (rooms_guarded None EqualFold h1 now rnd peek _ (str "abc") Hf eq_refl Hn) as [_ H]. exact H.
Defined.

(** ** A node that polls *)

Definition key : bytes := replicate 32 9.
Definition node : store.Node :=
  store.MkNode (identity.NodeIDFromPublic key) key (replicate 32 5) (str "pc") AddrZero 0 [] [] 0 0 [] [] AddrPortZero [] [] [] false false.
Definition d2 : store.db := store.MkDb 3 [] [] [node] [] [] [] [] [].
Definition poll : Request :=
  request (str "POST") [str "api"; str "v1"; str "node"; str "poll"]
    [(pki.HeaderNode, encode64 key); (pki.HeaderTime, str "600"); (pki.HeaderSig, encode64 key)] None [].

Lemma poll_sealed_witness : exists n, n ∈ store.nodes d2 /\
  (handlePoll None (server_of (controller.NewService d2)) now rnd poll).1 = SealedBody (pki.Seal (str "map") (controller.key32 (store.BoxKey n)) (zeros 32)).
Proof.
  set (res := handlePoll None (server_of (controller.NewService d2)) now rnd poll).
  assert (res = (SealedBody (pki.Seal (str "map") (replicate 32 5) (zeros 32)), res.2)) as H by (vm_compute; reflexivity).
  destruct (poll_sealed None EqualFold _ now rnd poll _ _ _ (answered_now None EqualFold _ _ _ _ _ _ H))
    as (k & b & req & n & nm & js & rs & _ & _ & Hn & _ & _ & _ & Hjs & Hb).
  exists n. split; [exact Hn |]. rewrite H. cbn [fst]. injection Hjs as <-. rewrite Hb. reflexivity.
Defined.

(** ** Behind a proxy *)

(** With TrustProxy, X-Forwarded-Proto is believed from any address, not only from
    private ones as X-Forwarded-For is. *)
Theorem forwarded_proto_any_address :
  let r := MkRequest (str "GET") [[]] (str "/") (str "p.example") false (str "203.0.113.7:1") (header [(str "X-Forwarded-Proto", str "https")])
             (fun _ => None) ∅ (fun _ => []) None in
  IsPrivate (remoteIP conf r) = false /\ publicURL conf r = str "https://p.example" /\ secureCookies conf r = true.
Proof. vm_compute. repeat split. Qed.

Definition proxied : Request := request (str "GET") [[]] [(str "X-Forwarded-For", str "1.2.3.4, 203.0.113.9")] None [].

Lemma remoteIP_spec_witness : remoteIP conf proxied = Addr4 (203 * 2 ^ 24 + 113 * 2 ^ 8 + 9).
Proof.
  refine (eq_trans (proj2 (remoteIP_spec conf proxied) (str "1.2.3.4") (str " 203.0.113.9") (MkAddrPort (Addr4 (10 * 2 ^ 24 + 1)) 5000)
    (Addr4 (203 * 2 ^ 24 + 113 * 2 ^ 8 + 9)) _ _ _ _ _ _) _); try (vm_compute; reflexivity).
  intros H. apply (proj2 (Contains1_spec _ _)) in H. vm_compute in H. discriminate H.
Defined.

End serverscenario.

(** ** The invariant, from the run of ControllerExample on *)

Module serverrun.
Import server panel serverinv.

#[local] Existing Instance scenario.toy_aead.
#[local] Existing Instance scenario.toy_aead_laws.
#[local] Existing Instance scenario.no_json.
#[local] Existing Instance loginscenario.plain_auth.
#[local] Existing Instance loginscenario.provider.
#[local] Existing Instance serverscenario.web.

Lemma server_invariant_witness : service.inv (CR := toy) None
  (controller.st (svc (serve (CR := toy) None serverscenario.EqualFold (serverscenario.server_of scenario.s5) 0 serverscenario.rnd serverscenario.log_out).2)).
Proof.
  apply (server_invariant (CR := toy) None serverscenario.EqualFold (serverscenario.server_of scenario.s5)).
  - exact scenario.s5_reachable.
  - apply rtc_once. exact (one_request (CR := toy) None serverscenario.EqualFold _ 0 serverscenario.rnd serverscenario.log_out scenario.rnd_fits).
Defined.

(** The settings page is three transactions: a wrong DNS server is refused, but
    the new name has been stored. *)
Definition rename : Request :=
  serverscenario.request (str "POST") [str "rooms"; scenario.roomID; str "settings"] [] None
    [(str "name", str "renamed"); (str "policy", str "auto"); (str "broadcast", str "on"); (str "dns", str "not-an-address")].

Theorem settings_not_atomic :
  let '(rsp, h) := panel.roomSettings None (serverscenario.server_of scenario.s2) 0 rename scenario.root scenario.roomID in
  map store.r_Name (store.rooms (controller.st scenario.s2)) = [str "net"]
  /\ map store.r_Name (store.rooms (controller.st (svc h))) = [str "renamed"]
  /\ exists p e, rsp = Redirect p (TExplain e) none.
Proof. vm_compute. split; [reflexivity | split; [reflexivity | eauto]]. Qed.

End serverrun.
