(* ===== verification/Client.v ===== *)
(** The node's side of the controller's API (internal/client/client.go): signing
    and sending a request, reading the answer, and dialling the controller when
    name lookups fail.

    HTTP is an argument: what the connection answers is [None] for an error, or a
    status and a body. [ClientJson] holds the encoders and decoders of the
    documents. The theorems put the client and the server of Panel.v together:
    a call over HTTP is the operation of the service. *)
From stdpp Require Import base gmap list strings.
From Stdlib Require Import ZArith Lia.
From S2P Require Import Prelude GoStrings GoText Netip NetText Encoding Crypto Identity Pki Store Controller Login Oidc Server ControllerInv ControllerMap ControllerOps Panel.

Open Scope Z_scope.

Module client.

Inductive error : Type := EMarshal | ETransport | EStatus (status : Z) (message : bytes) | ESealed | EDecode.
Definition IsForbidden (e : error) : bool := match e with EStatus s _ => s =? 403 | _ => false end.

Class ClientJson := {
  marshal_join_req : controller.JoinRequest -> option bytes;
  marshal_poll_req : controller.PollRequest -> option bytes;
  marshal_leave_req : bytes -> option bytes;
  unmarshal_join : bytes -> option controller.JoinResponse;
  unmarshal_map : bytes -> option controller.NetMap;
  unmarshal_error : bytes -> option bytes }.

Record Client := MkClient { Base : bytes; ID : bytes; Version : bytes }.
Record http_request := MkHttp { q_URL : bytes; q_Method : bytes; q_Headers : list (bytes * bytes); q_Body : bytes }.

Definition New (base id version : bytes) : Client := MkClient (TrimRight base 47) id version.
Definition PathJoin : bytes := str "/api/v1/node/join".
Definition PathPoll : bytes := str "/api/v1/node/poll".
Definition PathLeave : bytes := str "/api/v1/node/leave".
Definition maxAnswer : Z := 8 * 2 ^ 20.

Section Client.
Context `{CR : Crypto} `{CJ : ClientJson} (StatusText : Z -> bytes) (c : Client).

Definition BoxKey : bytes := (identity.BoxKey (ID c)).2.

Definition request (now : Z) (path body : bytes) : http_request :=
  MkHttp (Base c ++ path) (str "POST")
    ((str "Content-Type", str "application/json") :: (str "User-Agent", str "zpt/" ++ Version c)
     :: pki.RequestHeaders (ID c) (str "POST") path body now) body.

(** What [call] makes of the answer. *)
Definition message (status : Z) (data : bytes) : bytes :=
  match unmarshal_error data with Some ((_ :: _) as m) => m | _ => StatusText status end.
Definition answer {A} (sealed : bool) (decode : bytes -> option A) (ans : option (Z * bytes)) : res error A :=
  match ans with
  | None => Err ETransport
  | Some (status, data) =>
    let data := take (Z.to_nat maxAnswer) data in
    if negb (status =? 200) then Err (EStatus status (message status data))
    else
      data ← (if sealed then let '(priv, pub) := identity.BoxKey (ID c) in map_err (fun _ => ESealed) (pki.Open data priv pub) else Ok data);
      from_option (decode data) EDecode
  end.

(** [call]: [send] is the connection. *)
Definition call {A} (send : http_request -> option (Z * bytes)) (now : Z) (path : bytes) (body : option bytes) (sealed : bool) (decode : bytes -> option A)
    : res error A :=
  match body with
  | None => Err EMarshal
  | Some body => answer sealed decode (send (request now path body))
  end.

Definition join_request (inv : controller.ApiInvite) (name : bytes) (ep : controller.Endpoints) : controller.JoinRequest :=
  controller.MkJoinRequest (controller.i_Room inv) (controller.i_Token inv) name
    (identity.Public (identity.RoomKey (ID c) (controller.i_Room inv))) BoxKey ep (Version c).
Definition Join send (now : Z) (inv : controller.ApiInvite) (name : bytes) (ep : controller.Endpoints) : res error controller.JoinResponse :=
  call send now PathJoin (marshal_join_req (join_request inv name ep)) true unmarshal_join.

Definition poll_request (since : Z) (ep : controller.Endpoints) : controller.PollRequest :=
  controller.MkPollRequest since BoxKey ep (Version c).
Definition Poll send (now since : Z) (ep : controller.Endpoints) : res error controller.NetMap :=
  call send now PathPoll (marshal_poll_req (poll_request since ep)) true unmarshal_map.

Definition Leave send (now : Z) (roomID : bytes) : res error unit :=
  call send now PathLeave (marshal_leave_req roomID) false (fun _ => Some tt).
End Client.

(** ** Dialling

    [cachedDial]: the addresses found before are used when a lookup fails; [dial]
    says whether an address answers. *)
Definition addresses (known : gmap bytes (list Addr)) (host : bytes) (found : option (list Addr)) : list Addr * gmap bytes (list Addr) :=
  match found with
  | Some ((_ :: _) as ips) => (ips, <[host := ips]> known)
  | _ => (default [] (known !! host), known)
  end.
(** [DNil]: neither a connection nor an error is returned. *)
Inductive dialled := DBadAddress | DDirect | DLookup | DNil | DTo (ip : Addr) | DFailed.
Definition cachedDial (lookup : bytes -> option (list Addr)) (dial : bytes -> bool) (addr : bytes) (known : gmap bytes (list Addr))
    : dialled * gmap bytes (list Addr) :=
  match SplitHostPort addr with
  | None => (DBadAddress, known)
  | Some (host, port) =>
    match ParseAddr host with
    | Some _ => (DDirect, known)
    | None =>
      let '(ips, known) := addresses known host (lookup host) in
      if bool_decide (ips = []) then (match lookup host with None => DLookup | Some _ => DNil end, known)
      else match List.find (fun ip => dial (JoinHostPort (Addr_String (Unmap ip)) port)) ips with
           | Some ip => (DTo ip, known)
           | None => (DFailed, known)
           end
    end
  end.

(** One call, by what the lookup found. *)
Lemma cachedDial_dials lookup dial host port known a ips :
  SplitHostPort (JoinHostPort host port) = Some (host, port) -> ParseAddr host = None -> (addresses known host (lookup host)).1 = a :: ips ->
  cachedDial lookup dial (JoinHostPort host port) known
  = (match List.find (fun ip => dial (JoinHostPort (Addr_String (Unmap ip)) port)) (a :: ips) with Some ip => DTo ip | None => DFailed end,
     (addresses known host (lookup host)).2).
Proof.
  intros Hs Ha Hi. unfold cachedDial. rewrite Hs, Ha. destruct (addresses _ _ _) as [l k']. cbn [fst snd] in *. subst l.
  rewrite bool_decide_eq_false_2 by done. by destruct (List.find _ _).
Qed.

(** A lookup without an error and without addresses makes the dialler return
    neither an error nor a connection. *)
Theorem empty_lookup lookup dial host port known :
  SplitHostPort (JoinHostPort host port) = Some (host, port) -> ParseAddr host = None -> lookup host = Some [] -> known !! host = None ->
  (cachedDial lookup dial (JoinHostPort host port) known).1 = DNil.
Proof. intros Hs Ha Hl Hk. unfold cachedDial. rewrite Hs, Ha, Hl. unfold addresses. by rewrite Hk. Qed.

(** after a lookup of a host that succeeded, the host can be dialled while
    lookups of it fail: the same addresses are tried, in the same order. *)
Theorem cachedDial_remembers lookup lookup' dial dial' host port known a ips :
  SplitHostPort (JoinHostPort host port) = Some (host, port) -> ParseAddr host = None -> lookup host = Some (a :: ips) -> lookup' host = None ->
  (cachedDial lookup' dial' (JoinHostPort host port) (cachedDial lookup dial (JoinHostPort host port) known).2).1
  = match List.find (fun ip => dial' (JoinHostPort (Addr_String (Unmap ip)) port)) (a :: ips) with Some ip => DTo ip | None => DFailed end.
Proof.
  intros Hs Ha Hl Hl'. rewrite (cachedDial_dials lookup dial host port known a ips), (cachedDial_dials lookup' dial' host port _ a ips);
    rewrite ?Hl, ?Hl'; cbn [addresses fst snd]; try done. by rewrite lookup_insert_eq.
Qed.

(** ** Client and server *)

Section Both.
Context `{CL : CryptoLaws} `{A : Aead} `{J : pki.Json} `{AU : login.Auth} `{P : oidc.Provider} `{W : server.Web} `{CJ : ClientJson}.
Context (kek : option bytes) (EqualFold : bytes -> bytes -> bool) (StatusText : Z -> bytes).
(** The body of an error answer. *)
Context (error_body : Z -> bytes).

(** How a request arrives: over TLS, from an address, for a host. *)
Definition arrive (segs : list bytes) (path host remote : bytes) (q : http_request) : server.Request :=
  server.MkRequest (q_Method q) segs path host true remote (pki.header_get (q_Headers q)) (fun _ => None) ∅ (fun _ => []) (Some (q_Body q)).
Definition http_of (r : server.response) : option (Z * bytes) :=
  match r with
  | server.SealedBody b => Some (200, b)
  | server.Json 200 => Some (200, [])
  | server.Json s | server.ErrorPage s => Some (s, error_body s)
  | _ => None
  end.
Definition node_path (op : string) : list bytes := [str "api"; str "v1"; str "node"; str op].

(** The signature that the client makes is the one the server checks. *)
Lemma arrives c t now path body segs host remote : length (ID c) = 32%nat -> bytes_ok (ID c) -> - 2 ^ 63 <= pki.Unix t < 2 ^ 63 ->
  Z.abs (now - pki.Unix t * Second) <= pki.RequestSkew -> zlen body <= server.maxBody ->
  server.nodeRequest now (arrive segs path host remote (request c t path body)) = inr (identity.PublicKey (ID c), body).
Proof.
  intros Hl Hb Ht Hs Hz. unfold server.nodeRequest, arrive, request. cbn [server.Body q_Body].
  rewrite take_ge by (unfold zlen in Hz; lia). rewrite (proj2 (Z.ltb_ge _ _)) by done.
  pose proof (pki.VerifyRequest_RequestHeaders (ID c) (str "POST") path body t now Hl Hb Ht) as Hv. rewrite decide_True in Hv by done.
  cbn [server.Header server.Method server.Path q_Method q_Headers]. unfold pki.VerifyRequest in *.
  change (pki.header_get (_ :: _ :: pki.RequestHeaders (ID c) (str "POST") path body t) pki.HeaderNode)
    with (pki.header_get (pki.RequestHeaders (ID c) (str "POST") path body t) pki.HeaderNode).
  change (pki.header_get (_ :: _ :: pki.RequestHeaders (ID c) (str "POST") path body t) pki.HeaderTime)
    with (pki.header_get (pki.RequestHeaders (ID c) (str "POST") path body t) pki.HeaderTime).
  change (pki.header_get (_ :: _ :: pki.RequestHeaders (ID c) (str "POST") path body t) pki.HeaderSig)
    with (pki.header_get (pki.RequestHeaders (ID c) (str "POST") path body t) pki.HeaderSig).
  by rewrite Hv.
Qed.

Lemma seal_opens c js rnd : pki.Open (pki.Seal js (BoxKey c) rnd) (identity.BoxKey (ID c)).1 (identity.BoxKey (ID c)).2 = Ok js.
Proof. unfold pki.Open, pki.Seal, BoxKey. cbn [identity.BoxKey fst snd]. unfold identity.Public. by rewrite anon_open_seal. Qed.

(** What the client makes of the two kinds of answer. *)
Definition refused (s : Z) : error := EStatus s (message StatusText s (take (Z.to_nat maxAnswer) (error_body s))).
Lemma answer_refused {R} c sealed (decode : bytes -> option R) s : s <> 200 -> answer StatusText c sealed decode (http_of (server.Json s)) = Err (refused s).
Proof.
  intros Hs. assert (http_of (server.Json s) = Some (s, error_body s)) as ->.
  { cbn [http_of]. destruct s as [| p |]; try done. repeat (destruct p as [p | p |]; try done). }
  cbn [answer]. by rewrite (proj2 (Z.eqb_neq _ _)).
Qed.
Lemma answer_sealed {R} c (decode : bytes -> option R) js rnd : zlen js + 48 <= maxAnswer ->
  answer StatusText c true decode (http_of (server.sealed (Some js) (BoxKey c) rnd)) = from_option (decode js) EDecode.
Proof.
  intros Hz. cbn [server.sealed http_of answer]. change (negb (200 =? 200)) with false. cbv iota.
  rewrite take_ge. 2: { pose proof (zlen_anon js (BoxKey c) rnd) as H. unfold zlen in *. unfold pki.Seal. lia. }
  change (identity.BoxKey (ID c)) with ((identity.BoxKey (ID c)).1, (identity.BoxKey (ID c)).2). cbv iota beta. by rewrite seal_opens.
Qed.
Lemma apiStatus_not_ok e : controller.apiStatus e <> 200.
Proof. unfold controller.apiStatus. by repeat case_match. Qed.

(** A client whose clock is near the server's: what it asks for, the service does. *)
Definition in_time (c : Client) (t now : Z) : Prop :=
  length (ID c) = 32%nat /\ bytes_ok (ID c) /\ - 2 ^ 63 <= pki.Unix t < 2 ^ 63 /\ Z.abs (now - pki.Unix t * Second) <= pki.RequestSkew.

(** C35: a join over HTTP is the join of the service: the client is told exactly what
    the service answered to its identity's key, or the status of the service's
    error, and the controller's state is the one that join leaves. *)
Theorem join_over_http h x c t now inv name ep body host remote :
  in_time c t now -> marshal_join_req (join_request c inv name ep) = Some body -> server.parse_join body = Some (join_request c inv name ep) ->
  zlen body <= server.maxBody ->
  let net q := panel.serve kek EqualFold h now x (arrive (node_path "join") PathJoin host remote q) in
  let ip := server.remoteIP (server.cfg h) (arrive (node_path "join") PathJoin host remote (request c t PathJoin body)) in
  let done := controller.Join kek (server.svc h) now (identity.PublicKey (ID c)) (join_request c inv name ep) ip in
  (forall resp js, done.1 = Ok resp -> server.marshal_join resp = Some js -> zlen js + 48 <= maxAnswer /\ unmarshal_join js = Some resp) ->
  Join StatusText c (fun q => http_of (net q).1) t inv name ep
  = match done.1 with
    | Ok resp => if server.marshal_join resp then Ok resp else Err (refused 500)
    | Err e => Err (refused (controller.apiStatus e))
    | Panic => Err ETransport
    end
  /\ (net (request c t PathJoin body)).2 = server.with_svc h done.2.
Proof.
  intros (Hl & Hb & Ht & Hs) Hm Hp Hz net ip done Hj. subst net. cbv beta. unfold Join, call. rewrite Hm.
  assert (panel.serve kek EqualFold h now x (arrive (node_path "join") PathJoin host remote (request c t PathJoin body))
    = (server.api_answer done.1 (fun resp => server.sealed (server.marshal_join resp) (BoxKey c) (server.x_seal x)), server.with_svc h done.2)) as ->.
  { transitivity (server.handleJoin kek h now x (arrive (node_path "join") PathJoin host remote (request c t PathJoin body))); [reflexivity |].
    unfold server.handleJoin. rewrite arrives by done. rewrite Hp. subst done ip. by destruct (controller.Join _ _ _ _ _ _). }
  split; [| done]. cbn [fst]. destruct done.1 as [resp | e |]; cbn [server.api_answer].
  - destruct (server.marshal_join resp) as [js |] eqn:Hr; [| by apply answer_refused].
    destruct (Hj resp js eq_refl Hr) as [Hzj Hu]. by rewrite answer_sealed, Hu.
  - apply answer_refused, apiStatus_not_ok.
  - done.
Qed.

(** leaving over HTTP is the service's leaving, and leaving a room the node is
    not in counts as success. *)
Theorem leave_over_http h x c t now roomID body host remote :
  in_time c t now -> marshal_leave_req roomID = Some body -> server.parse_leave body = Some roomID -> zlen body <= server.maxBody ->
  let net q := panel.serve kek EqualFold h now x (arrive (node_path "leave") PathLeave host remote q) in
  let left := controller.Leave (server.svc h) now (identity.PublicKey (ID c)) roomID in
  Leave StatusText c (fun q => http_of (net q).1) t roomID
  = match left.1 with
    | Ok _ | Err (controller.EStore store.ErrNotFound) => Ok tt
    | Err e => Err (refused (controller.apiStatus e))
    | Panic => Err ETransport
    end
  /\ (net (request c t PathLeave body)).2 = server.with_svc h left.2.
Proof.
  intros (Hl & Hb & Ht & Hs) Hm Hp Hz net left. subst net. cbv beta. unfold Leave, call. rewrite Hm.
  assert (panel.serve kek EqualFold h now x (arrive (node_path "leave") PathLeave host remote (request c t PathLeave body))
    = (match left.1 with Err (controller.EStore store.ErrNotFound) => server.Json 200 | a => server.api_answer a (fun _ => server.Json 200) end,
       server.with_svc h left.2)) as ->.
  { transitivity (server.handleLeave h now (arrive (node_path "leave") PathLeave host remote (request c t PathLeave body))); [reflexivity |].
    unfold server.handleLeave. rewrite arrives by done. rewrite Hp. subst left. by destruct (controller.Leave _ _ _ _) as [[? | [[] | | | | |] |] ?]. }
  split; [| done]. cbn [fst]. destruct left.1 as [[] | e |]; [done | | done].
  pose proof (fun e => answer_refused c false (fun _ => Some tt) _ (apiStatus_not_ok e)) as Hr.
  destruct e as [e | | | | |]; try apply (Hr _). destruct e; [done | apply (Hr (controller.EStore _)) ..].
Qed.

(** What a join leaves in the node's row: the box key of the request. *)
Lemma UpsertNode_row now n d d' : store.UpsertNode now n d = Ok (tt, d') ->
  exists n', List.find (fun x => bool_decide (store.n_ID x = store.n_ID n)) (store.nodes d') = Some n' /\ store.BoxKey n' = store.BoxKey n.
Proof.
  unfold store.UpsertNode. intros H. destruct (existsb _ (store.nodes d)) eqn:Hex; [injection H as <- | destruct (existsb _ _) in H; [done | injection H as <-]];
    cbn [store.nodes store.set_nodes].
  - induction (store.nodes d) as [| m l IH]; [done |]. cbn [store.upd map List.find existsb] in *. case_bool_decide as Hm.
    + cbn [store.n_ID]. rewrite bool_decide_eq_true_2 by done. by eexists.
    + rewrite bool_decide_eq_false_2 by done. by apply IH.
  - induction (store.nodes d) as [| m l IH]; cbn [app List.find existsb store.n_ID] in *; [rewrite bool_decide_eq_true_2 by done; by eexists |].
    case_bool_decide; [done |]. by apply IH.
Qed.

Lemma UpdateNodeEndpoints_row now id r d b d' n : store.UpdateNodeEndpoints now id r d = Ok (b, d') ->
  List.find (fun x => bool_decide (store.n_ID x = id)) (store.nodes d) = Some n ->
  exists n', List.find (fun x => bool_decide (store.n_ID x = id)) (store.nodes d') = Some n' /\ store.BoxKey n' = store.BoxKey n.
Proof.
  intros (m & d1 & ->%store.reads_one & (u & d2 & [= _ <-] & [= _ <-])%store.tx_bind_ok)%store.tx_bind_ok. cbn [store.nodes store.set_nodes].
  induction (store.nodes d) as [| x l IH]; [done |]. cbn [store.upd map List.find]. case_bool_decide as Hx.
  - intros [= ->]. cbn [store.apply_reach store.n_ID]. rewrite bool_decide_eq_true_2 by done. by eexists.
  - rewrite bool_decide_eq_false_2 by done. exact IH.
Qed.

(** The rest of a join leaves the nodes alone. *)
Lemma admitNode_nodes s now r nid req d status d' : controller.admitNode s now r nid req d = Ok (status, d') -> store.nodes d' = store.nodes d.
Proof.
  intros (i & d1 & Hi%service.forbid_ok & (ms & d2 & [= <- <-]%service.tx_ok & H)%store.tx_bind_ok)%store.tx_bind_ok.
  apply service.UseInvite_set in Hi as (_ & _ & _ & _ & ->). destruct (_ && _) in H; [done |].
  apply store.tx_bind_ok in H as (ip & d3 & [_ ->]%service.lift_ok & H).
  apply store.tx_bind_ok in H as (x & d4 & Ha%service.tx_ok & H). unfold store.AddMember, store.exec_if in Ha.
  destruct (_ && _) in Ha; [| done]. injection Ha as _ <-.
  apply store.tx_bind_ok in H as (y & d5 & Hb%service.tx_ok & H). injection Hb as _ <-.
  apply store.tx_bind_ok in H as (z & d6 & Hc%service.tx_ok & [= <- <-]). by injection Hc as _ <-.
Qed.

Lemma Join_box s now key req ip resp s' : controller.Join kek s now key req ip = (Ok resp, s') ->
  exists n, List.find (fun x => bool_decide (store.n_ID x = identity.NodeIDFromPublic key)) (store.nodes (controller.st s')) = Some n
    /\ store.BoxKey n = controller.j_BoxKey req.
Proof.
  unfold controller.Join. destruct (_ || _); [done |]. intros (d & H & ->)%service.change_ok. cbn [controller.st store.nodes store.set_version].
  apply store.tx_bind_ok in H as (r & d1 & _ & H). apply store.tx_bind_ok in H as ([] & d2 & Hu%service.tx_ok & H).
  apply store.tx_bind_ok in H as (y & d3 & He%service.tx_ok & H). apply UpsertNode_row in Hu as (n & Hn & Hb).
  destruct (UpdateNodeEndpoints_row _ _ _ _ _ _ _ He Hn) as (n' & Hn' & Hb'). exists n'. split; [| by rewrite Hb', Hb].
  apply store.tx_bind_ok in H as (m & d4 & [-> _]%ops.attempt_member & H). destruct m as [m | e |]; [| | done].
  - case_bool_decide; [done |]. by injection H as _ <-.
  - destruct e; try done. apply store.tx_bind_ok in H as (status & d5 & Ha & [= <- <-]). by rewrite (admitNode_nodes _ _ _ _ _ _ _ _ Ha).
Qed.

Lemma Poll_box s now key req ip n a s' : controller.Poll s now key req ip = (a, s') ->
  List.find (fun x => bool_decide (store.n_ID x = identity.NodeIDFromPublic key)) (store.nodes (controller.st s)) = Some n ->
  exists w, a = Ok (controller.key32 (store.BoxKey n), w).
Proof.
  intros H Hn. assert (forall d, store.nodes d = store.nodes (controller.st s) -> store.NodeByID (identity.NodeIDFromPublic key) d = Ok (n, d)) as Hid.
  { intros d Hd. unfold store.NodeByID, store.one. by rewrite Hd, Hn. }
  revert H. unfold controller.Poll, controller.Tx_, controller.forbid, controller.tx, store.UpdateNodeEndpoints, store.map_tx, mbind, store.tx_bind.
  rewrite Hid by done. cbn [map_err]. rewrite Hid by done. cbn [map_err store.exec mret store.tx_ret].
  destruct (store.reach_changed _ _); [destruct (controller.change _ _) as [[] ?] eqn:Hc |]; intros H; simplify_eq/=; by eauto.
Qed.
Lemma key32_BoxKey c : controller.key32 (BoxKey c) = BoxKey c.
Proof.
  apply netmap.key32_id. unfold BoxKey, identity.BoxKey, identity.Public, identity.clamp, zlen. cbn [snd].
  rewrite length_x25519; [done |]. by rewrite !length_insert, length_hkdf.
Qed.

Definition poll_at (c : Client) (t : Z) (host remote body : bytes) : server.Request :=
  arrive (node_path "poll") PathPoll host remote (request c t PathPoll body).

(** a node that was let in by a join gets its network maps: its polls are
    answered, at once or after the wait, and what the controller seals for it
    the node opens and decodes to the map that was sent. *)
Theorem joined_node_polls h x now key c req ip resp s t preq body host remote :
  in_time c t now -> controller.Join kek (server.svc h) now (identity.PublicKey (ID c)) req ip = (Ok resp, s) -> controller.j_BoxKey req = BoxKey c ->
  server.parse_poll body = Some preq -> zlen body <= server.maxBody -> key = identity.NodeIDFromPublic (identity.PublicKey (ID c)) ->
  let r := poll_at c t host remote body in
  let answer_at h now x := server.pollReply kek h now x r key (BoxKey c) in
  (exists h', panel.serve kek EqualFold (server.with_svc h s) now x r = (answer_at h' now x, h')
     \/ exists g, panel.serve kek EqualFold (server.with_svc h s) now x r = (server.Waiting key (BoxKey c) g, h'))
  /\ forall h' now' x' nm rs js,
    controller.netMap kek (server.svc h') now' key (server.remoteIP (server.cfg h') r) = Ok nm -> server.relays h' r = Ok rs ->
    server.marshal_map nm (server.stunServers (server.cfg h') r) rs = Some js -> zlen js + 48 <= maxAnswer ->
    answer StatusText c true unmarshal_map (http_of (answer_at h' now' x')) = from_option (unmarshal_map js) EDecode.
Proof.
  intros (Hl & Hb & Ht & Hs) Hj Hk Hp Hz -> r answer_at. split.
  - destruct (Join_box _ _ _ _ _ _ _ Hj) as (n & Hn & Hbox).
    assert (panel.serve kek EqualFold (server.with_svc h s) now x r = server.handlePoll kek (server.with_svc h s) now x r) as -> by reflexivity.
    unfold server.handlePoll, r, poll_at. rewrite arrives by done. rewrite Hp. fold (poll_at c t host remote body). fold r.
    destruct (controller.Poll _ _ _ _ _) as [a s'] eqn:Hpoll. destruct (Poll_box _ _ _ _ _ _ _ _ Hpoll Hn) as ([g |] & ->);
      eexists; rewrite Hbox, Hk, key32_BoxKey; [right; by eexists | by left].
  - intros h' now' x' nm rs js Hnm Hrs Hjs Hzj. unfold answer_at, server.pollReply. rewrite Hnm, Hrs, Hjs. by apply answer_sealed.
Qed.

End Both.
End client.
