(* ===== verification/ClientExample.v ===== *)
(** A client joins the room of ControllerExample over HTTP, polls and leaves: the
    theorems of Client.v applied to it. *)
From stdpp Require Import base list gmap strings.
From Stdlib Require Import ZArith Lia.
From S2P Require Import Prelude GoStrings GoText Netip NetText Encoding Crypto Identity Pki Store Controller ControllerExample Login Oidc LoginExample Server Panel ServerExample Client.

Open Scope Z_scope.

Module clientscenario.
Import client.

#[local] Existing Instance scenario.toy_aead.
#[local] Existing Instance scenario.no_json.
#[local] Existing Instance loginscenario.plain_auth.
#[local] Existing Instance loginscenario.provider.

Definition me : Client := New (str "http://c//") (replicate 32 9) (str "1").
Definition invite : controller.ApiInvite := controller.MkApiInvite (str "http://c") scenario.roomID [] (encode64url scenario.raw).
Definition wish : controller.JoinRequest := join_request (CR := toy) me invite (str "pc") scenario.ends.
Definition doc : bytes := str "{}".

#[local] Instance web : server.Web := {|
  server.url_host _ := []; server.parse_join _ := Some wish; server.parse_leave _ := Some scenario.roomID;
  server.parse_poll _ := Some (poll_request (CR := toy) me 0 scenario.ends);
  server.marshal_join _ := Some doc; server.marshal_map _ _ _ := Some doc |}.
Definition accepted : controller.JoinResponse := controller.MkJoinResponse store.StatusActive (str "net").
#[local] Instance docs : ClientJson := {|
  marshal_join_req _ := Some doc; marshal_poll_req _ := Some doc; marshal_leave_req _ := Some doc;
  unmarshal_join _ := Some accepted; unmarshal_map _ := Some (controller.MkNetMap 1 AddrZero [] ∅); unmarshal_error _ := None |}.

Definition text (_ : Z) : bytes := str "error".
Notation h3 := (serverscenario.server_of scenario.s3).
Notation serve := (panel.serve (CR := toy) None serverscenario.EqualFold).
Notation join_at h q := (serve h Second serverscenario.rnd (arrive (node_path "join") PathJoin (str "c") (str "192.0.2.7:4000") q)).

Lemma me_in_time : in_time me 0 Second.
Proof.
  split; [reflexivity |]. split; [| split; [split; [discriminate | reflexivity] | discriminate]].
  apply (bool_decide_unpack (Forall (fun b => 0 <= b < 256) _)). vm_compute. exact I.
Qed.

Notation ip := (Addr4 (192 * 2 ^ 24 + 2 * 2 ^ 8 + 7)).
Notation joined := (controller.Join (CR := toy) None scenario.s3 Second (identity.PublicKey (CR := toy) (ID me)) wish ip).

(** The invitation of ControllerExample lets the client in, and it is told so. *)
Lemma join_over_http_witness :
  Join (CR := toy) text me (fun q => http_of (fun _ => []) (join_at h3 q).1) 0 invite (str "pc") scenario.ends = Ok accepted
  /\ store.members (controller.st joined.2) <> store.members (controller.st scenario.s3).
Proof.
  split; [| intros H; apply (f_equal length) in H; vm_compute in H; discriminate H].
  assert (joined.1 = Ok accepted) as Hj by (vm_compute; reflexivity).
  destruct (join_over_http (C := toy) None serverscenario.EqualFold text (fun _ => []) h3 serverscenario.rnd me 0 Second invite (str "pc")
    scenario.ends doc (str "c") (str "192.0.2.7:4000")) as [H _].
  - exact me_in_time.
  - reflexivity.
  - reflexivity.
  - vm_compute. discriminate.
  - intros resp js Hr Hs. assert (resp = accepted) as ->. { assert (Ok (E := controller.error) resp = Ok accepted) as E; [| by injection E]. rewrite <- Hr. vm_compute. reflexivity. }
    injection Hs as <-. split; [vm_compute; discriminate | reflexivity].
  - rewrite H. vm_compute. reflexivity.
Defined.

(** It polls and reads its map; leaving a room it is not in succeeds. *)
Notation h4 := (server.with_svc h3 joined.2).
Notation my_poll := (poll_at (C := toy) me 0 (str "c") (str "192.0.2.7:4000") doc).
Notation my_id := (identity.NodeIDFromPublic (CR := toy) (identity.PublicKey (CR := toy) (ID me))).

Lemma joined_node_polls_witness :
  answer (CR := toy) text me true unmarshal_map (http_of (fun _ => []) (server.pollReply (CR := toy) None h4 Second serverscenario.rnd my_poll my_id (BoxKey (CR := toy) me)))
  = Ok (controller.MkNetMap 1 AddrZero [] ∅).
Proof.
  assert (joined = (Ok accepted, joined.2)) as Hj by (vm_compute; reflexivity).
  destruct (joined_node_polls (C := toy) None serverscenario.EqualFold text (fun _ => []) h3 serverscenario.rnd Second my_id me wish ip accepted
    joined.2 0 (poll_request (CR := toy) me 0 scenario.ends) doc (str "c") (str "192.0.2.7:4000") me_in_time Hj) as [_ H];
    [reflexivity | reflexivity | vm_compute; discriminate | reflexivity |].
  destruct (controller.netMap (CR := toy) None joined.2 Second my_id ip) as [nm | e |] eqn:Hnm.
  - eapply H; [exact Hnm | | reflexivity | vm_compute; discriminate]. vm_compute. reflexivity.
  - assert (match controller.netMap (CR := toy) None joined.2 Second my_id ip with Err _ => False | _ => True end) as Hx by (vm_compute; exact I).
    rewrite Hnm in Hx. destruct Hx.
  - assert (match controller.netMap (CR := toy) None joined.2 Second my_id ip with Panic => False | _ => True end) as Hx by (vm_compute; exact I).
    rewrite Hnm in Hx. destruct Hx.
Defined.

Lemma leave_over_http_witness :
  Leave (CR := toy) text me (fun q => http_of (fun _ => [])
    (serve h3 Second serverscenario.rnd (arrive (node_path "leave") PathLeave (str "c") (str "192.0.2.7:4000") q)).1) 0 scenario.roomID = Ok tt.
Proof.
  destruct (leave_over_http (C := toy) None serverscenario.EqualFold text (fun _ => []) h3 serverscenario.rnd me 0 Second scenario.roomID doc
    (str "c") (str "192.0.2.7:4000") me_in_time) as [H _]; [reflexivity | reflexivity | vm_compute; discriminate |].
  rewrite H. vm_compute. reflexivity.
Defined.

Lemma cachedDial_remembers_witness :
  (cachedDial (fun _ => None) (fun a => bool_decide (a = str "192.0.2.9:80")) (str "c.example:80")
    (cachedDial (fun _ => Some [ip; Addr4 (192 * 2 ^ 24 + 2 * 2 ^ 8 + 9)]) (fun _ => true) (str "c.example:80") ∅).2).1
  = DTo (Addr4 (192 * 2 ^ 24 + 2 * 2 ^ 8 + 9)).
Proof.
  refine (eq_trans (cachedDial_remembers (fun _ => Some [ip; Addr4 (192 * 2 ^ 24 + 2 * 2 ^ 8 + 9)]) (fun _ => None) (fun _ => true)
    (fun a => bool_decide (a = str "192.0.2.9:80")) (str "c.example") (str "80") ∅ ip [Addr4 (192 * 2 ^ 24 + 2 * 2 ^ 8 + 9)] _ _ _ _) _);
    vm_compute; reflexivity.
Defined.
End clientscenario.
