(* ===== verification/Admin.v ===== *)
(** Administering the controller from a terminal (cmd/zpt-controller/admin.go and
    main.go): which operation of the service each command is, with the room and
    the member its flags name.

    What a command prints is an [output]; the parsing of the flags themselves,
    tables and JSON are outside. [flags] holds the values of the flags with the
    defaults of [runAdmin]. *)
From stdpp Require Import base list gmap strings.
From Stdlib Require Import ZArith Lia.
From S2P Require Import Prelude GoStrings GoText Netip NetText Encoding Crypto Pki Acl Store Controller Login Oidc Server Panel.

Open Scope Z_scope.

Module zptctl.

Definition cliAdmin : store.User := store.MkUser 0 (str "cli") [] true 0 false.

(** The flag [-file]: not given, or what reading the file gives. *)
Inductive source := NoFile | Read (text : option bytes).
Record flags := MkFlags {
  f_room : bytes; f_member : bytes; f_name : bytes; f_subnet : bytes; f_owner : bytes; f_policy : bytes; f_broadcast : bytes; f_dht : bytes;
  f_servers : bytes; f_ip : bytes; f_tags : bytes; f_url : bytes; f_uses : Z; f_hours : Z; f_auto : bool; f_note : bytes; f_id : Z; f_via : bytes;
  f_login : bytes; f_email : bytes; f_admin : bool; f_limit : Z; f_file : source; f_from : bytes; f_to : bytes; f_proto : bytes; f_port : Z;
  f_json : bool }.
Definition defaults : flags :=
  MkFlags [] [] [] [] [] [] [] [] [] [] [0] [] 1 24 false [] 0 [] [] [] false 50 NoFile [] [] (str "tcp") 0 false.

Inductive error : Type :=
  | EService (e : controller.error) | EAccount (e : login.error)
  | ENoRoom | ERoomNotFound (ref : bytes) | ERoomAmbiguous (ref : bytes) | ENoMember | EMemberNotFound (ref : bytes)
  | ENoURL | EOwner | EUser | EDHT | EFile | ERules (e : acl.error) | EUnknown.

Inductive output : Type :=
  | Done | ORoom (r : store.Room) | ORooms (l : list store.Room) | OView (v : controller.RoomView) | OMembers (v : controller.RoomView)
  | OInvites (v : controller.RoomView) | OInvite (inv : controller.ApiInvite) | ORules (l : list acl.Rule) | OText (text : bytes)
  | OTest (ok : bool) (rule : bytes) | OPassword (login pw : bytes) | OUsers (l : list store.User) | OAudit (l : list store.AuditEntry).

Record randoms := MkRandoms { a_room : controller.room_rnd; a_invite : bytes; a_password : bytes; a_salt : bytes; a_nonce : bytes }.
Definition RandomPassword (rnd : bytes) : bytes := encode64url rnd.

Notation Service := controller.Service.
Notation outcome := (res error output * Service)%type.

Section Admin.
Context `{CR : Crypto} `{A : Aead} `{J : pki.Json} `{AU : login.Auth} (kek : option bytes) (EqualFold : bytes -> bytes -> bool).

(** ** Rooms and members *)

Definition matches (ref : bytes) (r : store.Room) : bool := bool_decide (store.r_ID r = ref) || EqualFold (store.r_Name r) ref.

Definition room (s : Service) (now : Z) (ref : bytes) : res error controller.RoomView :=
  if bool_decide (ref = []) then Err ENoRoom
  else
    rooms ← map_err EService (controller.Rooms kek s cliAdmin);
    match List.filter (matches ref) rooms with
    | [] => Err (ERoomNotFound ref)
    | [r] => map_err EService (controller.Room kek s now cliAdmin (store.r_ID r))
    | _ => Err (ERoomAmbiguous ref)
    end.

Definition is_member (ref : bytes) (m : store.Member) : bool :=
  bool_decide (store.m_Name (store.m_row m) = ref) || bool_decide (store.m_NodeID (store.m_row m) = ref).
Definition member (v : controller.RoomView) (ref : bytes) : res error store.Member :=
  if bool_decide (ref = []) then Err ENoMember
  else from_option (List.find (is_member ref) (controller.v_Members v)) (EMemberNotFound ref).

(** ** Commands *)

(** [done]. *)
Definition done {B} (r : res controller.error B * Service) : outcome := ((fun _ => Done) <$> map_err EService r.1, r.2).
Definition shown {B} (r : res controller.error B) (f : B -> output) (s : Service) : outcome := (f <$> map_err EService r, s).

(** A command on a room, and one on a member of a room. *)
Definition in_room (s : Service) (now : Z) (f : flags) (cmd : controller.RoomView -> outcome) : outcome :=
  match room s now (f_room f) with Ok v => cmd v | Err e => (Err e, s) | Panic => (Panic, s) end.
Definition in_member (s : Service) (now : Z) (f : flags) (cmd : controller.RoomView -> store.Member -> outcome) : outcome :=
  in_room s now f (fun v => match member v (f_member f) with Ok m => cmd v m | Err e => (Err e, s) | Panic => (Panic, s) end).

Notation rid v := (store.r_ID (controller.v_Room v)).
Notation nid m := (store.m_NodeID (store.m_row m)).
(** A flag that is empty keeps what there is. *)
Definition or_kept (flag kept : bytes) : bytes := if bool_decide (flag = []) then kept else flag.

Definition UserByLogin (s : Service) (l : bytes) : res login.error store.User :=
  login.in_read s (login.tx (store.UserByLogin (ToLower l))).

Definition room_create (s : Service) (now : Z) (x : randoms) (f : flags) : outcome :=
  match UserByLogin s (f_owner f) with
  | Ok u =>
    let '(r, s) := controller.CreateRoom kek s now u (f_name f) (f_subnet f) (or_kept (f_policy f) (str "manual")) (a_room x) in
    (ORoom <$> map_err EService r, s)
  | Err _ => (Err EOwner, s)
  | Panic => (Panic, s)
  end.

Definition room_set (s : Service) (now : Z) (f : flags) : outcome := in_room s now f (fun v =>
  let r := controller.v_Room v in
  match controller.UpdateRoom kek s now cliAdmin (rid v) (or_kept (f_name f) (store.r_Name r)) (or_kept (f_policy f) (store.JoinPolicy r))
          (or_kept (f_broadcast f) (store.Broadcast r)) with
  | (Ok _, s) =>
    if bool_decide (f_dht f = []) then (Ok Done, s)
    else if negb (bool_decide (f_dht f = str "on")) && negb (bool_decide (f_dht f = str "off")) then (Err EDHT, s)
    else done (controller.SetRoomDHT kek s now cliAdmin (rid v) (bool_decide (f_dht f = str "on")))
  | (Err e, s) => (Err (EService e), s)
  | (Panic, s) => (Panic, s)
  end).

Definition member_act (s : Service) (now : Z) (f : flags) (act : controller.Action) : outcome := in_member s now f (fun v m =>
  done (controller.MemberAction kek s now cliAdmin (rid v) (nid m) act)).

Definition member_set (s : Service) (now : Z) (f : flags) : outcome := in_member s now f (fun v m =>
  let row := store.m_row m in
  done (controller.UpdateMember kek s now cliAdmin (rid v) (nid m) (or_kept (f_name f) (store.m_Name row)) (or_kept (f_ip f) (Addr_String (store.IP row)))
    (if bool_decide (f_tags f = [0]) then Join 44 (store.Tags row) else f_tags f))).

(** The lifetime is a product of 64-bit integers. *)
Definition invite_create (s : Service) (now : Z) (x : randoms) (f : flags) : outcome := in_room s now f (fun v =>
  if bool_decide (f_url f = []) then (Err ENoURL, s)
  else
    let '(r, s) := controller.CreateInvite kek s now cliAdmin (TrimRight (f_url f) 47) (rid v) (f_uses f) (int64 (f_hours f * Hour)) (f_auto f) (f_note f) (a_invite x) in
    (OInvite <$> map_err EService r, s)).

Definition exit_use (s : Service) (now : Z) (f : flags) : outcome := in_member s now f (fun v m =>
  match (if bool_decide (f_via f = []) then Ok [] else (fun x => nid x) <$> member v (f_via f)) with
  | Ok via => done (controller.SetMemberExit kek s now cliAdmin (rid v) (nid m) via)
  | Err e => (Err e, s)
  | Panic => (Panic, s)
  end).

(** [LIMIT] of a negative number is no limit. *)
Definition audit_limit (s : Service) (n : Z) : nat := if n <? 0 then length (store.audit (controller.st s)) else Z.to_nat n.

Definition account (r : res login.error unit * Service) (out : output) : outcome := ((fun _ => out) <$> map_err EAccount r.1, r.2).
Definition user_add (s : Service) (now : Z) (x : randoms) (f : flags) : outcome :=
  let pw := RandomPassword (a_password x) in
  account (login.CreateUser s now None (f_login f) pw (f_admin f) (a_salt x)) (OPassword (ToLower (f_login f)) pw).
Definition user_passwd (s : Service) (now : Z) (x : randoms) (f : flags) : outcome :=
  let pw := RandomPassword (a_password x) in account (login.SetPassword s now (ToLower (f_login f)) pw (a_salt x)) (OPassword (f_login f) pw).
Definition user_delete (s : Service) (now : Z) (f : flags) : outcome :=
  match UserByLogin s (f_login f) with
  | Ok u => account (login.DeleteUser kek s now cliAdmin (store.u_ID u)) Done
  | Err _ => (Err EUser, s)
  | Panic => (Panic, s)
  end.

Definition acl_show (s : Service) (now : Z) (f : flags) : outcome := in_room s now f (fun v =>
  let text := store.ACL (controller.v_Room v) in
  if f_json f then (ORules <$> map_err ERules (acl.Parse text), s) else (Ok (OText text), s)).
Definition acl_set (s : Service) (now : Z) (f : flags) : outcome := in_room s now f (fun v =>
  match f_file f with
  | Read None => (Err EFile, s)
  | NoFile => done (controller.SetRoomACL kek s now cliAdmin (rid v) [])
  | Read (Some text) => done (controller.SetRoomACL kek s now cliAdmin (rid v) text)
  end).

(** The commands of [runAdmin]. *)
Inductive command : Type :=
  | RoomCreate | RoomList | RoomShow | RoomSet | RoomDNS | RoomDelete
  | MemberList | MemberDo (act : controller.Action) | MemberSet
  | InviteCreate | InviteList | InviteRevoke | ExitUse | AclShow | AclSet | AclTest
  | UserAdd | UserList | UserDelete | UserEmail | UserTOTPOff | UserPasswd | AuditList.

Definition command_of (sub action : bytes) : option command :=
  let same (a b : string) := bool_decide (sub = str a) && bool_decide (action = str b) in
  if same "room" "create" then Some RoomCreate else if same "room" "list" then Some RoomList else if same "room" "show" then Some RoomShow
  else if same "room" "set" then Some RoomSet else if same "room" "dns" then Some RoomDNS else if same "room" "delete" then Some RoomDelete
  else if same "member" "list" then Some MemberList
  else if same "member" "approve" then Some (MemberDo controller.ActApprove) else if same "member" "ban" then Some (MemberDo controller.ActBan)
  else if same "member" "unban" then Some (MemberDo controller.ActUnban) else if same "member" "kick" then Some (MemberDo controller.ActKick)
  else if same "member" "set" then Some MemberSet
  else if same "invite" "create" then Some InviteCreate else if same "invite" "list" then Some InviteList else if same "invite" "revoke" then Some InviteRevoke
  else if same "routes" "approve" then Some (MemberDo controller.ActRoutes) else if same "routes" "revoke" then Some (MemberDo controller.ActNoRoutes)
  else if same "exit" "approve" then Some (MemberDo controller.ActExit) else if same "exit" "revoke" then Some (MemberDo controller.ActNoExit)
  else if same "exit" "use" then Some ExitUse
  else if same "acl" "show" then Some AclShow else if same "acl" "set" then Some AclSet else if same "acl" "test" then Some AclTest
  else if same "user" "add" then Some UserAdd else if same "user" "list" then Some UserList else if same "user" "delete" then Some UserDelete
  else if same "user" "email" then Some UserEmail else if same "user" "totp-off" then Some UserTOTPOff else if same "user" "passwd" then Some UserPasswd
  else if same "audit" "" then Some AuditList else None.

Definition perform (s : Service) (now : Z) (x : randoms) (f : flags) (c : command) : outcome :=
  match c with
  | RoomCreate => room_create s now x f
  | RoomList => shown (controller.Rooms kek s cliAdmin) ORooms s
  | RoomShow => in_room s now f (fun v => (Ok (OView v), s))
  | RoomSet => room_set s now f
  | RoomDNS => in_room s now f (fun v => done (controller.SetRoomDNS kek s now cliAdmin (rid v) (f_servers f)))
  | RoomDelete => in_room s now f (fun v => done (controller.DeleteRoom kek s now cliAdmin (rid v)))
  | MemberList => in_room s now f (fun v => (Ok (OMembers v), s))
  | MemberDo act => member_act s now f act
  | MemberSet => member_set s now f
  | InviteCreate => invite_create s now x f
  | InviteList => in_room s now f (fun v => (Ok (OInvites v), s))
  | InviteRevoke => in_room s now f (fun v => done (controller.RevokeInvite kek s now cliAdmin (rid v) (f_id f)))
  | ExitUse => exit_use s now f
  | AclShow => acl_show s now f
  | AclSet => acl_set s now f
  | AclTest => in_room s now f (fun v =>
      shown (controller.TestACL kek EqualFold s now cliAdmin (rid v) (f_from f) (f_to f) (f_proto f) (f_port f)) (fun p => OTest p.1 p.2) s)
  | UserAdd => user_add s now x f
  | UserList => (OUsers <$> map_err EAccount (login.Users s cliAdmin), s)
  | UserDelete => user_delete s now f
  | UserEmail => account (login.BindOIDCEmail s now (ToLower (f_login f)) (f_email f)) Done
  | UserTOTPOff => account (login.ResetTOTP kek s now (ToLower (f_login f)) (a_nonce x)) Done
  | UserPasswd => user_passwd s now x f
  | AuditList => (OAudit <$> map_err EAccount (server.Audit s cliAdmin (audit_limit s (f_limit f))), s)
  end.

Definition runAdmin (s : Service) (now : Z) (x : randoms) (sub action : bytes) (f : flags) : outcome :=
  match command_of sub action with Some c => perform s now x f c | None => (Err EUnknown, s) end.

(** ** The other commands that change the database (main.go); [written]: whether
    the copy could be written. *)
Definition run (s : Service) (now : Z) (x : randoms) (sub action out : bytes) (written : res controller.error unit) (f : flags) : outcome :=
  if bool_decide (sub = str "useradd") then user_add s now x f
  else if bool_decide (sub = str "passwd") then user_passwd s now x f
  else if bool_decide (sub = str "backup") then
    if bool_decide (out = []) then (Err EFile, s) else done (controller.Backup s now cliAdmin written)
  else runAdmin s now x sub action f.
End Admin.

(** ** The lists of "serve" *)

Definition splitList (s : bytes) : list bytes := List.filter (fun p => negb (bool_decide (p = []))) (TrimSpace <$> Split 44 s).
Definition sniList (sni dest : bytes) : list bytes :=
  match splitList sni with
  | [] => match SplitHostPort dest with Some (host, _) => [host] | None => [] end
  | l => l
  end.
End zptctl.
