(* ===== verification/AdminInv.v ===== *)
(** What the terminal commands of the controller do: each is a run of operations
    of the service, so its invariant holds whatever is typed; a room is acted on
    only when the reference names it alone; and which member a reference names. *)
From stdpp Require Import base list gmap strings relations.
From Stdlib Require Import ZArith Lia.
From S2P Require Import Prelude GoStrings GoText Netip NetText Encoding Crypto Identity Pki Acl Store Controller ControllerNet.
From S2P Require Import ControllerInv ControllerMap ControllerOps Login LoginInv Oidc Server Panel ServerInv Admin.

Open Scope Z_scope.

Module admininv.
Import zptctl.

Section Runs.
Context `{CR : Crypto} `{A : Aead} `{J : pki.Json} `{AU : login.Auth} (kek : option bytes) (EqualFold : bytes -> bytes -> bool).

Notation run s s' := (rtc (service.step kek) s s').

Lemma in_room_run s now f cmd : (forall v, run s (cmd v).2) -> run s (in_room kek EqualFold s now f cmd).2.
Proof. intros H. unfold in_room. destruct (room kek EqualFold s now (f_room f)); [apply H | apply rtc_refl | apply rtc_refl]. Qed.
Lemma in_member_run s now f cmd : (forall v m, run s (cmd v m).2) -> run s (in_member kek EqualFold s now f cmd).2.
Proof. intros H. apply in_room_run. intros v. cbv beta. destruct (member v (f_member f)); [apply H | apply rtc_refl | apply rtc_refl]. Qed.

Lemma room_set_run s now f : run s (room_set kek EqualFold s now f).2.
Proof.
  apply in_room_run. intros v. cbv beta zeta. destruct (controller.UpdateRoom _ _ _ _ _ _ _ _) as [r s1] eqn:Hu.
  assert (run s s1) as H by (replace s1 with (r, s1).2 by done; rewrite <- Hu; apply rtc_once, service.s_update).
  destruct r; [| exact H | exact H]. case_bool_decide; [exact H |]. destruct (_ && _); [exact H |].
  etrans; [exact H |]. apply rtc_once, service.s_dht.
Qed.

Lemma perform_run s now x f c : service.rnd_ok kek (a_room x) -> run s (perform kek EqualFold s now x f c).2.
Proof.
  intros Hx. destruct c; cbn [perform].
  - unfold room_create. destruct (UserByLogin _ _) as [u | |]; [| apply rtc_refl | apply rtc_refl].
    destruct (controller.CreateRoom _ _ _ _ _ _ _ _) as [r s1] eqn:Hc. replace s1 with (r, s1).2 by done. rewrite <- Hc. by apply rtc_once, service.s_create.
  - apply rtc_refl.
  - apply in_room_run. intros v. apply rtc_refl.
  - apply room_set_run.
  - apply in_room_run. intros v. apply rtc_once, service.s_dns.
  - apply in_room_run. intros v. apply rtc_once, service.s_delete.
  - apply in_room_run. intros v. apply rtc_refl.
  - apply in_member_run. intros v m. apply rtc_once, service.s_action.
  - apply in_member_run. intros v m. apply rtc_once, service.s_member.
  - apply in_room_run. intros v. cbv beta. case_bool_decide; [apply rtc_refl |].
    destruct (controller.CreateInvite _ _ _ _ _ _ _ _ _ _ _) as [r s1] eqn:Hc. replace s1 with (r, s1).2 by done. rewrite <- Hc. apply rtc_once, service.s_invite.
  - apply in_room_run. intros v. apply rtc_refl.
  - apply in_room_run. intros v. apply rtc_once, service.s_revoke.
  - apply in_member_run. intros v m. cbv beta. destruct (if bool_decide _ then _ else _); [apply rtc_once, service.s_exit | apply rtc_refl | apply rtc_refl].
  - apply in_room_run. intros v. cbv beta. destruct (f_json f); apply rtc_refl.
  - apply in_room_run. intros v. cbv beta. destruct (f_file f) as [| [t |]]; [apply rtc_once, service.s_acl | apply rtc_once, service.s_acl | apply rtc_refl].
  - apply in_room_run. intros v. apply rtc_refl.
  - apply serverinv.CreateUser_run.
  - apply rtc_refl.
  - unfold user_delete. destruct (UserByLogin _ _); [apply serverinv.DeleteUser_run | apply rtc_refl | apply rtc_refl].
  - apply serverinv.BindOIDCEmail_run.
  - apply serverinv.ResetTOTP_run.
  - apply serverinv.SetPassword_run.
  - apply rtc_refl.
Qed.

Lemma command_run s now x sub action out ok f : service.rnd_ok kek (a_room x) -> run s (zptctl.run kek EqualFold s now x sub action out ok f).2.
Proof.
  intros Hx. unfold zptctl.run. case_bool_decide; [apply serverinv.CreateUser_run |]. case_bool_decide; [apply serverinv.SetPassword_run |].
  case_bool_decide; [case_bool_decide; [apply rtc_refl | apply rtc_once, service.s_backup] |].
  unfold runAdmin. destruct (command_of _ _); [by apply perform_run | apply rtc_refl].
Qed.

Lemma run_inv `{AL : !AeadLaws A} s s' : run s s' -> service.inv kek (controller.st s) -> service.inv kek (controller.st s').
Proof. induction 1 as [s | s s1 s2 H _ IH]; [done |]. intros Hs. apply IH. by eapply service.step_inv. Qed.

(** ** The server and the terminal on one database

    A command opens the database with a service of its own while the server runs;
    the server's service finds the changed tables. A command is one step here: its
    transactions are not interleaved with those of a request. *)
Context `{P : oidc.Provider} `{W : server.Web}.
Definition reopened (h : server.Server) (d : store.db) : server.Server :=
  let s := server.svc h in
  server.with_svc h (controller.MkService d (controller.hub_ s) (controller.maxRooms s) (controller.maxMembers s) (controller.paths s)).
Inductive acts (h : server.Server) : server.Server -> Prop :=
  | by_request now x r : service.rnd_ok kek (server.x_room x) -> acts h (panel.serve kek EqualFold h now x r).2
  | by_terminal now x sub action out ok f : service.rnd_ok kek (a_room x) ->
      acts h (reopened h (controller.st (zptctl.run kek EqualFold (controller.NewService (controller.st (server.svc h))) now x sub action out ok f).2)).

(** C7: whatever requests come and whatever commands are typed meanwhile, in
    whatever order, the controller's database keeps its invariant: the schema,
    disjoint subnets, keys that open, usable addresses, valid routes. *)
Theorem controller_invariant `{AL : !AeadLaws A} h h' : service.inv kek (controller.st (server.svc h)) -> rtc acts h h' ->
  service.inv kek (controller.st (server.svc h')).
Proof.
  intros Hi Hs. induction Hs as [h | h h1 h2 H _ IH]; [done |]. apply IH. destruct H as [now x r Hx | now x sub action out ok f Hx].
  - eapply run_inv; [by apply serverinv.serve_run | done].
  - pose proof (command_run (controller.NewService (controller.st (server.svc h))) now x sub action out ok f Hx) as Hr.
    exact (run_inv _ _ Hr Hi).
Qed.

(** ** Which room a reference names *)

Lemma filter_every {X} (p : X -> bool) l : (forall x, p x = true) -> List.filter p l = l.
Proof. intros H. induction l as [| x l IH]; cbn; [done |]. by rewrite H, IH. Qed.

Lemma open_rooms_ok l rs : store.open_rooms kek l = Ok rs -> Forall2 (fun r0 r => store.r_ID r0 = store.r_ID r /\ store.r_Name r0 = store.r_Name r) l rs.
Proof.
  revert rs. induction l as [| r0 l IH]; intros rs; cbn [store.open_rooms].
  - intros [= <-]. constructor.
  - intros (r & H & (rs' & H' & [= <-])%bind_ok)%bind_ok. apply service.openRoom_ok in H as (x & k & _ & _ & ->). constructor; [done | by apply IH].
Qed.

Lemma Rooms_ok s rs : controller.Rooms kek s cliAdmin = Ok rs ->
  exists l, l ≡ₚ store.rooms (controller.st s) /\ Forall2 (fun r0 r => store.r_ID r0 = store.r_ID r /\ store.r_Name r0 = store.r_Name r) l rs.
Proof.
  unfold controller.Rooms, controller.Read. destruct (controller.tx _ _) as [[rs' d] | |] eqn:E; [| done | done]. intros [= <-].
  apply service.tx_ok in E. unfold store.ListRooms in E. apply bind_ok in E as (rs0 & H & [= <- <-]). eexists. split; [| by apply open_rooms_ok].
  rewrite store.order_by_perm. rewrite filter_every; [done | by intros].
Qed.

Lemma Room_ok s now id v : controller.Room kek s now cliAdmin id = Ok v -> store.r_ID (controller.v_Room v) = id
  /\ controller.v_Members v = netmap.query_result (netmap.of_room id) (controller.st s).
Proof.
  unfold controller.Room, controller.Read. intros H.
  match type of H with _ <$> ?m = _ => destruct m as [[v' d] | |] eqn:E end; [| done | done]. injection H as <-.
  apply store.tx_bind_ok in E as (r & d1 & (-> & _ & r0 & _ & Hid & Ho)%service.roomFor_ok & E).
  apply store.tx_bind_ok in E as (pub & d2 & [_ ->]%service.lift_ok & E). apply store.tx_bind_ok in E as (ms & d3 & [= <- <-]%service.tx_ok & E).
  apply store.tx_bind_ok in E as (invs & d4 & [= <- <-]%service.tx_ok & [= <- _]). split; [| done].
  apply service.openRoom_ok in Ho as (x & k & _ & _ & ->). exact Hid.
Qed.

(** a command acts on a room only when the reference, an ID or a name, names
    that room of the database and no other. *)
Theorem room_named s now ref v : room kek EqualFold s now ref = Ok v ->
  exists r, r ∈ store.rooms (controller.st s) /\ store.r_ID r = store.r_ID (controller.v_Room v) /\ matches EqualFold ref r = true
    /\ forall r', r' ∈ store.rooms (controller.st s) -> matches EqualFold ref r' = true -> r' = r.
Proof.
  unfold room. destruct (bool_decide _); [done |]. intros (rs & Hrs & H)%bind_ok.
  destruct (controller.Rooms kek s cliAdmin) as [rs' | |] eqn:Hr; [| done | done]. injection Hrs as ->.
  destruct (Rooms_ok s rs Hr) as (l & Hl & Hf). clear Hr.
  assert (Forall2 (fun r0 r => store.r_ID r0 = store.r_ID r) (List.filter (matches EqualFold ref) l) (List.filter (matches EqualFold ref) rs)) as Hm.
  { clear Hl H. induction Hf as [| r0 r l rs [Hi Hn] Hf IH]; [constructor |]. cbn [List.filter].
    replace (matches EqualFold ref r) with (matches EqualFold ref r0) by (unfold matches; by rewrite Hi, Hn).
    destruct (matches EqualFold ref r0); [by constructor | done]. }
  destruct (List.filter (matches EqualFold ref) rs) as [| r [|]] eqn:Hfr; [done | | done].
  destruct (controller.Room _ _ _ _ _) as [v' | |] eqn:Hv; [| done | done]. injection H as ->. apply Room_ok in Hv as [Hv _].
  apply Forall2_cons_inv_r in Hm as (r0 & l' & Hid & ->%Forall2_nil_inv_r & Hfl). exists r0.
  assert (forall r', r' ∈ store.rooms (controller.st s) -> matches EqualFold ref r' = true -> r' = r0) as Hu.
  { intros r' Hin Hmr. rewrite <- Hl in Hin. apply list_elem_of_singleton. rewrite <- Hfl. by apply store.elem_of_Filter. }
  assert (r0 ∈ List.filter (matches EqualFold ref) l) as Hin by (rewrite Hfl; by apply list_elem_of_singleton).
  apply store.elem_of_Filter in Hin as [Hin Hmr]. rewrite Hl in Hin. rewrite Hid, Hv. done.
Qed.

(** ** Which member a reference names *)

(** the member a reference names: the first, in the order of the addresses'
    texts, that has it for its name or its node's ID. *)
Theorem member_first s now id v ref m : controller.Room kek s now cliAdmin id = Ok v ->
  member v ref = Ok m <-> ref <> [] /\ exists l l', netmap.query_result (netmap.of_room id) (controller.st s) = l ++ m :: l'
    /\ is_member ref m = true /\ Forall (fun x => is_member ref x = false) l.
Proof.
  intros Hv. apply Room_ok in Hv as [_ <-]. unfold member. case_bool_decide as Hr; [split; [done | by intros []] |].
  generalize (controller.v_Members v). intros ms. split.
  - intros H. split; [done |]. induction ms as [| x ms IH]; [done |]. cbn [List.find] in H. destruct (is_member ref x) eqn:Hx.
    + injection H as ->. by exists [], ms.
    + destruct (IH H) as (l & l' & -> & Hm & Hl). exists (x :: l), l'. split; [done |]. split; [done |]. by constructor.
  - intros (_ & l & l' & -> & Hm & Hl). induction Hl as [| x l Hx Hl IH]; cbn [app List.find]; [by rewrite Hm | by rewrite Hx].
Qed.

(** a node's ID names that node's membership, as long as no member of the room
    has taken the ID for its name. *)
Theorem member_by_id s now id v row : store.wf (controller.st s) -> controller.Room kek s now cliAdmin id = Ok v ->
  row ∈ store.members (controller.st s) -> store.m_RoomID row = id -> store.m_NodeID row <> [] ->
  Forall (fun r => store.m_RoomID r = id -> store.m_Name r <> store.m_NodeID row) (store.members (controller.st s)) ->
  exists m, member v (store.m_NodeID row) = Ok m /\ store.m_row m = row.
Proof.
  intros Hw Hv Hin Hid Hne Hno. pose proof (Room_ok _ _ _ _ Hv) as [_ Hms]. unfold member. rewrite bool_decide_eq_false_2 by done.
  destruct (List.find (is_member (store.m_NodeID row)) (controller.v_Members v)) as [m |] eqn:Hf.
  - exists m. split; [done |]. apply store.find_spec in Hf as [Hm Hmm]. rewrite Hms in Hm. apply netmap.query_in in Hm as (Hmi & Hmr & _).
    unfold netmap.of_room in Hmr. apply bool_decide_eq_true in Hmr. unfold is_member in Hmm. apply orb_true_iff in Hmm as [Hmm | Hmm]; apply bool_decide_eq_true in Hmm.
    + rewrite Forall_forall in Hno. by destruct (Hno _ Hmi Hmr).
    + apply (store.key_inj _ _ _ _ (store.w_members _ Hw) Hmi Hin). by rewrite Hmr, Hmm, Hid.
  - exfalso. destruct (netmap.query_row (netmap.of_room id) (controller.st s) row Hw Hin) as (m & Hm & Hmr);
      [unfold netmap.of_room; by apply bool_decide_eq_true |].
    rewrite <- Hms in Hm. apply list_elem_of_In in Hm. pose proof (find_none _ _ Hf m Hm) as Hn. unfold is_member in Hn.
    rewrite Hmr, (bool_decide_eq_true_2 (store.m_NodeID row = _)), orb_true_r in Hn by done. done.
Qed.
End Runs.
End admininv.
