(* ===== verification/AdminExample.v ===== *)
(** Commands on the room of ControllerExample: the theorems of AdminInv applied to
    it, a member that takes another's node ID for its name, and a lifetime that
    wraps around. *)
From stdpp Require Import base list gmap strings relations.
From Stdlib Require Import ZArith Lia.
From S2P Require Import Prelude GoStrings GoText Netip NetText Encoding Crypto Identity Pki Acl Store Controller ControllerInv ControllerMap ControllerExample.
From S2P Require Import Login LoginInv Oidc LoginExample Server Panel ServerInv ServerExample Admin AdminInv.

Open Scope Z_scope.

Module adminscenario.
Import zptctl admininv.

#[local] Existing Instance scenario.toy_aead.
#[local] Existing Instance scenario.toy_aead_laws.
#[local] Existing Instance scenario.no_json.
#[local] Existing Instance loginscenario.plain_auth.

Definition EqualFold (a b : bytes) : bool := bool_decide (a = b).
Definition rnd : randoms := MkRandoms scenario.rnd (replicate 18 6) (zeros 15) (zeros 16) (zeros 24).
Definition with_room (room member : bytes) : flags :=
  let d := defaults in
  MkFlags room member (f_name d) (f_subnet d) (f_owner d) (f_policy d) (f_broadcast d) (f_dht d) (f_servers d) (f_ip d) (f_tags d) (str "http://c/") (f_uses d)
    (f_hours d) (f_auto d) (f_note d) (f_id d) (f_via d) (f_login d) (f_email d) (f_admin d) (f_limit d) (f_file d) (f_from d) (f_to d) (f_proto d) (f_port d) false.
Notation zpt s sub action f := (runAdmin (CR := toy) None EqualFold s 0 rnd (str sub) (str action) f).
Definition statuses (s : controller.Service) : list (bytes * bytes) :=
  map (fun m => (store.m_NodeID m, store.Status m)) (store.members (controller.st s)).

#[local] Existing Instance loginscenario.provider.
#[local] Existing Instance serverscenario.web.
Definition h5 : server.Server := serverscenario.server_of scenario.s5.
Notation ban := (run (CR := toy) None EqualFold (controller.NewService (controller.st (server.svc h5))) 0 rnd (str "member") (str "ban") [] (Ok tt)
  (with_room (str "net") (scenario.nodeID 4))).
Notation h6 := (panel.serve (CR := toy) None EqualFold (reopened h5 (controller.st ban.2)) 0 serverscenario.rnd serverscenario.log_out).

(** A ban at the terminal, then a request to the server. *)
Lemma controller_invariant_witness : service.inv (CR := toy) None (controller.st (server.svc h6.2))
  /\ statuses (server.svc h6.2) = [(scenario.nodeID 3, store.StatusActive); (scenario.nodeID 4, store.StatusBanned)].
Proof.
  split; [| vm_compute; reflexivity]. apply (controller_invariant (CR := toy) None EqualFold h5).
  - apply (service.reachable_inv (CR := toy) None). exact scenario.s5_reachable.
  - apply rtc_l with (reopened h5 (controller.st ban.2)).
    + exact (by_terminal (CR := toy) None EqualFold h5 0 rnd (str "member") (str "ban") [] (Ok tt) (with_room (str "net") (scenario.nodeID 4)) scenario.rnd_fits).
    + apply rtc_once. exact (by_request (CR := toy) None EqualFold _ 0 serverscenario.rnd serverscenario.log_out scenario.rnd_fits).
Defined.

Notation view := (room None EqualFold scenario.s5 0 (str "net")).
Definition the_view : controller.RoomView :=
  match view with Ok v => v | _ => controller.MkRoomView (store.MkRoom [] [] PrefixZero [] [] 0 [] [] [] [] false 0 0) [] [] [] end.
Lemma view_ok : view = Ok the_view.
Proof. vm_compute. reflexivity. Qed.
Lemma room_view : controller.Room None scenario.s5 0 cliAdmin scenario.roomID = Ok the_view.
Proof. vm_compute. reflexivity. Qed.

Lemma room_named_witness : exists r, r ∈ store.rooms (controller.st scenario.s5) /\ store.r_ID r = scenario.roomID /\ matches EqualFold (str "net") r = true.
Proof.
  destruct (room_named None EqualFold scenario.s5 0 (str "net") the_view view_ok) as (r & Hin & Hid & Hm & _).
  exists r. split; [exact Hin |]. split; [| exact Hm]. rewrite Hid. vm_compute. reflexivity.
Defined.

Definition row4 : store.member_row := nth 1 (store.members (controller.st scenario.s5)) (store.MkMemberRow [] [] [] [] AddrZero [] [] 0 [] false []).
Lemma member_by_id_witness : exists m, member the_view (scenario.nodeID 4) = Ok m /\ store.m_row m = row4.
Proof.
  destruct (member_by_id None scenario.s5 0 scenario.roomID the_view row4) as (m & Hm & Hr).
  - apply (service.i_wf (CR := toy) None). apply (service.reachable_inv (CR := toy) None). exact scenario.s5_reachable.
  - exact room_view.
  - unfold row4. apply list_elem_of_In, nth_In. vm_compute. repeat constructor.
  - vm_compute. reflexivity.
  - vm_compute. discriminate.
  - vm_compute. repeat constructor; discriminate.
  - exists m. split; [| exact Hr]. rewrite <- Hm. vm_compute. reflexivity.
Defined.

(** The node that joins first calls itself by the ID of another. Naming the other
    by its ID then means the first: a ban hits the wrong node. *)
Definition impostor : controller.JoinRequest :=
  let q := scenario.request 4 in
  controller.MkJoinRequest (controller.j_RoomID q) (controller.j_Token q) (scenario.nodeID 3) (controller.j_WGKey q) (controller.j_BoxKey q)
    (controller.j_Endpoints q) (controller.j_ClientVersion q).
Definition t4 : controller.Service := snd (controller.Join (CR := toy) None scenario.s3 0 (scenario.nodeKey 4) impostor (Addr4 2)).
Definition t5 : controller.Service := snd (controller.Join (CR := toy) None t4 0 (scenario.nodeKey 3) (scenario.request 3) (Addr4 1)).
Theorem wrong_member : statuses t5 = [(scenario.nodeID 4, store.StatusActive); (scenario.nodeID 3, store.StatusActive)]
  /\ statuses (zpt t5 "member" "ban" (with_room (str "net") (scenario.nodeID 3))).2
     = [(scenario.nodeID 4, store.StatusBanned); (scenario.nodeID 3, store.StatusActive)].
Proof. vm_compute. split; reflexivity. Qed.

(** "-hours 5124096" is 584 years, but in nanoseconds it wraps: the invitation
    lasts 25 minutes instead of being refused. *)
Definition too_long : flags :=
  let d := with_room (str "net") [] in
  MkFlags (f_room d) (f_member d) (f_name d) (f_subnet d) (f_owner d) (f_policy d) (f_broadcast d) (f_dht d) (f_servers d) (f_ip d) (f_tags d) (f_url d) (f_uses d)
    5124096 (f_auto d) (f_note d) (f_id d) (f_via d) (f_login d) (f_email d) (f_admin d) (f_limit d) (f_file d) (f_from d) (f_to d) (f_proto d) (f_port d) false.
Theorem hours_wrap : exists inv, (zpt scenario.s5 "invite" "create" too_long).1 = Ok (OInvite inv)
  /\ map store.i_Expires (store.invites (controller.st (zpt scenario.s5 "invite" "create" too_long).2)) = [3600; 1526].
Proof. eexists. vm_compute. split; reflexivity. Qed.

(** "room set -name X -dht maybe" fails, and the room has its new name. *)
Definition rename : flags :=
  let d := with_room (str "net") [] in
  MkFlags (f_room d) (f_member d) (str "new") (f_subnet d) (f_owner d) (f_policy d) (f_broadcast d) (str "maybe") (f_servers d) (f_ip d) (f_tags d) (f_url d) (f_uses d)
    (f_hours d) (f_auto d) (f_note d) (f_id d) (f_via d) (f_login d) (f_email d) (f_admin d) (f_limit d) (f_file d) (f_from d) (f_to d) (f_proto d) (f_port d) false.
Theorem room_set_not_atomic : (zpt scenario.s5 "room" "set" rename).1 = Err EDHT
  /\ map store.r_Name (store.rooms (controller.st (zpt scenario.s5 "room" "set" rename).2)) = [str "new"].
Proof. vm_compute. split; reflexivity. Qed.
End adminscenario.
