(* ===== verification/Dns.v ===== *)
(** A node's DNS server in a room (internal/dnsfwd/dnsfwd.go, zone.go): the
    room's names, who is relayed to which resolvers, and the framing over TCP.

    The DNS message codec (golang.org/x/net/dns/dnsmessage) and the network are
    parameters: what a message parses to, what is built, what a resolver sends
    back. *)
From stdpp Require Import base list gmap strings.
From Stdlib Require Import ZArith Lia.
From S2P Require Import Prelude GoStrings Netip.

Open Scope Z_scope.

Module dns.

Definition maxInflight : Z := 256.
Definition ZoneTTL : Z := 30.
Definition TypeA : Z := 1.
Definition TypeALL : Z := 255.
Definition ClassINET : Z := 1.
Definition RCodeSuccess : Z := 0.
Definition RCodeNameError : Z := 3.
Definition RCodeRefused : Z := 5.

(** The fields of a header that are read or set. *)
Record Header := MkHeader {
  ID : Z; Response : bool; Authoritative : bool; RecursionDesired : bool; RecursionAvailable : bool; RCode : Z }.
Record Question := MkQuestion { q_Name : bytes; q_Type : Z; q_Class : Z }.
Record AResource := MkAResource { a_Name : bytes; a_Class : Z; a_TTL : Z; a_A : bytes }.

(** dnsmessage: [Parser.Start], then [Parser.Question]; a message that is built. *)
Class Codec := {
  Start : bytes -> option Header;
  Question_ : bytes -> option Question;
  Finish : Header -> list Question -> list AResource -> option bytes }.

(** The network: the datagrams that come back on a connected UDP socket within
    the timeout, the bytes that come back on a TCP connection. *)
Inductive network : Type := UDP | TCP.
Class Net := {
  udp_ask : AddrPort -> bytes -> option (list bytes);
  tcp_ask : AddrPort -> bytes -> option bytes }.

Record Zone := MkZone { z_Name : bytes; Records : gmap bytes Addr }.

Definition HasSuffix (s t : bytes) : bool := HasPrefix (rev s) (rev t).
Definition TrimSuffix (s t : bytes) : bytes := if HasSuffix s t then take (length s - length t) s else s.

Inductive error : Type := EShort | EEOF | ENoAnswer | ENoUpstream.

(** ** Messages over TCP *)

Definition readMsg (s : bytes) : res error (bytes * bytes) :=
  if zlen s <? 2 then Err EEOF
  else
    n ← uint16_be (take 2 s);
    if n <? 12 then Err EShort
    else if zlen (drop 2 s) <? n then Err EEOF
    else Ok (take (Z.to_nat n) (drop 2 s), drop (Z.to_nat n) (drop 2 s)).

Definition writeMsg (m : bytes) : bytes := put_be 2 (u16 (zlen m)) ++ m.

(** ** Answers *)

Section Forwarder.
Context `{CO : Codec} `{NE : Net}.

Definition in_zone (name zone : bytes) : bool := bool_decide (name = zone) || HasSuffix name (46 :: zone).

Definition answerZone (q : bytes) (z : option Zone) : option bytes :=
  match z with
  | None => None
  | Some z =>
    if bool_decide (z_Name z = []) then None
    else
      h ← Start q;
      if Response h then None
      else
        question ← Question_ q;
        let name := TrimSuffix (ToLower (q_Name question)) [46] in
        let zone := ToLower (z_Name z) in
        if negb (in_zone name zone) then None
        else
          let label := TrimSuffix (TrimSuffix name zone) [46] in
          let found := Records z !! label in
          let rcode := match found with
                       | None => if bool_decide (label = []) then RCodeSuccess else RCodeNameError
                       | Some _ => RCodeSuccess
                       end in
          let answers := match found with
            | Some (Addr4 v) =>
              if (q_Class question =? ClassINET) && ((q_Type question =? TypeA) || (q_Type question =? TypeALL))
              then [MkAResource (q_Name question) ClassINET ZoneTTL (put_be 4 v)] else []
            | _ => []
            end in
          Finish (MkHeader (ID h) true true (RecursionDesired h) true rcode) [question] answers
  end.

Definition refused (q : bytes) : bytes :=
  match Start q with
  | None => []
  | Some h =>
    default [] (Finish (MkHeader (ID h) true false (RecursionDesired h) false RCodeRefused)
                  (match Question_ q with Some question => [question] | None => [] end) [])
  end.

(** ** Asking the resolvers *)

Definition same_id (q r : bytes) : bool := (12 <=? zlen r) && bool_decide (take 2 r = take 2 q).

Definition exchangeOne (n : network) (up : AddrPort) (q : bytes) : option bytes :=
  match n with
  | UDP => rs ← udp_ask up q; List.find (same_id q) rs
  | TCP => s ← tcp_ask up (writeMsg q); match readMsg s with Ok (m, _) => Some m | _ => None end
  end.

(** The resolvers asked in turn, and the first answer. *)
Fixpoint ask_all (n : network) (ups : list AddrPort) (q : bytes) : list AddrPort * option bytes :=
  match ups with
  | [] => ([], None)
  | up :: ups =>
    match exchangeOne n up q with
    | Some r => ([up], Some r)
    | None => let '(asked, r) := ask_all n ups q in (up :: asked, r)
    end
  end.

(** [exchange]: who was asked, and the answer. *)
Definition exchange (upstreams : Addr -> list AddrPort) (zone : option Zone) (q : bytes) (n : network) (src : Addr)
    : list AddrPort * option bytes :=
  match answerZone q zone with
  | Some resp => ([], Some resp)
  | None =>
    match upstreams src with
    | [] => ([], Some (refused q))
    | ups => ask_all n ups q
    end
  end.

(** A datagram of [serveUDP], with [inflight] queries being answered. *)
Definition serve_datagram (upstreams : Addr -> list AddrPort) (zone : option Zone) (inflight : Z) (q : bytes) (src : AddrPort)
    : list AddrPort * option bytes :=
  if (zlen q <? 12) || (maxInflight <=? inflight) then ([], None)
  else exchange upstreams zone q UDP (Unmap (ap_addr src)).

(** The loop on a TCP connection: the answers written before it ends. *)
Fixpoint serve_stream (fuel : nat) (upstreams : Addr -> list AddrPort) (zone : option Zone) (s : bytes) (src : Addr)
    : list AddrPort * bytes :=
  match fuel with
  | O => ([], [])
  | S fuel =>
    match readMsg s with
    | Ok (q, s) =>
      match exchange upstreams zone q TCP src with
      | (asked, Some resp) =>
        let '(asked', out) := serve_stream fuel upstreams zone s src in (asked ++ asked', writeMsg resp ++ out)
      | (asked, None) => (asked, [])
      end
    | _ => ([], [])
    end
  end.
Definition serveTCP (upstreams : Addr -> list AddrPort) (zone : option Zone) (s : bytes) (src : Addr) : list AddrPort * bytes :=
  serve_stream (length s) upstreams zone s src.

End Forwarder.

(** ** resolv.conf *)

(** The lines of a [bufio.Scanner]: a final empty line is none, a carriage return at the end is dropped. *)
Definition drop_cr (l : bytes) : bytes := match last l with Some 13 => removelast l | _ => l end.
Definition raw_lines (s : bytes) : list bytes :=
  let ls := Split 10 s in if bool_decide (last ls = Some []) then removelast ls else ls.

(** The scanner stops before a line that does not fit its buffer. *)
Fixpoint short_lines (ls : list bytes) : list bytes :=
  match ls with l :: ls => if zlen l <? 65536 then l :: short_lines ls else [] | [] => [] end.

Definition resolver_of (line : bytes) : option AddrPort :=
  match Fields line with
  | k :: a :: _ =>
    if bool_decide (k = str "nameserver") then (fun a => MkAddrPort (withoutZone a) 53) <$> ParseAddr a else None
  | _ => None
  end.
Definition SystemUpstreams (file : option bytes) : list AddrPort :=
  match file with None => [] | Some s => omap resolver_of (map drop_cr (short_lines (raw_lines s))) end.

Example SystemUpstreams_ex :
  SystemUpstreams (Some (str "# x" ++ [10] ++ str "nameserver 127.0.0.53" ++ [13; 10] ++ str "search a" ++ [10] ++ str "nameserver 9.9.9.9 x"))
  = [MkAddrPort (Addr4 (127 * 2 ^ 24 + 53)) 53; MkAddrPort (Addr4 (9 * 2 ^ 24 + 9 * 2 ^ 16 + 9 * 2 ^ 8 + 9)) 53].
Proof. vm_compute. reflexivity. Qed.

(** ** What is proved *)

Section Proofs.
Context `{CO : Codec} `{NE : Net}.

Lemma ask_all_spec n ups q :
  (exists pre up post r, ups = pre ++ up :: post /\ ask_all n ups q = (pre ++ [up], Some r)
     /\ exchangeOne n up q = Some r /\ Forall (fun u => exchangeOne n u q = None) pre)
  \/ (ask_all n ups q = (ups, None) /\ Forall (fun u => exchangeOne n u q = None) ups).
Proof.
  induction ups as [| up ups IH]; simpl; [by right |].
  destruct (exchangeOne n up q) as [r |] eqn:Hup.
  - left. by exists [], up, ups, r.
  - destruct IH as [(pre & u & post & r & -> & -> & Hr & Hpre) | [-> Hall]].
    + left. exists (up :: pre), u, post, r. split_and!; try done. by constructor.
    + right. split; [done | by constructor].
Qed.

(** a query for a name of the room never leaves the machine; a sender
    without resolvers is refused and nobody is asked; otherwise the sender's
    resolvers are asked in order until one answers, that answer is passed on
    unchanged, and there is none only when every resolver failed. *)
Theorem exchange_spec ups zone q n src : let '(asked, r) := exchange ups zone q n src in
  match answerZone q zone with
  | Some resp => asked = [] /\ r = Some resp
  | None =>
    (ups src = [] /\ asked = [] /\ r = Some (refused q))
    \/ (exists pre up post resp, ups src = pre ++ up :: post /\ asked = pre ++ [up] /\ r = Some resp
         /\ exchangeOne n up q = Some resp /\ Forall (fun u => exchangeOne n u q = None) pre)
    \/ (ups src <> [] /\ asked = ups src /\ r = None /\ Forall (fun u => exchangeOne n u q = None) (ups src))
  end.
Proof.
  unfold exchange. destruct (answerZone q zone) as [resp |]; [done |].
  destruct (ups src) as [| up l] eqn:Hu; [by left |].
  destruct (ask_all_spec n (up :: l) q) as [(pre & u & post & r & Hl & -> & Hr & Hpre) | [-> Hall]]; right; [left | right].
  - by exists pre, u, post, r.
  - done.
Qed.

(** An answer from a resolver carries the query's ID. *)
Lemma udp_answer up q r : exchangeOne UDP up q = Some r -> 12 <= zlen r /\ take 2 r = take 2 q.
Proof.
  simpl. destruct (udp_ask up q) as [rs |]; simpl; [| done]. intros [_ H]%List.find_some. unfold same_id in H. bool_hyps.
  split; [lia | done].
Qed.

(** ** The zone *)

Lemma ToLower_nil s : ToLower s = [] -> s = [].
Proof. destruct s as [| c r]; [done |]. simpl. intros H. exfalso. revert H. repeat case_match; discriminate. Qed.

Lemma HasSuffix_app a b : HasSuffix (a ++ b) b = true.
Proof. unfold HasSuffix. rewrite rev_app_distr. apply HasPrefix_app. Qed.

Lemma TrimSuffix_app a b : TrimSuffix (a ++ b) b = a.
Proof.
  unfold TrimSuffix. rewrite HasSuffix_app, length_app. replace (length a + length b - length b)%nat with (length a) by lia.
  apply take_app_length.
Qed.

(** a question for [label.zone], in whatever case and with or without a
    final dot, is answered by the zone: with the member's address when it has
    one and an address is asked for, with no such name when the label is not
    known, and by an empty answer otherwise. *)
Theorem zone_answers q z h qn label dot : Start q = Some h -> Response h = false -> Question_ q = Some qn ->
  z_Name z <> [] -> dot = [] \/ dot = [46] -> label <> [] -> last (ToLower (z_Name z)) <> Some 46 ->
  ToLower (q_Name qn) = label ++ 46 :: ToLower (z_Name z) ++ dot ->
  let reply rcode answers := Finish (MkHeader (ID h) true true (RecursionDesired h) true rcode) [qn] answers in
  answerZone q (Some z) =
    match Records z !! label with
    | Some (Addr4 v) =>
      reply RCodeSuccess (if (q_Class qn =? ClassINET) && ((q_Type qn =? TypeA) || (q_Type qn =? TypeALL))
                          then [MkAResource (q_Name qn) ClassINET ZoneTTL (put_be 4 v)] else [])
    | Some _ => reply RCodeSuccess []
    | None => reply RCodeNameError []
    end.
Proof.
  intros Hs Hr Hq Hz Hd Hl Hlast Hname. cbv zeta. unfold answerZone. rewrite bool_decide_eq_false_2 by done. rewrite Hs. simpl. rewrite Hr, Hq.
  simpl. assert (TrimSuffix (ToLower (q_Name qn)) [46] = label ++ 46 :: ToLower (z_Name z)) as ->.
  { rewrite Hname. destruct Hd as [-> | ->].
    - rewrite app_nil_r. unfold TrimSuffix. assert (HasSuffix (label ++ 46 :: ToLower (z_Name z)) [46] = false) as ->; [| done].
      unfold HasSuffix. destruct (ToLower (z_Name z)) as [| c w _] eqn:E using rev_ind.
      + by apply ToLower_nil in E.
      + rewrite ?E, last_snoc in Hlast. change (label ++ 46 :: w ++ [c]) with (label ++ (46 :: w) ++ [c]).
        rewrite app_assoc, rev_app_distr. simpl. rewrite (proj2 (Z.eqb_neq c 46)); [done | congruence].
    - rewrite app_comm_cons, app_assoc. apply TrimSuffix_app. }
  unfold in_zone. rewrite (HasSuffix_app label (46 :: ToLower (z_Name z))), Bool.orb_true_r. cbn [negb].
  assert (TrimSuffix (TrimSuffix (label ++ 46 :: ToLower (z_Name z)) (ToLower (z_Name z))) [46] = label) as ->.
  { change (label ++ 46 :: ToLower (z_Name z)) with (label ++ [46] ++ ToLower (z_Name z)). by rewrite app_assoc, !TrimSuffix_app. }
  destruct (Records z !! label) as [[| v | v zn] |]; try done. by rewrite bool_decide_eq_false_2.
Qed.

(** ** Queries over TCP *)

Lemma readMsg_writeMsg m rest : 12 <= zlen m < 2 ^ 16 -> readMsg (writeMsg m ++ rest) = Ok (m, rest).
Proof.
  intros Hm. unfold readMsg, writeMsg, u16. rewrite Z.mod_small by lia. rewrite <- app_assoc.
  rewrite !zlen_app, zlen_put_be, (proj2 (Z.ltb_ge _ _)) by (pose proof (zlen_nonneg rest); lia).
  rewrite take_app_length', drop_app_length' by (by rewrite length_put_be).
  change (uint16_be (put_be 2 (zlen m))) with (Ok (E := error) (be (put_be 2 (zlen m)))). cbn [mbind res_bind].
  rewrite be_put_be_small by lia. rewrite (proj2 (Z.ltb_ge _ 12)) by lia.
  rewrite (proj2 (Z.ltb_ge (zlen (m ++ rest)) _)) by (rewrite zlen_app; pose proof (zlen_nonneg rest); lia).
  unfold zlen. by rewrite Nat2Z.id, take_app_length, drop_app_length.
Qed.

Lemma readMsg_shorter s m s' : readMsg s = Ok (m, s') -> (length s' < length s)%nat.
Proof.
  unfold readMsg. destruct (zlen s <? 2) eqn:H; [done |]. bool_hyps. destruct (uint16_be _) as [n | |]; [| done | done]. cbn [mbind res_bind].
  destruct (n <? 12); [done |]. destruct (_ <? n); [done |]. intros [= _ <-]. rewrite !length_drop. unfold zlen in H. lia.
Qed.

(** The answers to queries one after the other, until one gets none. *)
Fixpoint session (ups : Addr -> list AddrPort) (zone : option Zone) (qs : list bytes) (src : Addr) : list AddrPort * bytes :=
  match qs with
  | [] => ([], [])
  | q :: qs =>
    match exchange ups zone q TCP src with
    | (asked, Some resp) => let '(asked', out) := session ups zone qs src in (asked ++ asked', writeMsg resp ++ out)
    | (asked, None) => (asked, [])
    end
  end.

Lemma serve_stream_session ups zone src qs : forall fuel, (length (concat (map writeMsg qs)) <= fuel)%nat ->
  Forall (fun q => 12 <= zlen q < 2 ^ 16) qs ->
  serve_stream fuel ups zone (concat (map writeMsg qs)) src = session ups zone qs src.
Proof.
  induction qs as [| q qs IH]; intros fuel Hf Hq; [by destruct fuel |].
  apply Forall_cons in Hq as [Hq Hqs]. cbn [map concat] in Hf |- *.
  pose proof (readMsg_writeMsg q (concat (map writeMsg qs)) Hq) as Hr. pose proof (readMsg_shorter _ _ _ Hr).
  destruct fuel as [| fuel]; [lia |]. cbn [serve_stream session]. rewrite Hr.
  destruct (exchange ups zone q TCP src) as [asked [resp |]]; [| done]. rewrite IH by (done || lia). done.
Qed.

(** over TCP each query of a connection gets the answer it would get alone,
    in the order of the queries and whatever the lengths of the reads, until one
    gets none and the connection is closed. *)
Theorem tcp_session ups zone qs src : Forall (fun q => 12 <= zlen q < 2 ^ 16) qs ->
  serveTCP ups zone (concat (map writeMsg qs)) src = session ups zone qs src.
Proof. by apply serve_stream_session. Qed.

End Proofs.

End dns.
