(* ===== verification/RoomPeers.v ===== *)
(** The peers of a room (internal/room/room.go): the difference between the
    peers as last configured and as wanted, written for the UAPI of the
    AmneziaWG device, and what the device has afterwards.

    The device is not under src/. Its configuration protocol is documented
    (cross-platform userspace implementation, "Configuration Protocol"); what
    the lines do is [uapi], a law of the class [Device]: a network belongs to the
    last peer it was written for. *)
From stdpp Require Import base gmap sets list strings.
From Stdlib Require Import ZArith Lia.
From S2P Require Import Prelude GoStrings Netip Acl Crypto Encoding Obfs Identity Dht Config.

Open Scope Z_scope.

#[export] Instance Prefix_countable : Countable Prefix.
Proof.
  refine (inj_countable' (fun p => (pfx_ip p, pfx_bits p)) (fun q => MkPrefix q.1 q.2) _). by intros [].
Defined.

Module roompeers.
Import config.

Definition keepaliveDelay : Z := 3 * Second.

(** ** The lines of the UAPI *)

Inductive uapi_line : Type :=
  | LPublicKey (k : bytes) | LPresharedKey (psk : bytes) | LEndpoint (e : bytes) | LKeepalive (n : Z)
  | LReplaceAllowedIPs | LAllowedIP (p : Prefix) | LRemove | LUpdateOnly.

(** [psk] is written as it is: the room keeps it in hex. *)
Definition render (l : uapi_line) : bytes :=
  match l with
  | LPublicKey k => obfs.line (str "public_key") (hex_encode k)
  | LPresharedKey psk => obfs.line (str "preshared_key") psk
  | LEndpoint e => obfs.line (str "endpoint") e
  | LKeepalive n => obfs.line (str "persistent_keepalive_interval") (Itoa n)
  | LReplaceAllowedIPs => obfs.line (str "replace_allowed_ips") (str "true")
  | LAllowedIP p => obfs.line (str "allowed_ip") (Prefix_String p)
  | LRemove => obfs.line (str "remove") (str "true")
  | LUpdateOnly => obfs.line (str "update_only") (str "true")
  end.
Definition uapi_text (ls : list uapi_line) : bytes := flat_map render ls.

(** ** The difference *)

Definition unchanged (prev p : Peer) : bool :=
  bool_decide (Endpoint prev = Endpoint p) && (Keepalive prev =? Keepalive p) && bool_decide (AllowedIPs prev = AllowedIPs p).

(** The keepalive line of a peer and, for a peer with the smaller key, that it is put off. *)
Definition keepalive_lines (self : bytes) (prev : option Peer) (p : Peer) : list uapi_line * list bytes :=
  match prev with
  | None =>
    if (0 <? Keepalive p) && dht.bytes_lt (PublicKey p) self then ([LKeepalive 0], [PublicKey p])
    else ([LKeepalive (Keepalive p)], [])
  | Some prev => if Keepalive prev =? Keepalive p then ([], []) else ([LKeepalive (Keepalive p)], [])
  end.

Definition endpoint_lines (prev : option Peer) (p : Peer) : list uapi_line :=
  if bool_decide (Endpoint p <> []) && match prev with None => true | Some prev => bool_decide (Endpoint prev <> Endpoint p) end
  then [LEndpoint (Endpoint p)] else [].

(** One peer of the loop: its section and the keepalive put off. *)
Definition peer_lines (psk self : bytes) (prev : option Peer) (p : Peer) : list uapi_line * list bytes :=
  if match prev with Some prev => unchanged prev p | None => false end then ([], [])
  else
    let '(ka, deferred) := keepalive_lines self prev p in
    (LPublicKey (PublicKey p) :: match prev with None => [LPresharedKey psk] | Some _ => [] end
       ++ endpoint_lines prev p ++ ka ++ LReplaceAllowedIPs :: map (fun ip => LAllowedIP (Masked ip)) (AllowedIPs p), deferred).

Fixpoint peers_lines (psk self : bytes) (old : gmap bytes Peer) (ps : list Peer) : list uapi_line * list bytes :=
  match ps with
  | [] => ([], [])
  | p :: ps =>
    let '(ls, d) := peer_lines psk self (old !! PublicKey p) p in
    let '(ls', d') := peers_lines psk self old ps in
    (ls ++ ls', d ++ d')
  end.

Definition next_peers (ps : list Peer) : gmap bytes Peer := fold_left (fun m p => <[PublicKey p := p]> m) ps ∅.

Section Diff.
(** The order of the loop over a map. *)
Variable order : list bytes -> list bytes.

Definition removed (old next : gmap bytes Peer) : list bytes :=
  filter (fun k => next !! k = None) (order (map fst (map_to_list old))).

Definition peersDiff (old : gmap bytes Peer) (ps : list Peer) (psk self : bytes)
    : list uapi_line * gmap bytes Peer * list bytes :=
  let next := next_peers ps in
  let '(ls, deferred) := peers_lines psk self old ps in
  (ls ++ flat_map (fun k => [LPublicKey k; LRemove]) (removed old next), next, deferred).
End Diff.

(** ** The device *)

Record wgpeer := MkWgPeer { w_psk : bytes; w_endpoint : bytes; w_keepalive : Z }.
Record wgstate := MkWg { w_peers : gmap bytes wgpeer; w_allowed : gmap Prefix bytes (* who has the prefix *) }.

Definition wgpeer0 : wgpeer := MkWgPeer [] [] 0.
Definition disown (k : bytes) (m : gmap Prefix bytes) : gmap Prefix bytes := filter (fun e => e.2 <> k) m.
Definition alter_peer (f : wgpeer -> wgpeer) (k : bytes) (s : wgstate) : wgstate := MkWg (alter f k (w_peers s)) (w_allowed s).

(** A line, with the peer of the current section: [None] before the first and
    after a removal, and whether the section made the peer. *)
Definition uapi1 (c : wgstate * option (bytes * bool)) (l : uapi_line) : wgstate * option (bytes * bool) :=
  let '(s, cur) := c in
  match l, cur with
  | LPublicKey k, _ =>
    match w_peers s !! k with
    | Some _ => (s, Some (k, false))
    | None => (MkWg (<[k := wgpeer0]> (w_peers s)) (w_allowed s), Some (k, true))
    end
  | _, None => (s, None)
  | LPresharedKey psk, Some (k, _) => (alter_peer (fun w => MkWgPeer psk (w_endpoint w) (w_keepalive w)) k s, cur)
  | LEndpoint e, Some (k, _) => (alter_peer (fun w => MkWgPeer (w_psk w) e (w_keepalive w)) k s, cur)
  | LKeepalive n, Some (k, _) => (alter_peer (fun w => MkWgPeer (w_psk w) (w_endpoint w) n) k s, cur)
  | LReplaceAllowedIPs, Some (k, _) => (MkWg (w_peers s) (disown k (w_allowed s)), cur)
  | LAllowedIP p, Some (k, _) => (MkWg (w_peers s) (<[p := k]> (w_allowed s)), cur)
  | LRemove, Some (k, _) => (MkWg (delete k (w_peers s)) (disown k (w_allowed s)), None)
  | LUpdateOnly, Some (k, new) => if new : bool then (MkWg (delete k (w_peers s)) (disown k (w_allowed s)), None) else (s, cur)
  end.

Definition uapi (ls : list uapi_line) (s : wgstate) : wgstate := (fold_left uapi1 ls (s, None)).1.

(** [IpcSet]: the device afterwards and whether it succeeded; what a failed one leaves is not said. *)
Class Device (D : Type) := {
  NewDevice : D;
  IpcSetDevice : D -> bytes -> D * bool;   (* [IpcSet] of the key and the obfuscation *)
  IpcSet : D -> list uapi_line -> D * bool;
  wg : D -> wgstate }.
Class DeviceLaws (D : Type) `{Device D} := {
  NewDevice_ok : wg NewDevice = MkWg ∅ ∅;
  IpcSetDevice_ok : forall d t d', IpcSetDevice d t = (d', true) -> wg d = MkWg ∅ ∅ -> wg d' = MkWg ∅ ∅;
  IpcSet_ok : forall d ls d', IpcSet d ls = (d', true) -> wg d' = uapi ls (wg d) }.

(** ** Sections *)

Lemma uapi_section k ls s cur : fold_left uapi1 (LPublicKey k :: ls) (s, cur) = fold_left uapi1 (LPublicKey k :: ls) (s, None).
Proof. done. Qed.

(** The lines of peers: sections, or nothing. *)
Definition sections (ls : list uapi_line) : Prop := match ls with [] | LPublicKey _ :: _ => True | _ => False end.

Lemma uapi_app a b s : sections b -> uapi (a ++ b) s = uapi b (uapi a s).
Proof.
  unfold uapi. rewrite fold_left_app. destruct (fold_left uapi1 a (s, None)) as [s' cur].
  destruct b as [| [] ls]; try done.
Qed.

Lemma sections_app a b : sections a -> sections b -> sections (a ++ b).
Proof. destruct a as [| [] a]; done. Qed.

Lemma peer_lines_sections psk self prev p : sections (peer_lines psk self prev p).1.
Proof. unfold peer_lines. destruct (match prev with Some _ => _ | None => _ end); [done |]. by destruct (keepalive_lines self prev p). Qed.

Lemma peers_lines_sections psk self old ps : sections (peers_lines psk self old ps).1.
Proof.
  induction ps as [| p ps IH]; [done |]. simpl. pose proof (peer_lines_sections psk self (old !! PublicKey p) p).
  destruct (peer_lines _ _ _ _), (peers_lines _ _ _ _). by apply sections_app.
Qed.

Lemma disown_lookup k m q j : disown k m !! q = Some j <-> m !! q = Some j /\ j <> k.
Proof. unfold disown. rewrite map_lookup_filter_Some. done. Qed.

(** ** The effect of one section *)

Lemma uapi_allowed k new ps s : fold_left uapi1 (map LAllowedIP ps) (s, Some (k, new))
  = (MkWg (w_peers s) (fold_left (fun m q => <[q := k]> m) ps (w_allowed s)), Some (k, new)).
Proof. revert s. induction ps as [| p ps IH]; intros s; [by destruct s |]. simpl. by rewrite IH. Qed.

Lemma own_lookup (k : bytes) (ps : list Prefix) (m : gmap Prefix bytes) q : fold_left (fun m q => <[q := k]> m) ps m !! q = if decide (q ∈ ps) then Some k else m !! q.
Proof.
  revert m. induction ps as [| p ps IH]; intros m; simpl; [done |]. rewrite IH. destruct (decide (q ∈ ps)) as [Hin | Hin].
  - by rewrite decide_True by (by apply elem_of_cons; right).
  - destruct (decide (p = q)) as [-> | Hne].
    + by rewrite lookup_insert_eq, decide_True by (by apply elem_of_cons; left).
    + rewrite lookup_insert_ne by done. rewrite decide_False; [done |]. intros [-> | H]%elem_of_cons; done.
Qed.

(** The device's peer after the section of [p]. *)
Definition configured (psk self : bytes) (prev : option Peer) (p : Peer) (w : option wgpeer) : wgpeer :=
  let w := default wgpeer0 w in
  MkWgPeer (match prev with None => psk | Some _ => w_psk w end)
    (match endpoint_lines prev p with LEndpoint e :: _ => e | _ => w_endpoint w end)
    (match (keepalive_lines self prev p).1 with LKeepalive n :: _ => n | _ => w_keepalive w end).

Definition masked_ips (p : Peer) : list Prefix := map Masked (AllowedIPs p).

Lemma peer_section psk self prev p s :
  (match prev with Some prev => unchanged prev p | None => false end) = false ->
  uapi (peer_lines psk self prev p).1 s =
    MkWg (<[PublicKey p := configured psk self prev p (w_peers s !! PublicKey p)]> (w_peers s))
         (fold_left (fun m q => <[q := PublicKey p]> m) (masked_ips p) (disown (PublicKey p) (w_allowed s))).
Proof.
  intros Hc. unfold uapi, peer_lines. rewrite Hc. destruct (keepalive_lines self prev p) as [ka d] eqn:Hka. cbn [fst].
  set (k := PublicKey p).
  assert (exists new, uapi1 (s, None) (LPublicKey k) =
    (MkWg (<[k := default wgpeer0 (w_peers s !! k)]> (w_peers s)) (w_allowed s), Some (k, new))) as [new Hk].
  { simpl. destruct (w_peers s !! k) as [w |] eqn:Hw; [exists false | by exists true]. simpl. rewrite insert_id by done. by destruct s. }
  cbn [fold_left]. rewrite Hk. rewrite !fold_left_app. cbn [fold_left]. unfold configured. rewrite Hka. cbn [fst].
  generalize (default wgpeer0 (w_peers s !! k)). intros w.
  change (masked_ips p) with (map Masked (AllowedIPs p)).
  rewrite <- (map_map Masked LAllowedIP).
  unfold keepalive_lines in Hka. unfold endpoint_lines.
  destruct prev as [prev |]; repeat case_match; simplify_eq; simpl; unfold alter_peer; simpl;
    rewrite uapi_allowed; simpl; rewrite ?alter_insert_eq; simpl; by destruct w.
Qed.

(** ** The effect of the loop *)

Definition changed (old : gmap bytes Peer) (p : Peer) : bool :=
  negb match old !! PublicKey p with Some prev => unchanged prev p | None => false end.

Lemma peers_lines_changed psk self old ps : peers_lines psk self old ps = peers_lines psk self old (List.filter (changed old) ps).
Proof.
  induction ps as [| p ps IH]; [done |]. cbn [List.filter]. destruct (changed old p) eqn:Hc.
  - cbn [peers_lines]. by rewrite IH.
  - apply negb_false_iff in Hc. cbn [peers_lines]. unfold peer_lines. rewrite Hc, IH. cbn [fst snd app]. by destruct (peers_lines psk self old (List.filter (changed old) ps)).
Qed.

Lemma peers_lines_cons psk self old p ps s : changed old p = true ->
  uapi (peers_lines psk self old (p :: ps)).1 s = uapi (peers_lines psk self old ps).1
    (MkWg (<[PublicKey p := configured psk self (old !! PublicKey p) p (w_peers s !! PublicKey p)]> (w_peers s))
          (fold_left (fun m q => <[q := PublicKey p]> m) (masked_ips p) (disown (PublicKey p) (w_allowed s)))).
Proof.
  intros Hc%negb_true_iff. rewrite <- (peer_section psk self _ p s Hc). pose proof (peers_lines_sections psk self old ps) as Hs. simpl.
  destruct (peer_lines _ _ _ _) as [a d], (peers_lines _ _ _ _) as [b d']. by apply uapi_app.
Qed.

Definition keys_of (ps : list Peer) : list bytes := map PublicKey ps.

Lemma key_in p ps : p ∈ ps -> PublicKey p ∈ keys_of ps.
Proof. intros H. by apply list_elem_of_In, in_map, list_elem_of_In. Qed.

Lemma key_of k ps : k ∈ keys_of ps -> exists p, p ∈ ps /\ PublicKey p = k.
Proof. intros (p & Hk & Hp)%list_elem_of_In%in_map_iff. exists p. by rewrite list_elem_of_In. Qed.

Lemma loop_other psk self old ps : Forall (fun p => changed old p = true) ps -> forall s k, k ∉ keys_of ps ->
  w_peers (uapi (peers_lines psk self old ps).1 s) !! k = w_peers s !! k.
Proof.
  induction 1 as [| p ps Hp _ IH]; intros s k Hk; [done |]. apply not_elem_of_cons in Hk as [Hne Hk].
  rewrite peers_lines_cons, IH by done. cbn [w_peers]. by rewrite lookup_insert_ne.
Qed.

Lemma loop_peer psk self old ps : Forall (fun p => changed old p = true) ps -> NoDup (keys_of ps) -> forall s p, p ∈ ps ->
  w_peers (uapi (peers_lines psk self old ps).1 s) !! PublicKey p
  = Some (configured psk self (old !! PublicKey p) p (w_peers s !! PublicKey p)).
Proof.
  induction 1 as [| p' ps Hp' Hps IH]; intros Hnd s p Hin; [by apply elem_of_nil in Hin |]. apply NoDup_cons in Hnd as [Hnot Hnd].
  rewrite peers_lines_cons by done. apply elem_of_cons in Hin as [-> | Hin].
  - rewrite loop_other by done. cbn [w_peers]. by rewrite lookup_insert_eq.
  - rewrite IH by done. cbn [w_peers]. rewrite lookup_insert_ne; [done |].
    intros Heq. apply Hnot. rewrite Heq. by apply key_in.
Qed.

Lemma loop_not_own psk self old ps : Forall (fun p => changed old p = true) ps -> forall s q,
  (forall p, p ∈ ps -> q ∉ masked_ips p) -> forall k,
  w_allowed (uapi (peers_lines psk self old ps).1 s) !! q = Some k <-> w_allowed s !! q = Some k /\ k ∉ keys_of ps.
Proof.
  induction 1 as [| p ps Hp _ IH]; intros s q Hq k.
  - simpl. split; [intros H; split; [done | by apply not_elem_of_nil] | by intros [H _]].
  - rewrite peers_lines_cons, IH by (done || (intros p' Hin; apply Hq; by right)). cbn [w_allowed].
    rewrite own_lookup, decide_False by (apply Hq; by left). rewrite disown_lookup.
    unfold keys_of. simpl. rewrite not_elem_of_cons. tauto.
Qed.

(** No two of the peers have the network. *)
Definition single (ps : list Peer) (q : Prefix) : Prop :=
  forall p p', p ∈ ps -> p' ∈ ps -> q ∈ masked_ips p -> q ∈ masked_ips p' -> PublicKey p = PublicKey p'.

Lemma single_Forall ps q :
  Forall (fun p => Forall (fun p' => q ∈ masked_ips p -> q ∈ masked_ips p' -> PublicKey p = PublicKey p') ps) ps <-> single ps q.
Proof.
  rewrite Forall_forall. unfold single. split.
  - intros H p p' Hp Hp'. specialize (H p Hp). rewrite Forall_forall in H. by apply H.
  - intros H p Hp. apply Forall_forall. intros p' Hp'. by apply H.
Qed.
#[export] Instance single_dec ps q : Decision (single ps q).
Proof. refine (cast_if (decide (Forall (fun p => Forall (fun p' => q ∈ masked_ips p -> q ∈ masked_ips p' -> PublicKey p = PublicKey p') ps) ps))); by rewrite <- single_Forall. Defined.

Lemma loop_own psk self old ps q : Forall (fun p => changed old p = true) ps -> NoDup (keys_of ps) -> single ps q -> forall s p,
  p ∈ ps -> q ∈ masked_ips p -> w_allowed (uapi (peers_lines psk self old ps).1 s) !! q = Some (PublicKey p).
Proof.
  induction 1 as [| p' ps Hp' Hps IH]; intros Hnd Hdis s p Hin Hq; [by apply elem_of_nil in Hin |].
  apply NoDup_cons in Hnd as [Hnot Hnd]. rewrite peers_lines_cons by done. apply elem_of_cons in Hin as [-> | Hin].
  - apply loop_not_own; [done | | split; [| done]].
    + intros p2 H2 Hq2. apply Hnot. rewrite (Hdis p' p2) by (done || by constructor). by apply key_in.
    + cbn [w_allowed]. by rewrite own_lookup, decide_True.
  - apply IH; try done. intros p2 p3 H2 H3. apply Hdis; by right.
Qed.

(** Who has a network afterwards was just given it, or had it and was not written. *)
Lemma loop_owner psk self old ps : Forall (fun p => changed old p = true) ps -> forall s q k,
  w_allowed (uapi (peers_lines psk self old ps).1 s) !! q = Some k ->
  (exists p, p ∈ ps /\ PublicKey p = k /\ q ∈ masked_ips p) \/ w_allowed s !! q = Some k /\ k ∉ keys_of ps.
Proof.
  induction 1 as [| p ps Hp _ IH]; intros s q k; [right; split; [done | apply not_elem_of_nil] |].
  rewrite peers_lines_cons by done. intros [(p' & Hin & Hk & Hq) | [Ha Hk]]%IH.
  - left. exists p'. split; [by right | done].
  - cbn [w_allowed] in Ha. rewrite own_lookup in Ha. case_decide as Hq.
    + injection Ha as <-. left. exists p. split; [by left | done].
    + apply disown_lookup in Ha as [Ha Hne]. right. split; [done |]. unfold keys_of. simpl. rewrite not_elem_of_cons. tauto.
Qed.

Definition remove_lines (ks : list bytes) : list uapi_line := flat_map (fun k => [LPublicKey k; LRemove]) ks.

Lemma remove_sections ks : sections (remove_lines ks).
Proof. by destruct ks. Qed.

Lemma uapi_remove ks s :
  (forall k, w_peers (uapi (remove_lines ks) s) !! k = if decide (k ∈ ks) then None else w_peers s !! k)
  /\ (forall q k, w_allowed (uapi (remove_lines ks) s) !! q = Some k <-> w_allowed s !! q = Some k /\ k ∉ ks).
Proof.
  revert s. induction ks as [| k ks IH]; intros s.
  - split; [done |]. intros q k. split; [intros H; split; [done | apply not_elem_of_nil] | by intros [H _]].
  - change (remove_lines (k :: ks)) with ([LPublicKey k; LRemove] ++ remove_lines ks). rewrite uapi_app by apply remove_sections.
    assert (w_allowed (uapi [LPublicKey k; LRemove] s) = disown k (w_allowed s)
            /\ forall j, w_peers (uapi [LPublicKey k; LRemove] s) !! j = if decide (j = k) then None else w_peers s !! j) as [Ha Hp].
    { unfold uapi. simpl. destruct (w_peers s !! k) as [w |] eqn:Hw; simpl; (split; [done |]); intros j;
        destruct (decide (j = k)) as [-> | Hne]; rewrite ?lookup_delete_eq, ?lookup_delete_ne, ?lookup_insert_ne by congruence; done. }
    destruct (IH (uapi [LPublicKey k; LRemove] s)) as [IHp IHa]. split.
    + intros j. rewrite IHp, Hp. destruct (decide (j ∈ ks)), (decide (j = k)), (decide (j ∈ k :: ks)) as [H | H]; try done;
        rewrite elem_of_cons in H; tauto.
    + intros q j. rewrite IHa, Ha, disown_lookup, not_elem_of_cons. tauto.
Qed.

(** ** The device has the configured peers *)

Definition owns (cfg : gmap bytes Peer) (q : Prefix) (k : bytes) : Prop := exists p, cfg !! k = Some p /\ q ∈ masked_ips p.

Definition peer_sync (psk : bytes) (pending : list bytes) (k : bytes) (p : option Peer) (w : option wgpeer) : Prop :=
  match p, w with
  | Some p, Some w => w_psk w = psk /\ (w_keepalive w = Keepalive p \/ w_keepalive w = 0 /\ k ∈ pending)
  | None, None => True
  | _, _ => False
  end.

(** The device [s] has exactly the peers [cfg], with the room's preshared key
    and their keepalive, which of [pending] peers may still be off; only peers
    that have a network are sent its packets, and the networks [once], which
    were never given to two peers at a time, have their peer. *)
Record in_sync (psk : bytes) (once : Prefix -> Prop) (cfg : gmap bytes Peer) (pending : list bytes) (s : wgstate) : Prop := {
  sync_keys k p : cfg !! k = Some p -> PublicKey p = k;
  sync_peers k : peer_sync psk pending k (cfg !! k) (w_peers s !! k);
  sync_allowed q k : w_allowed s !! q = Some k -> owns cfg q k;
  sync_once q k : once q -> owns cfg q k -> w_allowed s !! q = Some k }.

Lemma in_sync_empty psk once : in_sync psk once ∅ [] (MkWg ∅ ∅).
Proof.
  constructor.
  - intros k p H. by rewrite lookup_empty in H.
  - intros k. by rewrite !lookup_empty.
  - intros q k H. cbn [w_allowed] in H. by rewrite lookup_empty in H.
  - intros q k _ (p & H & _). by rewrite lookup_empty in H.
Qed.

Lemma next_peers_from ps k p : NoDup (keys_of ps) -> forall m : gmap bytes Peer,
  fold_left (fun m p => <[PublicKey p := p]> m) ps m !! k = Some p
  <-> (p ∈ ps /\ PublicKey p = k) \/ (k ∉ keys_of ps /\ m !! k = Some p).
Proof.
  induction ps as [| a ps IH]; intros Hnd m; simpl.
  - split; [| by intros [[H%elem_of_nil _] | [_ H]]]. intros H. right. split; [apply not_elem_of_nil | done].
  - apply NoDup_cons in Hnd as [Hnot Hnd]. rewrite IH by done. rewrite elem_of_cons, not_elem_of_cons.
    destruct (decide (PublicKey a = k)) as [<- | Hk].
    + rewrite lookup_insert_eq. split.
      * intros [[Hin <-] | [_ [= ->]]]; left; tauto.
      * intros [[[-> | Hin] Heq] | [[H _] _]]; [by right | | done]. exfalso. apply Hnot. rewrite <- Heq. by apply key_in.
    + rewrite lookup_insert_ne by done. split; [intros [[Hin Heq] | [Hin Hm]] | intros [[[-> | Hin] Heq] | [[_ Hin] Hm]]]; try done.
      * left. tauto.
      * right. split; [split; congruence | done].
      * by left.
      * by right.
Qed.

Lemma next_peers_lookup ps k p : NoDup (keys_of ps) -> next_peers ps !! k = Some p <-> p ∈ ps /\ PublicKey p = k.
Proof.
  intros Hnd. unfold next_peers. rewrite next_peers_from by done. split; [intros [H | [_ H]]; [done |] | by left].
  by rewrite lookup_empty in H.
Qed.

Lemma keys_inj ps p p' : NoDup (keys_of ps) -> p ∈ ps -> p' ∈ ps -> PublicKey p = PublicKey p' -> p = p'.
Proof.
  intros Hnd Hp Hp' Hk. assert (next_peers ps !! PublicKey p' = Some p) as H by by apply next_peers_lookup.
  assert (next_peers ps !! PublicKey p' = Some p') as H' by by apply next_peers_lookup. congruence.
Qed.

Lemma changed_in old ps p : p ∈ List.filter (changed old) ps <-> p ∈ ps /\ changed old p = true.
Proof. rewrite !list_elem_of_In. apply List.filter_In. Qed.

Lemma changed_keys old ps : NoDup (keys_of ps) -> NoDup (keys_of (List.filter (changed old) ps)).
Proof.
  induction ps as [| p ps IH]; simpl; [done |]. intros [Hnot Hnd]%NoDup_cons. specialize (IH Hnd).
  destruct (changed old p); [| done]. apply NoDup_cons. split; [| done].
  intros (p' & [Hin _]%changed_in & Hk)%key_of. apply Hnot. rewrite <- Hk. by apply key_in.
Qed.

Lemma changed_key ps old p : NoDup (keys_of ps) -> p ∈ ps -> PublicKey p ∈ keys_of (List.filter (changed old) ps) -> changed old p = true.
Proof. intros Hnd Hp (p' & [Hin Hc]%changed_in & Hk)%key_of. by rewrite (keys_inj ps p p'). Qed.

Lemma changed_false old p : changed old p = false -> exists prev, old !! PublicKey p = Some prev
  /\ Endpoint prev = Endpoint p /\ Keepalive prev = Keepalive p /\ AllowedIPs prev = AllowedIPs p.
Proof.
  intros H%negb_false_iff. destruct (old !! PublicKey p) as [prev |]; [| done]. exists prev. unfold unchanged in H. bool_hyps. done.
Qed.

Lemma deferred_in psk self old ps p : p ∈ ps -> forall k, k ∈ (peer_lines psk self (old !! PublicKey p) p).2 -> k ∈ (peers_lines psk self old ps).2.
Proof.
  induction ps as [| a ps IH]; intros Hin k Hk; [by apply elem_of_nil in Hin |]. simpl.
  apply elem_of_cons in Hin as [-> | Hin]; [| specialize (IH Hin k Hk)].
  - destruct (peer_lines _ _ _ _) as [? ?], (peers_lines _ _ _ _) as [? ?]. apply elem_of_app. by left.
  - destruct (peer_lines psk self (old !! PublicKey a) a) as [? ?], (peers_lines _ _ _ _) as [? ?]. apply elem_of_app. by right.
Qed.

(** A peer that is written is as configured, but for a keepalive put off. *)
Lemma configured_sync psk self old ps pending p w : p ∈ ps -> changed old p = true ->
  peer_sync psk pending (PublicKey p) (old !! PublicKey p) w ->
  peer_sync psk (pending ++ (peers_lines psk self old ps).2) (PublicKey p) (Some p) (Some (configured psk self (old !! PublicKey p) p w)).
Proof.
  intros Hin Hc Hw. pose proof (deferred_in psk self old ps p Hin) as Hd. unfold peer_lines in Hd.
  apply negb_true_iff in Hc. rewrite Hc in Hd. unfold configured. simpl in *.
  destruct (old !! PublicKey p) as [prev |], w as [w |]; try done; simpl in *.
  - destruct Hw as [Hpsk Hka]. split; [done |]. destruct (Z.eqb_spec (Keepalive prev) (Keepalive p)) as [Heq | _]; simpl; [| by left].
    rewrite Heq in Hka. destruct Hka as [Hka | [Hka Hp]]; [by left | right]. split; [done |]. apply elem_of_app. by left.
  - split; [done |]. destruct ((0 <? Keepalive p) && dht.bytes_lt (PublicKey p) self); simpl in *; [right | by left].
    split; [done |]. apply elem_of_app. right. apply Hd. by left.
Qed.

Section Sync.
Context (order : list bytes -> list bytes) (order_perm : forall l, order l ≡ₚ l).

Lemma removed_in old next k : k ∈ removed order old next <-> is_Some (old !! k) /\ next !! k = None.
Proof.
  unfold removed. rewrite list_elem_of_filter, order_perm. assert (k ∈ map fst (map_to_list old) <-> is_Some (old !! k)) as ->; [| tauto].
  rewrite list_elem_of_In, in_map_iff. split.
  - intros ([k' p] & <- & Hin%list_elem_of_In%elem_of_map_to_list). by exists p.
  - intros [p Hp]. exists (k, p). split; [done |]. by apply list_elem_of_In, elem_of_map_to_list.
Qed.

(** After the lines of a difference the device has exactly the wanted peers. *)
Lemma peersDiff_sync psk once self old ps pending s : in_sync psk once old pending s -> NoDup (keys_of ps) ->
  (forall q, once q -> single ps q) ->
  let '(ls, next, deferred) := peersDiff order old ps psk self in in_sync psk once next (pending ++ deferred) (uapi ls s).
Proof.
  intros Hs Hnd Hips. unfold peersDiff. destruct (peers_lines psk self old ps) as [ls d] eqn:Hl.
  assert (d = (peers_lines psk self old ps).2) as -> by by rewrite Hl. assert (ls = (peers_lines psk self old ps).1) as -> by by rewrite Hl.
  clear Hl. fold (remove_lines (removed order old (next_peers ps))). rewrite uapi_app by apply remove_sections.
  rewrite (peers_lines_changed psk self old ps) at 2. set (cs := List.filter (changed old) ps).
  assert (Forall (fun p => changed old p = true) cs) as Hcs by (apply Forall_forall; intros p [_ Hp]%changed_in; exact Hp).
  destruct (uapi_remove (removed order old (next_peers ps)) (uapi (peers_lines psk self old cs).1 s)) as [Hrp Hra].
  assert (forall k p, next_peers ps !! k = Some p -> k ∉ removed order old (next_peers ps)) as Hkeep.
  { intros k p Hp [_ Hn]%removed_in. congruence. }
  constructor.
  - intros k p [_ Hk]%next_peers_lookup; done.
  - intros k. rewrite Hrp. destruct (next_peers ps !! k) as [p |] eqn:Hp.
    + rewrite decide_False by by apply (Hkeep k p). apply next_peers_lookup in Hp as [Hp <-]; [| done]. destruct (changed old p) eqn:Hc.
      * rewrite loop_peer by (done || by apply changed_keys || by apply changed_in). apply configured_sync; [done.. | apply Hs].
      * rewrite loop_other by (done || (intros H%changed_key; congruence)). pose proof (sync_peers _ _ _ _ _ Hs (PublicKey p)) as Hw.
        destruct (changed_false _ _ Hc) as (prev & Hprev & _ & Hka & _). rewrite Hprev in Hw. destruct (w_peers s !! PublicKey p) as [w |]; [| done].
        simpl in *. rewrite Hka, elem_of_app in *. tauto.
    + destruct (decide (k ∈ removed order old (next_peers ps))) as [| Hr]; [done |]. rewrite loop_other; [| done |].
      * pose proof (sync_peers _ _ _ _ _ Hs k) as Hw. destruct (old !! k) as [prev |] eqn:Hprev; [| done]. exfalso. apply Hr, removed_in. by rewrite Hprev.
      * intros (p & [Hin _]%changed_in & Hk)%key_of. assert (next_peers ps !! k = Some p); [by apply next_peers_lookup | congruence].
  - intros q k [[(p & [Hp _]%changed_in & <- & Hq) | [(prev & Hprev & Hq)%(sync_allowed _ _ _ _ _ Hs) Hk]]%loop_owner Hr]%Hra; [| | done].
    { exists p. split; [by apply next_peers_lookup | done]. }
    destruct (next_peers ps !! k) as [p |] eqn:Hp.
    2: { exfalso. apply Hr, removed_in. by rewrite Hprev. }
    exists p. split; [done |]. apply next_peers_lookup in Hp as [Hp <-]; [| done]. destruct (changed old p) eqn:Hc.
    { exfalso. apply Hk, key_in, changed_in. done. }
    destruct (changed_false _ _ Hc) as (prev' & Hprev' & _ & _ & Hips'). assert (prev = prev') as -> by congruence.
    unfold masked_ips in *. by rewrite <- Hips'.
  - intros q k Ho (p & Hp & Hq). pose proof (Hkeep k p Hp) as Hr. apply next_peers_lookup in Hp as [Hp <-]; [| done].
    apply Hra. split; [| done]. specialize (Hips q Ho).
    destruct (decide (Exists (fun p => q ∈ masked_ips p) cs)) as [(p' & Hp' & Hq')%Exists_exists | Hno].
    + rewrite (loop_own psk self old cs q Hcs) with (p := p'); [| by apply changed_keys | | done..].
      2: { intros p1 p2 [H1 _]%changed_in [H2 _]%changed_in. by apply Hips. }
      apply changed_in in Hp' as [Hp' _]. f_equal. by apply Hips.
    + assert (forall p, p ∈ cs -> q ∉ masked_ips p) as Hnone by (intros p' Hp' Hq'; apply Hno, Exists_exists; by exists p').
      apply loop_not_own; [done.. |]. destruct (changed old p) eqn:Hc.
      { exfalso. by apply (Hnone p); [apply changed_in |]. }
      destruct (changed_false _ _ Hc) as (prev & Hprev & _ & _ & Hips'). split.
      * apply (sync_once _ _ _ _ _ Hs); [done |]. exists prev. split; [done |]. unfold masked_ips in *. by rewrite Hips'.
      * intros Hk%changed_key; congruence.
Qed.

(** The address the device learned for a peer stays while the configured one does. *)
Theorem endpoint_kept psk once self old ps pending s p prev : in_sync psk once old pending s -> NoDup (keys_of ps) -> p ∈ ps ->
  old !! PublicKey p = Some prev -> Endpoint p = [] \/ Endpoint prev = Endpoint p ->
  w_endpoint <$> w_peers (uapi (peersDiff order old ps psk self).1.1 s) !! PublicKey p = w_endpoint <$> w_peers s !! PublicKey p.
Proof.
  intros Hs Hnd Hp Hprev He. unfold peersDiff. destruct (peers_lines psk self old ps) as [ls d] eqn:Hl.
  assert (ls = (peers_lines psk self old ps).1) as -> by by rewrite Hl. cbn [fst]. clear Hl. fold (remove_lines (removed order old (next_peers ps))).
  rewrite uapi_app by apply remove_sections. rewrite (proj1 (uapi_remove _ _)), decide_False.
  2: { intros [_ Hn]%removed_in. rewrite (proj2 (next_peers_lookup ps (PublicKey p) p Hnd)) in Hn; done. }
  rewrite (peers_lines_changed psk self old ps). set (cs := List.filter (changed old) ps).
  assert (Forall (fun p => changed old p = true) cs) as Hcs by (apply Forall_forall; intros a [_ Ha]%changed_in; exact Ha).
  destruct (changed old p) eqn:Hc.
  - rewrite loop_peer by (done || by apply changed_keys || by apply changed_in). rewrite Hprev.
    pose proof (sync_peers _ _ _ _ _ Hs (PublicKey p)) as Hw. rewrite Hprev in Hw. destruct (w_peers s !! PublicKey p) as [w |]; [| done].
    simpl. f_equal. unfold configured, endpoint_lines. simpl.
    destruct He as [-> | ->]; [done |]. rewrite (bool_decide_eq_false_2 (Endpoint p <> Endpoint p)) by (intros H; by apply H). by rewrite Bool.andb_false_r.
  - rewrite loop_other by (done || (intros H%changed_key; congruence)). done.
Qed.

End Sync.

End roompeers.
