(* ===== verification/Room.v ===== *)
(** A running virtual LAN (internal/room/room.go): the AmneziaWG device with the
    room's peers, the machine's routes, subnet routing and exit node, traffic and
    DNS through the room, names, access rules, and taking all of it down.

    What the operating system, the device and package exitnat are asked is
    recorded with the answers in [trace]; the answers are a parameter. The errors
    kept only to log a repeated failure once are left out. *)
From stdpp Require Import base gmap sets list strings.
From Stdlib Require Import ZArith Lia.
From S2P Require Import Prelude GoStrings Netip Acl AclFilter Crypto Encoding Obfs Identity Tunwrap Config Dns RoomPeers.

Open Scope Z_scope.

Module room.
Import roompeers.

(** ** State *)

(** What does not change after [Up]; [tdev]: there is an OS interface. *)
Record Params := MkParams {
  Name : bytes; Address : Prefix; tdev : bool; mtu : Z; ups : list Addr; userExit : bool; limit : Z; limitTotal : Z;
  psk : bytes; self : bytes }.

(** What the function given to [SetDivert] holds. *)
Record Divert := MkDivert { subnet : Prefix; own : Addr; keep : list Prefix }.

(** What is asked of the operating system, the device and package exitnat. *)
Inductive call : Type :=
  | CInterface | CIpc | CDeviceUp | CDeviceClose | CListenDNS | CCloseDNS
  | CSetRoute (p : Prefix) (add : bool)
  | CEnableRouter (routes : list Prefix) (exit : bool) (limit total : Z) | CDisableRouter
  | CNewNAT | CCloseNAT
  | CEnableExit | CDisableExit
  | CSetDNS (own : Addr) (zone : bytes) (carrier : bool).
#[export] Instance call_eq_dec : EqDecision call.
Proof. solve_decision. Defined.

Section Room.
Context {D : Type} `{DV : Device D}.
(** The answers; the order of the loops over a map. *)
Variable os : list (call * bool) -> call -> bool.
Variable order : list bytes -> list bytes.

(** [timers]: the peers whose keepalive waits for [keepaliveDelay];
    [dnsSrv]: the running DNS server with its zone; [nat_]: the userspace exit runs. *)
Record Room := MkRoom {
  par : Params; dev : D; bcast : tunwrap.Device; divert : option Divert;
  peers : gmap bytes config.Peer; timers : list bytes;
  routes : list Prefix; routing : list Prefix; exitSrv : bool; exitSrvOn : bool; nat_ : bool;
  exit : bool; dns_ : list Addr; dnsUp : list Addr; zone : option dns.Zone; dnsSrv : option (option dns.Zone);
  closed : bool; trace : list (call * bool) }.

Definition set_trace (t : list (call * bool)) (r : Room) : Room :=
  MkRoom (par r) (dev r) (bcast r) (divert r) (peers r) (timers r) (routes r) (routing r) (exitSrv r) (exitSrvOn r) (nat_ r)
    (exit r) (dns_ r) (dnsUp r) (zone r) (dnsSrv r) (closed r) t.
Definition set_dev (d : D) (r : Room) : Room :=
  MkRoom (par r) d (bcast r) (divert r) (peers r) (timers r) (routes r) (routing r) (exitSrv r) (exitSrvOn r) (nat_ r)
    (exit r) (dns_ r) (dnsUp r) (zone r) (dnsSrv r) (closed r) (trace r).
Definition set_bcast (b : tunwrap.Device) (r : Room) : Room :=
  MkRoom (par r) (dev r) b (divert r) (peers r) (timers r) (routes r) (routing r) (exitSrv r) (exitSrvOn r) (nat_ r)
    (exit r) (dns_ r) (dnsUp r) (zone r) (dnsSrv r) (closed r) (trace r).
Definition set_peers (ps : gmap bytes config.Peer) (ts : list bytes) (r : Room) : Room :=
  MkRoom (par r) (dev r) (bcast r) (divert r) ps ts (routes r) (routing r) (exitSrv r) (exitSrvOn r) (nat_ r)
    (exit r) (dns_ r) (dnsUp r) (zone r) (dnsSrv r) (closed r) (trace r).
Definition set_routes (rs : list Prefix) (r : Room) : Room :=
  MkRoom (par r) (dev r) (bcast r) (divert r) (peers r) (timers r) rs (routing r) (exitSrv r) (exitSrvOn r) (nat_ r)
    (exit r) (dns_ r) (dnsUp r) (zone r) (dnsSrv r) (closed r) (trace r).
Definition set_routing (rs : list Prefix) (e on : bool) (r : Room) : Room :=
  MkRoom (par r) (dev r) (bcast r) (divert r) (peers r) (timers r) (routes r) rs e on (nat_ r)
    (exit r) (dns_ r) (dnsUp r) (zone r) (dnsSrv r) (closed r) (trace r).
Definition set_nat (n : bool) (v : option Divert) (r : Room) : Room :=
  MkRoom (par r) (dev r) (bcast r) v (peers r) (timers r) (routes r) (routing r) (exitSrv r) (exitSrvOn r) n
    (exit r) (dns_ r) (dnsUp r) (zone r) (dnsSrv r) (closed r) (trace r).
Definition set_exit (e : bool) (r : Room) : Room :=
  MkRoom (par r) (dev r) (bcast r) (divert r) (peers r) (timers r) (routes r) (routing r) (exitSrv r) (exitSrvOn r) (nat_ r)
    e (dns_ r) (dnsUp r) (zone r) (dnsSrv r) (closed r) (trace r).
Definition set_dns (l : list Addr) (r : Room) : Room :=
  MkRoom (par r) (dev r) (bcast r) (divert r) (peers r) (timers r) (routes r) (routing r) (exitSrv r) (exitSrvOn r) (nat_ r)
    (exit r) l l (zone r) (dnsSrv r) (closed r) (trace r).
Definition set_zone (z : option dns.Zone) (s : option (option dns.Zone)) (r : Room) : Room :=
  MkRoom (par r) (dev r) (bcast r) (divert r) (peers r) (timers r) (routes r) (routing r) (exitSrv r) (exitSrvOn r) (nat_ r)
    (exit r) (dns_ r) (dnsUp r) z s (closed r) (trace r).
Definition set_closed (r : Room) : Room :=
  MkRoom (par r) (dev r) (bcast r) (divert r) (peers r) (timers r) (routes r) (routing r) (exitSrv r) (exitSrvOn r) (nat_ r)
    (exit r) (dns_ r) (dnsUp r) (zone r) (dnsSrv r) true (trace r).

Definition record_ (c : call) (ok : bool) (r : Room) : Room := set_trace (trace r ++ [(c, ok)]) r.
(** Asks the operating system. *)
Definition ask (c : call) (r : Room) : bool * Room := let ok := os (trace r) c in (ok, record_ c ok r).
Definition tell (c : call) (r : Room) : Room := (ask c r).2.

(** ** Peers *)

Inductive error : Type := EInterface | EDevice | EPeers | EUp.

Definition ipcSet (ls : list uapi_line) (r : Room) : bool * Room :=
  let '(d, ok) := IpcSet (dev r) ls in (ok, record_ CIpc ok (set_dev d r)).

(** The members' single addresses, in the order of the loop over [next]. *)
Definition IsSingleIP (p : Prefix) : bool := PrefixIsValid p && (pfx_bits p =? BitLen (pfx_ip p)).
Definition broadcast_ips (next : gmap bytes config.Peer) : list Addr :=
  flat_map (fun k => match next !! k with
    | Some p => map pfx_ip (List.filter IsSingleIP (config.AllowedIPs p))
    | None => []
    end) (order (map fst (map_to_list next))).

Definition SetPeers (ps : list config.Peer) (r : Room) : bool * Room :=
  let '(ls, next, deferred) := peersDiff order (peers r) ps (psk (par r)) (self (par r)) in
  match ls with
  | [] => (true, r)
  | _ =>
    let '(ok, r) := ipcSet ls r in
    if negb ok then (false, r)
    else (true, set_peers next (timers r ++ deferred) (set_bcast (tunwrap.SetPeers (bcast r) (broadcast_ips next)) r))
  end.

(** A timer of [SetPeers] fires. *)
Definition enableKeepalive (k : bytes) (r : Room) : Room :=
  match peers r !! k with
  | Some p =>
    if closed r || (config.Keepalive p =? 0) then r
    else (ipcSet [LPublicKey k; LUpdateOnly; LKeepalive (config.Keepalive p)] r).2
  | None => r
  end.
Definition fire (i : nat) (r : Room) : Room :=
  match timers r !! i with
  | Some k => enableKeepalive k (set_peers (peers r) (delete i (timers r)) r)
  | None => r
  end.

Definition SetBroadcast (mode : bytes) (r : Room) : Room := set_bcast (tunwrap.SetMode (bcast r) mode) r.

(** ** Routes *)

Definition tell_all (cs : list call) (r : Room) : Room := fold_left (fun r c => tell c r) cs r.

Definition SetRoutes (rs : list Prefix) (r : Room) : Room :=
  let r' :=
    if tdev (par r) then
      tell_all (map (fun p => CSetRoute p true) (List.filter (fun p => bool_decide (p ∉ routes r)) rs))
        (tell_all (map (fun p => CSetRoute p false) (List.filter (fun p => bool_decide (p ∉ rs)) (routes r))) r)
    else r in
  set_routes rs r'.

(** ** Routing for the room *)

Definition privateNets : list Prefix := [
  MkPrefix (Addr4 (10 * 2 ^ 24)) 8; MkPrefix (Addr4 (100 * 2 ^ 24 + 64 * 2 ^ 16)) 10; MkPrefix (Addr4 (127 * 2 ^ 24)) 8;
  MkPrefix (Addr4 (169 * 2 ^ 24 + 254 * 2 ^ 16)) 16; MkPrefix (Addr4 (172 * 2 ^ 24 + 16 * 2 ^ 16)) 12;
  MkPrefix (Addr4 (192 * 2 ^ 24 + 168 * 2 ^ 16)) 16; MkPrefix (Addr4 (224 * 2 ^ 24)) 4; MkPrefix (Addr4 0) 8;
  MkPrefix (Addr4 (240 * 2 ^ 24)) 4 ].

Definition isPrivate (a : Addr) : bool := existsb (fun p => Contains p a) privateNets.

(** Is the packet handed to the NAT instead of the OS? *)
Definition diverts (v : Divert) (pkt : bytes) : bool :=
  if (zlen pkt <? 20) || negb (Z.shiftr (nth 0 pkt 0) 4 =? 4) then false
  else
    let src := AddrFrom4 (sub pkt 12 16) in
    let dst := AddrFrom4 (sub pkt 16 20) in
    if negb (Contains (subnet v) src) || Contains (subnet v) dst || bool_decide (dst = own v) || IsMulticast dst
       || bool_decide (dst = tunwrap.limited) then false
    else negb (existsb (fun p => Contains p dst) (keep v)).

Definition startNATLocked (rs : list Prefix) (r : Room) : bool * Room :=
  let '(ok, r) := if nat_ r then (true, r) else ask CNewNAT r in
  if ok : bool then (true, set_nat true (Some (MkDivert (Masked (Address (par r))) (pfx_ip (Address (par r))) rs)) r)
  else (false, r).

Definition stopNATLocked (r : Room) : Room := if nat_ r then set_nat false None (tell CCloseNAT r) else r.

(** The kernel's part: whether it can do what is wanted. *)
Definition kernelRouter (rs : list Prefix) (kernelExit : bool) (r : Room) : bool * Room :=
  if bool_decide (rs = []) && negb kernelExit then
    (true, if negb (bool_decide (routing r = [])) || (exitSrv r && negb (userExit (par r))) then tell CDisableRouter r else r)
  else ask (CEnableRouter rs kernelExit (limit (par r)) (limitTotal (par r))) r.

Definition SetRouter (rs : list Prefix) (exit : bool) (r : Room) : Room :=
  if (bool_decide (rs = routing r) && Bool.eqb exit (exitSrv r)) || negb (tdev (par r))
  then set_routing rs exit (exitSrvOn r) r
  else
    let '(ok, r) := kernelRouter rs (exit && negb (userExit (par r))) r in
    if negb ok then r
    else
      let '(exit, r) :=
        if exit && userExit (par r) then startNATLocked rs r else (exit, stopNATLocked r) in
      set_routing rs exit exit r.

(** ** DNS *)

(** The resolvers for a query from [src]; [sys]: those of this machine. *)
Definition upstreams (sys : list AddrPort) (r : Room) (src : Addr) : list AddrPort :=
  let self := pfx_ip (Address (par r)) in
  if bool_decide (src = self) || IsLoopback src then
    map (fun a => MkAddrPort a 53) (List.filter (fun a => negb (bool_decide (a = self))) (dnsUp r))
  else if negb (exitSrvOn r) then []
  else if bool_decide (ups (par r) = []) then sys
  else map (fun a => MkAddrPort a 53) (ups (par r)).

Definition startDNSServerLocked (r : Room) : Room :=
  let '(ok, r) := ask CListenDNS r in
  if ok : bool then set_zone (zone r) (Some (zone r)) r else r.

Definition Zone (r : Room) : bytes := match zone r with Some z => dns.z_Name z | None => [] end.

Definition applyOSDNSLocked (r : Room) : Room :=
  match dnsSrv r with
  | Some _ =>
    if tdev (par r) then tell (CSetDNS (pfx_ip (Address (par r))) (Zone r) (negb (bool_decide (dns_ r = [])))) r else r
  | None => r
  end.

Definition SetZone (z : option dns.Zone) (r : Room) : Room :=
  let old := Zone r in
  let r := set_zone z (match dnsSrv r with Some _ => Some z | None => None end) r in
  match z with
  | Some z => if bool_decide (dns.z_Name z = old) then r else applyOSDNSLocked r
  | None => r
  end.

Definition SetExit (on : bool) (r : Room) : Room :=
  if Bool.eqb on (exit r) then r
  else if negb (tdev (par r)) then set_exit on r
  else if negb on then set_exit false (tell CDisableExit r)
  else let '(ok, r) := ask CEnableExit r in if ok : bool then set_exit true r else r.

Definition SetDNS (servers : list Addr) (r : Room) : Room :=
  if bool_decide (servers = dns_ r) then r
  else
    let was := negb (bool_decide (dns_ r = [])) in
    let r := set_dns servers r in
    if Bool.eqb was (negb (bool_decide (servers = []))) then r else applyOSDNSLocked r.

(** ** Access rules, closing *)

Definition SetPolicy (pol : option acl.Policy) (r : Room) : Room :=
  let f := match pol with
           | Some pol => if bool_decide (acl.Rules pol = []) then None else Some (filter.NewFilter pol (pfx_ip (Address (par r))))
           | None => None
           end in
  set_bcast (tunwrap.SetFilter (bcast r) f) r.

Definition Close (r : Room) : Room :=
  let r := set_closed r in
  let r := if (negb (bool_decide (routing r = [])) || exitSrv r) && tdev (par r) then tell CDisableRouter r else r in
  let r := stopNATLocked r in
  let r := match dnsSrv r with
           | Some _ =>
             let r := tell CCloseDNS r in
             if tdev (par r) then tell (CSetDNS AddrZero [] false) r else r
           | None => r
           end in
  let r := if exit r && tdev (par r) then tell CDisableExit r else r in
  tell CDeviceClose r.

(** ** Starting *)

Record Options := MkOptions {
  Config : config.Room; Key : bytes; Userspace : bool; DNSUpstreams : list Addr; UserspaceExit : bool;
  ExitLimit : Z; ExitLimitTotal : Z }.

Section Up.
Context `{CR : Crypto}.

Definition params (o : Options) : Params :=
  let c := Config o in
  MkParams (config.Name c) (config.Address c) (negb (Userspace o)) (config.MTU c) (DNSUpstreams o) (UserspaceExit o)
    (ExitLimit o) (ExitLimitTotal o) (hex_encode (obfs.PresharedKey (obfs.Derive (config.Secret c)))) (identity.Public (Key o)).

Definition deviceConfig (c : config.Room) (key : bytes) : bytes :=
  obfs.line (str "private_key") (hex_encode key) ++ obfs.DeviceUAPI (obfs.Derive (config.Secret c)) (config.ClientParams c).

Definition Up (o : Options) : res error Room :=
  let c := Config o in
  if negb (os [] CInterface) then Err EInterface
  else
    b ← tunwrap.New (config.Address c) (config.Broadcast c);
    let b := if UserspaceExit o then tunwrap.EnablePump b else b in
    let '(d, ok) := IpcSetDevice NewDevice (deviceConfig c (Key o)) in
    if negb ok then Err EDevice
    else
      let r := MkRoom (params o) d b None ∅ [] [] [] false false false false [] [] None None false [(CInterface, true)] in
      let '(ok, r) := SetPeers (config.Peers c) r in
      if negb ok then Err EPeers
      else
        let '(ok, r) := ask CDeviceUp r in
        if negb ok then Err EUp
        else Ok (if tdev (par r) then startDNSServerLocked r else r).

End Up.

(** ** What the node does with a room's configuration (internal/node/node.go) *)

Definition zoneOf (rc : config.Room) : option dns.Zone :=
  if bool_decide (config.ZoneName rc = []) then None else Some (dns.MkZone (config.ZoneName rc) (config.ZoneRecords rc)).

Definition configure (rc : config.Room) (r : Room) : Room :=
  SetZone (zoneOf rc) (SetExit (config.Exit rc) (SetRouter (config.Routing rc) (config.ExitNode rc) (SetRoutes (config.Routes rc) r))).

(** A new configuration of a running room; [same]: its policy is the old one. *)
Definition reconfigure (same : bool) (rc : config.Room) (r : Room) : bool * Room :=
  let '(ok, r) := SetPeers (config.Peers rc) r in
  if negb ok then (false, r)
  else
    let r := configure rc (SetBroadcast (config.Broadcast rc) r) in
    (true, if same then r else SetPolicy (config.Policy rc) r).

(** ** Runs *)

Inductive op : Type :=
  | OPeers (ps : list config.Peer) | OTimer (i : nat) | OBroadcast (m : bytes) | ORoutes (rs : list Prefix)
  | ORouter (rs : list Prefix) (e : bool) | OZone (z : option dns.Zone) | OExit (on : bool) | ODNS (l : list Addr)
  | OPolicy (p : option acl.Policy)
  | OLearn (d : D)         (* the device learned endpoints *).

Definition step (r : Room) (o : op) : Room :=
  match o with
  | OPeers ps => (SetPeers ps r).2
  | OTimer i => fire i r
  | OBroadcast m => SetBroadcast m r
  | ORoutes rs => SetRoutes rs r
  | ORouter rs e => SetRouter rs e r
  | OZone z => SetZone z r
  | OExit on => SetExit on r
  | ODNS l => SetDNS l r
  | OPolicy p => SetPolicy p r
  | OLearn d => set_dev d r
  end.

Definition run (r : Room) (os : list op) : Room := fold_left step os r.

End Room.
End room.
