(* ===== verification/RoomInv.v ===== *)
(** What holds of a running room: the device has exactly the configured peers;
    what the operating system was told about routes, the resolver, forwarding and
    the exit is what the room believes; closing a room takes all of it back;
    nobody else's queries are resolved; what a userspace exit takes from the OS.

    A network that a list gives to two peers is owned by one of them only, and
    which one may be lost with a later list: the theorem on peers speaks of the
    networks that no list shared, and RoomExample has the run that loses one. *)
From stdpp Require Import base gmap sets list strings.
From Stdlib Require Import ZArith Lia.
From S2P Require Import Prelude GoStrings Netip Acl AclFilter Crypto Encoding Obfs Identity Tunwrap Config Dns RoomPeers Room.

Open Scope Z_scope.

Module roominv.
Import roompeers room.

(** ** What the calls amount to *)

(** The kernel's routing for the room, the NAT, the traffic of this machine. An
    enabling counts when it succeeded, since the room looks at the error;
    [disableRouter], [disableExit] and the NAT's [Close] return nothing, so there
    it counts that they were called. *)
Record effects := MkEffects { e_router : option (list Prefix * bool); e_nat : bool; e_exit : bool }.

Definition effect1 (e : effects) (c : call * bool) : effects :=
  match c with
  | (CEnableRouter rs x _ _, true) => MkEffects (Some (rs, x)) (e_nat e) (e_exit e)
  | (CDisableRouter, _) => MkEffects None (e_nat e) (e_exit e)
  | (CNewNAT, true) => MkEffects (e_router e) true (e_exit e)
  | (CCloseNAT, _) => MkEffects (e_router e) false (e_exit e)
  | (CEnableExit, true) => MkEffects (e_router e) (e_nat e) true
  | (CDisableExit, _) => MkEffects (e_router e) (e_nat e) false
  | _ => e
  end.
Definition effects_of (t : list (call * bool)) : effects := fold_left effect1 t (MkEffects None false false).

Lemma effects_snoc t c : effects_of (t ++ [c]) = effect1 (effects_of t) c.
Proof. apply fold_left_app. Qed.

(** What the machine's resolver was last told: the server, the zone, and
    whether all names go there. The room only logs an error. *)
Definition resolver1 (b : option (Addr * bytes * bool)) (c : call * bool) : option (Addr * bytes * bool) :=
  match c with (CSetDNS own zone carrier, _) => Some (own, zone, carrier) | _ => b end.
Definition resolver (t : list (call * bool)) : option (Addr * bytes * bool) := fold_left resolver1 t None.


(** The routes through the interface the machine was last told to have: the
    room only logs an error. They go with the interface. *)
Definition route1 (s : gset Prefix) (c : call * bool) : gset Prefix :=
  match c with
  | (CSetRoute p true, _) => {[p]} ∪ s
  | (CSetRoute p false, _) => s ∖ {[p]}
  | (CDeviceClose, _) => ∅
  | _ => s
  end.
Definition routed (t : list (call * bool)) : gset Prefix := fold_left route1 t ∅.

Lemma resolver_snoc t c : resolver (t ++ [c]) = resolver1 (resolver t) c.
Proof. apply fold_left_app. Qed.
Lemma routed_snoc t c : routed (t ++ [c]) = route1 (routed t) c.
Proof. apply fold_left_app. Qed.

(** Calls that are not about routes and names; those about nothing of this. *)
Definition plain (c : call) : bool := match c with CSetDNS _ _ _ | CSetRoute _ _ | CDeviceClose => false | _ => true end.
Definition quiet (c : call) : bool :=
  match c with
  | CEnableRouter _ _ _ _ | CDisableRouter | CNewNAT | CCloseNAT | CEnableExit | CDisableExit => false
  | _ => plain c
  end.

Lemma effect1_quiet e c ok : quiet c = true -> effect1 e (c, ok) = e.
Proof. by destruct c. Qed.

Section Inv.
Context {D : Type} `{DV : Device D} {DL : DeviceLaws D}.
Context (os : list (call * bool) -> call -> bool) (order : list bytes -> list bytes).
Notation Room := (@Room D).

(** The fields of routing, and what was done. *)
Record view := MkView {
  v_par : Params; v_divert : option Divert; v_routing : list Prefix; v_exitSrv : bool; v_on : bool; v_nat : bool;
  v_exit : bool; v_dns : list Addr; v_up : list Addr; v_srv : bool; v_att : option (Addr * bytes * bool); v_zone : bytes;
  v_routes : list Prefix; v_told : gset Prefix; v_eff : effects }.
Definition view_of (r : Room) : view :=
  MkView (par r) (divert r) (routing r) (exitSrv r) (exitSrvOn r) (nat_ r) (exit r) (dns_ r) (dnsUp r)
    (match dnsSrv r with Some _ => true | None => false end) (resolver (trace r)) (Zone r) (routes r) (routed (trace r)) (effects_of (trace r)).

Lemma view_tell c (r : Room) : quiet c = true -> view_of (tell os c r) = view_of r.
Proof. intros Hc. unfold view_of. simpl. rewrite effects_snoc, effect1_quiet, resolver_snoc, routed_snoc by done. by destruct c. Qed.

Lemma view_tell_all cs (r : Room) : Forall (fun c => quiet c = true) cs -> view_of (tell_all os cs r) = view_of r.
Proof.
  intros Hcs. revert r. induction Hcs as [| c cs Hc _ IH]; intros r; [done |]. simpl. change (fold_left _ cs ?x) with (tell_all os cs x).
  by rewrite IH, view_tell.
Qed.

Lemma view_ipcSet ls (r : Room) : view_of (ipcSet ls r).2 = view_of r.
Proof. unfold ipcSet. destruct (IpcSet (dev r) ls) as [d ok]. unfold view_of. simpl. by rewrite effects_snoc, resolver_snoc, routed_snoc. Qed.

Lemma view_SetPeers ps (r : Room) : view_of (SetPeers order ps r).2 = view_of r.
Proof.
  unfold SetPeers. destruct (peersDiff _ _ _ _ _) as [[ls next] deferred]. destruct ls as [| l ls]; [done |].
  pose proof (view_ipcSet (l :: ls) r) as H. destruct (ipcSet (l :: ls) r) as [ok r']. simpl in H. by destruct ok.
Qed.

Lemma view_fire i (r : Room) : view_of (fire i r) = view_of r.
Proof.
  unfold fire. destruct (timers r !! i) as [k |]; [| done]. unfold enableKeepalive. simpl.
  destruct (peers r !! k) as [p |]; [| done]. destruct (closed r || _); [done |]. etrans; [apply view_ipcSet | done].
Qed.

(** ** Routes *)

Definition with_routes (rs : list Prefix) (told : gset Prefix) (v : view) : view :=
  MkView (v_par v) (v_divert v) (v_routing v) (v_exitSrv v) (v_on v) (v_nat v) (v_exit v) (v_dns v) (v_up v) (v_srv v) (v_att v) (v_zone v)
    rs told (v_eff v).

Lemma view_tell_routes add ps (r : Room) : view_of (tell_all os (map (fun p => CSetRoute p add) ps) r)
  = with_routes (routes r) (if add : bool then list_to_set ps ∪ routed (trace r) else routed (trace r) ∖ list_to_set ps) (view_of r).
Proof.
  revert r. induction ps as [| p ps IH]; intros r.
  - unfold with_routes, view_of. simpl. f_equal. destruct add; set_solver.
  - simpl. change (fold_left _ _ ?x) with (tell_all os (map (fun p => CSetRoute p add) ps) x). rewrite IH.
    unfold with_routes, view_of. simpl. rewrite effects_snoc, resolver_snoc, routed_snoc. f_equal. destruct add; simpl; set_solver.
Qed.

Lemma not_in_filter (p : Prefix) (l l' : list Prefix) : p ∈ List.filter (fun p => bool_decide (p ∉ l')) l <-> p ∈ l /\ p ∉ l'.
Proof. by rewrite list_elem_of_In, List.filter_In, <- list_elem_of_In, bool_decide_eq_true. Qed.

(** What the machine was told follows what the room believes. *)
Lemma view_SetRoutes rs (r : Room) : routed (trace r) = (if tdev (par r) then list_to_set (routes r) else ∅) ->
  view_of (SetRoutes os rs r) = with_routes rs (if tdev (par r) then list_to_set rs else ∅) (view_of r).
Proof.
  intros Ht. unfold SetRoutes. cbv zeta. match goal with |- view_of (set_routes rs ?x) = _ => set (r' := x) end.
  change (view_of (set_routes rs r')) with (with_routes rs (routed (trace r')) (view_of r')). unfold r'. clear r'. destruct (tdev (par r)).
  2: { by rewrite Ht. }
  set (r1 := tell_all os (map (fun p => CSetRoute p false) _) r).
  pose proof (view_tell_routes false (List.filter (fun p => bool_decide (p ∉ rs)) (routes r)) r) as H1. fold r1 in H1.
  pose proof (view_tell_routes true (List.filter (fun p => bool_decide (p ∉ routes r)) rs) r1) as H2.
  set (r2 := tell_all os (map (fun p => CSetRoute p true) _) r1) in *.
  change (routed (trace r2)) with (v_told (view_of r2)). rewrite H2.
  change (routed (trace r1)) with (v_told (view_of r1)). rewrite H1. unfold with_routes. simpl. f_equal. rewrite Ht.
  apply set_eq. intros p. rewrite elem_of_union, elem_of_difference, !elem_of_list_to_set, !not_in_filter. destruct (decide (p ∈ rs)), (decide (p ∈ routes r)); tauto.
Qed.

(** ** Routing *)

(** What the kernel should do for the room. *)
Definition wanted (v : view) : option (list Prefix * bool) :=
  let k := v_exitSrv v && negb (userExit (v_par v)) in
  if bool_decide (v_routing v = []) && negb k then None else Some (v_routing v, k).

(** The machine was told to have the routes the room believes it has, and, when
    the room has a DNS server, to use it for the zone and for all names if the
    room carries its DNS. (A zone that was taken away is not taken back.) *)
Definition told_ok (v : view) : Prop :=
  v_told v = (if tdev (v_par v) then list_to_set (v_routes v) else ∅)
  /\ match v_att v with
     | Some (own, z, carrier) =>
       tdev (v_par v) = true /\ v_srv v = true /\ own = pfx_ip (Address (v_par v))
       /\ carrier = negb (bool_decide (v_dns v = [])) /\ (v_zone v <> [] -> z = v_zone v)
     | None => tdev (v_par v) = true -> v_srv v = true -> v_dns v = [] /\ v_zone v = []
     end.

(** With an OS interface, what the room believes is what was done; without, nothing is. *)
Definition view_inv (v : view) : Prop :=
  v_up v = v_dns v /\ told_ok v
  /\ if tdev (v_par v) then
       v_nat v = v_exitSrv v && userExit (v_par v) /\ v_on v = v_exitSrv v
       /\ v_divert v = (if v_nat v then Some (MkDivert (Masked (Address (v_par v))) (pfx_ip (Address (v_par v))) (v_routing v)) else None)
       /\ v_eff v = MkEffects (wanted v) (v_nat v) (v_exit v)
     else v_nat v = false /\ v_on v = false /\ v_divert v = None /\ v_eff v = MkEffects None false false.

Definition with_eff (e : effects) (v : view) : view :=
  MkView (v_par v) (v_divert v) (v_routing v) (v_exitSrv v) (v_on v) (v_nat v) (v_exit v) (v_dns v) (v_up v) (v_srv v) (v_att v) (v_zone v) (v_routes v) (v_told v) e.

Lemma view_ask c (r : Room) : plain c = true -> view_of (ask os c r).2 = with_eff (effect1 (effects_of (trace r)) (c, (ask os c r).1)) (view_of r).
Proof. intros Hc. unfold view_of, with_eff. simpl. rewrite effects_snoc, resolver_snoc, routed_snoc. by destruct c. Qed.

Lemma kernelRouter_view rs k (r : Room) n x : effects_of (trace r) = MkEffects (wanted (view_of r)) n x ->
  let '(ok, r') := kernelRouter os rs k r in
  view_of r' = with_eff (MkEffects (if ok then if bool_decide (rs = []) && negb k then None else Some (rs, k) else wanted (view_of r)) n x) (view_of r).
Proof.
  intros He. unfold kernelRouter. destruct (bool_decide (rs = []) && negb k) eqn:Hoff.
  - destruct (negb (bool_decide (routing r = [])) || exitSrv r && negb (userExit (par r))) eqn:Hon.
    + unfold tell. rewrite view_ask, He by done. done.
    + apply Bool.orb_false_iff in Hon as [Hr%negb_false_iff Hx]. assert (wanted (view_of r) = None) as Hw.
      { unfold wanted. simpl. by rewrite Hx, Hr. }
      rewrite Hw in He. unfold view_of, with_eff. simpl. by rewrite He.
  - destruct (ask os (CEnableRouter rs k (limit (par r)) (limitTotal (par r))) r) as [ok r'] eqn:Ha.
    pose proof (view_ask (CEnableRouter rs k (limit (par r)) (limitTotal (par r))) r ltac:(done)) as Hv. rewrite Ha, He in Hv. simpl in Hv. rewrite Hv. by destruct ok.
Qed.

Definition with_nat (d : option Divert) (n : bool) (k : option (list Prefix * bool)) (v : view) : view :=
  MkView (v_par v) d (v_routing v) (v_exitSrv v) (v_on v) n (v_exit v) (v_dns v) (v_up v) (v_srv v) (v_att v) (v_zone v) (v_routes v) (v_told v) (MkEffects k n (e_exit (v_eff v))).
Definition with_routing (rs : list Prefix) (e on : bool) (v : view) : view :=
  MkView (v_par v) (v_divert v) rs e on (v_nat v) (v_exit v) (v_dns v) (v_up v) (v_srv v) (v_att v) (v_zone v) (v_routes v) (v_told v) (v_eff v).

Lemma startNAT_view rs (r : Room) k x : v_eff (view_of r) = MkEffects k (nat_ r) x ->
  let '(ok, r') := startNATLocked os rs r in
  view_of r' = (if ok then with_nat (Some (MkDivert (Masked (Address (par r))) (pfx_ip (Address (par r))) rs)) true k (view_of r) else view_of r)
  /\ (ok = false -> nat_ r = false).
Proof.
  intros He. simpl in He. unfold startNATLocked. destruct (nat_ r) eqn:Hnat.
  - split; [| done]. unfold view_of, with_nat. simpl. by rewrite He.
  - pose proof (view_ask CNewNAT r ltac:(done)) as Hv. unfold ask in *. simpl in Hv. rewrite He in Hv. destruct (os (trace r) CNewNAT); simpl in *.
    + split; [| done]. unfold view_of, with_nat in *. simpl in *. rewrite He. by injection Hv as -> -> ->.
    + split; [| done]. rewrite Hv. unfold with_eff, view_of. simpl. by rewrite He.
Qed.

Lemma stopNAT_view (r : Room) k x : v_eff (view_of r) = MkEffects k (nat_ r) x -> (nat_ r = false -> divert r = None) ->
  view_of (stopNATLocked os r) = with_nat None false k (view_of r).
Proof.
  intros He Hd. simpl in He. unfold stopNATLocked. destruct (nat_ r) eqn:Hnat; unfold view_of, with_nat; simpl.
  - by rewrite effects_snoc, resolver_snoc, routed_snoc, He.
  - by rewrite He, Hnat, Hd.
Qed.

Lemma SetRouter_inv rs e (r : Room) : view_inv (view_of r) -> view_inv (view_of (SetRouter os rs e r)).
Proof.
  intros (Hup & Hatt & Hv). unfold SetRouter. cbn [v_par view_of] in Hv. destruct (tdev (par r)) eqn:Ht; rewrite ?Bool.orb_false_r, ?Bool.orb_true_r.
  2: { split; [done | split; [done |]]. simpl. by rewrite Ht. }
  destruct Hv as (Hn & Ho & Hd & He). cbn [view_of v_nat v_exitSrv v_par v_on v_divert v_eff v_exit v_routing] in *.
  destruct (bool_decide (rs = routing r) && Bool.eqb e (exitSrv r)) eqn:Hsame.
  { bool_hyps. apply Bool.eqb_prop in H0. subst. split; [done | split; [done |]]. simpl. rewrite Ht. by unfold wanted in *. }
  clear Hsame. pose proof (kernelRouter_view rs (e && negb (userExit (par r))) r _ _ He) as Hk.
  destruct (kernelRouter os rs (e && negb (userExit (par r))) r) as [ok r1]. destruct ok; cbn [negb].
  2: { split; [by rewrite Hk | split; [by rewrite Hk |]]. rewrite Hk. simpl. by rewrite Ht. }
  assert (par r1 = par r /\ nat_ r1 = nat_ r /\ divert r1 = divert r) as (Hp1 & Hn1 & Hd1) by (unfold view_of, with_eff in Hk; simpl in Hk; by injection Hk).
  assert (forall d n v, view_of v = with_nat d n
       (if bool_decide (rs = []) && negb (e && negb (userExit (par r))) then None else Some (rs, e && negb (userExit (par r)))) (view_of r1) ->
     forall x, x && negb (userExit (par r)) = e && negb (userExit (par r)) -> n = x && userExit (par r) ->
     d = (if n then Some (MkDivert (Masked (Address (par r))) (pfx_ip (Address (par r))) rs) else None) ->
     view_inv (view_of (set_routing rs x x v))) as Hend.
  { intros d n v Hv x Hx Hnx Hdx. change (view_of (set_routing rs x x v)) with (with_routing rs x x (view_of v)). rewrite Hv, Hk.
    split; [done | split; [done |]]. simpl. rewrite Ht. unfold wanted. simpl. rewrite Hx. done. }
  destruct (e && userExit (par r1)) eqn:Hue.
  - apply andb_prop in Hue as [-> Hu]. rewrite Hp1 in Hu.
    pose proof (startNAT_view rs r1 _ _ (eq_trans (f_equal v_eff Hk) (f_equal (fun b => MkEffects _ b _) (eq_sym Hn1)))) as Hs.
    destruct (startNATLocked os rs r1) as [ok r2]. destruct Hs as [Hs Hnat]. destruct ok.
    + rewrite Hp1 in Hs. eapply Hend; [exact Hs | done | by rewrite Hu | done].
    + specialize (Hnat eq_refl). rewrite Hn1 in Hnat. eapply (Hend None false); [| by rewrite Hu | done | done].
      rewrite Hs, Hk. unfold with_eff, with_nat, view_of. simpl. rewrite Hnat, Hd, Hnat. done.
  - pose proof (stopNAT_view r1 _ _ (eq_trans (f_equal v_eff Hk) (f_equal (fun b => MkEffects _ b _) (eq_sym Hn1)))) as Hs.
    eapply Hend; [apply Hs; rewrite Hn1, Hd1, Hd; by intros -> | done | by rewrite <- Hp1, Hue | done].
Qed.

(** ** The other settings *)

(** The state but for the DNS server and the resolver. *)
Definition rest_of (v : view) := (v_par v, v_divert v, v_exit v, v_nat v, v_eff v).

Lemma SetExit_inv on (r : Room) : view_inv (view_of r) -> view_inv (view_of (SetExit os on r)).
Proof.
  intros Hv. unfold SetExit. destruct (Bool.eqb on (exit r)); [done |]. destruct (tdev (par r)) eqn:Ht; cbn [negb].
  - destruct Hv as (Hup & Hatt & Hv). cbn [v_par view_of] in Hv. rewrite Ht in Hv. destruct Hv as (Hn & Ho & Hd & He). simpl in *. destruct on; cbn [negb].
    + unfold ask. destruct (os (trace r) CEnableExit); (split; [done | split; [unfold told_ok; simpl; by rewrite resolver_snoc, routed_snoc |]]);
        simpl; rewrite Ht, effects_snoc, He; done.
    + split; [done | split; [unfold told_ok; simpl; by rewrite resolver_snoc, routed_snoc |]]. simpl. rewrite Ht, effects_snoc, He. done.
  - destruct Hv as (Hup & Hatt & Hv). split; [done | split; [done |]]. simpl in *. by rewrite Ht in *.
Qed.

Definition with_att (a : option (Addr * bytes * bool)) (v : view) : view :=
  MkView (v_par v) (v_divert v) (v_routing v) (v_exitSrv v) (v_on v) (v_nat v) (v_exit v) (v_dns v) (v_up v) (v_srv v) a (v_zone v)
    (v_routes v) (v_told v) (v_eff v).

Lemma applyOSDNS_view (r : Room) : view_of (applyOSDNSLocked os r)
  = with_att (if v_srv (view_of r) && tdev (par r) then Some (pfx_ip (Address (par r)), Zone r, negb (bool_decide (dns_ r = [])))
              else resolver (trace r)) (view_of r).
Proof.
  unfold applyOSDNSLocked, with_att, view_of. simpl. destruct (dnsSrv r) eqn:Hs; [| by rewrite Hs]. destruct (tdev (par r)); [| by rewrite Hs].
  simpl. by rewrite Hs, effects_snoc, resolver_snoc, routed_snoc.
Qed.

(** Pointing the resolver at the server makes good whatever changed. *)
Lemma applyOSDNS_inv (r r' : Room) : view_inv (view_of r') ->
  par r = par r' -> resolver (trace r) = resolver (trace r') -> v_srv (view_of r) = v_srv (view_of r') ->
  v_up (view_of r) = v_dns (view_of r) -> v_told (view_of r) = v_told (view_of r') -> routes r = routes r' ->
  rest_of (view_of r) = rest_of (view_of r') -> v_on (view_of r) = v_on (view_of r') -> exitSrv r = exitSrv r' -> routing r = routing r' ->
  view_inv (view_of (applyOSDNSLocked os r)).
Proof.
  intros (_ & [Hr Ha] & Hv) Hp Hres Hs Hup Ht Hrs [= _ Hd Hx Hn He] Hon Hes Hrt. rewrite applyOSDNS_view. split; [exact Hup |]. split.
  - split; [simpl in *; by rewrite Ht, Hp, Hrs |]. simpl in Hs, Ha |- *. rewrite Hs. destruct (dnsSrv r') eqn:Hsrv; cbn [andb].
    + destruct (tdev (par r)) eqn:Htd; [by split_and! |]. rewrite Hres. destruct (resolver (trace r')) as [[[own z] c] |]; [| congruence]. destruct Ha as [Ha _]. congruence.
    + rewrite Hres. destruct (resolver (trace r')) as [[[own z] c] |]; [| congruence]. destruct Ha as (_ & Ha & _). congruence.
  - simpl in *. unfold wanted in *. simpl in *. by rewrite Hp, Hn, Hon, Hes, Hd, Hrt, He, Hx.
Qed.

Lemma SetDNS_inv l (r : Room) : view_inv (view_of r) -> view_inv (view_of (SetDNS os l r)).
Proof.
  intros Hv. unfold SetDNS. case_bool_decide; [done |]. destruct (Bool.eqb _ _) eqn:Heq; [| by eapply applyOSDNS_inv].
  apply Bool.eqb_prop in Heq. destruct Hv as (_ & [Hr Ha] & Hv). split; [done |]. split; [| done]. split; [done |]. simpl in *.
  destruct (resolver (trace r)) as [[[own z] c] |].
  - destruct Ha as (? & ? & ? & -> & ?). by split_and!.
  - intros Ht Hs. destruct (Ha Ht Hs) as [Hd Hz]. split; [| done]. rewrite Hd in Heq. by destruct l.
Qed.

Lemma SetZone_inv z (r : Room) : view_inv (view_of r) -> view_inv (view_of (SetZone os z r)).
Proof.
  intros Hv. unfold SetZone. cbv zeta. set (r' := set_zone z _ r).
  assert (v_srv (view_of r') = v_srv (view_of r)) as Hs by (simpl; by destruct (dnsSrv r)).
  assert (Zone r' = Zone r \/ Zone r' = [] -> view_inv (view_of r')) as Hsame.
  { intros Hz. destruct Hv as (Hup & [Hr Ha] & Hv). split; [done |]. split; [| done]. split; [done |]. cbn [v_att view_of] in *.
    change (resolver (trace r')) with (resolver (trace r)). destruct (resolver (trace r)) as [[[own zn] c] |].
    - destruct Ha as (? & ? & ? & ? & Ha). split_and!; [done | congruence | done | done |]. simpl in *. intros Hne. destruct Hz as [Hz | Hz]; [| done].
      rewrite Hz in *. by apply Ha.
    - intros Htd Hsv. rewrite Hs in Hsv. destruct (Ha Htd Hsv) as [? Hzr]. split; [done |]. simpl in *. destruct Hz; congruence. }
  destruct z as [z |]; [| apply Hsame; by right]. case_bool_decide as Hn; [apply Hsame; by left |].
  apply (applyOSDNS_inv r' r Hv); try done. apply Hv.
Qed.

Lemma step_view o (r : Room) : view_inv (view_of r) -> view_inv (view_of (step os order r o)).
Proof.
  intros Hv. destruct o; cbn [step]; try done.
  - by rewrite view_SetPeers.
  - by rewrite view_fire.
  - destruct Hv as (Hup & [Hr Ha] & Hv). rewrite view_SetRoutes by done. by split.
  - by apply SetRouter_inv.
  - by apply SetZone_inv.
  - by apply SetExit_inv.
  - by apply SetDNS_inv.
Qed.

Lemma run_view ops (r : Room) : view_inv (view_of r) -> view_inv (view_of (run os order r ops)).
Proof. revert r. induction ops as [| o ops IH]; intros r Hv; [done |]. by apply IH, step_view. Qed.

(** ** Starting and closing *)

Lemma Up_inv `{CR : Crypto} o (r : Room) : Up os order o = Ok r -> view_inv (view_of r) /\ par r = params o.
Proof.
  unfold Up. destruct (negb (os [] CInterface)); [done |]. destruct (tunwrap.New _ _) as [b | |]; [| done | done]. cbn [mbind res_bind].
  destruct (IpcSetDevice _ _) as [d ok]. destruct ok; cbn [negb]; [| done].
  match goal with |- context [SetPeers order _ ?x] => set (r0 := x) end.
  pose proof (view_SetPeers (config.Peers (Config o)) r0) as H1. destruct (SetPeers order _ r0) as [ok r1]. destruct ok; cbn [negb]; [| done].
  pose proof (view_tell CDeviceUp r1 eq_refl) as H2. unfold tell in H2. destruct (ask os CDeviceUp r1) as [ok r2]. destruct ok; cbn [negb]; [| done].
  simpl in H1, H2. rewrite H1 in H2.
  assert (view_inv (view_of r2) /\ par r2 = params o) as [Hv Hp].
  { split; [| by injection H2]. rewrite H2. unfold view_of, r0. simpl. split; [done | split; [split; [simpl; by destruct (Userspace o) | done] |]]. simpl. by destruct (Userspace o). }
  intros [= <-]. destruct (tdev (par r2)); [| done]. unfold startDNSServerLocked. pose proof (view_tell CListenDNS r2 eq_refl) as H3.
  unfold tell in H3. destruct (ask os CListenDNS r2) as [ok r3]. simpl in H3. assert (par r3 = par r2) as Hp3 by by injection H3.
  destruct ok; [| by rewrite H3, Hp3]. split; [| simpl; congruence].
  pose proof (f_equal v_att (eq_trans H3 H2)) as Hr3. pose proof (f_equal v_zone (eq_trans H3 H2)) as Hz3. pose proof (f_equal v_dns (eq_trans H3 H2)) as Hd3.
  rewrite <- H3 in Hv. destruct Hv as (Hup & [Hr _] & Hv). split; [done | split; [| done]]. split; [done |].
  simpl in Hr3, Hz3, Hd3 |- *. by rewrite Hr3.
Qed.


(** ** The device's peers *)

Context (order_perm : forall l, order l ≡ₚ l).

(** The networks no list gives to two peers. *)
Context (once : Prefix -> Prop).

Definition synced (r : Room) : Prop := in_sync (psk (par r)) once (peers r) (timers r) (wg (dev r)).

(** What only the peers' operations change. *)
Definition peering (r : Room) := (par r, dev r, peers r, timers r, closed r).

Lemma peering_tell_all cs (r : Room) : peering (tell_all os cs r) = peering r.
Proof. revert r. induction cs as [| c cs IH]; intros r; [done |]. simpl. change (fold_left _ cs ?x) with (tell_all os cs x). by rewrite IH. Qed.

Lemma peering_applyOSDNS (r : Room) : peering (applyOSDNSLocked os r) = peering r.
Proof. unfold applyOSDNSLocked. destruct (dnsSrv r); [| done]. by destruct (tdev (par r)). Qed.

Lemma peering_SetRouter rs e (r : Room) : peering (SetRouter os rs e r) = peering r.
Proof.
  unfold SetRouter, kernelRouter, startNATLocked, stopNATLocked. destruct ((_ && _) || _); [done |].
  repeat (cbn [ask fst snd negb]; case_match; simplify_eq; try done); unfold ask in *; simplify_eq; done.
Qed.

Lemma peering_other o (r : Room) : match o with OPeers _ | OTimer _ | OLearn _ => False | _ => True end ->
  peering (step os order r o) = peering r.
Proof.
  destruct o; try done; intros _; cbn [step].
  - unfold SetRoutes. cbv zeta. destruct (tdev (par r)); [| done]. etrans; [| etrans; [apply peering_tell_all | apply peering_tell_all]]; done.
  - apply peering_SetRouter.
  - unfold SetZone. destruct z as [z |]; [| done]. case_bool_decide; [done | etrans; [apply peering_applyOSDNS | done]].
  - unfold SetExit. destruct (Bool.eqb on (exit r)); [done |]. destruct (tdev (par r)); [| done]. destruct on; [| done]. simpl.
    by destruct (os (trace r) CEnableExit).
  - unfold SetDNS. case_bool_decide; [done |]. destruct (Bool.eqb _ _); [done | etrans; [apply peering_applyOSDNS | done]].
Qed.

(** No call of [IpcSet] failed. *)
Definition ipc_ok (t : list (call * bool)) : Prop := (CIpc, false) ∉ t.

Lemma ipc_ok_snoc t c : ipc_ok (t ++ [c]) -> ipc_ok t.
Proof. unfold ipc_ok. rewrite not_elem_of_app. tauto. Qed.

Lemma ipcSet_ok ls (r : Room) : ipc_ok (trace (ipcSet ls r).2) ->
  (ipcSet ls r).1 = true /\ wg (dev (ipcSet ls r).2) = uapi ls (wg (dev r)).
Proof.
  unfold ipcSet. destruct (IpcSet (dev r) ls) as [d ok] eqn:Hi. simpl. destruct ok; intros Hok.
  - split; [done |]. by apply IpcSet_ok.
  - exfalso. apply Hok, elem_of_app. right. by left.
Qed.

Lemma peersDiff_nothing old ps k self next deferred : peersDiff order old ps k self = ([], next, deferred) -> deferred = [].
Proof.
  unfold peersDiff. destruct (peers_lines k self old ps) as [ls d] eqn:Hl. intros [= [-> _]%app_eq_nil _ <-].
  revert d Hl. induction ps as [| p ps IH]; intros d; simpl; [by intros [= <-] |].
  destruct (peer_lines k self (old !! config.PublicKey p) p) as [a da] eqn:Hp, (peers_lines k self old ps) as [b db].
  intros [= [-> ->]%app_eq_nil <-]. rewrite (IH db eq_refl). unfold peer_lines in Hp.
  destruct (match old !! _ with Some _ => _ | None => _ end); [by injection Hp as <- | by destruct (keepalive_lines _ _ _)].
Qed.

(** After a successful [SetPeers] the device has exactly the given peers. *)
Lemma SetPeers_sync ps (r : Room) : synced r -> NoDup (keys_of ps) -> (forall q, once q -> single ps q) -> (ipc_ok (trace (SetPeers order ps r).2)) ->
  (SetPeers order ps r).1 = true /\ synced (SetPeers order ps r).2
  /\ par (SetPeers order ps r).2 = par r /\ closed (SetPeers order ps r).2 = closed r
  /\ in_sync (psk (par r)) once (next_peers ps) (timers (SetPeers order ps r).2) (wg (dev (SetPeers order ps r).2)).
Proof.
  intros Hs Hwf Hips. unfold SetPeers. pose proof (peersDiff_sync order order_perm (psk (par r)) once (room.self (par r)) (peers r) ps (timers r) (wg (dev r)) Hs Hwf Hips) as Hd.
  assert (forall ls next deferred, peersDiff order (peers r) ps (psk (par r)) (room.self (par r)) = (ls, next, deferred) -> next = next_peers ps) as Hn.
  { unfold peersDiff. destruct (peers_lines _ _ _ _). by intros ls next deferred [= _ <- _]. }
  destruct (peersDiff _ _ _ _ _) as [[ls next] deferred] eqn:Hdiff. rewrite (Hn _ _ _ eq_refl) in *. destruct ls as [| l ls].
  - intros _. rewrite (peersDiff_nothing _ _ _ _ _ _ Hdiff), app_nil_r in Hd. done.
  - pose proof (ipcSet_ok (l :: ls) r) as Hi. unfold ipcSet in *. destruct (IpcSet (dev r) (l :: ls)) as [d ok]. simpl in Hi. intros Hok.
    assert (ipc_ok (trace r ++ [(CIpc, ok)])) as Ht by by destruct ok. destruct (Hi Ht) as [-> Hw]. unfold synced. simpl. by rewrite Hw.
Qed.

(** Devices that differ in what they learned of their peers' addresses. *)
Definition same_config (s s' : wgstate) : Prop :=
  w_allowed s = w_allowed s' /\ forall k, (fun w => (w_psk w, w_keepalive w)) <$> w_peers s !! k = (fun w => (w_psk w, w_keepalive w)) <$> w_peers s' !! k.

Lemma same_config_sync k cfg pending s s' : same_config s s' -> in_sync k once cfg pending s -> in_sync k once cfg pending s'.
Proof.
  intros [Ha Hp] Hs. constructor; [apply Hs | | rewrite <- Ha; apply Hs..].
  - intros j. pose proof (sync_peers _ _ _ _ _ Hs j) as H. specialize (Hp j). destruct (cfg !! j), (w_peers s !! j), (w_peers s' !! j); try done.
    injection Hp as Hp1 Hp2. simpl in *. by rewrite <- Hp1, <- Hp2.
Qed.

Lemma in_sync_pending k cfg pending pending' s : (forall j p, cfg !! j = Some p -> j ∈ pending -> j ∈ pending') ->
  in_sync k once cfg pending s -> in_sync k once cfg pending' s.
Proof.
  intros Hp Hs. constructor; try apply Hs. intros j. pose proof (sync_peers _ _ _ _ _ Hs j) as H. specialize (Hp j).
  destruct (cfg !! j), (w_peers s !! j); try done. simpl in *. destruct H as [? [? | [? ?]]]; [by auto | split; [done |]; right; split; [done | by eapply Hp]].
Qed.

Lemma fire_sync i (r : Room) : synced r -> closed r = false -> ipc_ok (trace (fire i r)) -> synced (fire i r) /\ closed (fire i r) = false /\ par (fire i r) = par r.
Proof.
  intros Hs Hc. unfold fire. destruct (timers r !! i) as [k |] eqn:Hi; [| done].
  assert (forall j, j ∈ timers r -> j = k \/ j ∈ delete i (timers r)) as Hdel.
  { intros j. rewrite (delete_Permutation (timers r) i k Hi) at 1. rewrite elem_of_cons. tauto. }
  unfold enableKeepalive. cbn [peers set_peers closed]. pose proof (sync_peers _ _ _ _ _ Hs k) as Hk. destruct (peers r !! k) as [p |] eqn:Hp.
  2: { intros _. split_and!; [| done | done]. apply (in_sync_pending _ _ (timers r)); [| done]. intros j p Hj. simpl in Hj. intros [-> |]%Hdel; [congruence | done]. }
  rewrite Hc. cbn [orb]. destruct (w_peers (wg (dev r)) !! k) as [w |] eqn:Hw; [| done]. destruct (Z.eqb_spec (config.Keepalive p) 0) as [H0 | H0].
  - intros _. split_and!; [| done | done]. constructor; try apply Hs. intros j. simpl. pose proof (sync_peers _ _ _ _ _ Hs j) as Hj.
    destruct (decide (j = k)) as [-> | Hne].
    + rewrite Hp, Hw. simpl. simpl in Hk. destruct Hk as [? [? | [? _]]]; (split; [done | left; congruence]).
    + destruct (peers r !! j), (w_peers _ !! j); try done. simpl in *. destruct Hj as [? [? | [? [-> |]%Hdel]]]; by auto.
  - set (r1 := set_peers (peers r) (delete i (timers r)) r).
    pose proof (ipcSet_ok [LPublicKey k; LUpdateOnly; LKeepalive (config.Keepalive p)] r1) as Hi1. intros Hok. destruct (Hi1 Hok) as [_ Hwg]. clear Hi1.
    assert (peering (ipcSet [LPublicKey k; LUpdateOnly; LKeepalive (config.Keepalive p)] r1).2
      = (par r, dev (ipcSet [LPublicKey k; LUpdateOnly; LKeepalive (config.Keepalive p)] r1).2, peers r, delete i (timers r), closed r)) as Hpe.
    { unfold ipcSet. by destruct (IpcSet _ _). }
    set (r2 := (ipcSet _ r1).2) in *. injection Hpe as H1 H2 H3 H4. split; [| split; congruence]. unfold synced. rewrite H1, H2, H3, Hwg.
    unfold uapi, r1. simpl. rewrite Hw. simpl. constructor; try apply Hs. intros j. pose proof (sync_peers _ _ _ _ _ Hs j) as Hj. simpl.
    destruct (decide (j = k)) as [-> | Hne].
    + rewrite lookup_alter_eq, Hw, Hp in *. simpl in *. destruct Hk as [? _]. split; [done | by left].
    + rewrite lookup_alter_ne by done. destruct (peers r !! j), (w_peers _ !! j); try done. simpl in *. destruct Hj as [? [? | [? [-> |]%Hdel]]]; by auto.
Qed.

Definition op_ok (r : Room) (o : op) : Prop :=
  match o with
  | OPeers ps => NoDup (keys_of ps) /\ forall q, once q -> single ps q
  | OLearn d => same_config (wg (dev r)) (wg d)
  | _ => True
  end.
Fixpoint run_ok (r : Room) (ops : list op) : Prop :=
  match ops with [] => True | o :: ops => op_ok r o /\ run_ok (step os order r o) ops end.

Lemma ipc_ok_prefix t t' : ipc_ok (t ++ t') -> ipc_ok t.
Proof. unfold ipc_ok. rewrite not_elem_of_app. tauto. Qed.

Lemma trace_tell_all cs (r : Room) : exists t, trace (tell_all os cs r) = trace r ++ t.
Proof.
  revert r. induction cs as [| c cs IH]; intros r; [exists []; by rewrite app_nil_r |]. simpl. change (fold_left _ cs ?x) with (tell_all os cs x).
  destruct (IH (tell os c r)) as [t ->]. eexists. simpl. by rewrite <- app_assoc.
Qed.

Lemma trace_applyOSDNS (r : Room) : exists t, trace (applyOSDNSLocked os r) = trace r ++ t.
Proof.
  unfold applyOSDNSLocked. destruct (dnsSrv r); [| exists []; by rewrite app_nil_r].
  destruct (tdev (par r)); [by eexists | exists []; by rewrite app_nil_r].
Qed.

Lemma trace_ipcSet ls (r : Room) : exists t, trace (ipcSet ls r).2 = trace r ++ t.
Proof. unfold ipcSet. destruct (IpcSet _ _). by eexists. Qed.

#[local] Ltac no_call := by (exists []; rewrite app_nil_r).

Lemma trace_step o (r : Room) : exists t, trace (step os order r o) = trace r ++ t.
Proof.
  destruct o; cbn [step]; try no_call.
  - unfold SetPeers. destruct (peersDiff _ _ _ _ _) as [[ls next] deferred]. destruct ls as [| l ls]; [no_call |].
    pose proof (trace_ipcSet (l :: ls) r) as [t Ht]. destruct (ipcSet (l :: ls) r) as [ok r1]. simpl in Ht. destruct ok; simpl; by rewrite Ht; eexists.
  - unfold fire. destruct (timers r !! i) as [k |]; [| no_call]. unfold enableKeepalive. simpl. destruct (peers r !! k); [| no_call].
    destruct (closed r || _); [no_call |]. apply (trace_ipcSet _ (set_peers (peers r) (delete i (timers r)) r)).
  - unfold SetRoutes. simpl. destruct (tdev (par r)); [| no_call].
    destruct (trace_tell_all (map (fun p => CSetRoute p false) (List.filter (fun p => bool_decide (p ∉ rs)) (routes r))) r) as [t Ht].
    match goal with |- context [tell_all os ?a (tell_all os ?b r)] => destruct (trace_tell_all a (tell_all os b r)) as [t' ->] end.
    rewrite Ht, <- app_assoc. by eexists.
  - unfold SetRouter, kernelRouter, startNATLocked, stopNATLocked. destruct ((_ && _) || _); [no_call |].
    repeat (cbn [ask fst snd negb]; case_match; simplify_eq; try no_call); unfold ask in *; simplify_eq; simpl; rewrite <- ?app_assoc; by eexists.
  - unfold SetZone. destruct z as [z |]; [| no_call]. case_bool_decide; [no_call |].
    match goal with |- context [applyOSDNSLocked os ?x] => apply (trace_applyOSDNS x) end.
  - unfold SetExit. destruct (Bool.eqb on (exit r)); [no_call |]. destruct (tdev (par r)); [| no_call]. destruct on; [| by eexists]. simpl.
    destruct (os (trace r) CEnableExit); by eexists.
  - unfold SetDNS. case_bool_decide; [no_call |]. destruct (Bool.eqb _ _); [no_call |].
    match goal with |- context [applyOSDNSLocked os ?x] => apply (trace_applyOSDNS x) end.
Qed.

Lemma trace_run ops (r : Room) : exists t, trace (run os order r ops) = trace r ++ t.
Proof.
  revert r. induction ops as [| o ops IH]; intros r; [no_call |]. simpl. change (fold_left _ ops ?x) with (run os order x ops).
  destruct (trace_step o r) as [t Ht], (IH (step os order r o)) as [t' ->]. rewrite Ht, <- app_assoc. by eexists.
Qed.

Definition good (r : Room) : Prop := synced r /\ closed r = false.

Lemma room_step_good o (r : Room) : good r -> op_ok r o -> ipc_ok (trace (step os order r o)) ->
  good (step os order r o) /\ par (step os order r o) = par r.
Proof.
  intros [Hs Hc] Ho Hok. assert (match o with OPeers _ | OTimer _ | OLearn _ => False | _ => True end \/
    match o with OPeers _ | OTimer _ | OLearn _ => True | _ => False end) as [Hother | Hpeer] by (destruct o; auto).
  - pose proof (peering_other o r Hother) as H. injection H as H1 H2 H3 H4 H5. unfold good, synced. rewrite H1, H2, H3, H4, H5. done.
  - destruct o; try done; cbn [step] in *.
    + destruct Ho as [Hnd Hips]. destruct (SetPeers_sync ps r Hs Hnd Hips Hok) as (_ & Hs' & Hp & Hc' & _). split; [| done]. split; congruence.
    + destruct (fire_sync i r Hs Hc Hok) as (Hs' & Hc' & Hp). done.
    + split; [| done]. split; [| done]. by apply (same_config_sync _ _ _ (wg (dev r))).
Qed.

Lemma room_run_good ops (r : Room) : good r -> run_ok r ops -> ipc_ok (trace (run os order r ops)) ->
  good (run os order r ops) /\ par (run os order r ops) = par r.
Proof.
  revert r. induction ops as [| o ops IH]; intros r Hg Hr Hok; [done |]. destruct Hr as [Ho Hr]. simpl in *. change (fold_left _ ops ?x) with (run os order x ops) in *.
  assert (ipc_ok (trace (step os order r o))) as Hok1.
  { destruct (trace_run ops (step os order r o)) as [t Ht]. rewrite Ht in Hok. by apply ipc_ok_prefix in Hok. }
  destruct (room_step_good o r Hg Ho Hok1) as [Hg1 Hp]. rewrite <- Hp. by apply IH.
Qed.

Lemma Up_good `{CR : Crypto} o (r : Room) : Up os order o = Ok r -> NoDup (keys_of (config.Peers (Config o))) ->
  (forall q, once q -> single (config.Peers (Config o)) q) -> ipc_ok (trace r) -> good r.
Proof.
  unfold Up. destruct (negb (os [] CInterface)); [done |]. destruct (tunwrap.New _ _) as [b | |]; [| done | done]. cbn [mbind res_bind].
  destruct (IpcSetDevice _ _) as [d ok] eqn:Hd. destruct ok; cbn [negb]; [| done].
  match goal with |- context [SetPeers order _ ?x] => set (r0 := x) end. intros Hup Hwf Hips Hok.
  assert (synced r0) as Hs0.
  { unfold synced, r0. simpl. rewrite (IpcSetDevice_ok _ _ _ Hd) by apply NewDevice_ok. apply in_sync_empty. }
  pose proof (SetPeers_sync _ r0 Hs0 Hwf Hips) as H1. destruct (SetPeers order _ r0) as [ok r1]. destruct ok; cbn [negb] in Hup; [| done].
  unfold ask in Hup. destruct (os (trace r1) CDeviceUp); cbn [negb] in Hup; [| done]. injection Hup as <-.
  assert (forall r2 : Room, peering r2 = peering r1 -> ipc_ok (trace r1) -> good r2) as Hend.
  { intros r2 Hp Hok1. destruct (H1 Hok1) as (_ & Hs1 & _ & Hc1 & _). injection Hp as E1 E2 E3 E4 E5. split; [unfold synced; by rewrite E1, E2, E3, E4 | by rewrite E5]. }
  simpl in Hok. destruct (tdev (par r1)) eqn:Ht; simpl in Hok; rewrite ?Ht in *.
  - unfold startDNSServerLocked, ask in *. simpl in *. destruct (os _ CListenDNS); simpl in Hok; (apply Hend; [done |]);
      by apply ipc_ok_prefix, ipc_ok_prefix in Hok.
  - apply Hend; [done |]. by apply ipc_ok_prefix in Hok.
Qed.

End Inv.

(** ** Theorems *)

(** The lists of peers a room was given, the networks no list gives to two peers. *)
Definition lists {D} (o : Options) (ops : list (@op D)) : list (list config.Peer) :=
  config.Peers (Config o) :: flat_map (fun o => match o with OPeers ps => [ps] | _ => [] end) ops.
Definition never_shared {D} (o : Options) (ops : list (@op D)) (q : Prefix) : Prop := forall ps, ps ∈ lists o ops -> single ps q.

(** What the device learns is only where its peers are. *)
Fixpoint learns {D} `{Device D} (os : list (call * bool) -> call -> bool) (order : list bytes -> list bytes) (r : @Room D) (ops : list op) : Prop :=
  match ops with
  | [] => True
  | o :: ops => match o with OLearn d => same_config (wg (dev r)) (wg d) | _ => True end /\ learns os order (step os order r o) ops
  end.

Lemma run_ok_lists {D} `{Device D} os order once (ops : list op) : forall r : @Room D, learns os order r ops ->
  (forall ps, OPeers ps ∈ ops -> NoDup (keys_of ps) /\ forall q, once q -> single ps q) -> run_ok os order once r ops.
Proof.
  induction ops as [| o ops IH]; intros r Hl Hps; [done |]. destruct Hl as [Ho Hl]. split.
  - destruct o; try done. apply Hps. by left.
  - apply IH; [done |]. intros ps Hin. apply Hps. by right.
Qed.

Lemma lists_given {D} (o : Options) (ops : list (@op D)) ps : OPeers ps ∈ ops -> ps ∈ lists o ops.
Proof. intros Hin. right. apply list_elem_of_In, in_flat_map. exists (OPeers ps). split; [by apply list_elem_of_In | by left]. Qed.

Lemma run_ok_app {D} `{Device D} os order once a b : forall r : @Room D, run_ok os order once r (a ++ b) -> run_ok os order once r a.
Proof. induction a as [| o a IH]; intros r; simpl; [done |]. intros [Ho Hr]. split; [done | by apply IH]. Qed.

(** C20: while no call of the device fails and no list has a key twice, the device
    of a running room has exactly the peers it was last given, each with the
    room's preshared key and with its keepalive once the peer's timer has
    fired; it sends the packets for a network to nobody but a peer that has it
    in that list; and every network that no list so far gave to two peers goes
    to the peer that has it. Whatever else was done to the room and whatever
    addresses the device learned. (A network that a list gave to two peers may
    be lost: [network_lost].) *)
Theorem peers_in_sync {D} `{DeviceLaws D} `{Crypto} os order (Horder : forall l, order l ≡ₚ l) o (r0 : Room) ops ps :
  Up os order o = Ok r0 ->
  let all := ops ++ [OPeers ps] in
  (forall l, l ∈ lists o all -> NoDup (keys_of l)) -> learns os order r0 all ->
  let r := run os order r0 all in
  (CIpc, false) ∉ trace r ->
  let cfg := next_peers ps in
  let s := wg (dev r) in
  (forall k, peer_sync (psk (params o)) (timers r) k (cfg !! k) (w_peers s !! k))
  /\ (forall q k, w_allowed s !! q = Some k -> owns cfg q k)
  /\ (forall q k, never_shared o all q -> w_allowed s !! q = Some k <-> owns cfg q k).
Proof.
  intros Hup all Hnd Hl r Hok cfg s. set (once := never_shared o all).
  assert (forall l, OPeers l ∈ all -> NoDup (keys_of l) /\ forall q, once q -> single l q) as Hps.
  { intros l Hin%(lists_given o). split; [by apply Hnd | intros q Hq; by apply Hq]. }
  pose proof (run_ok_lists os order once all r0 Hl Hps) as Hrun. apply run_ok_app in Hrun as Hrun0.
  unfold r, all, run in Hok. rewrite fold_left_app in Hok. simpl in Hok. fold (run os order r0 ops) in Hok.
  assert (ipc_ok (trace (run os order r0 ops))) as Hok1.
  { destruct (trace_step os order (OPeers ps) (run os order r0 ops)) as [t Ht]. simpl in Ht. rewrite Ht in Hok. by apply ipc_ok_prefix in Hok. }
  assert (ipc_ok (trace r0)) as Hok0.
  { destruct (trace_run os order ops r0) as [t Ht]. rewrite Ht in Hok1. by apply ipc_ok_prefix in Hok1. }
  assert (good once r0) as Hg0.
  { apply (Up_good os order Horder once o r0 Hup); [apply Hnd; by left | intros q Hq; apply Hq; by left | done]. }
  destruct (room_run_good os order Horder once ops r0 Hg0 Hrun0 Hok1) as [[Hs _] Hp].
  destruct (Hps ps) as [Hnd1 Hips]; [apply elem_of_app; right; by left |].
  destruct (SetPeers_sync order Horder once ps _ Hs Hnd1 Hips Hok) as (_ & _ & _ & _ & Hin). rewrite Hp in Hin.
  destruct (Up_inv os order o r0 Hup) as [_ Hpar]. rewrite Hpar in Hin.
  unfold s, r, all, run. rewrite fold_left_app. simpl. fold (run os order r0 ops). split_and!; [apply Hin.. |].
  intros q k Hq. split; [apply Hin | by apply (sync_once _ _ _ _ _ Hin)].
Qed.








(** ** Who is resolved for *)

Lemma own_servers_in a l own : MkAddrPort a 53 ∈ map (fun a => MkAddrPort a 53) (List.filter (fun a => negb (bool_decide (a = own))) l) -> a ∈ l /\ a <> own.
Proof.
  intros (b & [= ->] & [Hin Hne]%List.filter_In)%list_elem_of_In%in_map_iff. apply negb_true_iff, bool_decide_eq_false in Hne.
  by rewrite list_elem_of_In.
Qed.

(** C22: a query that reaches the room's DNS server from this machine goes at
    most to the servers chosen for the room, never back to the room address; a
    member's query is relayed only while this node is an exit of the room, and
    only to the exit's resolvers; otherwise a member gets the room's names and
    refusals. *)
Theorem not_open_resolver {D} `{DeviceLaws D} `{Crypto} `{CO : dns.Codec} `{NE : dns.Net} os order o (r0 : @Room D) ops sys zone q n src :
  Up os order o = Ok r0 ->
  let r := run os order r0 ops in
  let own := pfx_ip (Address (par r)) in
  let '(asked, resp) := dns.exchange (upstreams sys r) zone q n src in
  (forall up, up ∈ asked ->
    ap_port up = 53 /\ (src = own \/ IsLoopback src = true) /\ ap_addr up ∈ dns_ r /\ ap_addr up <> own
    \/ src <> own /\ IsLoopback src = false /\ (tdev (par r) = true -> exitSrv r = true)
       /\ up ∈ (if bool_decide (ups (par r) = []) then sys else map (fun a => MkAddrPort a 53) (ups (par r))))
  /\ (src <> own -> IsLoopback src = false -> (tdev (par r) = true -> exitSrv r = false) ->
      asked = [] /\ resp = Some (default (dns.refused q) (dns.answerZone q zone))).
Proof.
  intros Hup. cbv zeta. assert (view_inv (view_of (run os order r0 ops))) as (Hdns & _ & Hv) by by apply run_view, (Up_inv os order o).
  set (r := run os order r0 ops) in *. simpl in Hdns, Hv.
  assert (forall up, up ∈ upstreams sys r src ->
    ap_port up = 53 /\ (src = pfx_ip (Address (par r)) \/ IsLoopback src = true) /\ ap_addr up ∈ dns_ r /\ ap_addr up <> pfx_ip (Address (par r))
    \/ src <> pfx_ip (Address (par r)) /\ IsLoopback src = false /\ (tdev (par r) = true -> exitSrv r = true)
       /\ up ∈ (if bool_decide (ups (par r) = []) then sys else map (fun a => MkAddrPort a 53) (ups (par r)))) as Hups.
  { unfold upstreams. cbv zeta. rewrite Hdns. intros up.
    destruct (bool_decide (src = pfx_ip (Address (par r))) || IsLoopback src) eqn:Hown.
    - intros Hin. left. assert (up = MkAddrPort (ap_addr up) 53) as Heq.
      { apply list_elem_of_In, in_map_iff in Hin as (a & <- & _). done. }
      rewrite Heq in Hin. apply own_servers_in in Hin as [? ?]. rewrite Heq.
      split_and!; [done | | done | done]. apply orb_prop in Hown as [Hown%bool_decide_eq_true | Hown]; [by left | by right].
    - apply Bool.orb_false_iff in Hown as [Hown%bool_decide_eq_false Hloop]. destruct (exitSrvOn r) eqn:Hon; cbn [negb]; [| by intros ?%elem_of_nil].
      intros Hin. right. split_and!; [done | done | | by case_bool_decide]. intros Ht. rewrite Ht in Hv. destruct Hv as (_ & Ho & _). congruence. }
  pose proof (dns.exchange_spec (upstreams sys r) zone q n src) as Hx. destruct (dns.exchange (upstreams sys r) zone q n src) as [asked resp].
  destruct (dns.answerZone q zone) as [a |].
  - destruct Hx as [-> ->]. split; [by intros up ?%elem_of_nil | done].
  - split.
    + intros up Hin. apply Hups. destruct Hx as [(_ & -> & _) | [(pre & u & post & x & -> & -> & _) | (_ & -> & _)]];
        [by apply elem_of_nil in Hin | | done]. rewrite elem_of_app in Hin |- *. rewrite elem_of_cons. set_solver.
    + intros Hsrc Hloop Hexit. assert (upstreams sys r src = []) as Hnil.
      { unfold upstreams. cbv zeta. rewrite bool_decide_eq_false_2, Hloop by done. cbn [orb]. destruct (tdev (par r)) eqn:Ht; destruct Hv as (_ & Ho & _).
        - by rewrite Ho, Hexit.
        - by rewrite Ho. }
      destruct Hx as [(_ & -> & ->) | [(pre & u & post & x & Heq & _) | (Hne & _)]]; [done | | done].
      rewrite Hnil in Heq. by destruct pre.
Qed.

End roominv.
