(* ===== verification/RoomLinux.v ===== *)
(** What a room asks of Linux (internal/room/ifconfig_linux.go, routes_linux.go,
    killswitch_linux.go): the commands and the nftables scripts, what the scripts
    let through, and the policy routing of an exit's client, from whatever rules a
    crashed node left and with commands that may fail.

    A script is a list of rules with its text. What a rule means is nftables'
    documented behaviour: a rule applies when all its conditions hold, the first
    rule that applies and has a verdict decides, and a chain without a policy
    accepts. Rate limits are an argument. *)
From stdpp Require Import base gmap list strings.
From Stdlib Require Import ZArith Lia.
From S2P Require Import Prelude GoStrings Netip Config RoomPeers Room.

Open Scope Z_scope.

Module roomlinux.

(** netmark.Mark *)
Definition Mark : Z := 31344.

Definition quote (s : bytes) : bytes := 34 :: s ++ [34].
(** [strings.Join] *)
Fixpoint join (sep : bytes) (l : list bytes) : bytes :=
  match l with [] => [] | [s] => s | s :: l => s ++ sep ++ join sep l end.
Definition set_text (l : list bytes) : bytes := str "{ " ++ join (str ", ") l ++ str " }".
Definition nl (indent : nat) : bytes := 10 :: repeat 32 indent.

(** ** Rules *)

Inductive cond : Type :=
  | Iif (n : bytes) | NotIif (n : bytes) | Oif (n : bytes) | NotOif (n : bytes) | OifIn (l : list bytes)
  | Saddr (p : Prefix) | Daddr (p : Prefix) | DaddrIn (l : list Prefix) | Daddr6In (l : list Prefix)
  | Marked (m : Z) | UdpPorts | NeighbourDiscovery | Answers      (* of flows that are known *)
  | Over (bps : Z) | OverEach (set key : bytes) (bps : Z).        (* above the rate, of all or of one address *)
Inductive verdict : Type := Accept | Drop | Masquerade | Reject.
Definition rule : Type := list cond * verdict.

Definition rate (bps : Z) : bytes :=
  str "limit rate over " ++ Itoa (Z.max (bps / 1024) 1) ++ str " kbytes/second burst " ++ Itoa (Z.max (bps / 1024 / 10) 64) ++ str " kbytes".
Definition cond_text (c : cond) : bytes :=
  match c with
  | Iif n => str "iifname " ++ quote n
  | NotIif n => str "iifname != " ++ quote n
  | Oif n => str "oifname " ++ quote n
  | NotOif n => str "oifname != " ++ quote n
  | OifIn l => str "oifname " ++ set_text (map quote l)
  | Saddr p => str "ip saddr " ++ Prefix_String p
  | Daddr p => str "ip daddr " ++ Prefix_String p
  | DaddrIn l => str "ip daddr " ++ set_text (map Prefix_String l)
  | Daddr6In l => str "ip6 daddr " ++ set_text (map Prefix_String l)
  | Marked m => str "meta mark " ++ Itoa m
  | UdpPorts => str "udp dport { 67, 547 }"
  | NeighbourDiscovery => str "icmpv6 type { nd-router-solicit, nd-neighbor-solicit, nd-neighbor-advert }"
  | Answers => str "ct state established,related"
  | Over bps => rate bps
  | OverEach set key bps => str "update @" ++ set ++ str " { " ++ key ++ [32] ++ rate bps ++ str " }"
  end.
Definition verdict_text (v : verdict) : bytes :=
  match v with
  | Accept => str "accept" | Drop => str "drop" | Masquerade => str "masquerade"
  | Reject => str "reject with icmpx type admin-prohibited"
  end.
Definition rule_text (r : rule) : bytes := join [32] (map cond_text r.1 ++ [verdict_text r.2]).

(** ** The router *)

Definition nftTable (ifname : bytes) : bytes := str "zpt_" ++ map (fun c => if c =? 45 then 95 else c) ifname.

Section Router.
Context (ifname : bytes) (room : Prefix) (routes : list Prefix) (exit : bool) (limit total : Z).

Definition from_room : list cond := [Iif ifname; Saddr (Masked room)].
Definition outward : list cond := [NotOif ifname].
Definition inward : list cond := [Oif ifname; Daddr (Masked room); NotIif ifname].

Definition router_sets : list bytes :=
  if exit && (0 <? limit) then
    [str "set rl_up { type ipv4_addr; size 65535; flags dynamic,timeout; timeout 1m; }";
     str "set rl_down { type ipv4_addr; size 65535; flags dynamic,timeout; timeout 1m; }"]
  else [].
Definition router_nat : list rule :=
  (if bool_decide (routes = []) then [] else [(from_room ++ [DaddrIn routes], Masquerade)])
  ++ (if exit then [(from_room ++ outward, Masquerade)] else []).
Definition router_forward : list rule :=
  (if bool_decide (routes = []) then [] else [(from_room ++ [DaddrIn routes], Accept)])
  ++ (if exit then
        (if 0 <? limit then [(from_room ++ outward ++ [OverEach (str "rl_up") (str "ip saddr") limit], Drop);
                             (inward ++ [OverEach (str "rl_down") (str "ip daddr") limit], Drop)] else [])
        ++ (if 0 <? total then [(from_room ++ outward ++ [Over total], Drop); (inward ++ [Over total], Drop)] else [])
        ++ [(from_room ++ [DaddrIn room.privateNets], Drop); (from_room ++ outward, Accept)]
      else []).
(** The last rule of the forward chain is written in the script itself. *)
Definition router_last : rule := ([Oif ifname; Answers], Accept).

Definition router_script : bytes :=
  let t := nftTable ifname in
  str "table ip " ++ t ++ nl 0 ++ str "delete table ip " ++ t ++ nl 0 ++ str "table ip " ++ t ++ str " {" ++ nl 2
  ++ join (nl 2) router_sets ++ nl 2
  ++ str "chain postrouting {" ++ nl 4 ++ str "type nat hook postrouting priority 100;" ++ nl 4
  ++ join (nl 4) (map rule_text router_nat) ++ nl 2 ++ str "}" ++ nl 2
  ++ str "chain forward {" ++ nl 4 ++ str "type filter hook forward priority 0;" ++ nl 4
  ++ join (nl 4) (map rule_text router_forward) ++ nl 4 ++ rule_text router_last ++ nl 2 ++ str "}" ++ nl 0 ++ str "}" ++ nl 0.
End Router.

(** ** The kill switch *)

Definition killSwitchTable : bytes := str "zpt_killswitch".
(** The names of the rooms with an OS interface; the networks that stay reachable. *)
Definition kill_rules (ifaces : list bytes) (allowed : list Prefix) : list rule :=
  let v4 := map Masked (List.filter (fun p => Is4 (pfx_ip p)) allowed) in
  let v6 := map Masked (List.filter (fun p => negb (Is4 (pfx_ip p))) allowed) in
  [([Oif (str "lo")], Accept); ([Marked Mark], Accept); ([UdpPorts], Accept); ([NeighbourDiscovery], Accept)]
  ++ (if bool_decide (ifaces = []) then [] else [([OifIn ifaces], Accept)])
  ++ (if bool_decide (v4 = []) then [] else [([DaddrIn v4], Accept)])
  ++ (if bool_decide (v6 = []) then [] else [([Daddr6In v6], Accept)])
  ++ [([], Reject)].
Definition kill_script (ifaces : list bytes) (allowed : list Prefix) : bytes :=
  str "table inet " ++ killSwitchTable ++ nl 0 ++ str "delete table inet " ++ killSwitchTable ++ nl 0
  ++ str "table inet " ++ killSwitchTable ++ str " {" ++ nl 2 ++ str "chain output {" ++ nl 4
  ++ str "type filter hook output priority 0;" ++ nl 4 ++ join (nl 4) (map rule_text (kill_rules ifaces allowed)) ++ nl 2 ++ str "}"
  ++ nl 0 ++ str "}" ++ nl 0.

(** ** Commands *)

Inductive cmd : Type :=
  | Ip (args : list bytes) | NftScript (text : bytes) | NftDelete (family table : bytes)
  | WriteFile (path text : bytes) | Resolvectl (args : list bytes).

Definition setRoute (name : bytes) (p : Prefix) (add : bool) : list cmd :=
  [Ip [str "route"; if add then str "replace" else str "del"; Prefix_String p; str "dev"; name]].
Definition configureInterface (name : bytes) (addr : Prefix) (mtu : Z) : list cmd :=
  [Ip [str "address"; str "add"; Prefix_String addr; str "brd"; str "+"; str "dev"; name];
   Ip [str "link"; str "set"; str "dev"; name; str "mtu"; Itoa mtu; str "multicast"; str "on"; str "up"]].
Definition enableRouter (ifname : bytes) (room : Prefix) (routes : list Prefix) (exit : bool) (limit total : Z) : list cmd :=
  [WriteFile (str "/proc/sys/net/ipv4/ip_forward") (str "1"); NftScript (router_script ifname room routes exit limit total)].
Definition disableRouter (ifname : bytes) : list cmd := [NftDelete (str "ip") (nftTable ifname)].
Definition DisableKillSwitch : list cmd := [NftDelete (str "inet") killSwitchTable].
Definition SetKillSwitch (on : bool) (rooms : list (bytes * bool)) (allowed : list Prefix) : list cmd :=
  if on then [NftScript (kill_script (map fst (List.filter snd rooms)) allowed)] else DisableKillSwitch.

(** Commands that stop at the first failure; [ok]: does a command succeed? *)
Fixpoint run_all (ok : cmd -> bool) (l : list cmd) : bool * list cmd :=
  match l with
  | [] => (true, [])
  | c :: l => if ok c then let '(b, done) := run_all ok l in (b, c :: done) else (false, [c])
  end.

Definition setDNS (ok : cmd -> bool) (ifname : bytes) (own : Addr) (zone : bytes) (carrier : bool) : bool * list cmd :=
  if negb (IsValid own) || bool_decide (zone = []) && negb carrier then (true, [Resolvectl [str "revert"; ifname]])
  else
    let domains := [str "domain"; ifname] ++ (if bool_decide (zone = []) then [] else [126 :: zone]) ++ (if carrier then [str "~."] else []) in
    let route := if carrier then str "yes" else str "no" in
    let '(b, done) := run_all ok [Resolvectl [str "dns"; ifname; Addr_String own]; Resolvectl domains; Resolvectl [str "default-route"; ifname; route]] in
    if b : bool then (true, done) else (false, done ++ [Resolvectl [str "revert"; ifname]]).

(** ** The exit's client

    The default route of the exit is in a table of its own, which packets
    without the node's mark use when the main table has nothing more specific. *)
Definition exitTable : Z := Mark.
Definition exitMainPref : Z := exitTable - 1.
Definition exitNftTable : bytes := str "zpt_exit".

Inductive xcmd : Type :=
  | RouteReplace (dev : bytes) | RouteDel (dev : bytes)     (* the default route of the table *)
  | Unreachable6 | Flush6
  | RuleMain (v6 : bool) | RuleTable (v6 : bool)            (* added *)
  | RuleDel (v6 : bool) (pref : Z)
  | NftExit | NftExitDel (family : bytes) | SrcValidMark.

Definition exit_script : bytes :=
  str "table inet " ++ exitNftTable ++ str " {" ++ nl 2
  ++ str "chain premangle {" ++ nl 4 ++ str "type filter hook prerouting priority -150;" ++ nl 4 ++ str "meta mark set ct mark" ++ nl 2 ++ str "}" ++ nl 2
  ++ str "chain postmangle {" ++ nl 4 ++ str "type filter hook postrouting priority -150;" ++ nl 4
  ++ str "meta mark " ++ Itoa Mark ++ str " ct mark set meta mark" ++ nl 2 ++ str "}" ++ nl 0 ++ str "}" ++ nl 0.
Definition family_arg (v6 : bool) : bytes := if v6 then str "-6" else str "-4".
Definition xcmd_text (c : xcmd) : cmd :=
  let table := Itoa exitTable in
  match c with
  | RouteReplace dev => Ip [str "-4"; str "route"; str "replace"; str "default"; str "dev"; dev; str "table"; table]
  | RouteDel dev => Ip [str "-4"; str "route"; str "del"; str "default"; str "dev"; dev; str "table"; table]
  | Unreachable6 => Ip [str "-6"; str "route"; str "replace"; str "unreachable"; str "default"; str "table"; table]
  | Flush6 => Ip [str "-6"; str "route"; str "flush"; str "table"; table]
  | RuleMain v6 => Ip [family_arg v6; str "rule"; str "add"; str "pref"; Itoa exitMainPref; str "table"; str "main"; str "suppress_prefixlength"; str "0"]
  | RuleTable v6 => Ip [family_arg v6; str "rule"; str "add"; str "pref"; table; str "not"; str "fwmark"; Itoa Mark; str "table"; table]
  | RuleDel v6 pref => Ip [family_arg v6; str "rule"; str "del"; str "pref"; Itoa pref]
  | NftExit => NftScript exit_script
  | NftExitDel family => NftDelete family exitNftTable
  | SrcValidMark => WriteFile (str "/proc/sys/net/ipv4/conf/all/src_valid_mark") (str "1")
  end.

Section Exit.
(** The system, and what running the command of an [xcmd] does to it. *)
Context {K : Type} (xexec : xcmd -> K -> bool * K).

Definition xtell (c : xcmd) (k : K) : K := (xexec c k).2.

(** The loop that deletes the rules of a preference until there is none;
    [fuel] bounds how many there are. *)
Fixpoint del_rules (fuel : nat) (v6 : bool) (pref : Z) (k : K) : K :=
  let '(ok, k) := xexec (RuleDel v6 pref) k in
  match fuel with
  | S fuel => if ok : bool then del_rules fuel v6 pref k else k
  | O => k
  end.
Definition delExitRules (fuel : nat) (k : K) : K :=
  let k := xtell Flush6 (xtell (NftExitDel (str "ip")) (xtell (NftExitDel (str "inet")) k)) in
  del_rules fuel true exitTable (del_rules fuel true exitMainPref (del_rules fuel false exitTable (del_rules fuel false exitMainPref k))).

(** [enableExit]; [on] is the set [exitRooms]. *)
Definition enableExit (fuel : nat) (ifname : bytes) (on : gset bytes) (k : K) : bool * gset bytes * K :=
  let '(ok, k) := xexec (RouteReplace ifname) k in
  if negb ok then (false, on, k)
  else if negb (bool_decide (on = ∅)) then (true, {[ifname]} ∪ on, k)
  else
    let k := delExitRules fuel (xtell SrcValidMark k) in
    let '(ok, k) := xexec NftExit k in
    if negb ok then (false, on, xtell (RouteDel ifname) k)
    else
      let '(ok1, k) := xexec (RuleMain false) k in
      let '(ok2, k) := xexec (RuleTable false) k in
      if negb (ok1 && ok2) then (false, on, xtell (RouteDel ifname) (delExitRules fuel k))
      else (true, {[ifname]} ∪ on, xtell (RuleTable true) (xtell (RuleMain true) (xtell Unreachable6 k))).

Definition disableExit (fuel : nat) (ifname : bytes) (on : gset bytes) (k : K) : gset bytes * K :=
  let k := xtell (RouteDel ifname) k in
  let on := on ∖ {[ifname]} in
  (on, if bool_decide (on = ∅) then delExitRules fuel k else k).
End Exit.

(** ** What the scripts let through *)

Record packet := MkPacket {
  p_in : bytes; p_out : bytes; p_src : Addr; p_dst : Addr; p_mark : Z; p_answer : bool;
  p_dhcp : bool; p_nd : bool }.           (* UDP to a DHCP port; neighbour discovery *)

Section Meaning.
Context (over : cond -> packet -> bool).

Definition holds (p : packet) (c : cond) : bool :=
  match c with
  | Iif n => bool_decide (p_in p = n) | NotIif n => negb (bool_decide (p_in p = n))
  | Oif n => bool_decide (p_out p = n) | NotOif n => negb (bool_decide (p_out p = n))
  | OifIn l => bool_decide (p_out p ∈ l)
  | Saddr r => Contains r (p_src p) | Daddr r => Contains r (p_dst p)
  | DaddrIn l => Is4 (p_dst p) && existsb (fun r => Contains r (p_dst p)) l
  | Daddr6In l => negb (Is4 (p_dst p)) && existsb (fun r => Contains r (p_dst p)) l
  | Marked m => p_mark p =? m
  | UdpPorts => p_dhcp p | NeighbourDiscovery => p_nd p | Answers => p_answer p
  | Over _ | OverEach _ _ _ => over c p
  end.
Definition applies (p : packet) (r : rule) : bool := forallb (holds p) r.1.
(** The verdict of a chain. *)
Definition decide_chain (rules : list rule) (p : packet) : verdict :=
  match List.find (applies p) rules with Some r => r.2 | None => Accept end.
Definition masqueraded (rules : list rule) (p : packet) : bool := existsb (applies p) rules.
End Meaning.

(** ** Theorems *)

Lemma nftTable_inj a b : Forall (fun c => c <> 95) a -> Forall (fun c => c <> 95) b -> nftTable a = nftTable b -> a = b.
Proof.
  intros Ha Hb H. apply app_inv_head in H. revert b Hb H. induction Ha as [| x a Hx Ha IH]; intros [| y b] Hb H; [done .. |].
  inversion Hb as [| ? ? Hy Hb']; subst. injection H as Hxy H. f_equal; [| by apply IH].
  destruct (Z.eqb_spec x 45), (Z.eqb_spec y 45); congruence.
Qed.

Lemma find_app {A} (f : A -> bool) l l' : List.find f (l ++ l') = match List.find f l with Some x => Some x | None => List.find f l' end.
Proof. induction l as [| x l IH]; simpl; [done |]. by destruct (f x). Qed.

Lemma find_opt {A} (f : A -> bool) (b : bool) x : List.find f (if b then [] else [x]) = if negb b && f x then Some x else None.
Proof. destruct b; simpl; [done |]. by destruct (f x). Qed.

(** the kill switch lets a packet out exactly when it stays on the machine,
    is the node's own, is DHCP or neighbour discovery, goes into a room with an
    OS interface or to an allowed network; everything else is rejected. *)
Theorem kill_switch_spec over rooms allowed p : Is4 (p_dst p) = true ->
  decide_chain over (kill_rules (map fst (List.filter snd rooms)) allowed) p
  = if bool_decide (p_out p = str "lo") || (p_mark p =? Mark) || p_dhcp p || p_nd p
       || bool_decide ((p_out p, true) ∈ rooms) || existsb (fun r => Is4 (pfx_ip r) && Contains (Masked r) (p_dst p)) allowed
    then Accept else Reject.
Proof.
  intros H4. unfold decide_chain, kill_rules. rewrite !find_app.
  set (v4 := map Masked _). set (v6 := map Masked _).
  assert (bool_decide (p_out p ∈ map fst (List.filter snd rooms)) = bool_decide ((p_out p, true) ∈ rooms)) as Hif.
  { apply bool_decide_ext. rewrite list_elem_of_fmap. setoid_rewrite list_elem_of_In. setoid_rewrite filter_In.
    split; [intros ([n b] & -> & Hn & Hb); simpl in *; by destruct b | intros H; by exists (p_out p, true)]. }
  assert (existsb (fun r => Contains r (p_dst p)) v4 = existsb (fun r => Is4 (pfx_ip r) && Contains (Masked r) (p_dst p)) allowed) as Hv4.
  { unfold v4. clear. induction allowed as [| r l IH]; simpl; [done |]. destruct (Is4 (pfx_ip r)); simpl; by rewrite IH. }
  rewrite !find_opt. unfold applies. cbn [List.find forallb fst holds]. rewrite !andb_true_r, H4, Hif, Hv4. cbn [negb andb].
  destruct (bool_decide (p_out p = str "lo")); [done |]. destruct (p_mark p =? Mark); [done |].
  destruct (p_dhcp p); [done |]. destruct (p_nd p); [done |]. cbn [orb].
  assert (negb (bool_decide (map fst (List.filter snd rooms) = [])) && bool_decide ((p_out p, true) ∈ rooms) = bool_decide ((p_out p, true) ∈ rooms)) as ->.
  { rewrite <- Hif. destruct (map fst (List.filter snd rooms)); reflexivity. }
  assert (negb (bool_decide (v4 = [])) && existsb (fun r => Is4 (pfx_ip r) && Contains (Masked r) (p_dst p)) allowed
    = existsb (fun r => Is4 (pfx_ip r) && Contains (Masked r) (p_dst p)) allowed) as ->.
  { rewrite <- Hv4. destruct v4; reflexivity. }
  rewrite andb_false_r. destruct (bool_decide ((p_out p, true) ∈ rooms)); [done |]. by destruct (existsb _ allowed).
Qed.

(** what the kernel does with an IPv4 packet of a member that this node
    routes: packets to approved networks pass; an exit passes what goes out of
    the room within the limits, except to private, shared, loopback, link-local,
    multicast and reserved addresses, so the exit's own network stays closed;
    and exactly what goes to approved networks or out of an exit gets the
    address of this node. *)
Theorem router_spec over ifname room routes exit limit total p :
  p_in p = ifname -> Contains (Masked room) (p_src p) = true -> Is4 (p_dst p) = true ->
  let approved := existsb (fun r => Contains r (p_dst p)) routes in
  let out := negb (bool_decide (p_out p = ifname)) in
  let limited := (0 <? limit) && over (OverEach (str "rl_up") (str "ip saddr") limit) p || (0 <? total) && over (Over total) p in
  decide_chain over (router_forward ifname room routes exit limit total ++ [router_last ifname]) p
    = (if negb approved && exit && (out && limited || room.isPrivate (p_dst p)) then Drop else Accept)
  /\ masqueraded over (router_nat ifname room routes exit) p = approved || exit && out.
Proof.
  intros Hin Hsrc H4. cbv zeta.
  assert (forall l, forallb (holds over p) (from_room ifname room ++ l) = forallb (holds over p) l) as Hfrom.
  { intros l. unfold from_room. simpl. by rewrite Hin, Hsrc, bool_decide_eq_true_2. }
  assert (forall l, forallb (holds over p) (inward ifname room ++ l) = false) as Hinw.
  { intros l. unfold inward. simpl. rewrite Hin, (bool_decide_eq_true_2 (ifname = ifname)) by done. simpl. by rewrite !andb_false_r. }
  assert (existsb (fun r => Contains r (p_dst p)) room.privateNets = room.isPrivate (p_dst p)) as Hpriv by done.
  assert (forall l v, applies over p (from_room ifname room ++ l, v) = forallb (holds over p) l) as Hf by (intros; apply Hfrom).
  assert (forall l v, applies over p (inward ifname room ++ l, v) = false) as Hi by (intros; apply Hinw).
  set (approved := existsb _ routes) in *. set (out := negb (bool_decide (p_out p = ifname))).
  split.
  - unfold decide_chain, router_forward. rewrite !find_app, find_opt, Hf. cbn [forallb holds]. rewrite H4, andb_true_r. cbn [andb]. fold approved.
    assert (negb (bool_decide (routes = [])) && approved = approved) as -> by (unfold approved; destruct routes; reflexivity).
    destruct approved; [done |]. cbn [negb andb].
    destruct exit; cbn [andb]; [| cbn [app List.find]; by destruct (applies over p (router_last ifname))].
    rewrite !find_app. destruct (0 <? limit), (0 <? total); cbn [List.find andb orb app];
      rewrite ?Hf, ?Hi; unfold outward; cbn [app forallb holds List.find]; rewrite ?H4, ?Hpriv, ?andb_true_r; fold out; cbn [andb];
      destruct out; cbn [andb orb]; repeat match goal with |- context [over ?c p] => destruct (over c p) end;
      destruct (room.isPrivate (p_dst p)); try done; cbn [List.find snd]; by destruct (applies over p (router_last ifname)).
  - unfold masqueraded, router_nat. rewrite existsb_app.
    assert (forall (b : bool) (x : rule), existsb (applies over p) (if b then [] else [x]) = negb b && applies over p x) as Hone
      by (intros [] x; [done | apply orb_false_r]).
    rewrite Hone, Hf. cbn [forallb holds]. rewrite H4, !andb_true_r. cbn [andb]. fold approved.
    assert (negb (bool_decide (routes = [])) && approved = approved) as -> by (unfold approved; destruct routes; reflexivity).
    destruct exit; [| done]. cbn [existsb]. rewrite Hf. unfold outward. cbn [forallb holds]. fold out. by rewrite andb_true_r, orb_false_r.
Qed.

(** ** The exit's client, theorem *)

(** What iproute2 documents of the commands, for the default route of the table
    and the number of rules of a preference: a command does what it says, or
    fails and changes nothing. Any of them may fail, a deletion also of
    something that is there. *)
Record ip_laws {K} (xexec : xcmd -> K -> bool * K) (dflt : K -> option bytes) (rules : K -> bool -> Z -> nat) : Prop := {
  il_replace k dev : let '(ok, k') := xexec (RouteReplace dev) k in
    dflt k' = (if ok : bool then Some dev else dflt k) /\ forall v6 p, rules k' v6 p = rules k v6 p;
  il_del k dev : let '(ok, k') := xexec (RouteDel dev) k in
    (if ok : bool then dflt k = Some dev /\ dflt k' = None else dflt k' = dflt k) /\ forall v6 p, rules k' v6 p = rules k v6 p;
  il_add k v6 : let '(ok, k') := xexec (RuleMain v6) k in
    dflt k' = dflt k /\ forall v p, rules k' v p = if ok && bool_decide (v = v6 /\ p = exitMainPref) then S (rules k v p) else rules k v p;
  il_add_table k v6 : let '(ok, k') := xexec (RuleTable v6) k in
    dflt k' = dflt k /\ forall v p, rules k' v p = if ok && bool_decide (v = v6 /\ p = exitTable) then S (rules k v p) else rules k v p;
  il_rule_del k v6 pref : let '(ok, k') := xexec (RuleDel v6 pref) k in
    dflt k' = dflt k /\ (ok = true -> rules k v6 pref <> O)
    /\ forall v p, rules k' v p = if ok && bool_decide (v = v6 /\ p = pref) then pred (rules k v p) else rules k v p;
  il_other k c : match c with Unreachable6 | Flush6 | NftExit | NftExitDel _ | SrcValidMark => True | _ => False end ->
    dflt (xexec c k).2 = dflt k /\ forall v p, rules (xexec c k).2 v p = rules k v p }.

(** What is there can be deleted. *)
Definition deletions_work {K} (xexec : xcmd -> K -> bool * K) (dflt : K -> option bytes) (rules : K -> bool -> Z -> nat) : Prop :=
  (forall k dev, dflt k = Some dev -> (xexec (RouteDel dev) k).1 = true)
  /\ (forall k v6 p, rules k v6 p <> O -> (xexec (RuleDel v6 p) k).1 = true).

Definition ours (p : Z) : Prop := p = exitMainPref \/ p = exitTable.

Section Client.
Context {K : Type} (xexec : xcmd -> K -> bool * K) (dflt : K -> option bytes) (rules : K -> bool -> Z -> nat).
Context (L : ip_laws xexec dflt rules) (fuel : nat).

Inductive xop := XOn (n : bytes) | XOff (n : bytes).
Definition xstep (s : gset bytes * K) (o : xop) : gset bytes * K :=
  match o with
  | XOn n => let '(_, on, k) := enableExit xexec fuel n s.1 s.2 in (on, k)
  | XOff n => disableExit xexec fuel n s.1 s.2
  end.
(** A room is switched on only while no other one is. *)
Definition alone (on : gset bytes) (o : xop) : Prop := match o with XOn n => on ⊆ {[n]} | XOff _ => True end.
Fixpoint disciplined (s : gset bytes * K) (ops : list xop) : Prop :=
  match ops with [] => True | o :: ops => alone s.1 o /\ disciplined (xstep s o) ops end.

Lemma disciplined_snoc ops o : forall s, disciplined s (ops ++ [o]) -> disciplined s ops /\ alone (fold_left xstep ops s).1 o.
Proof. induction ops as [| x ops IH]; intros s; simpl; [by intros [? _] | intros [Hx Ho]]. destruct (IH _ Ho). done. Qed.

(** ** Whatever fails *)

(** A room that is on has the default route, and the rules send packets there. *)
Definition led (on : gset bytes) (k : K) : Prop :=
  on = ∅ \/ exists n, on = {[n]} /\ dflt k = Some n /\ (1 <= rules k false exitMainPref)%nat /\ (1 <= rules k false exitTable)%nat.

Lemma del_rules_dflt v6 pref : forall f k, dflt (del_rules xexec f v6 pref k) = dflt k.
Proof.
  induction f as [| f IH]; intros k; cbn [del_rules]; pose proof (il_rule_del _ _ _ L k v6 pref) as H;
    destruct (xexec (RuleDel v6 pref) k) as [ok k']; destruct H as (Hd & _ & _); [done |]. destruct ok; [| done]. by rewrite IH.
Qed.

Lemma delExitRules_dflt k : dflt (delExitRules xexec fuel k) = dflt k.
Proof.
  unfold delExitRules, xtell. rewrite !del_rules_dflt.
  destruct (il_other _ _ _ L k (NftExitDel (str "inet")) I) as [D1 _]. set (k1 := (xexec _ k).2) in *.
  destruct (il_other _ _ _ L k1 (NftExitDel (str "ip")) I) as [D2 _]. set (k2 := (xexec _ k1).2) in *.
  destruct (il_other _ _ _ L k2 Flush6 I) as [D3 _]. congruence.
Qed.

Lemma xstep_led on k o : led on k -> alone on o -> led (xstep (on, k) o).1 (xstep (on, k) o).2.
Proof.
  intros Hl Ha. destruct o as [n | n]; cbn [xstep fst snd].
  - unfold enableExit. pose proof (il_replace _ _ _ L k n) as H1. destruct (xexec (RouteReplace n) k) as [ok k1]. destruct H1 as [D1 R1].
    destruct ok; cbn [negb fst snd].
    2: { destruct Hl as [-> | (m & -> & ? & ? & ?)]; [by left | right; exists m]. by rewrite D1, !R1. }
    case_bool_decide as He; cbn [negb fst snd].
    + subst on. change (xtell xexec SrcValidMark k1) with (xexec SrcValidMark k1).2. destruct (il_other _ _ _ L k1 SrcValidMark I) as [D2 _]. set (k2 := (xexec _ k1).2) in *.
      pose proof (delExitRules_dflt k2) as D3. set (k3 := delExitRules _ _ k2) in *.
      pose proof (il_other _ _ _ L k3 NftExit I) as [D4 _]. destruct (xexec NftExit k3) as [ok4 k4]. cbn [snd] in *.
      destruct ok4; cbn [negb fst snd]; [| by left].
      pose proof (il_add _ _ _ L k4 false) as H5. destruct (xexec (RuleMain false) k4) as [ok5 k5]. destruct H5 as [D5 R5].
      pose proof (il_add_table _ _ _ L k5 false) as H6. destruct (xexec (RuleTable false) k5) as [ok6 k6]. destruct H6 as [D6 R6].
      destruct ok5, ok6; cbn [negb andb fst snd]; try by left. right. exists n. split; [set_solver |]. unfold xtell.
      destruct (il_other _ _ _ L k6 Unreachable6 I) as [D7 R7]. set (k7 := (xexec _ k6).2) in *.
      pose proof (il_add _ _ _ L k7 true) as H8. destruct (xexec (RuleMain true) k7) as [ok8 k8]. destruct H8 as [D8 R8]. cbn [snd].
      pose proof (il_add_table _ _ _ L k8 true) as H9. destruct (xexec (RuleTable true) k8) as [ok9 k9]. destruct H9 as [D9 R9]. cbn [snd].
      assert (forall p, rules k9 false p = rules k6 false p) as Rf.
      { intros p. rewrite R9, R8, R7. rewrite !(bool_decide_eq_false_2 (false = true /\ _)) by (by intros []). by rewrite !andb_false_r. }
      split; [congruence |]. rewrite !Rf, !R6, !R5. cbn [andb]. rewrite (bool_decide_eq_true_2 (false = false /\ exitTable = exitTable)) by done.
      rewrite (bool_decide_eq_true_2 (false = false /\ exitMainPref = exitMainPref)) by done. split; [case_bool_decide; lia | lia].
    + destruct Hl as [-> | (m & -> & Hd & Hr1 & Hr2)]; [done |]. right. exists n. assert (m = n) as -> by (simpl in Ha; set_solver).
      split_and!; [set_solver | done | by rewrite R1 | by rewrite R1].
  - unfold disableExit, xtell. pose proof (il_del _ _ _ L k n) as H1. destruct (xexec (RouteDel n) k) as [ok k1]. destruct H1 as [D1 R1]. cbn [fst snd].
    destruct Hl as [-> | (m & -> & Hd & Hr1 & Hr2)]; [left; set_solver |]. destruct (decide (m = n)) as [-> | Hne]; [left; set_solver |].
    assert ({[m]} ∖ {[n]} = ({[m]} : gset bytes)) as -> by set_solver. rewrite bool_decide_eq_false_2 by apply non_empty_singleton_L.
    right. exists m. rewrite !R1. split_and!; try done. destruct ok; [destruct D1; congruence | congruence].
Qed.

Lemma run_led k0 ops : disciplined (∅, k0) ops -> led (fold_left xstep ops (∅, k0)).1 (fold_left xstep ops (∅, k0)).2.
Proof.
  induction ops as [| o ops IH] using rev_ind; intros Hd; [by left |]. apply disciplined_snoc in Hd as [Hd Ha].
  rewrite fold_left_app. simpl. specialize (IH Hd). destruct (fold_left xstep ops (∅, k0)) as [on k]. by apply xstep_led.
Qed.

(** ** When what is there can be deleted *)

Section Works.
Context (DW : deletions_work xexec dflt rules).

Lemma route_del_works k dev : let k' := (xexec (RouteDel dev) k).2 in
  dflt k' = (if bool_decide (dflt k = Some dev) then None else dflt k) /\ forall v6 p, rules k' v6 p = rules k v6 p.
Proof.
  pose proof (il_del _ _ _ L k dev) as H. pose proof (proj1 DW k dev) as Hw. destruct (xexec (RouteDel dev) k) as [ok k']. destruct H as [Hd Hr].
  split; [| done]. simpl in *. case_bool_decide as E.
  - rewrite (Hw E) in Hd. apply Hd.
  - destruct ok; [by destruct Hd | done].
Qed.

Lemma rule_del_works k v6 pref : let '(ok, k') := xexec (RuleDel v6 pref) k in
  dflt k' = dflt k /\ (ok = true <-> rules k v6 pref <> O)
  /\ forall v p, rules k' v p = if bool_decide (v = v6 /\ p = pref) then pred (rules k v p) else rules k v p.
Proof.
  pose proof (il_rule_del _ _ _ L k v6 pref) as H. pose proof (proj2 DW k v6 pref) as Hw. destruct (xexec (RuleDel v6 pref) k) as [ok k'].
  destruct H as (Hd & Hok & Hr). split; [done |]. split; [done |]. intros v p. rewrite Hr. simpl in Hw. destruct ok; [done |]. cbn [andb].
  case_bool_decide as E; [| done]. destruct E as [-> ->]. destruct (rules k v6 pref); [done |]. by discriminate Hw.
Qed.

Definition bounded (k : K) : Prop := forall v p, (rules k v p <= fuel)%nat.

Lemma del_rules_spec v6 pref : forall f k, (rules k v6 pref <= f)%nat -> let k' := del_rules xexec f v6 pref k in
  dflt k' = dflt k /\ forall v p, rules k' v p = if bool_decide (v = v6 /\ p = pref) then O else rules k v p.
Proof.
  induction f as [| f IH]; intros k Hf; cbn [del_rules]; pose proof (rule_del_works k v6 pref) as H;
    destruct (xexec (RuleDel v6 pref) k) as [ok k']; destruct H as (Hd & Hok & Hr).
  - split; [done |]. intros v p. rewrite Hr. case_bool_decide as E; [destruct E as [-> ->]; lia | done].
  - destruct ok.
    + destruct (IH k') as [Hd' Hr']; [rewrite Hr, bool_decide_eq_true_2 by done; lia |]. split; [by rewrite Hd' |].
      intros v p. rewrite Hr', Hr. by case_bool_decide.
    + assert (rules k v6 pref = O) as H0 by (destruct (rules k v6 pref); [done | discriminate (proj2 Hok ltac:(done))]).
      split; [done |]. intros v p. rewrite Hr. case_bool_decide as E; [destruct E as [-> ->]; by rewrite H0 | done].
Qed.

Lemma delExitRules_spec k : bounded k -> let k' := delExitRules xexec fuel k in
  dflt k' = dflt k /\ bounded k' /\ forall v p, ours p -> rules k' v p = O.
Proof.
  intros Hb. unfold delExitRules, xtell.
  pose proof (il_other _ _ _ L k (NftExitDel (str "inet")) I) as [D1 R1]. set (k1 := (xexec _ k).2) in *.
  pose proof (il_other _ _ _ L k1 (NftExitDel (str "ip")) I) as [D2 R2]. set (k2 := (xexec _ k1).2) in *.
  pose proof (il_other _ _ _ L k2 Flush6 I) as [D3 R3]. set (k3 := (xexec _ k2).2) in *.
  assert (forall v p, rules k3 v p = rules k v p) as Rk by (intros; by rewrite R3, R2, R1).
  destruct (del_rules_spec false exitMainPref fuel k3) as [D4 R4]; [by rewrite Rk |]. set (k4 := del_rules _ _ false exitMainPref k3) in *.
  destruct (del_rules_spec false exitTable fuel k4) as [D5 R5]; [rewrite R4, Rk; case_bool_decide; [lia | apply Hb] |]. set (k5 := del_rules _ _ false exitTable k4) in *.
  destruct (del_rules_spec true exitMainPref fuel k5) as [D6 R6]; [rewrite R5, R4, Rk; repeat case_bool_decide; try lia; apply Hb |]. set (k6 := del_rules _ _ true exitMainPref k5) in *.
  destruct (del_rules_spec true exitTable fuel k6) as [D7 R7]; [rewrite R6, R5, R4, Rk; repeat case_bool_decide; try lia; apply Hb |]. set (k7 := del_rules _ _ true exitTable k6) in *.
  split_and!; [congruence | |].
  - intros v p. rewrite R7, R6, R5, R4, Rk. repeat case_bool_decide; try lia; apply Hb.
  - intros v p Hp. rewrite R7, R6, R5, R4. destruct v, Hp as [-> | ->]; repeat case_bool_decide; tauto.
Qed.

Definition clean (k : K) : Prop := forall v p, ours p -> rules k v p = O.

(** One room is on, and there is one rule of each kind. *)
Definition one_on (on : gset bytes) (k : K) : Prop :=
  exists n, on = {[n]} /\ dflt k = Some n /\ rules k false exitMainPref = 1%nat /\ rules k false exitTable = 1%nat.
(** None is, and no rule is left; or nothing was done but rooms switched on that failed at once. *)
Definition off (k0 : K) (untouched : Prop) (k : K) : Prop :=
  clean k /\ (dflt k = None \/ dflt k = dflt k0) \/ untouched /\ dflt k = dflt k0 /\ forall v p, rules k v p = rules k0 v p.
Definition wired (k0 : K) (untouched : Prop) (on : gset bytes) (k : K) : Prop :=
  bounded k /\ (on = ∅ /\ off k0 untouched k \/ one_on on k).

Lemma wired_del k0 u n k : bounded k -> dflt k = Some n -> clean k -> wired k0 u ∅ (xtell xexec (RouteDel n) k).
Proof.
  intros Hb Hd H0. unfold xtell. destruct (route_del_works k n) as [D R]. set (k' := (xexec _ k).2) in *. split.
  - intros v p. rewrite R. apply Hb.
  - left. split; [done |]. left. split; [intros v p Hp; rewrite R; by apply H0 |]. left. by rewrite D, bool_decide_eq_true_2.
Qed.

(** At most one rule is added for a preference of ours. *)
Lemma added_le r (v v1 v2 : bool) p ok1 ok2 : (1 <= fuel)%nat -> (r <= fuel)%nat -> (ours p -> r = O) ->
  ((if ok2 && bool_decide (v = v2 /\ p = exitTable) then S (if ok1 && bool_decide (v = v1 /\ p = exitMainPref) then S r else r)
    else if ok1 && bool_decide (v = v1 /\ p = exitMainPref) then S r else r) <= fuel)%nat.
Proof.
  intros Hf Hr H0. assert (exitMainPref <> exitTable) as Hne by (unfold exitMainPref; lia).
  destruct (bool_decide_reflect (v = v2 /\ p = exitTable)) as [[_ E1] |], (bool_decide_reflect (v = v1 /\ p = exitMainPref)) as [[_ E] |].
  - congruence.
  - rewrite (H0 (or_intror E1)). destruct ok1, ok2; simpl; lia.
  - rewrite (H0 (or_introl E)). destruct ok1, ok2; simpl; lia.
  - rewrite !andb_false_r. done.
Qed.

(** The two rules are added, after the old ones were deleted. *)
Lemma wired_on n k : (1 <= fuel)%nat -> bounded k -> dflt k = Some n -> clean k ->
  let '(ok1, k1) := xexec (RuleMain false) k in
  let '(ok2, k2) := xexec (RuleTable false) k1 in
  bounded k2 /\ dflt k2 = Some n /\ (ok1 && ok2 = true -> bounded (xtell xexec (RuleTable true) (xtell xexec (RuleMain true) (xtell xexec Unreachable6 k2)))
    /\ one_on {[n]} (xtell xexec (RuleTable true) (xtell xexec (RuleMain true) (xtell xexec Unreachable6 k2)))).
Proof.
  intros Hf Hb Hd H0. pose proof (il_add _ _ _ L k false) as H1. destruct (xexec (RuleMain false) k) as [ok1 k1]. destruct H1 as [D1 R1].
  pose proof (il_add_table _ _ _ L k1 false) as H2. destruct (xexec (RuleTable false) k1) as [ok2 k2]. destruct H2 as [D2 R2].
  assert (bounded k2) as Hb2.
  { intros v p. rewrite R2, R1. apply added_le; [done | apply Hb | apply H0]. }
  split_and!; [done | congruence |]. intros [-> ->]%andb_prop. unfold xtell.
  destruct (il_other _ _ _ L k2 Unreachable6 I) as [D3 R3]. set (k3 := (xexec _ k2).2) in *.
  pose proof (il_add _ _ _ L k3 true) as H4. destruct (xexec (RuleMain true) k3) as [ok4 k4]. destruct H4 as [D4 R4]. cbn [snd].
  pose proof (il_add_table _ _ _ L k4 true) as H5. destruct (xexec (RuleTable true) k4) as [ok5 k5]. destruct H5 as [D5 R5]. cbn [snd].
  assert (forall p, rules k5 false p = rules k2 false p) as R5f.
  { intros p. rewrite R5, R4, R3. rewrite !(bool_decide_eq_false_2 (false = true /\ _)) by (by intros []). by rewrite !andb_false_r. }
  split.
  - intros [] p; [| rewrite R5f; apply Hb2]. rewrite R5, R4, R3. apply added_le; [done | apply Hb2 |]. intros Hp. rewrite R2, R1, H0 by done.
    rewrite !(bool_decide_eq_false_2 (true = false /\ _)) by (by intros []). done.
  - exists n. assert (exitMainPref <> exitTable) by (unfold exitMainPref; lia).
    split_and!; [done | congruence | |].
    + rewrite R5f, R2, R1, H0 by (by left). rewrite bool_decide_eq_false_2 by (by intros [_ ?]). by rewrite bool_decide_eq_true_2.
    + rewrite R5f, R2, R1, H0 by (by right). rewrite bool_decide_eq_true_2 by done. by rewrite bool_decide_eq_false_2 by (intros [_ ?]; congruence).
Qed.

Lemma xstep_wired k0 u on k o : (1 <= fuel)%nat -> wired k0 u on k -> alone on o ->
  wired k0 (u /\ exists n, o = XOn n) (xstep (on, k) o).1 (xstep (on, k) o).2.
Proof.
  intros Hf [Hb Hw] Ha. destruct o as [n | n]; cbn [xstep fst snd].
  - unfold enableExit. pose proof (il_replace _ _ _ L k n) as H1. destruct (xexec (RouteReplace n) k) as [ok k1]. destruct H1 as [D1 R1].
    assert (bounded k1) as Hb1 by (intros v p; rewrite R1; apply Hb).
    destruct ok; cbn [negb fst snd].
    2: { split; [done |]. destruct Hw as [[-> [[Hc Hd] | (Hu & Hd & Hr)]] | (m & -> & ? & ? & ?)].
         - left. split; [done |]. left. split; [intros v p Hp; rewrite R1; by apply Hc | by rewrite D1].
         - left. split; [done |]. right. split; [by split; [| exists n] |]. split; [congruence |]. intros v p. by rewrite R1.
         - right. exists m. by rewrite D1, !R1. }
    case_bool_decide as He; cbn [negb fst snd].
    + subst on. change (xtell xexec SrcValidMark k1) with (xexec SrcValidMark k1).2. destruct (il_other _ _ _ L k1 SrcValidMark I) as [D2 R2]. set (k2 := (xexec _ k1).2) in *.
      destruct (delExitRules_spec k2) as (D3 & Hb3 & H3); [intros v p; rewrite R2; apply Hb1 |]. set (k3 := delExitRules _ _ k2) in *.
      pose proof (il_other _ _ _ L k3 NftExit I) as [D4 R4]. destruct (xexec NftExit k3) as [ok4 k4]. cbn [snd] in *.
      assert (bounded k4) as Hb4 by (intros v p; rewrite R4; apply Hb3).
      assert (clean k4) as H4 by (intros v p Hp; rewrite R4; by apply H3).
      assert (dflt k4 = Some n) as Hd4 by congruence.
      destruct ok4; cbn [negb fst snd]; [| apply wired_del; auto].
      pose proof (wired_on n k4 Hf Hb4 Hd4 H4) as H5. destruct (xexec (RuleMain false) k4) as [ok5 k5].
      destruct (xexec (RuleTable false) k5) as [ok6 k6]. destruct H5 as (Hb6 & Hd6 & H6).
      destruct (ok5 && ok6); cbn [negb fst snd]; [rewrite union_empty_r_L; destruct (H6 eq_refl); split; [done | by right] |].
      destruct (delExitRules_spec k6 Hb6) as (D7 & Hb7 & H7). apply wired_del; [done | congruence | done].
    + destruct Hw as [[-> _] | (m & -> & Hd & Hr1 & Hr2)]; [done |]. split; [done |]. right. exists n.
      assert (m = n) as -> by (simpl in Ha; set_solver).
      split_and!; [set_solver | done | by rewrite R1 | by rewrite R1].
  - unfold disableExit, xtell. destruct (route_del_works k n) as [D1 R1]. set (k1 := (xexec _ k).2) in *. cbn [fst snd].
    assert (bounded k1) as Hb1 by (intros v p; rewrite R1; apply Hb).
    destruct (delExitRules_spec k1 Hb1) as (D2 & Hb2 & H2).
    destruct Hw as [[-> Ho] | (m & -> & Hd & Hr1 & Hr2)].
    + rewrite bool_decide_eq_true_2 by set_solver. split; [done |]. left. split; [set_solver |]. left. split; [done |].
      rewrite D2, D1. case_bool_decide; [by left |]. destruct Ho as [[_ ?] | (_ & ? & _)]; [done | by right].
    + rewrite Hd in D1. destruct (decide (m = n)) as [-> | Hne].
      * rewrite bool_decide_eq_true_2 in D1 by done. rewrite bool_decide_eq_true_2 by set_solver. split; [done |]. left.
        split; [set_solver |]. left. split; [done |]. left. congruence.
      * rewrite bool_decide_eq_false_2 in D1 by congruence.
        assert ({[m]} ∖ {[n]} = ({[m]} : gset bytes)) as -> by set_solver.
        rewrite bool_decide_eq_false_2 by apply non_empty_singleton_L. split; [done |]. right. exists m. by rewrite !R1.
Qed.

(** Only switching on was tried. *)
Definition only_on (ops : list xop) : Prop := Forall (fun o => exists n, o = XOn n) ops.

Lemma run_wired k0 ops : (1 <= fuel)%nat -> bounded k0 -> disciplined (∅, k0) ops ->
  wired k0 (only_on ops) (fold_left xstep ops (∅, k0)).1 (fold_left xstep ops (∅, k0)).2.
Proof.
  intros Hf Hb. induction ops as [| o ops IH] using rev_ind; intros Hd.
  { split; [done |]. left. split; [done |]. right. split; [constructor | done]. }
  apply disciplined_snoc in Hd as [Hd Ha]. rewrite fold_left_app. simpl. specialize (IH Hd).
  destruct (fold_left xstep ops (∅, k0)) as [on k]. simpl in IH, Ha. destruct (xstep_wired k0 (only_on ops) on k o Hf IH Ha) as [H1 H2].
  split; [done |]. destruct H2 as [[H2 [H3 | ([H3 H4] & H5)]] | H2]; [| | by right]; left; (split; [done |]); [by left | right].
  split; [| done]. apply Forall_app. split; [done |]. by constructor.
Qed.
End Works.

(** C40: as long as no room's exit is switched on while another one's is, and
    whatever a crashed node left behind. Whichever commands fail: a room whose
    exit is on has the default route of the exit's table, and the rules that
    lead there exist. When what is there can be deleted, whatever else fails:
    there is exactly one rule of each kind while an exit is on, and none is left
    when none is on, so that nothing goes out through a room; unless nothing
    was done yet but exits switched on that failed at the first command. *)
Theorem exit_one_room k0 ops : disciplined (∅, k0) ops ->
  let '(on, k) := fold_left xstep ops (∅, k0) in
  (on = ∅ \/ exists n, on = {[n]} /\ dflt k = Some n /\ (1 <= rules k false exitMainPref)%nat /\ (1 <= rules k false exitTable)%nat)
  /\ (deletions_work xexec dflt rules -> (1 <= fuel)%nat -> bounded k0 ->
      (forall n, on = {[n]} -> rules k false exitMainPref = 1%nat /\ rules k false exitTable = 1%nat)
      /\ (on = ∅ -> (forall v p, ours p -> rules k v p = O) /\ (dflt k = None \/ dflt k = dflt k0)
                   \/ only_on ops /\ dflt k = dflt k0 /\ forall v p, rules k v p = rules k0 v p)).
Proof.
  intros Hdis. pose proof (run_led k0 ops Hdis) as Hl. pose proof (fun DW => run_wired DW k0 ops) as Hw.
  destruct (fold_left _ _ _) as [on k]. split; [exact Hl |]. intros DW Hf Hb. cbn [fst snd] in Hw.
  destruct (Hw DW Hf Hb Hdis) as [_ [[-> Ho] | (n & -> & _ & H1 & H2)]].
  - split; [intros n Hn; symmetry in Hn; by apply non_empty_singleton_L in Hn | by intros _].
  - split; [done |]. intros Hn. by apply non_empty_singleton_L in Hn.
Qed.
End Client.

(** ** A kernel *)

Module kernel.
Record kern := MkKern { k_default : option bytes; k_rules : list (bool * Z) }.
Fixpoint remove_one (v6 : bool) (p : Z) (l : list (bool * Z)) : option (list (bool * Z)) :=
  match l with
  | [] => None
  | (v, q) :: l => if Bool.eqb v v6 && (q =? p) then Some l else cons (v, q) <$> remove_one v6 p l
  end.
(** Every command works; a rule that is not there cannot be deleted. *)
Definition exec (c : xcmd) (k : kern) : bool * kern :=
  match c with
  | RouteReplace dev => (true, MkKern (Some dev) (k_rules k))
  | RouteDel dev => if bool_decide (k_default k = Some dev) then (true, MkKern None (k_rules k)) else (false, k)
  | RuleMain v6 => (true, MkKern (k_default k) ((v6, exitMainPref) :: k_rules k))
  | RuleTable v6 => (true, MkKern (k_default k) ((v6, exitTable) :: k_rules k))
  | RuleDel v6 p => match remove_one v6 p (k_rules k) with Some l => (true, MkKern (k_default k) l) | None => (false, k) end
  | _ => (true, k)
  end.
Definition count_ (k : kern) (v6 : bool) (p : Z) : nat := length (List.filter (fun e => Bool.eqb e.1 v6 && (e.2 =? p)) (k_rules k)).

Lemma remove_one_count v6 p l v q :
  let n := length (List.filter (fun e : bool * Z => Bool.eqb e.1 v && (e.2 =? q)) l) in
  match remove_one v6 p l with
  | Some l' => length (List.filter (fun e : bool * Z => Bool.eqb e.1 v && (e.2 =? q)) l') = (if bool_decide (v = v6 /\ q = p) then pred n else n)
               /\ (v = v6 /\ q = p -> n <> O)
  | None => v = v6 /\ q = p -> n = O
  end.
Proof.
  cbv zeta. induction l as [| [a b] l IH]; simpl; [done |].
  destruct (Bool.eqb a v6 && (b =? p)) eqn:E.
  - apply andb_prop in E as [E1%eqb_prop E2%Z.eqb_eq]. subst a b. destruct (decide (v = v6 /\ q = p)) as [Hc | Hne].
    + rewrite bool_decide_eq_true_2 by done. destruct Hc as [-> ->]. rewrite eqb_reflx, Z.eqb_refl. simpl. split; [done | lia].
    + destruct (Bool.eqb v6 v && (p =? q)) eqn:E2.
      * apply andb_prop in E2 as [E1%eqb_prop E2%Z.eqb_eq]. destruct Hne. by subst.
      * rewrite bool_decide_eq_false_2 by done. split; [done | intros Hc; by destruct Hne].
  - destruct (Bool.eqb a v && (b =? q)) eqn:E2.
    + assert (~ (v = v6 /\ q = p)) as Hc by (intros [-> ->]; congruence). rewrite bool_decide_eq_false_2 in IH by done.
      destruct (remove_one v6 p l) as [l' |]; simpl; [| by intros ?].
      rewrite E2, bool_decide_eq_false_2 by done. simpl. destruct IH as [-> _]. split; [done | by intros ?].
    + destruct (remove_one v6 p l) as [l' |]; simpl; [by rewrite E2 | done].
Qed.

Lemma count_cons r v6 q l v p :
  count_ (MkKern r ((v6, q) :: l)) v p = (if bool_decide (v = v6 /\ p = q) then S (count_ (MkKern r l) v p) else count_ (MkKern r l) v p).
Proof.
  unfold count_. cbn [k_rules List.filter fst snd]. destruct (Bool.eqb v6 v && (q =? p)) eqn:E.
  - apply andb_prop in E as [E1%eqb_prop E2%Z.eqb_eq]. subst. by rewrite bool_decide_eq_true_2.
  - rewrite bool_decide_eq_false_2; [done |]. intros [-> ->]. by rewrite eqb_reflx, Z.eqb_refl in E.
Qed.

Lemma laws : ip_laws exec k_default count_.
Proof.
  split.
  - intros k dev. by split.
  - intros k dev. simpl. case_bool_decide; by split.
  - intros k v6. split; [done |]. intros v p. apply count_cons.
  - intros k v6. split; [done |]. intros v p. apply count_cons.
  - intros k v6 pref. simpl. unfold count_. pose proof (fun v q => remove_one_count v6 pref (k_rules k) v q) as H.
    destruct (remove_one v6 pref (k_rules k)) as [l |] eqn:E; split; try done.
    split; [intros _; by apply (H v6 pref) | intros v q; apply (H v q)].
  - intros k c Hc. by destruct c.
Qed.

Lemma deletes : deletions_work exec k_default count_.
Proof.
  split.
  - intros k dev Hd. simpl. by rewrite bool_decide_eq_true_2.
  - intros k v6 p Hn. simpl. pose proof (remove_one_count v6 p (k_rules k) v6 p) as H. cbv zeta in H.
    destruct (remove_one v6 p (k_rules k)) as [l |]; [done |]. destruct Hn. by apply H.
Qed.

Definition a : bytes := str "a".
Definition b : bytes := str "b".
(** A crashed node left rules, one of them twice, and a default route. *)
Definition crashed : kern := MkKern (Some (str "x")) [(false, exitTable); (false, exitMainPref); (false, exitTable); (true, exitTable)].
Definition exits : list xop := [XOn a; XOff a; XOn b].

Lemma exit_one_room_witness : let '(on, k) := fold_left (xstep exec 2) exits (∅, crashed) in
  on = {[b]} /\ k_default k = Some b /\ count_ crashed false exitTable = 2%nat /\ count_ k false exitTable = 1%nat.
Proof.
  assert (bounded count_ 2 crashed) as Hb.
  { intros v p. unfold count_, crashed. cbn [k_rules List.filter fst snd]. destruct v; cbn [Bool.eqb andb];
      repeat match goal with |- context [?x =? p] => destruct (Z.eqb_spec x p) end; simpl; try lia; subst; discriminate. }
  assert (disciplined exec 2 (∅, crashed) exits) as Hd.
  { split; [set_solver |]. split; [done |]. split; [| done]. change ((xstep exec 2 (xstep exec 2 (∅, crashed) (XOn a)) (XOff a)).1 ⊆ {[b]}).
    replace (xstep exec 2 (xstep exec 2 (∅, crashed) (XOn a)) (XOff a)).1 with (∅ : gset bytes) by (vm_compute; reflexivity). set_solver. }
  pose proof (exit_one_room exec k_default count_ laws 2 crashed exits Hd) as H.
  assert (fold_left (xstep exec 2) exits (∅, crashed) = ({[b]}, MkKern (Some b) [(true, exitTable); (true, exitMainPref); (false, exitTable); (false, exitMainPref)]))
    as E by (vm_compute; reflexivity).
  rewrite E in H |- *. destruct H as [_ H]. destruct (H deletes ltac:(lia) Hb) as [H1 _]. destruct (H1 b eq_refl) as [_ H2].
  split; [exact eq_refl |]. split; [exact eq_refl |]. split; [vm_compute; reflexivity | exact H2].
Defined.

Definition blank : kern := MkKern None [].

(** When two rooms' exits are on and the later one goes off, the other one is
    still on but the table has no default route any more: what should go
    through it uses the ordinary routes. *)
Theorem exit_default_lost : let '(on, k) := fold_left (xstep exec 1) [XOn a; XOn b; XOff b] (∅, blank) in
  on = {[a]} /\ k_default k = None /\ count_ k false exitTable = 1%nat.
Proof. vm_compute. repeat split. Qed.
End kernel.
End roomlinux.
