(* ===== verification/Exitnat.v ===== *)
(** A userspace exit (internal/exitnat/exitnat.go): which flows it opens, how
    many, the speed limits and the relaying, and with package room what can be
    reached through it.

    The gVisor stack, the sockets and the token buckets of golang.org/x/time/rate
    are outside: a flow that arrives, what a dial answers, the tokens waited for. *)
From stdpp Require Import base gmap sets list strings.
From Stdlib Require Import ZArith Lia.
From S2P Require Import Prelude GoStrings Netip Acl AclFilter Crypto Tunwrap Config Dns RoomPeers Room RoomInv.

Open Scope Z_scope.

Module exitnat.

Definition dialTimeout : Z := 10 * Second.
Definition udpIdle : Z := Minute.
Definition maxConns : Z := 4096.
Definition chunk : Z := 16384.

Record Options := MkOptions { MTU : Z; Allow : option (Addr -> bool); PerClient : Z; Total : Z }.

Inductive direction : Type := up | down.

(** A token bucket: whose it is, in which direction, its rate and size. *)
Record Limiter := MkLimiter { owner : option Addr; dir : direction; rate : Z; Burst : Z }.

Definition newLimiter (who : option Addr) (d : direction) (bps : Z) : Limiter := MkLimiter who d bps (Z.max (bps / 10) chunk).

(** [clients]: those with limiters; a connection is a number. *)
Record NAT := MkNAT { opts : Options; clients : gset Addr; conns : gset Z; closed : bool }.

Definition New (o : Options) : NAT :=
  MkNAT (MkOptions (if MTU o =? 0 then 1280 else MTU o) (Allow o) (PerClient o) (Total o)) ∅ ∅ false.

(** The packet given to the stack, if any. *)
Definition Inbound (pkt : bytes) : option bytes :=
  if (zlen pkt <? 20) || negb (Z.shiftr (nth 0 pkt 0) 4 =? 4) then None else Some pkt.

(** [Close]: the connections closed; they stay in the table until their flows end. *)
Definition Close (n : NAT) : gset Z * NAT := (conns n, MkNAT (opts n) (clients n) (conns n) true).

Definition track (c : Z) (n : NAT) : bool * NAT :=
  if closed n || (maxConns <=? Z.of_nat (size (conns n))) then (false, n)
  else (true, MkNAT (opts n) (clients n) ({[c]} ∪ conns n) (closed n)).

Definition untrack (c : Z) (n : NAT) : NAT := MkNAT (opts n) (clients n) (conns n ∖ {[c]}) (closed n).

Definition limits (client : Addr) (d : direction) (n : NAT) : list Limiter * NAT :=
  let total := if 0 <? Total (opts n) then [newLimiter None d (Total (opts n))] else [] in
  if 0 <? PerClient (opts n)
  then (newLimiter (Some client) d (PerClient (opts n)) :: total, MkNAT (opts n) ({[client]} ∪ clients n) (conns n) (closed n))
  else (total, n).

Definition allowed (n : NAT) (dst : Addr) : bool := match Allow (opts n) with None => true | Some f => f dst end.

(** ** Waiting and copying *)

(** The calls of [WaitN] for [left] bytes at one limiter. *)
Fixpoint wait_one (fuel : nat) (l : Limiter) (left : Z) : list (Limiter * Z) :=
  match fuel with
  | O => []
  | S fuel => if left <=? 0 then [] else let step := Z.min left (Burst l) in (l, step) :: wait_one fuel l (left - step)
  end.
Definition wait (lim : list Limiter) (k : Z) : list (Limiter * Z) := flat_map (fun l => wait_one (Z.to_nat k) l k) lim.

(** [copy]: what the reads give with the errors, and whether the writes succeed;
    the data written and the tokens waited for. *)
Fixpoint copy (lim : list Limiter) (reads : list (bytes * bool)) (writes : list bool) : list bytes * list (Limiter * Z) :=
  match reads with
  | [] => ([], [])
  | (data, err) :: reads =>
    let '(w, ok, writes) :=
      if 0 <? zlen data then (wait lim (zlen data), hd true writes, tl writes) else ([], true, writes) in
    let out := if 0 <? zlen data then [data] else [] in
    if negb ok then ([], w)
    else if err : bool then (out, w)
    else let '(out', w') := copy lim reads writes in (out ++ out', w ++ w')
  end.

(** ** Flows *)

Inductive event : Type :=
  | EReset               (* [r.Complete(true)] *)
  | EDial (dst : AddrPort) | EAccept (* [r.Complete(false)] *) | ECloseIn | ECloseOut
  | ERelay (up down : list Limiter).

(** A TCP flow [c] from [client] to [dst]; [dial], [ep]: do dialling and the endpoint succeed? *)
Definition handleTCP (n : NAT) (c : Z) (client : Addr) (dst : AddrPort) (dial ep : bool) : list event * NAT :=
  if negb (allowed n (ap_addr dst)) then ([EReset], n)
  else if negb dial then ([EDial dst; EReset], n)
  else if negb ep then ([EDial dst; EReset; ECloseOut], n)
  else
    let '(ok, n) := track c n in
    if negb ok then ([EDial dst; EAccept; ECloseIn; ECloseOut], n)
    else
      let '(lu, n) := limits client up n in
      let '(ld, n) := limits client down n in
      ([EDial dst; EAccept; ERelay lu ld], n).

Definition handleUDP (n : NAT) (c : Z) (client : Addr) (dst : AddrPort) (dial ep : bool) : list event * NAT :=
  if negb (allowed n (ap_addr dst)) then ([], n)
  else if negb ep then ([], n)
  else if negb dial then ([EDial dst; ECloseIn], n)
  else
    let '(ok, n) := track c n in
    if negb ok then ([EDial dst; ECloseIn; ECloseOut], n)
    else
      let '(lu, n) := limits client up n in
      let '(ld, n) := limits client down n in
      ([EDial dst; ERelay lu ld], n).

(** ** Steps: flows start and end in any order *)

Inductive step : NAT -> NAT -> Prop :=
  | step_tcp n c client dst dial ep : c ∉ conns n -> step n (handleTCP n c client dst dial ep).2
  | step_udp n c client dst dial ep : c ∉ conns n -> step n (handleUDP n c client dst dial ep).2
  | step_end n c : step n (untrack c n)
  | step_close n : step n (Close n).2.

Lemma limits_conns cl d n : conns (limits cl d n).2 = conns n /\ closed (limits cl d n).2 = closed n /\ opts (limits cl d n).2 = opts n.
Proof. unfold limits. by destruct (0 <? PerClient (opts n)). Qed.

(** A flow leaves the table alone or adds itself, while it is open and not full. *)
Lemma handle_conns h n c client dst dial ep : h = handleTCP \/ h = handleUDP ->
  let n' := (h n c client dst dial ep).2 in
  opts n' = opts n /\ closed n' = closed n
  /\ (conns n' = conns n \/ conns n' = {[c]} ∪ conns n /\ closed n = false /\ Z.of_nat (size (conns n)) < maxConns).
Proof.
  intros Hh. assert (forall pre : list event, let n' := (let '(ok, n1) := track c n in
      if negb ok then (pre, n1)
      else let '(lu, n2) := limits client up n1 in let '(ld, n3) := limits client down n2 in (pre, n3)).2 in
    opts n' = opts n /\ closed n' = closed n
    /\ (conns n' = conns n \/ conns n' = {[c]} ∪ conns n /\ closed n = false /\ Z.of_nat (size (conns n)) < maxConns)) as Hgo.
  { intros pre. unfold track. destruct (closed n || (maxConns <=? Z.of_nat (size (conns n)))) eqn:Hfull; cbn [negb].
    { split_and!; [done | done | by left]. }
    apply Bool.orb_false_iff in Hfull as [Hc Hf%Z.leb_gt]. set (n1 := MkNAT _ _ _ _).
    destruct (limits_conns client up n1) as (E1 & E2 & E3). destruct (limits client up n1) as [lu n2]. simpl in E1, E2, E3.
    destruct (limits_conns client down n2) as (F1 & F2 & F3). destruct (limits client down n2) as [ld n3]. simpl in *.
    rewrite F1, F2, F3, E1, E2, E3. simpl. split_and!; [done | done | by right]. }
  specialize (Hgo []). cbv zeta in *.
  destruct Hh as [-> | ->]; unfold handleTCP, handleUDP; destruct (negb (allowed n _)), (negb dial), (negb ep); try (split_and!; [done | done | by left]);
    destruct (track c n) as [ok n1]; destruct (negb ok); try done; destruct (limits client up n1) as [lu n2]; by destruct (limits client down n2).
Qed.

(** Never more than [maxConns] flows at once, and none begins after [Close]. *)
Theorem conns_bounded o n : rtc step (New o) n ->
  Z.of_nat (size (conns n)) <= maxConns /\ (forall n', step n n' -> closed n = true -> conns n' ⊆ conns n).
Proof.
  intros Hrun. split.
  - assert (forall a b, rtc step a b -> Z.of_nat (size (conns a)) <= maxConns -> Z.of_nat (size (conns b)) <= maxConns) as H.
    { clear. induction 1 as [| a b d Hs _ IH]; [done |]. intros Ha. apply IH. clear IH d. assert (forall c (X : gset Z), (size ({[c]} ∪ X) <= S (size X))%nat) as Hadd.
      { intros c X. rewrite size_union_alt, size_singleton. pose proof (subseteq_size (X ∖ {[c]}) X). specialize (H ltac:(set_solver)). lia. }
      destruct Hs as [n c cl dst di ep _ | n c cl dst di ep _ | n c | n]; simpl.
      - destruct (handle_conns handleTCP n c cl dst di ep (or_introl eq_refl)) as (_ & _ & [-> | (-> & _ & Hlt)]); [done | specialize (Hadd c (conns n)); lia].
      - destruct (handle_conns handleUDP n c cl dst di ep (or_intror eq_refl)) as (_ & _ & [-> | (-> & _ & Hlt)]); [done | specialize (Hadd c (conns n)); lia].
      - pose proof (subseteq_size (conns n ∖ {[c]}) (conns n)). specialize (H ltac:(set_solver)). lia.
      - done. }
    apply (H _ _ Hrun). done.
  - intros n' Hs Hc. destruct Hs as [n c cl dst di ep _ | n c cl dst di ep _ | n c | n]; [| | set_solver | done].
    + destruct (handle_conns handleTCP n c cl dst di ep (or_introl eq_refl)) as (_ & _ & [-> | (_ & Hf & _)]); [done | congruence].
    + destruct (handle_conns handleUDP n c cl dst di ep (or_intror eq_refl)) as (_ & _ & [-> | (_ & Hf & _)]); [done | congruence].
Qed.

(** ** The speed limits *)

Definition tokens (who : option Addr) (w : list (Limiter * Z)) : Z :=
  fold_right (fun x acc => (if bool_decide (owner x.1 = who) then x.2 else 0) + acc) 0 w.

Lemma tokens_app who a b : tokens who (a ++ b) = tokens who a + tokens who b.
Proof. induction a as [| x a IH]; [done |]. simpl. rewrite IH. lia. Qed.

Lemma wait_one_spec l : 1 <= Burst l -> forall fuel left, left <= Z.of_nat fuel ->
  tokens (owner l) (wait_one fuel l left) = Z.max 0 left
  /\ (forall who, who <> owner l -> tokens who (wait_one fuel l left) = 0)
  /\ Forall (fun x => x.1 = l /\ 1 <= x.2 <= Burst l) (wait_one fuel l left).
Proof.
  intros Hb. induction fuel as [| fuel IH]; intros left Hl; simpl; [split_and!; [lia | done | done] |].
  destruct (Z.leb_spec left 0) as [H0 | H0]; [simpl; split_and!; [lia | done | done] |].
  destruct (IH (left - Z.min left (Burst l)) ltac:(lia)) as (H1 & H2 & H3). split_and!.
  - simpl. rewrite bool_decide_eq_true_2, H1 by done. lia.
  - intros who Hw. simpl. rewrite bool_decide_eq_false_2, H2 by congruence. lia.
  - constructor; [simpl; split; [done | lia] | done].
Qed.

(** One limiter of each owner, none smaller than a chunk. *)
Record limiters_ok (lim : list Limiter) : Prop := {
  lim_burst : Forall (fun l => 1 <= Burst l) lim;
  lim_owner : NoDup (map owner lim) }.

Lemma wait_tokens lim k : limiters_ok lim -> 0 <= k -> forall l, l ∈ lim -> tokens (owner l) (wait lim k) = k.
Proof.
  intros [Hb Hnd] Hk. unfold wait. induction lim as [| a lim IH]; intros l Hin; [by apply elem_of_nil in Hin |].
  apply Forall_cons in Hb as [Ha Hb]. apply NoDup_cons in Hnd as [Hnot Hnd]. simpl. rewrite tokens_app.
  destruct (wait_one_spec a Ha (Z.to_nat k) k ltac:(lia)) as (H1 & H2 & _).
  assert (forall who, who ∉ map owner lim -> tokens who (flat_map (fun l => wait_one (Z.to_nat k) l k) lim) = 0) as H0.
  { clear -Hb Hk. induction lim as [| b lim IH]; [done |]. apply Forall_cons in Hb as [Hb1 Hb]. intros who [Hne Hn]%not_elem_of_cons. simpl.
    destruct (wait_one_spec b Hb1 (Z.to_nat k) k ltac:(lia)) as (_ & H2 & _). rewrite tokens_app, H2, IH by done. done. }
  apply elem_of_cons in Hin as [-> | Hin].
  - rewrite H1, H0 by done. lia.
  - rewrite H2, IH by (done || (intros Heq; apply Hnot; rewrite <- Heq; by apply list_elem_of_In, in_map, list_elem_of_In)). lia.
Qed.

Lemma limits_ok cl d n : limiters_ok (limits cl d n).1.
Proof.
  assert (forall who d' bps, 1 <= Burst (newLimiter who d' bps)) as Hb by (intros; simpl; unfold chunk; lia).
  unfold limits. destruct (0 <? PerClient (opts n)), (0 <? Total (opts n)); simpl; constructor; simpl; repeat constructor; try apply Hb; set_solver.
Qed.

(** A connection's data comes out in the order it went in and unchanged, up to
    the first failed write; a flow's bytes all take their tokens from the
    client's bucket and from the common one before they are written. *)
Theorem copy_spec n cl d reads writes : let lim := (limits cl d n).1 in let '(out, w) := copy lim reads writes in
  (exists k, concat out = concat (take k (map fst reads)))
  /\ (forall l, l ∈ lim -> zlen (concat out) <= tokens (owner l) w)
  /\ (Forall (fun b => b = true) writes -> (length reads <= length writes)%nat -> Forall (fun x => x.2 = false) reads ->
      concat out = concat (map fst reads)).
Proof.
  cbv zeta. pose proof (limits_ok cl d n) as Hok. generalize dependent (limits cl d n).1. intros lim Hok. revert writes.
  induction reads as [| [data err] reads IH]; intros writes; simpl; [split_and!; [by exists 0%nat | intros l _; simpl; rewrite zlen_nil; lia | done] |].
  assert (forall l, l ∈ lim -> tokens (owner l) (wait lim (zlen data)) = zlen data) as Hw by (apply wait_tokens; [done | apply zlen_nonneg]).
  pose proof (zlen_nonneg data) as Hn.
  set (writes' := if 0 <? zlen data then tl writes else writes). specialize (IH writes').
  assert (concat (if 0 <? zlen data then [data] else []) = data) as Hdata.
  { destruct (Z.ltb_spec 0 (zlen data)); [simpl; by rewrite app_nil_r |]. destruct data; [done | rewrite zlen_cons in *; pose proof (zlen_nonneg data); lia]. }
  assert (forall l, l ∈ lim -> tokens (owner l) (if 0 <? zlen data then wait lim (zlen data) else []) = zlen data) as Hw'.
  { intros l Hl. destruct (Z.ltb_spec 0 (zlen data)); [by apply Hw | simpl; lia]. }
  assert ((if 0 <? zlen data then (wait lim (zlen data), hd true writes, tl writes) else ([], true, writes))
    = ((if 0 <? zlen data then wait lim (zlen data) else []), (if 0 <? zlen data then hd true writes else true), writes')) as ->.
  { unfold writes'. by destruct (0 <? zlen data). }
  destruct (if 0 <? zlen data then hd true writes else true) eqn:Hok1; cbn [negb].
  - destruct err.
    + rewrite Hdata. split_and!; [exists 1%nat; simpl; by rewrite app_nil_r | intros l Hl; rewrite Hw'; [lia | done] |].
      intros _ _ Hf. apply Forall_cons in Hf as [Hf _]. done.
    + destruct (copy lim reads writes') as [out w]. destruct IH as ([k Hk] & Ht & Hall). rewrite concat_app, Hdata. split_and!.
      * exists (S k). simpl. by rewrite Hk.
      * intros l Hl. rewrite tokens_app, zlen_app, Hw' by done. specialize (Ht l Hl). lia.
      * intros Hwr Hlen Hf. apply Forall_cons in Hf as [_ Hf]. f_equal. apply Hall; [| | done]; unfold writes'.
        { destruct (0 <? zlen data); [| done]. destruct writes; [done | apply Forall_cons in Hwr as [_ Hwr]; exact Hwr]. }
        { simpl in Hlen. destruct (0 <? zlen data); [destruct writes; simpl in *; lia | lia]. }
  - split_and!; [by exists 0%nat | intros l Hl; simpl; rewrite zlen_nil, Hw'; [lia | done] |].
    intros Hwr Hlen _. destruct (0 <? zlen data); [| done]. destruct writes as [| x writes]; [simpl in *; lia |].
    apply Forall_cons in Hwr as [-> _]. done.
Qed.

(** ** What can be reached through the exit *)

(** The blocks an exit keeps closed, by the octets of an address. *)
Definition closed_block (v : Z) : Prop :=
  let a := v / 2 ^ 24 in let b := v / 2 ^ 16 mod 2 ^ 8 in
  a = 0 \/ a = 10 \/ a = 100 /\ 64 <= b <= 127 \/ a = 127 \/ a = 169 /\ b = 254 \/ a = 172 /\ 16 <= b <= 31
  \/ a = 192 /\ b = 168 \/ 224 <= a.

Lemma isPrivate_spec v : 0 <= v < 2 ^ 32 -> room.isPrivate (Addr4 v) = true <-> closed_block v.
Proof.
  intros Hv. assert (forall x b, 0 <= b <= 32 -> Contains (MkPrefix (Addr4 x) b) (Addr4 v) = (mask 32 b x <=? v) && (v <? mask 32 b x + 2 ^ (32 - b))) as Hc.
  { intros x b Hb. apply eq_true_iff_eq. rewrite Contains_v4, andb_true_iff, Z.leb_le, Z.ltb_lt by done. done. }
  unfold room.isPrivate, room.privateNets, closed_block. cbn [existsb]. rewrite !Hc by lia.
  rewrite !orb_true_iff, !andb_true_iff, !Z.leb_le, !Z.ltb_lt. unfold mask.
  repeat match goal with |- context [?x / 2 ^ (32 - ?b) * 2 ^ (32 - ?b)] =>
    let y := eval vm_compute in (x / 2 ^ (32 - b) * 2 ^ (32 - b)) in change (x / 2 ^ (32 - b) * 2 ^ (32 - b)) with y end.
  repeat match goal with |- context [2 ^ (32 - ?b)] => let y := eval vm_compute in (2 ^ (32 - b)) in change (2 ^ (32 - b)) with y end.
  change (2 ^ 24) with 16777216. change (2 ^ 16) with 65536. change (2 ^ 8) with 256. change (2 ^ 32) with 4294967296 in Hv.
  assert (v / 16777216 = v / 65536 / 256) as -> by (rewrite Z.div_div by lia; done).
  set (w := v / 65536). assert (65536 * w <= v < 65536 * w + 65536) as Hw by (unfold w; pose proof (Z.div_mod v 65536 ltac:(lia)); pose proof (Z.mod_pos_bound v 65536 ltac:(lia)); lia).
  pose proof (Z.div_mod w 256 ltac:(lia)) as Hw2. pose proof (Z.mod_pos_bound w 256 ltac:(lia)) as Hw3. clearbody w.
  set (a := w / 256) in *. set (b := w mod 256) in *. clearbody a b. lia.
Qed.

(** The NAT of a room ([startNATLocked]). *)
Definition room_options (p : room.Params) : Options :=
  MkOptions (room.mtu p) (Some (fun a => negb (room.isPrivate a))) (room.limit p) (room.limitTotal p).

Lemma step_opts n n' : rtc step n n' -> opts n' = opts n.
Proof.
  induction 1 as [| n n1 n2 Hs _ IH]; [done |]. rewrite IH. destruct Hs as [n c cl dst di ep _ | n c cl dst di ep _ | n c | n]; try done.
  - by destruct (handle_conns handleTCP n c cl dst di ep (or_introl eq_refl)).
  - by destruct (handle_conns handleUDP n c cl dst di ep (or_intror eq_refl)).
Qed.

Lemma dial_allowed h n c client dst d di ep : h = handleTCP \/ h = handleUDP ->
  EDial d ∈ (h n c client dst di ep).1 -> d = dst /\ allowed n (ap_addr dst) = true.
Proof.
  intros Hh. assert (forall l : list event, EDial d ∈ EDial dst :: l -> EDial d ∉ l -> d = dst) as Hone.
  { intros l [[= ->] | Hin]%elem_of_cons Hnot; [done | by destruct Hnot]. }
  destruct Hh as [-> | ->]; [unfold handleTCP | unfold handleUDP]; (destruct (allowed n (ap_addr dst)); cbn [negb]; [| simpl; set_solver]);
    intros Hin; (split; [| done]); destruct di, ep; cbn [negb fst] in Hin; try (eapply Hone; [exact Hin | set_solver]); try (exfalso; set_solver);
    destruct (track c n) as [ok n1]; destruct ok; cbn [negb fst] in Hin; try (eapply Hone; [exact Hin | set_solver]);
    destruct (limits client up n1) as [lu n2], (limits client down n2) as [ld n3]; (eapply Hone; [exact Hin | set_solver]).
Qed.

(** C23: what a room hands to the NAT of a userspace exit are IPv4 packets from
    the room to addresses outside the room and outside the networks the kernel
    routes for it, while the node is an exit; and whatever the NAT did before,
    it opens no flow to a private, shared, loopback, link-local, multicast or
    reserved address: the exit's own network stays closed. *)
Theorem userspace_exit {D} `{roompeers.DeviceLaws D} `{Crypto} os order o (r0 : @room.Room D) ops v pkt n h c client port dial ep :
  room.Up os order o = Ok r0 ->
  let r := room.run os order r0 ops in
  room.divert r = Some v -> bytes_ok pkt -> room.diverts v pkt = true ->
  rtc step (New (room_options (room.par r))) n -> h = handleTCP \/ h = handleUDP ->
  let src := AddrFrom4 (sub pkt 12 16) in
  let dst := AddrFrom4 (sub pkt 16 20) in
  room.exitSrv r = true /\ room.userExit (room.par r) = true
  /\ Contains (Masked (room.Address (room.par r))) src = true /\ Contains (Masked (room.Address (room.par r))) dst = false
  /\ IsMulticast dst = false /\ Forall (fun p => Contains p dst = false) (room.routing r)
  /\ forall d, EDial d ∈ (h n c client (MkAddrPort dst port) dial ep).1 -> d = MkAddrPort dst port /\ ~ closed_block (be (sub pkt 16 20)).
Proof.
  intros Hup. cbv zeta. intros Hdiv Hpkt Hd Hrun Hh.
  assert (roominv.view_inv (roominv.view_of (room.run os order r0 ops))) as (_ & _ & Hv) by by apply roominv.run_view, (roominv.Up_inv os order o).
  set (r := room.run os order r0 ops) in *. simpl in Hv.
  assert (v = room.MkDivert (Masked (room.Address (room.par r))) (pfx_ip (room.Address (room.par r))) (room.routing r)
    /\ room.exitSrv r = true /\ room.userExit (room.par r) = true) as (-> & Hx & Hu).
  { destruct (room.tdev (room.par r)); [| destruct Hv as (_ & _ & Hn & _); congruence]. destruct Hv as (Hn & _ & Hdv & _).
    rewrite Hdv in Hdiv. destruct (room.nat_ r); [| done]. injection Hdiv as <-. symmetry in Hn. apply andb_prop in Hn as [? ?]. done. }
  unfold room.diverts in Hd. destruct ((zlen pkt <? 20) || _) eqn:Hshort; [done |]. cbn [room.subnet room.own room.keep] in Hd.
  apply Bool.orb_false_iff in Hshort as [Hlen _]. apply Z.ltb_ge in Hlen.
  destruct (negb (Contains _ (AddrFrom4 (sub pkt 12 16))) || _ || _ || _ || _) eqn:Hno; [done |].
  rewrite !Bool.orb_false_iff in Hno. destruct Hno as ((((Hin & Hout) & _) & Hmc) & _). apply negb_false_iff in Hin. apply negb_true_iff in Hd.
  apply existsb_Forall in Hd. split_and!; try done. intros d Hdial.
  destruct (dial_allowed h n c client (MkAddrPort (AddrFrom4 (sub pkt 16 20)) port) d dial ep Hh Hdial) as [-> Ha]. split; [done |].
  unfold allowed, AddrFrom4 in Ha. rewrite (step_opts _ _ Hrun) in Ha. simpl in Ha. apply negb_true_iff in Ha.
  intros Hb. unfold AddrFrom4 in Ha; apply isPrivate_spec in Hb; [rewrite Hb in Ha; done |]. assert (zlen (sub pkt 16 20) = 4) as Hz by (rewrite zlen_sub; lia).
  pose proof (be_bound (sub pkt 16 20) (sub_bytes_ok _ _ _ Hpkt)) as Hbe. rewrite Hz in Hbe. exact Hbe.
Qed.

End exitnat.
