(* ===== verification/RoomExample.v ===== *)
(** A room started, changed and closed: the theorems of RoomInv and Exitnat at
    concrete inputs. Two runs where the code falls short: a network that was given
    to two peers is left without an owner ([network_lost]), and a route the
    operating system refused is never asked for again ([refused_route_believed]). *)
From stdpp Require Import base gmap sets list strings.
From Stdlib Require Import ZArith Lia.
From S2P Require Import Prelude GoStrings Netip Acl AclFilter Crypto Encoding Obfs Identity Tunwrap Config Dns RoomPeers Room RoomInv Exitnat.

Open Scope Z_scope.

Module roomscenario.
Import roompeers room.

(** A device that does what it is told. *)
#[export] Instance exDevice : Device wgstate := {
  NewDevice := MkWg ∅ ∅;
  IpcSetDevice d _ := (d, true);
  IpcSet d ls := (uapi ls d, true);
  wg d := d }.
#[export] Instance exDevice_laws : DeviceLaws wgstate.
Proof. split; [done | by intros d t d' [= <-] H | by intros d ls d' [= <-]]. Qed.

#[export] Instance exCodec : dns.Codec := { dns.Start _ := None; dns.Question_ _ := None; dns.Finish _ _ _ := None }.
#[export] Instance exNet : dns.Net := { dns.udp_ask _ q := Some [q]; dns.tcp_ask _ q := Some q }.

Definition yes (t : list (call * bool)) (c : call) : bool := true.
Definition addr (a b c d : Z) : Addr := Addr4 (a * 2 ^ 24 + b * 2 ^ 16 + c * 2 ^ 8 + d).
Definition key (b : Z) : bytes := b :: zeros 31.
Definition peer (b : Z) (ips : list Prefix) : config.Peer := config.MkPeer [] (key b) (str "192.0.2.1:4790") ips 25.

Definition p2 : config.Peer := peer 2 [MkPrefix (addr 10 9 0 2) 32; MkPrefix (addr 192 168 1 0) 24].
Definition p3 : config.Peer := peer 3 [MkPrefix (addr 10 9 0 3) 32].
Definition p3' : config.Peer := peer 3 [MkPrefix (addr 10 9 0 3) 32; MkPrefix (addr 192 168 1 0) 24].

Definition p2' : config.Peer := peer 2 [MkPrefix (addr 10 9 0 2) 32].

Definition conf : config.Room :=
  config.MkRoom (str "home") (zeros 32) (MkPrefix (addr 10 9 0 1) 24) 1280 [] None [p2; p3] [] [] false false AddrZero []
    (str "home.zpt") ∅ false None ∅ [] ∅.
Definition opts : Options := MkOptions conf (key 9) false [] true 0 0.

Definition nothing : @Room wgstate :=
  MkRoom (params opts) (MkWg ∅ ∅) (tunwrap.MkDevice AddrZero PrefixZero AddrZero [] [] [] 0 0 None false false) None ∅ [] [] [] false false false
    false [] [] None None false [].
Definition room0 : Room := match Up yes (fun l => l) opts with Ok r => r | _ => nothing end.

Lemma room0_up : Up yes (fun l => l) opts = Ok room0.
Proof. vm_compute. reflexivity. Qed.

(** The node becomes a userspace exit, the timers fire, DNS goes to a member,
    this machine's traffic goes into the room; then the network behind the
    second peer moves to the third. *)
Definition ops : list (@op wgstate) :=
  [ORouter [MkPrefix (addr 192 168 7 0) 24] true; OTimer 0; OZone (Some (dns.MkZone (str "home.zpt") ∅)); ODNS [addr 10 9 0 2]; OExit true].

Definition lan : Prefix := MkPrefix (addr 192 168 1 0) 24.
Definition moved : list (@op wgstate) := ops ++ [OPeers [p2'; p3']].

Lemma ipc_fine : (CIpc, false) ∉ trace (run yes (fun l => l) room0 moved).
Proof. apply (bool_decide_unpack _). vm_compute. exact I. Qed.

Lemma lists_distinct l : l ∈ roominv.lists opts moved -> NoDup (keys_of l).
Proof.
  intros Hl. assert (l = [p2; p3] \/ l = [p2'; p3']) as [-> | ->] by (change (l ∈ [[p2; p3]; [p2'; p3']]) in Hl; set_solver);
    apply (bool_decide_unpack _); vm_compute; exact I.
Qed.

Lemma lan_once : roominv.never_shared opts moved lan.
Proof.
  intros l Hl. assert (l = [p2; p3] \/ l = [p2'; p3']) as [-> | ->] by (change (l ∈ [[p2; p3]; [p2'; p3']]) in Hl; set_solver);
    apply (bool_decide_unpack _); vm_compute; exact I.
Qed.

Lemma peers_in_sync_witness :
  let r := run yes (fun l => l) room0 moved in
  w_allowed (dev room0) !! lan = Some (key 2)
  /\ w_allowed (dev r) !! lan = Some (key 3) /\ owns (next_peers [p2'; p3']) lan (key 3)
  /\ (exists w, w_peers (dev r) !! key 2 = Some w /\ w_psk w = psk (params opts))
  /\ timers room0 = [key 2; key 3] /\ timers r = [key 3].
Proof.
  assert (roominv.learns yes (fun l => l) room0 moved) as Hl by (cbn [roominv.learns moved app ops]; repeat (split; [exact I |]); exact I).
  destruct (roominv.peers_in_sync yes (fun l => l) (fun l => reflexivity l) opts room0 ops [p2'; p3'] room0_up lists_distinct Hl ipc_fine)
    as (Hp & Ha & Hn).
  assert (w_allowed (dev (run yes (fun l => l) room0 moved)) !! lan = Some (key 3)) as H3 by (vm_compute; reflexivity).
  split; [vm_compute; reflexivity |]. split; [exact H3 |]. split; [apply (Hn lan (key 3) lan_once), H3 |].
  split; [| split; vm_compute; reflexivity].
  specialize (Hp (key 2)). replace (next_peers [p2'; p3'] !! key 2) with (Some p2') in Hp by (vm_compute; reflexivity).
  change (wg (dev (run yes (fun l => l) room0 (ops ++ [OPeers [p2'; p3']])))) with (dev (run yes (fun l => l) room0 moved)) in Hp.
  destruct (w_peers (dev (run yes (fun l => l) room0 moved)) !! key 2) as [w |]; [| destruct Hp]. exists w. split; [reflexivity | apply Hp].
Defined.

(** Two members with the same network, which is then taken from one of them:
    the other has not changed, so nothing is written for it, and nobody has the
    network any more. *)
Theorem network_lost :
  let both := [p2; p3'] in let one := [p2; p3] in
  let r := run yes (fun l => l) room0 [OPeers both; OPeers one] in
  (forall q, single one q) /\ owns (next_peers one) lan (key 2) /\ (CIpc, false) ∉ trace r /\ w_allowed (dev r) !! lan = None.
Proof.
  cbv zeta. split; [| split; [| split]].
  - intros q p p' Hp Hp' Hq Hq'. rewrite !elem_of_cons, elem_of_nil in Hp, Hp'.
    destruct Hp as [-> | [-> | []]], Hp' as [-> | [-> | []]]; try done; exfalso; unfold masked_ips in *; simpl in *;
      rewrite !elem_of_cons, elem_of_nil in *;
      repeat match goal with H : _ \/ _ |- _ => destruct H | H : False |- _ => destruct H end; subst;
      match goal with H : _ = _ |- _ => vm_compute in H; discriminate H end.
  - exists p2. split; [vm_compute; reflexivity |]. apply (bool_decide_unpack _). vm_compute. exact I.
  - apply (bool_decide_unpack _). vm_compute. exact I.
  - vm_compute. reflexivity.
Qed.

Definition busy : @Room wgstate := run yes (fun l => l) room0 ops.



(** A route the machine refused is believed, and not asked for again. *)
Definition no_route (t : list (call * bool)) (c : call) : bool := match c with CSetRoute _ true => false | _ => true end.
Theorem refused_route_believed :
  let r := run no_route (fun l => l) room0 [ORoutes [lan]; ORoutes [lan]] in
  routes r = [lan] /\ List.filter (fun c => match c with (CSetRoute _ _, _) => true | _ => false end) (trace r) = [(CSetRoute lan true, false)].
Proof. vm_compute. split; reflexivity. Qed.

(** A member's query to the exit goes to the exit's resolvers, a stranger's on a
    loopback address of this machine to the servers of the room. *)
Lemma not_open_resolver_witness :
  let sys := [MkAddrPort (addr 9 9 9 9) 53] in
  upstreams sys busy (addr 10 9 0 3) = sys
  /\ upstreams sys busy (addr 127 0 0 1) = [MkAddrPort (addr 10 9 0 2) 53]
  /\ upstreams sys room0 (addr 10 9 0 3) = []
  /\ (forall up, up ∈ (dns.exchange (upstreams sys busy) None (zeros 12) dns.UDP (addr 10 9 0 3)).1 -> up ∈ sys).
Proof.
  cbv zeta. split; [vm_compute; reflexivity |]. split; [vm_compute; reflexivity |]. split; [vm_compute; reflexivity |]. intros up Hup.
  assert (dns.exchange (upstreams [MkAddrPort (addr 9 9 9 9) 53] busy) None (zeros 12) dns.UDP (addr 10 9 0 3)
    = ([MkAddrPort (addr 9 9 9 9) 53], Some (zeros 12))) as Hx by (vm_compute; reflexivity).
  pose proof (roominv.not_open_resolver yes (fun l => l) opts room0 ops [MkAddrPort (addr 9 9 9 9) 53] None (zeros 12) dns.UDP (addr 10 9 0 3) room0_up) as H.
  cbv zeta in H. fold busy in H. rewrite Hx in H, Hup. destruct H as [H _]. specialize (H up Hup). cbn [fst] in Hup. exact Hup.
Defined.

(** A packet from 10.9.0.3 to 1.1.1.1 goes to the NAT, which may dial it. *)
Definition pkt : bytes := [69; 0; 0; 20; 0; 0; 0; 0; 64; 6; 0; 0; 10; 9; 0; 3; 1; 1; 1; 1].
Definition taken : Divert := MkDivert (Masked (MkPrefix (addr 10 9 0 1) 24)) (addr 10 9 0 1) [MkPrefix (addr 192 168 7 0) 24].

Lemma userspace_exit_witness :
  divert busy = Some taken /\ diverts taken pkt = true
  /\ (exitnat.handleTCP (exitnat.New (exitnat.room_options (par busy))) 1 (addr 10 9 0 3) (MkAddrPort (addr 1 1 1 1) 443) true true).1
     = [exitnat.EDial (MkAddrPort (addr 1 1 1 1) 443); exitnat.EAccept; exitnat.ERelay [] []]
  /\ ~ exitnat.closed_block (be (sub pkt 16 20)).
Proof.
  assert (divert busy = Some taken) as Hd by (vm_compute; reflexivity).
  assert (diverts taken pkt = true) as Ht by (vm_compute; reflexivity).
  assert (bytes_ok pkt) as Hp by (repeat constructor; unfold byte_ok; lia).
  assert ((exitnat.handleTCP (exitnat.New (exitnat.room_options (par busy))) 1 (addr 10 9 0 3) (MkAddrPort (AddrFrom4 (sub pkt 16 20)) 443) true true).1
     = [exitnat.EDial (MkAddrPort (addr 1 1 1 1) 443); exitnat.EAccept; exitnat.ERelay [] []]) as Hh by (vm_compute; reflexivity).
  split; [exact Hd |]. split; [exact Ht |]. split; [vm_compute; reflexivity |].
  destruct (exitnat.userspace_exit yes (fun l => l) opts room0 ops taken pkt (exitnat.New (exitnat.room_options (par busy))) exitnat.handleTCP 1
    (addr 10 9 0 3) 443 true true room0_up Hd Hp Ht (rtc_refl _ _) (or_introl eq_refl)) as (_ & _ & _ & _ & _ & _ & H).
  apply (H (MkAddrPort (addr 1 1 1 1) 443)). rewrite Hh. by left.
Defined.

End roomscenario.
