(* ===== verification/Portmap.v ===== *)
(** The forwarding of the node's port by the home router
    (internal/portmap/portmap.go): one request in each protocol, choosing a
    usable mapping, keeping it and giving it back.

    The NAT-PMP and UPnP clients are third-party: their answers are arguments. *)
From stdpp Require Import base list strings.
From Stdlib Require Import ZArith Lia.
From S2P Require Import Prelude GoStrings Netip.

Open Scope Z_scope.

Module portmap.

Definition Lifetime : Z := Hour.
Definition cgnat : Prefix := MkPrefix (Addr4 (100 * 2 ^ 24 + 64 * 2 ^ 16)) 10.

Definition usable (a : Addr) : bool := IsValid a && IsGlobalUnicast a && negb (IsPrivate a) && negb (Contains cgnat a).

(** ** One request *)

(** NAT-PMP: the external address, and for a mapping the external port and the lifetime in seconds. *)
Definition pmp_add (ext : option bytes) (mapping : option (Z * Z)) : option (AddrPort * Z) :=
  ip ← ext; m ← mapping; Some (MkAddrPort (AddrFrom4 ip) m.1, m.2 * Second).

(** UPnP: the local and the external address, and whether a mapping with a lease is accepted. *)
Definition upnp_add (local : option Addr) (ext : option bytes) (accepts : Z -> bool) (port lifetime : Z) : option (AddrPort * Z) :=
  _ ← local; e ← ext; ip ← ParseAddr e;
  if accepts (u32 (lifetime / Second)) || accepts 0 then Some (MkAddrPort (Unmap ip) port, lifetime) else None.

(** ** Keeping a mapping *)

(** A protocol the router speaks: its number. *)
Notation mapper := nat.

Inductive event : Type :=
  | EChange (a : AddrPort)     (* onChange *)
  | EAdd (m : mapper) | ERemove (m : mapper) (external : Z) | ESleep (d : Z).

(** What the router's protocols answer to a request, in the order of [discover]. *)
Fixpoint establish (answers : list (mapper * option (AddrPort * Z))) : list event * option (mapper * AddrPort * Z) :=
  match answers with
  | [] => ([], None)
  | (m, r) :: answers =>
    match r with
    | None => let '(es, o) := establish answers in (EAdd m :: es, o)
    | Some (ext, life) =>
      if negb (usable (ap_addr ext))
      then let '(es, o) := establish answers in (EAdd m :: ERemove m (ap_port ext) :: es, o)
      else ([EAdd m], Some (m, ext, if life <=? 0 then Lifetime else life))
    end
  end.

Inductive phase : Type := Searching | Holding (m : mapper) (ext : AddrPort) (life : Z) | Stopped.
Record state := MkState { current : AddrPort; retry : Z; ph : phase }.

Definition start : state := MkState AddrPortZero Minute Searching.

Definition set (a : AddrPort) (current : AddrPort) : list event := if bool_decide (a = current) then [] else [EChange a].

(** What happens next. In [Searching] [discover] and the requests answer; while
    it sleeps the context may end ([alive] false). In [Holding] it sleeps for
    half the lifetime, then the renewal is answered; [after]: does the context live
    after a failed one? *)
Record input := MkInput { answers : list (mapper * option (AddrPort * Z)); alive : bool; renewal : option (AddrPort * Z); after : bool }.

Definition step (s : state) (i : input) : list event * state :=
  match ph s with
  | Searching =>
    match establish (answers i) with
    | (es, None) =>
      (es ++ set AddrPortZero (current s) ++ [ESleep (retry s)],
       MkState AddrPortZero (Z.min (retry s * 2) (30 * Minute)) (if alive i then Searching else Stopped))
    | (es, Some (m, ext, life)) => (es ++ set ext (current s), MkState ext Minute (Holding m ext life))
    end
  | Holding m ext life =>
    if negb (alive i) then ([ESleep (Z.quot life 2); ERemove m (ap_port ext)], MkState (current s) (retry s) Stopped)
    else
      match renewal i with
      | None => ([ESleep (Z.quot life 2); EAdd m], MkState (current s) (retry s) (if after i then Searching else Stopped))
      | Some (ext', life') =>
        (ESleep (Z.quot life 2) :: EAdd m :: set ext' (current s), MkState ext' (retry s) (Holding m ext' life'))
      end
  | Stopped => ([], s)
  end.

Fixpoint Run (s : state) (ins : list input) : list event * state :=
  match ins with
  | [] => ([], s)
  | i :: ins => let '(es, s) := step s i in let '(es', s) := Run s ins in (es ++ es', s)
  end.

(** ** Lemmas *)

(** A request that failed, or whose unusable mapping was given back. *)
Definition given_back (es : list event) (a : mapper * option (AddrPort * Z)) : Prop :=
  match a.2 with Some (e, _) => usable (ap_addr e) = false /\ ERemove a.1 (ap_port e) ∈ es | None => True end.

Lemma given_back_mono es es' l : (forall e, e ∈ es -> e ∈ es') -> Forall (given_back es) l -> Forall (given_back es') l.
Proof.
  intros He H. eapply Forall_impl; [exact H |]. intros [m [[e life] |]]; [| done]. unfold given_back. simpl. intros [? ?]. auto.
Qed.

Lemma establish_spec answers : let '(es, o) := establish answers in
  Forall (fun e => match e with EAdd _ | ERemove _ _ => True | _ => False end) es
  /\ match o with
     | Some (m, ext, life) => exists pre post life', answers = pre ++ (m, Some (ext, life')) :: post
         /\ usable (ap_addr ext) = true /\ 0 < life /\ (0 < life' -> life = life')
         /\ Forall (given_back es) pre
     | None => Forall (given_back es) answers
     end.
Proof.
  induction answers as [| [m [[ext life] |]] answers IH]; simpl; [done | |].
  - destruct (usable (ap_addr ext)) eqn:Hu; simpl.
    + split; [by repeat constructor |]. exists [], answers, life. split_and!; try done; destruct (Z.leb_spec life 0); unfold Lifetime, Hour, Minute, Second; lia.
    + destruct (establish answers) as [es o]. destruct IH as [Hes IH]. split; [by repeat constructor |].
      assert (forall e, e ∈ es -> e ∈ EAdd m :: ERemove m (ap_port ext) :: es) as Hsub by (intros e He; by do 2 right).
      assert (ERemove m (ap_port ext) ∈ EAdd m :: ERemove m (ap_port ext) :: es) as Hhere by (right; by left).
      destruct o as [[[m' ext'] life'] |].
      * destruct IH as (pre & post & l' & -> & Hu' & Hl & Hl' & Hpre). exists ((m, Some (ext, life)) :: pre), post, l'. split_and!; try done.
        constructor; [done | by apply (given_back_mono es)].
      * constructor; [done | by apply (given_back_mono es)].
  - destruct (establish answers) as [es o]. destruct IH as [Hes IH]. split; [by constructor |].
    assert (forall e, e ∈ es -> e ∈ EAdd m :: es) as Hsub by (intros e He; by right). destruct o as [[[m' ext'] life'] |].
    * destruct IH as (pre & post & l' & -> & Hu' & Hl & Hl' & Hpre). exists ((m, None) :: pre), post, l'. split_and!; try done.
      constructor; [done | by apply (given_back_mono es)].
    * constructor; [done | by apply (given_back_mono es)].
Qed.

Definition changes (es : list event) : list AddrPort := omap (fun e => match e with EChange a => Some a | _ => None end) es.

(** Each address reported differs from the one before, and the last is the current one. *)
Fixpoint alternates (a : AddrPort) (l : list AddrPort) : Prop :=
  match l with [] => True | b :: l => b <> a /\ alternates b l end.

Lemma alternates_app a l l' : alternates a (l ++ l') <-> alternates a l /\ alternates (default a (last l)) l'.
Proof.
  revert a. induction l as [| b l IH]; intros a; [simpl; tauto |]. cbn [alternates app]. rewrite IH, last_cons. destruct (last l); simpl; tauto.
Qed.

Lemma last_app_default {A} (a : A) l l' : default a (last (l ++ l')) = default (default a (last l)) (last l').
Proof.
  destruct l' as [| b l' _] using rev_ind; [by rewrite app_nil_r |]. by rewrite app_assoc, !last_snoc.
Qed.

Lemma changes_quiet es : Forall (fun e => match e with EAdd _ | ERemove _ _ => True | _ => False end) es -> changes es = [].
Proof. induction 1 as [| [] es H _ IH]; try done. Qed.

Lemma changes_app a b : changes (a ++ b) = changes a ++ changes b.
Proof. apply omap_app. Qed.

Lemma set_changes a c : alternates c (changes (set a c)) /\ default c (last (changes (set a c))) = a.
Proof. unfold set. case_bool_decide; [by subst | by simpl]. Qed.

(** What each step keeps. *)
Record inv (s : state) : Prop := {
  inv_retry : Minute <= retry s <= 30 * Minute;
  inv_current : match ph s with Holding _ ext _ => current s = ext | _ => True end }.

Lemma step_spec s i : inv s -> let '(es, s') := step s i in
  inv s' /\ alternates (current s) (changes es) /\ default (current s) (last (changes es)) = current s'.
Proof.
  intros [Hr Hc]. unfold step. destruct (ph s) as [| m ext life |] eqn:Hph.
  - pose proof (establish_spec (answers i)) as He. destruct (establish (answers i)) as [es [[[m ext] life] |]]; destruct He as [Hes _].
    + rewrite changes_app, (changes_quiet es) by done. simpl. destruct (set_changes ext (current s)). split; [| done].
      constructor; [simpl; unfold Minute, Second; lia | done].
    + rewrite !changes_app, (changes_quiet es) by done. simpl. rewrite app_nil_r. destruct (set_changes AddrPortZero (current s)). split; [| done].
      constructor; [simpl; unfold Minute, Second in *; lia | simpl; by destruct (alive i)].
  - destruct (alive i); simpl; [| split; [by constructor | done]]. destruct (renewal i) as [[ext' life'] |]; simpl.
    + destruct (set_changes ext' (current s)). split; [by constructor | done].
    + split; [constructor; [done | by destruct (after i)] | done].
  - simpl. split; [constructor; [done | by rewrite Hph] | done].
Qed.

Lemma Run_spec ins : forall s, inv s -> let '(es, s') := Run s ins in
  inv s' /\ alternates (current s) (changes es) /\ default (current s) (last (changes es)) = current s'.
Proof.
  induction ins as [| i ins IH]; intros s Hs; [simpl; done |]. simpl. pose proof (step_spec s i Hs) as H1. destruct (step s i) as [es s1].
  destruct H1 as (Hs1 & Ha & Hl). specialize (IH s1 Hs1). destruct (Run s1 ins) as [es' s2]. destruct IH as (Hs2 & Ha' & Hl').
  split; [done |]. rewrite changes_app, alternates_app, last_app_default, Hl. done.
Qed.

Definition waits (es : list event) : list Z := omap (fun e => match e with ESleep d => Some d | _ => None end) es.

Lemma mapping_start_inv : inv start.
Proof. constructor; [unfold start; simpl; unfold Minute, Second; lia | done]. Qed.

(** whatever the router answers and whenever the node stops, every address
    reported differs from the one before, the last one reported is the one held
    and "none" once a search fails; a search holds the first mapping with an
    address of the internet, after giving back every other one it got, or waits
    between one minute and half an hour; and a node stopped while it holds a
    mapping gives it back. *)
Theorem Run_sound ins : let '(es, s) := Run start ins in
  alternates AddrPortZero (changes es) /\ default AddrPortZero (last (changes es)) = current s
  /\ forall i, let '(es', s') := step s i in
     match ph s with
     | Searching =>
       match ph s' with
       | Holding m ext life => current s' = ext /\ usable (ap_addr ext) = true /\ 0 < life
           /\ exists pre post life', answers i = pre ++ (m, Some (ext, life')) :: post /\ Forall (given_back es') pre
       | _ => current s' = AddrPortZero /\ Forall (given_back es') (answers i)
           /\ exists d, waits es' = [d] /\ Minute <= d <= 30 * Minute /\ (retry s = d /\ retry s' = Z.min (2 * d) (30 * Minute))
       end
     | Holding m ext life => current s = ext /\ (alive i = false -> ERemove m (ap_port ext) ∈ es' /\ ph s' = Stopped)
     | Stopped => es' = [] /\ s' = s
     end.
Proof.
  pose proof (Run_spec ins start mapping_start_inv) as H. destruct (Run start ins) as [es s]. destruct H as ([Hr Hc] & Ha & Hl).
  split; [exact Ha |]. split; [exact Hl |]. intros i. unfold step. destruct (ph s) as [| m ext life |] eqn:Hph; [| | done].
  - pose proof (establish_spec (answers i)) as He. destruct (establish (answers i)) as [es' [[[m ext] life] |]]; destruct He as [Hes He]; simpl.
    + destruct He as (pre & post & l' & Heq & Hu & Hlife & _ & Hpre). split_and!; try done. exists pre, post, l'. split; [done |].
      eapply given_back_mono; [| exact Hpre]. intros e Hin. apply elem_of_app. by left.
    + assert (Forall (given_back (es' ++ set AddrPortZero (current s) ++ [ESleep (retry s)])) (answers i)) as Hall.
      { eapply given_back_mono; [| exact He]. intros e Hin. apply elem_of_app. by left. }
      assert (waits (es' ++ set AddrPortZero (current s) ++ [ESleep (retry s)]) = [retry s]) as Hw.
      { unfold waits. rewrite !omap_app. assert (omap (fun e => match e with ESleep d => Some d | _ => None end) es' = []) as ->.
        { clear -Hes. induction Hes as [| [] es H _ IH]; try done. }
        unfold set. by case_bool_decide. }
      destruct (alive i); simpl; (split; [done |]; split; [done |]; exists (retry s); split; [done |]; split; [done |]; split; [done | f_equal; lia]).
  - destruct (alive i); simpl.
    + destruct (renewal i) as [[ext' life'] |]; done.
    + split; [done |]. intros _. split; [right; by left | done].
Qed.

(** Only the first mapping is checked: after a renewal any address is reported,
    and a granted lifetime of zero is renewed at once, again and again. *)
Theorem renewal_unchecked m ext life cur r ext' n :
  let again := MkInput [] true (Some (ext', 0)) true in
  let '(es, s) := Run (MkState cur r (Holding m ext life)) (again :: replicate n again) in
  s = MkState ext' r (Holding m ext' 0) /\ waits es = Z.quot life 2 :: replicate n 0 /\ (ext' <> cur -> EChange ext' ∈ es).
Proof.
  cbv zeta. set (again := MkInput [] true (Some (ext', 0)) true).
  assert (forall k, Run (MkState ext' r (Holding m ext' 0)) (replicate k again)
    = (concat (replicate k [ESleep 0; EAdd m]), MkState ext' r (Holding m ext' 0))) as Hrun.
  { induction k as [| k IH]; [done |]. simpl. unfold set. rewrite bool_decide_eq_true_2 by done. simpl. by rewrite IH. }
  assert (forall k, waits (concat (replicate k [ESleep 0; EAdd m])) = replicate k 0) as Hw by (induction k as [| k IH]; [done | simpl; by rewrite IH]).
  simpl. rewrite Hrun. split; [done |]. split.
  - simpl. f_equal. unfold waits in *. rewrite omap_app, Hw. unfold set. by case_bool_decide.
  - intros Hne. unfold set. rewrite bool_decide_eq_false_2 by done. simpl. right. right. by left.
Qed.

(** A node stopped during a renewal that fails for it leaves the mapping behind. *)
Theorem stop_during_renewal m ext life cur r :
  step (MkState cur r (Holding m ext life)) (MkInput [] true None false)
  = ([ESleep (Z.quot life 2); EAdd m], MkState cur r Stopped).
Proof. reflexivity. Qed.

(** ** A router behind another NAT, with a second protocol that works *)

Module example.

Definition inner : AddrPort := MkAddrPort (Addr4 (192 * 2 ^ 24 + 168 * 2 ^ 16 + 257)) 4790.
Definition outer : AddrPort := MkAddrPort (Addr4 (203 * 2 ^ 24 + 113 * 2 ^ 8 + 5)) 4790.
Definition found : input := MkInput [(0%nat, Some (inner, Lifetime)); (1%nat, Some (outer, 0))] true None true.
Definition stop : input := MkInput [] false None true.

Lemma Run_sound_witness :
  Run start [found] = ([EAdd 0%nat; ERemove 0%nat 4790; EAdd 1%nat; EChange outer], MkState outer Minute (Holding 1%nat outer Lifetime))
  /\ ERemove 1%nat 4790 ∈ (step (MkState outer Minute (Holding 1%nat outer Lifetime)) stop).1.
Proof.
  assert (Run start [found] = ([EAdd 0%nat; ERemove 0%nat 4790; EAdd 1%nat; EChange outer], MkState outer Minute (Holding 1%nat outer Lifetime))) as Hr by (vm_compute; reflexivity).
  split; [exact Hr |]. pose proof (Run_sound [found]) as H. rewrite Hr in H. destruct H as (_ & _ & H). specialize (H stop).
  destruct (step (MkState outer Minute (Holding 1%nat outer Lifetime)) stop) as [es s]. destruct H as [_ H]. by apply H.
Defined.

End example.

End portmap.
