(* ===== verification/Netcheck.v ===== *)
(** How the node is seen from the internet (internal/netcheck/netcheck.go): the
    servers' addresses, the kind of NAT from their answers.

    The resolver and the STUN exchanges are outside: their answers are arguments,
    in the order in which they arrive. *)
From stdpp Require Import base gmap list sorting strings.
From Stdlib Require Import ZArith Lia.
From S2P Require Import Prelude GoStrings Netip NetText.

Open Scope Z_scope.

Module netcheck.

Inductive NAT : Type := NATNone | NATCone | NATSymmetric | NATBlocked | NATUnknown.
Record Report := MkReport { r_NAT : NAT; Mapped : list AddrPort }.

Definition NAT_String (n : NAT) : bytes :=
  match n with
  | NATNone => str "none" | NATCone => str "cone" | NATSymmetric => str "symmetric" | NATBlocked => str "udp-blocked" | NATUnknown => str "unknown"
  end.

(** ** The servers' addresses *)

Definition resolve1 (lookup : bytes -> option (list Addr)) (s : bytes) : option AddrPort :=
  match ParseAddrPort s with
  | Some ap => Some ap
  | None =>
    '(host, port) ← SplitHostPort s;
    match lookup host with
    | Some (ip :: _) => ParseAddrPort (JoinHostPort (Addr_String (Unmap ip)) port)
    | _ => None
    end
  end.
Definition Resolve (lookup : bytes -> option (list Addr)) (servers : list bytes) : list AddrPort := omap (resolve1 lookup) servers.

(** ** The kind of NAT *)

(** netip.AddrPort.Compare: the length of the address, its value, its zone, the port. *)
Fixpoint bytes_cmp (a b : bytes) : comparison :=
  match a, b with
  | [], [] => Eq
  | [], _ => Lt
  | _, [] => Gt
  | x :: a, y :: b => match Z.compare x y with Eq => bytes_cmp a b | c => c end
  end.
Definition lex (c d : comparison) : comparison := match c with Eq => d | _ => c end.
Definition addr_value (a : Addr) : Z := match a with Addr4 v => v | Addr6 v _ => v | AddrZero => 0 end.
Definition Compare (a b : AddrPort) : comparison :=
  lex (BitLen (ap_addr a) ?= BitLen (ap_addr b))
    (lex (addr_value (ap_addr a) ?= addr_value (ap_addr b))
      (lex (bytes_cmp (Netip.Zone (ap_addr a)) (Netip.Zone (ap_addr b))) (ap_port a ?= ap_port b))).
Definition le (a b : AddrPort) : Prop := Compare a b <> Gt.
#[export] Instance le_dec a b : Decision (le a b).
Proof. unfold le. destruct (Compare a b); [left | left | right]; congruence. Defined.

(** The distinct addresses in the order of their first answers. *)
Fixpoint distinct (seen : list AddrPort) (l : list AddrPort) : list AddrPort :=
  match l with
  | [] => seen
  | a :: l => distinct (if bool_decide (a ∈ seen) then seen else seen ++ [a]) l
  end.

(** A server's answer. *)
Notation answer := (AddrPort * AddrPort)%type.

Definition Check (servers : list AddrPort) (localPort : Z) (localAddrs : list Addr) (answers : list answer) : Report :=
  match servers, answers with
  | [], _ => MkReport NATUnknown []
  | _, [] => MkReport NATBlocked []
  | _, (_, first) :: _ =>
    let mapped := merge_sort le (distinct [] answers.*2) in
    let nat :=
      if (ap_port first =? localPort) && bool_decide (ap_addr first ∈ localAddrs) then NATNone
      else if (1 <? length mapped)%nat then NATSymmetric
      else if (1 <? size (list_to_set answers.*1 : gset AddrPort))%nat then NATCone
      else NATUnknown in
    MkReport nat mapped
  end.

(** ** The order of addresses *)

Record cmp_ok {A} (f : A -> A -> comparison) : Prop := {
  cmp_eq a b : f a b = Eq <-> a = b;
  cmp_sym a b : f b a = CompOpp (f a b);
  cmp_trans a b c : f a b = Lt -> f b c = Lt -> f a c = Lt }.

Lemma Z_cmp_ok : cmp_ok Z.compare.
Proof.
  constructor; [apply Z.compare_eq_iff | apply Z.compare_antisym |]. intros a b c. rewrite !Z.compare_lt_iff. lia.
Qed.

Lemma bytes_cmp_ok : cmp_ok bytes_cmp.
Proof.
  constructor.
  - induction a as [| x a IH]; intros [| y b]; simpl; try done. destruct (Z.compare_spec x y) as [-> | |]; [rewrite IH; split; congruence | split; [done | intros [=]; lia]..].
  - induction a as [| x a IH]; intros [| y b]; simpl; try done. rewrite (Z.compare_antisym x y). destruct (x ?= y); simpl; [apply IH | done | done].
  - induction a as [| x a IH]; intros [| y b] [| z c]; simpl; try done.
    destruct (Z.compare_spec x y), (Z.compare_spec y z), (Z.compare_spec x z); try done; try lia. subst. apply IH.
Qed.

Definition pair_cmp {A B} (f : A -> A -> comparison) (g : B -> B -> comparison) (a b : A * B) : comparison := lex (f a.1 b.1) (g a.2 b.2).

Lemma pair_cmp_ok {A B} (f : A -> A -> comparison) (g : B -> B -> comparison) : cmp_ok f -> cmp_ok g -> cmp_ok (pair_cmp f g).
Proof.
  intros [fe fs ft] [ge gs gt]. constructor.
  - intros [a1 a2] [b1 b2]. unfold pair_cmp. simpl. destruct (f a1 b1) eqn:Hf; simpl.
    + apply fe in Hf as ->. rewrite ge. split; congruence.
    + split; [done |]. intros [= -> _]. rewrite (proj2 (fe b1 b1) eq_refl) in Hf. done.
    + split; [done |]. intros [= -> _]. rewrite (proj2 (fe b1 b1) eq_refl) in Hf. done.
  - intros [a1 a2] [b1 b2]. unfold pair_cmp. simpl. rewrite (fs a1 b1). destruct (f a1 b1); simpl; [apply gs | done | done].
  - intros [a1 a2] [b1 b2] [c1 c2]. unfold pair_cmp. simpl. destruct (f a1 b1) eqn:Hab; simpl; [| | done].
    + apply fe in Hab as ->. destruct (f b1 c1); simpl; [apply gt | done | done].
    + intros _. destruct (f b1 c1) eqn:Hbc; simpl; [| | done].
      * apply fe in Hbc as ->. by rewrite Hab.
      * by rewrite (ft _ _ _ Hab Hbc).
Qed.

Definition sort_key (a : AddrPort) : Z * (Z * (bytes * Z)) :=
  (BitLen (ap_addr a), (addr_value (ap_addr a), (Netip.Zone (ap_addr a), ap_port a))).

Lemma sort_key_inj a b : sort_key a = sort_key b -> a = b.
Proof. destruct a as [[| v | v z] p], b as [[| v' | v' z'] p']; intros [=]; simpl in *; congruence. Qed.

Lemma Compare_key : Compare = fun a b => pair_cmp Z.compare (pair_cmp Z.compare (pair_cmp bytes_cmp Z.compare)) (sort_key a) (sort_key b).
Proof. reflexivity. Qed.

Lemma Compare_ok : cmp_ok Compare.
Proof.
  rewrite Compare_key. pose proof (pair_cmp_ok _ _ Z_cmp_ok (pair_cmp_ok _ _ Z_cmp_ok (pair_cmp_ok _ _ bytes_cmp_ok Z_cmp_ok))) as [He Hs Ht].
  constructor.
  - intros a b. rewrite He. split; [apply sort_key_inj | by intros ->].
  - intros a b. apply Hs.
  - intros a b c. apply Ht.
Qed.

#[local] Instance le_trans : Transitive le.
Proof.
  unfold le. intros a b c Hab Hbc Hac. destruct Compare_ok as [He Hs Ht]. destruct (Compare a b) eqn:Eab; [| | done].
  - apply He in Eab as ->. done.
  - destruct (Compare b c) eqn:Ebc; [| | done].
    + apply He in Ebc as ->. congruence.
    + rewrite (Ht _ _ _ Eab Ebc) in Hac. done.
Qed.
#[local] Instance le_antisymm : AntiSymm (=) le.
Proof.
  unfold le. intros a b Hab Hba. destruct Compare_ok as [He Hs _]. apply He. rewrite Hs in Hba. by destruct (Compare a b).
Qed.
#[local] Instance le_total : Total le.
Proof.
  unfold le. intros a b. destruct Compare_ok as [_ Hs _]. rewrite (Hs a b). destruct (Compare a b); [by left | by left | by right].
Qed.

(** ** The report *)

Lemma distinct_spec l : forall seen, NoDup seen ->
  NoDup (distinct seen l) /\ forall a, a ∈ distinct seen l <-> a ∈ seen \/ a ∈ l.
Proof.
  induction l as [| b l IH]; intros seen Hs; simpl.
  - split; [done |]. intros a. rewrite elem_of_nil. tauto.
  - case_bool_decide as Hb.
    + destruct (IH seen Hs) as [H1 H2]. split; [done |]. intros a. rewrite H2, elem_of_cons. split; [tauto |]. intros [? | [-> | ?]]; tauto.
    + destruct (IH (seen ++ [b])) as [H1 H2].
      { apply NoDup_app. split_and!; [done | | apply NoDup_singleton]. intros x Hx ->%list_elem_of_singleton. done. }
      split; [done |]. intros a. rewrite H2, elem_of_app, list_elem_of_singleton, elem_of_cons. tauto.
Qed.

Definition mapped_of (answers : list answer) : list AddrPort := merge_sort le (distinct [] answers.*2).

Lemma mapped_spec answers : NoDup (mapped_of answers) /\ Sorted le (mapped_of answers) /\ forall a, a ∈ mapped_of answers <-> a ∈ answers.*2.
Proof.
  destruct (distinct_spec answers.*2 [] (NoDup_nil_2)) as [H1 H2]. unfold mapped_of. split_and!.
  - by rewrite merge_sort_Permutation.
  - apply Sorted_merge_sort, _.
  - intros a. rewrite merge_sort_Permutation, H2, elem_of_nil. tauto.
Qed.

Lemma mapped_perm answers answers' : answers ≡ₚ answers' -> mapped_of answers = mapped_of answers'.
Proof.
  intros Hp. destruct (mapped_spec answers) as (N1 & S1 & E1), (mapped_spec answers') as (N2 & S2 & E2).
  apply (Sorted_unique le); [done | done |]. apply NoDup_Permutation; [done | done |]. intros a. by rewrite E1, E2, Hp.
Qed.

Definition is_local (localPort : Z) (localAddrs : list Addr) (a : AddrPort) : bool :=
  (ap_port a =? localPort) && bool_decide (ap_addr a ∈ localAddrs).

Lemma two_members (X : list AddrPort) : NoDup X -> (1 < length X)%nat <-> exists a b, a ∈ X /\ b ∈ X /\ a <> b.
Proof.
  intros HX. split.
  - destruct X as [| a [| b X]]; simpl; [lia.. |]. intros _. exists a, b. apply NoDup_cons in HX as [Hn _].
    split_and!; [by left | by right; left | intros ->; apply Hn; by left].
  - intros (a & b & Ha & Hb & Hne). destruct X as [| c [| d X]]; simpl; [set_solver | set_solver | lia].
Qed.

Lemma two_distinct (X : list AddrPort) : (1 < size (list_to_set X : gset AddrPort))%nat <-> exists a b, a ∈ X /\ b ∈ X /\ a <> b.
Proof.
  unfold size, set_size. simpl. rewrite (two_members _ (NoDup_elements _)). split; intros (a & b & Ha & Hb & Hne); exists a, b; set_solver.
Qed.

Lemma Check_cons servers p addrs f l : servers <> [] -> Check servers p addrs (f :: l) = MkReport
  (if is_local p addrs f.2 then NATNone else if (1 <? length (mapped_of (f :: l)))%nat then NATSymmetric
   else if (1 <? size (list_to_set (f :: l).*1 : gset AddrPort))%nat then NATCone else NATUnknown) (mapped_of (f :: l)).
Proof. destruct f as [fs fm], servers; [done | reflexivity]. Qed.

(** the addresses reported are exactly the distinct ones the servers saw, in
    order; a node that sees answers is behind no NAT if the first one names an
    address of its own, else behind a symmetric NAT iff the servers saw
    different addresses, else behind a cone NAT iff two servers answered; and
    the order of the answers does not matter as long as all of them, or none,
    name an address of the node. *)
Theorem report_spec servers p addrs first answers : servers <> [] ->
  let answers' := first :: answers in
  let r := Check servers p addrs answers' in
  (forall a, a ∈ Mapped r <-> a ∈ answers'.*2) /\ NoDup (Mapped r) /\ Sorted le (Mapped r)
  /\ (r_NAT r = NATNone <-> is_local p addrs first.2 = true)
  /\ (r_NAT r = NATSymmetric <-> is_local p addrs first.2 = false /\ exists a b, a ∈ answers'.*2 /\ b ∈ answers'.*2 /\ a <> b)
  /\ (r_NAT r = NATCone <-> is_local p addrs first.2 = false /\ (forall a b, a ∈ answers'.*2 -> b ∈ answers'.*2 -> a = b)
        /\ exists a b, a ∈ answers'.*1 /\ b ∈ answers'.*1 /\ a <> b)
  /\ (forall permuted, answers' ≡ₚ permuted ->
      (forall a b, a ∈ answers'.*2 -> b ∈ answers'.*2 -> is_local p addrs a = is_local p addrs b) ->
      Check servers p addrs permuted = r).
Proof.
  intros Hs. cbv zeta. rewrite !Check_cons by done. cbn [r_NAT Mapped].
  destruct (mapped_spec (first :: answers)) as (Hnd & Hsorted & Hin).
  assert ((1 < length (mapped_of (first :: answers)))%nat <-> exists a b, a ∈ (first :: answers).*2 /\ b ∈ (first :: answers).*2 /\ a <> b) as Hsym.
  { rewrite (two_members _ Hnd). by setoid_rewrite Hin. }
  pose proof (two_distinct (first :: answers).*1) as Hcone.
  assert ((forall a b, a ∈ (first :: answers).*2 -> b ∈ (first :: answers).*2 -> a = b) <-> ~ (1 < length (mapped_of (first :: answers)))%nat) as Hall.
  { rewrite Hsym. split; [intros H (a & b & Ha & Hb & Hne); by apply Hne, H |]. intros H a b Ha Hb. destruct (decide (a = b)); [done |]. exfalso. apply H. by exists a, b. }
  rewrite <- Hsym, Hall, <- Hcone. split_and!; [exact Hin | exact Hnd | exact Hsorted | | | |].
  1-3: destruct (is_local p addrs first.2), (Nat.ltb_spec 1 (length (mapped_of (first :: answers)))),
    (Nat.ltb_spec 1 (size (list_to_set (first :: answers).*1 : gset AddrPort))); split; intros; try done; try (split_and!; (done || lia)); try (exfalso; lia); destruct_and?; done || lia.
  intros permuted Hp Hsame. destruct permuted as [| f l]; [by apply Permutation_nil_r in Hp |].
  rewrite Check_cons by done. rewrite <- (mapped_perm _ _ Hp). f_equal. assert (is_local p addrs f.2 = is_local p addrs first.2) as ->.
  { apply Hsame; [| by left]. assert ((f :: l).*2 ≡ₚ (first :: answers).*2) as <- by (by apply fmap_Permutation). by left. }
  assert (list_to_set (f :: l).*1 = (list_to_set (first :: answers).*1 : gset AddrPort)) as ->; [| done].
  assert ((f :: l).*1 ≡ₚ (first :: answers).*1) as Hp1 by (by apply fmap_Permutation). apply set_eq. intros x. rewrite !elem_of_list_to_set. by rewrite Hp1.
Qed.

(** The order does matter when a server sees the node's own address and another
    one does not: a server in the same network that answers first hides the NAT. *)
Theorem first_answer_decides : let local := MkAddrPort (Addr4 (192 * 2 ^ 24 + 168 * 2 ^ 16 + 2)) 4790 in
  let outside := MkAddrPort (Addr4 (203 * 2 ^ 24 + 113 * 2 ^ 8 + 5)) 4790 in
  let check := Check [AddrPortZero] 4790 [ap_addr local] in
  r_NAT (check [(AddrPortZero, local); (outside, outside)]) = NATNone
  /\ r_NAT (check [(outside, outside); (AddrPortZero, local)]) = NATSymmetric.
Proof. vm_compute. done. Qed.

Lemma report_spec_witness : let a := MkAddrPort (Addr4 (203 * 2 ^ 24 + 113 * 2 ^ 8 + 5)) 4790 in
  let s1 := MkAddrPort (Addr4 16843009) 3478 in let s2 := MkAddrPort (Addr4 134744072) 3478 in
  r_NAT (Check [s1; s2] 4790 [] [(s1, a); (s2, a)]) = NATCone.
Proof.
  cbv zeta. set (s1 := MkAddrPort (Addr4 16843009) 3478). set (s2 := MkAddrPort (Addr4 134744072) 3478).
  set (a := MkAddrPort (Addr4 (203 * 2 ^ 24 + 113 * 2 ^ 8 + 5)) 4790).
  destruct (report_spec [s1; s2] 4790 [] (s1, a) [(s2, a)] ltac:(done)) as (_ & _ & _ & _ & _ & Hc & _). apply Hc. split; [reflexivity |]. split.
  - intros x y Hx Hy. simpl in Hx, Hy. rewrite !elem_of_cons, elem_of_nil in Hx, Hy. destruct Hx as [-> | [-> | []]], Hy as [-> | [-> | []]]; reflexivity.
  - exists s1, s2. split; [by left |]. split; [by right; left | by unfold s1, s2].
Defined.

End netcheck.
