(* ===== verification/Gossip.v ===== *)
(** What the members of a room tell each other inside it (internal/node/gossip.go,
    cards.go, status.go): announcements of the newest signed configuration,
    requests for it, for cards and for the signing key, and whom to tell.

    The sockets of the room and the JSON texts are outside: a datagram, the bytes
    of a connection; [encoding/json] is a class. *)
From stdpp Require Import base gmap list strings.
From Stdlib Require Import ZArith Lia.
From S2P Require Import Prelude GoStrings NetText GoText Netip Acl AclFilter Crypto Encoding Obfs Identity Pki RelayProto Magicsock Store Controller DiscoMgr Config Names NodeState LocalSync Node NodeInv Dns.

Open Scope Z_scope.

Module gossip.
Import localsync.

Definition gossipEvery : Z := 20 * Second.
Definition gossipRepeat : Z := 2 * Second.
Definition gossipMaxSize : Z := 4 * 2 ^ 20.
Definition cardsEvery : Z := 60 * Second.

Class CardsJson := {
  marshal_cards : list peerCard -> bytes; unmarshal_cards : bytes -> option (list peerCard);
  decode_cards : bytes -> option (list peerCard);    (* the first value of a stream *)
  marshal_signed : pki.Signed -> bytes; unmarshal_signed : bytes -> option pki.Signed }.

(** ** Announcements *)

Definition announce (roomID : bytes) (v : Z) : bytes := str "zptg1 " ++ roomID ++ 32 :: Itoa v.

(** The loop of [gossipAnnounce]: the wait after an announcement with [repeat]
    quick ones left, and what a kick leaves. *)
Definition next_wait (repeat : nat) : Z * nat :=
  match repeat with S k => (gossipRepeat, k) | O => (gossipEvery, O) end.
(** [kicked]: does a kick end the wait? *)
Fixpoint waits (repeat : nat) (kicked : list bool) : list Z :=
  match kicked with
  | [] => []
  | k :: kicked => let '(d, repeat) := next_wait repeat in d :: waits (if k : bool then 3%nat else repeat) kicked
  end.

(** [gossipListen]: does a datagram make the node fetch the configuration? *)
Definition hear (roomID : bytes) (version : Z) (fetching : bool) (datagram : bytes) : bool :=
  match Fields (take 256 datagram) with
  | [w; id; v] =>
    if bool_decide (w = str "zptg1") && bool_decide (id = roomID) then
      match ParseInt v with Some v => (version <? v) && negb fetching | None => false end
    else false
  | _ => false
  end.

(** ** Requests *)

(** [bufio.Reader.ReadString('\n')] of at most [limit] bytes: the line with its
    end, and the rest. *)
Definition ReadString (limit : Z) (s : bytes) : option (bytes * bytes) :=
  let s := take (Z.to_nat limit) s in
  let i := IndexByte s 10 in
  if i <? 0 then None else Some (take (Z.to_nat (i + 1)) s, drop (Z.to_nat (i + 1)) s).

Inductive asked : Type := ACards | AKey | AGet.

(** [gossipServe]: what is asked, and the rest of the stream. *)
Definition request_of (roomID s : bytes) : option (asked * bytes) :=
  '(line, rest) ← ReadString gossipMaxSize s;
  if 256 <? zlen line then None
  else
    let l := TrimSpace line in
    if bool_decide (l = str "CARDS " ++ roomID) then Some (ACards, rest)
    else if bool_decide (l = str "KEY " ++ roomID) then Some (AKey, rest)
    else if bool_decide (l = str "GET " ++ roomID) then Some (AGet, rest)
    else None.

Section Json.
Context `{CJ : CardsJson}.

Definition get_request (roomID : bytes) : bytes := str "GET " ++ roomID ++ [10].
Definition serve_get (signed : option pki.Signed) : bytes :=
  match signed with Some s => marshal_signed s ++ [10] | None => [] end.
(** What [gossipFetch] makes of the answer. *)
Definition read_answer (s : bytes) : option pki.Signed := unmarshal_signed (take (Z.to_nat gossipMaxSize) s).

(** ** Cards *)

Definition cards_request (roomID : bytes) (cs : list peerCard) : bytes := str "CARDS " ++ roomID ++ 10 :: marshal_cards cs ++ [10].

Section Cards.
Context `{CR : Crypto}.
(** The cards of a node in a room: its own, the members, those it knows. *)
Record side := MkSide { s_me : bytes; s_mine : option peerCard; s_members : gset bytes; s_known : cards }.

(** [cardsFor]; the order of the known ones is that of a loop over a map. *)
Definition given (order : list peerCard -> list peerCard) (now : Z) (s : side) : list peerCard :=
  cardsFor (s_mine s) (s_members s) now (order (map snd (map_to_list (s_known s)))).
Definition merge (roomID : bytes) (now : Z) (s : side) (cs : list peerCard) : side :=
  MkSide (s_me s) (s_mine s) (s_members s) (mergeCards (s_me s) roomID (s_members s) now (s_known s) cs).1.

(** [serveCards]: the answer, and the cards afterwards. *)
Definition serveCards (order : list peerCard -> list peerCard) (roomID : bytes) (now : Z) (s : side) (rest : bytes) : bytes * side :=
  match ReadString gossipMaxSize rest with
  | None => ([], s)
  | Some (line, _) =>
    match unmarshal_cards line with
    | None => ([], s)
    | Some got => (marshal_cards (given order now s) ++ [10], merge roomID now s got)
    end
  end.
(** [swapCards]: what is made of the answer. *)
Definition take_cards (roomID : bytes) (now : Z) (s : side) (answer : bytes) : side :=
  match decode_cards (take (Z.to_nat gossipMaxSize) answer) with Some got => merge roomID now s got | None => s end.

End Cards.
End Json.

(** ** The status of the device *)

Record uapiPeer := MkUapiPeer { u_endpoint : bytes; u_handshake : Z (* seconds; 0: none *); u_rx : Z; u_tx : Z }.
Definition uapiPeer0 : uapiPeer := MkUapiPeer [] 0 0 0.

(** [hex.DecodeString] *)
Fixpoint hex_decode (s : bytes) : option bytes :=
  match s with
  | [] => Some []
  | a :: b :: s => h ← hex_digit a; l ← hex_digit b; r ← hex_decode s; Some (h * 16 + l :: r)
  | _ => None
  end.

(** [strconv.ParseUint(v, 10, 64)] with the value beside an error. *)
Definition uint64_of (s : bytes) : Z :=
  match ParseUint 64 s with Some n => n | None => if overflows 0 s then 2 ^ 64 - 1 else 0 end.

(** The loop of [parseUAPI]: the peers so far, the current key, its fields. *)
Definition flush (s : gmap bytes uapiPeer * option bytes * uapiPeer) : gmap bytes uapiPeer :=
  let '(out, cur, p) := s in match cur with Some k => <[k := p]> out | None => out end.
Definition uapi_line (s : gmap bytes uapiPeer * option bytes * uapiPeer) (line : bytes) : gmap bytes uapiPeer * option bytes * uapiPeer :=
  let '(out, cur, p) := s in
  let '(k, v, ok) := Cut 61 line in
  if negb ok then s
  else if bool_decide (k = str "public_key") then
    match hex_decode v with
    | Some b => if zlen b =? 32 then (flush s, Some b, uapiPeer0) else (flush s, None, p)
    | None => (flush s, None, p)
    end
  else if bool_decide (k = str "endpoint") then (out, cur, MkUapiPeer v (u_handshake p) (u_rx p) (u_tx p))
  else if bool_decide (k = str "last_handshake_time_sec") then (out, cur, MkUapiPeer (u_endpoint p) (Atoi v).1 (u_rx p) (u_tx p))
  else if bool_decide (k = str "rx_bytes") then (out, cur, MkUapiPeer (u_endpoint p) (u_handshake p) (uint64_of v) (u_tx p))
  else if bool_decide (k = str "tx_bytes") then (out, cur, MkUapiPeer (u_endpoint p) (u_handshake p) (u_rx p) (uint64_of v))
  else s.
Definition parseUAPI (text : bytes) : gmap bytes uapiPeer :=
  flush (fold_left uapi_line (map dns.drop_cr (dns.short_lines (dns.raw_lines text))) (∅, None, uapiPeer0)).

(** ** Whom to tell *)

(** [peerAddrs]: the members with a session in the last three minutes. *)
Definition peerAddrs (ps : list config.Peer) (subnet : Prefix) (stats : gmap bytes uapiPeer) (now : Z) : list Addr :=
  flat_map (fun p =>
    match stats !! config.PublicKey p with
    | Some st =>
      if (u_handshake st <=? 0) || (3 * Minute <? time_sub now (unix_time (u_handshake st))) then []
      else map pfx_ip (List.filter (fun a => (pfx_bits a =? 32) && Contains subnet (pfx_ip a)) (config.AllowedIPs p))
    | None => []
    end) ps.

(** One turn of [gossipAnnounce]: the datagrams to port [GossipPort] of the
    members with a session. [stats] is what the device of the room reports. *)
Definition announce_turn (n : node.Node) (roomID : bytes) (stats : gmap bytes uapiPeer) (now : Z) : list (Addr * bytes) :=
  let msg := announce roomID (default 0 (node.versions n !! roomID)) in
  match node.rooms n !! roomID with
  | Some r =>
    map (fun a => (a, msg)) (peerAddrs (config.Peers (node.cfg r)) (Masked (config.Address (node.cfg r))) stats now)
  | None => []
  end.

(** [gossipServe] on a connection that asks for the configuration; the other
    requests are [serveCards] and the handing over of the key. *)
Definition gossipServe `{CJ : CardsJson} (n : node.Node) (roomID stream : bytes) : option bytes :=
  match request_of roomID stream with
  | Some (AGet, _) => Some (serve_get (node.signed n !! roomID))
  | _ => None
  end.

(** [gossipFetch] with the answer to its request; an answer that is not a
    document is an error. *)
Definition gossipFetch `{CJ : CardsJson} `{CR : Crypto} `{J : pki.Json} (env : node.Env) (n : node.Node) (roomID answer : bytes)
    (st : option nodestate.State) (o : node.Orders) : res node.error (list node.action * node.Node) :=
  match read_answer answer with
  | Some doc => node.applyGossip env n roomID doc st o
  | None => Ok ([], n)
  end.

(** [json.Unmarshal] of what [json.Encoder] writes for a document. *)
Class CardsJsonLaws (CJ : CardsJson) := {
  unmarshal_marshal_signed s : unmarshal_signed (marshal_signed s ++ [10]) = Some s }.

(** A member that is told: a peer with an address of its own in the room and a
    session that is not old. *)
Definition reached (r : config.Room) (stats : gmap bytes uapiPeer) (now : Z) (a : Addr) : Prop :=
  exists p st pfx, p ∈ config.Peers r /\ stats !! config.PublicKey p = Some st /\ 0 < u_handshake st
    /\ time_sub now (unix_time (u_handshake st)) <= 3 * Minute
    /\ pfx ∈ config.AllowedIPs p /\ pfx_bits pfx = 32 /\ Contains (Masked (config.Address r)) (pfx_ip pfx) = true /\ a = pfx_ip pfx.

Lemma peerAddrs_spec r stats now a : a ∈ peerAddrs (config.Peers r) (Masked (config.Address r)) stats now <-> reached r stats now a.
Proof.
  rewrite list_elem_of_In. unfold peerAddrs, reached. rewrite in_flat_map. split.
  - intros (p & Hp%list_elem_of_In & H). destruct (stats !! config.PublicKey p) as [st |] eqn:Hst; [| done].
    destruct (_ || _) eqn:Hb; [done |]. apply orb_false_iff in Hb as [H1%Z.leb_gt H2%Z.ltb_ge].
    apply in_map_iff in H as (pfx & <- & [Hin%list_elem_of_In Hf]%filter_In). apply andb_prop in Hf as [H3%Z.eqb_eq H4].
    exists p, st, pfx. by split_and!.
  - intros (p & st & pfx & Hp & Hst & H1 & H2 & Hin & H3 & H4 & ->). exists p. split; [by apply list_elem_of_In |].
    rewrite Hst, (proj2 (Z.leb_gt _ _)), (proj2 (Z.ltb_ge _ _)) by done. cbn [orb]. apply in_map, filter_In.
    split; [by apply list_elem_of_In |]. by rewrite (proj2 (Z.eqb_eq _ _)), H4.
Qed.

Lemma announce_turn_spec n id r stats now : node.rooms n !! id = Some r -> forall a d,
  (a, d) ∈ announce_turn n id stats now <-> reached (node.cfg r) stats now a /\ d = announce id (default 0 (node.versions n !! id)).
Proof.
  intros Hr a d. unfold announce_turn. rewrite Hr, list_elem_of_In, in_map_iff, <- peerAddrs_spec. split.
  - intros (x & [= <- <-] & Hx%list_elem_of_In). done.
  - intros [Hx ->]. exists a. split; [done | by apply list_elem_of_In].
Qed.

(** ** Announcements are heard *)

Lemma no_space_Itoa v : no_space (Itoa v).
Proof.
  apply graph_no_space. unfold Itoa. destruct (Z.ltb_spec v 0).
  - simpl. apply digits_graph, Utoa_digits. lia.
  - apply digits_graph, Utoa_digits. lia.
Qed.

Lemma zlen_Itoa v : - 2 ^ 63 <= v < 2 ^ 63 -> zlen (Itoa v) <= 65.
Proof.
  intros Hv. unfold Itoa. destruct (Z.ltb_spec v 0); [rewrite zlen_cons; pose proof (zlen_Utoa (- v)) | pose proof (zlen_Utoa v)]; lia.
Qed.

(** Room IDs: printable, without blanks. *)
Definition id_ok (id : bytes) : Prop := forallb graph id = true /\ id <> [] /\ zlen id <= 128.

Lemma announce_fields id v : id_ok id -> - 2 ^ 63 <= v < 2 ^ 63 -> Fields (take 256 (announce id v)) = [str "zptg1"; id; Itoa v].
Proof.
  intros (Hg & Hne & Hlen) Hv. rewrite take_ge.
  2: { pose proof (zlen_Itoa v Hv) as H. unfold announce. rewrite !length_app. cbn [length]. change (length (str "zptg1 ")) with 6%nat. unfold zlen in *. lia. }
  change (announce id v) with (Join 32 [str "zptg1"; id; Itoa v]). apply Fields_Join. repeat constructor.
  - apply graph_no_space. reflexivity.
  - discriminate.
  - by apply graph_no_space.
  - done.
  - apply no_space_Itoa.
  - unfold Itoa. destruct (v <? 0); [done | apply Utoa_not_nil].
Qed.

Lemma hear_announce id id' v version fetching : id_ok id -> - 2 ^ 63 <= v < 2 ^ 63 ->
  hear id' version fetching (announce id v) = bool_decide (id = id') && (version <? v) && negb fetching.
Proof.
  intros Hid Hv. unfold hear. rewrite announce_fields by done. rewrite (bool_decide_eq_true_2 (str "zptg1" = str "zptg1")) by done.
  rewrite ParseInt_Itoa by done. cbn [andb]. by case_bool_decide.
Qed.

(** ** Requests are understood *)

Lemma TrimRightSpace_newline s : TrimRightSpace (s ++ [10]) = TrimRightSpace s.
Proof. unfold TrimRightSpace. by rewrite rev_app_distr. Qed.

Lemma ReadString_line limit line rest : 10 ∉ line -> zlen line < limit -> ReadString limit (line ++ 10 :: rest)
  = Some (line ++ [10], take (Z.to_nat (limit - zlen line - 1)) rest).
Proof.
  intros Hl Hlim. unfold ReadString. pose proof (zlen_nonneg line) as H0.
  assert (take (Z.to_nat limit) (line ++ 10 :: rest) = line ++ 10 :: take (Z.to_nat (limit - zlen line - 1)) rest) as ->.
  { rewrite take_app_ge by (unfold zlen in *; lia). f_equal.
    replace (Z.to_nat limit - length line)%nat with (S (Z.to_nat (limit - zlen line - 1))) by (unfold zlen in *; lia). done. }
  rewrite IndexByte_app by done.
  rewrite (proj2 (Z.ltb_ge _ _)) by lia. replace (Z.to_nat (zlen line + 1)) with (length (line ++ [10])) by (rewrite length_app; unfold zlen; simpl; lia).
  generalize (take (Z.to_nat (limit - zlen line - 1)) rest). intros t. assert (line ++ 10 :: t = (line ++ [10]) ++ t) as -> by by rewrite <- app_assoc.
  by rewrite take_app_length, drop_app_length.
Qed.

(** [word id] on a line of its own. *)
Lemma request_line word id : forallb graph word = true -> word <> [] -> id_ok id -> TrimSpace ((word ++ 32 :: id) ++ [10]) = word ++ 32 :: id.
Proof.
  intros Hw Hne (Hg & Hid & _). unfold TrimSpace. destruct word as [| c word]; [done |]. simpl in Hw. apply andb_prop in Hw as [Hc _].
  rewrite TrimLeftSpace_id by (by apply space_len_graph). rewrite TrimRightSpace_newline.
  apply TrimRightSpace_word; [by apply graph_no_space | done].
Qed.

Lemma graph_no_newline id : forallb graph id = true -> 10 ∉ id.
Proof. intros H Hin. apply list_elem_of_In in Hin. rewrite forallb_forall in H. by specialize (H 10 Hin). Qed.

Lemma request_of_spec id word (Hid : id_ok id) (Hw : word = str "GET" \/ word = str "CARDS" \/ word = str "KEY") rest :
  request_of id (word ++ 32 :: id ++ 10 :: rest) =
    Some (if bool_decide (word = str "GET") then AGet else if bool_decide (word = str "CARDS") then ACards else AKey,
          take (Z.to_nat (gossipMaxSize - zlen (word ++ 32 :: id) - 1)) rest).
Proof.
  assert (forallb graph word = true /\ word <> [] /\ 10 ∉ word /\ zlen word <= 5) as (Hgw & Hne & Hnl & Hl5).
  { destruct Hw as [-> | [-> | ->]]; (split_and!; [reflexivity | discriminate | | vm_compute; congruence]); apply graph_no_newline; reflexivity. }
  destruct Hid as (Hg & Hidn & Hlen). unfold request_of.
  change (word ++ 32 :: id ++ 10 :: rest) with (word ++ (32 :: id) ++ 10 :: rest). rewrite app_assoc.
  assert (zlen (word ++ 32 :: id) <= 200) as Hsmall by (rewrite zlen_app, zlen_cons; lia).
  rewrite ReadString_line; [| | unfold gossipMaxSize; lia].
  2: { rewrite not_elem_of_app, not_elem_of_cons. split_and!; [done | done | by apply graph_no_newline]. }
  cbn [mbind option_bind]. rewrite (proj2 (Z.ltb_ge 256 _)) by (rewrite zlen_app; change (zlen [10]) with 1; lia).
  rewrite request_line by done.
  change (str "CARDS ") with [67; 65; 82; 68; 83; 32]. change (str "KEY ") with [75; 69; 89; 32]. change (str "GET ") with [71; 69; 84; 32].
  change (str "CARDS") with [67; 65; 82; 68; 83] in *. change (str "KEY") with [75; 69; 89] in *. change (str "GET") with [71; 69; 84] in *.
  clear Hne Hnl Hl5 Hgw Hsmall. destruct Hw as [-> | [-> | ->]]; cbn [app].
  - rewrite (bool_decide_eq_false_2 (_ = 67 :: _)), (bool_decide_eq_false_2 (_ = 75 :: _)), !bool_decide_eq_true_2 by (intros [=] || reflexivity). done.
  - rewrite (bool_decide_eq_true_2 (67 :: 65 :: 82 :: 68 :: 83 :: 32 :: id = _)) by reflexivity.
    rewrite (bool_decide_eq_false_2 (_ = [71; 69; 84])), bool_decide_eq_true_2 by (intros [=] || reflexivity). done.
  - rewrite (bool_decide_eq_false_2 (_ = 67 :: _ :: _ :: _ :: _ :: 32 :: id)) by (intros [=]).
    rewrite (bool_decide_eq_true_2 (75 :: 69 :: 89 :: 32 :: id = _)) by reflexivity.
    rewrite (bool_decide_eq_false_2 (_ = [71; 69; 84])), bool_decide_eq_false_2 by (intros [=]). done.
Qed.

(** ** A newer configuration spreads *)

Section Spread.
Context `{CR : Crypto} `{J : pki.Json} (Pinned : bytes -> bytes -> bytes -> Prop)
  (Joined : bytes -> nodestate.LocalJoin -> Prop) (sd : bytes).
Import node nodeinv.

(** What an accepted document changes: its room's version; and it is announced. *)
Lemma accepted env n key rs doc nm active exit c : verifies key doc c -> pki.RoomID c = controller.rs_RoomID rs ->
  default 0 (versions n !! controller.rs_RoomID rs) < pki.Version c ->
  exists acts n' active' r, roomFromConfig env n key rs doc nm active exit = Ok (acts, n', active', r)
    /\ versions n' = <[controller.rs_RoomID rs := pki.Version c]> (versions n) /\ KickGossip (controller.rs_RoomID rs) ∈ acts.
Proof.
  intros (pub & Hk & Hv) Hid Hlt. unfold roomFromConfig. rewrite Hk. cbn [map_err mbind res_bind]. rewrite Hv. cbn [map_err mbind res_bind].
  rewrite bool_decide_eq_true_2 by done. cbn [negb]. rewrite (proj2 (Z.ltb_ge _ _)) by lia. rewrite (proj2 (Z.ltb_lt _ _)) by lia. cbn [orb].
  destruct (fold_left _ _ _) as [[r active'] found]. eexists _, _, _, _. split; [reflexivity |]. split; [done | by left].
Qed.

(** The maps of other rooms do not touch a room's version. *)
Lemma desire_other env url st nm id : forall rss n d active, id ∉ map controller.rs_RoomID rss ->
  match desire env n url st nm rss d active with
  | Ok (acts, n', d', active') => versions n' !! id = versions n !! id
  | _ => True
  end.
Proof.
  induction rss as [| rs rss IH]; intros n d active Hid; [done |]. apply not_elem_of_cons in Hid as [Hne Hid]. cbn [desire].
  destruct (nodestate.RoomKey_of st url (controller.rs_RoomID rs)) as [key |]; [| by apply IH].
  destruct (nodestate.IsOff st (controller.rs_RoomID rs)); [by apply IH |]. case_bool_decide; [| by apply (IH (set_pending _ n))].
  destruct (controller.Config rs) as [doc |]; [| destruct (HasPrefix _ _); [by apply IH | by apply (IH (set_pending _ n))]].
  set (n0 := set_pending (delete (controller.rs_RoomID rs) (pending n)) n).
  pose proof (roomFromConfig_ok env n0 key rs doc nm active (nodestate.Exit st)) as Hr. cbv zeta in Hr.
  destruct (roomFromConfig env n0 key rs doc nm active (nodestate.Exit st)) as [[[[acts n1] active1] r] | e |]; [| by apply (IH n0) | done].
  destruct Hr as (c & _ & _ & _ & -> & _).
  match goal with |- context [desire env ?m url st nm rss ?dd ?a] => specialize (IH m dd a Hid); destruct (desire env m url st nm rss dd a) as [[[[acts' n2] d2] active2] | |] end; try done.
  cbn [mbind res_bind]. rewrite IH. simpl. by rewrite lookup_insert_ne.
Qed.

Lemma desire_accepts env url st nm key doc c rs : nodestate.RoomKey_of st url (controller.rs_RoomID rs) = Some key ->
  nodestate.IsOff st (controller.rs_RoomID rs) = false -> controller.rs_Status rs = str "active" -> controller.Config rs = Some doc ->
  verifies key doc c -> pki.RoomID c = controller.rs_RoomID rs ->
  forall rss n d active, rs ∈ rss -> NoDup (map controller.rs_RoomID rss) ->
  default 0 (versions n !! controller.rs_RoomID rs) < pki.Version c ->
  match desire env n url st nm rss d active with
  | Ok (acts, n', d', active') => versions n' !! controller.rs_RoomID rs = Some (pki.Version c) /\ KickGossip (controller.rs_RoomID rs) ∈ acts
  | _ => True
  end.
Proof.
  intros Hkey Hoff Hact Hdoc Hver Hid. induction rss as [| rs' rss IH]; intros n d active Hin Hnd Hlt; [by apply elem_of_nil in Hin |].
  apply NoDup_cons in Hnd as [Hnot Hnd]. apply elem_of_cons in Hin as [<- | Hin].
  - cbn [desire]. rewrite Hkey, Hoff, bool_decide_eq_true_2, Hdoc by done.
    set (n0 := set_pending (delete (controller.rs_RoomID rs) (pending n)) n).
    destruct (accepted env n0 key rs doc nm active (nodestate.Exit st) c Hver Hid Hlt) as (acts & n1 & active1 & r & -> & Hv & Hk).
    pose proof (desire_other env url st nm (controller.rs_RoomID rs) rss n1 (match r with Some r => <[controller.rs_RoomID rs := r]> d | None => d end) active1 Hnot) as Ho.
    destruct (desire env n1 _ _ _ _ _ _) as [[[[acts' n2] d2] active2] | |]; [| done | done]. cbn [mbind res_bind]. rewrite Ho, Hv. split; [apply lookup_insert_eq |].
    apply elem_of_app. by left.
  - assert (controller.rs_RoomID rs <> controller.rs_RoomID rs') as Hne.
    { intros Heq. apply Hnot. rewrite <- Heq. by apply list_elem_of_In, in_map, list_elem_of_In. }
    cbn [desire]. destruct (nodestate.RoomKey_of st url (controller.rs_RoomID rs')) as [key' |]; [| by apply IH].
    destruct (nodestate.IsOff st (controller.rs_RoomID rs')); [by apply IH |]. case_bool_decide; [| by apply (IH (set_pending _ n))].
    destruct (controller.Config rs') as [doc' |]; [| destruct (HasPrefix _ _); [by apply IH | by apply (IH (set_pending _ n))]].
    set (n0 := set_pending (delete (controller.rs_RoomID rs') (pending n)) n).
    pose proof (roomFromConfig_ok env n0 key' rs' doc' nm active (nodestate.Exit st)) as Hr. cbv zeta in Hr.
    destruct (roomFromConfig env n0 key' rs' doc' nm active (nodestate.Exit st)) as [[[[acts n1] active1] r] | e |]; [| by apply (IH n0) | done].
    destruct Hr as (c' & _ & _ & _ & -> & _).
    match goal with |- context [desire env ?m url st nm rss ?dd ?a] => specialize (IH m dd a Hin Hnd); destruct (desire env m url st nm rss dd a) as [[[[acts' n2] d2] active2] | |] end; try done.
    cbn [mbind res_bind]. destruct IH as [IH Hk]; [simpl; by rewrite lookup_insert_ne |]. split; [done |]. apply elem_of_app. by right.
Qed.

Lemma apply_accepts env n url nm st o key doc c rs : node_inv Pinned Joined sd n -> seed env = sd ->
  (forall id k, nodestate.RoomKey_of st url id = Some k -> Pinned url id k) ->
  nodestate.RoomKey_of st url (controller.rs_RoomID rs) = Some key ->
  nodestate.IsOff st (controller.rs_RoomID rs) = false -> controller.rs_Status rs = str "active" -> controller.Config rs = Some doc ->
  verifies key doc c -> pki.RoomID c = controller.rs_RoomID rs ->
  rs ∈ controller.nm_Rooms nm -> NoDup (map controller.rs_RoomID (controller.nm_Rooms nm)) ->
  default 0 (versions n !! controller.rs_RoomID rs) < pki.Version c ->
  exists acts n', apply env n url nm (Some st) o = Ok (acts, n') /\ versions n' !! controller.rs_RoomID rs = Some (pki.Version c)
    /\ KickGossip (controller.rs_RoomID rs) ∈ acts.
Proof.
  intros Hn Hsd Hpin Hkey Hoff Hact Hdoc Hver Hid Hin Hnd Hlt. unfold apply. set (n0 := set_last (<[url := nm]> (last n)) n).
  assert (node_inv Pinned Joined sd n0) as Hn0 by by destruct Hn.
  pose proof (desire_ok Pinned Joined sd env url st nm Hsd Hpin (controller.nm_Rooms nm) n0 ∅ ∅ Hn0) as Hde.
  pose proof (desire_accepts env url st nm key doc c rs Hkey Hoff Hact Hdoc Hver Hid (controller.nm_Rooms nm) n0 ∅ ∅ Hin Hnd Hlt) as Hda.
  destruct (desire env n0 _ _ _ _ _ _) as [[[[acts n1] d] active] | |]; cbn [mbind res_bind]; [| exfalso; apply Hde; by intros ? ? ?..].
  destruct Hde as (Hn1 & _ & _ & Hd); [by intros ? ?; rewrite lookup_empty |]. destruct Hda as [Hv Hk].
  set (n2 := match disco n1 with Some dm => _ | None => n1 end).
  assert (node_inv Pinned Joined sd n2 /\ versions n2 = versions n1) as (Hn2 & Ev2) by (unfold n2; destruct (disco n1); [by destruct Hn1 | done]).
  clearbody n2. destruct (leave_ok Pinned Joined sd url d (o_rooms o) n2 Hn2) as (Hn3 & Ev3 & _). destruct (leave n2 _ _ _) as [acts1 n3]. simpl in Hn3, Ev3.
  destruct (bring_all_ok Pinned Joined sd env url d (o_desired o) n3 Hn3) as (_ & Ev4 & _).
  { intros id rc Hi. eapply origin_grows; [| by apply (Hd id rc)]. apply grows_same. congruence. }
  destruct (bring_all _ n3 _ _ _) as [acts2 n4]. simpl in Ev4.
  destruct (ks_same env n4 st (o_names o)) as (kk & Ek). destruct (updateKillSwitchLocked _ _ _ _) as [acts3 n5]. simpl in Ek. subst n5.
  eexists _, _. split; [reflexivity |]. split; [simpl; congruence |]. apply elem_of_app. by left.
Qed.

(** What the room's entry of the last map becomes with a document from a peer. *)
Definition with_doc (doc : pki.Signed) (rs : controller.RoomState) : controller.RoomState :=
  controller.MkRoomState (controller.rs_RoomID rs) (str "active") (Some doc) (controller.rs_UseExit rs).

Lemma gossip_map_ids id doc l :
  map controller.rs_RoomID (map (fun rs => if bool_decide (controller.rs_RoomID rs = id) then with_doc doc rs else rs) l) = map controller.rs_RoomID l.
Proof. rewrite map_map. apply map_ext. intros rs. by case_bool_decide. Qed.

(** The document of a member is of the version it announces. *)
Lemma signed_version n id doc c : node_inv Pinned Joined sd n -> signed n !! id = Some doc -> pki.Unmarshal (pki.Payload doc) = Some c ->
  default 0 (versions n !! id) = pki.Version c.
Proof.
  intros Hn Hs Hu. destruct (ni_signed _ _ _ _ Hn id doc Hs) as (url & key & c' & _ & (pub & _ & Hv) & _ & ->).
  apply pki.VerifyRoomConfig_iff in Hv as (_ & _ & Hu' & _). simpl. congruence.
Qed.

Lemma gossipServe_get `{CJ : CardsJson} n id : id_ok id -> gossipServe n id (get_request id) = Some (serve_get (signed n !! id)).
Proof.
  intros Hid. unfold gossipServe. pose proof (request_of_spec id (str "GET") Hid (or_introl eq_refl) []) as H. rewrite take_nil in H.
  unfold get_request. change (str "GET " ++ id ++ [10]) with (str "GET" ++ 32 :: id ++ [10]). by rewrite H.
Qed.

Lemma read_served `{CJ : CardsJson} `{CL : !CardsJsonLaws CJ} doc : zlen (marshal_signed doc) < gossipMaxSize ->
  read_answer (serve_get (Some doc)) = Some doc.
Proof.
  intros Hs. unfold read_answer, serve_get. rewrite take_ge; [apply unmarshal_marshal_signed |].
  rewrite length_app. unfold zlen in Hs. simpl. lia.
Qed.

(** A document from a peer that verifies and is newer is taken. *)
Lemma applyGossip_accepts env n id doc c key st o r nm rs :
  node_inv Pinned Joined sd n -> seed env = sd -> (forall url i k, nodestate.RoomKey_of st url i = Some k -> Pinned url i k) ->
  rooms n !! id = Some r -> controller_ r <> [] -> last n !! controller_ r = Some nm ->
  rs ∈ controller.nm_Rooms nm -> controller.rs_RoomID rs = id -> NoDup (map controller.rs_RoomID (controller.nm_Rooms nm)) ->
  nodestate.RoomKey_of st (controller_ r) id = Some key -> nodestate.IsOff st id = false ->
  verifies key doc c -> pki.RoomID c = id -> default 0 (versions n !! id) < pki.Version c ->
  exists acts n', applyGossip env n id doc (Some st) o = Ok (acts, n') /\ versions n' !! id = Some (pki.Version c) /\ KickGossip id ∈ acts.
Proof.
  intros Hn Hsd Hpin Hr Hctrl Hlast Hrs Hrsid Hnd Hkey Hoff Hver Hcid Hlt.
  unfold applyGossip, gossip_map. rewrite Hr. cbn [mbind option_bind]. rewrite bool_decide_eq_false_2, Hlast by done. cbn [mbind option_bind].
  assert (existsb (fun rs => bool_decide (controller.rs_RoomID rs = id)) (controller.nm_Rooms nm) = true) as ->.
  { apply existsb_exists. exists rs. rewrite <- list_elem_of_In. split; [done | by apply bool_decide_eq_true_2]. }
  set (nm' := controller.MkNetMap _ _ _ _).
  destruct (apply_accepts env n (controller_ r) nm' st o key doc c (with_doc doc rs)) as (acts & n' & Ha & Hver' & Hk); simpl; rewrite ?Hrsid; try done.
  - intros i k. apply Hpin.
  - apply list_elem_of_In, in_map_iff. exists rs. rewrite bool_decide_eq_true_2 by done. split; [done | by apply list_elem_of_In].
  - pose proof (gossip_map_ids id doc (controller.nm_Rooms nm)) as H. unfold with_doc in H. rewrite H. done.
  - exists acts, n'. simpl in Hver', Hk. rewrite Hrsid in Hver', Hk. done.
Qed.

End Spread.

Section Spreads.
Context `{CR : Crypto} `{J : pki.Json} `{CJ : CardsJson} `{CL : !CardsJsonLaws CJ}.
Import node nodeinv.

(** C16: a newer configuration spreads. A member A has the signed document of a
    room with the newer version [v], and a member B runs the room under its
    controller's key with an older one. A's next announcement goes to every member
    it has a session with, and is of [v]; B that hears it asks; A answers the
    request with its document; B takes it, so that it has version [v], which it
    announces at once, and as long as it runs the room its announcements are of
    [v] and go to every member it has a session with. *)
Theorem gossip_spreads PA JA sdA nA PB JB sdB env nB id doc c key st o rA r nm rs stats now :
  (* A runs the room and has the document *)
  reachable PA JA sdA nA -> rooms nA !! id = Some rA -> signed nA !! id = Some doc ->
  id_ok id -> - 2 ^ 63 <= pki.Version c < 2 ^ 63 -> zlen (marshal_signed doc) < gossipMaxSize ->
  (* B runs the room with an older one *)
  reachable PB JB sdB nB -> seed env = sdB -> (forall url i k, nodestate.RoomKey_of st url i = Some k -> PB url i k) ->
  rooms nB !! id = Some r -> controller_ r <> [] -> last nB !! controller_ r = Some nm ->
  rs ∈ controller.nm_Rooms nm -> controller.rs_RoomID rs = id -> NoDup (map controller.rs_RoomID (controller.nm_Rooms nm)) ->
  nodestate.RoomKey_of st (controller_ r) id = Some key -> nodestate.IsOff st id = false ->
  (* the document verifies under B's key *)
  verifies key doc c -> pki.RoomID c = id -> default 0 (versions nB !! id) < pki.Version c ->
  exists d answer acts n',
    (forall a, reached (cfg rA) stats now a -> (a, d) ∈ announce_turn nA id stats now)
    /\ hear id (default 0 (versions nB !! id)) false d = true
    /\ gossipServe nA id (get_request id) = Some answer
    /\ gossipFetch env nB id answer (Some st) o = Ok (acts, n')
    /\ versions n' !! id = Some (pki.Version c) /\ KickGossip id ∈ acts
    /\ forall r' stats' now' a, rooms n' !! id = Some r' -> reached (cfg r') stats' now' a ->
         (a, announce id (pki.Version c)) ∈ announce_turn n' id stats' now'.
Proof.
  intros HnA HrA HsA Hid Hv Hsize HnB Hsd Hpin Hr Hctrl Hlast Hrs Hrsid Hnd Hkey Hoff Hver Hcid Hlt.
  apply reachable_ok in HnA, HnB.
  destruct (applyGossip_accepts PB JB sdB env nB id doc c key st o r nm rs) as (acts & n' & Ha & Hv' & Hk); try done.
  exists (announce id (pki.Version c)), (serve_get (Some doc)), acts, n'. split_and!; try done.
  - intros a Hra. apply (announce_turn_spec nA id rA stats now HrA). split; [done |].
    destruct Hver as (pub & _ & Hver). apply pki.VerifyRoomConfig_iff in Hver as (_ & _ & Hu & _).
    by rewrite (signed_version PA JA sdA nA id doc c).
  - rewrite hear_announce by done. by rewrite bool_decide_eq_true_2, (proj2 (Z.ltb_lt _ _)).
  - by rewrite gossipServe_get, HsA.
  - unfold gossipFetch. by rewrite read_served.
  - intros r' stats' now' a Hr' Hra. apply (announce_turn_spec n' id r' stats' now' Hr'). by rewrite Hv'.
Qed.

End Spreads.

(** ** Cards are swapped *)

(** When a member asks another to swap cards, each merges what the other gives:
    the one that answers decides what it gives before it merges. *)
Theorem cards_swapped `{CJ : CardsJson} `{CR : Crypto} orderA orderB id now a b :
  id_ok id ->
  let cA := given orderA now a in
  let cB := given orderB now b in
  10 ∉ marshal_cards cA -> zlen (marshal_cards cA) < 2 ^ 21 -> unmarshal_cards (marshal_cards cA ++ [10]) = Some cA ->
  decode_cards (take (Z.to_nat gossipMaxSize) (marshal_cards cB ++ [10])) = Some cB ->
  exists rest answer, request_of id (cards_request id cA) = Some (ACards, rest)
    /\ serveCards orderB id now b rest = (answer, merge id now b cA)
    /\ take_cards id now a answer = merge id now a cB.
Proof.
  intros Hid cA cB Hnl Hlen Hu Hd. exists (marshal_cards cA ++ [10]), (marshal_cards cB ++ [10]). split_and!.
  - unfold cards_request. change (str "CARDS " ++ id ++ 10 :: marshal_cards cA ++ [10]) with (str "CARDS" ++ 32 :: id ++ 10 :: marshal_cards cA ++ [10]).
    rewrite request_of_spec by (done || (right; by left)). rewrite bool_decide_eq_false_2, bool_decide_eq_true_2 by done.
    rewrite take_ge; [done |]. destruct Hid as (_ & _ & Hl). rewrite length_app. rewrite zlen_app, zlen_cons. change (zlen (str "CARDS")) with 5.
    unfold gossipMaxSize. change (length [10]) with 1%nat. unfold zlen in *. lia.
  - unfold serveCards. rewrite ReadString_line by (done || (unfold gossipMaxSize; lia)). rewrite Hu. done.
  - unfold take_cards. by rewrite Hd.
Qed.

(** A change is announced at once and three times more, two seconds apart; then
    every twenty seconds. *)
Theorem kick_repeats repeat more : waits repeat (true :: replicate (3 + more) false)
  = (next_wait repeat).1 :: [gossipRepeat; gossipRepeat; gossipRepeat] ++ replicate more gossipEvery.
Proof.
  cbn [waits]. destruct (next_wait repeat) as [d k]. cbn [fst]. f_equal. cbn [replicate Nat.add waits next_wait app]. do 3 f_equal.
  induction more as [| more IH]; [done |]. cbn [replicate waits next_wait]. by rewrite IH.
Qed.

End gossip.
