(* ===== verification/GossipExample.v ===== *)
(** A configuration that goes from one member of a room to another, announced,
    asked for, served and applied: the theorem on gossip at the nodes of
    NodeExample. *)
From stdpp Require Import base gmap list strings.
From Stdlib Require Import ZArith Lia.
From S2P Require Import Prelude GoStrings GoText Netip Acl Crypto Obfs Identity Pki Disco Store Controller ControllerNet DiscoMgr.
From S2P Require Import Config Names NodeState LocalSync Node NodeInv NodeExample Gossip.

Open Scope Z_scope.

Module gossipscenario.
Import nodestate node nodeinv nodescenario.

#[local] Existing Instance nodescenario.quick.
#[local] Existing Instance nodescenario.listed.

(** A document as as many ones as its payload is long, a zero, the payload and
    the signature. *)
Fixpoint ones (b : bytes) : nat := match b with 1 :: b => S (ones b) | _ => O end.
#[local] Instance plain : gossip.CardsJson := {|
  gossip.marshal_cards _ := []; gossip.unmarshal_cards _ := Some []; gossip.decode_cards _ := Some [];
  gossip.marshal_signed s := replicate (length (pki.Payload s)) 1 ++ 0 :: pki.Payload s ++ pki.Sig s;
  gossip.unmarshal_signed b :=
    let n := ones b in let b := drop (S n) b in Some (pki.MkSigned (take n b) (removelast (drop n b))) |}.

Lemma ones_replicate n b : ones (replicate n 1 ++ 0 :: b) = n.
Proof. induction n as [| n IH]; [done |]. cbn [replicate app ones]. by rewrite IH. Qed.

#[local] Instance plain_laws : gossip.CardsJsonLaws plain.
Proof.
  split. intros [p s]. cbn -[ones removelast]. rewrite <- app_assoc. cbn [app]. rewrite ones_replicate.
  assert (drop (S (length p)) (replicate (length p) 1 ++ 0 :: (p ++ s) ++ [10]) = p ++ s ++ [10]) as ->.
  { change (0 :: (p ++ s) ++ [10]) with ([0] ++ (p ++ s) ++ [10]). rewrite app_assoc, drop_app_length'; [by rewrite <- app_assoc |].
    rewrite length_app, length_replicate. simpl. lia. }
  by rewrite take_app_length, drop_app_length, removelast_last.
Qed.

Definition newer : pki.RoomConfig := docOf 1 2 [1; 2; 3].
Definition doc : pki.Signed := signedDoc newer 1.
Definition entry : controller.RoomState := roomState (docOf 1 1 [1; 2]) 1.

Lemma reachable_pins u i k : RoomKey_of state u i = Some k -> pinned u i k.
Proof. done. Qed.

Lemma n3_reachable : reachable pinned joined (seedOf 1) n3.
Proof. destruct n1_reachable as [d H]. exists d. exact (steps_trans _ _ _ _ _ _ H n1_n3). Qed.

(** The state [n3] has version 2, and tells the state [n1], which has version 1. *)
Definition room3 : running := default room1 (rooms n3 !! roomOf 1).

(** The device of the room has a session with every member, one second old. *)
Definition sessions : gmap bytes gossip.uapiPeer :=
  list_to_map (map (fun p => (config.PublicKey p, gossip.MkUapiPeer [] 99 0 0)) (config.Peers (cfg room3))).

Lemma gossip_spreads_witness :
  exists d answer acts n', gossip.announce_turn n3 (roomOf 1) sessions (100 * Second) = [(addrOf 1 2, d); (addrOf 1 3, d)]
  /\ gossip.hear (roomOf 1) (default 0 (versions n1 !! roomOf 1)) false d = true
  /\ gossip.gossipServe n3 (roomOf 1) (gossip.get_request (roomOf 1)) = Some answer
  /\ gossip.gossipFetch env n1 (roomOf 1) answer (Some state) orders = Ok (acts, n')
  /\ versions n' !! roomOf 1 = Some 2.
Proof.
  assert (rooms n3 !! roomOf 1 = Some room3) as Hr3 by (vm_compute; reflexivity).
  assert (signed n3 !! roomOf 1 = Some doc) as Hs by (vm_compute; reflexivity).
  assert (gossip.id_ok (roomOf 1)) as Hid by (split; [vm_compute; reflexivity | split; [vm_compute; discriminate | vm_compute; discriminate]]).
  assert (- 2 ^ 63 <= pki.Version newer < 2 ^ 63) as Hrange by (vm_compute; split; [discriminate | reflexivity]).
  assert (zlen (gossip.marshal_signed doc) < gossip.gossipMaxSize) as Hsize by (vm_compute; reflexivity).
  assert (rooms n1 !! roomOf 1 = Some room1) as Hr by (vm_compute; reflexivity).
  assert (controller_ room1 = url) as Hc by (vm_compute; reflexivity).
  assert (controller_ room1 <> []) as Hne by (rewrite Hc; discriminate).
  assert (last n1 !! controller_ room1 = Some both) as Hl by (rewrite Hc; vm_compute; reflexivity).
  assert (verifies (keyOf 1) doc newer) as Hver.
  { exists (ed_public (seedOf 101)). split; vm_compute; reflexivity. }
  assert (NoDup (map controller.rs_RoomID (controller.nm_Rooms both))) as Hnd by (apply (bool_decide_unpack _); vm_compute; exact I).
  assert (entry ∈ controller.nm_Rooms both) as Hin by (unfold both, mapOf, two; cbn [controller.nm_Rooms]; left).
  assert (RoomKey_of state (controller_ room1) (roomOf 1) = Some (keyOf 1)) as Hk by (rewrite Hc; vm_compute; reflexivity).
  assert (IsOff state (roomOf 1) = false) as Ho by (vm_compute; reflexivity).
  assert (default 0 (versions n1 !! roomOf 1) < pki.Version newer) as Hlt by (vm_compute; reflexivity).
  destruct (gossip.gossip_spreads pinned joined (seedOf 1) n3 pinned joined (seedOf 1) env n1 (roomOf 1) doc newer (keyOf 1) state orders
    room3 room1 both entry sessions (100 * Second) n3_reachable Hr3 Hs Hid Hrange Hsize n1_reachable eq_refl reachable_pins
    Hr Hne Hl Hin eq_refl Hnd Hk Ho Hver eq_refl Hlt)
    as (d & answer & acts & n' & Ht & Hh & Hg & Hf & Hv & _).
  exists d, answer, acts, n'. split; [| split; [exact Hh | split; [exact Hg | split; [exact Hf | exact Hv]]]].
  assert (gossip.announce_turn n3 (roomOf 1) sessions (100 * Second)
    = [(addrOf 1 2, gossip.announce (roomOf 1) 2); (addrOf 1 3, gossip.announce (roomOf 1) 2)]) as E by (vm_compute; reflexivity).
  assert (gossip.reached (cfg room3) sessions (100 * Second) (addrOf 1 2)) as Hra
    by (apply gossip.peerAddrs_spec; apply (bool_decide_unpack _); vm_compute; exact I).
  apply Ht in Hra. rewrite E in Hra. assert (d = gossip.announce (roomOf 1) 2) as ->; [| exact E].
  apply elem_of_cons in Hra as [Hra | Hra]; [by injection Hra |].
  apply list_elem_of_singleton in Hra. by injection Hra.
Defined.

End gossipscenario.
