(* ===== verification/NodeSync.v ===== *)
(** The daemon's supervisor (internal/node/node.go, localsync.go): starting with
    the static rooms, the turns in which the state file is read again, the rooms
    without a controller, the controllers that are polled, and closing.

    A goroutine that the daemon starts or ends is an action; what each call of
    [LoadState] reads and the orders of Go's maps are arguments of a turn.
    [fmt.Sprint] of what is compared from turn to turn is a parameter. *)
From stdpp Require Import base gmap list strings.
From Stdlib Require Import ZArith Lia.
From S2P Require Import Prelude GoStrings GoText Netip Acl Crypto Obfs Identity Pki RelayProto Magicsock Store Controller DiscoMgr.
From S2P Require Import Config Names NodeState LocalSync Node NodeInv.

Open Scope Z_scope.

Module nodesync.
Import node.

Record Daemon := MkDaemon {
  nd : Node;
  localApplied : gmap bytes bytes;   (* local room URL -> what was applied *)
  joining : gset bytes;              (* rooms whose owner or admins are being asked *)
  publicSTUN : bool;
  syncers : gset bytes;              (* controllers that are polled *)
  prevPins : bytes }.

Definition set_nd (n : Node) (d : Daemon) : Daemon :=
  MkDaemon n (localApplied d) (joining d) (publicSTUN d) (syncers d) (prevPins d).
Definition set_localApplied (m : gmap bytes bytes) (d : Daemon) : Daemon :=
  MkDaemon (nd d) m (joining d) (publicSTUN d) (syncers d) (prevPins d).
Definition set_joining (s : gset bytes) (d : Daemon) : Daemon :=
  MkDaemon (nd d) (localApplied d) s (publicSTUN d) (syncers d) (prevPins d).
Definition set_publicSTUN (b : bool) (d : Daemon) : Daemon :=
  MkDaemon (nd d) (localApplied d) (joining d) b (syncers d) (prevPins d).
Definition set_syncers (s : gset bytes) (d : Daemon) : Daemon :=
  MkDaemon (nd d) (localApplied d) (joining d) (publicSTUN d) s (prevPins d).
Definition set_prevPins (p : bytes) (d : Daemon) : Daemon :=
  MkDaemon (nd d) (localApplied d) (joining d) (publicSTUN d) (syncers d) p.

Inductive effect : Type :=
  | Act (a : action)
  | StartSync (url : bytes) | StopSync (url : bytes)
  | AskOwner (link : nodestate.LocalLink) (name : bytes)     (* the goroutine of [ensureJoining] *)
  | AskKey (roomID : bytes) (admins : list Addr)             (* the goroutine of [ensureSignKey] *)
  | FetchConfig (roomID : bytes)                             (* the goroutine of [startProvisional] *)
  | StartPublicSTUN (servers : list bytes)
  | DisableKillSwitch.

(** The four places of a turn that apply a map, each at most once for a URL. *)
Inductive place : Type := PLocal | PGone | PReapply | PRemoved.

Record turn := MkTurn {
  t_file : option nodestate.State;                         (* [LoadState] of [supervise] *)
  t_read : place -> bytes -> option nodestate.State;       (* [LoadState] of [apply] *)
  t_orders : place -> bytes -> Node -> Orders;
  t_known : bytes -> list bytes;                           (* peers of the path finder, for [startProvisional] *)
  t_gone : Daemon -> list bytes; t_last : Node -> list bytes; t_syncers : Daemon -> list bytes;   (* orders of maps *)
  t_names : Node -> list bytes }.

Section Env.
Context `{CR : Crypto} `{J : pki.Json} (env : Env).
Context (stunServers : list bytes).                  (* [Config.PublicSTUNServers] *)
Context (Sprint_pins : nodestate.State -> bytes).    (* controllers, exit, DNS, rooms turned off *)
Context (Sprint_local : bytes -> gmap bytes controller.Peer -> bool -> bytes).

(** ** Static rooms *)

(** [staticZone]: the first single address of each named peer. *)
Definition add_static (l : bytes) (rs : gmap bytes Addr) (a : Prefix) : gmap bytes Addr :=
  if negb (bool_decide (l = [])) && (pfx_bits a =? 32) && bool_decide (default AddrZero (rs !! l) = AddrZero)
  then <[l := pfx_ip a]> rs else rs.
Definition staticZone (rc : config.Room) : config.Room :=
  let records := fold_left (fun rs p => fold_left (add_static (names.Label (config.p_Name p))) (config.AllowedIPs p) rs) (config.Peers rc) ∅ in
  config.MkRoom (config.Name rc) (config.Secret rc) (config.Address rc) (config.MTU rc) (config.Broadcast rc) (config.Obfs_ rc)
    (config.Peers rc) (config.Routes rc) (config.Routing rc) (config.Exit rc) (config.ExitNode rc) (config.ExitDNS rc) (config.RoomDNS rc)
    (names.Label (config.Name rc) ++ 46 :: TLD) records (config.DHT rc) (config.Policy rc) (config.PeerNodes rc) (config.ExitPeer rc)
    (config.ExitPeers rc).

Definition static_key (rc : config.Room) : bytes := str "static:" ++ config.Name rc.

(** ** Starting and closing *)

Fixpoint close_rooms (n : Node) (order : list bytes) : list effect * Node :=
  match order with
  | [] => ([], n)
  | k :: order => let '(acts, n) := stopLocked n k in let '(acts', n) := close_rooms n order in (map Act acts ++ acts', n)
  end.
(** [Close]; the socket is closed last. *)
Definition Close (n : Node) (order : list bytes) : list effect * Node :=
  let '(acts, n) := close_rooms n order in
  (acts ++ if bool_decide (ksKey n = []) then [] else [DisableKillSwitch], n).

(** The loop of [Start] over the rooms of the configuration file. *)
Fixpoint start_static (n : Node) (rooms : list config.Room) : res error (list effect) * Node :=
  match rooms with
  | [] => (Ok [], n)
  | rc :: rest =>
    let rc := if bool_decide (names.Label (config.Name rc) = []) then rc else staticZone rc in
    match startLocked env n (static_key rc) [] rc with
    | (Ok acts, n) =>
      match start_static n rest with
      | (Ok acts', n) => (Ok (map Act acts ++ acts'), n)
      | (Err e, n) => (Err e, n)
      | (Panic, n) => (Panic, n)
      end
    | (Err e, n) => (Err e, n)
    | (Panic, n) => (Panic, n)
    end
  end.
(** [Start]; [disco]: with a state file the path finder runs. A failure closes
    what was started. *)
Definition empty (c : magicsock.Conn) : Node := MkNode c ∅ ∅ ∅ ∅ None ∅ ∅ ∅ [].
Definition Start (c : magicsock.Conn) (statePath : bool) (rooms : list config.Room) (order : Node -> list bytes)
    : res error (list effect * Daemon) * list effect :=
  match start_static (empty c) rooms with
  | (Ok acts, n) =>
    (Ok (acts, MkDaemon (if statePath then set_disco (Some discomgr.newDiscoMgr) n else n) ∅ ∅ false ∅ []), [])
  | (Err e, n) => (Err e, (Close n (order n)).1)
  | (Panic, n) => (Panic, (Close n (order n)).1)
  end.

(** ** Rooms without a controller *)

(** [localNetmap] *)
Definition localNetmap (r : nodestate.LocalRoom) : controller.NetMap :=
  controller.MkNetMap 0 AddrZero [controller.MkRoomState (nodestate.RoomID r) (str "active") (nodestate.Config r) []]
    ((fun p => controller.MkPeer (controller.pr_PublicIP p) (controller.pr_UDPPort p) (controller.pr_Locals p) (controller.pr_Reflexive p)
        (controller.pr_PortMap p) (controller.pr_NAT p) (controller.pr_DiscoKey p) (controller.pr_Relay p) true) <$> nodestate.Peers r).

Definition emptyMap : controller.NetMap := controller.MkNetMap 0 AddrZero [] ∅.

Definition apply_at (t : turn) (p : place) (url : bytes) (nm : controller.NetMap) (d : Daemon) : res error (list effect * Daemon) :=
  r ← apply env (nd d) url nm (t_read t p url) (t_orders t p url (nd d));
  let '(acts, n) := r in Ok (map Act acts, set_nd n d).

(** [ensureSignKey] *)
Definition key_job (roomID : bytes) : bytes := str "key:" ++ roomID.
Definition ensureSignKey (r : nodestate.LocalRoom) (c : pki.RoomConfig) (d : Daemon) : list effect * Daemon :=
  let admins := localsync.key_admins r c (me env) in
  let job := key_job (nodestate.RoomID r) in
  if bool_decide (admins = []) || bool_decide (job ∈ joining d) then ([], d)
  else ([AskKey (nodestate.RoomID r) admins], set_joining ({[job]} ∪ joining d) d).

(** [ensureJoining] *)
Definition ensureJoining (r : nodestate.LocalRoom) (j : nodestate.LocalJoin) (d : Daemon) : list effect * Daemon :=
  if bool_decide (nodestate.RoomID r ∈ joining d) then ([], d)
  else ([AskOwner (nodestate.Invite j) (nodestate.j_Name j)], set_joining ({[nodestate.RoomID r]} ∪ joining d) d).

(** The goroutine of [ensureJoining]: what the state file says at each tick of
    three seconds decides whether the owner is asked again. *)
Definition still_joining (EqualFold : bytes -> bytes -> bool) (roomID : bytes) (st : option nodestate.State) : bool :=
  match st with
  | Some st =>
    match nodestate.LocalRoomByRef EqualFold st roomID with
    | Ok r => match nodestate.Join r, nodestate.Config r with
              | Some j, None => negb (IsValid (nodestate.j_IP j))
              | _, _ => false
              end
    | _ => false
    end
  | None => false
  end.
Fixpoint asks (EqualFold : bytes -> bytes -> bool) (roomID : bytes) (reads : list (option nodestate.State)) : nat :=
  match reads with
  | st :: reads => if still_joining EqualFold roomID st then S (asks EqualFold roomID reads) else O
  | [] => O
  end.

Definition local_url (r : nodestate.LocalRoom) : bytes := nodestate.localPrefix ++ nodestate.RoomID r.

(** The body of [syncLocal]'s loop. *)
Definition sync_room (t : turn) (st : nodestate.State) (r : nodestate.LocalRoom) (d : Daemon) : res error (list effect * Daemon) :=
  let url := local_url r in
  match nodestate.Config r, nodestate.Join r with
  | Some doc, _ =>
    let nm := localNetmap r in
    let key := Sprint_local (pki.Sig doc) (controller.Peers nm) (nodestate.IsOff st (nodestate.RoomID r)) in
    let same := bool_decide (default [] (localApplied d !! url) = key) in
    let d := set_localApplied (<[url := key]> (localApplied d)) d in
    a ← (if same then Ok ([], d) else apply_at t PLocal url nm d);
    let '(acts, d) := a in
    match nodestate.config r with
    | Ok c => let '(acts', d) := ensureSignKey r c d in Ok (acts ++ acts', d)
    | _ => Ok (acts, d)
    end
  | None, Some j =>
    if IsValid (nodestate.j_IP j) then
      a ← startProvisional env (nd d) r j (t_known t url);
      let '(acts, n) := a in
      Ok (map Act acts ++ (if bool_decide (acts = []) then [] else [FetchConfig (nodestate.RoomID r)]), set_nd n d)
    else Ok (ensureJoining r j d)
  | None, None => Ok ([], d)
  end.

Fixpoint each {A} (f : A -> Daemon -> res error (list effect * Daemon)) (l : list A) (d : Daemon) : res error (list effect * Daemon) :=
  match l with
  | [] => Ok ([], d)
  | x :: l =>
    a ← f x d; let '(acts, d) := a in
    b ← each f l d; let '(acts', d) := b in Ok (acts ++ acts', d)
  end.

(** [startPublicSTUN] *)
Definition startPublicSTUN (d : Daemon) : list effect * Daemon :=
  if publicSTUN d || bool_decide (stunServers = []) then ([], d)
  else ([StartPublicSTUN stunServers], set_publicSTUN true d).

(** [syncLocal] *)
Definition syncLocal (t : turn) (st : nodestate.State) (d : Daemon) : res error (list effect * Daemon) :=
  let '(acts, d) := if bool_decide (nodestate.Local st = []) then ([], d) else startPublicSTUN d in
  a ← each (sync_room t st) (nodestate.Local st) d;
  let '(acts1, d) := a in
  let want := map local_url (nodestate.Local st) in
  let gone := filter (fun url => is_Some (localApplied d !! url) /\ url ∉ want) (t_gone t d) in
  let d := set_localApplied (filter (fun e => e.1 ∈ want) (localApplied d)) d in
  b ← each (fun url => apply_at t PGone url emptyMap) gone d;
  let '(acts2, d) := b in Ok (acts ++ acts1 ++ acts2, d).

(** ** Turns *)

(** [reapplyAll]: the maps are taken first. *)
Definition reapplyAll (t : turn) (d : Daemon) : res error (list effect * Daemon) :=
  let last := last (nd d) in
  each (fun url d => match last !! url with Some nm => apply_at t PReapply url nm d | None => Ok ([], d) end) (t_last t (nd d)) d.

Definition urls (st : nodestate.State) : list bytes := map nodestate.URL (nodestate.Controllers st).

(** The loop over the controllers of the state file. *)
Fixpoint start_syncers (l : list bytes) (d : Daemon) : list effect * Daemon :=
  match l with
  | [] => ([], d)
  | url :: l =>
    if bool_decide (url ∈ syncers d) then start_syncers l d
    else let '(acts, d) := start_syncers l (set_syncers ({[url]} ∪ syncers d) d) in (StartSync url :: acts, d)
  end.
Definition stop_syncer (t : turn) (st : nodestate.State) (url : bytes) (d : Daemon) : res error (list effect * Daemon) :=
  if bool_decide (url ∈ syncers d) && negb (bool_decide (url ∈ urls st)) then
    a ← apply_at t PRemoved url emptyMap (set_syncers (syncers d ∖ {[url]}) d);
    let '(acts, d) := a in Ok (StopSync url :: acts, d)
  else Ok ([], d).

(** The body of [supervise]'s loop. *)
Definition changed_pins (t : turn) (st : nodestate.State) (d : Daemon) : res error (list effect * Daemon) :=
  if bool_decide (Sprint_pins st = prevPins d) then Ok ([], d)
  else
    a ← reapplyAll t (set_prevPins (Sprint_pins st) d);
    let '(acts, d) := a in
    let '(acts1, n) := updateKillSwitchLocked env (nd d) st (t_names t (nd d)) in
    Ok (acts ++ map Act (acts1 ++ updateDNSLocked env n st (t_names t n)), set_nd n d).

Definition supervise (t : turn) (d : Daemon) : res error (list effect * Daemon) :=
  match t_file t with
  | None => Ok ([], d)
  | Some st =>
    a ← syncLocal t st d;
    let '(acts, d) := a in
    b ← changed_pins t st d;
    let '(acts1, d) := b in
    let '(acts2, d) := start_syncers (urls st) d in
    c ← each (stop_syncer t st) (t_syncers t d) d;
    let '(acts3, d) := c in Ok (acts ++ acts1 ++ acts2 ++ acts3, d)
  end.
End Env.

End nodesync.
