(* ===== verification/NodeSyncInv.v ===== *)
(** What a turn of the daemon's supervisor leaves: exactly the controllers of the
    state file are polled, no room of a removed controller runs, and no removed
    local room that got a configuration, and after a change of what is pinned or turned off every running
    room is pinned and on. *)
From stdpp Require Import base gmap list strings.
From Stdlib Require Import ZArith Lia.
From S2P Require Import Prelude GoStrings GoText Netip Acl Crypto Obfs Identity Pki RelayProto Magicsock Store Controller DiscoMgr.
From S2P Require Import Config Names NodeState LocalSync Node NodeInv NodeSync.

Open Scope Z_scope.

Module nodesyncinv.
Import node nodeinv nodesync.

Section Rooms.
Context `{CR : Crypto} `{J : pki.Json} (Pinned : bytes -> bytes -> bytes -> Prop)
  (Joined : bytes -> nodestate.LocalJoin -> Prop) (sd : bytes).
Notation node_inv := (node_inv Pinned Joined sd).

(** ** Whose rooms an [apply] touches *)

(** A room at [url] may be new; every other one was there, of the same controller. *)
Definition ctrl_at (url : bytes) (n n' : Node) (id : bytes) : Prop :=
  forall r', rooms n' !! id = Some r' -> controller_ r' = url \/ exists r, rooms n !! id = Some r /\ controller_ r = controller_ r'.
Definition ctrl_from (url : bytes) (n n' : Node) : Prop := forall id, ctrl_at url n n' id.

Lemma ctrl_at_same url n n' id : rooms n' !! id = rooms n !! id -> ctrl_at url n n' id.
Proof. intros E r' H. right. exists r'. by rewrite <- E. Qed.
Lemma ctrl_at_trans url n1 n2 n3 id : ctrl_at url n1 n2 id -> ctrl_at url n2 n3 id -> ctrl_at url n1 n3 id.
Proof.
  intros H1 H2 r3 H. destruct (H2 r3 H) as [? | (r2 & Hr2 & E)]; [by left |].
  destruct (H1 r2 Hr2) as [? | (r1 & Hr1 & E')]; [left; congruence | right]. exists r1. split; [done | congruence].
Qed.

Lemma startLocked_ctrl env n key url rc : let n' := (startLocked env n key url rc).2 in last n' = last n /\ ctrl_from url n n'.
Proof.
  cbv zeta. unfold startLocked. case_bool_decide; [split; [done | intros id; by apply ctrl_at_same] |].
  destruct (magicsock.Bind _ _) as [[b c] | |]; [| split; [done | intros id; by apply ctrl_at_same] ..].
  destruct (room_up _ _ _); [| split; [done | intros id; by apply ctrl_at_same]]. split; [done |].
  intros id r'. simpl. destruct (decide (id = key)) as [-> |]; [rewrite lookup_insert_eq; intros [= <-]; by left |].
  rewrite lookup_insert_ne by done. intros Hr'. right. by exists r'.
Qed.

Lemma start_room_ctrl env n url id rc : let n' := (start_room env n url id rc).2 in last n' = last n /\ ctrl_from url n n'.
Proof.
  cbv zeta. unfold start_room. destruct (config.ValidateRoom _) as [rc' | |]; [| split; [done | intros k; by apply ctrl_at_same] ..].
  pose proof (startLocked_ctrl env n id url rc') as H. by destruct (startLocked _ _ _ _ _) as [[acts | |] n'].
Qed.

Lemma stop_ctrl url n key : let n' := (stopLocked n key).2 in last n' = last n /\ ctrl_from url n n'.
Proof.
  cbv zeta. split; [unfold stopLocked; by destruct (rooms n !! key) |]. intros id r'. rewrite stop_rooms.
  destruct (decide _); [done |]. intros Hr'. right. by exists r'.
Qed.

Lemma bring_ctrl env n url id rc : let n' := (bring env n url id rc).2 in last n' = last n /\ ctrl_from url n n'.
Proof.
  cbv zeta. unfold bring. destruct (rooms n !! id) as [cur |] eqn:Hcur; [| apply start_room_ctrl].
  destruct (_ && _).
  - destruct (peers_set _ _ _); [| split; [done | intros k; by apply ctrl_at_same]]. split; [done |].
    intros k r'. simpl. destruct (decide (k = id)) as [-> |].
    + rewrite lookup_insert_eq. intros [= <-]. right. by exists cur.
    + rewrite lookup_insert_ne by done. intros Hr'. right. by exists r'.
  - destruct (stop_ctrl url n id) as [Hl1 H1]. destruct (stopLocked n id) as [acts n1].
    destruct (start_room_ctrl env n1 url id rc) as [Hl2 H2]. destruct (start_room _ _ _ _ _) as [acts' n2].
    split; [simpl in *; congruence |]. intros k. eapply ctrl_at_trans; [apply H1 | apply H2].
Qed.

Lemma bring_all_ctrl env url d order : forall n, let n' := (bring_all env n url d order).2 in
  last n' = last n /\ ctrl_from url n n' /\ forall id, d !! id = None -> rooms n' !! id = rooms n !! id.
Proof.
  induction order as [| id order IH]; intros n; cbv zeta; cbn [bring_all].
  { split_and!; [done | intros k; by apply ctrl_at_same | done]. }
  destruct (d !! id) as [rc |] eqn:Hd; [| apply IH].
  destruct (bring_ctrl env n url id rc) as [Hl1 H1]. destruct (bring_same env n url id rc) as [_ Hk1].
  destruct (bring _ _ _ _ _) as [acts n1]. destruct (IH n1) as (Hl2 & H2 & Hk2). destruct (bring_all _ n1 _ _ _) as [acts' n2].
  simpl in *. split_and!; [congruence | intros k; eapply ctrl_at_trans; [apply H1 | apply H2] |].
  intros k Hk. rewrite Hk2, Hk1 by congruence. done.
Qed.

Lemma leave_ctrl url d order : forall n, let n' := (leave n url d order).2 in last n' = last n /\ ctrl_from url n n'.
Proof.
  induction order as [| key order IH]; intros n; cbv zeta; cbn [leave]; [split; [done | intros k; by apply ctrl_at_same] |].
  destruct (rooms n !! key) as [r |]; [| apply IH]. destruct (_ && _); [| apply IH].
  destruct (stop_ctrl url n key) as [Hl1 H1]. destruct (stopLocked n key) as [acts n1].
  destruct (IH n1) as (Hl2 & H2). destruct (leave n1 _ _ _) as [acts' n2].
  simpl in *. split; [congruence |]. intros k. eapply ctrl_at_trans; [apply H1 | apply H2].
Qed.

(** ** What [apply] leaves *)

(** The rooms of a controller are pinned in the state file and not turned off. *)
Definition settled (st : nodestate.State) (url : bytes) (n : Node) : Prop := forall id r, rooms n !! id = Some r -> controller_ r = url ->
  nodestate.RoomKey_of st url id <> None /\ nodestate.IsOff st id = false.
Definition covers (o : Orders) (n : Node) : Prop := forall id, is_Some (rooms n !! id) -> id ∈ o_rooms o.
Definition no_room (url : bytes) (n : Node) : Prop := forall id r, rooms n !! id = Some r -> controller_ r <> url.

Lemma settled_from st url url' n n' : url' <> url -> ctrl_from url n n' -> settled st url' n -> settled st url' n'.
Proof.
  intros Hne Hc Hs id r Hr Hu. destruct (Hc id r Hr) as [E | (r0 & Hr0 & E)]; [congruence |]. apply (Hs id r0 Hr0). congruence.
Qed.
Lemma no_room_from url url' n n' : url' <> url -> ctrl_from url n n' -> no_room url' n -> no_room url' n'.
Proof.
  intros Hne Hc Hs id r Hr Hu. destruct (Hc id r Hr) as [E | (r0 & Hr0 & E)]; [congruence |]. apply (Hs id r0 Hr0). congruence.
Qed.

Definition all_on (st : nodestate.State) (d : gmap bytes config.Room) : Prop := forall id, is_Some (d !! id) -> nodestate.IsOff st id = false.
Lemma all_on_insert st d id rc : all_on st d -> nodestate.IsOff st id = false -> all_on st (<[id := rc]> d).
Proof. intros H Hi k. rewrite lookup_insert_is_Some. intros [-> | [_ ?]]; [done | by apply H]. Qed.

Lemma desire_on env url st nm : forall rss n d active, all_on st d ->
  match desire env n url st nm rss d active with Ok (_, _, d', _) => all_on st d' | _ => True end.
Proof.
  induction rss as [| rs rss IH]; intros n d active Hd; [done |]. cbn [desire]. set (id := controller.rs_RoomID rs).
  destruct (nodestate.RoomKey_of st url id) as [key |]; [| by apply IH]. destruct (nodestate.IsOff st id) eqn:Hoff; [by apply IH |].
  assert (all_on st (match rooms n !! id with Some cur => <[id := cfg cur]> d | None => d end)) as Hkeep
    by (destruct (rooms n !! id); [by apply all_on_insert | done]).
  case_bool_decide; [| by apply IH].
  destruct (controller.Config rs) as [doc |]; [| destruct (HasPrefix _ _); by apply IH].
  destruct (roomFromConfig _ _ _ _ _ _ _ _) as [[[[acts n1] active1] r] | |]; [| by apply IH | done].
  specialize (IH n1 (match r with Some r => <[id := r]> d | None => d end) active1).
  destruct (desire _ n1 _ _ _ _ _ _) as [[[[acts' n2] d2] active2] | |]; cbn [mbind res_bind]; [| done ..].
  apply IH. destruct r; [by apply all_on_insert | done].
Qed.

(** Whatever the orders, [apply] remembers the map and starts only rooms of its
    controller. *)
Lemma apply_ctrl env n url nm st o acts n' : seed env = sd -> (forall id key, nodestate.RoomKey_of st url id = Some key -> Pinned url id key) ->
  node_inv n -> apply env n url nm (Some st) o = Ok (acts, n') -> last n' = <[url := nm]> (last n) /\ ctrl_from url n n'.
Proof.
  intros Hsd Hpin Hn. unfold apply. set (n0 := set_last (<[url := nm]> (last n)) n).
  assert (node_inv n0) as Hn0 by by destruct Hn.
  pose proof (desire_ok Pinned Joined sd env url st nm Hsd Hpin (controller.nm_Rooms nm) n0 ∅ ∅ Hn0) as Hde.
  destruct (desire _ n0 _ _ _ _ _ _) as [[[[acts0 n1] d] active] | |]; cbn [mbind res_bind] in *; [| done ..].
  destruct Hde as (_ & _ & (Er & _ & _ & El) & _); [by intros ? ?; rewrite lookup_empty |].
  set (n2 := match disco n1 with Some dm => _ | None => n1 end).
  assert (rooms n2 = rooms n /\ last n2 = <[url := nm]> (last n)) as (Er2 & El2)
    by (unfold n2; destruct (disco n1); simpl; rewrite Er, El; done).
  assert (ctrl_from url n n2) as H2 by (intros k; apply ctrl_at_same; by rewrite Er2).
  clearbody n2. destruct (leave_ctrl url d (o_rooms o) n2) as [El3 H3]. destruct (leave n2 _ _ _) as [acts1 n3].
  destruct (bring_all_ctrl env url d (o_desired o) n3) as (El4 & H4 & _). destruct (bring_all _ n3 _ _ _) as [acts2 n4].
  destruct (ks_same env n4 st (o_names o)) as (kk & Ek). destruct (updateKillSwitchLocked _ _ _ _) as [acts3 n5]. simpl in *. subst n5.
  intros [= <- <-]. split; [simpl; congruence |].
  intros k. eapply ctrl_at_trans; [apply H2 |]. eapply ctrl_at_trans; [apply H3 | apply H4].
Qed.

(** [apply] with a state file that can be read: it succeeds, keeps the
    invariant, remembers the map, touches only rooms of its controller, and
    these are then pinned and on, and in the map. *)
Lemma apply_rooms env n url nm st o : seed env = sd -> (forall id key, nodestate.RoomKey_of st url id = Some key -> Pinned url id key) ->
  node_inv n -> covers o n -> exists acts n', apply env n url nm (Some st) o = Ok (acts, n') /\ node_inv n'
    /\ last n' = <[url := nm]> (last n) /\ ctrl_from url n n' /\ settled st url n'
    /\ (controller.nm_Rooms nm = [] -> no_room url n').
Proof.
  intros Hsd Hpin Hn Hcov.
  assert (forall s id key, Some st = Some s -> nodestate.RoomKey_of s url id = Some key -> Pinned url id key) as Hpin' by (intros s i k [= <-]; apply Hpin).
  pose proof (apply_ok Pinned Joined sd env n url nm (Some st) o Hsd Hpin' Hn) as Hok.
  unfold apply in *. set (n0 := set_last (<[url := nm]> (last n)) n) in *.
  assert (node_inv n0) as Hn0 by by destruct Hn.
  pose proof (desire_ok Pinned Joined sd env url st nm Hsd Hpin (controller.nm_Rooms nm) n0 ∅ ∅ Hn0) as Hde.
  pose proof (desire_on env url st nm (controller.nm_Rooms nm) n0 ∅ ∅ ltac:(intros ?; rewrite lookup_empty; by intros [? ?])) as Hon.
  assert (controller.nm_Rooms nm = [] -> desire env n0 url st nm (controller.nm_Rooms nm) ∅ ∅ = Ok ([], n0, ∅, ∅)) as Hempty by by intros ->.
  destruct (desire _ n0 _ _ _ _ _ _) as [[[[acts n1] d] active] | |]; cbn [mbind res_bind] in *; [| done ..].
  destruct Hde as (Hn1 & _ & (Er & _ & _ & El) & Hd); [by intros ? ?; rewrite lookup_empty |].
  set (n2 := match disco n1 with Some dm => _ | None => n1 end) in *.
  assert (rooms n2 = rooms n /\ last n2 = <[url := nm]> (last n)) as (Er2 & El2)
    by (unfold n2; destruct (disco n1); simpl; rewrite Er, El; done).
  assert (ctrl_from url n n2) as H2 by (intros k; apply ctrl_at_same; by rewrite Er2).
  assert (forall id, is_Some (rooms n2 !! id) -> id ∈ o_rooms o) as Hcov2 by by rewrite Er2.
  assert (node_inv n2) as Hn2 by (unfold n2; destruct (disco n1); [by destruct Hn1 | done]).
  clearbody n2. destruct (leave_ctrl url d (o_rooms o) n2) as [El3 H3].
  destruct (leave_ok Pinned Joined sd url d (o_rooms o) n2 Hn2) as (_ & _ & Hsub & _ & Hg3).
  destruct (leave n2 _ _ _) as [acts1 n3]. destruct (bring_all_ctrl env url d (o_desired o) n3) as (El4 & H4 & Hk4).
  destruct (bring_all _ n3 _ _ _) as [acts2 n4]. destruct (ks_same env n4 st (o_names o)) as (kk & Ek).
  destruct (updateKillSwitchLocked _ _ _ _) as [acts3 n5]. simpl in *. subst n5.
  eexists _, _. split; [done |]. split; [apply Hok | ]. split; [simpl; congruence |].
  assert (ctrl_from url n n4) as Hc by (intros k; eapply ctrl_at_trans; [apply H2 |]; eapply ctrl_at_trans; [apply H3 | apply H4]).
  split; [exact Hc |].
  assert (forall id r, rooms n4 !! id = Some r -> controller_ r = url -> is_Some (d !! id)) as Hin.
  { intros id r Hr Hu. destruct (d !! id) as [rc |] eqn:E; [done |]. rewrite Hk4 in Hr by done.
    destruct (Hg3 id r Hr) as [? | ?]; [apply Hcov2; by rewrite (Hsub _ _ Hr) | done | done]. }
  split.
  - intros id r Hr Hu. destruct (Hin id r Hr Hu) as [rc Hrc]. split; [| by apply Hon].
    destruct (Hd id rc Hrc) as [_ [k Hk]]. congruence.
  - intros Hnil id r Hr Hu. destruct (Hin id r Hr Hu) as [rc Hrc]. injection (Hempty Hnil) as _ _ Ed _.
    by rewrite Ed, lookup_empty in Hrc.
Qed.

(** Every room of a controller is of one whose map is remembered. *)
Definition listed (n : Node) : Prop := forall id r, rooms n !! id = Some r -> controller_ r = [] \/ is_Some (last n !! controller_ r).

Lemma listed_from url nm n n' : ctrl_from url n n' -> last n' = <[url := nm]> (last n) -> listed n -> listed n'.
Proof.
  intros Hc El Hl id r' Hr. rewrite El. destruct (Hc id r' Hr) as [-> | (r & Hr0 & <-)].
  - right. by rewrite lookup_insert_eq.
  - destruct (Hl id r Hr0) as [? | ?]; [by left | right]. rewrite lookup_insert_is_Some'. by right.
Qed.

Lemma apply_listed env n url nm st o acts n' : seed env = sd ->
  (forall s id key, st = Some s -> nodestate.RoomKey_of s url id = Some key -> Pinned url id key) -> node_inv n -> listed n ->
  apply env n url nm st o = Ok (acts, n') -> listed n'.
Proof.
  intros Hsd Hpin Hn Hl Ha. destruct st as [st |]; [| by injection Ha as _ <-].
  destruct (apply_ctrl env n url nm st o acts n' Hsd (fun id key => Hpin st id key eq_refl) Hn Ha) as [El Hc].
  by apply (listed_from url nm n).
Qed.

Lemma startProvisional_ctrl env n r j known acts n' : startProvisional env n r j known = Ok (acts, n') ->
  n' = n \/ exists nm, last n' = <[local_url r := nm]> (last n) /\ ctrl_from (local_url r) n n'.
Proof.
  unfold startProvisional. destruct (rooms n !! nodestate.RoomID r); [by intros [= <- <-]; left |].
  case_bool_decide; [done |]. fold (local_url r). set (nm := controller.MkNetMap _ _ _ _). set (n0 := set_last _ n).
  destruct (startLocked_ctrl env n0 (nodestate.RoomID r) (local_url r) (provisional_room n r j)) as [El Hc].
  destruct (startLocked _ _ _ _ _) as [[acts0 | |] n1]; intros [= <- <-]; right; exists nm; simpl in *.
  - destruct (disco n1); simpl; (split; [by rewrite El | exact Hc]).
  - split; [by rewrite El | exact Hc].
  - split; [by rewrite El | exact Hc].
Qed.

Lemma step_listed n n' : node_inv n -> listed n -> step Pinned Joined sd n n' -> listed n'.
Proof.
  intros Hn Hl [env name rc Hsd | env url nm st o acts m Hsd Hp H | env id doc st o acts m Hsd Hp H | env r j known acts m Hsd _ H | key | d | env st keys].
  - destruct (startLocked_ctrl env n (str "static:" ++ name) [] rc) as [El Hc]. intros id r' Hr. rewrite El.
    destruct (Hc id r' Hr) as [? | (r & Hr0 & <-)]; [by left | by apply (Hl id)].
  - by apply (apply_listed env n url nm st o acts m Hsd (fun s i k => Hp s url i k)).
  - unfold applyGossip in H. destruct (gossip_map n id doc) as [[url nm] |]; [| by injection H as _ <-].
    by apply (apply_listed env n url nm st o acts m Hsd (fun s i k => Hp s url i k)).
  - destruct (startProvisional_ctrl _ _ _ _ _ _ _ H) as [-> | (nm & El & Hc)]; [done | by apply (listed_from (local_url r) nm n)].
  - destruct (stop_ctrl [] n key) as [El Hc]. intros id r' Hr. rewrite El.
    destruct (Hc id r' Hr) as [? | (r & Hr0 & <-)]; [by left | by apply (Hl id)].
  - done.
  - by destruct (ks_same env n st keys) as [k ->].
Qed.

Lemma reachable_listed n : reachable Pinned Joined sd n -> listed n.
Proof.
  intros [d Hs]. assert (node_inv (empty_node d) /\ listed (empty_node d)) as [Hi Hl].
  { split; [apply empty_inv |]. intros id r. simpl. by rewrite lookup_empty. }
  revert Hi Hl. induction Hs as [n | n n1 n2 Hs IH Hst]; intros Hi Hl; [done |].
  eapply step_listed; [exact (proj1 (steps_ok Pinned Joined sd _ _ Hi Hs)) | by apply IH | exact Hst].
Qed.

(** ** A turn of the supervisor *)

Section Turn.
Context (env : Env) (stunServers : list bytes) (Sprint_pins : nodestate.State -> bytes)
  (Sprint_local : bytes -> gmap bytes controller.Peer -> bool -> bytes).
Context (t : turn) (st : nodestate.State).
Context (Hsd : seed env = sd) (Hpin : forall url id key, nodestate.RoomKey_of st url id = Some key -> Pinned url id key).

(** The state file is the same throughout the turn, and the orders of the maps
    list what is in them. *)
Record calm : Prop := {
  c_file : t_file t = Some st;
  c_read : forall p url, t_read t p url = Some st;
  c_orders : forall p url n, covers (t_orders t p url n) n;
  c_gone : forall d url, is_Some (localApplied d !! url) -> url ∈ t_gone t d;
  c_last : forall n url, is_Some (last n !! url) -> url ∈ t_last t n;
  c_syncers : forall d url, url ∈ syncers d -> url ∈ t_syncers t d }.
Context (Hcalm : calm).

Lemma each_ok {A} (P : Daemon -> Prop) (R : A -> Daemon -> Prop) (f : A -> Daemon -> res error (list effect * Daemon)) l :
  (forall x d, x ∈ l -> P d -> exists acts d', f x d = Ok (acts, d') /\ P d' /\ R x d' /\ forall y, R y d -> R y d') ->
  forall d, P d -> exists acts d', each f l d = Ok (acts, d') /\ P d' /\ (forall x, x ∈ l -> R x d') /\ forall y, R y d -> R y d'.
Proof.
  induction l as [| x l IH]; intros Hf d Hd.
  { exists [], d. split_and!; try done. by intros ? ?%elem_of_nil. }
  destruct (Hf x d ltac:(by left) Hd) as (acts & d1 & H1 & Hp1 & Hx & Hr1).
  destruct (IH ltac:(intros y d0 Hy; apply Hf; by right) d1 Hp1) as (acts' & d2 & H2 & Hp2 & Hl & Hr2).
  exists (acts ++ acts'), d2. cbn [each]. rewrite H1. cbn [mbind res_bind]. rewrite H2. split_and!; [done | done | | auto].
  intros y [-> | Hy]%elem_of_cons; auto.
Qed.

(** What one application of a map does to the daemon. *)
Record applied (url : bytes) (nm : controller.NetMap) (d d' : Daemon) : Prop := {
  ap_inv : node_inv (nd d');
  ap_steps : steps Pinned Joined sd (nd d) (nd d');
  ap_last : last (nd d') = <[url := nm]> (last (nd d));
  ap_ctrl : ctrl_from url (nd d) (nd d');
  ap_settled : settled st url (nd d');
  ap_none : controller.nm_Rooms nm = [] -> no_room url (nd d');
  ap_rest : d' = set_nd (nd d') d }.

Lemma apply_at_ok p url nm d : node_inv (nd d) -> exists acts d', apply_at env t p url nm d = Ok (acts, d') /\ applied url nm d d'.
Proof.
  intros Hn. destruct Hcalm. unfold apply_at. rewrite c_read0.
  destruct (apply_rooms env (nd d) url nm st (t_orders t p url (nd d)) Hsd (Hpin url) Hn (c_orders0 p url (nd d)))
    as (acts & n' & Ha & Hn' & El & Hc & Hs & Hz).
  rewrite Ha. cbn [mbind res_bind]. eexists _, _. split; [done |]. split; simpl; try done.
  eapply st_step; [apply st_refl |]. eapply s_apply; [exact Hsd | | exact Ha]. intros s u i k [= <-]. apply Hpin.
Qed.

(** A controller or local room that is gone: no room of it runs, and its last map is empty. *)
Definition closed (url : bytes) (n : Node) : Prop := no_room url n /\ last n !! url = Some emptyMap.

Lemma applied_settled url nm d d' u : applied url nm d d' -> settled st u (nd d) -> settled st u (nd d').
Proof. intros [] Hs. destruct (decide (u = url)) as [-> |]; [done | by eapply settled_from]. Qed.
Lemma applied_closed url nm d d' u : applied url nm d d' -> (u = url -> nm = emptyMap) -> closed u (nd d) -> closed u (nd d').
Proof.
  intros [] He [Hno Hl]. unfold closed. rewrite ap_last0. destruct (decide (u = url)) as [-> |].
  - rewrite He, lookup_insert_eq by done. split; [apply ap_none0; by rewrite He | done].
  - rewrite lookup_insert_ne by done. split; [by eapply no_room_from | done].
Qed.
Lemma applied_closes url d d' : applied url emptyMap d d' -> closed url (nd d').
Proof. intros []. split; [by apply ap_none0 | by rewrite ap_last0, lookup_insert_eq]. Qed.

(** What no part of a turn changes but the one that is about it. *)
Record kept (d d' : Daemon) : Prop := {
  k_inv : node_inv (nd d');
  k_steps : steps Pinned Joined sd (nd d) (nd d');
  k_pins : prevPins d' = prevPins d;
  k_syncers : syncers d' = syncers d }.

Lemma kept_refl d : node_inv (nd d) -> kept d d.
Proof. intros H. split; [done | apply st_refl | done | done]. Qed.
Lemma kept_trans d1 d2 d3 : kept d1 d2 -> kept d2 d3 -> kept d1 d3.
Proof. intros [] []. split; [done | by eapply steps_trans | congruence | congruence]. Qed.
Lemma applied_kept url nm d d' : applied url nm d d' -> kept d d'.
Proof. intros []. split; [done | done | by rewrite ap_rest0 | by rewrite ap_rest0]. Qed.

(** A room of the state file that waits for its first configuration. *)
Definition waits (r : nodestate.LocalRoom) : Prop := forall j, nodestate.Config r = None -> nodestate.Join r = Some j ->
  IsValid (nodestate.j_IP j) = true -> Joined (nodestate.RoomID r) j.

Lemma sync_room_ok r d : waits r -> node_inv (nd d) -> (forall j, nodestate.Join r = Some j -> nodestate.l_Endpoints (nodestate.Invite j) <> []) ->
  exists acts d', sync_room env Sprint_local t st r d = Ok (acts, d') /\ kept d d'
    /\ forall u, is_Some (localApplied d !! u) -> is_Some (localApplied d' !! u).
Proof.
  intros Hw Hn He. unfold sync_room. destruct (nodestate.Config r) as [doc |] eqn:Hdoc.
  - set (key := Sprint_local _ _ _). set (d1 := set_localApplied _ d).
    assert (forall u, is_Some (localApplied d !! u) -> is_Some (localApplied d1 !! u)) as Hl1
      by (intros u Hu; simpl; rewrite lookup_insert_is_Some'; by right).
    assert (exists acts d2, (if bool_decide (default [] (localApplied d !! local_url r) = key) then Ok ([], d1)
      else apply_at env t PLocal (local_url r) (localNetmap r) d1) = Ok (acts, d2) /\ kept d d2 /\ localApplied d2 = localApplied d1)
      as (acts & d2 & E & Hk & El).
    { case_bool_decide; [exists [], d1; split_and!; [done | by destruct (kept_refl d Hn) | done] |].
      destruct (apply_at_ok PLocal (local_url r) (localNetmap r) d1 Hn) as (acts & d2 & E & Ha). exists acts, d2.
      split_and!; [done | | by destruct Ha as [_ _ _ _ _ _ ->]]. by destruct (applied_kept _ _ _ _ Ha). }
    rewrite E. cbn [mbind res_bind]. destruct (nodestate.config r) as [c | |]; [| exists acts, d2; split_and!; [done | done | by rewrite El] ..].
    unfold ensureSignKey. destruct (_ || _); eexists _, _; (split; [reflexivity |]); (split; [by destruct Hk | simpl; by rewrite El]).
  - destruct (nodestate.Join r) as [j |] eqn:Hjoin; [| exists [], d; split_and!; [done | by apply kept_refl | done]].
    destruct (IsValid (nodestate.j_IP j)) eqn:Hip.
    + pose proof (startProvisional_ok Pinned Joined sd env (nd d) r j (t_known t (local_url r)) (Hw j Hdoc Hjoin Hip) Hn) as Hp.
      destruct (startProvisional _ _ _ _ _) as [[acts n] | |] eqn:E; [| done | by destruct (He j)]. destruct Hp as [Hn' _].
      eexists _, _. split; [reflexivity |]. split; [| done]. split; simpl; try done.
      eapply st_step; [apply st_refl |]. eapply s_provisional; [done | by apply Hw | done].
    + unfold ensureJoining. destruct (bool_decide _); eexists _, _; (split; [reflexivity |]); (split; [by destruct (kept_refl d Hn) | done]).
Qed.

Context (Hends : Forall (fun r => forall j, nodestate.Join r = Some j -> nodestate.l_Endpoints (nodestate.Invite j) <> []) (nodestate.Local st)).
Context (Hwaits : Forall waits (nodestate.Local st)).

Lemma syncLocal_ok d : node_inv (nd d) -> exists acts d', syncLocal env stunServers Sprint_local t st d = Ok (acts, d') /\ kept d d'
  /\ forall u, is_Some (localApplied d !! u) -> u ∉ map local_url (nodestate.Local st) -> closed u (nd d').
Proof.
  intros Hn. unfold syncLocal.
  assert (exists acts0 d0, (if bool_decide (nodestate.Local st = []) then ([], d) else startPublicSTUN stunServers d) = (acts0, d0)
    /\ kept d d0 /\ localApplied d0 = localApplied d) as (acts0 & d0 & E0 & Hk0 & El0).
  { case_bool_decide; [exists [], d; split_and!; [done | by apply kept_refl | done] |]. unfold startPublicSTUN.
    destruct (_ || _); eexists _, _; (split; [reflexivity |]); (split; [by destruct (kept_refl d Hn) | done]). }
  rewrite E0.
  destruct (each_ok (fun d' => kept d d' /\ forall u, is_Some (localApplied d !! u) -> is_Some (localApplied d' !! u)) (fun _ _ => True)
    (sync_room env Sprint_local t st) (nodestate.Local st)) with (d := d0) as (acts1 & d1 & E1 & (Hk1 & Hl1) & _ & _).
  { intros r d' Hr [Hk Hl]. rewrite Forall_forall in Hends, Hwaits. destruct (sync_room_ok r d' (Hwaits r Hr) (k_inv _ _ Hk) (Hends r Hr)) as (acts & d2 & E & Hk' & Hl').
    exists acts, d2. split_and!; auto. by eapply kept_trans. }
  { split; [done | by rewrite El0]. }
  rewrite E1. cbn [mbind res_bind].
  set (want := map local_url (nodestate.Local st)). set (d2 := set_localApplied _ d1).
  destruct (each_ok (fun d' => kept d d') (fun u d' => closed u (nd d')) (fun url => apply_at env t PGone url emptyMap)
    (filter (fun url => is_Some (localApplied d1 !! url) /\ url ∉ want) (t_gone t d1))) with (d := d2) as (acts2 & d3 & E2 & Hk2 & Hc2 & _).
  { intros u d' _ Hk. destruct (apply_at_ok PGone u emptyMap d' (k_inv _ _ Hk)) as (acts & d4 & E & Ha). exists acts, d4. split_and!; [done | | |].
    - eapply kept_trans; [done | by eapply applied_kept].
    - by eapply applied_closes.
    - intros y. by eapply applied_closed. }
  { by destruct Hk1. }
  rewrite E2. cbn [mbind res_bind]. eexists _, _. split_and!; [done | done |].
  intros u Hu Hw. apply Hc2, list_elem_of_filter. split; [by split; [apply Hl1 |] |]. apply (c_gone Hcalm). by apply Hl1.
Qed.

Definition all_settled (n : Node) : Prop := forall u, is_Some (last n !! u) -> settled st u n.

Lemma applied_all_settled url nm d d' : applied url nm d d' -> all_settled (nd d) -> all_settled (nd d').
Proof.
  intros Ha Hs u Hu. destruct (decide (u = url)) as [-> |]; [by apply (ap_settled _ _ _ _ Ha) |].
  eapply applied_settled; [done |]. apply Hs. rewrite (ap_last _ _ _ _ Ha), lookup_insert_ne in Hu by done. done.
Qed.

(** What the later parts of a turn keep of what the earlier ones did. *)
Record stays (d d' : Daemon) : Prop := {
  s_closed : forall u, closed u (nd d) -> closed u (nd d');
  s_settled : all_settled (nd d) -> all_settled (nd d') }.

Lemma stays_trans d1 d2 d3 : stays d1 d2 -> stays d2 d3 -> stays d1 d3.
Proof. intros [] []. split; auto. Qed.

Lemma reapplyAll_ok d : node_inv (nd d) -> exists acts d', reapplyAll env t d = Ok (acts, d') /\ kept d d' /\ stays d d' /\ all_settled (nd d').
Proof.
  intros Hn. unfold reapplyAll. set (last0 := last (nd d)).
  destruct (each_ok (fun d' => kept d d' /\ stays d d' /\ forall u, is_Some (last (nd d') !! u) <-> is_Some (last0 !! u))
    (fun u d' => is_Some (last0 !! u) -> settled st u (nd d'))
    (fun url d0 => match last0 !! url with Some nm => apply_at env t PReapply url nm d0 | None => Ok ([], d0) end) (t_last t (nd d)))
    with (d := d) as (acts & d' & E & (Hk & Hs & Hl) & Hall & _).
  - intros u d' _ (Hk & [Hcl Hse] & Hl). destruct (last0 !! u) as [nm |] eqn:Hu.
    + destruct (apply_at_ok PReapply u nm d' (k_inv _ _ Hk)) as (acts & d2 & E & Ha). exists acts, d2. split; [done |].
      split; [split_and! | split].
      * eapply kept_trans; [done | by eapply applied_kept].
      * split; [| intros H; by eapply applied_all_settled, Hse].
        intros v Hv. eapply applied_closed; [done | | by apply Hcl]. intros ->. destruct Hv as [_ Hv]. unfold last0 in Hu. congruence.
      * intros v. rewrite (ap_last _ _ _ _ Ha), lookup_insert_is_Some'. rewrite Hl. split; [intros [<- | ?]; [by rewrite Hu | done] | by right].
      * intros _. by apply (ap_settled _ _ _ _ Ha).
      * intros v Hv Hs. eapply applied_settled; [done | by apply Hv].
    + exists [], d'. split_and!; try done.
  - split_and!; [by apply kept_refl | by split | done].
  - exists acts, d'. split_and!; [done | done | done |]. intros u Hu. apply Hall; [| by apply Hl]. apply (c_last Hcalm). by apply Hl.
Qed.

Lemma changed_pins_ok d : node_inv (nd d) -> exists acts d', changed_pins env Sprint_pins t st d = Ok (acts, d')
  /\ node_inv (nd d') /\ steps Pinned Joined sd (nd d) (nd d') /\ syncers d' = syncers d /\ prevPins d' = Sprint_pins st /\ stays d d'
  /\ (Sprint_pins st <> prevPins d -> all_settled (nd d')).
Proof.
  intros Hn. unfold changed_pins. case_bool_decide as Hp.
  { exists [], d. split_and!; try done; apply st_refl. }
  destruct (reapplyAll_ok (set_prevPins (Sprint_pins st) d) Hn) as (acts & d1 & E & Hk & [Hcl Hse] & Hall). rewrite E. cbn [mbind res_bind].
  destruct (ks_same env (nd d1) st (t_names t (nd d1))) as [k Ek].
  pose proof (s_ks Pinned Joined sd (nd d1) env st (t_names t (nd d1))) as Hstep.
  destruct (updateKillSwitchLocked _ _ _ _) as [acts1 n2]. simpl in Ek, Hstep. subst n2.
  eexists _, _. split; [reflexivity |]. destruct Hk as [Hi Hst Hpp Hsy]. simpl in *. split_and!; try done.
  - by apply ks_inv.
  - eapply st_step; [exact Hst | exact Hstep].
Qed.

Lemma start_syncers_ok l : forall d, let '(_, d') := start_syncers l d in
  nd d' = nd d /\ prevPins d' = prevPins d /\ forall u, u ∈ syncers d' <-> u ∈ l \/ u ∈ syncers d.
Proof.
  induction l as [| url l IH]; intros d; cbn [start_syncers].
  { split_and!; [done | done |]. intros u. split; [by right | intros [[]%elem_of_nil | ?]; done]. }
  case_bool_decide as Hin.
  - specialize (IH d). destruct (start_syncers l d) as [acts d']. destruct IH as (En & Ep & Hs). split_and!; [done | done |].
    intros u. rewrite Hs, elem_of_cons. split; [tauto | intros [[-> | ?] | ?]; auto].
  - specialize (IH (set_syncers ({[url]} ∪ syncers d) d)). destruct (start_syncers l _) as [acts d']. destruct IH as (En & Ep & Hs).
    split_and!; [done | done |]. intros u. rewrite Hs, elem_of_cons. simpl. rewrite elem_of_union, elem_of_singleton. tauto.
Qed.

Lemma stop_syncers_ok d : node_inv (nd d) -> exists acts d', each (stop_syncer env t st) (t_syncers t d) d = Ok (acts, d')
  /\ node_inv (nd d') /\ steps Pinned Joined sd (nd d) (nd d') /\ prevPins d' = prevPins d /\ stays d d'
  /\ (forall u, u ∈ syncers d' <-> u ∈ syncers d /\ u ∈ urls st)
  /\ (forall u, u ∈ syncers d -> u ∉ urls st -> no_room u (nd d')).
Proof.
  intros Hn.
  destruct (each_ok (fun d' => node_inv (nd d') /\ steps Pinned Joined sd (nd d) (nd d') /\ prevPins d' = prevPins d /\ stays d d'
      /\ (forall u, u ∈ syncers d' -> u ∈ syncers d) /\ (forall u, u ∈ syncers d -> u ∈ urls st \/ u ∈ syncers d' \/ no_room u (nd d'))
      /\ forall u, u ∈ syncers d -> u ∈ urls st -> u ∈ syncers d')
    (fun u d' => u ∉ urls st -> u ∉ syncers d') (stop_syncer env t st) (t_syncers t d))
    with (d := d) as (acts & d' & E & (Hi & Hst & Hpp & Hsty & Hsub & Hno & Hin) & Hout & _).
  - intros u d1 _ (Hi & Hst & Hpp & Hsty & Hsub & Hno & Hin). unfold stop_syncer.
    destruct (_ && _) eqn:Hb.
    + bool_hyps. destruct (apply_at_ok PRemoved u emptyMap (set_syncers (syncers d1 ∖ {[u]}) d1) Hi) as (acts & d2 & E & Ha).
      rewrite E. cbn [mbind res_bind]. eexists _, _. split; [reflexivity |].
      assert (syncers d2 = syncers d1 ∖ {[u]} /\ prevPins d2 = prevPins d1) as [Es Ep] by by destruct Ha as [_ _ _ _ _ _ ->].
      split; [split_and! | split].
      * apply (ap_inv _ _ _ _ Ha).
      * eapply steps_trans; [exact Hst | apply (ap_steps _ _ _ _ Ha)].
      * congruence.
      * eapply stays_trans; [exact Hsty |]. split; [intros v Hv; by eapply applied_closed | intros Hs; by eapply applied_all_settled].
      * intros v. rewrite Es, elem_of_difference. intros [Hv _]. by apply Hsub.
      * intros v Hv. rewrite Es, elem_of_difference, elem_of_singleton. destruct (decide (v = u)) as [-> |].
        -- right. right. by apply (applied_closes _ _ _ Ha).
        -- destruct (Hno v Hv) as [? | [? | ?]]; [by left | by right; left | right; right]. eapply no_room_from; [| apply (ap_ctrl _ _ _ _ Ha) | done]. done.
      * intros v Hv Hw. rewrite Es, elem_of_difference, elem_of_singleton. split; [by apply Hin | by intros ->].
      * intros _. rewrite Es, elem_of_difference, elem_of_singleton. tauto.
      * intros y Hy Hw. rewrite Es, elem_of_difference. intros [Hv _]. by apply (Hy Hw).
    + exists [], d1. split_and!; try done. intros Hw Hu. rewrite !bool_decide_eq_true_2 in Hb by done. by rewrite bool_decide_eq_false_2 in Hb.
  - split_and!; try done; [apply st_refl | intros u Hu; by right; left].
  - exists acts, d'. split_and!; try done.
    + intros u. split; [intros Hu; split; [by apply Hsub |] | intros [? ?]; by apply Hin].
      destruct (decide (u ∈ urls st)) as [| Hw]; [done |]. exfalso. by apply (Hout u (c_syncers Hcalm d u (Hsub u Hu)) Hw).
    + intros u Hu Hw. destruct (Hno u Hu) as [? | [Hs | ?]]; [done | | done]. exfalso. by apply (Hout u (c_syncers Hcalm d u Hu) Hw).
Qed.

(** C24: a turn of the supervisor that reads a state file succeeds. Afterwards
    exactly the controllers of the file are polled; no room of a controller that
    left the file runs, and no room of a local room that left it after a turn had
    applied its configuration; and when what is pinned, the exit, the DNS choice or
    the rooms turned off changed, every running room but the static ones is pinned
    in the file and not turned off. *)
Theorem supervise_spec d : reachable Pinned Joined sd (nd d) ->
  exists acts d', supervise env stunServers Sprint_pins Sprint_local t d = Ok (acts, d') /\ reachable Pinned Joined sd (nd d')
  /\ (forall url, url ∈ syncers d' <-> url ∈ urls st)
  /\ (forall url, url ∈ syncers d -> url ∉ urls st -> no_room url (nd d'))
  /\ (forall url, is_Some (localApplied d !! url) -> url ∉ map local_url (nodestate.Local st) -> no_room url (nd d'))
  /\ (Sprint_pins st <> prevPins d -> forall id r, rooms (nd d') !! id = Some r -> controller_ r <> [] ->
        nodestate.RoomKey_of st (controller_ r) id <> None /\ nodestate.IsOff st id = false).
Proof.
  intros Hr. pose proof (reachable_ok Pinned Joined sd _ Hr) as Hn. unfold supervise. rewrite (c_file Hcalm).
  destruct (syncLocal_ok d Hn) as (acts & d1 & E1 & [Hi1 Hs1 Hp1 Hsy1] & Hgone). rewrite E1. cbn [mbind res_bind].
  destruct (changed_pins_ok d1 Hi1) as (acts1 & d2 & E2 & Hi2 & Hs2 & Hsy2 & Hp2 & [Hcl2 Hse2] & Hall). rewrite E2. cbn [mbind res_bind].
  pose proof (start_syncers_ok (urls st) d2) as H3. destruct (start_syncers (urls st) d2) as [acts2 d3]. destruct H3 as (En3 & Ep3 & Hsy3).
  rewrite <- En3 in Hi2, Hs2, Hcl2, Hse2, Hall.
  destruct (stop_syncers_ok d3 Hi2) as (acts3 & d4 & E4 & Hi4 & Hs4 & Hp4 & [Hcl4 Hse4] & Hsy4 & Hno4). rewrite E4. cbn [mbind res_bind].
  assert (reachable Pinned Joined sd (nd d4)) as Hr4.
  { destruct Hr as [dm Hr]. exists dm. eapply steps_trans; [exact Hr |]. eapply steps_trans; [exact Hs1 |]. by eapply steps_trans. }
  eexists _, _. split; [reflexivity |]. split; [exact Hr4 |]. split_and!.
  - intros u. rewrite Hsy4, Hsy3. tauto.
  - intros u Hu Hw. apply Hno4; [| done]. apply Hsy3. right. by rewrite Hsy2, Hsy1.
  - intros u Hu Hw. apply Hcl4, Hcl2. by apply Hgone.
  - intros Hne id r Hid Hc. assert (all_settled (nd d4)) as Hs by (apply Hse4, Hall; congruence).
    destruct (reachable_listed _ Hr4 id r Hid) as [? | Hl]; [done |]. by apply (Hs _ Hl id r Hid).
Qed.
End Turn.
End Rooms.
End nodesyncinv.
