(* ===== verification/NodeSyncExample.v ===== *)
(** Turns of the supervisor at the nodes of NodeExample: a controller that left
    the state file, and a room without a controller that is turned off, or removed
    from the state file, while its configuration has not arrived. *)
From stdpp Require Import base gmap list strings.
From Stdlib Require Import ZArith Lia.
From S2P Require Import Prelude GoStrings Netip Crypto Obfs Identity Pki Store Controller DiscoMgr Config Names NodeState LocalSync.
From S2P Require Import Node NodeInv NodeExample NodeSync NodeSyncInv.

Open Scope Z_scope.

Module syncscenario.
Import nodestate node nodeinv nodesync nodesyncinv.

(** A turn that reads [st] everywhere, with the maps in the order of their keys. *)
Definition quiet (st : State) : turn :=
  let ids n := map fst (map_to_list (rooms n)) in
  MkTurn (Some st) (fun _ _ => Some st) (fun _ _ n => MkOrders [] [] (ids n) (ids n) (ids n)) (fun _ => [])
    (fun d => map fst (map_to_list (localApplied d))) (fun n => map fst (map_to_list (last n))) (fun d => elements (syncers d)) ids.

Lemma in_keys {A} (m : gmap bytes A) k : is_Some (m !! k) -> k ∈ map fst (map_to_list m).
Proof. intros [x Hx]. apply list_elem_of_fmap. exists (k, x). split; [done | by apply elem_of_map_to_list]. Qed.

Lemma quiet_calm st : calm (quiet st) st.
Proof.
  split; simpl; try done; [intros p url n id | intros d url | intros n url | intros d url]; try apply in_keys.
  apply elem_of_elements.
Qed.

Definition pins (st : State) : bytes := flat_map URL (Controllers st) ++ 32 :: flat_map off_ID (Off st).
Definition text (sig : bytes) (peers : gmap bytes controller.Peer) (off : bool) : bytes := sig.

(** The node of NodeExample polls its controller and runs two of its rooms; then
    the controller is taken out of the state file. *)
Definition before : Daemon :=
  MkDaemon nodescenario.n1 ∅ ∅ false {[nodescenario.url]} (pins nodescenario.state).

Notation turn_of e st d := (supervise (CR := nodescenario.quick) (J := nodescenario.listed) e [] pins text (quiet st) d).

Lemma supervise_spec_witness : exists acts d', turn_of nodescenario.env emptyState before = Ok (acts, d')
  /\ (forall url, url ∉ syncers d') /\ no_room nodescenario.url (nd d').
Proof.
  assert (forall url id key, RoomKey_of emptyState url id = Some key -> nodescenario.pinned url id key) as Hpin.
  { intros url id key. unfold RoomKey_of, localRoomKey. simpl. by destruct (_ || _). }
  destruct (supervise_spec (CR := nodescenario.quick) (J := nodescenario.listed) nodescenario.pinned nodescenario.joined (nodescenario.seedOf 1) nodescenario.env [] pins text
    (quiet emptyState) emptyState eq_refl Hpin (quiet_calm emptyState) (List.Forall_nil _) (List.Forall_nil _) before nodescenario.n1_reachable)
    as (acts & d' & E & _ & Hsy & Hno & _).
  exists acts, d'. split; [exact E |]. split.
  - intros url Hu. apply Hsy in Hu. by apply elem_of_nil in Hu.
  - assert (nodescenario.url ∈ syncers before) as Hin by (simpl; by apply elem_of_singleton). exact (Hno _ Hin (not_elem_of_nil _)).
Defined.

(** A node that was accepted into a room without a controller, and that turned
    the room off before the configuration came. *)
Definition accepted : LocalRoom :=
  MkLocalRoom (localscenario.roomOf 7) (str "den") (str "key") [] None []
    (Some (MkLocalJoin localscenario.link (str "five") (localscenario.addrOf 7 2))) ∅.
Definition off : State := SetOff (set_Local [accepted] emptyState) (localscenario.roomOf 7) (str "den") true.
Definition guest : Env :=
  MkEnv (nodescenario.seedOf 5) false [] true false false [] 0 [] (fun _ _ => true) (fun _ _ => true) (fun _ _ _ => true) (fun _ => []) (fun _ _ => [1]).
Definition idle : Daemon := MkDaemon (empty_node None) ∅ ∅ false ∅ (pins off).

(** A room that waits for its first configuration is brought up by every turn
    although it is turned off on this machine. *)
Theorem provisional_ignores_off : IsOff off (localscenario.roomOf 7) = true
  /\ match turn_of guest off idle with
     | Ok (acts, d') => match rooms (nd d') !! localscenario.roomOf 7 with Some _ => True | None => False end
         /\ existsb (fun e => match e with FetchConfig id => bool_decide (id = localscenario.roomOf 7) | _ => false end) acts = true
     | _ => False
     end.
Proof. vm_compute. repeat split. Qed.

(** A local room that leaves the state file while it waits for its first
    configuration, the pins being the same, keeps running: only rooms whose
    configuration was applied are stopped. *)
Definition waiting : State := set_Local [accepted] emptyState.
Theorem provisional_not_stopped : pins waiting = pins emptyState
  /\ match turn_of guest waiting (MkDaemon (empty_node None) ∅ ∅ false ∅ (pins waiting)) with
     | Ok (_, d1) =>
       match turn_of guest emptyState d1 with
       | Ok (_, d2) => match rooms (nd d2) !! localscenario.roomOf 7 with Some _ => True | None => False end
       | _ => False
       end
     | _ => False
     end.
Proof. vm_compute. repeat split. Qed.
End syncscenario.
