(* ===== verification/NodeLoops.v ===== *)
(** The daemon's loops (internal/node/node.go, dht.go, relaytransport.go,
    updates.go, cards.go, status.go): polling a controller, checking the external
    address, the relay and its transport, the DHT, and the addresses the node
    tells others.

    What the network answers, the clock and the orders of Go's maps are
    arguments; sleeping and starting a goroutine are events of the result. *)
From stdpp Require Import base gmap list strings.
From Stdlib Require Import ZArith Lia.
From S2P Require Import Prelude GoStrings GoText Netip Encoding Acl Crypto Obfs Identity Pki RelayProto Magicsock Store Controller DiscoMgr.
From S2P Require Import Config Names NodeState LocalSync Node Netcheck Gossip.

Open Scope Z_scope.

Module nodeloops.
Import node.

(** ** Polling a controller *)

Inductive answer : Type :=
  | Answered (nm : controller.NetMap) (stun : list bytes) (relays : list (bytes * bytes))
  | Woken                         (* the addresses changed: the poll was cancelled *)
  | Failed
  | Ended.                        (* the context is over *)

Inductive event : Type :=
  | EPoll (since : Z) | ENote (failed : bool) | ESleep (d : Z)
  | EServers (l : list bytes) | ERelays (l : list (bytes * bytes)) | EApply (nm : controller.NetMap).

Record syncer := MkSyncer { since : Z; backoff : Z }.
Definition start : syncer := MkSyncer 0 Second.

(** One pass of [sync]; false when the loop ends. *)
Definition sync1 (s : syncer) (a : answer) : list event * syncer * bool :=
  match a with
  | Ended => ([EPoll (since s)], s, false)
  | Woken => ([EPoll (since s)], s, true)
  | Failed => ([EPoll (since s); ENote true; ESleep (backoff s)], MkSyncer (since s) (Z.min (backoff s * 2) (30 * Second)), true)
  | Answered nm stun relays =>
    ([EPoll (since s); ENote false; EServers stun; ERelays relays; EApply nm], MkSyncer (controller.Version nm) Second, true)
  end.
Fixpoint sync (s : syncer) (l : list answer) : list event :=
  match l with
  | [] => []
  | a :: l => let '(es, s, on) := sync1 s a in es ++ if on : bool then sync s l else []
  end.

(** [noteSync]: when the last poll went well, and the last error. *)
Record syncInfo := MkSyncInfo { s_at : Z; s_err : bytes }.
Definition noteSync (m : gmap bytes syncInfo) (url : bytes) (err : option bytes) (now : Z) : gmap bytes syncInfo :=
  let s := default (MkSyncInfo time_zero []) (m !! url) in
  <[url := match err with Some e => MkSyncInfo (s_at s) e | None => MkSyncInfo now [] end]> m.

(** ** The external address *)

Record checker := MkChecker { current : list bytes; report : option netcheck.Report }.
Inductive tick_ := TServers (l : list bytes) | TTimer.
Inductive check_event := CCheck (servers : list bytes) | CNotify | CTimer.

(** One pass of [netcheckLoop]; [result] is what [netcheck.Check] reports. A
    first report differs from the zero one, whose kind of NAT is empty. *)
Definition netcheck1 (c : checker) (t : tick_) (result : netcheck.Report) : list check_event * checker :=
  let run servers :=
    if bool_decide (servers = []) then ([], MkChecker servers (report c))
    else
      (CCheck servers :: (match report c with
                          | Some old => if bool_decide (netcheck.NAT_String (netcheck.r_NAT old) = netcheck.NAT_String (netcheck.r_NAT result))
                                           && bool_decide (netcheck.Mapped old = netcheck.Mapped result) then [] else [CNotify]
                          | None => [CNotify]
                          end) ++ [CTimer], MkChecker servers (Some result)) in
  match t with
  | TServers l => if bool_decide (l = current c) then ([], c) else run l
  | TTimer => run (current c)
  end.

(** ** Addresses *)

(** [discoverLocal]: [addrs] are the addresses of the interfaces, as far as they
    are IP addresses. *)
Definition discoverLocal (addrs : list Addr) (port : Z) (exclude : list Prefix) : list AddrPort :=
  fold_left (fun out ip =>
    let ip := Unmap ip in
    if IsLoopback ip || IsLinkLocalUnicast ip || IsMulticast ip || IsUnspecified ip then out
    else if existsb (fun p => Contains p ip) exclude || negb (length out <? 8)%nat then out
    else out ++ [MkAddrPort ip port]) addrs [].

(** [ownAddrs]: [reports] in the order of their keys. *)
Definition room_subnets (n : Node) : list Prefix := (fun x => Masked (config.Address (cfg x.2))) <$> map_to_list (rooms n).
Definition add_own (uniq : list AddrPort) (a : AddrPort) : list AddrPort :=
  if apIsValid a && negb (ap_port a =? 0) && negb (bool_decide (a ∈ uniq)) && (length uniq <? Z.to_nat localsync.maxCardAddrs)%nat
  then uniq ++ [a] else uniq.
Definition ownAddrs (portMap : AddrPort) (reports : list netcheck.Report) (locals : list AddrPort) : list AddrPort :=
  fold_left add_own ((if apIsValid portMap then [portMap] else []) ++ flat_map netcheck.Mapped reports ++ locals) [].

(** [announcePort] *)
Definition announcePort (portMap : AddrPort) (reports : list netcheck.Report) (local : Z) : Z :=
  if apIsValid portMap then ap_port portMap
  else match List.find (fun r => negb (bool_decide (netcheck.Mapped r = []))) reports with
       | Some r => match netcheck.Mapped r with a :: _ => ap_port a | [] => local end
       | None => local
       end.

(** [discoMgr.path] *)
Definition path (d : discomgr.discoMgr) (now : Z) (id : bytes) : option (AddrPort * Z) :=
  match discomgr.peer d id with
  | Some p => let b := discomgr.best p in
              if negb (apIsValid (discomgr.addr b)) || (discomgr.discoStale <=? time_sub now (discomgr.at_ b)) then None
              else Some (discomgr.addr b, discomgr.rtt b)
  | None => None
  end.

(** ** The DHT *)

Section Dht.
Context (sha1 : bytes -> bytes).

Definition dhtEvery : Z := 10 * Minute.
Definition dhtKey (secret : bytes) (day : Z) : bytes :=
  take 20 (sha1 (str "zeropentime-dht-v1" ++ secret ++ put_be 8 (u64 day))).

(** [dhtRoomsLocked] *)
Definition dhtRooms (n : Node) : list (bytes * (bytes * list bytes)) :=
  omap (fun x => let '(key, r) := x in
    if config.DHT (cfg r) && negb (bool_decide (controller_ r = [])) then Some (key, (config.Secret (cfg r), snd <$> map_to_list (config.PeerNodes (cfg r))))
    else None) (map_to_list (rooms n)).

Inductive query := QAnnounce (key : bytes) (port : Z) | QLookup (key : bytes).

(** One round for a room: today's key is announced, yesterday's looked up. *)
Definition dht_room (peers : query -> list AddrPort) (port day : Z) (secret : bytes) : list query * list AddrPort :=
  let q1 := QAnnounce (dhtKey secret day) port in
  let q2 := QLookup (dhtKey secret (day - 1)) in
  ([q1; q2], fold_left (fun found p => if bool_decide (p ∈ found) then found else found ++ [p]) (peers q1 ++ peers q2) []).
Fixpoint dht_round (peers : bytes -> query -> list AddrPort) (port day : Z) (l : list (bytes * (bytes * list bytes)))
    (d : discomgr.discoMgr) : list query * discomgr.discoMgr :=
  match l with
  | [] => ([], d)
  | (id, (secret, ids)) :: l =>
    let '(qs, found) := dht_room (peers id) port day secret in
    let d := if bool_decide (found = []) then d else discomgr.addHints d ids found in
    let '(qs', d) := dht_round peers port day l d in (qs ++ qs', d)
  end.
End Dht.

(** ** The relay *)

Record relayState := MkRelayState { relayAddr : option bytes; sessions : list bytes (* started and not cancelled *) }.
Inductive relay_event := RCancel (addr : bytes) | RStart (addr key : bytes) (at_ : AddrPort).

(** [ensureRelay] of a node with a state file; [resolve] is [netcheck.Resolve]. *)
Definition ensureRelay (resolve : bytes -> list AddrPort) (relays : list (bytes * bytes)) (s : relayState) : list relay_event * relayState :=
  match relays with
  | [] => ([], s)
  | (addr, key) :: _ =>
    if bool_decide (relayAddr s = Some addr) then ([], s)
    else
      match resolve addr with
      | [] => ([], s)
      | a :: _ =>
        match relayAddr s with
        | Some old => ([RCancel old; RStart addr key a], MkRelayState (Some addr) [addr])
        | None => ([RStart addr key a], MkRelayState (Some addr) (addr :: sessions s))
        end
      end
  end.

Definition udpRelayGrace : Z := 8 * Second.

(** [waitUDPSilent]: each pass sees the time and whether the relay is ready;
    [None] when the context ends first, else how many passes it took. *)
Fixpoint waitUDPSilent (lastOK : Z) (passes : list (Z * bool)) : option nat :=
  match passes with
  | [] => None
  | (now, ready) :: passes =>
    let lastOK := if ready : bool then now else lastOK in
    if udpRelayGrace <=? time_sub now lastOK then Some O else S <$> waitUDPSilent lastOK passes
  end.

Inductive transport := Auto | UDP | VLESS.
Definition transport_of (mode : bytes) : transport :=
  if bool_decide (mode = str "udp") then UDP else if bool_decide (mode = str "vless") then VLESS else Auto.

(** What happens in one pass of [relayTransport]: when UDP was last known to be
    good and how it does, and whether the stream could be opened. *)
Record pass := MkPass { p_start : Z; p_udp : list (Z * bool); p_dialed : bool; p_after : bool (* does the context live after the pause? *) }.
Inductive transport_event := TDial | TPause (d : Z).

Fixpoint relayTransport (mode : transport) (backoff : Z) (l : list pass) : list transport_event :=
  match l with
  | [] => []
  | p :: l =>
    if match mode with VLESS => false | _ => match waitUDPSilent (p_start p) (p_udp p) with None => true | Some _ => false end end then []
    else if p_dialed p then TDial :: relayTransport mode Second l
    else TDial :: TPause backoff :: if p_after p then relayTransport mode (Z.min (backoff * 2) Minute) l else []
  end.
(** With UDP only, or without VLESS settings that parse, there is nothing to do. *)
Definition run_transport (mode : bytes) (vless : option bool) (l : list pass) : list transport_event :=
  match transport_of mode, vless with
  | UDP, _ | _, None | _, Some false => []
  | m, Some true => relayTransport m Second l
  end.

(** [relayWrite]: through the stream when one is up. *)
Definition relayWrite (stream : bool) : transport := if stream then VLESS else UDP.

(** ** Updates and cards *)

(** One pass of [updateLoop]: what is remembered, and whether it is told. *)
Definition update_seen (avail : bytes) (found : option bytes) : bytes * bool :=
  match found with
  | Some v => (v, negb (bool_decide (avail = v)))
  | None => (avail, false)
  end.

(** One pass of [gossipCards]: whom to swap cards with, and the pause. *)
Definition card_pass (shuffled : list Addr) : list Addr * Z :=
  (take 2 shuffled, if bool_decide (shuffled = []) then 10 * Second else gossip.cardsEvery).

(** ** Polling, from the history *)

(** The version of the last map received, and the failures since. *)
Definition last_version (l : list answer) : Z :=
  fold_left (fun v a => match a with Answered nm _ _ => controller.Version nm | _ => v end) l 0.
Definition fails (l : list answer) : nat :=
  fold_left (fun k a => match a with Answered _ _ _ => O | Failed => S k | _ => k end) l O.
Definition pause (k : nat) : Z := Z.min (2 ^ Z.of_nat k) 30 * Second.
Definition pass_events (v : Z) (k : nat) (a : answer) : list event :=
  EPoll v :: match a with
             | Answered nm stun relays => [ENote false; EServers stun; ERelays relays; EApply nm]
             | Failed => [ENote true; ESleep (pause k)]
             | _ => []
             end.

Lemma pause_double k : Z.min (pause k * 2) (30 * Second) = pause (S k).
Proof.
  unfold pause. rewrite Nat2Z.inj_succ, Z.pow_succ_r by lia. pose proof (Z.pow_pos_nonneg 2 (Z.of_nat k) ltac:(lia) ltac:(lia)).
  unfold Second. lia.
Qed.

Lemma sync_state l : forall s hist, since s = last_version hist -> backoff s = pause (fails hist) -> Ended ∉ l ->
  forall a, sync s (l ++ [a]) = sync s l ++ pass_events (last_version (hist ++ l)) (fails (hist ++ l)) a.
Proof.
  induction l as [| x l IH]; intros s hist Hv Hb Hne a.
  - rewrite app_nil_r. simpl. rewrite <- Hv. unfold pass_events. rewrite <- Hb. by destruct a.
  - apply not_elem_of_cons in Hne as [Hx Hne]. rewrite (cons_middle x hist l), app_assoc.
    assert (forall s', since s' = last_version (hist ++ [x]) -> backoff s' = pause (fails (hist ++ [x])) ->
      sync s' (l ++ [a]) = sync s' l ++ pass_events (last_version ((hist ++ [x]) ++ l)) (fails ((hist ++ [x]) ++ l)) a) as IH'
      by (intros; by apply IH).
    unfold last_version, fails in *. rewrite !(fold_left_app _ hist) in IH'. rewrite <- app_assoc in *. rewrite !(fold_left_app _ hist).
    cbn [app sync]. destruct x as [nm stun relays | | |]; cbn [sync1]; [| | | done].
    + rewrite IH' by (by simpl). by rewrite !fold_left_app.
    + rewrite IH' by (by simpl). by rewrite !fold_left_app.
    + rewrite IH' by (simpl; rewrite ?Hb, ?pause_double; done). by rewrite !fold_left_app.
Qed.

(** each poll of a controller asks for what is newer than the last map
    received, and the pause after a failure depends only on the failures since
    then: 1, 2, 4, ... seconds, never more than 30; a map that is received is
    applied at once, with its relays and STUN servers. *)
Theorem sync_history l a : Ended ∉ l ->
  sync start (l ++ [a]) = sync start l ++ pass_events (last_version l) (fails l) a.
Proof. intros H. by apply (sync_state l start []). Qed.

(** ** What the controller is told *)

Definition netcheck_run (c : checker) (l : list (tick_ * netcheck.Report)) : list check_event * checker :=
  fold_left (fun s x => let '(es, c) := netcheck1 s.2 x.1 x.2 in (s.1 ++ es, c)) l ([], c).

(** What another node or the controller can tell of a report. *)
Definition told (r : option netcheck.Report) : option (bytes * list AddrPort) :=
  (fun r => (netcheck.NAT_String (netcheck.r_NAT r), netcheck.Mapped r)) <$> r.

(** every check whose report differs wakes the polls of the node: when none
    is woken the kind of NAT and the addresses are as before. *)
Theorem unnotified_same c t result : let '(es, c') := netcheck1 c t result in CNotify ∉ es -> told (report c') = told (report c).
Proof.
  unfold netcheck1. assert (forall l, let '(es, c') := (if bool_decide (l = []) then ([], MkChecker l (report c))
    else (CCheck l :: (match report c with
                          | Some old => if bool_decide (netcheck.NAT_String (netcheck.r_NAT old) = netcheck.NAT_String (netcheck.r_NAT result))
                                           && bool_decide (netcheck.Mapped old = netcheck.Mapped result) then [] else [CNotify]
                          | None => [CNotify]
                          end) ++ [CTimer], MkChecker l (Some result))) in CNotify ∉ es -> told (report c') = told (report c)) as H.
  { intros l. case_bool_decide; [done |]. destruct (report c) as [old |]; simpl.
    - destruct (_ && _) eqn:Hb; simpl.
      + bool_hyps. intros _. unfold told. simpl. congruence.
      + intros Hn. exfalso. apply Hn. right. by left.
    - intros Hn. exfalso. apply Hn. right. by left. }
  destruct t as [l |]; [case_bool_decide; [done | apply H] | apply H].
Qed.

(** ** Addresses and cards *)

Lemma add_own_inv l : forall uniq, NoDup uniq -> (length uniq <= Z.to_nat localsync.maxCardAddrs)%nat ->
  Forall (fun a => apIsValid a = true /\ ap_port a <> 0) uniq ->
  let r := fold_left add_own l uniq in
  NoDup r /\ (length r <= Z.to_nat localsync.maxCardAddrs)%nat /\ Forall (fun a => apIsValid a = true /\ ap_port a <> 0) r
  /\ forall a, a ∈ r -> a ∈ uniq \/ a ∈ l.
Proof.
  induction l as [| x l IH]; intros uniq Hd Hl Hv; cbv zeta; cbn [fold_left]; [split_and!; [done .. | by left] |].
  assert (forall u, NoDup u -> (length u <= Z.to_nat localsync.maxCardAddrs)%nat -> Forall (fun a => apIsValid a = true /\ ap_port a <> 0) u ->
    (forall a, a ∈ u -> a ∈ uniq \/ a = x) -> let r := fold_left add_own l u in
    NoDup r /\ (length r <= Z.to_nat localsync.maxCardAddrs)%nat /\ Forall (fun a => apIsValid a = true /\ ap_port a <> 0) r
    /\ forall a, a ∈ r -> a ∈ uniq \/ a ∈ x :: l) as H.
  { intros u H1 H2 H3 Hu. destruct (IH u H1 H2 H3) as (? & ? & ? & Hi). split_and!; [done .. |]. intros a Ha.
    destruct (Hi a Ha) as [Ha' | ?]; [destruct (Hu a Ha') as [? | ->]; [by left | right; by left] | right; by right]. }
  unfold add_own at 2 4 6 8. destruct (_ && _) eqn:Hc; [| apply H; [done .. | by left]].
  bool_hyps. assert (length uniq < Z.to_nat localsync.maxCardAddrs)%nat by by apply Nat.ltb_lt. apply H.
  - apply NoDup_app. split_and!; [done | | apply NoDup_singleton]. intros a Ha ->%list_elem_of_singleton. done.
  - rewrite length_app. simpl. lia.
  - apply Forall_app. split; [done |]. constructor; [| constructor]. split; [done | lia].
  - intros a [Ha | ->%list_elem_of_singleton]%elem_of_app; auto.
Qed.

(** The addresses a node gives out: none twice, at most twelve, each valid, with
    a port, and one that the router, a check or the machine reported. *)
Lemma ownAddrs_spec pm reports locals : let r := ownAddrs pm reports locals in
  NoDup r /\ zlen r <= localsync.maxCardAddrs /\ Forall (fun a => apIsValid a = true /\ ap_port a <> 0) r
  /\ forall a, a ∈ r -> a = pm \/ a ∈ flat_map netcheck.Mapped reports \/ a ∈ locals.
Proof.
  cbv zeta. unfold ownAddrs. set (l := _ ++ _).
  destruct (add_own_inv l [] ltac:(constructor) ltac:(simpl; lia) ltac:(constructor)) as (H1 & H2 & H3 & H4).
  split_and!; [done | unfold zlen, localsync.maxCardAddrs in *; lia | done |]. intros a Ha. destruct (H4 a Ha) as [[]%elem_of_nil | Hin]. unfold l in Hin.
  rewrite !elem_of_app in Hin. destruct Hin as [Hp | ?]; [left | by right].
  destruct (apIsValid pm); [by apply list_elem_of_singleton in Hp | by apply elem_of_nil in Hp].
Qed.

(** a member takes the card of a node: the card that a node makes of its own
    addresses is accepted by every node whose clock is less than five minutes
    behind or two hours ahead, and names at most twelve addresses, each valid
    and one that the router, a check or the machine reported. *)
Theorem own_card_accepted `{CL : CryptoLaws} id roomID disco pm reports locals now now' c :
  length id = 32%nat -> bytes_ok id -> identity.IsZero disco = false -> 0 <= now < 2 ^ 62 -> 0 <= now' < 2 ^ 62 ->
  now - 5 * Minute <= now' <= now + localsync.cardTTL - Second ->
  localsync.myCard id roomID disco (ownAddrs pm reports locals) now = Some c ->
  localsync.verify c roomID now' = Ok tt /\ localsync.c_NodeID c = identity.NodeID id
  /\ forall a, a ∈ localsync.Endpoints c -> a = pm \/ a ∈ flat_map netcheck.Mapped reports \/ a ∈ locals.
Proof.
  intros Hl Hb Hd Hn Hn' Hskew Hc. destruct (ownAddrs_spec pm reports locals) as (_ & Hlen & _ & Hfrom).
  unfold localsync.myCard in Hc. case_bool_decide as He; [done |]. injection Hc as <-. split_and!; [| done | exact Hfrom].
  apply localsync.verify_spec.
  assert (localsync.unix_time (pki.Unix now) = now - now `mod` Second) as Ht.
  { unfold localsync.unix_time, pki.Unix. rewrite int64_small; [pose proof (Z.div_mod now Second ltac:(by cbv)); lia |].
    unfold localsync.unixToInternal, Second in *. pose proof (Z.div_pos now 1000000000 ltac:(lia) ltac:(lia)).
    pose proof (Z.div_le_upper_bound now 1000000000 (2 ^ 62) ltac:(lia) ltac:(lia)). lia. }
  pose proof (Z.mod_pos_bound now Second ltac:(by cbv)) as Hm. split; cbn.
  - done.
  - unfold identity.PublicKey, identity.Sign. exists (ed_public id), (ed_sign id (localsync.card_signedPart
      (localsync.MkPeerCard roomID (identity.NodeID id) (encode64 (ed_public id)) disco (ownAddrs pm reports locals) (pki.Unix now) []))).
    split_and!; [apply base64_roundtrip; by apply ed_public_ok | unfold zlen; by rewrite length_ed_public
      | done | apply base64_roundtrip; apply ed_sign_ok | apply ed_verify_sign].
  - rewrite Ht. split; [unfold Minute in *; lia |]. unfold time_sub, localsync.cardTTL, Minute in *. lia.
  - exact Hd.
  - split; [| done]. destruct (ownAddrs pm reports locals); [done |]. rewrite zlen_cons. pose proof (zlen_nonneg l). lia.
Qed.

(** ** The DHT *)

(** A node that looks a room up on the day another one announced itself, or on
    the day after, looks under the key of the announcement. *)
Lemma dht_meet sha1 secret day day' port port' peers peers' : day' = day \/ day' = day + 1 ->
  let announced := (dht_room sha1 peers port day secret).1 in
  let asked := (dht_room sha1 peers' port' day' secret).1 in
  exists k, QAnnounce k port ∈ announced /\ (QAnnounce k port' ∈ asked \/ QLookup k ∈ asked).
Proof.
  intros Hd. exists (dhtKey sha1 secret day). split; [by left |]. destruct Hd as [-> | ->]; [left; by left | right].
  unfold dht_room. simpl. replace (day + 1 - 1) with day by lia. right. by left.
Qed.

(** ** The relay *)

(** At most one session with a relay lives, the one of the address that is remembered. *)
Definition one_relay (s : relayState) : Prop := sessions s = match relayAddr s with Some a => [a] | None => [] end.
Lemma ensureRelay_one resolve relays s : one_relay s -> one_relay (ensureRelay resolve relays s).2.
Proof.
  unfold one_relay, ensureRelay. intros H. destruct relays as [| [addr key] relays]; [done |]. case_bool_decide; [done |].
  destruct (resolve addr) as [| a l]; [done |]. destruct (relayAddr s) as [old |]; [done |]. simpl. by rewrite H.
Qed.

(** The latest time at which the relay was ready. *)
Fixpoint last_ready (lastOK : Z) (l : list (Z * bool)) : Z :=
  match l with [] => lastOK | (now, ready) :: l => last_ready (if ready : bool then now else lastOK) l end.

(** The wait ends at the first pass that sees eight seconds without an answer. *)
Lemma waitUDPSilent_spec l : forall lastOK k, waitUDPSilent lastOK l = Some k <->
  (exists now ready, l !! k = Some (now, ready) /\ udpRelayGrace <= time_sub now (last_ready lastOK (take (S k) l)))
  /\ forall j now ready, (j < k)%nat -> l !! j = Some (now, ready) -> time_sub now (last_ready lastOK (take (S j) l)) < udpRelayGrace.
Proof.
  induction l as [| [now ready] l IH]; intros lastOK k; cbn [waitUDPSilent].
  { split; [done |]. intros [(? & ? & H & _) _]. by rewrite lookup_nil in H. }
  destruct (Z.leb_spec udpRelayGrace (time_sub now (if ready then now else lastOK))) as [Hle | Hlt].
  - split.
    + intros [= <-]. split; [by exists now, ready |]. intros j ? ? Hj. lia.
    + intros [_ Hall]. destruct k as [| k]; [done |]. specialize (Hall O now ready ltac:(lia) eq_refl). simpl in Hall. lia.
  - destruct k as [| k].
    + split; [intros (? & ? & [=])%fmap_Some |]. intros [(n & r & [= <- <-] & H) _]. simpl in H. lia.
    + rewrite fmap_Some. split.
      * intros (k' & Hk & [= ->]). apply IH in Hk as [Hk Hall]. split; [exact Hk |].
        intros [| j] n r Hj; [intros [= <- <-]; simpl; lia | intros Hn; apply (Hall j n r ltac:(lia) Hn)].
      * intros [Hk Hall]. exists k. split; [| done]. apply IH. split; [exact Hk |].
        intros j n r Hj Hn. apply (Hall (S j) n r ltac:(lia) Hn).
Qed.

(** Every dial of the stream in automatic mode follows a wait of eight silent
    seconds; with VLESS only there is no wait, with UDP only no dial. *)
Definition silent (p : pass) : Prop := exists k, waitUDPSilent (p_start p) (p_udp p) = Some k.
Definition dials (es : list transport_event) : nat := length (List.filter (fun e => match e with TDial => true | _ => false end) es).
Theorem transport_spec mode vless l : let es := run_transport mode vless l in
  (dials es <= length l)%nat
  /\ (transport_of mode = UDP \/ vless <> Some true -> es = [])
  /\ (transport_of mode = Auto -> Forall silent (take (dials es) l))
  /\ forall d, TPause d ∈ es -> Second <= d <= Minute.
Proof.
  cbv zeta. unfold run_transport.
  assert (forall m b l, m <> UDP -> Second <= b <= Minute -> let es := relayTransport m b l in
    (dials es <= length l)%nat /\ (m = Auto -> Forall silent (take (dials es) l)) /\ forall d, TPause d ∈ es -> Second <= d <= Minute) as H.
  { clear. intros m b l Hm. revert b. induction l as [| p l IH]; intros b Hb; cbv zeta; cbn [relayTransport].
    { split_and!; [done | by constructor | by intros ? ?%elem_of_nil]. }
    destruct (match m with VLESS => false | _ => _ end) eqn:Hw.
    { split_and!; [apply Nat.le_0_l | by constructor | by intros ? ?%elem_of_nil]. }
    assert (m = Auto -> silent p) as Hs by (intros ->; unfold silent; destruct (waitUDPSilent _ _); [eauto | done]).
    destruct (p_dialed p).
    - destruct (IH Second ltac:(by cbv)) as (H1 & H2 & H3). unfold dials in *. simpl. split_and!; [lia | by intros E; constructor; auto |].
      intros d [? | ?]%elem_of_cons; [done | by apply H3].
    - assert (forall es, es = (if p_after p then relayTransport m (Z.min (b * 2) Minute) l else []) ->
        (dials es <= length l)%nat /\ (m = Auto -> Forall silent (take (dials es) l)) /\ forall d, TPause d ∈ es -> Second <= d <= Minute) as Hr.
      { intros es ->. destruct (p_after p); [apply IH; unfold Second, Minute in *; lia |].
        split_and!; [apply Nat.le_0_l | by constructor | by intros ? ?%elem_of_nil]. }
      destruct (Hr _ eq_refl) as (H1 & H2 & H3). unfold dials in *. simpl. split_and!; [lia | by intros E; constructor; auto |].
      intros d [? | [[= ->] | ?]%elem_of_cons]%elem_of_cons; [done | done | by apply H3]. }
  destruct (transport_of mode) eqn:Hm, vless as [[|] |]; try (split_and!; [apply Nat.le_0_l | done | by constructor | by intros ? ?%elem_of_nil]).
  - destruct (H Auto Second l ltac:(done) ltac:(by cbv)) as (? & ? & ?). split_and!; [done | by intros [? | ?] | done | done].
  - destruct (H VLESS Second l ltac:(done) ltac:(by cbv)) as (? & ? & ?). split_and!; [done | by intros [? | ?] | done | done].
Qed.

End nodeloops.
