(* ===== verification/Status.v ===== *)
(** What a running node tells about itself (internal/node/status.go) in the
    documents of the local control channel (internal/control/control.go).

    [Status] reads the state file, the node's tables and what the rooms and the
    AmneziaWG devices answer; the rooms come in the order that sorting by name
    gives them. The theorems: the statistics of a peer are the lines after its
    key, and the choice of an exit is told as it was made. *)
From stdpp Require Import base gmap list strings sets.
From Stdlib Require Import ZArith Lia.
From S2P Require Import Prelude GoStrings GoText Netip NetText Encoding Crypto Identity Vless Magicsock Pki Controller DiscoMgr Config NodeState Url Links Node Cmd Netcheck NodeLoops.

Open Scope Z_scope.

Module control.
Record ControllerStatus := MkControllerStatus { c_URL : bytes; LastSync : Z; c_Error : bytes; c_NAT : bytes; Mapped : list AddrPort }.
Record Exit_ := MkExit { Choice : bytes; x_Room : bytes; x_Member : bytes; Active : bool; AllowLAN : bool }.
Record Peer := MkPeer {
  p_Name : bytes; p_NodeID : bytes; IP : Addr; AllowedIPs : list Prefix; Endpoint : bytes; Path : bytes; ExitOffered : bool; RTT : Z;
  LastHandshake : Z (* nanoseconds, [time_zero] for none *); RxBytes : Z; TxBytes : Z }.
Record Room := MkRoom {
  r_Name : bytes; r_ID : bytes; Interface : bytes; Address : Prefix; Broadcast : bytes; Routes : list Prefix; Routing : list Prefix;
  r_ExitNode : bool; r_Exit : bool; r_DNS : list Addr; r_Zone : bytes; r_Version : Z; r_Peers : list Peer }.
Record Status := MkStatus {
  NodeID : bytes; Version : bytes; Started : Z; UDPPort : Z; PortMap : AddrPort; Relay : bytes; RelayReady : bool; RelayVia : bytes;
  Controllers : list ControllerStatus; Rooms : list Room; Exit : Exit_; KillSwitch : bool; DNS : list Addr; DNSRoom : bytes;
  UpdateAvailable : bytes; Off : list nodestate.OffRoom }.
End control.

Module status.
Import node.

(** ** The devices' statistics *)

Record uapiPeer := MkUapiPeer { endpoint : bytes; handshake : Z; rx : Z; tx : Z }.
Definition no_peer : uapiPeer := MkUapiPeer [] time_zero 0 0.

(** [bufio.Scanner]: lines without their end; it stops at one of 64 KB. *)
Definition drop_cr (l : bytes) : bytes := match rev l with 13 :: r => rev r | _ => l end.
Fixpoint scan_lines (l : list bytes) : list bytes :=
  match l with
  | [] | [[]] => []
  | x :: l => if 65536 <=? zlen x then [] else drop_cr x :: scan_lines l
  end.

(** [ParseInt] and [ParseUint] with the error ignored: what does not fit is the
    nearest number that does, what is no number is zero. *)
Definition parse_int (v : bytes) : Z :=
  match ParseInt v with
  | Some n => n
  | None =>
    let '(neg, d) := match v with 43 :: r => (false, r) | 45 :: r => (true, r) | _ => (false, v) end in
    match d, digits_value 0 d with _ :: _, Some _ => if neg then - 2 ^ 63 else 2 ^ 63 - 1 | _, _ => 0 end
  end.
Definition parse_uint (v : bytes) : Z :=
  match v, digits_value 0 v with _ :: _, Some n => Z.min n (2 ^ 64 - 1) | _, _ => 0 end.

(** The loop: the peer whose lines are read, its values and what is collected. *)
Record uapi := MkUapi { cur : option bytes; p : uapiPeer; sec : Z; out : gmap bytes uapiPeer }.
Definition flush (u : uapi) : gmap bytes uapiPeer :=
  match cur u with
  | Some k => <[k := MkUapiPeer (endpoint (p u)) (if 0 <? sec u then sec u * Second else handshake (p u)) (rx (p u)) (tx (p u))]> (out u)
  | None => out u
  end.
Definition uapi_line (u : uapi) (kv : bytes * bytes) : uapi :=
  let '(k, v) := kv in
  if bool_decide (k = str "public_key") then
    match vless.hex_decode v with
    | Some b => if zlen b =? identity.KeyLen then MkUapi (Some b) no_peer 0 (flush u) else MkUapi None (p u) (sec u) (flush u)
    | None => MkUapi None (p u) (sec u) (flush u)
    end
  else if bool_decide (k = str "endpoint") then MkUapi (cur u) (MkUapiPeer v (handshake (p u)) (rx (p u)) (tx (p u))) (sec u) (out u)
  else if bool_decide (k = str "last_handshake_time_sec") then MkUapi (cur u) (p u) (parse_int v) (out u)
  else if bool_decide (k = str "rx_bytes") then MkUapi (cur u) (MkUapiPeer (endpoint (p u)) (handshake (p u)) (parse_uint v) (tx (p u))) (sec u) (out u)
  else if bool_decide (k = str "tx_bytes") then MkUapi (cur u) (MkUapiPeer (endpoint (p u)) (handshake (p u)) (rx (p u)) (parse_uint v)) (sec u) (out u)
  else u.
Definition parse_pairs (l : list (bytes * bytes)) : gmap bytes uapiPeer := flush (fold_left uapi_line l (MkUapi None no_peer 0 ∅)).
Definition parseUAPI (text : bytes) : gmap bytes uapiPeer :=
  parse_pairs (omap (fun l => let '(k, v, ok) := Cut 61 l in if ok : bool then Some (k, v) else None) (scan_lines (Split 10 text))).

(** ** The node's status *)

(** What the node keeps besides the fields of [Node]: who it is, its relay
    session (address, ready, over a stream), the polls and the checks. *)
Record Self := MkSelf {
  id : bytes; version : bytes; started : Z; port : Z; updateAvail : bytes; relay : option (bytes * bool * bool); portMap : AddrPort;
  syncs : gmap bytes nodeloops.syncInfo; reports : gmap bytes netcheck.Report }.
(** What a running room answers. *)
Record Live := MkLive { l_Exit : bool; l_DNS : list Addr; l_Zone : bytes; l_Ifname : bytes; l_Stats : bytes }.

Definition controller_status (me : Self) (c : nodestate.ControllerState) : control.ControllerStatus :=
  let url := nodestate.URL c in
  let y := default (nodeloops.MkSyncInfo time_zero []) (syncs me !! url) in
  let '(nat, mapped) := match reports me !! url with Some r => (netcheck.NAT_String (netcheck.r_NAT r), netcheck.Mapped r) | None => ([], []) end in
  control.MkControllerStatus url (nodeloops.s_at y) (nodeloops.s_err y) nat mapped.

(** The first address that is one host's. *)
Definition host_ip (l : list Prefix) : Addr :=
  match List.find (fun a => (pfx_bits a =? 32) || (pfx_bits a =? 128)) l with Some a => pfx_ip a | None => AddrZero end.

(** How a peer is reached; the time of its last handshake decides in rooms
    whose members are not known by their nodes. *)
Definition peer_path (n : Node) (now : Z) (node : bytes) (handshake : Z) : bytes * Z :=
  match disco n with
  | Some d =>
    if bool_decide (node = []) then
      (if negb (handshake =? time_zero) && (time_sub now handshake <? 3 * Minute) then str "direct" else str "none", 0)
    else match nodeloops.path d now node with
         | Some (addr, rtt) => (if magicsock.IsRelay addr then str "relay" else str "direct", rtt)
         | None => (str "none", 0)
         end
  | None => (if negb (handshake =? time_zero) && (time_sub now handshake <? 3 * Minute) then str "direct" else str "none", 0)
  end.

Definition peer_status (n : Node) (now : Z) (cfg : config.Room) (stats : gmap bytes uapiPeer) (p : config.Peer) : control.Peer :=
  let node := default [] (config.PeerNodes cfg !! config.PublicKey p) in
  let u := default no_peer (stats !! config.PublicKey p) in
  let '(path, rtt) := peer_path n now node (handshake u) in
  control.MkPeer (config.p_Name p) node (host_ip (config.AllowedIPs p)) (config.AllowedIPs p) (endpoint u) path
    (negb (bool_decide (node = [])) && bool_decide (node ∈ config.ExitPeers cfg)) rtt (handshake u) (rx u) (tx u).

Definition room_status (n : Node) (now : Z) (key : bytes) (r : running) (l : Live) : control.Room :=
  let c := cfg r in
  let local := bool_decide (controller_ r = []) in
  control.MkRoom (config.Name c) (if local then [] else key) (l_Ifname l) (config.Address c) (config.Broadcast c) (config.Routes c) (config.Routing c)
    (config.ExitNode c) (l_Exit l) (l_DNS l) (l_Zone l) (if local then 0 else default 0 (versions n !! key))
    (peer_status n now c (parseUAPI (l_Stats l)) <$> config.Peers c).

(** What a room adds to the exit and the DNS of the whole node. *)
Definition note_exit (c : config.Room) (room : control.Room) (x : control.Exit_) : control.Exit_ :=
  if control.r_Exit room then
    let member := match List.find (fun p => negb (bool_decide (control.p_NodeID p = [])) && bool_decide (config.ExitPeer c = control.p_NodeID p))
                          (rev (control.r_Peers room)) with Some p => control.p_Name p | None => control.x_Member x end in
    control.MkExit (control.Choice x) (config.Name c) member true (control.AllowLAN x)
  else x.
Definition exit_choice (st : nodestate.State) : bytes * bool :=
  match nodestate.Exit st with
  | Some c => if nodestate.exit_Off c then (str "off", false)
              else (nodestate.exit_Room c ++ [32] ++ nodestate.exit_Member c, nodestate.KillSwitch c && nodestate.AllowLAN c)
  | None => (str "auto", false)
  end.

(** [Node.Status]; [rooms] are the running rooms in the order they are sorted
    into, [st] is the state file ([None] when it is not read). *)
Definition Status (me : Self) (n : Node) (now : Z) (st : option nodestate.State) (rooms : list (bytes * running * Live)) : control.Status :=
  let state := default nodestate.emptyState st in
  let rs := (fun '(k, r, l) => (cfg r, room_status n now k r l)) <$> rooms in
  let '(choice, lan) := exit_choice state in
  let x := fold_left (fun x cr => note_exit cr.1 cr.2 x) rs (control.MkExit choice [] [] false lan) in
  let '(dns, dnsRoom) := fold_left (fun d cr => match control.r_DNS cr.2 with [] => d | l => (l, config.Name cr.1) end) rs ([], []) in
  let '(addr, ready, via) := match relay me with
                             | Some (a, ready, stream) => (a, ready, if stream : bool then str "vless" else str "udp")
                             | None => ([], false, [])
                             end in
  control.MkStatus (id me) (version me) (started me) (port me) (portMap me) addr ready via
    (controller_status me <$> nodestate.Controllers state) (snd <$> rs) x (negb (bool_decide (ksKey n = []))) dns dnsRoom
    (updateAvail me) (match st with Some s => nodestate.Off s | None => [] end).

(** ** The channels: everybody may ask for the status, only the first channel
    makes the node read its state again. *)
Inductive channel := Full | StatusOnly.
Inductive control_answer := GotStatus | Reloaded | NotAllowed.
Definition serve (ch : channel) (method path : bytes) : control_answer :=
  if bool_decide (path = str "/status") && (bool_decide (method = str "GET") || bool_decide (method = str "HEAD")) then GotStatus
  else match ch with
       | Full => if bool_decide (path = str "/reload") && bool_decide (method = str "POST") then Reloaded else NotAllowed
       | StatusOnly => NotAllowed
       end.

(** ** The choice of an exit *)

Lemma note_exits_choice (rs : list (config.Room * control.Room)) x : control.Choice (fold_left (fun x cr => note_exit cr.1 cr.2 x) rs x) = control.Choice x.
Proof. revert x. induction rs as [| cr rs IH]; intros x; cbn [fold_left]; [done |]. rewrite IH. unfold note_exit. by destruct (control.r_Exit cr.2). Qed.

Lemma Status_choice me n now st rooms :
  control.Choice (control.Exit (Status me n now st rooms)) = (exit_choice (default nodestate.emptyState st)).1.
Proof.
  unfold Status. destruct (exit_choice _) as [choice lan]. destruct (fold_left _ _ ([], [])) as [d dr].
  destruct (match relay me with Some _ => _ | None => _ end) as [[addr ready] via]. cbn [control.Exit]. by rewrite note_exits_choice.
Qed.

(** what "zpt exit" was given is what the status of the node then tells. *)
Theorem exit_told me n now s args ks lan s' b rooms : zptcmd.exit s args ks lan = Ok (Some (s', b)) ->
  control.Choice (control.Exit (Status me n now (Some s') rooms)) = Join 32 args.
Proof.
  intros H. rewrite Status_choice. cbn [default]. destruct args as [| a [| m [|]]]; try done; cbn [zptcmd.exit] in H.
  - repeat case_bool_decide; simplify_eq/=; done.
  - destruct (lan && negb ks); [done |]. by simplify_eq/=.
Qed.

(** ** Each peer gets its own statistics *)

(** A peer's lines: its key and what is told of it. *)
Record block := MkBlock { b_key : bytes; b_rest : list (bytes * bytes) }.
Definition block_ok (b : block) : Prop :=
  bytes_ok (b_key b) /\ length (b_key b) = 32%nat /\ Forall (fun kv => kv.1 <> str "public_key") (b_rest b).
Definition block_lines (b : block) : list (bytes * bytes) := (str "public_key", hex_encode (b_key b)) :: b_rest b.
(** What the lines of one peer say. *)
Definition told (b : block) : uapiPeer :=
  default no_peer (flush (fold_left uapi_line (b_rest b) (MkUapi (Some (b_key b)) no_peer 0 ∅)) !! b_key b).

Lemma rest_line kv u : kv.1 <> str "public_key" ->
  cur (uapi_line u kv) = cur u /\ out (uapi_line u kv) = out u
  /\ forall o, uapi_line (MkUapi (cur u) (p u) (sec u) o) kv = MkUapi (cur u) (p (uapi_line u kv)) (sec (uapi_line u kv)) o.
Proof.
  destruct kv as [k v]. cbn [fst]. intros Hk. unfold uapi_line. rewrite !(bool_decide_eq_false_2 (k = str "public_key")) by done.
  by repeat (case_bool_decide; [done |]).
Qed.
Lemma rest_lines l u : Forall (fun kv => kv.1 <> str "public_key") l ->
  cur (fold_left uapi_line l u) = cur u /\ out (fold_left uapi_line l u) = out u
  /\ forall o, fold_left uapi_line l (MkUapi (cur u) (p u) (sec u) o)
       = MkUapi (cur u) (p (fold_left uapi_line l u)) (sec (fold_left uapi_line l u)) o.
Proof.
  intros Hl. revert u. induction Hl as [| kv l Hk Hl IH]; intros u; cbn [fold_left]; [done |].
  destruct (rest_line kv u Hk) as (Hc & Ho & Hu). destruct (IH (uapi_line u kv)) as (Hc' & Ho' & Hu').
  rewrite Hc', Hc, Ho', Ho. split; [done |]. split; [done |]. intros o. rewrite Hu, <- Hc. apply Hu'.
Qed.

(** The state after a peer's lines, and the peers before it. *)
Lemma block_read b u : block_ok b -> flush (fold_left uapi_line (block_lines b) u) = <[b_key b := told b]> (flush u).
Proof.
  intros (Hb & Hl & Hr). unfold block_lines. cbn [fold_left]. unfold uapi_line at 2. rewrite bool_decide_eq_true_2 by done.
  rewrite (proj1 (proj2 (vless.scan_pairs_hex (b_key b) Hb))). unfold zlen, identity.KeyLen. rewrite Hl. change (Z.of_nat 32 =? 32) with true. cbv iota.
  unfold told. set (u0 := MkUapi (Some (b_key b)) no_peer 0 ∅). destruct (rest_lines (b_rest b) u0 Hr) as (Hc & Ho & Hu).
  rewrite (Hu (flush u) : fold_left uapi_line (b_rest b) (MkUapi (Some (b_key b)) no_peer 0 (flush u)) = _).
  unfold flush at 1 3. rewrite Hc, Ho. cbn [cur u0 out p sec]. by rewrite lookup_insert_eq.
Qed.

(** reading the statistics of the devices gives every peer what the lines after
    its key say, however the peers are ordered; of a key that comes twice, the
    last counts. *)
Theorem parse_blocks bs : Forall block_ok bs ->
  parse_pairs (concat (map block_lines bs)) = fold_left (fun m b => <[b_key b := told b]> m) bs ∅.
Proof.
  intros Hb. unfold parse_pairs. set (u := MkUapi None no_peer 0 ∅). change ∅ with (flush u). generalize u. clear u.
  induction Hb as [| b bs Hb _ IH]; intros u; cbn [map concat fold_left]; [done |]. by rewrite fold_left_app, IH, block_read.
Qed.
End status.
