(* ===== verification/Tray.v ===== *)
(** The menu of the tray icon (cmd/zpt-tray/model.go) as data: what each entry
    runs when it is clicked, from the status of the node.

    The theorems: an entry that runs zpt runs one of a few commands, on a room
    that is up, a room that is turned off or an exit that is offered; and the
    entry of an exit that was chosen is the one that is checked afterwards. *)
From stdpp Require Import base gmap list strings sets.
From Stdlib Require Import ZArith Lia.
From S2P Require Import Prelude GoStrings GoText Netip NetText Encoding Crypto Controller Config NodeState Node Cmd Status.

Open Scope Z_scope.

Module tray.

Inductive Action : Type := ActNone | ActCopy (arg : bytes) | ActZpt (args : list bytes) | ActPaste | ActQuit | ActStatus.
Inductive Item : Type := MkItem { Title : bytes; Tooltip : bytes; Checked : bool; Checkable : bool; Disabled : bool; Separator : bool; Act : Action; Children : list Item }.
Record Model := MkModel { State : bytes; m_Tooltip : bytes; Menu : list Item }.

Definition sep : Item := MkItem [] [] false false false true ActNone [].
Definition label (t : bytes) : Item := MkItem t [] false false true false ActNone [].
Definition entry (t : bytes) (a : Action) : Item := MkItem t [] false false false false a [].
Definition group (t : bytes) (l : list Item) : Item := MkItem t [] false false false false ActNone l.
Definition choice (t : bytes) (on : bool) (args : list bytes) : Item := MkItem t [] on true false false (ActZpt args) [].

Definition pathText (p : control.Peer) : bytes :=
  if bool_decide (control.Path p = str "direct") then str "напрямую"
  else if bool_decide (control.Path p = str "relay") then str "через ретранслятор" else str "нет связи".

Definition roomsWord (n : Z) : bytes :=
  if n =? 0 then str "нет активных комнат"
  else if (n mod 10 =? 1) && negb (n mod 100 =? 11) then Itoa n ++ str " комната"
  else if (2 <=? n mod 10) && (n mod 10 <=? 4) && ((n mod 100 <? 12) || (14 <? n mod 100)) then Itoa n ++ str " комнаты"
  else Itoa n ++ str " комнат".

(** [shorten(s, n)] for a positive [n]. *)
Definition shorten (s : bytes) (n : nat) : bytes :=
  let r := runes s in
  if (n <? length r)%nat then string_of_runes (take (n - 1) r) ++ str "…" else s.

Definition dash : bytes := str " — ".
Definition peer_items (p : control.Peer) : Item :=
  MkItem (control.p_Name p ++ dash ++ Addr_String (control.IP p) ++ str " (" ++ pathText p ++ str ")") (str "скопировать адрес") false false false false
    (ActCopy (Addr_String (control.IP p))) [].
Definition exit_items (s : control.Status) (r : control.Room) : list Item :=
  if bool_decide (control.r_ID r = []) then []
  else map (fun p => choice (control.p_Name p ++ str " в комнате " ++ control.r_Name r)
                       (bool_decide (control.Choice (control.Exit s) = control.r_Name r ++ [32] ++ control.p_Name p))
                       [str "exit"; control.r_Name r; control.p_Name p])
         (List.filter control.ExitOffered (control.r_Peers r)).
Definition room_item (r : control.Room) : Item :=
  let my := Addr_String (pfx_ip (control.Address r)) in
  group (control.r_Name r ++ dash ++ my)
    ([entry (str "Скопировать мой адрес " ++ my) (ActCopy my)]
     ++ match control.r_Peers r with [] => [] | ps => sep :: map peer_items ps end
     ++ if bool_decide (control.r_ID r = []) then []
        else [sep; entry (str "Выключить комнату на этом устройстве") (ActZpt [str "room"; str "off"; control.r_ID r])]).
Definition off_item (o : nodestate.OffRoom) : Item :=
  group (nodestate.off_Name o ++ str " — выключена") [entry (str "Включить") (ActZpt [str "room"; str "on"; nodestate.off_ID o])].
Definition exit_menu (s : control.Status) : Item :=
  let x := control.Exit s in
  let exits := flat_map (exit_items s) (control.Rooms s) in
  group (if control.Active x then str "Выход в интернет: через " ++ control.x_Member x else str "Выход в интернет")
    ([choice (str "Как решили админы комнат") (bool_decide (control.Choice x = str "auto") || bool_decide (control.Choice x = [])) [str "exit"; str "auto"];
      choice (str "Напрямую, без exit") (bool_decide (control.Choice x = str "off")) [str "exit"; str "off"]]
     ++ match exits with [] => [] | l => sep :: l end).

(** [BuildModel]; an error comes with its text. *)
Definition BuildModel (s : control.Status + bytes) : Model :=
  match s with
  | inr err =>
    MkModel (str "down") (str "zeropentime: " ++ err)
      [label (str "Узел не отвечает"); label (shorten err 60); sep; entry (str "Вступить по приглашению из буфера") ActPaste; sep;
       entry (str "Закрыть трей") ActQuit]
  | inl s =>
    let word := roomsWord (zlen (control.Rooms s)) in
    MkModel (if bool_decide (control.Rooms s = []) then str "idle" else str "on") (str "zeropentime: " ++ word)
      ([label (str "zeropentime — " ++ word)]
       ++ (if bool_decide (control.UpdateAvailable s = []) then []
           else [entry (str "Установить обновление " ++ control.UpdateAvailable s) (ActZpt [str "update"; str "-yes"])])
       ++ [sep] ++ map room_item (control.Rooms s) ++ map off_item (control.Off s)
       ++ (if 0 <? zlen (control.Rooms s) + zlen (control.Off s) then [sep] else [])
       ++ [exit_menu s; entry (str "Вступить по приглашению из буфера") ActPaste; entry (str "Подробное состояние") ActStatus; sep;
           entry (str "Закрыть трей") ActQuit])
  end.

(** [signature]: the text by which a menu that is drawn again is recognised. *)
Fixpoint walk (it : Item) : bytes :=
  str "|" ++ Title it ++ str "/" ++ controller.bool_String (Checked it) ++ str "/" ++ controller.bool_String (Disabled it) ++ str "/" ++ controller.bool_String (Separator it) ++ str "["
  ++ concat (map walk (Children it)) ++ str "]".
Definition signature (m : Model) : bytes := State m ++ str "|" ++ m_Tooltip m ++ concat (map walk (Menu m)).

Definition IsInvite (s : bytes) : bool :=
  let s := TrimSpace s in HasPrefix s (str "zpt://join?") || HasPrefix s (str "zpt://local?").

(** ** What the entries run *)

Fixpoint actions (it : Item) : list Action := Act it :: concat (map actions (Children it)).
Definition menu_actions (m : Model) : list Action := concat (map actions (Menu m)).

(** The commands that the status of a node justifies. *)
Inductive justified (s : control.Status) : list bytes -> Prop :=
  | j_update : control.UpdateAvailable s <> [] -> justified s [str "update"; str "-yes"]
  | j_off r : r ∈ control.Rooms s -> control.r_ID r <> [] -> justified s [str "room"; str "off"; control.r_ID r]
  | j_on o : o ∈ control.Off s -> justified s [str "room"; str "on"; nodestate.off_ID o]
  | j_exit r p : r ∈ control.Rooms s -> control.r_ID r <> [] -> p ∈ control.r_Peers r -> control.ExitOffered p = true ->
      justified s [str "exit"; control.r_Name r; control.p_Name p]
  | j_auto : justified s [str "exit"; str "auto"]
  | j_direct : justified s [str "exit"; str "off"].

(** Actions of the kinds of items. *)
Lemma actions_app l l' a : a ∈ concat (map actions (l ++ l')) <-> a ∈ concat (map actions l) \/ a ∈ concat (map actions l').
Proof. rewrite map_app, concat_app. apply elem_of_app. Qed.
Lemma actions_cons i l a : a ∈ concat (map actions (i :: l)) <-> a ∈ actions i \/ a ∈ concat (map actions l).
Proof. cbn [map concat]. apply elem_of_app. Qed.
Lemma actions_map {X} (f : X -> Item) l a : a ∈ concat (map actions (map f l)) <-> exists x, x ∈ l /\ a ∈ actions (f x).
Proof.
  induction l as [| x l IH]; cbn [map concat]; [split; [by intros ?%elem_of_nil | by intros (x & ?%elem_of_nil & _)] |].
  rewrite elem_of_app, IH. setoid_rewrite elem_of_cons. naive_solver.
Qed.
Lemma actions_flat {X} (f : X -> list Item) l a : a ∈ concat (map actions (flat_map f l)) <-> exists x, x ∈ l /\ a ∈ concat (map actions (f x)).
Proof.
  induction l as [| x l IH]; cbn [flat_map map concat]; [split; [by intros ?%elem_of_nil | by intros (x & ?%elem_of_nil & _)] |].
  rewrite actions_app, IH. setoid_rewrite elem_of_cons. naive_solver.
Qed.
Lemma actions_item t tt_ c k d s a l x : x ∈ actions (MkItem t tt_ c k d s a l) <-> x = a \/ x ∈ concat (map actions l).
Proof. cbn [actions]. apply elem_of_cons. Qed.

(** What of an item runs zpt. *)
Definition runs (args : list bytes) (l : list Item) : Prop := ActZpt args ∈ concat (map actions l).
Lemma runs_nil args : runs args [] <-> False.
Proof. split; [by intros ?%elem_of_nil | done]. Qed.
Lemma runs_sep args l : runs args (sep :: l) <-> runs args l.
Proof. unfold runs. rewrite actions_cons. unfold sep. rewrite actions_item. split; [intros [[| ?%elem_of_nil] |]; done | tauto]. Qed.
Lemma runs_label args t l : runs args (label t :: l) <-> runs args l.
Proof. unfold runs. rewrite actions_cons. unfold label. rewrite actions_item. split; [intros [[| ?%elem_of_nil] |]; done | tauto]. Qed.
Lemma runs_zpt args t a l : runs args (entry t (ActZpt a) :: l) <-> args = a \/ runs args l.
Proof.
  unfold runs. rewrite actions_cons. unfold entry. rewrite actions_item. split; [intros [[[= ->] | ?%elem_of_nil] |]; try done; tauto |].
  intros [-> |]; tauto.
Qed.
Lemma runs_entry args t a l : (forall x, a <> ActZpt x) -> runs args (entry t a :: l) <-> runs args l.
Proof.
  intros Ha. unfold runs. rewrite actions_cons. unfold entry. rewrite actions_item. split; [intros [[H | ?%elem_of_nil] |]; try done |]; [| tauto].
  by destruct (Ha args).
Qed.
Lemma runs_choice args t on a l : runs args (choice t on a :: l) <-> args = a \/ runs args l.
Proof.
  unfold runs. rewrite actions_cons. unfold choice. rewrite actions_item. split; [intros [[[= ->] | ?%elem_of_nil] |]; try done; tauto |].
  intros [-> |]; tauto.
Qed.
Lemma runs_group args t g l : runs args (group t g :: l) <-> runs args g \/ runs args l.
Proof. unfold runs. rewrite actions_cons. unfold group. rewrite actions_item. split; [intros [[|] |]; try done; tauto | tauto]. Qed.
Lemma runs_app args l l' : runs args (l ++ l') <-> runs args l \/ runs args l'.
Proof. apply actions_app. Qed.
Lemma runs_map {X} args (f : X -> Item) l : runs args (map f l) <-> exists x, x ∈ l /\ runs args [f x].
Proof. unfold runs. rewrite actions_map. setoid_rewrite actions_cons. setoid_rewrite elem_of_nil. naive_solver. Qed.
Lemma runs_flat {X} args (f : X -> list Item) l : runs args (flat_map f l) <-> exists x, x ∈ l /\ runs args (f x).
Proof. apply actions_flat. Qed.

Lemma runs_peers args ps : runs args (map peer_items ps) <-> False.
Proof. rewrite runs_map. split; [| done]. intros (q & _ & H). unfold runs, peer_items in H. rewrite actions_cons, actions_item in H. by destruct H as [[| ?%elem_of_nil] | ?%elem_of_nil]. Qed.
Lemma runs_room args r : runs args [room_item r] <-> control.r_ID r <> [] /\ args = [str "room"; str "off"; control.r_ID r].
Proof.
  unfold room_item. rewrite runs_group, runs_nil, !runs_app, runs_entry, runs_nil by done.
  assert (runs args match control.r_Peers r with [] => [] | ps => sep :: map peer_items ps end <-> False) as ->.
  { destruct (control.r_Peers r) as [| q ps]; [apply runs_nil |]. by rewrite runs_sep, runs_peers. }
  case_bool_decide as H; [rewrite runs_nil; tauto |]. rewrite runs_sep, runs_zpt, runs_nil. tauto.
Qed.
Lemma runs_off args o : runs args [off_item o] <-> args = [str "room"; str "on"; nodestate.off_ID o].
Proof. unfold off_item. rewrite runs_group, runs_zpt, !runs_nil. tauto. Qed.
Lemma runs_exits args s r : runs args (exit_items s r) <->
  control.r_ID r <> [] /\ exists p, p ∈ control.r_Peers r /\ control.ExitOffered p = true /\ args = [str "exit"; control.r_Name r; control.p_Name p].
Proof.
  unfold exit_items. case_bool_decide as H; [rewrite runs_nil; tauto |]. rewrite runs_map. setoid_rewrite runs_choice. setoid_rewrite runs_nil.
  setoid_rewrite list_elem_of_In. setoid_rewrite filter_In. naive_solver.
Qed.

Lemma runs_exit_menu args s : runs args [exit_menu s] <->
  args = [str "exit"; str "auto"] \/ args = [str "exit"; str "off"] \/ exists r, r ∈ control.Rooms s /\ runs args (exit_items s r).
Proof.
  unfold exit_menu. cbv zeta. rewrite runs_group, runs_nil. cbn [app]. rewrite !runs_choice.
  rewrite <- (runs_flat args (exit_items s)). destruct (flat_map _ _) as [| i l]; [tauto |]. rewrite runs_sep. tauto.
Qed.

(** the entries of the menu run exactly the commands that the status of the node
    justifies: every room of a controller can be turned off, every room that is
    off can be turned on, every exit that is offered can be chosen, and nothing
    else is run. *)
Theorem menu_justified s args : ActZpt args ∈ menu_actions (BuildModel (inl s)) <-> justified s args.
Proof.
  change (runs args (Menu (BuildModel (inl s))) <-> justified s args). cbn [BuildModel Menu].
  rewrite !runs_app, runs_label, runs_nil, runs_sep, !runs_map. setoid_rewrite runs_room. setoid_rewrite runs_off.
  assert (runs args (if 0 <? zlen (control.Rooms s) + zlen (control.Off s) then [sep] else []) <-> False) as ->.
  { destruct (_ <? _); [by rewrite runs_sep, runs_nil | apply runs_nil]. }
  assert (forall l, runs args (exit_menu s :: l) <-> runs args [exit_menu s] \/ runs args l) as Hx by (intros l; apply (runs_app _ [_])).
  rewrite Hx, runs_exit_menu, !runs_entry, runs_sep, runs_entry, !runs_nil by done. setoid_rewrite runs_exits.
  assert (runs args (if bool_decide (control.UpdateAvailable s = []) then [] else
      [entry (str "Установить обновление " ++ control.UpdateAvailable s) (ActZpt [str "update"; str "-yes"])])
    <-> control.UpdateAvailable s <> [] /\ args = [str "update"; str "-yes"]) as ->.
  { case_bool_decide; [rewrite runs_nil; tauto | rewrite runs_zpt, runs_nil; tauto]. }
  split.
  - intros H. repeat match goal with
      | H : _ \/ _ |- _ => destruct H | H : _ /\ _ |- _ => destruct H | H : ex _ |- _ => destruct H | H : False |- _ => destruct H end;
      subst; by constructor.
  - intros []; naive_solver.
Qed.

(** the entry of an exit that was clicked, and of no exit of another text, is
    checked in the menu of the status the node tells afterwards. *)
Theorem clicked_checked me n now st room member ks lan s b rooms (r : control.Room) (p : control.Peer) :
  zptcmd.exit st [room; member] ks lan = Ok (Some (s, b)) ->
  let menu := exit_items (status.Status me n now (Some s) rooms) r in
  control.r_ID r <> [] -> p ∈ control.r_Peers r -> control.ExitOffered p = true ->
  exists on, choice (control.p_Name p ++ str " в комнате " ++ control.r_Name r) on [str "exit"; control.r_Name r; control.p_Name p] ∈ menu
    /\ (on = true <-> control.r_Name r ++ [32] ++ control.p_Name p = room ++ [32] ++ member).
Proof.
  intros He menu Hr Hp Ho. eexists. split.
  - unfold menu, exit_items. rewrite bool_decide_eq_false_2 by done. apply list_elem_of_fmap. exists p. split; [reflexivity |].
    apply list_elem_of_In, filter_In. by rewrite <- list_elem_of_In.
  - rewrite bool_decide_eq_true, (status.exit_told me n now _ _ _ _ _ _ rooms He). split; intros H; exact (eq_sym H).
Qed.

(** ** A menu that changes without its signature: two rooms of one name, of which
    first one and then the other is turned off. *)
Definition off_only (id : bytes) : control.Status :=
  control.MkStatus [] [] 0 0 AddrPortZero [] false [] [] [] (control.MkExit (str "auto") [] [] false false) false [] [] []
    [nodestate.MkOffRoom id (str "дом")].
Theorem stale_menu : let m id := BuildModel (inl (off_only id)) in
  signature (m (str "a")) = signature (m (str "b"))
  /\ ActZpt [str "room"; str "on"; str "b"] ∈ menu_actions (m (str "b")) /\ ActZpt [str "room"; str "on"; str "b"] ∉ menu_actions (m (str "a")).
Proof.
  cbv zeta. split; [vm_compute; reflexivity |]. rewrite !menu_justified. split; [apply (j_on _ (nodestate.MkOffRoom (str "b") (str "дом"))), list_elem_of_singleton; done |].
  intros H. inversion H; subst; try done.
  match goal with H : _ ∈ control.Off _ |- _ => apply list_elem_of_singleton in H as -> end. done.
Qed.
End tray.
